(* ===== verification/_CoqProject ===== *)
-Q . S2P
Prelude.v
Layout.v
Logging.v
Disk.v
Bitmap.v
PathName.v
Block.v
DirBlock.v
BlockGroup.v
BlockCache.v
DentryCache.v
FileSystem.v
FileStatus.v
OpenFiles.v
FsBlocks.v
FileData.v
FsPointers.v
FsAlloc.v
FileBlocks.v
FsInodes.v
FileGrow.v
FileWrite.v
FileIO.v
FsMount.v
FsPersist.v
DentryTree.v
DirVisit.v
Directory.v
PathLookup.v
Frames.v
PathCreate.v
Handlers.v
Entry.v
InodeAttrs.v
AbstractFs.v
Steady.v
OpenTree.v
SessionIO.v
SessionOpen.v
SessionAttr.v
SessionList.v
SessionMake.v
Sessions.v
SessionPersist.v
Errors.v
NumberIO.v
TestPrograms.v
TestRuns.v
Scenarios.v
FsList.v
Locks.v
LockThreads.v
