(* ===== verification/Prelude.v ===== *)
(** * NaiveFS, an ext2-like file system over FUSE: verification development

    NaiveFS keeps a file system in one large file, the virtual disk, and
    serves it through FUSE.  This library models its own code under src/,
    include/ and testcode/ as executable functions over explicit state and
    proves what the parts promise to each other.

    ** The program and the files of this library

    From the bottom up, with the C++ files and functions a Rocq file follows:

    - [Prelude]: machine integers with their wrap-around ([u8], [u16], [u32],
      [u64], [i32]), faults and the state monad, loops and early returns,
      byte lists with [slice], [splice], [ld] and [st], counting.
    - [Layout]: include/common.h, include/ext2/: constants, the structures as
      byte offsets and widths, an inode as a record with its encoding, the
      return codes and Code2Errno.
    - [Logging]: src/utils/logging.cpp: the log file as a list of lines.
    - [Disk]: src/utils/disk.cpp: __disk_read and __disk_write over an array
      of sectors, with lseek, pread, write and errno; disk_open, disk_close
      and alloc_aligned over the calls of the system.
    - [Bitmap]: utils/bitmap.h and .cpp; [PathName]: utils/path.h and .cpp.
    - [Block]: include/block.h, src/block.cpp: Block, SuperBlock, BitmapBlock,
      DentryBlock; [DirBlock] has its theory.
    - [BlockGroup]: src/block.cpp: bitmaps, descriptor and inode table of a
      group; taking and freeing inodes and blocks.
    - [BlockCache]: src/cache.cpp: the write-back LRU cache as a doubly linked
      list of heap nodes with two sentinels, a pool and a hash map, over a heap
      of blocks and the disk (record [Store]).
    - [DentryCache]: src/cache.cpp: the tree of names, every node with a ring
      of children; [free] makes a pointer dangle.
    - [FileSystem]: src/filesystem.cpp: every operation of the class over the
      record [FS] (store, super block, loaded groups, cache of names, the
      copies of inodes that open files share).
    - [FileStatus]: include/operation.h, src/operation/operation.cpp: the
      cursor of an open file, seek, bf_seek, next_block.
    - [OpenFiles]: operation.h, operation.cpp, data.cpp: InodeCache, OpManager,
      FSList, reading and writing through a handle (record [OpSt]).
    - [FsList]: operation.h: FSList as nodes with pointers.
    - [Handlers]: meta.cpp, dir.cpp, attr.cpp, symlink.cpp, special.cpp.
    - [Entry]: src/main.cpp: the table of handlers, main, the test functions.
    - [Locks]: the locks that every handler takes and the shared data that it
      touches under them, path by path; [LockThreads]: threads that serve
      requests, as a step relation with reader-writer locks.
    - [NumberIO]: testcode/fwrite.cpp: the buffer with its writer of numbers,
      its reader, whose pointer nothing sets, and main.
    - [TestPrograms]: testcode/basic.cpp, manyfile.cpp and multirw.cpp: each
      program as a tree of system calls, run by any system that is an instance
      of the class [Posix]; the threads of multirw.cpp interleave their calls
      and end where [test] flows off its end, which is undefined ([PUndef]).
      [TestRuns] has the instance whose calls are served by the handlers.

    The theory of the composed parts:

    - [FsBlocks]: get_block: what a block holds ([fview]) does not depend on
      what is cached; the interface [Reader] of the cursors is implemented.
    - [FsPointers], [FileData]: Block pointers that stay good while a bounded
      number of other blocks is touched ([recent]); reading a file.
    - [FsAlloc]: alloc_block and free_block; the invariant [fs_wf].
    - [FileBlocks], [FileGrow]: the tree of blocks of an inode and
      alloc_block with an inode over direct, single and double indirect blocks.
    - [FileWrite], [FileIO]: writes and reads of an open file refine a list of
      bytes, one at a time and in any sequence.
    - [FsInodes]: get_inode and alloc_inode.
    - [FsMount]: the constructor on an empty disk and the states reachable
      from it by steps (an inductive relation).
    - [FsPersist]: the destructor and the constructor: what is on the disk
      after flush, and what a mount of that disk shows ([shows]).
    - [DirVisit], [Directory]: visit_inode_blocks as a loop rule; a directory
      refines a finite map from names to inodes.
    - [DentryTree], [PathLookup], [PathCreate]: the cache of names agrees with
      the tree of directories; inode_lookup and inode_create by path refine
      operations on that tree.
    - [Frames]: what an operation on one inode leaves alone ([framed]).
    - [InodeAttrs]: the shared copies of inodes.
    - [AbstractFs]: the file system that the handlers promise: an abstract
      state, the requests, what each may answer and leave ([spec]), and what
      it needs ([call_pre]).
    - [OpenTree]: the relation [rep] between the state of the program and the
      abstract state, with files open or not; [Steady]: reads and writes make
      and close no handles.
    - [SessionIO], [SessionOpen], [SessionAttr], [SessionList], [SessionMake]:
      one refinement lemma per handler; [Sessions]: lists of requests.
    - [SessionPersist]: fsync, and what fuse_destroy leaves for fuse_init.
    - [Errors]: which requests are refused, with which code ([refusal]).
    - [Scenarios]: whole runs of the handlers, evaluated by the kernel.

    ** Conventions

    A function of the code is a function in the state monad [M S A]: it
    returns a value and a state or stops in a fault (failed ASSERT, null or
    dangling pointer, access out of range, division by zero, overflow of a
    signed integer).  The debug build is modelled: ASSERT is checked.  Early
    returns are the [inl] of a sum, bound by [←?].  Pointers that the handlers
    compare with null ([fi], the handle in it, [stbuf], the path of fsync) may
    be null; the global [fs] is not, since [OpSt] is the state between fuse_init
    and fuse_destroy.  An inode pointer is a place: a slot of a loaded table or a
    copy shared by open files, so that aliasing is visible.  The clock and the
    caller of FUSE are type classes ([Clock], [Caller]) and arbitrary in the
    theorems.

    Bounds and fuel.  Loops over rings of the cache of names have one more
    step than there are nodes; the loops of reads and writes have
    size / BLOCK_SIZE + 2 steps and the loop that grows a file
    offset / BLOCK_SIZE + 2; DentryBlock's constructor has as many steps as a
    block has bytes; the recursion of inode_delete is bounded by the number of
    inodes.  The theorems on files, directories and paths prove that the
    functions return, so the fuel is enough wherever they apply.  Files are
    covered up to [MAX_BLOCKS] = 1049612 blocks (the end of the double indirect
    range, more than the 4 GiB that [i_size] can count), directories up to 1036
    blocks (the end of the single indirect range) when the cache can hold the
    blocks that one visit touches.

    ** What the theorems show

    - Disk, bitmap, path, directory block: round trips and exact behaviour.
    - Block groups: allocation takes the lowest free bit, counts stay right,
      taking an inode leaves every other one, loaded or on the disk; data blocks
      of the first 32 groups, whose offsets fit into 32 bits, are apart on the
      disk, and group 32 overlaps group 0.
    - Cache of names: a lookup finds the first child of the name; removing a
      child frees it with all that is below it and follows no freed pointer.
    - Block cache: every operation refines a list of entries in LRU order, and
      contents are what was written last; a flush leaves them on disk.
    - File system: a used block reads as it was written; allocation returns
      fresh zero blocks; growing a file changes no other file.
    - Open files: reads and writes are those of a list of bytes, through every
      handle of the file; other files are untouched, and a read changes no block
      (it may answer what the block has behind the end of the file).
    - Directories and paths: names are a finite map per directory; lookup by
      path is a walk in the tree, whatever is cached; creation adds one name and
      one inode and keeps every block with one owner; what was created is found.
    - Mounting an empty disk establishes the invariants the others assume;
      unmounting and mounting again, with one group in use ([mountable]), shows
      the same blocks, inodes and files.
    - Sessions: any list of requests that meets [call_pre] and fits into the
      space left is answered as the abstract file system says, with any number
      of files open and shared between handles, by any callers; no handler
      faults.  What was served is shown again after fuse_destroy and fuse_init,
      when nothing is open and one group is in use; fsync changes nothing that a
      request can see and writes the metadata to the disk.
    - Errors: a request that the abstract state refuses, by any handler, is
      answered with the code of [refusal] and leaves the abstract state and the
      space left as they were.
    - Test programs: on every system that obeys the laws of POSIX that they
      rely on ([PosixLaws]) the assertions of basic.cpp, manyfile.cpp and
      multirw.cpp hold, the last in every interleaving of the calls of its
      threads; a small kernel on top of the handlers, one call at a time, obeys
      these laws.  fwrite.cpp prints its numbers in decimal, one per line.
    - Locks: locks are taken in one order and released on every path; threads
      do not deadlock, every schedule of finitely many requests ends, and the
      state of open files is free of data races.  The block cache and the groups
      are not: they are exempt from [guard], and a race on them is shown.
    - Runs: data survives a remount; and places where the code does not do what
      its callers expect (a regular file read as a directory, a block that
      shows old data after a remount, a link that is lost, and others).

    ** Not modelled

    The FUSE library, the standard library's memory management (destructors
    that only free memory, apart from those of FSList and DentryCache), the
    texts that show_help and printf write.  The operating system between the
    test programs and the handlers is the parameter [Posix].  In the sequential
    model a call is one step and the calls of the logging macros are left out.

    Modelled, and covered by [Errors] where they refuse, but not the subject of
    general theorems where they succeed: inode_unlink, inode_link and rename by
    path (an inode that loses its last link leaves its old data in blocks that
    are free, so the invariant that free blocks read as zeros ends there) and
    symbolic links.  Growth in the triple indirect range is modelled without a
    theorem.  A session does not go on over a remount: after a mount the inode
    tables are loaded one block at a time, which [rep] does not describe. *)

From stdpp Require Export base gmap list sorting.
From coqutil Require Export Byte Word.LittleEndianList.
From Stdlib Require Export ZArith Lia.
From Stdlib Require Strings.Byte.

#[global] Open Scope Z_scope.

Declare Scope naivefs_scope.
#[global] Open Scope naivefs_scope.

(** ** Machine integers

    Values of the C types are integers kept in range by an explicit
    wrap-around at every place where the source converts or overflows. *)

Definition u8 (z : Z) : Z := z mod 2 ^ 8.

Definition u16 (z : Z) : Z := z mod 2 ^ 16.

Definition u32 (z : Z) : Z := z mod 2 ^ 32.

Definition u64 (z : Z) : Z := z mod 2 ^ 64.

(** Conversion to a signed 32-bit [int] (two's complement). *)
Definition i32 (z : Z) : Z := (z + 2 ^ 31) mod 2 ^ 32 - 2 ^ 31.

Lemma u8_range z : 0 <= u8 z < 256.
Proof. apply Z.mod_pos_bound; lia. Qed.

Lemma u16_range z : 0 <= u16 z < 65536.
Proof. apply Z.mod_pos_bound; lia. Qed.

Lemma u32_range z : 0 <= u32 z < 4294967296.
Proof. apply Z.mod_pos_bound; lia. Qed.

Lemma u32_small z : 0 <= z < 4294967296 -> u32 z = z.
Proof. intros. apply Z.mod_small. lia. Qed.

Lemma u16_small z : 0 <= z < 65536 -> u16 z = z.
Proof. intros. apply Z.mod_small. lia. Qed.

Lemma u8_small z : 0 <= z < 256 -> u8 z = z.
Proof. intros. apply Z.mod_small. lia. Qed.

Lemma i32_small z : - 2147483648 <= z < 2147483648 -> i32 z = z.
Proof. intros. unfold i32. rewrite Z.mod_small; lia. Qed.

(** ** Faults and the state monad

    A C++ computation either returns a value and a new state, or it stops in
    a fault: a failed [ASSERT] (the debug build aborts), a null, dangling or
    out-of-range access, a division by zero or an overflow of a signed integer
    (undefined behaviour), or, for the loops whose bound is data dependent,
    the fuel of the model. *)

Inductive fault : Type :=
| AssertFail
| NullDeref
| UseAfterFree
| OutOfBounds
| DivByZero
| SignedOverflow
| OutOfFuel.

#[global] Instance fault_eq_dec : EqDecision fault.
Proof. solve_decision. Defined.

Inductive outcome (S A : Type) : Type :=
| Ret (a : A) (s : S)
| Fault (f : fault).

Arguments Ret {S A} a s.
Arguments Fault {S A} f.

Definition M (S A : Type) : Type := S -> outcome S A.

#[global] Instance M_ret S : MRet (M S) := fun A a s => Ret a s.

#[global] Instance M_bind S : MBind (M S) := fun A B k m s =>
  match m s with
  | Ret a s' => k a s'
  | Fault f => Fault f
  end.

#[global] Instance M_fmap S : FMap (M S) := fun A B g m s =>
  match m s with
  | Ret a s' => Ret (g a) s'
  | Fault f => Fault f
  end.

Definition fail {S A} (f : fault) : M S A := fun _ => Fault f.

Definition get_st {S} : M S S := fun s => Ret s s.

Definition reads {S A} (g : S -> A) : M S A := fun s => Ret (g s) s.

Definition modify_st {S} (g : S -> S) : M S unit := fun s => Ret tt (g s).

(** [ASSERT(b)] of utils/logging.h, as the debug build compiles it. *)
Definition ASSERT {S} (b : bool) : M S unit :=
  if b then mret tt else fail AssertFail.

Definition unwrap {S A} (f : fault) (o : option A) : M S A :=
  match o with
  | Some a => mret a
  | None => fail f
  end.

(** Unsigned division; a zero divisor traps. *)
Definition udiv {S} (a b : Z) : M S Z :=
  if b =? 0 then fail DivByZero else mret (a / b).

Definition umod {S} (a b : Z) : M S Z :=
  if b =? 0 then fail DivByZero else mret (a mod b).

(** Running a computation of a component inside the state that embeds it. *)
Definition zoom {S T A} (get : T -> S) (put : S -> T -> T) (m : M S A) : M T A :=
  fun t =>
    match m (get t) with
    | Ret a s => Ret a (put s t)
    | Fault f => Fault f
    end.

(** [for (x : xs) body] with an accumulator, stopping early when the body
    answers [inl]. *)
Fixpoint for_list {S A B R} (xs : list B) (body : B -> A -> M S (R + A)) (acc : A)
  : M S (R + A) :=
  match xs with
  | [] => mret (inr acc)
  | x :: xs' =>
      r ← body x acc;
      match r with
      | inl b => mret (inl b)
      | inr acc' => for_list xs' body acc'
      end
  end.

(** Early returns: a computation that answers [inl r] leaves the function
    with [r]; [inr a] goes on. *)
Definition try_bind {S R A B} (m : M S (R + A)) (k : A -> M S (R + B)) : M S (R + B) :=
  r ← m;
  match r with
  | inl e => mret (inl e)
  | inr a => k a
  end.

Notation "x ←? m ; k" := (try_bind m (fun x => k))
  (at level 20, m at level 100, k at level 200, only parsing) : naivefs_scope.

Notation "' x ←? m ; k" := (try_bind m (fun x => k))
  (at level 20, x pattern, m at level 100, k at level 200, only parsing) : naivefs_scope.

(** [return r;] and the value that goes on. *)
Definition ret {S R A} (r : R) : M S (R + A) := mret (inl r).

Definition go {S R A} (m : M S A) : M S (R + A) := inr <$> m.

(** The body of a function with early returns. *)
Definition body {S R} (m : M S (R + R)) : M S R :=
  r ← m;
  mret (match r with inl a => a | inr a => a end).

Definition is_ret {S A} (o : outcome S A) : bool :=
  match o with Ret _ _ => true | Fault _ => false end.

Lemma bind_ret {S A B} (m : M S A) (k : A -> M S B) s a s' :
  m s = Ret a s' -> (m ≫= k) s = k a s'.
Proof. intros H. unfold mbind, M_bind. by rewrite H. Qed.

Lemma bind_inv {S A B} (m : M S A) (k : A -> M S B) s b s2 :
  (m ≫= k) s = Ret b s2 -> exists a s1, m s = Ret a s1 /\ k a s1 = Ret b s2.
Proof.
  unfold mbind, M_bind. destruct (m s) as [a s1|]; [|done]. eauto.
Qed.

Lemma bind_assoc {S A B C} (m : M S A) (k : A -> M S B) (h : B -> M S C) s :
  ((m ≫= k) ≫= h) s = (m ≫= (fun a => k a ≫= h)) s.
Proof. unfold mbind, M_bind. by destruct (m s). Qed.

Lemma try_bind_go {S R A B} (m : M S (R + A)) (k : A -> M S (R + B)) s a s' :
  m s = Ret (inr a) s' -> try_bind m k s = k a s'.
Proof. intros H. unfold try_bind. by rewrite (bind_ret _ _ _ _ _ H). Qed.

Lemma try_bind_stop {S R A B} (m : M S (R + A)) (k : A -> M S (R + B)) s r s' :
  m s = Ret (inl r) s' -> try_bind m k s = Ret (inl r) s'.
Proof. intros H. unfold try_bind. by rewrite (bind_ret _ _ _ _ _ H). Qed.

Lemma body_go {S R} (m : M S (R + R)) s r s' : m s = Ret (inr r) s' -> body m s = Ret r s'.
Proof. intros H. unfold body. by rewrite (bind_ret _ _ _ _ _ H). Qed.

Lemma body_stop {S R} (m : M S (R + R)) s r s' : m s = Ret (inl r) s' -> body m s = Ret r s'.
Proof. intros H. unfold body. by rewrite (bind_ret _ _ _ _ _ H). Qed.

(** Runs one step of a monadic goal whose first computation is known. *)
Ltac mstep H := rewrite (bind_ret _ _ _ _ _ H).

(** The same for a step that may return early, and did not. *)
Ltac tstep H := rewrite (try_bind_go _ _ _ _ _ H).

(** Splits a monadic hypothesis [H : (m ≫= k) s = Ret b s']. *)
Tactic Notation "minv" hyp(H) "as" simple_intropattern(a) simple_intropattern(s)
  simple_intropattern(H1) :=
  apply bind_inv in H; destruct H as (a & s & H1 & H).

(** ** Byte arrays *)

Abbreviation byte := Corelib.Init.Byte.byte.

#[global] Instance byte_eq_dec : EqDecision byte := Byte.byte_eq_dec.

#[global] Instance byte_countable : Countable byte := inj_countable Byte.to_N Byte.of_N Byte.of_to_N.

Definition zeros (n : Z) : list byte := replicate (Z.to_nat n) Byte.x00.

(** The [n] bytes at offset [off]. *)
Definition slice (off n : Z) (d : list byte) : list byte :=
  take (Z.to_nat n) (drop (Z.to_nat off) d).

(** Overwriting [length bs] bytes at offset [off], as memcpy does. *)
Definition splice (off : Z) (bs d : list byte) : list byte :=
  take (Z.to_nat off) d ++ bs ++ drop (Z.to_nat off + length bs) d.

(** Little-endian loads and stores of [n]-byte fields. *)
Definition ld (n : nat) (off : Z) (d : list byte) : Z :=
  le_combine (slice off (Z.of_nat n) d).

Definition st (n : nat) (off v : Z) (d : list byte) : list byte :=
  splice off (le_split n v) d.

Definition in_range (off n : Z) (d : list byte) : bool :=
  (0 <=? off) && (off + n <=? Z.of_nat (length d)).

#[global] Arguments zeros : simpl never.
#[global] Arguments slice : simpl never.
#[global] Arguments splice : simpl never.
#[global] Arguments ld : simpl never.
#[global] Arguments st : simpl never.
#[global] Arguments Z.to_nat : simpl never.

(** Length automation: [len] normalises the lengths of spliced arrays. *)
Create Rewrite HintDb len.

#[export] Hint Rewrite @length_app @length_take @length_drop @length_replicate
  @length_insert @length_fmap length_le_split : len.

Ltac len := autorewrite with len in *; try lia.

Lemma length_zeros n : length (zeros n) = Z.to_nat n.
Proof. apply length_replicate. Qed.

Lemma length_slice off n d :
  0 <= off -> 0 <= n -> off + n <= Z.of_nat (length d) ->
  length (slice off n d) = Z.to_nat n.
Proof. intros. unfold slice. len. Qed.

Lemma length_splice off bs d :
  0 <= off -> off + Z.of_nat (length bs) <= Z.of_nat (length d) ->
  length (splice off bs d) = length d.
Proof. intros. unfold splice. len. Qed.

Lemma length_st n off v d :
  0 <= off -> off + Z.of_nat n <= Z.of_nat (length d) ->
  length (st n off v d) = length d.
Proof. intros. unfold st. apply length_splice; len. Qed.

#[export] Hint Rewrite length_zeros : len.
#[export] Hint Rewrite length_splice using len : len.
#[export] Hint Rewrite length_st using len : len.

Lemma slice_splice_eq off bs d :
  0 <= off -> off + Z.of_nat (length bs) <= Z.of_nat (length d) ->
  slice off (Z.of_nat (length bs)) (splice off bs d) = bs.
Proof.
  intros. unfold slice, splice.
  rewrite drop_app_ge by len. rewrite length_take.
  replace (_ - _)%nat with 0%nat by lia. rewrite drop_0.
  rewrite take_app_le by lia. rewrite take_ge by lia. done.
Qed.

Lemma slice_splice_ne off off' n bs d :
  0 <= off -> off + Z.of_nat (length bs) <= Z.of_nat (length d) ->
  0 <= off' -> 0 <= n ->
  off' + n <= off \/ off + Z.of_nat (length bs) <= off' ->
  slice off' n (splice off bs d) = slice off' n d.
Proof.
  intros Ho Hl Ho' Hn Hd. unfold slice.
  apply list_eq. intros i.
  destruct (decide (i < Z.to_nat n)%nat) as [Hi|Hi].
  2:{ by rewrite !lookup_take_ge by lia. }
  rewrite !lookup_take_lt, !lookup_drop by lia. unfold splice.
  destruct Hd as [Hd|Hd].
  - by rewrite lookup_app_l, lookup_take_lt by len.
  - rewrite lookup_app_r, lookup_app_r by len. rewrite lookup_drop. f_equal. len.
Qed.

Lemma splice_slice_id off n d :
  0 <= off -> 0 <= n -> off + n <= Z.of_nat (length d) ->
  splice off (slice off n d) d = d.
Proof.
  intros. unfold splice, slice.
  assert (HL : length (take (Z.to_nat n) (drop (Z.to_nat off) d)) = Z.to_nat n) by len.
  rewrite HL, <- drop_drop, take_drop. apply take_drop.
Qed.

Lemma ld_st_eq n off v d :
  0 <= off -> off + Z.of_nat n <= Z.of_nat (length d) ->
  ld n off (st n off v d) = v mod 2 ^ (8 * Z.of_nat n).
Proof.
  intros. unfold ld, st.
  assert (HL : length (le_split n v) = n) by apply length_le_split.
  pose proof (slice_splice_eq off (le_split n v) d) as HS. rewrite HL in HS.
  rewrite HS, le_combine_split by lia. f_equal. f_equal. lia.
Qed.

Lemma ld_st_ne n m off off' v d :
  0 <= off -> off + Z.of_nat n <= Z.of_nat (length d) -> 0 <= off' ->
  off' + Z.of_nat m <= off \/ off + Z.of_nat n <= off' ->
  ld m off' (st n off v d) = ld m off' d.
Proof.
  intros. unfold ld, st. f_equal.
  apply slice_splice_ne; rewrite ?length_le_split; lia.
Qed.

Lemma ld_range n off d : 0 <= ld n off d < 2 ^ (8 * Z.of_nat n).
Proof.
  unfold ld. pose proof (le_combine_bound (slice off (Z.of_nat n) d)) as [H1 H2].
  split; [done|]. eapply Z.lt_le_trans; [done|].
  apply Z.pow_le_mono_r; [lia|]. unfold slice. len.
Qed.

Lemma in_range_spec off n d :
  in_range off n d = true <-> 0 <= off /\ off + n <= Z.of_nat (length d).
Proof. unfold in_range. rewrite andb_true_iff, !Z.leb_le. done. Qed.

(** ** Slices of concatenations *)

Lemma slice_app_r off n (pre r : list byte) :
  0 <= off -> slice (Z.of_nat (length pre) + off) n (pre ++ r) = slice off n r.
Proof.
  intros. unfold slice. rewrite drop_app_ge by lia. f_equal. f_equal. lia.
Qed.

Lemma slice_app_l off n (x r : list byte) :
  0 <= off -> 0 <= n -> off + n <= Z.of_nat (length x) -> slice off n (x ++ r) = slice off n x.
Proof.
  intros. unfold slice. rewrite drop_app_le by lia. rewrite take_app_le; [done|]. len.
Qed.

Lemma slice_all n (x : list byte) : n = Z.of_nat (length x) -> slice 0 n x = x.
Proof. intros ->. unfold slice. rewrite drop_0, take_ge; [done|lia]. Qed.

(** Overwriting the middle of three consecutive pieces. *)
Lemma splice_mid off (a b c bs : list byte) :
  off = Z.of_nat (length a) -> length b = length bs -> splice off bs (a ++ b ++ c) = a ++ bs ++ c.
Proof.
  intros -> H. unfold splice. rewrite Nat2Z.id, <- H.
  rewrite take_app_le, take_ge by lia. f_equal. f_equal.
  rewrite drop_app_ge by lia. replace (_ - _)%nat with (length b) by lia.
  by rewrite drop_app_ge, Nat.sub_diag, drop_0 by lia.
Qed.

(** Reading the middle of three consecutive pieces. *)
Lemma slice_mid off n (a b c : list byte) :
  off = Z.of_nat (length a) -> n = Z.of_nat (length b) -> slice off n (a ++ b ++ c) = b.
Proof.
  intros -> ->. pose proof (slice_app_r 0 (Z.of_nat (length b)) a (b ++ c) ltac:(lia)) as H.
  rewrite Z.add_0_r in H. rewrite H, slice_app_l by lia. by apply slice_all.
Qed.

Lemma zeros_app a b : 0 <= a -> 0 <= b -> zeros (a + b) = zeros a ++ zeros b.
Proof. intros. unfold zeros. rewrite <- replicate_add. f_equal. lia. Qed.

Lemma slice_zeros off n m :
  0 <= off -> 0 <= n -> off + n <= m -> slice off n (zeros m) = zeros n.
Proof.
  intros. unfold slice, zeros. rewrite drop_replicate, take_replicate. f_equal. lia.
Qed.

Lemma ld_zeros n off m :
  0 <= off -> off + Z.of_nat n <= m -> ld n off (zeros m) = 0.
Proof.
  intros. unfold ld. rewrite slice_zeros by lia. unfold zeros. rewrite Nat2Z.id.
  clear. induction n as [|n IH]; [done|].
  change (Z.lor (byte.unsigned Byte.x00) (Z.shiftl (le_combine (replicate n Byte.x00)) 8) = 0).
  by rewrite IH.
Qed.

(** ** Maps in key order

    [std::map] is a [gmap]; where the source iterates over one, the keys are
    visited in increasing order. *)

Definition sorted_keys {A} (m : gmap Z A) : list Z := merge_sort Z.le (elements (dom m)).

Lemma elem_of_sorted_keys {A} (m : gmap Z A) k : k ∈ sorted_keys m <-> is_Some (m !! k).
Proof.
  unfold sorted_keys. rewrite merge_sort_Permutation, elem_of_elements. apply elem_of_dom.
Qed.

(** ** Counting *)

(** The number of [i < n] that satisfy [f]. *)
Fixpoint count (f : Z -> bool) (n : nat) : Z :=
  match n with
  | O => 0
  | S k => (if f (Z.of_nat k) then 1 else 0) + count f k
  end.

Lemma count_ext f g n :
  (forall i, 0 <= i < Z.of_nat n -> f i = g i) -> count f n = count g n.
Proof.
  induction n as [|n IH]; intros H; [done|]. cbn [count].
  rewrite H by lia. rewrite IH by (intros; apply H; lia). done.
Qed.

Lemma count_range f n : 0 <= count f n <= Z.of_nat n.
Proof. induction n as [|n IH]; [done|]. cbn [count]. destruct (f (Z.of_nat n)); lia. Qed.

Lemma count_all f n :
  (forall i, 0 <= i < Z.of_nat n -> f i = true) -> count f n = Z.of_nat n.
Proof.
  induction n as [|n IH]; intros H; [done|]. cbn [count].
  rewrite H by lia. rewrite IH by (intros; apply H; lia). lia.
Qed.

Lemma count_zero f n i : count f n = 0 -> 0 <= i < Z.of_nat n -> f i = false.
Proof.
  induction n as [|n IH]; intros H Hi; [lia|]. cbn [count] in H.
  pose proof (count_range f n). destruct (f (Z.of_nat n)) eqn:E; [lia|].
  destruct (decide (i = Z.of_nat n)) as [->|]; [done|]. apply IH; lia.
Qed.

Lemma count_none f n : (forall i, 0 <= i < Z.of_nat n -> f i = false) -> count f n = 0.
Proof.
  intros H. rewrite (count_ext _ (fun _ => false)) by done. clear.
  induction n as [|n IH]; [done|]. cbn [count]. lia.
Qed.

(** Clearing the predicate at one place takes one off the count. *)
Lemma count_flip f g n i :
  0 <= i < Z.of_nat n -> f i = true -> g i = false ->
  (forall j, 0 <= j -> j <> i -> g j = f j) -> count g n = count f n - 1.
Proof.
  intros Hi Hf Hg Hj. induction n as [|n IH]; [lia|]. cbn [count].
  destruct (decide (i = Z.of_nat n)) as [->|Hne].
  - rewrite Hf, Hg. rewrite (count_ext g f n); [lia|]. intros j Hjn. apply Hj; lia.
  - rewrite (Hj (Z.of_nat n)), IH by lia. lia.
Qed.

(** ** Duplicate-free projections *)

Lemma NoDup_fmap_inj {A B} (f : A -> B) (l : list A) x y :
  NoDup (f <$> l) -> x ∈ l -> y ∈ l -> f x = f y -> x = y.
Proof.
  induction l as [|z l IH]; intros Hnd Hx Hy E; [by apply not_elem_of_nil in Hx|].
  cbn in Hnd. apply NoDup_cons in Hnd as [Hz Hnd].
  apply elem_of_cons in Hx as [->|Hx], Hy as [->|Hy]; [done| | |by apply IH];
    destruct Hz; [rewrite E|rewrite <- E]; by apply list_elem_of_fmap_2.
Qed.

Lemma sublist_fmap_NoDup {A B} (f : A -> B) (l l' : list A) :
  l' `sublist_of` l -> NoDup (f <$> l) -> NoDup (f <$> l').
Proof.
  induction 1 as [|x l' l Hs IH|x l' l Hs IH]; cbn; [done| |]; intros [Hx Hnd]%NoDup_cons.
  - apply NoDup_cons. split; [|by apply IH]. intros Hin. apply Hx.
    apply list_elem_of_fmap in Hin as (y & -> & Hy). apply list_elem_of_fmap_2.
    by eapply elem_of_sublist.
  - by apply IH.
Qed.

Lemma elem_of_removelast {A} (l : list A) x : x ∈ removelast l -> x ∈ l.
Proof.
  destruct l as [|y l _] using rev_ind; [done|]. rewrite removelast_last, elem_of_app. by left.
Qed.
