(* ===== verification/Layout.v ===== *)
(** * Constants and on-disk structures

    The configuration macros and return codes of include/common.h and the
    structures of include/ext2/*.h, with the byte layout the compiler gives
    them on x86-64 (all members naturally aligned, little endian). *)

From S2P Require Import Prelude.

(** ** include/common.h *)

Definition BLOCK_SIZE : Z := 4096.

Definition LOG_BLOCK_SIZE : Z := 2.

Definition DISK_ALIGN : Z := 512.

Definition BLOCKS_PER_GROUP : Z := BLOCK_SIZE * 8.

Definition INODES_PER_GROUP : Z := BLOCK_SIZE * 8.

Definition sizeof_ext2_inode : Z := 128.

Definition INODES_PER_BLOCK : Z := BLOCK_SIZE / sizeof_ext2_inode.

Definition NUM_INODE_TABLE_BLOCKS : Z := INODES_PER_GROUP / INODES_PER_BLOCK.

Definition TOTAL_BLOCKS_PER_GROUP : Z := BLOCKS_PER_GROUP + NUM_INODE_TABLE_BLOCKS + 2.

Definition MAX_BLOCK_GROUP_SIZE : Z := TOTAL_BLOCKS_PER_GROUP * BLOCK_SIZE.

Definition ROOT_INODE : Z := 0.

Definition BLOCK_CACHE_SIZE : Z := 1024.

Definition EXT2_NDIR_BLOCKS : Z := 12.

Definition EXT2_IND_BLOCK : Z := EXT2_NDIR_BLOCKS.

Definition EXT2_DIND_BLOCK : Z := EXT2_IND_BLOCK + 1.

Definition EXT2_TIND_BLOCK : Z := EXT2_DIND_BLOCK + 1.

Definition EXT2_N_BLOCKS : Z := EXT2_TIND_BLOCK + 1.

Definition NUM_INDIRECT_BLOCKS : Z := BLOCK_SIZE / 4.

Definition MAX_DIR_BLOCKS : Z := EXT2_NDIR_BLOCKS.

Definition MAX_IND_BLOCKS : Z := NUM_INDIRECT_BLOCKS.

Definition MAX_DIND_BLOCKS : Z := MAX_IND_BLOCKS * NUM_INDIRECT_BLOCKS.

Definition FSState_UNINIT : Z := 0.

Definition FSState_NORMAL : Z := 1.

Inductive RetCode : Type :=
| FS_SUCCESS
| FS_NOT_FOUND
| FS_ALLOC_ERR
| FS_DUP_ERR
| FS_NULL_ERR
| FS_NDIR_ERR
| FS_DIR_ERR
| FS_INVALID.

#[global] Instance RetCode_eq_dec : EqDecision RetCode.
Proof. solve_decision. Defined.

(** errno values of Linux used by the handlers. *)
Definition ENOENT : Z := 2.
Definition EIO : Z := 5.
Definition EBADF : Z := 9.
Definition EACCES : Z := 13.
Definition EFAULT : Z := 14.
Definition EEXIST : Z := 17.
Definition ENOTDIR : Z := 20.
Definition EISDIR : Z := 21.
Definition EINVAL : Z := 22.
Definition ENOTEMPTY : Z := 39.

Definition Code2Errno (code : RetCode) : Z :=
  match code with
  | FS_NOT_FOUND => - ENOENT
  | FS_ALLOC_ERR => - EIO
  | FS_DUP_ERR => - EEXIST
  | FS_NULL_ERR => - EFAULT
  | FS_NDIR_ERR => - ENOTDIR
  | FS_DIR_ERR => - EISDIR
  | FS_INVALID => - EINVAL
  | FS_SUCCESS => 0
  end.

(** ** File modes: sys/stat.h and include/ext2/inode.h *)

Definition S_IFMT : Z := 0xF000.
Definition S_IFLNK : Z := 0xA000.
Definition S_IFREG : Z := 0x8000.
Definition S_IFDIR : Z := 0x4000.

Definition S_ISDIR (m : Z) : bool := Z.land m S_IFMT =? S_IFDIR.

Definition S_ISREG (m : Z) : bool := Z.land m S_IFMT =? S_IFREG.

Definition S_ISLNK (m : Z) : bool := Z.land m S_IFMT =? S_IFLNK.

Definition EXT2_S_IRUSR : Z := 0x0100.
Definition EXT2_S_IWUSR : Z := 0x0080.
Definition EXT2_S_IXUSR : Z := 0x0040.
Definition EXT2_S_IRGRP : Z := 0x0020.
Definition EXT2_S_IWGRP : Z := 0x0010.
Definition EXT2_S_IXGRP : Z := 0x0008.
Definition EXT2_S_IROTH : Z := 0x0004.
Definition EXT2_S_IWOTH : Z := 0x0002.
Definition EXT2_S_IXOTH : Z := 0x0001.

(** ** Fields of a structure

    A structure is described by the widths of its members in order; its
    bytes are the members' little-endian encodings one after the other. *)

Fixpoint ld_fields (ws : list nat) (d : list byte) : list Z :=
  match ws with
  | [] => []
  | w :: ws' => le_combine (take w d) :: ld_fields ws' (drop w d)
  end.

Fixpoint st_fields (ws : list nat) (vs : list Z) : list byte :=
  match ws, vs with
  | w :: ws', v :: vs' => le_split w v ++ st_fields ws' vs'
  | _, _ => []
  end.

Fixpoint fits (ws : list nat) (vs : list Z) : bool :=
  match ws, vs with
  | [], [] => true
  | w :: ws', v :: vs' => (0 <=? v) && (v <? 2 ^ (8 * Z.of_nat w)) && fits ws' vs'
  | _, _ => false
  end.

Lemma length_st_fields ws vs :
  fits ws vs = true -> length (st_fields ws vs) = sum_list ws.
Proof.
  revert vs; induction ws as [|w ws IH]; intros [|v vs]; simpl; try done.
  rewrite !andb_true_iff. intros [_ H]. rewrite length_app, length_le_split, IH; auto.
Qed.

Lemma ld_st_fields ws vs :
  fits ws vs = true -> ld_fields ws (st_fields ws vs) = vs.
Proof.
  revert vs; induction ws as [|w ws IH]; intros [|v vs]; simpl; try done.
  rewrite !andb_true_iff, Z.leb_le, Z.ltb_lt. intros [[H0 H1] H].
  rewrite take_app_le, take_ge by (rewrite length_le_split; lia).
  rewrite drop_app_ge, length_le_split by (rewrite length_le_split; lia).
  rewrite Nat.sub_diag, drop_0, IH by done.
  rewrite le_combine_split, Z.mod_small; [done|]. split; [done|].
  by replace (Z.of_nat w * 8) with (8 * Z.of_nat w) by lia.
Qed.

Lemma st_ld_fields ws d :
  length d = sum_list ws -> st_fields ws (ld_fields ws d) = d.
Proof.
  revert d; induction ws as [|w ws IH]; intros d; simpl.
  - intros H. by destruct d.
  - intros H. rewrite IH by (rewrite length_drop; lia).
    rewrite split_le_combine' by (rewrite length_take; lia).
    apply take_drop.
Qed.

Lemma fits_ld_fields ws d :
  length d = sum_list ws -> fits ws (ld_fields ws d) = true.
Proof.
  revert d; induction ws as [|w ws IH]; intros d; simpl; [done|].
  intros H. rewrite !andb_true_iff, Z.leb_le, Z.ltb_lt.
  pose proof (le_combine_bound (take w d)) as [H0 H1].
  rewrite length_take in H1. rewrite IH by (rewrite length_drop; lia).
  replace (w `min` length d)%nat with w in H1 by lia. done.
Qed.

(** ** struct ext2_inode *)

Record ext2_inode : Type := mk_inode {
  i_mode : Z;
  i_uid : Z;
  i_size : Z;
  i_atime : Z;
  i_ctime : Z;
  i_mtime : Z;
  i_dtime : Z;
  i_gid : Z;
  i_links_count : Z;
  i_blocks : Z;
  i_flags : Z;
  osd1 : Z;
  i_block : list Z;
  i_generation : Z;
  i_file_acl : Z;
  i_dir_acl : Z;
  i_faddr : Z;
  osd2 : list Z
}.

#[global] Instance ext2_inode_eq_dec : EqDecision ext2_inode.
Proof. solve_decision. Defined.

Definition inode_widths : list nat :=
  ([2; 2; 4; 4; 4; 4; 4; 2; 2; 4; 4; 4] ++ replicate 15 4 ++ [4; 4; 4; 4] ++ [4; 4; 4])%nat.

Definition inode_fields (i : ext2_inode) : list Z :=
  [i_mode i; i_uid i; i_size i; i_atime i; i_ctime i; i_mtime i; i_dtime i; i_gid i;
   i_links_count i; i_blocks i; i_flags i; osd1 i]
  ++ i_block i
  ++ [i_generation i; i_file_acl i; i_dir_acl i; i_faddr i]
  ++ osd2 i.

Definition inode_of_fields (vs : list Z) : ext2_inode :=
  let f i := nth i vs 0 in
  {| i_mode := f 0%nat; i_uid := f 1%nat; i_size := f 2%nat; i_atime := f 3%nat;
     i_ctime := f 4%nat; i_mtime := f 5%nat; i_dtime := f 6%nat; i_gid := f 7%nat;
     i_links_count := f 8%nat; i_blocks := f 9%nat; i_flags := f 10%nat; osd1 := f 11%nat;
     i_block := take 15 (drop 12 vs);
     i_generation := f 27%nat; i_file_acl := f 28%nat; i_dir_acl := f 29%nat;
     i_faddr := f 30%nat; osd2 := take 3 (drop 31 vs) |}.

Definition inode_encode (i : ext2_inode) : list byte := st_fields inode_widths (inode_fields i).

Definition inode_decode (d : list byte) : ext2_inode := inode_of_fields (ld_fields inode_widths d).

(** Every member is within the range of its C type. *)
Definition inode_wf (i : ext2_inode) : bool :=
  (length (i_block i) =? 15)%nat && (length (osd2 i) =? 3)%nat
  && fits inode_widths (inode_fields i).

#[global] Arguments inode_encode : simpl never.
#[global] Arguments inode_decode : simpl never.

(** [memset(inode, 0, sizeof(ext2_inode))] *)
Definition inode_zero : ext2_inode := inode_decode (zeros sizeof_ext2_inode).

(** ** Assignments to members

    A store converts to the type of the member. *)

Definition set_i_mode (v : Z) (i : ext2_inode) : ext2_inode :=
  mk_inode (u16 v) (i_uid i) (i_size i) (i_atime i) (i_ctime i) (i_mtime i) (i_dtime i)
    (i_gid i) (i_links_count i) (i_blocks i) (i_flags i) (osd1 i) (i_block i)
    (i_generation i) (i_file_acl i) (i_dir_acl i) (i_faddr i) (osd2 i).

Definition set_i_uid (v : Z) (i : ext2_inode) : ext2_inode :=
  mk_inode (i_mode i) (u16 v) (i_size i) (i_atime i) (i_ctime i) (i_mtime i) (i_dtime i)
    (i_gid i) (i_links_count i) (i_blocks i) (i_flags i) (osd1 i) (i_block i)
    (i_generation i) (i_file_acl i) (i_dir_acl i) (i_faddr i) (osd2 i).

Definition set_i_size (v : Z) (i : ext2_inode) : ext2_inode :=
  mk_inode (i_mode i) (i_uid i) (u32 v) (i_atime i) (i_ctime i) (i_mtime i) (i_dtime i)
    (i_gid i) (i_links_count i) (i_blocks i) (i_flags i) (osd1 i) (i_block i)
    (i_generation i) (i_file_acl i) (i_dir_acl i) (i_faddr i) (osd2 i).

Definition set_i_atime (v : Z) (i : ext2_inode) : ext2_inode :=
  mk_inode (i_mode i) (i_uid i) (i_size i) (u32 v) (i_ctime i) (i_mtime i) (i_dtime i)
    (i_gid i) (i_links_count i) (i_blocks i) (i_flags i) (osd1 i) (i_block i)
    (i_generation i) (i_file_acl i) (i_dir_acl i) (i_faddr i) (osd2 i).

Definition set_i_ctime (v : Z) (i : ext2_inode) : ext2_inode :=
  mk_inode (i_mode i) (i_uid i) (i_size i) (i_atime i) (u32 v) (i_mtime i) (i_dtime i)
    (i_gid i) (i_links_count i) (i_blocks i) (i_flags i) (osd1 i) (i_block i)
    (i_generation i) (i_file_acl i) (i_dir_acl i) (i_faddr i) (osd2 i).

Definition set_i_mtime (v : Z) (i : ext2_inode) : ext2_inode :=
  mk_inode (i_mode i) (i_uid i) (i_size i) (i_atime i) (i_ctime i) (u32 v) (i_dtime i)
    (i_gid i) (i_links_count i) (i_blocks i) (i_flags i) (osd1 i) (i_block i)
    (i_generation i) (i_file_acl i) (i_dir_acl i) (i_faddr i) (osd2 i).

Definition set_i_dtime (v : Z) (i : ext2_inode) : ext2_inode :=
  mk_inode (i_mode i) (i_uid i) (i_size i) (i_atime i) (i_ctime i) (i_mtime i) (u32 v)
    (i_gid i) (i_links_count i) (i_blocks i) (i_flags i) (osd1 i) (i_block i)
    (i_generation i) (i_file_acl i) (i_dir_acl i) (i_faddr i) (osd2 i).

Definition set_i_gid (v : Z) (i : ext2_inode) : ext2_inode :=
  mk_inode (i_mode i) (i_uid i) (i_size i) (i_atime i) (i_ctime i) (i_mtime i) (i_dtime i)
    (u16 v) (i_links_count i) (i_blocks i) (i_flags i) (osd1 i) (i_block i) (i_generation
    i) (i_file_acl i) (i_dir_acl i) (i_faddr i) (osd2 i).

Definition set_i_links_count (v : Z) (i : ext2_inode) : ext2_inode :=
  mk_inode (i_mode i) (i_uid i) (i_size i) (i_atime i) (i_ctime i) (i_mtime i) (i_dtime i)
    (i_gid i) (u16 v) (i_blocks i) (i_flags i) (osd1 i) (i_block i) (i_generation i)
    (i_file_acl i) (i_dir_acl i) (i_faddr i) (osd2 i).

Definition set_i_blocks (v : Z) (i : ext2_inode) : ext2_inode :=
  mk_inode (i_mode i) (i_uid i) (i_size i) (i_atime i) (i_ctime i) (i_mtime i) (i_dtime i)
    (i_gid i) (i_links_count i) (u32 v) (i_flags i) (osd1 i) (i_block i) (i_generation i)
    (i_file_acl i) (i_dir_acl i) (i_faddr i) (osd2 i).

Definition set_i_flags (v : Z) (i : ext2_inode) : ext2_inode :=
  mk_inode (i_mode i) (i_uid i) (i_size i) (i_atime i) (i_ctime i) (i_mtime i) (i_dtime i)
    (i_gid i) (i_links_count i) (i_blocks i) (u32 v) (osd1 i) (i_block i) (i_generation i)
    (i_file_acl i) (i_dir_acl i) (i_faddr i) (osd2 i).

Definition set_i_block (v : list Z) (i : ext2_inode) : ext2_inode :=
  mk_inode (i_mode i) (i_uid i) (i_size i) (i_atime i) (i_ctime i) (i_mtime i) (i_dtime i)
    (i_gid i) (i_links_count i) (i_blocks i) (i_flags i) (osd1 i) v (i_generation i)
    (i_file_acl i) (i_dir_acl i) (i_faddr i) (osd2 i).

Definition set_i_file_acl (v : Z) (i : ext2_inode) : ext2_inode :=
  mk_inode (i_mode i) (i_uid i) (i_size i) (i_atime i) (i_ctime i) (i_mtime i) (i_dtime i)
    (i_gid i) (i_links_count i) (i_blocks i) (i_flags i) (osd1 i) (i_block i)
    (i_generation i) (u32 v) (i_dir_acl i) (i_faddr i) (osd2 i).

Definition set_i_dir_acl (v : Z) (i : ext2_inode) : ext2_inode :=
  mk_inode (i_mode i) (i_uid i) (i_size i) (i_atime i) (i_ctime i) (i_mtime i) (i_dtime i)
    (i_gid i) (i_links_count i) (i_blocks i) (i_flags i) (osd1 i) (i_block i)
    (i_generation i) (i_file_acl i) (u32 v) (i_faddr i) (osd2 i).

Definition set_i_faddr (v : Z) (i : ext2_inode) : ext2_inode :=
  mk_inode (i_mode i) (i_uid i) (i_size i) (i_atime i) (i_ctime i) (i_mtime i) (i_dtime i)
    (i_gid i) (i_links_count i) (i_blocks i) (i_flags i) (osd1 i) (i_block i)
    (i_generation i) (i_file_acl i) (i_dir_acl i) (u32 v) (osd2 i).

(** [inode->i_block[k] = v] *)
Definition set_i_block_at (k v : Z) (i : ext2_inode) : ext2_inode :=
  set_i_block (<[Z.to_nat k := u32 v]> (i_block i)) i.

Definition i_block_at (k : Z) (i : ext2_inode) : Z := nth (Z.to_nat k) (i_block i) 0.

Lemma length_inode_encode i : inode_wf i = true -> length (inode_encode i) = 128%nat.
Proof.
  unfold inode_wf. rewrite !andb_true_iff. intros [_ H].
  unfold inode_encode. by rewrite length_st_fields.
Qed.

Lemma inode_of_inode_fields i :
  length (i_block i) = 15%nat -> length (osd2 i) = 3%nat ->
  inode_of_fields (inode_fields i) = i.
Proof.
  destruct i as [? ? ? ? ? ? ? ? ? ? ? ? bl ? ? ? ? o2]; simpl. intros Hb Ho.
  do 15 (destruct bl as [|? bl]; [done|]). destruct bl; [|done].
  do 3 (destruct o2 as [|? o2]; [done|]). destruct o2; [|done]. done.
Qed.

Lemma inode_fields_of_fields vs :
  length vs = 34%nat -> inode_fields (inode_of_fields vs) = vs.
Proof.
  intros H. do 34 (destruct vs as [|? vs]; [done|]). by destruct vs.
Qed.

Lemma length_ld_fields ws d : length (ld_fields ws d) = length ws.
Proof. revert d; induction ws as [|w ws IH]; intros d; simpl; [done|]. by rewrite IH. Qed.

Lemma inode_decode_encode i : inode_wf i = true -> inode_decode (inode_encode i) = i.
Proof.
  unfold inode_wf. rewrite !andb_true_iff, !Nat.eqb_eq. intros [[Hb Ho] Hf].
  unfold inode_decode, inode_encode. rewrite ld_st_fields by done.
  by apply inode_of_inode_fields.
Qed.

Lemma inode_encode_decode d :
  length d = 128%nat -> inode_encode (inode_decode d) = d.
Proof.
  intros H. unfold inode_decode, inode_encode.
  rewrite inode_fields_of_fields by (by rewrite length_ld_fields).
  by apply st_ld_fields.
Qed.

Lemma inode_wf_decode d : length d = 128%nat -> inode_wf (inode_decode d) = true.
Proof.
  intros H. unfold inode_wf, inode_decode.
  rewrite inode_fields_of_fields by (by rewrite length_ld_fields).
  rewrite fits_ld_fields by done.
  unfold inode_of_fields; cbn [i_block osd2].
  rewrite !length_take, !length_drop, length_ld_fields. done.
Qed.

Lemma inode_wf_fields i :
  inode_wf i = true <-> length (i_block i) = 15%nat /\ length (osd2 i) = 3%nat
    /\ fits inode_widths (inode_fields i) = true.
Proof. unfold inode_wf. rewrite !andb_true_iff, !Nat.eqb_eq. tauto. Qed.

(** Assignments keep an inode well formed. *)
Lemma fits_insert ws vs k w v :
  fits ws vs = true -> ws !! k = Some w -> 0 <= v < 2 ^ (8 * Z.of_nat w) ->
  fits ws (<[k := v]> vs) = true.
Proof.
  revert vs k. induction ws as [|w' ws IH]; intros [|v' vs] [|k] Hf Hk Hv; try done; cbn in Hk.
  - injection Hk as ->. cbn [fits insert list_insert] in *. rewrite !andb_true_iff in *.
    rewrite Z.leb_le, Z.ltb_lt. tauto.
  - cbn [fits insert list_insert] in *. rewrite !andb_true_iff in *. split; [tauto|].
    apply IH; tauto.
Qed.

Lemma fits_lookup ws vs k w v :
  fits ws vs = true -> ws !! k = Some w -> vs !! k = Some v -> 0 <= v < 2 ^ (8 * Z.of_nat w).
Proof.
  revert vs k. induction ws as [|w' ws IH]; intros [|v' vs] [|k] Hf Hk Hv; try done; cbn in Hk, Hv;
    cbn [fits] in Hf; rewrite !andb_true_iff, Z.leb_le, Z.ltb_lt in Hf.
  - injection Hk as ->. injection Hv as ->. tauto.
  - destruct Hf as [_ Hf]. by apply (IH vs k).
Qed.

Lemma i_size_range i : inode_wf i = true -> 0 <= i_size i < 2 ^ 32.
Proof. intros H. apply inode_wf_fields in H as (_ & _ & Hf). by apply (fits_lookup _ _ 2 4 (i_size i) Hf). Qed.

Lemma inode_wf_insert i j k w v :
  inode_wf i = true -> inode_fields j = <[k := v]> (inode_fields i) ->
  length (i_block j) = length (i_block i) -> osd2 j = osd2 i ->
  inode_widths !! k = Some w -> 0 <= v < 2 ^ (8 * Z.of_nat w) -> inode_wf j = true.
Proof.
  unfold inode_wf. rewrite !andb_true_iff. intros [[Hb Ho] Hf] Hj Hlb Hlo Hw Hv.
  rewrite Hj, Hlb, Hlo. split; [done|]. by eapply fits_insert.
Qed.

Create HintDb wf.

Lemma u16_fits v : 0 <= u16 v < 2 ^ (8 * Z.of_nat 2).
Proof. apply u16_range. Qed.

Lemma u32_fits v : 0 <= u32 v < 2 ^ (8 * Z.of_nat 4).
Proof. apply u32_range. Qed.

Lemma inode_wf_set_i_mode v i : inode_wf i = true -> inode_wf (set_i_mode v i) = true.
Proof. intros H. exact (inode_wf_insert i (set_i_mode v i) 0 2 (u16 v) H eq_refl eq_refl eq_refl eq_refl (u16_fits v)). Qed.

Lemma inode_wf_set_i_uid v i : inode_wf i = true -> inode_wf (set_i_uid v i) = true.
Proof. intros H. exact (inode_wf_insert i (set_i_uid v i) 1 2 (u16 v) H eq_refl eq_refl eq_refl eq_refl (u16_fits v)). Qed.

Lemma inode_wf_set_i_size v i : inode_wf i = true -> inode_wf (set_i_size v i) = true.
Proof. intros H. exact (inode_wf_insert i (set_i_size v i) 2 4 (u32 v) H eq_refl eq_refl eq_refl eq_refl (u32_fits v)). Qed.

Lemma inode_wf_set_i_atime v i : inode_wf i = true -> inode_wf (set_i_atime v i) = true.
Proof. intros H. exact (inode_wf_insert i (set_i_atime v i) 3 4 (u32 v) H eq_refl eq_refl eq_refl eq_refl (u32_fits v)). Qed.

Lemma inode_wf_set_i_ctime v i : inode_wf i = true -> inode_wf (set_i_ctime v i) = true.
Proof. intros H. exact (inode_wf_insert i (set_i_ctime v i) 4 4 (u32 v) H eq_refl eq_refl eq_refl eq_refl (u32_fits v)). Qed.

Lemma inode_wf_set_i_mtime v i : inode_wf i = true -> inode_wf (set_i_mtime v i) = true.
Proof. intros H. exact (inode_wf_insert i (set_i_mtime v i) 5 4 (u32 v) H eq_refl eq_refl eq_refl eq_refl (u32_fits v)). Qed.

Lemma inode_wf_set_i_dtime v i : inode_wf i = true -> inode_wf (set_i_dtime v i) = true.
Proof. intros H. exact (inode_wf_insert i (set_i_dtime v i) 6 4 (u32 v) H eq_refl eq_refl eq_refl eq_refl (u32_fits v)). Qed.

Lemma inode_wf_set_i_gid v i : inode_wf i = true -> inode_wf (set_i_gid v i) = true.
Proof. intros H. exact (inode_wf_insert i (set_i_gid v i) 7 2 (u16 v) H eq_refl eq_refl eq_refl eq_refl (u16_fits v)). Qed.

Lemma inode_wf_set_i_links_count v i : inode_wf i = true -> inode_wf (set_i_links_count v i) = true.
Proof. intros H. exact (inode_wf_insert i (set_i_links_count v i) 8 2 (u16 v) H eq_refl eq_refl eq_refl eq_refl (u16_fits v)). Qed.

Lemma inode_wf_set_i_blocks v i : inode_wf i = true -> inode_wf (set_i_blocks v i) = true.
Proof. intros H. exact (inode_wf_insert i (set_i_blocks v i) 9 4 (u32 v) H eq_refl eq_refl eq_refl eq_refl (u32_fits v)). Qed.

Lemma inode_wf_set_i_flags v i : inode_wf i = true -> inode_wf (set_i_flags v i) = true.
Proof. intros H. exact (inode_wf_insert i (set_i_flags v i) 10 4 (u32 v) H eq_refl eq_refl eq_refl eq_refl (u32_fits v)). Qed.

Lemma inode_wf_set_i_file_acl v i : inode_wf i = true -> inode_wf (set_i_file_acl v i) = true.
Proof.
  intros H. pose proof (proj1 (inode_wf_fields i) H) as (Hb & _ & _).
  apply (inode_wf_insert i _ 28 4 (u32 v) H); [|done..|apply u32_fits].
  destruct i as [? ? ? ? ? ? ? ? ? ? ? ? bl ? ? ? ? ?]. cbn [i_block] in Hb.
  by do 15 (destruct bl as [|? bl]; [done|]); destruct bl.
Qed.

Lemma inode_wf_set_i_dir_acl v i : inode_wf i = true -> inode_wf (set_i_dir_acl v i) = true.
Proof.
  intros H. pose proof (proj1 (inode_wf_fields i) H) as (Hb & _ & _).
  apply (inode_wf_insert i _ 29 4 (u32 v) H); [|done..|apply u32_fits].
  destruct i as [? ? ? ? ? ? ? ? ? ? ? ? bl ? ? ? ? ?]. cbn [i_block] in Hb.
  by do 15 (destruct bl as [|? bl]; [done|]); destruct bl.
Qed.

Lemma inode_wf_set_i_faddr v i : inode_wf i = true -> inode_wf (set_i_faddr v i) = true.
Proof.
  intros H. pose proof (proj1 (inode_wf_fields i) H) as (Hb & _ & _).
  apply (inode_wf_insert i _ 30 4 (u32 v) H); [|done..|apply u32_fits].
  destruct i as [? ? ? ? ? ? ? ? ? ? ? ? bl ? ? ? ? ?]. cbn [i_block] in Hb.
  by do 15 (destruct bl as [|? bl]; [done|]); destruct bl.
Qed.

Lemma inode_wf_set_i_block_at k v i :
  0 <= k < EXT2_N_BLOCKS -> inode_wf i = true -> inode_wf (set_i_block_at k v i) = true.
Proof.
  intros Hk H. pose proof (proj1 (inode_wf_fields i) H) as (Hb & _ & _).
  change EXT2_N_BLOCKS with 15 in Hk.
  eapply (inode_wf_insert i _ (12 + Z.to_nat k) 4 (u32 v) H); [|by apply length_insert|done| |apply u32_fits].
  - symmetry. etransitivity.
    + apply (insert_app_r [i_mode i; i_uid i; i_size i; i_atime i; i_ctime i; i_mtime i;
        i_dtime i; i_gid i; i_links_count i; i_blocks i; i_flags i; osd1 i] _ (Z.to_nat k)).
    + unfold inode_fields. f_equal. apply insert_app_l. lia.
  - unfold inode_widths. rewrite lookup_app_r by (simpl; lia). rewrite lookup_app_l by (rewrite length_replicate; simpl; lia).
    apply lookup_replicate_2. simpl. lia.
Qed.

#[export] Hint Resolve inode_wf_set_i_mode inode_wf_set_i_uid inode_wf_set_i_size inode_wf_set_i_atime inode_wf_set_i_ctime inode_wf_set_i_mtime inode_wf_set_i_dtime inode_wf_set_i_gid inode_wf_set_i_links_count inode_wf_set_i_blocks inode_wf_set_i_flags inode_wf_set_i_file_acl inode_wf_set_i_dir_acl inode_wf_set_i_faddr inode_wf_set_i_block_at : wf.

(** ** struct ext2_super_block and struct ext2_group_desc

    Both are views on the bytes of block 0: a field is its byte offset and
    its width. *)

Definition sizeof_ext2_super_block : Z := 1024.

Definition sizeof_ext2_group_desc : Z := 32.

Record field : Type := Field { f_off : Z; f_width : nat }.

Definition s_inodes_count : field := Field 0 4.
Definition s_blocks_count : field := Field 4 4.
Definition s_free_blocks_count : field := Field 12 4.
Definition s_free_inodes_count : field := Field 16 4.
Definition s_log_block_size : field := Field 24 4.
Definition s_blocks_per_group : field := Field 32 4.
Definition s_inodes_per_group : field := Field 40 4.
Definition s_state : field := Field 58 2.
Definition s_first_ino : field := Field 84 4.
Definition s_inode_size : field := Field 88 2.

Definition bg_block_bitmap : field := Field 0 4.
Definition bg_inode_bitmap : field := Field 4 4.
Definition bg_inode_table : field := Field 8 4.
Definition bg_free_blocks_count : field := Field 12 2.
Definition bg_free_inodes_count : field := Field 14 2.
Definition bg_used_dirs_count : field := Field 16 2.

(** Reading and writing field [f] of the structure at byte [base]; a store
    truncates to the width of the field. *)
Definition getf (base : Z) (f : field) (d : list byte) : Z := ld (f_width f) (base + f_off f) d.

Definition setf (base : Z) (f : field) (v : Z) (d : list byte) : list byte :=
  st (f_width f) (base + f_off f) v d.

(** Byte offset of group descriptor [i] in block 0. *)
Definition desc_off (i : Z) : Z := sizeof_ext2_super_block + i * sizeof_ext2_group_desc.

(** ** struct ext2_dir_entry_2 *)

Definition EXT2_NAME_LEN : Z := 255.

Definition sizeof_ext2_dir_entry_2 : Z := 8.

Definition de_inode : field := Field 0 4.
Definition de_rec_len : field := Field 4 2.
Definition de_name_len : field := Field 6 1.
Definition de_file_type : field := Field 7 1.

(** The byte offset of the flexible member [char name[]]. *)
Definition de_name_off : Z := 8.

(** ** Accesses through fields *)

Lemma getf_setf_eq base f v d :
  0 <= base + f_off f -> base + f_off f + Z.of_nat (f_width f) <= Z.of_nat (length d) ->
  getf base f (setf base f v d) = v mod 2 ^ (8 * Z.of_nat (f_width f)).
Proof. intros. by apply ld_st_eq. Qed.

Lemma getf_setf_ne base base' f f' v d :
  0 <= base + f_off f -> base + f_off f + Z.of_nat (f_width f) <= Z.of_nat (length d) ->
  0 <= base' + f_off f' ->
  base' + f_off f' + Z.of_nat (f_width f') <= base + f_off f
  \/ base + f_off f + Z.of_nat (f_width f) <= base' + f_off f' ->
  getf base' f' (setf base f v d) = getf base' f' d.
Proof. intros. by apply ld_st_ne. Qed.

Lemma length_setf base f v d :
  0 <= base + f_off f -> base + f_off f + Z.of_nat (f_width f) <= Z.of_nat (length d) ->
  length (setf base f v d) = length d.
Proof. intros. by apply length_st. Qed.

Lemma getf_range base f d : 0 <= getf base f d < 2 ^ (8 * Z.of_nat (f_width f)).
Proof. apply ld_range. Qed.

#[export] Hint Rewrite length_setf using (cbn [f_off f_width]; lia) : len.

(** ** Return codes *)

(** An error code is never reported as success, and different codes are
    reported as different errors. *)
Lemma Code2Errno_neg c : Code2Errno c <= 0 /\ (Code2Errno c = 0 <-> c = FS_SUCCESS).
Proof. destruct c; split; unfold Code2Errno, ENOENT, EIO, EEXIST, EFAULT, ENOTDIR, EISDIR, EINVAL; try lia; split; done || lia. Qed.

#[global] Instance Code2Errno_inj : Inj (=) (=) Code2Errno.
Proof. intros [] []; by vm_compute. Qed.
