(* ===== verification/Logging.v ===== *)
(** * Logging: src/utils/logging.cpp and include/utils/logging.h

    The log file is the list of its lines.  [fopen] is a parameter, and so is
    the text that [vfprintf] makes of a format and its arguments: a message is
    given as that text.  The lock of [__LOG] makes a call one step. *)

From stdpp Require Import pretty strings.
From S2P Require Import Prelude.

Open Scope string_scope.
Open Scope Z_scope.

Definition LOG_EMERG : Z := 0.
Definition LOG_ALERT : Z := 1.
Definition LOG_CRIT : Z := 2.
Definition LOG_ERR : Z := 3.
Definition LOG_WARNING : Z := 4.
Definition LOG_NOTICE : Z := 5.
Definition LOG_INFO : Z := 6.
Definition LOG_DEBUG : Z := 7.

(** Without NDEBUG. *)
Definition DEFAULT_LOG_LEVEL : Z := LOG_DEBUG.

Definition loglevel_str : list string :=
  ["[emerg]"; "[alert]"; "[crit] "; "[err]  "; "[warn] "; "[notic]"; "[info] "; "[debug]"].

(** The static variables; [logfile] is [None] when it is [NULL]. *)
Record Log : Type := mk_log {
  loglevel : Z;
  logfile : option (list string)
}.

Definition log_init : Log := mk_log DEFAULT_LOG_LEVEL None.

(** [fprintf(logfile, "%s[%s:%d] ", ...)] and what follows. *)
Definition log_line (tag func : string) (line : Z) (msg : string) : string :=
  (tag ++ "[" ++ func ++ ":" ++ pretty line ++ "] " ++ msg)%string.

(** [void __LOG(int level, const char *func, int line, const char *format, ...)] *)
Definition __LOG (level : Z) (func : string) (line : Z) (msg : string) : M Log unit :=
  s ← get_st;
  match logfile s with
  | None => mret tt
  | Some lines =>
      if level <? 0 then mret tt
      else if loglevel s <? level then mret tt
      else
        tag ← unwrap OutOfBounds (loglevel_str !! Z.to_nat level);
        modify_st (fun s => mk_log (loglevel s) (Some (lines ++ [log_line tag func line msg])%list))
  end.

Definition logging_setlevel (new_level : Z) : M Log unit :=
  modify_st (fun s => mk_log new_level (logfile s)).

Section Open.
(** Whether [fopen(path, "w")] gives a file, which is then empty. *)
Context (fopen : string -> bool).

(** [int logging_open(const char *path)] *)
Definition logging_open (path : option string) : M Log Z :=
  match path with
  | None => mret 0
  | Some path =>
      if fopen path then
        _ ← modify_st (fun s => mk_log (loglevel s) (Some []));
        mret 0
      else
        _ ← modify_st (fun s => mk_log (loglevel s) None);
        mret (-1)
  end.
End Open.

(** ** What is in the file *)

Record message : Type := mk_message {
  m_level : Z;
  m_func : string;
  m_line : Z;
  m_text : string
}.

Fixpoint log_all (ms : list message) : M Log unit :=
  match ms with
  | [] => mret tt
  | m :: ms' =>
      _ ← __LOG (m_level m) (m_func m) (m_line m) (m_text m);
      log_all ms'
  end.

(** The lines of the messages whose level is asked for. *)
Definition logged (level : Z) (ms : list message) : list string :=
  omap (fun m =>
    if (0 <=? m_level m) && (m_level m <=? level)
    then Some (log_line (default "" (loglevel_str !! Z.to_nat (m_level m))) (m_func m) (m_line m) (m_text m))
    else None) ms.

Lemma loglevel_tag level : 0 <= level <= LOG_DEBUG -> is_Some (loglevel_str !! Z.to_nat level).
Proof. intros H. apply lookup_lt_is_Some_2. unfold LOG_DEBUG in H. cbn. lia. Qed.

(** With a level that the macros have, no message reads behind the table of
    tags, and the file gets the messages up to the level, in order. *)
Theorem log_all_lines ms : forall level lines,
  level <= LOG_DEBUG -> log_all ms (mk_log level (Some lines)) = Ret tt (mk_log level (Some (lines ++ logged level ms)%list)).
Proof.
  induction ms as [|m ms IH]; intros level lines Hl; [by rewrite app_nil_r|]. cbn [log_all logged omap list_omap].
  set (st := mk_log level (Some lines)).
  assert (H : __LOG (m_level m) (m_func m) (m_line m) (m_text m) st = Ret tt (mk_log level (Some (lines ++ logged level [m])%list))).
  { unfold __LOG. rewrite (bind_ret _ _ _ st st) by done. cbn [logfile st loglevel]. unfold logged. cbn [omap list_omap].
    destruct (Z.ltb_spec (m_level m) 0) as [Hn|Hn].
    - rewrite (proj2 (Z.leb_gt 0 _)) by lia. cbn [andb]. by rewrite app_nil_r.
    - rewrite (proj2 (Z.leb_le 0 _)) by lia. cbn [andb]. destruct (Z.ltb_spec level (m_level m)) as [Hg|Hg].
      + rewrite (proj2 (Z.leb_gt _ level)) by lia. by rewrite app_nil_r.
      + rewrite (proj2 (Z.leb_le _ level)) by lia. destruct (loglevel_tag (m_level m)) as [tag Ht]; [lia|]. rewrite Ht. done. }
  rewrite (bind_ret _ _ _ _ _ H), IH by done. unfold logged. cbn [omap list_omap].
  destruct (_ && _); cbn; [by rewrite <- app_assoc|by rewrite app_nil_r].
Qed.

(** Before [logging_open], and after one that failed, nothing is logged. *)
Lemma log_closed ms level : log_all ms (mk_log level None) = Ret tt (mk_log level None).
Proof. induction ms as [|m ms IH]; [done|]. cbn [log_all]. by rewrite (bind_ret _ _ _ tt (mk_log level None)). Qed.
