(* ===== verification/Disk.v ===== *)
(** * The virtual disk: src/utils/disk.cpp

    [/tmp/disk] opened with O_DIRECT, as an array of 512-byte sectors (the
    alignment O_DIRECT asks for), all zero where nothing was written, as
    [fallocate] leaves it.  [errno] is the process's last error, which
    [__disk_write] returns when it believes that a call failed. *)

From S2P Require Import Prelude Layout.

Record Disk : Type := mk_disk {
  sectors : gmap Z (list byte);
  disk_size : Z;
  errno : Z
}.

Definition disk_empty (size : Z) : Disk := {| sectors := ∅; disk_size := size; errno := 0 |}.

Definition sector (m : gmap Z (list byte)) (i : Z) : list byte :=
  default (zeros DISK_ALIGN) (m !! i).

Fixpoint read_sectors (m : gmap Z (list byte)) (i : Z) (k : nat) : list byte :=
  match k with
  | O => []
  | S k' => sector m i ++ read_sectors m (i + 1) k'
  end.

Fixpoint write_sectors (i : Z) (k : nat) (buf : list byte) (m : gmap Z (list byte))
  : gmap Z (list byte) :=
  match k with
  | O => m
  | S k' =>
      write_sectors (i + 1) k' (drop (Z.to_nat DISK_ALIGN) buf)
        (<[i := take (Z.to_nat DISK_ALIGN) buf]> m)
  end.

Definition aligned (n : Z) : bool := n mod DISK_ALIGN =? 0.

Definition with_errno (e : Z) (d : Disk) : Disk :=
  {| sectors := sectors d; disk_size := disk_size d; errno := e |}.

(** [lseek(disk_fd, where, SEEK_SET)]: the new offset, or -1. *)
Definition lseek (pos : Z) (d : Disk) : Z * Disk :=
  if pos <? 0 then (-1, with_errno EINVAL d) else (pos, d).

(** [write(disk_fd, buf, size)] at offset [pos]. *)
Definition write_at (pos : Z) (buf : list byte) (d : Disk) : Z * Disk :=
  let size := Z.of_nat (length buf) in
  if aligned pos && aligned size then
    (size,
     {| sectors := write_sectors (pos / DISK_ALIGN) (Z.to_nat (size / DISK_ALIGN)) buf (sectors d);
        disk_size := Z.max (disk_size d) (pos + size);
        errno := errno d |})
  else (-1, with_errno EINVAL d).

(** [pread(disk_fd, buf, size, pos)]: a short count at the end of the disk. *)
Definition pread (pos size : Z) (d : Disk) : Z * list byte * Disk :=
  if aligned pos && aligned size && (0 <=? pos) then
    let n := Z.min size (Z.max 0 (disk_size d - pos)) in
    (n, take (Z.to_nat n)
          (read_sectors (sectors d) (pos / DISK_ALIGN) (Z.to_nat (size / DISK_ALIGN))), d)
  else (-1, [], with_errno EINVAL d).

(** The result of [lseek], an [off_t], is stored in an [int] before it is
    tested. *)
Definition __disk_write (pos : Z) (buf : list byte) : M Disk Z := fun d =>
  let '(off, d) := lseek pos d in
  let ret := i32 off in
  if ret <? 0 then Ret (- errno d) d
  else
    let '(n, d) := write_at off buf d in
    let ret := i32 n in
    if ret <? 0 then Ret (- errno d) d else Ret 0 d.

Definition __disk_read (pos size : Z) : M Disk (Z * list byte) := fun d =>
  let '(n, buf, d) := pread pos size d in
  let ret := i32 n in
  if ret <? 0 then Ret (- errno d, buf) d
  else if ret =? size then Ret (0, buf) d
  else Fault AssertFail.

(** ** Opening and closing

    [open], [close] and [posix_memalign] are calls of the system: its state
    [Os] and what they answer are parameters, as are the file name and the
    flags that [open] gets. *)
Section OpenClose.
Context {Os : Type} (sys_open : Os -> Z * Os) (sys_close : Z -> Os -> Z * Os) (sys_errno : Os -> Z).
Context (posix_memalign : Z -> Z -> Os -> Z * Z * Os).

Record DiskFd : Type := mk_disk_fd {
  disk_fd : Z;
  disk_os : Os
}.

(** [static int disk_fd = -1;] *)
Definition disk_fd_init (os : Os) : DiskFd := mk_disk_fd (-1) os.

(** [void* alloc_aligned(size_t size)]; [None] is [nullptr]. *)
Definition alloc_aligned (size : Z) : M DiskFd (option Z) := fun s =>
  let '(ret, buf, os) := posix_memalign DISK_ALIGN size (disk_os s) in
  Ret (if ret =? 0 then Some buf else None) (mk_disk_fd (disk_fd s) os).

Definition disk_open : M DiskFd Z := fun s =>
  let '(fd, os) := sys_open (disk_os s) in
  Ret (if fd <? 0 then - sys_errno os else 0) (mk_disk_fd fd os).

Definition disk_close : M DiskFd Z := fun s =>
  let '(ret, os) := sys_close (disk_fd s) (disk_os s) in
  Ret (if ret <? 0 then - sys_errno os else 0) (mk_disk_fd (disk_fd s) os).

(** What POSIX says of the calls: they fail with -1 and a positive [errno],
    and the memory that is given is aligned. *)
Hypothesis open_posix : forall os, let '(fd, os') := sys_open os in 0 <= fd \/ fd = -1 /\ 0 < sys_errno os'.
Hypothesis close_posix : forall fd os, let '(r, os') := sys_close fd os in r = 0 \/ r = -1 /\ 0 < sys_errno os'.
Hypothesis memalign_posix : forall align size os,
  let '(r, buf, _) := posix_memalign align size os in r = 0 -> buf mod align = 0 /\ 0 < buf.

(** [disk_open] answers 0 exactly when there is a descriptor, and otherwise
    the negative error; [disk_close] answers 0 exactly when the descriptor of
    [disk_open] was closed. *)
Lemma disk_open_close s :
  exists e s1, disk_open s = Ret e s1 /\ (0 <= disk_fd s1 /\ e = 0 \/ disk_fd s1 = -1 /\ e < 0)
    /\ exists e' s2, disk_close s1 = Ret e' s2 /\ disk_fd s2 = disk_fd s1
      /\ (e' = 0 /\ fst (sys_close (disk_fd s1) (disk_os s1)) = 0 \/ e' < 0 /\ fst (sys_close (disk_fd s1) (disk_os s1)) = -1).
Proof.
  unfold disk_open, disk_close. pose proof (open_posix (disk_os s)) as Ho. destruct (sys_open (disk_os s)) as [fd os].
  eexists _, _. split; [reflexivity|]. cbn [disk_fd disk_os]. split; [destruct (Z.ltb_spec fd 0); lia|].
  pose proof (close_posix fd os) as Hc. destruct (sys_close fd os) as [r os']. eexists _, _. split; [reflexivity|].
  split; [done|]. cbn [fst]. destruct (Z.ltb_spec r 0); lia.
Qed.

Lemma alloc_aligned_ok size s p s' : alloc_aligned size s = Ret (Some p) s' -> p mod DISK_ALIGN = 0 /\ p <> 0 /\ disk_fd s' = disk_fd s.
Proof.
  unfold alloc_aligned. pose proof (memalign_posix DISK_ALIGN size (disk_os s)) as H.
  destruct (posix_memalign DISK_ALIGN size (disk_os s)) as [[r buf] os]. intros E. injection E as E <-.
  destruct (Z.eqb_spec r 0) as [->|]; [|done]. injection E as ->. destruct (H eq_refl). split; [done|]. split; [lia|done].
Qed.
End OpenClose.

(** ** Sector lemmas *)

Definition sectors_wf (m : gmap Z (list byte)) : Prop :=
  map_Forall (fun _ b => length b = Z.to_nat DISK_ALIGN) m.

Lemma sector_write m i k buf j :
  sector (write_sectors i k buf m) j =
    if bool_decide (i <= j < i + Z.of_nat k)
    then slice ((j - i) * DISK_ALIGN) DISK_ALIGN buf
    else sector m j.
Proof.
  revert m i buf. induction k as [|k IH]; intros m i buf; simpl.
  { rewrite bool_decide_false by lia. done. }
  rewrite IH. destruct (decide (i = j)) as [->|Hne].
  - rewrite bool_decide_false, bool_decide_true by lia.
    unfold sector, slice. rewrite lookup_insert_eq. simpl.
    replace ((j - j) * DISK_ALIGN) with 0 by lia. done.
  - destruct (decide (i + 1 <= j < i + 1 + Z.of_nat k)).
    + rewrite !bool_decide_true by lia. unfold slice. rewrite drop_drop.
      f_equal. f_equal. unfold DISK_ALIGN. lia.
    + rewrite !bool_decide_false by lia. unfold sector. by rewrite lookup_insert_ne.
Qed.

Lemma sectors_wf_write m i k buf :
  sectors_wf m -> length buf = (k * Z.to_nat DISK_ALIGN)%nat -> sectors_wf (write_sectors i k buf m).
Proof.
  revert m i buf. induction k as [|k IH]; intros m i buf Hwf HL; simpl; [done|].
  apply IH.
  - apply map_Forall_insert_2; [|done]. rewrite length_take. lia.
  - rewrite length_drop. lia.
Qed.

Lemma length_sector m i : sectors_wf m -> length (sector m i) = Z.to_nat DISK_ALIGN.
Proof.
  intros Hwf. unfold sector. destruct (m !! i) eqn:E; cbn [default]; [by apply Hwf in E|].
  apply length_zeros.
Qed.

Lemma length_read_sectors m i k :
  sectors_wf m -> length (read_sectors m i k) = (k * Z.to_nat DISK_ALIGN)%nat.
Proof.
  intros Hwf. revert i. induction k as [|k IH]; intros i; simpl; [done|].
  by rewrite length_app, IH, length_sector.
Qed.

Lemma read_sectors_ext m m' i i' k :
  (forall j, 0 <= j < Z.of_nat k -> sector m (i + j) = sector m' (i' + j)) ->
  read_sectors m i k = read_sectors m' i' k.
Proof.
  revert i i'. induction k as [|k IH]; intros i i' H; simpl; [done|]. f_equal.
  - specialize (H 0). rewrite !Z.add_0_r in H. apply H. lia.
  - apply IH. intros j Hj. specialize (H (1 + j)). rewrite !Z.add_assoc in H. apply H. lia.
Qed.

Lemma read_write_sectors_eq m i k buf :
  length buf = (k * Z.to_nat DISK_ALIGN)%nat ->
  read_sectors (write_sectors i k buf m) i k = buf.
Proof.
  revert m i buf. induction k as [|k IH]; intros m i buf HL; simpl.
  { by destruct buf. }
  rewrite IH by (rewrite length_drop; lia). rewrite sector_write.
  rewrite bool_decide_false by lia. unfold sector. rewrite lookup_insert_eq. simpl.
  apply take_drop.
Qed.

Lemma read_write_sectors_ne m i k buf i' k' :
  i' + Z.of_nat k' <= i \/ i + Z.of_nat k <= i' ->
  read_sectors (write_sectors i k buf m) i' k' = read_sectors m i' k'.
Proof.
  intros H. apply read_sectors_ext. intros j Hj.
  rewrite sector_write. by rewrite bool_decide_false by lia.
Qed.

(** ** One block on disk *)

Definition SECTORS_PER_BLOCK : nat := Z.to_nat (BLOCK_SIZE / DISK_ALIGN).

(** The block stored at byte offset [off]. *)
Definition block_at (d : Disk) (off : Z) : list byte :=
  read_sectors (sectors d) (off / DISK_ALIGN) SECTORS_PER_BLOCK.

Lemma block_at_empty size off : block_at (disk_empty size) off = zeros BLOCK_SIZE.
Proof.
  unfold block_at. cbn [disk_empty sectors]. generalize (off / DISK_ALIGN). intros i.
  assert (H : forall k i, read_sectors ∅ i k = zeros (Z.of_nat k * DISK_ALIGN)).
  { induction k as [|k IH]; intros j; [done|]. cbn [read_sectors]. rewrite IH. unfold sector.
    rewrite lookup_empty. cbn [default from_option]. rewrite <- zeros_app by (done || unfold DISK_ALIGN; lia).
    f_equal. lia. }
  apply (H SECTORS_PER_BLOCK).
Qed.

Lemma length_block_at d off :
  sectors_wf (sectors d) -> length (block_at d off) = Z.to_nat BLOCK_SIZE.
Proof. intros. unfold block_at. by rewrite length_read_sectors. Qed.

Lemma disk_read_block d off :
  sectors_wf (sectors d) -> aligned off = true -> 0 <= off -> off + BLOCK_SIZE <= disk_size d ->
  __disk_read off BLOCK_SIZE d = Ret (0, block_at d off) d.
Proof.
  intros Hwf Ha H0 Hs. unfold __disk_read, pread. rewrite Ha.
  rewrite (proj2 (Z.leb_le 0 off)) by done.
  change (aligned BLOCK_SIZE) with true. cbn [andb].
  rewrite Z.max_r, Z.min_l by (unfold BLOCK_SIZE in *; lia).
  change (i32 BLOCK_SIZE) with BLOCK_SIZE. change (BLOCK_SIZE <? 0) with false.
  rewrite Z.eqb_refl. do 2 f_equal. unfold block_at, SECTORS_PER_BLOCK.
  f_equal. apply take_ge. rewrite length_read_sectors by done. vm_compute. lia.
Qed.

(** What [__disk_write] does to a block-sized buffer whose offset converts to
    a non-negative [int]. *)
Lemma disk_write_block d off buf :
  aligned off = true -> 0 <= off -> 0 <= i32 off -> length buf = Z.to_nat BLOCK_SIZE ->
  exists d', __disk_write off buf d = Ret 0 d'
    /\ sectors d' = write_sectors (off / DISK_ALIGN) SECTORS_PER_BLOCK buf (sectors d)
    /\ disk_size d' = Z.max (disk_size d) (off + BLOCK_SIZE)
    /\ errno d' = errno d.
Proof.
  intros Ha H0 Hi HL. unfold __disk_write, lseek.
  rewrite (proj2 (Z.ltb_ge off 0)) by done. rewrite (proj2 (Z.ltb_ge (i32 off) 0)) by done.
  unfold write_at. rewrite HL, Ha.
  eexists. split; [reflexivity|]. split; [reflexivity|]. split; reflexivity.
Qed.

(** ** Properties *)

(** A block written at an offset whose low 32 bits read as a non-negative
    [int] is what the next read of that offset returns, and a block that
    does not overlap it reads as before. *)
Theorem disk_write_read d off buf off' :
  sectors_wf (sectors d) ->
  aligned off = true -> 0 <= off -> 0 <= i32 off -> length buf = Z.to_nat BLOCK_SIZE ->
  aligned off' = true -> 0 <= off' -> off' + BLOCK_SIZE <= disk_size d ->
  off' = off \/ off' + BLOCK_SIZE <= off \/ off + BLOCK_SIZE <= off' ->
  exists d', __disk_write off buf d = Ret 0 d' /\ sectors_wf (sectors d')
    /\ __disk_read off' BLOCK_SIZE d'
       = Ret (0, if bool_decide (off' = off) then buf else block_at d off') d'.
Proof.
  intros Hwf Ha H0 Hi HL Ha' H0' Hs' Hd.
  destruct (disk_write_block d off buf) as (d' & Hw & Hsec & Hsz & _); [done..|].
  assert (Hwf' : sectors_wf (sectors d')) by (rewrite Hsec; apply sectors_wf_write; done).
  exists d'. split; [done|]. split; [done|].
  rewrite disk_read_block by (rewrite ?Hsz; done || lia).
  do 2 f_equal. unfold block_at. rewrite Hsec. case_bool_decide as E.
  - subst off'. by apply read_write_sectors_eq.
  - apply read_write_sectors_ne. unfold aligned, DISK_ALIGN, BLOCK_SIZE in *.
    apply Z.eqb_eq in Ha, Ha'. change (Z.of_nat SECTORS_PER_BLOCK) with 8.
    Z.div_mod_to_equations. lia.
Qed.

(** Between 2 GiB and 4 GiB (modulo 4 GiB) the offset that [lseek] returns
    is negative as an [int]: [__disk_write] writes nothing, and since no call
    failed it returns the old [errno], which is 0 when none ever did. *)
Theorem disk_write_lost d off buf :
  2 ^ 31 <= off mod 2 ^ 32 -> 0 <= off ->
  __disk_write off buf d = Ret (- errno d) d.
Proof.
  intros Hm H0. unfold __disk_write, lseek.
  rewrite (proj2 (Z.ltb_ge off 0)) by done.
  rewrite (proj2 (Z.ltb_lt (i32 off) 0)); [done|].
  unfold i32. change (2 ^ 31) with 2147483648 in *. change (2 ^ 32) with 4294967296 in *.
  Z.div_mod_to_equations. lia.
Qed.

(** ** Instances of the properties *)

Lemma disk_write_read_witness :
  let d := disk_empty (4 * BLOCK_SIZE) in
  exists d', __disk_write BLOCK_SIZE (repeat Byte.x07 4096) d = Ret 0 d'
    /\ sectors_wf (sectors d')
    /\ __disk_read BLOCK_SIZE BLOCK_SIZE d' = Ret (0, repeat Byte.x07 4096) d'.
Proof.
  intros d.
  destruct (disk_write_read d BLOCK_SIZE (repeat Byte.x07 4096) BLOCK_SIZE) as (d' & H1 & H2 & H3);
    [apply map_Forall_empty|reflexivity|by vm_compute|by vm_compute|by rewrite repeat_length|
     reflexivity|by vm_compute|by vm_compute|by left|].
  exists d'. auto.
Defined.

Lemma disk_write_lost_witness :
  let d := disk_empty (40 * MAX_BLOCK_GROUP_SIZE) in
  __disk_write (2 ^ 31) (repeat Byte.x07 4096) d = Ret 0 d.
Proof. intros d. exact (disk_write_lost d (2 ^ 31) _ ltac:(by vm_compute) ltac:(by vm_compute)). Defined.
