(* ===== verification/Bitmap.v ===== *)
(** * Allocation bitmaps: include/utils/bitmap.h, src/utils/bitmap.cpp

    [Bitmap] is a view of a byte buffer as an array of [uint32_t] words.  An
    access to a word outside the buffer is undefined behaviour: [None]. *)

From S2P Require Import Prelude Layout.

Module Bitmap.

Definition BIT_SHIFT : Z := 5.

Definition BIT_MASK : Z := 0x1f.

Definition BIT_MAX : Z := 0xFFFFFFFF.

(** [1 << (i & BIT_MASK)], converted to [uint32_t] where it meets a word. *)
Definition BIT_GET (i : Z) : Z := Z.shiftl 1 (Z.land i BIT_MASK).

(** [data_[w]] *)
Definition word (w : Z) (d : list byte) : option Z :=
  if in_range (4 * w) 4 d then Some (ld 4 (4 * w) d) else None.

Definition set (i : Z) (d : list byte) : option (list byte) :=
  let w := Z.shiftr i BIT_SHIFT in
  v ← word w d;
  Some (st 4 (4 * w) (Z.lor v (BIT_GET i)) d).

Definition test (i : Z) (d : list byte) : option bool :=
  v ← word (Z.shiftr i BIT_SHIFT) d;
  Some (negb (Z.land v (BIT_GET i) =? 0)).

Definition clear (i : Z) (d : list byte) : option (list byte) :=
  let w := Z.shiftr i BIT_SHIFT in
  v ← word w d;
  Some (st 4 (4 * w) (Z.land v (u32 (Z.lnot (BIT_GET i)))) d).

(** [while (cur_bits & 1) { cur_bits >>= 1; k++; }] on a signed [int]; a word
    that is not all ones stops it within 32 turns. *)
Fixpoint trailing_ones (fuel : nat) (cur_bits k : Z) : option Z :=
  match fuel with
  | O => None
  | S f =>
      if negb (Z.land cur_bits 1 =? 0) then trailing_ones f (Z.shiftr cur_bits 1) (k + 1)
      else Some k
  end.

Fixpoint find_loop (n : nat) (i size : Z) (d : list byte) : option Z :=
  match n with
  | O => Some (-1)
  | S n' =>
      v ← word i d;
      if negb (v =? BIT_MAX) then
        k ← trailing_ones 32 (i32 v) 0;
        let ret := Z.shiftl i BIT_SHIFT + k in
        Some (if size <=? ret then -1 else ret)
      else find_loop n' (i + 1) size d
  end.

Definition find (size : Z) (d : list byte) : option Z :=
  let max_index :=
    Z.shiftr size BIT_SHIFT + (if negb (Z.land size BIT_MASK =? 0) then 1 else 0) in
  find_loop (Z.to_nat max_index) 0 size d.

(** ** The bits of a buffer *)

Definition bit (d : list byte) (i : Z) : bool := Z.testbit (ld 4 (4 * (i / 32)) d) (i mod 32).

(** Number of bits of a buffer, rounded down to whole words. *)
Definition nbits (d : list byte) : Z := 32 * (Z.of_nat (length d) / 4).

Lemma shift_div i : Z.shiftr i BIT_SHIFT = i / 32.
Proof. unfold BIT_SHIFT. by rewrite Z.shiftr_div_pow2. Qed.

Lemma mask_mod i : Z.land i BIT_MASK = i mod 32.
Proof. change BIT_MASK with (Z.ones 5). by rewrite Z.land_ones. Qed.

Lemma BIT_GET_pow i : BIT_GET i = 2 ^ (i mod 32).
Proof. unfold BIT_GET. rewrite mask_mod, Z.shiftl_1_l. done. Qed.

Lemma mod32_range i : 0 <= i mod 32 < 32.
Proof. apply Z.mod_pos_bound. lia. Qed.

Lemma word_in i d :
  0 <= i < nbits d -> word (i / 32) d = Some (ld 4 (4 * (i / 32)) d).
Proof.
  intros H. unfold word. rewrite (proj2 (in_range_spec _ _ _)); [done|].
  unfold nbits in H. Z.div_mod_to_equations. lia.
Qed.

Lemma testbit_land_pow v k : 0 <= k -> negb (Z.land v (2 ^ k) =? 0) = Z.testbit v k.
Proof.
  intros Hk. destruct (Z.testbit v k) eqn:E.
  - rewrite negb_true_iff, Z.eqb_neq. intros H0.
    assert (Z.testbit (Z.land v (2 ^ k)) k = false) as H1 by by rewrite H0, Z.testbit_0_l.
    rewrite Z.land_spec, E, Z.pow2_bits_true in H1 by done. done.
  - rewrite negb_false_iff, Z.eqb_eq. apply Z.bits_inj'. intros n Hn.
    rewrite Z.land_spec, Z.testbit_0_l, Z.pow2_bits_eqb by done.
    destruct (Z.eqb_spec k n); [subst; by rewrite E|]. by rewrite andb_false_r.
Qed.

Lemma bit_st i v d j :
  0 <= i < nbits d -> 0 <= j ->
  bit (st 4 (4 * (i / 32)) v d) j =
    if bool_decide (j / 32 = i / 32)
    then Z.testbit (v mod 2 ^ 32) (j mod 32) else bit d j.
Proof.
  intros Hi Hj. unfold bit.
  assert (0 <= 4 * (i / 32) /\ 4 * (i / 32) + Z.of_nat 4 <= Z.of_nat (length d)) as [H1 H2].
  { unfold nbits in Hi. Z.div_mod_to_equations. lia. }
  case_bool_decide as E.
  - rewrite E, ld_st_eq by done. done.
  - rewrite ld_st_ne by (Z.div_mod_to_equations; lia). done.
Qed.

Lemma mod32_inj i j : j / 32 = i / 32 -> (j mod 32 =? i mod 32) = bool_decide (j = i).
Proof.
  intros H. case_bool_decide as E; [subst; apply Z.eqb_refl|].
  apply Z.eqb_neq. Z.div_mod_to_equations. lia.
Qed.

(** ** Specifications *)

Lemma test_bit i d : 0 <= i < nbits d -> test i d = Some (bit d i).
Proof.
  intros H. unfold test. rewrite shift_div, word_in by done. simpl.
  rewrite BIT_GET_pow. pose proof (mod32_range i).
  by rewrite testbit_land_pow by lia.
Qed.

Lemma set_spec i d :
  0 <= i < nbits d ->
  exists d', set i d = Some d' /\ length d' = length d
    /\ forall j, 0 <= j -> bit d' j = bool_decide (j = i) || bit d j.
Proof.
  intros H. unfold set. rewrite shift_div, word_in by done. simpl.
  eexists. split; [reflexivity|]. split.
  { apply length_st; unfold nbits in H; Z.div_mod_to_equations; lia. }
  intros j Hj. rewrite bit_st by done. pose proof (mod32_range j).
  case_bool_decide as E.
  - rewrite Z.mod_pow2_bits_low, Z.lor_spec by lia. rewrite BIT_GET_pow, Z.pow2_bits_eqb by
      apply mod32_range.
    rewrite Z.eqb_sym, mod32_inj, orb_comm by done. unfold bit. by rewrite E.
  - rewrite bool_decide_false by congruence. done.
Qed.

Lemma clear_spec i d :
  0 <= i < nbits d ->
  exists d', clear i d = Some d' /\ length d' = length d
    /\ forall j, 0 <= j -> bit d' j = negb (bool_decide (j = i)) && bit d j.
Proof.
  intros H. unfold clear. rewrite shift_div, word_in by done. simpl.
  eexists. split; [reflexivity|]. split.
  { apply length_st; unfold nbits in H; Z.div_mod_to_equations; lia. }
  intros j Hj. rewrite bit_st by done. pose proof (mod32_range j). pose proof (mod32_range i).
  case_bool_decide as E.
  - unfold u32. rewrite Z.mod_pow2_bits_low, Z.land_spec, Z.mod_pow2_bits_low by lia.
    rewrite Z.lnot_spec, BIT_GET_pow, Z.pow2_bits_eqb by lia.
    rewrite Z.eqb_sym, mod32_inj, andb_comm by done. unfold bit. by rewrite E.
  - rewrite (bool_decide_false (j = i)) by congruence. done.
Qed.

(** The inner loop of [find] finds the lowest clear bit. *)
Lemma trailing_ones_spec fuel v k0 :
  (exists n, 0 <= n < Z.of_nat fuel /\ Z.testbit v n = false) ->
  exists k, trailing_ones fuel v k0 = Some (k0 + k) /\ 0 <= k < Z.of_nat fuel
    /\ Z.testbit v k = false /\ forall j, 0 <= j < k -> Z.testbit v j = true.
Proof.
  revert v k0. induction fuel as [|f IH]; intros v k0 (n & Hn & Hb); [lia|].
  cbn [trailing_ones].
  pose proof (testbit_land_pow v 0 ltac:(lia)) as Hl. change (2 ^ 0) with 1 in Hl. rewrite Hl.
  destruct (Z.testbit v 0) eqn:E.
  - destruct (IH (Z.shiftr v 1) (k0 + 1)) as (k & Hk & Hr & Hf & Ht).
    { exists (n - 1). assert (n <> 0) by (intros ->; congruence).
      rewrite Z.shiftr_spec by lia. replace (n - 1 + 1) with n by lia. lia || (split; [lia|done]). }
    exists (k + 1). rewrite Hk. split; [f_equal; lia|]. split; [lia|].
    rewrite Z.shiftr_spec in Hf by lia. split; [done|]. intros j Hj.
    destruct (decide (j = 0)) as [->|]; [done|].
    specialize (Ht (j - 1)). rewrite Z.shiftr_spec in Ht by lia.
    replace (j - 1 + 1) with j in Ht by lia. apply Ht. lia.
  - exists 0. rewrite Z.add_0_r. repeat split; try done; lia.
Qed.

#[global] Arguments trailing_ones : simpl never.

Lemma testbit_i32 v n : 0 <= n < 32 -> Z.testbit (i32 v) n = Z.testbit v n.
Proof.
  intros Hn. rewrite <- (Z.mod_pow2_bits_low (i32 v) 32), <- (Z.mod_pow2_bits_low v 32) by lia.
  f_equal. unfold i32. rewrite Zminus_mod_idemp_l. f_equal. lia.
Qed.

Lemma not_max_has_zero v :
  0 <= v < 2 ^ 32 -> v <> BIT_MAX -> exists n, 0 <= n < 32 /\ Z.testbit v n = false.
Proof.
  intros Hr Hne.
  destruct (decide (Exists (fun n => Z.testbit v (Z.of_nat n) = false) (seq 0 32))) as [H|H].
  - apply Exists_exists in H as (n & Hin & Hb). exists (Z.of_nat n). split; [|done].
    apply elem_of_seq in Hin. lia.
  - exfalso. apply Hne. apply Z.bits_inj'. intros n Hn.
    change BIT_MAX with (Z.ones 32). destruct (decide (n < 32)).
    + rewrite Z.ones_spec_low by lia. destruct (Z.testbit v n) eqn:E; [done|].
      exfalso. apply H. apply Exists_exists. exists (Z.to_nat n). split.
      * apply elem_of_seq. lia.
      * by rewrite Z2Nat.id.
    + rewrite Z.ones_spec_high by lia. rewrite <- (Z.mod_small v (2 ^ 32)) by done.
      apply Z.mod_pow2_bits_high. lia.
Qed.

Lemma max_all_ones n : 0 <= n < 32 -> Z.testbit BIT_MAX n = true.
Proof. intros. change BIT_MAX with (Z.ones 32). apply Z.ones_spec_low. lia. Qed.

(** What [find] promises about a buffer: the first clear bit below [size]. *)
Definition find_post (size : Z) (d : list byte) (r : Z) : Prop :=
  (r = -1 /\ forall j, 0 <= j < size -> bit d j = true)
  \/ (0 <= r < size /\ bit d r = false /\ forall j, 0 <= j < r -> bit d j = true).

Lemma find_loop_spec n i size d :
  0 <= i -> 32 * (i + Z.of_nat n) <= nbits d -> size <= 32 * (i + Z.of_nat n) ->
  (forall j, 0 <= j < 32 * i -> bit d j = true) ->
  exists r, find_loop n i size d = Some r /\ find_post size d r.
Proof.
  revert i. induction n as [|n IH]; intros i Hi Hn Hs Hall; cbn [find_loop].
  - exists (-1). split; [done|]. left. split; [done|]. intros j Hj. apply Hall. lia.
  - assert (Hw : word i d = Some (ld 4 (4 * i) d)).
    { pose proof (word_in (32 * i) d ltac:(lia)) as Hw.
      by replace (32 * i / 32) with i in Hw by (Z.div_mod_to_equations; lia). }
    rewrite Hw. simpl.
    assert (Hbit : forall k, 0 <= k < 32 -> bit d (32 * i + k) = Z.testbit (ld 4 (4 * i) d) k).
    { intros k Hk. unfold bit. replace ((32 * i + k) / 32) with i by (Z.div_mod_to_equations; lia).
      by replace ((32 * i + k) mod 32) with k by (Z.div_mod_to_equations; lia). }
    assert (Hlow : forall m, (forall k, 0 <= k < m -> Z.testbit (ld 4 (4 * i) d) k = true) -> m <= 32 ->
               forall j, 0 <= j < 32 * i + m -> bit d j = true).
    { intros m Hm Hm32 j Hj. destruct (decide (j < 32 * i)); [apply Hall; lia|].
      replace j with (32 * i + (j - 32 * i)) by lia. rewrite Hbit by lia. apply Hm. lia. }
    destruct (Z.eqb_spec (ld 4 (4 * i) d) BIT_MAX) as [E|E]; simpl.
    + apply IH; try lia. intros j Hj. apply (Hlow 32); [|lia|lia].
      intros k Hk. rewrite E. by apply max_all_ones.
    + destruct (trailing_ones_spec 32 (i32 (ld 4 (4 * i) d)) 0) as (k & Hk & Hr & Hf & Ht).
      { destruct (not_max_has_zero (ld 4 (4 * i) d)) as (m & Hm & Hb); [apply ld_range|done|].
        exists m. rewrite testbit_i32 by done. done. }
      change (Z.of_nat 32) with 32 in Hr.
      rewrite Hk. simpl. eexists. split; [reflexivity|].
      rewrite testbit_i32 in Hf by lia.
      assert (Ht' : forall k', 0 <= k' < k -> Z.testbit (ld 4 (4 * i) d) k' = true).
      { intros k' Hk'. rewrite <- testbit_i32 by lia. by apply Ht. }
      unfold BIT_SHIFT. rewrite Z.shiftl_mul_pow2 by lia. change (2 ^ 5) with 32.
      destruct (Z.leb_spec size (i * 32 + (0 + k))).
      * left. split; [done|]. intros j Hj. apply (Hlow k); [done|lia|lia].
      * right. split; [lia|]. split.
        -- replace (i * 32 + (0 + k)) with (32 * i + k) by lia. by rewrite Hbit.
        -- intros j Hj. apply (Hlow k); [done|lia|lia].
Qed.

Lemma find_spec size d :
  0 <= size <= nbits d -> exists r, find size d = Some r /\ find_post size d r.
Proof.
  intros H. unfold find. rewrite shift_div, mask_mod.
  assert (Hn : nbits d mod 32 = 0).
  { unfold nbits. rewrite Z.mul_comm. apply Z.mod_mul. lia. }
  apply find_loop_spec; [lia| | |lia];
    destruct (Z.eqb_spec (size mod 32) 0); cbn [negb]; Z.div_mod_to_equations; lia.
Qed.

End Bitmap.
