(* ===== verification/PathName.v ===== *)
(** * Path names: include/utils/path.h

    A C string is the list of its bytes before the terminating NUL.  A name
    is a pair of an offset into the path and a length, as the source keeps a
    pointer and a length. *)

From S2P Require Import Prelude Layout.

Definition SLASH : byte := Byte.x2f.

Definition SEPARATOR (c : byte) : bool := bool_decide (c = SLASH).

Record Path : Type := mk_path {
  valid_ : bool;
  path_ : list byte;
  name_list_ : list (Z * Z)
}.

(** [while (!SEPARATOR(ptr[name_len]) && ptr[name_len]) name_len++;] *)
Fixpoint name_length (ptr : list byte) : Z :=
  match ptr with
  | [] => 0
  | c :: ptr' => if SEPARATOR c then 0 else 1 + name_length ptr'
  end.

(** The outer [while] of the constructor; the fuel is the length of the path
    plus one, since every turn consumes a byte. *)
Fixpoint path_loop (fuel : nat) (ptr : list byte) (curr_off : Z) (valid : bool)
    (acc : list (Z * Z)) : option (bool * list (Z * Z)) :=
  match fuel with
  | O => None
  | S f =>
      match ptr with
      | [] => Some (valid, acc)
      | c :: ptr' =>
          let ptr1 := if SEPARATOR c then ptr' else ptr in
          let off1 := if SEPARATOR c then curr_off + 1 else curr_off in
          match ptr1 with
          | [] => Some (valid, acc)
          | _ =>
              let n := name_length ptr1 in
              path_loop f (drop (Z.to_nat n) ptr1) (off1 + n)
                (if n =? 0 then false else valid) (acc ++ [(off1, n)])
          end
      end
  end.

(** [Path(const char* path)] *)
Definition path_init {S} (path : list byte) : M S Path :=
  _ ← ASSERT (0 <? Z.of_nat (length path));
  match path with
  | c :: _ =>
      if negb (SEPARATOR c) then mret (mk_path false path [])
      else
        '(valid, names) ← unwrap OutOfFuel (path_loop (length path + 1)%nat path 0 true []);
        mret (mk_path valid path names)
  | [] => mret (mk_path true path [])
  end.

(** [Path(const Path& path, size_t slice)]: the first [slice] names. *)
Definition path_slice (path : Path) (slice : Z) : Path :=
  mk_path (valid_ path) (path_ path)
    (if 0 <? slice then take (Z.to_nat slice) (name_list_ path) else []).

Definition path_size (p : Path) : Z := Z.of_nat (length (name_list_ p)).

Definition path_empty (p : Path) : bool := bool_decide (name_list_ p = []).

Definition path_valid (p : Path) : bool := valid_ p.

(** The bytes a (pointer, length) pair of [name_list_] denotes. *)
Definition name_of (p : Path) (e : Z * Z) : list byte := slice (e.1) (e.2) (path_ p).

Definition path_names (p : Path) : list (list byte) := name_of p <$> name_list_ p.

(** [back()]: the last name, or the empty string of length 0. *)
Definition path_back (p : Path) : list byte :=
  match last (name_list_ p) with
  | Some e => name_of p e
  | None => []
  end.

(** ** Reference: joining names *)

Definition join (names : list (list byte)) : list byte :=
  concat (map (fun n => SLASH :: n) names).

(** A name with no separator in it. *)
Definition plain (n : list byte) : Prop := Forall (fun c => SEPARATOR c = false) n.

Lemma name_length_spec ptr :
  let n := Z.to_nat (name_length ptr) in
  0 <= name_length ptr <= Z.of_nat (length ptr) /\ plain (take n ptr)
  /\ (drop n ptr = [] \/ exists r, drop n ptr = SLASH :: r).
Proof.
  induction ptr as [|c ptr IH]; simpl.
  - repeat split; try lia; [constructor|by left].
  - destruct (SEPARATOR c) eqn:E; simpl.
    + apply bool_decide_eq_true in E. subst.
      repeat split; try lia; [constructor|]. right. eauto.
    + destruct IH as (H1 & H2 & H3).
      replace (Z.to_nat (1 + name_length ptr)) with (S (Z.to_nat (name_length ptr))) by lia.
      simpl. split; [lia|]. split; [|done]. by constructor.
Qed.

(** A last name that is empty is followed by a separator: the loop skips a
    trailing separator instead of reading an empty name after it. *)
Definition canonical (names : list (list byte)) (tl : list byte) : Prop :=
  last names = Some [] -> tl = [SLASH].

Lemma canonical_cons n names tl :
  canonical names tl -> (n = [] -> names = [] -> tl = [SLASH]) -> canonical (n :: names) tl.
Proof.
  unfold canonical. intros H Hn. destruct names as [|m ms]; [|done].
  simpl. intros [= ->]. by apply Hn.
Qed.

Lemma canonical_tail n names tl : canonical (n :: names) tl -> canonical names tl.
Proof. unfold canonical. by destruct names. Qed.

(** Starting at a separator, the loop splits the rest of the path. *)
Lemma path_loop_spec p fuel ptr off valid acc :
  (length ptr < fuel)%nat -> 0 <= off -> drop (Z.to_nat off) p = ptr ->
  ptr = [] \/ (exists r, ptr = SLASH :: r) ->
  exists es tl, path_loop fuel ptr off valid acc
      = Some (valid && forallb (fun e => negb (e.2 =? 0)) es, acc ++ es)
    /\ ptr = join (map (fun e => slice e.1 e.2 p) es) ++ tl /\ (tl = [] \/ tl = [SLASH])
    /\ Forall plain (map (fun e => slice e.1 e.2 p) es)
    /\ Forall (fun e => 0 <= e.2 /\ length (slice e.1 e.2 p) = Z.to_nat e.2) es
    /\ canonical (map (fun e => slice e.1 e.2 p) es) tl.
Proof.
  revert ptr off valid acc.
  induction fuel as [|f IH]; intros ptr off valid acc Hf Ho Hd Hp; [lia|].
  destruct Hp as [->|[r ->]].
  { exists [], []. simpl. rewrite andb_true_r, app_nil_r. unfold canonical. naive_solver. }
  cbn [path_loop]. assert (SEPARATOR SLASH = true) as -> by done.
  destruct r as [|c r'].
  { exists [], [SLASH]. simpl. rewrite andb_true_r, app_nil_r. unfold canonical. naive_solver. }
  set (r := c :: r') in *. assert (Hr : drop (Z.to_nat (off + 1)) p = r).
  { replace (Z.to_nat (off + 1)) with (Z.to_nat off + 1)%nat by lia.
    by rewrite <- drop_drop, Hd. }
  destruct (name_length_spec r) as (Hn & Hpl & Hrest).
  set (n := name_length r) in *.
  destruct (IH (drop (Z.to_nat n) r) (off + 1 + n) (if n =? 0 then false else valid)
              (acc ++ [(off + 1, n)])) as (es & tl & Hes & Hj & Htl & Hpls & Hlen & Hcan).
  - rewrite length_drop. change (length (SLASH :: r)) with (S (length r)) in Hf. lia.
  - lia.
  - replace (Z.to_nat (off + 1 + n)) with (Z.to_nat (off + 1) + Z.to_nat n)%nat by lia.
    by rewrite <- drop_drop, Hr.
  - done.
  - assert (Hs : slice (off + 1) n p = take (Z.to_nat n) r) by (unfold slice; by rewrite Hr).
    exists ((off + 1, n) :: es), tl. split; [|split; [|split; [|split; [|split]]]].
    + subst r. rewrite Hes. simpl. rewrite <- app_assoc. f_equal. f_equal.
      destruct (n =? 0); simpl; by rewrite ?andb_false_r, ?andb_true_r.
    + unfold join in *. simpl. rewrite Hs, <- app_assoc, <- Hj.
      f_equal. by rewrite take_drop.
    + done.
    + constructor; [|done]. simpl. by rewrite Hs.
    + constructor; [|done]. simpl. rewrite Hs, length_take. split; lia.
    + apply canonical_cons; [done|]. simpl. rewrite Hs. intros Hn0 Hes0.
      destruct es; [|done]. simpl in Hj.
      destruct Htl as [->|]; [|done]. exfalso.
      assert (Hr0 : r = []) by (by rewrite <- (take_drop (Z.to_nat n) r), Hn0, Hj). done.
Qed.

(** The names of a path determine it up to a trailing separator. *)
Lemma join_inj ns ms tl tm :
  Forall plain ns -> Forall plain ms ->
  tl = [] \/ tl = [SLASH] -> tm = [] \/ tm = [SLASH] ->
  canonical ns tl -> canonical ms tm ->
  join ns ++ tl = join ms ++ tm -> ns = ms.
Proof.
  assert (Hsplit : forall n m r1 r2, plain n -> plain m ->
            (r1 = [] \/ exists r, r1 = SLASH :: r) -> (r2 = [] \/ exists r, r2 = SLASH :: r) ->
            n ++ r1 = m ++ r2 -> n = m /\ r1 = r2).
  { induction n as [|c n IHn]; intros [|c' m] r1 r2 Hn Hm Hr1 Hr2; simpl.
    - done.
    - inversion_clear Hm as [|? ? Hc]. destruct Hr1 as [->|[? ->]]; [done|].
      intros Heq. injection Heq as <- _. done.
    - inversion_clear Hn as [|? ? Hc]. destruct Hr2 as [->|[? ->]]; [done|].
      intros Heq. injection Heq as -> _. done.
    - inversion_clear Hn. inversion_clear Hm. intros Heq. injection Heq as -> Heq.
      apply IHn in Heq as [-> ->]; done. }
  assert (Hhd : forall ks t, t = [] \/ t = [SLASH] ->
            join ks ++ t = [] \/ exists r, join ks ++ t = SLASH :: r).
  { intros [|k ks] t Ht; simpl; [|eauto]. destruct Ht as [->| ->]; eauto. }
  intros Hns. revert ms. induction ns as [|n ns IH]; intros [|m ms] Hms Htl Htm H1 H2; simpl.
  - done.
  - intros H. destruct Htl as [->| ->]; [done|]. injection H as H.
    destruct m; [|done]. destruct ms; [|done]. by rewrite (H2 eq_refl) in H.
  - intros H. destruct Htm as [->| ->]; [done|]. injection H as H.
    destruct n; [|done]. destruct ns; [|done]. by rewrite (H1 eq_refl) in H.
  - intros H. injection H as H. inversion_clear Hns. inversion_clear Hms.
    change (concat (map (fun n0 : list byte => SLASH :: n0) ns)) with (join ns) in H.
    change (concat (map (fun n0 : list byte => SLASH :: n0) ms)) with (join ms) in H.
    rewrite <- !app_assoc in H.
    apply Hsplit in H as [-> H]; auto. f_equal. apply IH; eauto using canonical_tail.
Qed.

(** What the constructor computes on a path that starts with a separator. *)
Lemma path_init_parse {S} (r : list byte) (s : S) :
  exists es tl, let p := mk_path (forallb (fun e => negb (e.2 =? 0)) es) (SLASH :: r) es in
    path_init (SLASH :: r) s = Ret p s
    /\ SLASH :: r = join (path_names p) ++ tl /\ (tl = [] \/ tl = [SLASH])
    /\ Forall plain (path_names p)
    /\ Forall (fun e => 0 <= e.2 /\ length (slice e.1 e.2 (SLASH :: r)) = Z.to_nat e.2) es
    /\ canonical (path_names p) tl.
Proof.
  destruct (path_loop_spec (SLASH :: r) (length (SLASH :: r) + 1) (SLASH :: r) 0 true [])
    as (es & tl & Hes & Hj & Htl & Hpl & Hlen & Hcan); [lia|done|done|eauto|].
  exists es, tl. split; [|repeat split; done].
  unfold path_init. rewrite (bind_ret _ _ s tt s) by done.
  assert (SEPARATOR SLASH = true) as -> by done. cbn [negb].
  by rewrite Hes.
Qed.

Lemma names_nonempty_iff d es :
  Forall (fun e => 0 <= e.2 /\ length (slice e.1 e.2 d) = Z.to_nat e.2) es ->
  forallb (fun e : Z * Z => negb (e.2 =? 0)) es = true
  <-> Forall (fun n => n <> []) (map (fun e => slice e.1 e.2 d) es).
Proof.
  induction 1 as [|e es [He HL] _ IH]; [done|]. cbn [forallb map].
  rewrite andb_true_iff, Forall_cons, IH, negb_true_iff, Z.eqb_neq.
  apply and_iff_compat_r. destruct (slice e.1 e.2 d); simpl in HL; split; intros; try done; lia.
Qed.

Lemma path_init_names {S} (ns : list (list byte)) (tl : list byte) (s : S) :
  ns <> [] -> Forall plain ns -> Forall (fun n => n <> []) ns -> tl = [] \/ tl = [SLASH] ->
  exists p, path_init (join ns ++ tl) s = Ret p s /\ path_valid p = true /\ path_names p = ns.
Proof.
  intros Hne Hpl Hnn Htl. destruct ns as [|n0 ns0]; [done|].
  assert (Hj : join (n0 :: ns0) ++ tl = SLASH :: (n0 ++ join ns0) ++ tl) by done.
  destruct (path_init_parse ((n0 ++ join ns0) ++ tl) s) as (es & tl' & H1 & H2 & H3 & H4 & H5 & H6).
  rewrite <- Hj in *. set (ns := n0 :: ns0) in *. set (p := mk_path _ _ es) in *.
  assert (Hnames : path_names p = ns).
  { symmetry. apply (join_inj ns (path_names p) tl tl'); try done.
    intros Hl. apply last_Some_elem_of in Hl. rewrite Forall_forall in Hnn. by apply Hnn in Hl. }
  exists p. split; [exact H1|]. split; [|done].
  apply (names_nonempty_iff (join ns ++ tl)); [done|].
  change (Forall (fun n => n <> []) (path_names p)). by rewrite Hnames.
Qed.

(** The path that names lead along, from the root. *)
Definition path_string (ns : list (list byte)) : list byte :=
  match ns with [] => [SLASH] | _ => join ns end.

Lemma path_init_string {S} (ns : list (list byte)) (s : S) :
  Forall plain ns -> Forall (fun n => n <> []) ns ->
  exists p, path_init (path_string ns) s = Ret p s /\ path_valid p = true /\ path_names p = ns.
Proof.
  intros Hp Hn. destruct ns as [|n ns]; [by exists (mk_path true [SLASH] [])|].
  destruct (path_init_names (n :: ns) [] s) as (p & H); [done|done|done|by left|]. rewrite app_nil_r in H. by exists p.
Qed.

(** ** Properties *)

(** The constructor loses nothing: a path that starts with a separator
    parses, whatever it contains, into names that hold no separator and that,
    joined again, give back the path up to one trailing separator; it is
    valid exactly when no name is empty. *)
Theorem path_init_sound {S} (r : list byte) (s : S) :
  exists p tl, path_init (SLASH :: r) s = Ret p s
    /\ path_ p = SLASH :: r
    /\ SLASH :: r = join (path_names p) ++ tl /\ (tl = [] \/ tl = [SLASH])
    /\ Forall plain (path_names p) /\ canonical (path_names p) tl
    /\ (path_valid p = true <-> Forall (fun n => n <> []) (path_names p)).
Proof.
  destruct (path_init_parse r s) as (es & tl & H1 & H2 & H3 & H4 & H5 & H6).
  eexists _, tl. split; [exact H1|]. do 5 (split; [done|]). by apply names_nonempty_iff.
Qed.

(** C33. Round trip: non-empty separator-free names joined with separators,
    with or without a trailing one, parse back to exactly those names. *)
Theorem path_init_join {S} (ns : list (list byte)) (tl : list byte) (s : S) :
  ns <> [] -> Forall plain ns -> Forall (fun n => n <> []) ns -> tl = [] \/ tl = [SLASH] ->
  exists p, path_init (join ns ++ tl) s = Ret p s /\ path_valid p = true /\ path_names p = ns.
Proof. apply path_init_names. Qed.

Lemma path_init_join_witness :
  exists p, path_init [SLASH; Byte.x61; SLASH; Byte.x62; Byte.x63; SLASH] tt = Ret p tt
    /\ path_valid p = true /\ path_names p = [[Byte.x61]; [Byte.x62; Byte.x63]].
Proof.
  apply (path_init_join [[Byte.x61]; [Byte.x62; Byte.x63]] [SLASH] tt).
  - done.
  - by repeat constructor.
  - repeat constructor; done.
  - by right.
Defined.
