(* ===== verification/Block.v ===== *)
(** * Blocks, the super block and directory blocks: include/block.h, src/block.cpp

    [Block] owns a 4096-byte buffer and the disk offset it came from;
    [SuperBlock] is block 0 with the table of group descriptors that follow
    the super block in it; [BitmapBlock] is a block read as a [Bitmap];
    [DentryBlock] is a view of a block as a sequence of directory entries. *)

From S2P Require Import Prelude Layout Disk Bitmap.

(** ** class Block *)

Record Block : Type := mk_block {
  offset_ : Z;
  data_ : list byte
}.

#[global] Instance Block_eq_dec : EqDecision Block.
Proof. solve_decision. Defined.

Definition with_data (data : list byte) (b : Block) : Block := mk_block (offset_ b) data.

(** [Block(off_t offset, bool alloc)] *)
Definition Block_init (offset : Z) (alloc : bool) : M Disk Block :=
  if negb alloc then
    '(ret, data) ← __disk_read offset BLOCK_SIZE;
    _ ← ASSERT (ret =? 0);
    mret (mk_block offset data)
  else mret (mk_block offset (zeros BLOCK_SIZE)).

(** [int flush()] *)
Definition Block_flush (b : Block) : M Disk Z := __disk_write (offset_ b) (data_ b).

(** ** class SuperBlock

    The pointers of [desc_table_] are byte offsets into the block. *)

Record SuperBlock : Type := mk_super {
  sb_block : Block;
  desc_table_ : list Z
}.

Definition sb_get (f : field) (sb : SuperBlock) : Z := getf 0 f (data_ (sb_block sb)).

Definition sb_set (f : field) (v : Z) (sb : SuperBlock) : SuperBlock :=
  mk_super (with_data (setf 0 f v (data_ (sb_block sb))) (sb_block sb)) (desc_table_ sb).

(** Field [f] of the descriptor at byte [p]. *)
Definition desc_get (p : Z) (f : field) (sb : SuperBlock) : Z := getf p f (data_ (sb_block sb)).

Definition desc_set (p : Z) (f : field) (v : Z) (sb : SuperBlock) : SuperBlock :=
  mk_super (with_data (setf p f v (data_ (sb_block sb))) (sb_block sb)) (desc_table_ sb).

(** [get_group_desc(int index)]; [None] is [nullptr]. *)
Definition get_group_desc (index : Z) (sb : SuperBlock) : option Z :=
  if Z.of_nat (length (desc_table_ sb)) <=? index then None
  else desc_table_ sb !! Z.to_nat index.

Definition put_group_desc (p : Z) (sb : SuperBlock) : SuperBlock :=
  mk_super (sb_block sb) (desc_table_ sb ++ [p]).

Definition blocks_per_group (sb : SuperBlock) : Z := sb_get s_blocks_per_group sb.

Definition inodes_per_group (sb : SuperBlock) : Z := sb_get s_inodes_per_group sb.

(** [uint32_t num_block_groups()] *)
Definition num_block_groups {S} (sb : SuperBlock) : M S Z :=
  block_n ← udiv (u32 (sb_get s_blocks_count sb + blocks_per_group sb - 1)) (blocks_per_group sb);
  inode_n ← udiv (u32 (sb_get s_inodes_count sb + inodes_per_group sb - 1)) (inodes_per_group sb);
  let n := Z.max inode_n block_n in
  mret (if n =? 0 then 1 else n).

(** [num_aligned_blocks(uint32_t iblocks)]: [i_blocks] counts 512-byte units. *)
Definition num_aligned_blocks {S} (iblocks : Z) (sb : SuperBlock) : M S Z :=
  udiv iblocks (u32 (Z.shiftl 2 (sb_get s_log_block_size sb))).

(** The descriptor of a block group, filled the way both [init_super_block]
    and [alloc_block_group] fill it from the offset of its inode bitmap. *)
Definition fill_desc (p inode_bitmap free_blocks free_inodes : Z) (sb : SuperBlock) : SuperBlock :=
  let sb := desc_set p bg_inode_bitmap inode_bitmap sb in
  let sb := desc_set p bg_block_bitmap (desc_get p bg_inode_bitmap sb + BLOCK_SIZE) sb in
  let sb := desc_set p bg_inode_table (desc_get p bg_block_bitmap sb + BLOCK_SIZE) sb in
  let sb := desc_set p bg_free_blocks_count free_blocks sb in
  let sb := desc_set p bg_free_inodes_count free_inodes sb in
  desc_set p bg_used_dirs_count 0 sb.

(** [void init_super_block()] *)
Definition init_super_block (sb : SuperBlock) : M Disk SuperBlock :=
  if sb_get s_state sb =? FSState_UNINIT then
    let sb := sb_set s_log_block_size LOG_BLOCK_SIZE sb in
    let sb := sb_set s_blocks_per_group TOTAL_BLOCKS_PER_GROUP sb in
    let sb := sb_set s_inodes_per_group INODES_PER_GROUP sb in
    let sb := sb_set s_blocks_count 3 sb in
    let sb := sb_set s_inodes_count 1 sb in
    let sb := sb_set s_first_ino ROOT_INODE sb in
    let sb := sb_set s_inode_size sizeof_ext2_inode sb in
    let sb := sb_set s_state FSState_NORMAL sb in
    let desc := desc_off 0 in
    let sb := fill_desc desc BLOCK_SIZE BLOCKS_PER_GROUP (INODES_PER_GROUP - 1) sb in
    let sb := put_group_desc desc sb in
    _ ← Block_flush (sb_block sb);
    mret sb
  else if sb_get s_state sb =? FSState_NORMAL then
    n ← num_block_groups sb;
    mret (mk_super (sb_block sb)
            (desc_table_ sb ++ map (fun i => desc_off (Z.of_nat i)) (seq 0 (Z.to_nat n))))
  else fail AssertFail. (* abort() *)

(** [SuperBlock()] *)
Definition SuperBlock_init : M Disk SuperBlock :=
  b ← Block_init 0 false;
  init_super_block (mk_super b []).

(** [block_bitmap_offset], [inode_bitmap_offset] and [inode_table_offset]:
    the same function of the descriptor field it reads. *)
Definition group_offset {S} (f : field) (per_group index : Z) (sb : SuperBlock) : M S Z :=
  n_group ← udiv index per_group;
  n ← num_block_groups sb;
  _ ← ASSERT (n_group <? n);
  p ← unwrap OutOfBounds (desc_table_ sb !! Z.to_nat n_group);
  mret (desc_get p f sb * BLOCK_SIZE).

Definition block_bitmap_offset {S} (block_index : Z) (sb : SuperBlock) : M S Z :=
  group_offset bg_block_bitmap (blocks_per_group sb) block_index sb.

Definition inode_bitmap_offset {S} (inode_index : Z) (sb : SuperBlock) : M S Z :=
  group_offset bg_inode_bitmap (inodes_per_group sb) inode_index sb.

Definition inode_table_offset {S} (inode_index : Z) (sb : SuperBlock) : M S Z :=
  group_offset bg_inode_table (inodes_per_group sb) inode_index sb.

(** ** class BitmapBlock *)

Definition bm_test {S} (i : Z) (b : Block) : M S bool :=
  unwrap OutOfBounds (Bitmap.test i (data_ b)).

Definition bm_set {S} (i : Z) (b : Block) : M S Block :=
  d ← unwrap OutOfBounds (Bitmap.set i (data_ b));
  mret (with_data d b).

Definition bm_clear {S} (i : Z) (b : Block) : M S Block :=
  d ← unwrap OutOfBounds (Bitmap.clear i (data_ b));
  mret (with_data d b).

(** [int64_t BitmapBlock::alloc_new()]: the new index, or -1. *)
Definition alloc_new {S} (b : Block) : M S (Z * Block) :=
  i ← unwrap OutOfBounds (Bitmap.find (BLOCK_SIZE * 8) (data_ b));
  if i <? 0 then mret (i, b)
  else
    b ← bm_set i b;
    mret (i, b).

(** ** class DentryBlock *)

(** [strncpy(dst, src, n)] for an [n]-byte source: stops at a NUL and pads. *)
Fixpoint strncpy (src : list byte) : list byte :=
  match src with
  | [] => []
  | c :: src' =>
      if bool_decide (c = Byte.x00) then replicate (length src) Byte.x00
      else c :: strncpy src'
  end.

(** The loop of the constructor: the offsets of the entries and [size_]. *)
Fixpoint dentry_loop (fuel : nat) (data : list byte) (off : Z) (acc : list Z) (size_ : Z)
  : option (list Z * Z) :=
  match fuel with
  | O => None
  | S f =>
      let rec_len := getf off de_rec_len data in
      if rec_len =? 0 then Some (acc, size_)
      else
        let size_ := size_ + rec_len in
        if BLOCK_SIZE <? size_ + sizeof_ext2_dir_entry_2 then Some (acc ++ [off], size_)
        else dentry_loop f data (off + rec_len) (acc ++ [off]) size_
  end.

(** [DentryBlock(Block* block)]; an entry advances [size_] by at least one. *)
Definition DentryBlock_init (data : list byte) : option (list Z * Z) :=
  dentry_loop (Z.to_nat BLOCK_SIZE) data 0 [] 0.

(** [alloc_dentry] on a view of size [size_]; the entry must fit the block. *)
Definition alloc_dentry (size_ : Z) (name : list byte) (inode mode : Z) (data : list byte)
  : option (list byte) :=
  let name_len := Z.of_nat (length name) in
  if in_range size_ (sizeof_ext2_dir_entry_2 + name_len) data then
    let data := setf size_ de_inode inode data in
    let data := setf size_ de_name_len name_len data in
    let data := setf size_ de_rec_len (sizeof_ext2_dir_entry_2 + name_len) data in
    let data := setf size_ de_file_type (Z.shiftr mode 12) data in
    Some (splice (size_ + de_name_off) (strncpy name) data)
  else None.
