(* ===== verification/DirBlock.v ===== *)
(** * Directory blocks: parsing and appending entries

    The abstract content of a directory block is the list of its entries; its
    image is their encodings followed by zeros.  [DentryBlock]'s constructor
    reads that list back and [alloc_dentry] appends to it. *)

From S2P Require Import Prelude Layout Disk Bitmap Block.

(** An entry: [rec_len] is 8 plus the bytes reserved for the name, and
    [name_len] is set to 0 when the entry is deleted. *)
Record dentry : Type := mk_dentry {
  d_inode : Z;
  d_name_len : Z;
  d_file_type : Z;
  d_name : list byte
}.

#[global] Instance dentry_eq_dec : EqDecision dentry.
Proof. solve_decision. Defined.

Definition d_rec_len (d : dentry) : Z := sizeof_ext2_dir_entry_2 + Z.of_nat (length (d_name d)).

Definition d_wf (d : dentry) : Prop :=
  0 <= d_inode d < 2 ^ 32 /\ 0 <= d_name_len d < 2 ^ 8 /\ 0 <= d_file_type d < 2 ^ 8
  /\ d_rec_len d < 2 ^ 16.

Definition dentry_encode (d : dentry) : list byte :=
  le_split 4 (d_inode d) ++ le_split 2 (d_rec_len d) ++ le_split 1 (d_name_len d)
  ++ le_split 1 (d_file_type d) ++ d_name d.

(** The entry a [ext2_dir_entry_2*] at offset [off] points to. *)
Definition dentry_at (data : list byte) (off : Z) : dentry :=
  {| d_inode := getf off de_inode data;
     d_name_len := getf off de_name_len data;
     d_file_type := getf off de_file_type data;
     d_name := slice (off + de_name_off) (getf off de_rec_len data - sizeof_ext2_dir_entry_2) data |}.

Definition dir_bytes (ds : list dentry) : list byte := concat (map dentry_encode ds).

Definition dir_size (ds : list dentry) : Z := Z.of_nat (length (dir_bytes ds)).

Definition dir_image (ds : list dentry) : list byte :=
  dir_bytes ds ++ zeros (BLOCK_SIZE - dir_size ds).

Lemma length_dentry_encode d : Z.of_nat (length (dentry_encode d)) = d_rec_len d.
Proof.
  unfold dentry_encode, d_rec_len, sizeof_ext2_dir_entry_2.
  rewrite !length_app, !length_le_split. lia.
Qed.

Lemma dir_bytes_app ds es : dir_bytes (ds ++ es) = dir_bytes ds ++ dir_bytes es.
Proof. unfold dir_bytes. by rewrite map_app, concat_app. Qed.

Lemma dir_size_cons d ds : dir_size (d :: ds) = d_rec_len d + dir_size ds.
Proof.
  unfold dir_size, dir_bytes. cbn [map concat]. rewrite length_app, Nat2Z.inj_add.
  by rewrite length_dentry_encode.
Qed.

Lemma dir_size_app ds es : dir_size (ds ++ es) = dir_size ds + dir_size es.
Proof. unfold dir_size. rewrite dir_bytes_app, length_app. lia. Qed.

Lemma length_dir_image ds : dir_size ds <= BLOCK_SIZE -> length (dir_image ds) = Z.to_nat BLOCK_SIZE.
Proof. intros. unfold dir_image. unfold dir_size in *. len. Qed.

(** ** Reading an encoded entry *)

Section Encoded.
Context (pre rest : list byte) (d : dentry) (Hwf : d_wf d).

Let data := pre ++ dentry_encode d ++ rest.
Let off := Z.of_nat (length pre).

Lemma ld_encoded k n w (a b : list byte) v :
  dentry_encode d = a ++ le_split n v ++ b -> k = Z.of_nat (length a) -> w = n ->
  0 <= v < 2 ^ (8 * Z.of_nat n) -> ld w (off + k) data = v.
Proof.
  intros He -> -> Hv. unfold ld, data, off. rewrite slice_app_r by lia.
  rewrite slice_app_l, He by (rewrite ?He, ?length_app, ?length_le_split; lia).
  rewrite slice_mid by (rewrite ?length_le_split; done).
  rewrite le_combine_split, Z.mod_small; [done|].
  by replace (Z.of_nat n * 8) with (8 * Z.of_nat n) by lia.
Qed.

Lemma encoded_rec_len : getf off de_rec_len data = d_rec_len d.
Proof.
  destruct Hwf as (Hi & Hn & Hf & Hr). unfold getf; cbn [f_off f_width de_rec_len].
  apply (ld_encoded 4 2 2 (le_split 4 (d_inode d))
           (le_split 1 (d_name_len d) ++ le_split 1 (d_file_type d) ++ d_name d)); try done.
  unfold d_rec_len, sizeof_ext2_dir_entry_2 in *. lia.
Qed.

Lemma dentry_at_encoded : dentry_at data off = d.
Proof.
  destruct Hwf as (Hi & Hn & Hf & Hr). unfold dentry_at.
  rewrite encoded_rec_len. unfold getf; cbn [f_off f_width de_inode de_name_len de_file_type].
  rewrite (ld_encoded 0 4 4 [] (le_split 2 (d_rec_len d) ++ le_split 1 (d_name_len d)
             ++ le_split 1 (d_file_type d) ++ d_name d) (d_inode d)) by done.
  rewrite (ld_encoded 6 1 1 (le_split 4 (d_inode d) ++ le_split 2 (d_rec_len d))
             (le_split 1 (d_file_type d) ++ d_name d) (d_name_len d));
    [|unfold dentry_encode; by rewrite <- app_assoc|done|done|done].
  rewrite (ld_encoded 7 1 1 (le_split 4 (d_inode d) ++ le_split 2 (d_rec_len d)
                               ++ le_split 1 (d_name_len d))
             (d_name d) (d_file_type d));
    [|unfold dentry_encode; by rewrite <- !app_assoc|done|done|done].
  unfold data, off, de_name_off, d_rec_len, sizeof_ext2_dir_entry_2.
  rewrite slice_app_r by lia.
  replace (8 + Z.of_nat (length (d_name d)) - 8) with (Z.of_nat (length (d_name d))) by lia.
  unfold dentry_encode. rewrite <- !app_assoc.
  rewrite (app_assoc (le_split 1 _)), (app_assoc (le_split 2 _)), (app_assoc (le_split 4 _)).
  rewrite slice_mid by (rewrite ?length_app, ?length_le_split; done). by destruct d.
Qed.
End Encoded.

(** ** Parsing an image *)

(** Where the entries of an image start. *)
Fixpoint dir_offsets (base : Z) (ds : list dentry) : list Z :=
  match ds with
  | [] => []
  | d :: ds' => base :: dir_offsets (base + d_rec_len d) ds'
  end.

Lemma dir_size_nonneg ds : 0 <= dir_size ds.
Proof. unfold dir_size. lia. Qed.

Lemma dentry_loop_image ds pre fuel acc k :
  Forall d_wf ds -> 0 <= k ->
  let off := Z.of_nat (length pre) in
  off + dir_size ds + k = BLOCK_SIZE -> off + sizeof_ext2_dir_entry_2 <= BLOCK_SIZE ->
  (length ds < fuel)%nat ->
  let data := pre ++ dir_bytes ds ++ zeros k in
  dentry_loop fuel data off acc off = Some (acc ++ dir_offsets off ds, off + dir_size ds)
  /\ map (dentry_at data) (dir_offsets off ds) = ds.
Proof.
  intros Hwf Hk. revert pre fuel acc. induction Hwf as [|d ds Hd Hds IH]; intros pre fuel acc off Hsz H8 Hf data.
  - cbn [dir_offsets]. rewrite app_nil_r. split; [|done]. destruct fuel as [|f]; [simpl in Hf; lia|].
    cbn [dentry_loop]. unfold getf, data, off, ld, dir_bytes; cbn [f_off f_width de_rec_len map concat app].
    rewrite slice_app_r by lia. fold (ld 2 4 (zeros k)).
    change (dir_size []) with 0 in *. unfold sizeof_ext2_dir_entry_2 in *.
    rewrite ld_zeros by lia. rewrite Z.eqb_refl. do 2 f_equal. lia.
  - destruct fuel as [|f]; [simpl in Hf; lia|]. cbn [dentry_loop].
    pose proof (encoded_rec_len pre (dir_bytes ds ++ zeros k) d Hd) as Hrl.
    assert (Hdata : data = pre ++ dentry_encode d ++ dir_bytes ds ++ zeros k).
    { unfold data, dir_bytes. cbn [map concat]. by rewrite <- app_assoc. }
    fold off in Hrl. rewrite <- Hdata in Hrl. rewrite Hrl.
    rewrite dir_size_cons in *. pose proof (dir_size_nonneg ds) as Hnn.
    assert (Hr8 : sizeof_ext2_dir_entry_2 <= d_rec_len d) by (unfold d_rec_len; lia).
    destruct (Z.eqb_spec (d_rec_len d) 0); [unfold sizeof_ext2_dir_entry_2 in *; lia|].
    assert (Hat : dentry_at data off = d).
    { rewrite Hdata. by apply dentry_at_encoded. }
    destruct (Z.ltb_spec BLOCK_SIZE (off + d_rec_len d + sizeof_ext2_dir_entry_2)) as [Hlt|Hge].
    + destruct ds as [|d' ds'].
      * change (dir_size []) with 0. rewrite Z.add_0_r. split; [done|].
        cbn [map dir_offsets]. by rewrite Hat.
      * exfalso. rewrite dir_size_cons in Hsz. pose proof (dir_size_nonneg ds').
        assert (sizeof_ext2_dir_entry_2 <= d_rec_len d') by (unfold d_rec_len; lia). lia.
    + assert (Hpre : Z.of_nat (length (pre ++ dentry_encode d)) = off + d_rec_len d).
      { rewrite length_app, Nat2Z.inj_add. by rewrite length_dentry_encode. }
      destruct (IH (pre ++ dentry_encode d) f (acc ++ [off])) as (Hl & Hm);
        [rewrite ?Hpre; simpl in Hf; unfold sizeof_ext2_dir_entry_2 in *; lia..|].
      rewrite Hpre in Hl, Hm. rewrite <- app_assoc, <- Hdata in Hl, Hm.
      rewrite Hl. cbn [dir_offsets]. split.
      * f_equal. f_equal; [by rewrite <- app_assoc|lia].
      * cbn [map]. by rewrite Hat, Hm.
Qed.

Lemma dir_size_length ds : 8 * Z.of_nat (length ds) <= dir_size ds.
Proof.
  induction ds as [|d ds IH]; [done|]. rewrite dir_size_cons. cbn [length].
  unfold d_rec_len, sizeof_ext2_dir_entry_2. lia.
Qed.

Lemma DentryBlock_image ds :
  Forall d_wf ds -> dir_size ds <= BLOCK_SIZE ->
  DentryBlock_init (dir_image ds) = Some (dir_offsets 0 ds, dir_size ds)
  /\ map (dentry_at (dir_image ds)) (dir_offsets 0 ds) = ds.
Proof.
  intros Hwf Hsz. unfold DentryBlock_init.
  destruct (dentry_loop_image ds [] (Z.to_nat BLOCK_SIZE) [] (BLOCK_SIZE - dir_size ds))
    as (H1 & H2); [done|lia|cbn [length]; lia|by vm_compute| |].
  { pose proof (dir_size_length ds). unfold BLOCK_SIZE in *. lia. }
  split; [exact H1|exact H2].
Qed.

(** ** Appending an entry *)

Lemma splice_app_r off bs (pre r : list byte) :
  0 <= off -> splice (Z.of_nat (length pre) + off) bs (pre ++ r) = pre ++ splice off bs r.
Proof.
  intros. unfold splice. rewrite take_app_ge, drop_app_ge by lia. rewrite <- app_assoc.
  do 3 f_equal; [f_equal; lia|]. f_equal. lia.
Qed.

(** The stores of [alloc_dentry] at the start of a zeroed area. *)
Lemma dentry_stores i rl nl ft (nm rest : list byte) :
  let z n := zeros n in
  splice 8 nm (st 1 7 ft (st 2 4 rl (st 1 6 nl (st 4 0 i
    (z 4 ++ z 2 ++ z 1 ++ z 1 ++ zeros (Z.of_nat (length nm)) ++ rest)))))
  = le_split 4 i ++ le_split 2 rl ++ le_split 1 nl ++ le_split 1 ft ++ nm ++ rest.
Proof.
  intros z. unfold st.
  assert (H0 : forall r, splice 0 (le_split 4 i) (z 4 ++ r) = le_split 4 i ++ r).
  { intros r. apply (splice_mid 0 []); [done|by rewrite length_le_split]. }
  rewrite H0.
  rewrite (app_assoc _ (z 2)), (splice_mid 6 _ (z 1)) by
    (rewrite ?length_app, ?length_le_split; done).
  rewrite <- app_assoc, (splice_mid 4 _ (z 2)) by (rewrite ?length_le_split; done).
  rewrite (app_assoc _ (le_split 1 nl)), (app_assoc _ (le_split 2 rl ++ _)).
  rewrite (splice_mid 7 _ (z 1)) by (rewrite ?length_app, ?length_le_split; done).
  rewrite (app_assoc _ (le_split 1 ft)).
  rewrite (splice_mid 8 _ (zeros _)) by
    (rewrite ?length_zeros, ?length_app, ?length_le_split; lia).
  by rewrite <- !app_assoc.
Qed.

(** A name that is a C string of its length. *)
Definition no_nul (n : list byte) : Prop := Forall (fun c => c <> Byte.x00) n.

Lemma strncpy_id n : no_nul n -> strncpy n = n.
Proof.
  induction 1 as [|c n Hc _ IH]; [done|]. cbn [strncpy].
  rewrite bool_decide_false by done. by rewrite IH.
Qed.

Lemma length_strncpy n : length (strncpy n) = length n.
Proof.
  induction n as [|c n IH]; [done|]. cbn [strncpy].
  case_bool_decide; [by rewrite length_replicate|]. cbn [length]. by rewrite IH.
Qed.

(** The entry [alloc_dentry] writes. *)
Definition new_dentry (name : list byte) (inode mode : Z) : dentry :=
  {| d_inode := u32 inode; d_name_len := u8 (Z.of_nat (length name));
     d_file_type := u8 (Z.shiftr mode 12); d_name := strncpy name |}.

Lemma le_split_wrap n v w : w = v mod 2 ^ (8 * Z.of_nat n) -> le_split n w = le_split n v.
Proof.
  intros ->. rewrite (le_split_mod v). do 3 f_equal. lia.
Qed.

Lemma alloc_dentry_image ds name inode mode :
  let d := new_dentry name inode mode in
  dir_size ds + d_rec_len d <= BLOCK_SIZE ->
  alloc_dentry (dir_size ds) name inode mode (dir_image ds) = Some (dir_image (ds ++ [d])).
Proof.
  intros d Hfit.
  assert (HL : Z.of_nat (length (d_name d)) = Z.of_nat (length name)).
  { cbn [d d_name new_dentry]. by rewrite length_strncpy. }
  pose proof (dir_size_nonneg ds) as Hnn.
  unfold d_rec_len, sizeof_ext2_dir_entry_2 in Hfit. rewrite HL in Hfit.
  unfold alloc_dentry, sizeof_ext2_dir_entry_2.
  rewrite (proj2 (in_range_spec _ _ _)) by (rewrite length_dir_image; unfold BLOCK_SIZE in *; lia).
  f_equal. unfold dir_image at 1.
  set (k := BLOCK_SIZE - dir_size ds - (8 + Z.of_nat (length name))).
  replace (BLOCK_SIZE - dir_size ds) with (4 + (2 + (1 + (1 + (Z.of_nat (length name) + k))))) by lia.
  rewrite !zeros_app by lia.
  unfold setf, st; cbn [f_off f_width de_inode de_name_len de_rec_len de_file_type].
  unfold dir_size, de_name_off. rewrite !splice_app_r by lia. fold st.
  pose proof (dentry_stores inode (8 + Z.of_nat (length name)) (Z.of_nat (length name))
                (Z.shiftr mode 12) (d_name d) (zeros k)) as Hst.
  rewrite length_strncpy in Hst || rewrite HL in Hst. unfold st in Hst.
  cbn [d_name d new_dentry] in Hst. rewrite Hst.
  unfold dir_image. rewrite dir_size_app, dir_bytes_app, <- app_assoc. f_equal.
  unfold dir_bytes at 1. cbn [map concat]. rewrite app_nil_r. unfold dentry_encode. fold d.
  rewrite <- !app_assoc. cbn [d_inode d_name_len d_file_type d_name d new_dentry].
  rewrite (le_split_wrap 4 inode (u32 inode)) by done.
  rewrite (le_split_wrap 1 (Z.of_nat (length name)) (u8 (Z.of_nat (length name)))) by done.
  rewrite (le_split_wrap 1 (Z.shiftr mode 12) (u8 (Z.shiftr mode 12))) by done.
  unfold d_rec_len at 1. rewrite HL. unfold sizeof_ext2_dir_entry_2. do 6 f_equal.
  rewrite dir_size_cons. change (dir_size []) with 0. unfold d_rec_len, sizeof_ext2_dir_entry_2.
  rewrite HL. unfold k. lia.
Qed.

(** ** Deleting an entry *)

(** [dentry->name_len = 0] *)
Definition deleted (d : dentry) : dentry :=
  {| d_inode := d_inode d; d_name_len := 0; d_file_type := d_file_type d; d_name := d_name d |}.

Lemma delete_image ds1 d ds2 :
  setf (dir_size ds1) de_name_len 0 (dir_image (ds1 ++ d :: ds2)) = dir_image (ds1 ++ deleted d :: ds2).
Proof.
  assert (Hsz : dir_size (ds1 ++ deleted d :: ds2) = dir_size (ds1 ++ d :: ds2)).
  { by rewrite !dir_size_app, !dir_size_cons. }
  unfold dir_image. rewrite Hsz, !dir_bytes_app. unfold dir_bytes at 2 4. cbn [map concat].
  fold (dir_bytes ds2). rewrite <- !app_assoc. unfold setf, st, dir_size at 1; cbn [f_off f_width de_name_len].
  rewrite splice_app_r by lia. done.
Qed.

(** ** Properties *)

(** C32. Appending then parsing: when the entry fits, [alloc_dentry] leaves a
    block whose entries, as [DentryBlock]'s constructor reads them, are the
    old ones followed by the new one with its inode, name and type. *)
Theorem alloc_dentry_parse ds name inode mode :
  Forall d_wf ds -> no_nul name -> Z.of_nat (length name) <= EXT2_NAME_LEN ->
  0 <= inode < 2 ^ 32 ->
  dir_size ds + sizeof_ext2_dir_entry_2 + Z.of_nat (length name) <= BLOCK_SIZE ->
  exists data offs,
    alloc_dentry (dir_size ds) name inode mode (dir_image ds) = Some data
    /\ DentryBlock_init data
       = Some (offs, dir_size ds + sizeof_ext2_dir_entry_2 + Z.of_nat (length name))
    /\ map (dentry_at data) offs
       = ds ++ [mk_dentry inode (Z.of_nat (length name)) (u8 (Z.shiftr mode 12)) name].
Proof.
  intros Hwf Hnul Hlen Hino Hfit. set (d := new_dentry name inode mode).
  assert (Hd : d = mk_dentry inode (Z.of_nat (length name)) (u8 (Z.shiftr mode 12)) name).
  { unfold d, new_dentry. rewrite strncpy_id, u32_small, u8_small by
      (done || unfold EXT2_NAME_LEN in *; lia). done. }
  assert (Hrl : d_rec_len d = sizeof_ext2_dir_entry_2 + Z.of_nat (length name)) by by rewrite Hd.
  assert (Hdwf : d_wf d).
  { rewrite Hd in *. unfold d_wf; cbn [d_inode d_name_len d_file_type d_name].
    pose proof (u8_range (Z.shiftr mode 12)). rewrite Hrl.
    unfold EXT2_NAME_LEN, sizeof_ext2_dir_entry_2 in *. lia. }
  assert (Hsz : dir_size (ds ++ [d]) = dir_size ds + sizeof_ext2_dir_entry_2 + Z.of_nat (length name)).
  { rewrite dir_size_app, dir_size_cons, Hrl. change (dir_size []) with 0. lia. }
  destruct (DentryBlock_image (ds ++ [d])) as [H1 H2].
  - apply Forall_app. auto.
  - lia.
  - eexists _, _. split; [apply alloc_dentry_image; fold d; lia|]. fold d.
    rewrite <- Hsz, <- Hd. split; [exact H1|exact H2].
Qed.

(** A directory of one entry, "a", to which "bc" is added. *)
Lemma alloc_dentry_parse_witness :
  exists data offs,
    alloc_dentry 9 [Byte.x62; Byte.x63] 7 0x81b6 (dir_image [mk_dentry 3 1 8 [Byte.x61]]) = Some data
    /\ DentryBlock_init data = Some (offs, 19)
    /\ map (dentry_at data) offs
       = [mk_dentry 3 1 8 [Byte.x61]; mk_dentry 7 2 8 [Byte.x62; Byte.x63]].
Proof.
  apply (alloc_dentry_parse [mk_dentry 3 1 8 [Byte.x61]] [Byte.x62; Byte.x63] 7 0x81b6).
  - repeat constructor; vm_compute; congruence.
  - repeat constructor; done.
  - by vm_compute.
  - by vm_compute.
  - by vm_compute.
Defined.
