(* ===== verification/BlockGroup.v ===== *)
(** * Block groups: class BlockGroup of include/block.h, src/block.cpp

    A group keeps a pointer to its descriptor (a byte offset into block 0),
    its two bitmaps and the inode-table blocks read so far.  Its operations
    run on the disk, the super block (whose bytes hold the descriptor) and the
    group itself.  An [ext2_inode*] into the table is the inner index of the
    inode: block [index / INODES_PER_BLOCK], slot [index % INODES_PER_BLOCK]. *)

From S2P Require Import Prelude Layout Disk Bitmap Block.

Record BlockGroup : Type := mk_group {
  desc_ : Z;
  block_bitmap_ : Block;
  inode_bitmap_ : Block;
  inode_table_ : gmap Z Block
}.

Record GroupSt : Type := mk_gst {
  gs_disk : Disk;
  gs_super : SuperBlock;
  gs_group : BlockGroup
}.

Definition on_disk {A} (m : M Disk A) : M GroupSt A :=
  zoom gs_disk (fun d s => mk_gst d (gs_super s) (gs_group s)) m.

Definition put_group (g : BlockGroup) : M GroupSt unit :=
  modify_st (fun s => mk_gst (gs_disk s) (gs_super s) g).

(** [desc_->f += delta], at the width of the field. *)
Definition desc_add (f : field) (delta : Z) : M GroupSt unit :=
  modify_st (fun s =>
    let p := desc_ (gs_group s) in
    mk_gst (gs_disk s) (desc_set p f (desc_get p f (gs_super s) + delta) (gs_super s)) (gs_group s)).

Definition with_bbm (b : Block) (g : BlockGroup) : BlockGroup :=
  mk_group (desc_ g) b (inode_bitmap_ g) (inode_table_ g).

Definition with_ibm (b : Block) (g : BlockGroup) : BlockGroup :=
  mk_group (desc_ g) (block_bitmap_ g) b (inode_table_ g).

Definition with_itab (t : gmap Z Block) (g : BlockGroup) : BlockGroup :=
  mk_group (desc_ g) (block_bitmap_ g) (inode_bitmap_ g) t.

(** [BlockGroup(ext2_group_desc* desc, bool alloc)] *)
Definition BlockGroup_init (desc : option Z) (alloc : bool) (sb : SuperBlock) : M Disk BlockGroup :=
  p ← unwrap AssertFail desc;
  bb ← Block_init (desc_get p bg_block_bitmap sb) alloc;
  ib ← Block_init (desc_get p bg_inode_bitmap sb) alloc;
  mret (mk_group p bb ib ∅).

Fixpoint flush_blocks (bs : list Block) : M Disk unit :=
  match bs with
  | [] => mret tt
  | b :: bs' =>
      _ ← Block_flush b;
      flush_blocks bs'
  end.

(** [void flush()]; results of the writes are ignored. *)
Definition BlockGroup_flush (g : BlockGroup) : M Disk unit :=
  _ ← Block_flush (block_bitmap_ g);
  _ ← Block_flush (inode_bitmap_ g);
  flush_blocks (omap (fun k => inode_table_ g !! k) (sorted_keys (inode_table_ g))).

Definition inode_block_offset (g : BlockGroup) (inode_block_index : Z) : Z :=
  offset_ (block_bitmap_ g) + u32 ((inode_block_index + 1) * BLOCK_SIZE).

Definition data_block_offset (g : BlockGroup) (data_block_index : Z) : Z :=
  offset_ (block_bitmap_ g) + NUM_INODE_TABLE_BLOCKS * BLOCK_SIZE + u32 (data_block_index * BLOCK_SIZE).

(** ** Inodes of the table *)

Definition slot_off (index : Z) : Z := (index mod INODES_PER_BLOCK) * sizeof_ext2_inode.

(** [*inode], for a pointer into a table block that has been read. *)
Definition inode_load (index : Z) (g : BlockGroup) : option ext2_inode :=
  b ← inode_table_ g !! (index / INODES_PER_BLOCK);
  Some (inode_decode (slice (slot_off index) sizeof_ext2_inode (data_ b))).

Definition inode_store (index : Z) (i : ext2_inode) (g : BlockGroup) : option BlockGroup :=
  b ← inode_table_ g !! (index / INODES_PER_BLOCK);
  Some (with_itab
          (<[index / INODES_PER_BLOCK := with_data (splice (slot_off index) (inode_encode i) (data_ b)) b]>
             (inode_table_ g)) g).

(** ** Operations *)

(** [bool get_inode(uint32_t index, ext2_inode** inode)] *)
Definition group_get_inode (index : Z) : M GroupSt (option Z) :=
  g ← reads gs_group;
  t ← bm_test index (inode_bitmap_ g);
  if negb t then mret None
  else
    let block_index := index / INODES_PER_BLOCK in
    _ ← match inode_table_ g !! block_index with
        | Some _ => mret tt
        | None =>
            b ← on_disk (Block_init (inode_block_offset g block_index) false);
            put_group (with_itab (<[block_index := b]> (inode_table_ g)) g)
        end;
    mret (Some index).

(** [bool get_block(uint32_t index, Block** block)] *)
Definition group_get_block (index : Z) : M GroupSt (option Block) :=
  g ← reads gs_group;
  t ← bm_test index (block_bitmap_ g);
  if negb t then mret None
  else
    b ← on_disk (Block_init (data_block_offset g index) false);
    mret (Some b).

(** [inode->i_mode = mode] on a zeroed inode. *)
Definition inode_fresh (mode : Z) : ext2_inode :=
  set_i_mode mode inode_zero.

(** [bool alloc_inode(ext2_inode** inode, uint32_t* index, mode_t mode)] *)
Definition group_alloc_inode (mode : Z) : M GroupSt (option Z) :=
  g ← reads gs_group;
  '(ret, b) ← alloc_new (inode_bitmap_ g);
  _ ← put_group (with_ibm b g);
  if ret =? -1 then mret None
  else
    _ ← desc_add bg_free_inodes_count (-1);
    _ ← (if S_ISDIR mode then desc_add bg_used_dirs_count 1 else mret tt);
    r ← group_get_inode ret;
    match r with
    | None => fail NullDeref
    | Some _ =>
        g ← reads gs_group;
        g ← unwrap NullDeref (inode_store ret (inode_fresh mode) g);
        _ ← put_group g;
        mret (Some ret)
    end.

(** [bool alloc_block(Block** block, uint32_t* index)] *)
Definition group_alloc_block : M GroupSt (option (Block * Z)) :=
  g ← reads gs_group;
  '(ret, b) ← alloc_new (block_bitmap_ g);
  _ ← put_group (with_bbm b g);
  if ret =? -1 then mret None
  else
    _ ← desc_add bg_free_blocks_count (-1);
    b ← on_disk (Block_init (data_block_offset g ret) true);
    mret (Some (b, ret)).

(** [bool free_inode(uint32_t index)] *)
Definition group_free_inode (index : Z) : M GroupSt bool :=
  r ← group_get_inode index;
  match r with
  | None => mret false
  | Some p =>
      g ← reads gs_group;
      b ← bm_clear index (inode_bitmap_ g);
      _ ← put_group (with_ibm b g);
      _ ← desc_add bg_free_inodes_count 1;
      inode ← unwrap NullDeref (inode_load p g);
      _ ← (if S_ISDIR (i_mode inode) then desc_add bg_used_dirs_count (-1) else mret tt);
      mret true
  end.

(** [bool free_block(uint32_t index)] *)
Definition group_free_block (index : Z) : M GroupSt bool :=
  g ← reads gs_group;
  t ← bm_test index (block_bitmap_ g);
  if negb t then mret false
  else
    b ← bm_clear index (block_bitmap_ g);
    _ ← put_group (with_bbm b g);
    _ ← desc_add bg_free_blocks_count 1;
    mret true.

(** ** Well-formed groups *)

Definition BITS : Z := BLOCK_SIZE * 8.

(** A bitmap block: 4096 bytes, hence 32768 bits. *)
Definition bm_wf (b : Block) : Prop := length (data_ b) = Z.to_nat BLOCK_SIZE.

Definition bm_bit (b : Block) (i : Z) : bool := Bitmap.bit (data_ b) i.

(** Number of clear bits of a bitmap block: a sum over 32768 bits, sealed so
    that conversion never unfolds it. *)
Definition free_bits_def (b : Block) : Z := count (fun i => negb (bm_bit b i)) (Z.to_nat BITS).

Definition free_bits_aux : seal free_bits_def.
Proof. by eexists. Qed.

Definition free_bits : Block -> Z := unseal free_bits_aux.

Lemma free_bits_unseal b : free_bits b = count (fun i => negb (bm_bit b i)) (Z.to_nat BITS).
Proof. unfold free_bits. rewrite (seal_eq free_bits_aux). reflexivity. Qed.

(** The descriptor of the group lies inside block 0. *)
Definition desc_in (s : GroupSt) : Prop :=
  length (data_ (sb_block (gs_super s))) = Z.to_nat BLOCK_SIZE
  /\ sizeof_ext2_super_block <= desc_ (gs_group s)
  /\ desc_ (gs_group s) + sizeof_ext2_group_desc <= BLOCK_SIZE.

Record group_wf (s : GroupSt) : Prop := {
  wf_bbm : bm_wf (block_bitmap_ (gs_group s));
  wf_ibm : bm_wf (inode_bitmap_ (gs_group s));
  wf_desc : desc_in s
}.

(** The descriptor counts the free blocks (inodes) of the bitmap. *)
Definition blocks_accounted (s : GroupSt) : Prop :=
  desc_get (desc_ (gs_group s)) bg_free_blocks_count (gs_super s) = free_bits (block_bitmap_ (gs_group s)).

Definition inodes_accounted (s : GroupSt) : Prop :=
  desc_get (desc_ (gs_group s)) bg_free_inodes_count (gs_super s) = free_bits (inode_bitmap_ (gs_group s)).

Lemma bm_nbits b : bm_wf b -> Bitmap.nbits (data_ b) = BITS.
Proof. intros H. unfold Bitmap.nbits. by rewrite H. Qed.

Lemma free_bits_range b : 0 <= free_bits b <= BITS.
Proof. rewrite free_bits_unseal. apply count_range. Qed.

Lemma free_bits_clear_bit b i : 0 <= i < BITS -> bm_bit b i = false -> free_bits b <> 0.
Proof.
  intros Hi Hb H. assert (Hi' : 0 <= i < Z.of_nat (Z.to_nat BITS)) by by rewrite Z2Nat.id.
  revert Hi' H. rewrite free_bits_unseal. generalize (Z.to_nat BITS). intros n Hi' H.
  pose proof (count_zero _ n i H Hi') as Hn. cbv beta in Hn. by rewrite Hb in Hn.
Qed.

(** Bit [i] of [b'] is flipped to [v], the others are those of [b]. *)
Definition bm_update (b b' : Block) (i : Z) (v : bool) : Prop :=
  bm_wf b' /\ offset_ b' = offset_ b /\ bm_bit b' i = v
  /\ forall j, 0 <= j -> j <> i -> bm_bit b' j = bm_bit b j.

Lemma bm_test_spec {S} (s : S) i b : bm_wf b -> 0 <= i < BITS -> bm_test i b s = Ret (bm_bit b i) s.
Proof.
  intros Hwf Hi. unfold bm_test. rewrite Bitmap.test_bit by (by rewrite bm_nbits). done.
Qed.

Lemma bm_set_spec {S} (s : S) i b :
  bm_wf b -> 0 <= i < BITS -> exists b', bm_set i b s = Ret b' s /\ bm_update b b' i true.
Proof.
  intros Hwf Hi. destruct (Bitmap.set_spec i (data_ b)) as (d & Hd & HL & Hb);
    [by rewrite bm_nbits|].
  exists (with_data d b). unfold bm_set. rewrite Hd. split; [done|].
  split; [unfold bm_wf; by rewrite <- Hwf|]. split; [done|].
  unfold bm_bit, with_data; cbn [data_]. split.
  - rewrite Hb, bool_decide_true by lia. done.
  - intros j Hj Hne. by rewrite Hb, bool_decide_false by lia.
Qed.

Lemma bm_clear_spec {S} (s : S) i b :
  bm_wf b -> 0 <= i < BITS -> exists b', bm_clear i b s = Ret b' s /\ bm_update b b' i false.
Proof.
  intros Hwf Hi. destruct (Bitmap.clear_spec i (data_ b)) as (d & Hd & HL & Hb);
    [by rewrite bm_nbits|].
  exists (with_data d b). unfold bm_clear. rewrite Hd. split; [done|].
  split; [unfold bm_wf; by rewrite <- Hwf|]. split; [done|].
  unfold bm_bit, with_data; cbn [data_]. split.
  - rewrite Hb, bool_decide_true by lia. done.
  - intros j Hj Hne. by rewrite Hb, bool_decide_false by lia.
Qed.

Lemma free_bits_set b b' i :
  0 <= i < BITS -> bm_bit b i = false -> bm_update b b' i true -> free_bits b' = free_bits b - 1.
Proof.
  intros Hi Hc (_ & _ & Hs & Ho). rewrite !free_bits_unseal. apply (count_flip _ _ _ i).
  - by rewrite Z2Nat.id.
  - by rewrite Hc.
  - by rewrite Hs.
  - intros j Hj Hne. by rewrite Ho.
Qed.

Lemma free_bits_clear b b' i :
  0 <= i < BITS -> bm_bit b i = true -> bm_update b b' i false -> free_bits b' = free_bits b + 1.
Proof.
  intros Hi Hc (_ & _ & Hs & Ho).
  enough (free_bits b = free_bits b' - 1) by lia. rewrite !free_bits_unseal. apply (count_flip _ _ _ i).
  - by rewrite Z2Nat.id.
  - by rewrite Hs.
  - by rewrite Hc.
  - intros j Hj Hne. by rewrite Ho.
Qed.

Lemma free_bits_full b :
  (forall j, 0 <= j < BITS -> bm_bit b j = true) <-> free_bits b = 0.
Proof.
  assert (HB : Z.of_nat (Z.to_nat BITS) = BITS) by (by apply Z2Nat.id).
  rewrite free_bits_unseal. split.
  - intros H. apply count_none. rewrite HB. intros i Hi. by rewrite H.
  - intros H j Hj. pose proof (count_zero _ _ j H) as Hz. rewrite HB in Hz.
    apply negb_false_iff. by apply Hz.
Qed.

(** A 16-bit counter that equals the number of clear bits follows it. *)
Lemma account_set b b' i :
  0 <= i < BITS -> bm_bit b i = false -> bm_update b b' i true ->
  u16 (free_bits b - 1) = free_bits b'.
Proof.
  intros Hi Hc Hup. pose proof (free_bits_range b') as Hr.
  rewrite (free_bits_set _ _ _ Hi Hc Hup) in *. apply u16_small. change BITS with 32768 in *. lia.
Qed.

Lemma account_clear b b' i :
  0 <= i < BITS -> bm_bit b i = true -> bm_update b b' i false ->
  u16 (free_bits b + 1) = free_bits b'.
Proof.
  intros Hi Hc Hup. pose proof (free_bits_range b') as Hr. pose proof (free_bits_range b).
  rewrite (free_bits_clear _ _ _ Hi Hc Hup) in *. apply u16_small. change BITS with 32768 in *. lia.
Qed.

(** [alloc_new] takes the first clear bit, or reports -1 on a full bitmap. *)
Lemma alloc_new_spec {S} (s : S) b :
  bm_wf b ->
  exists i b', alloc_new b s = Ret (i, b') s
    /\ ((i = -1 /\ b' = b /\ free_bits b = 0)
        \/ (0 <= i < BITS /\ bm_bit b i = false /\ (forall j, 0 <= j < i -> bm_bit b j = true)
            /\ bm_update b b' i true)).
Proof.
  intros Hwf. destruct (Bitmap.find_spec BITS (data_ b)) as (i & Hf & Hp).
  { rewrite bm_nbits by done. vm_compute. split; congruence. }
  unfold alloc_new. fold BITS. rewrite Hf. cbn [unwrap].
  rewrite (bind_ret _ _ s i s) by done. destruct Hp as [[-> Hall]|(Hi & Hc & Hlow)].
  - exists (-1), b. split; [done|]. left. repeat split. by apply free_bits_full.
  - rewrite (proj2 (Z.ltb_ge i 0)) by lia.
    destruct (bm_set_spec s i b) as (b' & Hb' & Hup); [done..|].
    exists i, b'. rewrite (bind_ret _ _ s b' s) by done. split; [done|]. right. done.
Qed.

(** ** Descriptor arithmetic *)

(** [sb'] is [sb] but for the counters of the descriptor at [p], which follow
    the three offsets the descriptor starts with. *)
Definition desc_only (p : Z) (sb sb' : SuperBlock) : Prop :=
  length (data_ (sb_block sb')) = length (data_ (sb_block sb))
  /\ offset_ (sb_block sb') = offset_ (sb_block sb)
  /\ forall base f, 0 <= base + f_off f ->
       base + f_off f + Z.of_nat (f_width f) <= p + f_off bg_free_blocks_count
       \/ p + sizeof_ext2_group_desc <= base + f_off f ->
       getf base f (data_ (sb_block sb')) = getf base f (data_ (sb_block sb)).

Lemma desc_only_super p sb sb' f :
  desc_only p sb sb' -> sizeof_ext2_super_block <= p -> 0 <= f_off f ->
  f_off f + Z.of_nat (f_width f) <= sizeof_ext2_super_block -> sb_get f sb' = sb_get f sb.
Proof. intros (_ & _ & H) Hp H0 H1. change (f_off bg_free_blocks_count) with 12 in H. apply H; lia. Qed.

Lemma desc_only_other i j sb sb' f :
  desc_only (desc_off i) sb sb' -> i <> j -> 0 <= j -> 0 <= f_off f ->
  f_off f + Z.of_nat (f_width f) <= sizeof_ext2_group_desc ->
  desc_get (desc_off j) f sb' = desc_get (desc_off j) f sb.
Proof.
  intros (_ & _ & H) Hne Hj H0 H1. change (f_off bg_free_blocks_count) with 12 in H.
  unfold desc_off, sizeof_ext2_super_block, sizeof_ext2_group_desc in *. apply H; lia.
Qed.

(** The offsets of a descriptor survive, in its own group and in the others. *)
Lemma desc_only_offsets p q sb sb' f :
  desc_only (desc_off p) sb sb' -> 0 <= q -> 0 <= f_off f ->
  f_off f + Z.of_nat (f_width f) <= f_off bg_free_blocks_count ->
  desc_get (desc_off q) f sb' = desc_get (desc_off q) f sb.
Proof.
  intros Ho Hq H0 H1. destruct (decide (p = q)) as [->|Hne].
  - destruct Ho as (_ & _ & H). unfold desc_off, sizeof_ext2_super_block, sizeof_ext2_group_desc in *.
    apply H; lia.
  - apply (desc_only_other p q); try done. change (f_off bg_free_blocks_count) with 12 in H1.
    unfold sizeof_ext2_group_desc. lia.
Qed.

Lemma desc_add_spec f delta s :
  desc_in s -> f_off bg_free_blocks_count <= f_off f ->
  f_off f + Z.of_nat (f_width f) <= sizeof_ext2_group_desc ->
  exists s', desc_add f delta s = Ret tt s' /\ gs_disk s' = gs_disk s /\ gs_group s' = gs_group s
    /\ desc_in s'
    /\ desc_get (desc_ (gs_group s)) f (gs_super s')
       = (desc_get (desc_ (gs_group s)) f (gs_super s) + delta) mod 2 ^ (8 * Z.of_nat (f_width f))
    /\ (forall f', 0 <= f_off f' -> f_off f' + Z.of_nat (f_width f') <= f_off f
                   \/ f_off f + Z.of_nat (f_width f) <= f_off f' ->
          desc_get (desc_ (gs_group s)) f' (gs_super s') = desc_get (desc_ (gs_group s)) f' (gs_super s))
    /\ desc_only (desc_ (gs_group s)) (gs_super s) (gs_super s').
Proof.
  intros (HL & H1 & H2) Hf0 Hf1. change (f_off bg_free_blocks_count) with 12 in Hf0.
  unfold sizeof_ext2_super_block, sizeof_ext2_group_desc, BLOCK_SIZE in *.
  eexists. split; [reflexivity|]. cbn [gs_disk gs_group gs_super].
  split; [done|]. split; [done|].
  unfold desc_in, desc_get, desc_set, sb_get; cbn [gs_super gs_group sb_block data_ with_data].
  split; [|split; [|split]].
  - split; [|done]. rewrite length_setf by (rewrite ?HL; lia). done.
  - rewrite getf_setf_eq by (rewrite ?HL; lia). done.
  - intros f' Hf' Hd. rewrite getf_setf_ne by (rewrite ?HL; lia). done.
  - unfold desc_only; cbn [sb_block data_ with_data]. unfold sizeof_ext2_group_desc.
    split; [apply length_setf; rewrite ?HL; lia|]. split; [done|].
    change (f_off bg_free_blocks_count) with 12. intros base f' Hf' Hd. rewrite getf_setf_ne by (rewrite ?HL; lia). done.
Qed.

(** ** What the block operations of a group do *)

Lemma group_alloc_block_spec s :
  group_wf s ->
  exists r s', group_alloc_block s = Ret r s' /\ gs_disk s' = gs_disk s
    /\ match r with
       | None => free_bits (block_bitmap_ (gs_group s)) = 0 /\ s' = s
       | Some (b, i) =>
           0 <= i < BITS /\ bm_bit (block_bitmap_ (gs_group s)) i = false
           /\ (forall j, 0 <= j < i -> bm_bit (block_bitmap_ (gs_group s)) j = true)
           /\ b = mk_block (data_block_offset (gs_group s) i) (zeros BLOCK_SIZE)
           /\ (exists bb, gs_group s' = with_bbm bb (gs_group s)
                 /\ bm_update (block_bitmap_ (gs_group s)) bb i true)
           /\ group_wf s'
           /\ desc_get (desc_ (gs_group s)) bg_free_blocks_count (gs_super s')
              = u16 (desc_get (desc_ (gs_group s)) bg_free_blocks_count (gs_super s) - 1)
           /\ desc_get (desc_ (gs_group s)) bg_free_inodes_count (gs_super s')
              = desc_get (desc_ (gs_group s)) bg_free_inodes_count (gs_super s)
           /\ desc_only (desc_ (gs_group s)) (gs_super s) (gs_super s')
       end.
Proof.
  intros Hwf. destruct Hwf as [Hbb Hib Hd]. destruct s as [dk sb g]; cbn [gs_group gs_super gs_disk] in *.
  unfold group_alloc_block. rewrite (bind_ret _ _ _ g (mk_gst dk sb g)) by done.
  destruct (alloc_new_spec (mk_gst dk sb g) (block_bitmap_ g)) as (i & bb & Ha & Hcase); [done|].
  mstep Ha. rewrite (bind_ret _ _ _ tt (mk_gst dk sb (with_bbm bb g))) by done.
  destruct Hcase as [(-> & -> & Hz)|(Hi & Hc & Hlow & Hup)].
  - rewrite Z.eqb_refl. eexists None, _. split; [reflexivity|]. split; [done|]. split; [done|].
    by destruct g.
  - rewrite (proj2 (Z.eqb_neq i (-1))) by lia.
    destruct (desc_add_spec bg_free_blocks_count (-1) (mk_gst dk sb (with_bbm bb g)))
      as (s1 & Hs1 & Hdk & Hg & Hdin & Hcnt & Hoth & Hsup); [done|by vm_compute|by vm_compute|].
    mstep Hs1. cbn [gs_group gs_super gs_disk with_bbm desc_] in *.
    eexists (Some (_, _)), s1. split; [|split; [done|]].
    + unfold mbind, M_bind, on_disk, zoom. cbn. rewrite Hdk.
      destruct s1; cbn [gs_disk] in *; subst; reflexivity.
    + split; [done|]. split; [done|]. split; [done|]. split; [done|].
      split; [exists bb; by rewrite Hg|]. split; [|split; [exact Hcnt|split; [|exact Hsup]]].
      * constructor; rewrite ?Hg; [apply Hup|done|done].
      * apply Hoth; [by vm_compute|]. vm_compute. right. congruence.
Qed.

Lemma group_free_block_spec s i :
  group_wf s -> 0 <= i < BITS ->
  exists s', group_free_block i s = Ret (bm_bit (block_bitmap_ (gs_group s)) i) s'
    /\ gs_disk s' = gs_disk s
    /\ if bm_bit (block_bitmap_ (gs_group s)) i then
         (exists bb, gs_group s' = with_bbm bb (gs_group s)
            /\ bm_update (block_bitmap_ (gs_group s)) bb i false)
         /\ group_wf s'
         /\ desc_get (desc_ (gs_group s)) bg_free_blocks_count (gs_super s')
            = u16 (desc_get (desc_ (gs_group s)) bg_free_blocks_count (gs_super s) + 1)
         /\ desc_get (desc_ (gs_group s)) bg_free_inodes_count (gs_super s')
            = desc_get (desc_ (gs_group s)) bg_free_inodes_count (gs_super s)
         /\ desc_only (desc_ (gs_group s)) (gs_super s) (gs_super s')
       else s' = s.
Proof.
  intros [Hbb Hib Hd] Hi. destruct s as [dk sb g]; cbn [gs_group gs_super gs_disk] in *.
  unfold group_free_block. rewrite (bind_ret _ _ _ g (mk_gst dk sb g)) by done.
  mstep (bm_test_spec (mk_gst dk sb g) i (block_bitmap_ g) Hbb Hi).
  destruct (bm_bit (block_bitmap_ g) i) eqn:Hbit; cbn [negb].
  - destruct (bm_clear_spec (mk_gst dk sb g) i (block_bitmap_ g)) as (bb & Hc & Hup); [done..|].
    mstep Hc. rewrite (bind_ret _ _ _ tt (mk_gst dk sb (with_bbm bb g))) by done.
    destruct (desc_add_spec bg_free_blocks_count 1 (mk_gst dk sb (with_bbm bb g)))
      as (s1 & Hs1 & Hdk & Hg & Hdin & Hcnt & Hoth & Honly); [done|by vm_compute|by vm_compute|].
    mstep Hs1. cbn [gs_group gs_super gs_disk with_bbm desc_] in *.
    exists s1. split; [done|]. split; [done|]. split; [exists bb; by rewrite Hg|].
    split; [|split; [exact Hcnt|split; [|exact Honly]]].
    + constructor; rewrite ?Hg; [apply Hup|done|done].
    + apply Hoth; [by vm_compute|]. vm_compute. right. congruence.
  - eexists. split; [reflexivity|]. split; done.
Qed.

(** ** Inodes of the table *)

(** Every table block that has been read is a whole block. *)
Definition itab_wf (g : BlockGroup) : Prop :=
  map_Forall (fun _ b => length (data_ b) = Z.to_nat BLOCK_SIZE) (inode_table_ g).

(** Where the table blocks of [g'] were read: they are those of [g] or come
    from the place of their number in the table. *)
Definition table_from (g g' : BlockGroup) : Prop :=
  forall k b, inode_table_ g' !! k = Some b ->
    (exists b0, inode_table_ g !! k = Some b0 /\ offset_ b = offset_ b0)
    \/ (0 <= k < NUM_INODE_TABLE_BLOCKS /\ offset_ b = inode_block_offset g k).

Lemma table_from_refl g : table_from g g.
Proof. intros k b H. left. by exists b. Qed.

Lemma table_from_trans g1 g2 g3 : offset_ (block_bitmap_ g2) = offset_ (block_bitmap_ g1) ->
  table_from g1 g2 -> table_from g2 g3 -> table_from g1 g3.
Proof.
  intros Ho H1 H2 k b Hb. destruct (H2 k b Hb) as [(b0 & Hb0 & E)|[Hk E]].
  - rewrite E. by apply H1.
  - right. unfold inode_block_offset in *. by rewrite <- Ho.
Qed.

Lemma slot_off_range index :
  0 <= slot_off index /\ slot_off index + sizeof_ext2_inode <= BLOCK_SIZE.
Proof.
  unfold slot_off. change INODES_PER_BLOCK with 32. unfold sizeof_ext2_inode, BLOCK_SIZE.
  Z.div_mod_to_equations. lia.
Qed.

Lemma slot_off_disjoint i j :
  i / INODES_PER_BLOCK = j / INODES_PER_BLOCK -> i <> j ->
  slot_off i + sizeof_ext2_inode <= slot_off j \/ slot_off j + sizeof_ext2_inode <= slot_off i.
Proof.
  unfold slot_off. change INODES_PER_BLOCK with 32. unfold sizeof_ext2_inode.
  intros. Z.div_mod_to_equations. lia.
Qed.

(** A store through an inode pointer changes that inode and no other. *)
Lemma inode_store_load i j ino g g' :
  itab_wf g -> inode_wf ino = true -> inode_store i ino g = Some g' ->
  itab_wf g' /\ inode_load j g' = if bool_decide (j = i) then Some ino else inode_load j g.
Proof.
  intros Hwf Hino Hst. unfold inode_store in Hst.
  destruct (inode_table_ g !! (i / INODES_PER_BLOCK)) as [b|] eqn:Hb; [|done].
  cbn in Hst. injection Hst as <-. pose proof (Hwf _ _ Hb) as HL. cbv beta in HL.
  pose proof (slot_off_range i) as [Hs1 Hs2].
  assert (HE : Z.of_nat (length (inode_encode ino)) = sizeof_ext2_inode).
  { by rewrite length_inode_encode. }
  unfold BLOCK_SIZE in *. split.
  - unfold itab_wf; cbn [with_itab inode_table_]. apply map_Forall_insert_2; [|done].
    cbn [with_data data_]. rewrite length_splice by (rewrite ?HE, ?HL; lia). done.
  - unfold inode_load; cbn [with_itab inode_table_].
    destruct (decide (j / INODES_PER_BLOCK = i / INODES_PER_BLOCK)) as [E|E].
    + rewrite E, lookup_insert_eq, Hb. cbn [with_data data_]. case_bool_decide as Hji.
      * subst j. cbn. rewrite <- HE. rewrite slice_splice_eq by (rewrite ?HE, ?HL; lia).
        by rewrite inode_decode_encode.
      * cbn. pose proof (slot_off_range j) as [Hj1 Hj2].
        rewrite slice_splice_ne; [done|rewrite ?HE, ?HL; try lia..].
        unfold sizeof_ext2_inode in *. destruct (slot_off_disjoint j i E Hji); unfold sizeof_ext2_inode in *; lia.
    + rewrite lookup_insert_ne by done. rewrite bool_decide_false by congruence. done.
Qed.

Lemma inode_store_from i ino g g' : inode_store i ino g = Some g' -> table_from g g'.
Proof.
  unfold inode_store. destruct (inode_table_ g !! (i / INODES_PER_BLOCK)) as [b0|] eqn:Hb0; [|done].
  cbn. intros [= <-] k b Hb. left. cbn [with_itab inode_table_] in Hb.
  apply lookup_insert_Some in Hb as [[<- <-]|[_ Hb]]; [by exists b0|by exists b].
Qed.

Lemma inode_store_loaded i ino g :
  is_Some (inode_load i g) -> exists g', inode_store i ino g = Some g'
    /\ desc_ g' = desc_ g /\ block_bitmap_ g' = block_bitmap_ g /\ inode_bitmap_ g' = inode_bitmap_ g.
Proof.
  unfold inode_load, inode_store. intros [x Hx].
  destruct (inode_table_ g !! (i / INODES_PER_BLOCK)) eqn:E; [|done].
  eexists. split; [reflexivity|done].
Qed.

(** The table block of inode [i] can be read. *)
Definition table_readable (s : GroupSt) (i : Z) : Prop :=
  let off := inode_block_offset (gs_group s) (i / INODES_PER_BLOCK) in
  sectors_wf (sectors (gs_disk s)) /\ aligned off = true /\ 0 <= off
  /\ off + BLOCK_SIZE <= disk_size (gs_disk s).

Lemma Block_init_read d off :
  sectors_wf (sectors d) -> aligned off = true -> 0 <= off -> off + BLOCK_SIZE <= disk_size d ->
  Block_init off false d = Ret (mk_block off (block_at d off)) d.
Proof.
  intros. unfold Block_init; cbn [negb]. rewrite (bind_ret _ _ _ _ _ (disk_read_block d off ltac:(done) ltac:(done) ltac:(done) ltac:(done))).
  done.
Qed.

(** The inode the table holds at [index]: the loaded one, or the one on the disk
    where its table block has not been read. *)
Definition inode_seen (index : Z) (s : GroupSt) : ext2_inode :=
  match inode_load index (gs_group s) with
  | Some i => i
  | None =>
      inode_decode (slice (slot_off index) sizeof_ext2_inode
        (block_at (gs_disk s) (inode_block_offset (gs_group s) (index / INODES_PER_BLOCK))))
  end.

(** [get_inode] on an allocated inode: its table block is loaded, and every
    inode of the table, loaded or on the disk, keeps its contents. *)
Lemma group_get_inode_spec s i :
  bm_wf (inode_bitmap_ (gs_group s)) -> itab_wf (gs_group s) -> 0 <= i < BITS -> table_readable s i ->
  exists s', group_get_inode i s
      = Ret (if bm_bit (inode_bitmap_ (gs_group s)) i then Some i else None) s'
    /\ gs_disk s' = gs_disk s /\ gs_super s' = gs_super s /\ itab_wf (gs_group s')
    /\ (exists t, gs_group s' = with_itab t (gs_group s) /\ inode_table_ (gs_group s) ⊆ t
          /\ table_from (gs_group s) (gs_group s'))
    /\ (bm_bit (inode_bitmap_ (gs_group s)) i = true -> is_Some (inode_load i (gs_group s')))
    /\ (bm_bit (inode_bitmap_ (gs_group s)) i = false -> s' = s)
    /\ (forall j, inode_seen j s' = inode_seen j s).
Proof.
  intros Hib Hit Hi (Hdw & Hal & H0 & Hsz). destruct s as [dk sb g]; cbn [gs_group gs_super gs_disk] in *.
  unfold group_get_inode. rewrite (bind_ret _ _ _ g (mk_gst dk sb g)) by done.
  mstep (bm_test_spec (mk_gst dk sb g) i (inode_bitmap_ g) Hib Hi).
  assert (Hself : exists t, g = with_itab t g /\ inode_table_ g ⊆ t /\ table_from g g)
    by (exists (inode_table_ g); destruct g; split; [done|]; split; [done|apply table_from_refl]).
  destruct (bm_bit (inode_bitmap_ g) i); cbn [negb].
  2:{ eexists. split; [reflexivity|]. cbn [gs_group gs_super gs_disk]. repeat split; try done; exact Hself. }
  destruct (inode_table_ g !! (i / INODES_PER_BLOCK)) as [b|] eqn:Hb.
  - rewrite (bind_ret _ _ _ tt (mk_gst dk sb g)) by done.
    eexists. split; [reflexivity|]. cbn [gs_group gs_super gs_disk].
    do 4 (split; [done || exact Hself|]). split; [|by split].
    intros _. unfold inode_load. rewrite Hb. by eexists.
  - set (off := inode_block_offset g (i / INODES_PER_BLOCK)) in *.
    set (nb := mk_block off (block_at dk off)).
    set (g' := with_itab (<[i / INODES_PER_BLOCK := nb]> (inode_table_ g)) g).
    rewrite (bind_ret _ _ _ tt (mk_gst dk sb g')).
    2:{ unfold mbind at 1, M_bind at 1, on_disk, zoom. cbn [gs_disk gs_super gs_group].
        rewrite Block_init_read by done. done. }
    eexists. split; [reflexivity|]. cbn [gs_group gs_super gs_disk].
    split; [done|]. split; [done|]. split; [|split; [|split; [|split; [done|]]]].
    + apply map_Forall_insert_2; [by apply length_block_at|done].
    + eexists. split; [reflexivity|]. split; [by apply insert_subseteq|]. intros k b Hk.
      cbn [g' with_itab inode_table_] in Hk. apply lookup_insert_Some in Hk as [[<- <-]|[_ Hk]]; [|left; by exists b].
      right. split; [|done]. change BITS with 32768 in Hi. change INODES_PER_BLOCK with 32.
      change NUM_INODE_TABLE_BLOCKS with 1024. Z.div_mod_to_equations. lia.
    + intros _. unfold inode_load, g'; cbn [with_itab inode_table_]. rewrite lookup_insert_eq. by eexists.
    + intros j. unfold inode_seen, inode_load, g'; cbn [gs_group gs_disk with_itab inode_table_].
      destruct (decide (j / INODES_PER_BLOCK = i / INODES_PER_BLOCK)) as [E|E].
      * by rewrite E, lookup_insert_eq, Hb.
      * by rewrite lookup_insert_ne by done.
Qed.

(** A store into the table is seen at its inode only. *)
Lemma inode_seen_store d sb i j ino g g' :
  itab_wf g -> inode_wf ino = true -> inode_store i ino g = Some g' -> j <> i ->
  block_bitmap_ g' = block_bitmap_ g ->
  inode_seen j (mk_gst d sb g') = inode_seen j (mk_gst d sb g).
Proof.
  intros Hit Hino Hst Hne Hbb. destruct (inode_store_load i j _ _ _ Hit Hino Hst) as [_ Hj].
  rewrite bool_decide_false in Hj by done. unfold inode_seen, inode_block_offset. cbn [gs_group gs_disk].
  by rewrite Hj, Hbb.
Qed.

Lemma inode_load_mono j g t :
  inode_table_ g ⊆ t -> is_Some (inode_load j g) -> inode_load j (with_itab t g) = inode_load j g.
Proof.
  intros Hsub [x Hx]. unfold inode_load in *. cbn [with_itab inode_table_].
  destruct (inode_table_ g !! (j / INODES_PER_BLOCK)) as [b|] eqn:E; [|done].
  by rewrite (lookup_weaken _ _ _ _ E Hsub).
Qed.

(** ** Properties *)

(** C29. Allocation in a group: unless every block is taken, [alloc_block]
    returns the lowest free block, zeroed and placed at its disk offset,
    marks it used and no other, and keeps the free count of the descriptor
    equal to the number of clear bits; on a full bitmap it changes nothing. *)
Theorem group_alloc_block_ok s :
  group_wf s -> blocks_accounted s ->
  exists r s', group_alloc_block s = Ret r s' /\ group_wf s' /\ blocks_accounted s'
    /\ match r with
       | None => free_bits (block_bitmap_ (gs_group s)) = 0 /\ s' = s
       | Some (b, i) =>
           0 <= i < BITS
           /\ (forall j, 0 <= j <= i -> bm_bit (block_bitmap_ (gs_group s)) j = bool_decide (j < i))
           /\ (forall j, 0 <= j -> bm_bit (block_bitmap_ (gs_group s')) j
                 = bool_decide (j = i) || bm_bit (block_bitmap_ (gs_group s)) j)
           /\ b = mk_block (data_block_offset (gs_group s') i) (zeros BLOCK_SIZE)
       end.
Proof.
  intros Hwf Hacc. destruct (group_alloc_block_spec s Hwf) as (r & s' & Hr & Hdk & Hcase).
  exists r, s'. split; [done|]. destruct r as [[b i]|].
  - destruct Hcase as (Hi & Hc & Hlow & Hb & (bb & Hg & Hup) & Hwf' & Hcnt & _).
    split; [done|]. split.
    + unfold blocks_accounted in *. rewrite Hg; cbn [with_bbm desc_ block_bitmap_].
      rewrite Hcnt, Hacc. by apply (account_set _ _ i).
    + split; [done|]. split; [|split].
      * intros j Hj. case_bool_decide; [apply Hlow; lia|]. by replace j with i by lia.
      * intros j Hj. rewrite Hg; cbn [with_bbm block_bitmap_].
        destruct Hup as (_ & _ & Hs & Ho). case_bool_decide; [by subst|]. by apply Ho.
      * rewrite Hb, Hg. unfold data_block_offset; cbn [with_bbm block_bitmap_].
        destruct Hup as (_ & -> & _). done.
  - destruct Hcase as [Hz ->]. auto.
Qed.

(** Freeing in a group: [free_block] on a used block succeeds, clears that
    block only, and keeps the free count of the descriptor right; on a free
    block it reports failure and changes nothing. *)
Theorem group_free_block_ok s i :
  group_wf s -> blocks_accounted s -> 0 <= i < BITS ->
  exists s', group_free_block i s = Ret (bm_bit (block_bitmap_ (gs_group s)) i) s'
    /\ group_wf s' /\ blocks_accounted s'
    /\ (bm_bit (block_bitmap_ (gs_group s)) i = false -> s' = s)
    /\ (forall j, 0 <= j -> bm_bit (block_bitmap_ (gs_group s')) j
          = negb (bool_decide (j = i)) && bm_bit (block_bitmap_ (gs_group s)) j).
Proof.
  intros Hwf Hacc Hi. destruct (group_free_block_spec s i Hwf Hi) as (s' & Hr & Hdk & Hcase).
  exists s'. split; [done|]. destruct (bm_bit (block_bitmap_ (gs_group s)) i) eqn:Hbit.
  - destruct Hcase as ((bb & Hg & Hup) & Hwf' & Hcnt & _). split; [done|]. split; [|split; [done|]].
    + unfold blocks_accounted in *. rewrite Hg; cbn [with_bbm desc_ block_bitmap_].
      rewrite Hcnt, Hacc. by apply (account_clear _ _ i).
    + intros j Hj. rewrite Hg; cbn [with_bbm block_bitmap_].
      destruct Hup as (_ & _ & Hs & Ho). case_bool_decide; [by subst|]. by apply Ho.
  - subst s'. do 3 (split; [assumption || (intros; reflexivity)|]).
    intros j Hj. case_bool_decide; [by subst|reflexivity].
Qed.

Lemma inode_fresh_wf mode : inode_wf (inode_fresh mode) = true.
Proof.
  apply inode_wf_set_i_mode. unfold inode_zero. apply inode_wf_decode.
  rewrite length_zeros. reflexivity.
Qed.

(** The optional update of [bg_used_dirs_count] touches no other field. *)
Lemma desc_only_refl p sb : desc_only p sb sb.
Proof. by split. Qed.

Lemma desc_only_trans p sb1 sb2 sb3 : desc_only p sb1 sb2 -> desc_only p sb2 sb3 -> desc_only p sb1 sb3.
Proof.
  intros (L1 & O1 & H1) (L2 & O2 & H2). split; [by rewrite L2|]. split; [by rewrite O2|].
  intros base f Hb Hd. by rewrite H2, H1.
Qed.

Lemma used_dirs_spec (c : bool) delta s :
  desc_in s ->
  exists s', (if c then desc_add bg_used_dirs_count delta else mret tt) s = Ret tt s'
    /\ gs_disk s' = gs_disk s /\ gs_group s' = gs_group s /\ desc_in s'
    /\ desc_get (desc_ (gs_group s)) bg_free_inodes_count (gs_super s')
       = desc_get (desc_ (gs_group s)) bg_free_inodes_count (gs_super s)
    /\ desc_get (desc_ (gs_group s)) bg_free_blocks_count (gs_super s')
       = desc_get (desc_ (gs_group s)) bg_free_blocks_count (gs_super s)
    /\ desc_only (desc_ (gs_group s)) (gs_super s) (gs_super s').
Proof.
  intros Hd. destruct c; [|exists s; repeat (split; [done|]); apply desc_only_refl].
  destruct (desc_add_spec bg_used_dirs_count delta s) as (s' & H1 & H2 & H3 & H4 & _ & H6 & H7);
    [done|by vm_compute|by vm_compute|].
  exists s'. do 4 (split; [done|]).
  split; [|split; [|done]]; (apply H6; [by vm_compute|]; vm_compute; left; congruence).
Qed.

(** What [alloc_inode] of a group does, whatever the descriptor counts. *)
Lemma group_alloc_inode_spec s mode :
  group_wf s -> itab_wf (gs_group s) -> (forall i, 0 <= i < BITS -> table_readable s i) ->
  exists r s', group_alloc_inode mode s = Ret r s' /\ gs_disk s' = gs_disk s
    /\ match r with
       | None => free_bits (inode_bitmap_ (gs_group s)) = 0 /\ s' = s
       | Some i =>
           0 <= i < BITS /\ bm_bit (inode_bitmap_ (gs_group s)) i = false
           /\ (forall j, 0 <= j < i -> bm_bit (inode_bitmap_ (gs_group s)) j = true)
           /\ bm_update (inode_bitmap_ (gs_group s)) (inode_bitmap_ (gs_group s')) i true
           /\ desc_ (gs_group s') = desc_ (gs_group s) /\ block_bitmap_ (gs_group s') = block_bitmap_ (gs_group s)
           /\ itab_wf (gs_group s') /\ inode_load i (gs_group s') = Some (inode_fresh mode)
           /\ (forall j, j <> i -> is_Some (inode_load j (gs_group s)) ->
                 inode_load j (gs_group s') = inode_load j (gs_group s))
           /\ table_from (gs_group s) (gs_group s')
           /\ desc_in s'
           /\ desc_get (desc_ (gs_group s)) bg_free_inodes_count (gs_super s')
              = u16 (desc_get (desc_ (gs_group s)) bg_free_inodes_count (gs_super s) - 1)
           /\ desc_get (desc_ (gs_group s)) bg_free_blocks_count (gs_super s')
              = desc_get (desc_ (gs_group s)) bg_free_blocks_count (gs_super s)
           /\ desc_only (desc_ (gs_group s)) (gs_super s) (gs_super s')
           /\ (forall j, j <> i -> inode_seen j s' = inode_seen j s)
       end.
Proof.
  intros [Hbb Hib Hd] Hit Htab. destruct s as [dk sb g]; cbn [gs_group gs_super gs_disk] in *.
  unfold group_alloc_inode. rewrite (bind_ret _ _ _ g (mk_gst dk sb g)) by done.
  destruct (alloc_new_spec (mk_gst dk sb g) (inode_bitmap_ g)) as (i & ib & Ha & Hcase); [done|].
  mstep Ha. rewrite (bind_ret _ _ _ tt (mk_gst dk sb (with_ibm ib g))) by done.
  destruct Hcase as [(-> & -> & Hz)|(Hi & Hc & Hlow & Hup)].
  { rewrite Z.eqb_refl. eexists None, (mk_gst dk sb g). split; [by destruct g|]. auto. }
  rewrite (proj2 (Z.eqb_neq i (-1))) by lia.
  destruct (desc_add_spec bg_free_inodes_count (-1) (mk_gst dk sb (with_ibm ib g)))
    as (s1 & Hs1 & Hdk1 & Hg1 & Hdin1 & Hcnt1 & Hoth1 & Honly1); [done|by vm_compute|by vm_compute|].
  mstep Hs1. cbn [gs_group gs_super gs_disk with_ibm desc_] in *.
  destruct (used_dirs_spec (S_ISDIR mode) 1 s1 Hdin1) as (s2 & Hs2 & Hdk2 & Hg2 & Hdin2 & Hcnt2 & Hfree2 & Honly2).
  mstep Hs2. rewrite Hg1 in *; cbn [with_ibm desc_] in *.
  destruct (group_get_inode_spec s2 i) as (s3 & Hs3 & Hdk3 & Hsb3 & Hit3 & (t & Hg3 & Hsub & Hfrom) & Hld & _ & Hseen);
    rewrite ?Hg2; cbn [with_ibm inode_bitmap_]; [apply Hup|done|done| |].
  { specialize (Htab i Hi). unfold table_readable in *. rewrite Hg2, Hdk2, Hdk1. exact Htab. }
  rewrite Hg2 in *. cbn [with_ibm inode_bitmap_ inode_table_] in *.
  assert (Hbit : bm_bit ib i = true) by apply Hup. rewrite Hbit in Hs3, Hld.
  mstep Hs3. rewrite (bind_ret _ _ _ (gs_group s3) s3) by done.
  destruct (inode_store_loaded i (inode_fresh mode) (gs_group s3)) as (g4 & Hg4 & Hd4 & Hbb4 & Hib4); [auto|].
  rewrite Hg4, (bind_ret _ _ _ g4 s3) by done.
  rewrite (bind_ret _ _ _ tt (mk_gst (gs_disk s3) (gs_super s3) g4)) by done.
  pose proof (fun j => inode_store_load i j _ _ _ Hit3 (inode_fresh_wf mode) Hg4) as Hst.
  eexists (Some i), _. split; [reflexivity|]. cbn [gs_group gs_super gs_disk].
  rewrite Hg3 in *. cbn [with_itab with_ibm desc_ block_bitmap_ inode_bitmap_] in *.
  split; [by rewrite Hdk3, Hdk2, Hdk1|]. do 3 (split; [done|]). split; [by rewrite Hib4|].
  do 2 (split; [done|]). split; [apply (Hst 0)|]. split; [|split; [|split; [|split; [|split; [|split; [|split]]]]]].
  - destruct (Hst i) as [_ ->]. by rewrite bool_decide_true.
  - intros j Hne Hj. destruct (Hst j) as [_ ->]. rewrite bool_decide_false by done.
    exact (inode_load_mono j (with_ibm ib g) t Hsub Hj).
  - apply (table_from_trans g (with_itab t (with_ibm ib g))); [done|exact Hfrom|].
    by apply (inode_store_from i (inode_fresh mode)).
  - unfold desc_in in *; cbn [gs_group gs_super]. rewrite Hd4, Hsb3. by rewrite Hg2 in Hdin2.
  - rewrite Hsb3, Hcnt2. exact Hcnt1.
  - rewrite Hsb3, Hfree2. apply Hoth1; [by vm_compute|]. vm_compute. left. congruence.
  - rewrite Hsb3. by apply (desc_only_trans _ _ (gs_super s1)).
  - intros j Hne. rewrite (inode_seen_store _ _ i j (inode_fresh mode) (gs_group s3));
      rewrite ?Hg3; [|done|apply inode_fresh_wf|done|done|by rewrite Hbb4].
    specialize (Hseen j). revert Hseen. unfold inode_seen. rewrite Hg3, Hg2, Hdk3, Hdk2, Hdk1. done.
Qed.

(** C30. Allocation of an inode in a group: unless every inode is taken,
    [alloc_inode] returns the lowest free one, marks it used and no other,
    leaves it zeroed but for its mode (with a link count of 0), keeps the free
    count right, and keeps every other inode of the table: the loaded ones, the
    ones that share the table block it had to read, and the ones that are only
    on the disk, which it does not write. *)
Theorem group_alloc_inode_ok s mode :
  group_wf s -> itab_wf (gs_group s) -> inodes_accounted s ->
  (forall i, 0 <= i < BITS -> table_readable s i) ->
  exists r s', group_alloc_inode mode s = Ret r s' /\ gs_disk s' = gs_disk s
    /\ group_wf s' /\ itab_wf (gs_group s') /\ inodes_accounted s'
    /\ match r with
       | None => free_bits (inode_bitmap_ (gs_group s)) = 0 /\ s' = s
       | Some i =>
           0 <= i < BITS
           /\ (forall j, 0 <= j <= i -> bm_bit (inode_bitmap_ (gs_group s)) j = bool_decide (j < i))
           /\ (forall j, 0 <= j -> bm_bit (inode_bitmap_ (gs_group s')) j
                 = bool_decide (j = i) || bm_bit (inode_bitmap_ (gs_group s)) j)
           /\ inode_load i (gs_group s') = Some (inode_fresh mode)
           /\ (forall j, j <> i -> is_Some (inode_load j (gs_group s)) ->
                 inode_load j (gs_group s') = inode_load j (gs_group s))
           /\ (forall j, j <> i -> inode_seen j s' = inode_seen j s)
           /\ table_from (gs_group s) (gs_group s')
       end.
Proof.
  intros Hwf Hit Hacc Htab. destruct (group_alloc_inode_spec s mode Hwf Hit Htab) as (r & s' & H & Hdk & Hcase).
  exists r, s'. split; [done|]. split; [done|]. destruct r as [i|]; [|by destruct Hcase as [Hz ->]].
  destruct Hcase as (Hi & Hc & Hlow & Hup & Hd & Hbb & Hit' & Hld & Hoth & Hfrom & Hdin & Hcnt & _ & _ & Hseen).
  split; [|split; [done|split; [|split; [done|split; [|split; [|done]]]]]].
  - constructor; [rewrite Hbb; apply Hwf|apply Hup|done].
  - unfold inodes_accounted in *. rewrite Hd, Hcnt, Hacc. by apply (account_set _ _ i).
  - intros j Hj. case_bool_decide; [apply Hlow; lia|]. by replace j with i by lia.
  - intros j Hj. destruct Hup as (_ & _ & Hs & Ho). case_bool_decide; [by subst|]. by apply Ho.
Qed.

(** ** Disk layout *)

(** Group [n], placed where [init_super_block] and [alloc_block_group] put it:
    the offsets in its descriptor are 32-bit. *)
Definition placed (n : Z) (g : BlockGroup) : Prop :=
  offset_ (inode_bitmap_ g) = u32 (n * MAX_BLOCK_GROUP_SIZE + BLOCK_SIZE)
  /\ offset_ (block_bitmap_ g) = u32 (offset_ (inode_bitmap_ g) + BLOCK_SIZE).

(** The groups whose bitmaps lie below 4 GiB. *)
Definition GROUPS_32 : Z := 32.

Lemma placed_small n g : placed n g -> 0 <= n < GROUPS_32 ->
  offset_ (inode_bitmap_ g) = n * 138420224 + 4096 /\ offset_ (block_bitmap_ g) = n * 138420224 + 8192.
Proof.
  intros [H1 H2] Hn. unfold GROUPS_32 in Hn. rewrite H1 in H2. change MAX_BLOCK_GROUP_SIZE with 138420224 in *. unfold BLOCK_SIZE in *.
  rewrite u32_small in H1 by lia. rewrite (u32_small (n * 138420224 + 4096)) in H2 by lia. rewrite u32_small in H2 by lia. lia.
Qed.

(** Two blocks of the disk that share no byte. *)
Definition apart (a b : Z) : Prop := a + BLOCK_SIZE <= b \/ b + BLOCK_SIZE <= a.

Lemma data_block_offset_placed n g i :
  placed n g -> 0 <= n < GROUPS_32 -> 0 <= i < BITS ->
  data_block_offset g i = n * 138420224 + (1026 + i) * 4096.
Proof.
  intros H Hn Hi. destruct (placed_small n g H Hn) as [_ H2]. unfold data_block_offset. rewrite H2, u32_small.
  - change NUM_INODE_TABLE_BLOCKS with 1024. unfold BLOCK_SIZE. lia.
  - change BITS with 32768 in Hi. unfold BLOCK_SIZE. lia.
Qed.

Lemma inode_block_offset_placed n g i :
  placed n g -> 0 <= n < GROUPS_32 -> 0 <= i < NUM_INODE_TABLE_BLOCKS ->
  inode_block_offset g i = n * 138420224 + (3 + i) * 4096.
Proof.
  intros H Hn Hi. destruct (placed_small n g H Hn) as [_ H2]. unfold inode_block_offset. rewrite H2, u32_small.
  - unfold BLOCK_SIZE. lia.
  - change NUM_INODE_TABLE_BLOCKS with 1024 in Hi. unfold BLOCK_SIZE. lia.
Qed.

(** C31. Data blocks of the first 32 groups, whose offsets fit into the 32 bits
    of their descriptors, never collide: two of them share a byte of the disk
    only when they are the same block of the same group, and no data block
    touches the super block or a bitmap of any of these groups. *)
Theorem data_blocks_apart n m g h i j :
  0 <= n < GROUPS_32 -> 0 <= m < GROUPS_32 -> placed n g -> placed m h -> 0 <= i < BITS -> 0 <= j < BITS ->
  (n <> m \/ i <> j -> apart (data_block_offset g i) (data_block_offset h j))
  /\ apart 0 (data_block_offset g i)
  /\ apart (offset_ (inode_bitmap_ h)) (data_block_offset g i)
  /\ apart (offset_ (block_bitmap_ h)) (data_block_offset g i).
Proof.
  intros Hn Hm Hg Hh Hi Hj.
  rewrite (data_block_offset_placed n g i), (data_block_offset_placed m h j) by done.
  destruct (placed_small m h Hh Hm) as [H1 H2]. rewrite H2, H1.
  change BITS with 32768 in *. unfold apart, BLOCK_SIZE, GROUPS_32 in *. lia.
Qed.

(** The offset of the next group wraps around: its inode bitmap is a data
    block of group 0. *)
Theorem group_32_overlaps g h : placed 0 g -> placed GROUPS_32 h -> offset_ (inode_bitmap_ h) = data_block_offset g 31807.
Proof. intros Hg [H _]. rewrite H, (data_block_offset_placed 0 g 31807 Hg) by (split; by vm_compute). by vm_compute. Qed.

(** The last block of a group's inode table is its first data block:
    [data_block_offset] leaves out the bitmap block that [inode_block_offset]
    counts, so inodes 32736 to 32767 of a group share their bytes with data
    block 0; every other table block is apart from the data blocks. *)
Theorem inode_table_overlaps_data n g :
  0 <= n < GROUPS_32 -> placed n g ->
  inode_block_offset g (NUM_INODE_TABLE_BLOCKS - 1) = data_block_offset g 0
  /\ forall k i, 0 <= k < NUM_INODE_TABLE_BLOCKS - 1 -> 0 <= i < BITS ->
       apart (inode_block_offset g k) (data_block_offset g i).
Proof.
  intros Hn Hg. split.
  - rewrite (inode_block_offset_placed n), (data_block_offset_placed n) by done.
    change NUM_INODE_TABLE_BLOCKS with 1024. lia.
  - intros k i Hk Hi. rewrite (inode_block_offset_placed n) by (done || lia).
    rewrite (data_block_offset_placed n) by done.
    change NUM_INODE_TABLE_BLOCKS with 1024 in Hk. unfold apart, BLOCK_SIZE. lia.
Qed.

(** ** Instances of the properties *)

(** The first group of an empty disk, with the used blocks given by the
    first bytes of its bitmap. *)
Definition sample_bitmap (used : list byte) : Block :=
  mk_block (2 * BLOCK_SIZE) (used ++ zeros (BLOCK_SIZE - Z.of_nat (length used))).

Definition sample_group (used : list byte) : BlockGroup :=
  mk_group (desc_off 0) (sample_bitmap used) (mk_block BLOCK_SIZE (zeros BLOCK_SIZE)) ∅.

Definition sample_gst (used : list byte) (free_blocks : Z) : GroupSt :=
  mk_gst (disk_empty MAX_BLOCK_GROUP_SIZE)
    (fill_desc (desc_off 0) BLOCK_SIZE free_blocks INODES_PER_GROUP
       (mk_super (mk_block 0 (zeros BLOCK_SIZE)) [desc_off 0]))
    (sample_group used).

Lemma bm_bit_zeros off i : 0 <= i < BITS -> bm_bit (mk_block off (zeros BLOCK_SIZE)) i = false.
Proof.
  intros Hi. unfold bm_bit, Bitmap.bit; cbn [data_].
  rewrite ld_zeros, Z.testbit_0_l; [done|..]; change BITS with 32768 in Hi;
    unfold BLOCK_SIZE; Z.div_mod_to_equations; lia.
Qed.

Lemma free_bits_zeros off : free_bits (mk_block off (zeros BLOCK_SIZE)) = BITS.
Proof.
  rewrite free_bits_unseal, count_all; [by rewrite Z2Nat.id|].
  intros i Hi. rewrite Z2Nat.id in Hi by done. by rewrite bm_bit_zeros.
Qed.

Lemma free_bits_sample : free_bits (sample_bitmap [Byte.x01]) = BITS - 1.
Proof.
  destruct (bm_set_spec tt 0 (sample_bitmap [])) as (b' & Hb & Hup); [done|done|].
  assert (Hb' : b' = sample_bitmap [Byte.x01]).
  { assert (E : Ret b' tt = Ret (sample_bitmap [Byte.x01]) tt) by (rewrite <- Hb; vm_compute; reflexivity).
    by injection E. }
  rewrite <- Hb', (free_bits_set (sample_bitmap []) b' 0); [|done|done|done].
  exact (f_equal (fun z => z - 1) (free_bits_zeros (2 * BLOCK_SIZE))).
Qed.

Lemma fill_desc_length p ib fb fi sb :
  length (data_ (sb_block sb)) = Z.to_nat BLOCK_SIZE ->
  0 <= p -> p + sizeof_ext2_group_desc <= BLOCK_SIZE ->
  length (data_ (sb_block (fill_desc p ib fb fi sb))) = Z.to_nat BLOCK_SIZE.
Proof.
  intros HL H0 Hp. assert (Hset : forall f v sb', length (data_ (sb_block sb')) = Z.to_nat BLOCK_SIZE ->
    0 <= f_off f -> f_off f + Z.of_nat (f_width f) <= sizeof_ext2_group_desc ->
    length (data_ (sb_block (desc_set p f v sb'))) = Z.to_nat BLOCK_SIZE).
  { intros f v sb' HL' Hf Hf'. unfold desc_set; cbn [sb_block with_data data_].
    rewrite length_setf; [done|lia|]. rewrite HL', Z2Nat.id by done. lia. }
  unfold fill_desc. repeat (apply Hset; [|by vm_compute..]). exact HL.
Qed.

Lemma sample_gst_wf used free : (length used <= 1)%nat -> group_wf (sample_gst used free).
Proof.
  intros Hl. constructor; [|done|].
  - unfold bm_wf; cbn [sample_gst gs_group sample_group block_bitmap_ sample_bitmap data_].
    rewrite length_app, length_zeros. unfold BLOCK_SIZE. lia.
  - split; [|by vm_compute]. by apply fill_desc_length.
Qed.

Lemma sample_gst_accounted : blocks_accounted (sample_gst [Byte.x01] (BITS - 1)).
Proof.
  unfold blocks_accounted. cbn [sample_gst gs_group sample_group block_bitmap_].
  rewrite free_bits_sample. by vm_compute.
Qed.

Lemma group_alloc_block_ok_witness :
  exists r s', group_alloc_block (sample_gst [Byte.x01] (BITS - 1)) = Ret r s'
    /\ group_wf s' /\ blocks_accounted s'.
Proof.
  destruct (group_alloc_block_ok (sample_gst [Byte.x01] (BITS - 1))) as (r & s' & Hr & Hwf & Ha & _).
  - by apply sample_gst_wf.
  - apply sample_gst_accounted.
  - exists r, s'. auto.
Defined.

Lemma group_free_block_ok_witness :
  exists s', group_free_block 0 (sample_gst [Byte.x01] (BITS - 1)) = Ret true s'
    /\ group_wf s' /\ blocks_accounted s'.
Proof.
  destruct (group_free_block_ok (sample_gst [Byte.x01] (BITS - 1)) 0) as (s' & Hr & Hwf & Ha & _).
  - by apply sample_gst_wf.
  - apply sample_gst_accounted.
  - done.
  - exists s'. auto.
Defined.

Lemma group_alloc_inode_ok_witness :
  exists r s', group_alloc_inode 0x81b6 (sample_gst [] BITS) = Ret r s'
    /\ group_wf s' /\ inodes_accounted s'.
Proof.
  destruct (group_alloc_inode_ok (sample_gst [] BITS) 0x81b6) as (r & s' & Hr & _ & Hwf & _ & Ha & _).
  - apply sample_gst_wf. simpl. lia.
  - apply map_Forall_empty.
  - unfold inodes_accounted. cbn [sample_gst gs_group sample_group inode_bitmap_].
    rewrite free_bits_zeros. by vm_compute.
  - intros i Hi. split; [apply map_Forall_empty|].
    cbn [sample_gst gs_group gs_disk disk_size disk_empty].
    assert (Hp : placed 0 (sample_group [])) by done.
    change INODES_PER_BLOCK with 32. change BITS with 32768 in Hi.
    assert (Hk : 0 <= i / 32 < 1024) by (Z.div_mod_to_equations; lia).
    rewrite (inode_block_offset_placed 0 _ _ Hp ltac:(by split; vm_compute) Hk). unfold aligned, DISK_ALIGN.
    rewrite Z.eqb_eq. change MAX_BLOCK_GROUP_SIZE with 138420224. unfold BLOCK_SIZE.
    split; [|lia]. Z.div_mod_to_equations. lia.
  - exists r, s'. auto.
Defined.

(** Group 1. *)
Definition sample_group_1 : BlockGroup :=
  mk_group (desc_off 1) (mk_block (MAX_BLOCK_GROUP_SIZE + 2 * BLOCK_SIZE) (zeros BLOCK_SIZE))
    (mk_block (MAX_BLOCK_GROUP_SIZE + BLOCK_SIZE) (zeros BLOCK_SIZE)) ∅.

Lemma data_blocks_apart_witness :
  apart (data_block_offset (sample_group []) (BITS - 1)) (data_block_offset sample_group_1 0)
  /\ apart (offset_ (inode_bitmap_ sample_group_1)) (data_block_offset (sample_group []) (BITS - 1)).
Proof.
  destruct (data_blocks_apart 0 1 (sample_group []) sample_group_1 (BITS - 1) 0) as (H1 & _ & H2 & _);
    [by split; vm_compute|by split; vm_compute|done|done|by split; vm_compute|by split; vm_compute|].
  split; [apply H1; left; discriminate|exact H2].
Defined.

Lemma inode_table_overlaps_data_witness :
  inode_block_offset (sample_group []) 1023 = data_block_offset (sample_group []) 0.
Proof. apply (inode_table_overlaps_data 0 (sample_group [])); done. Defined.
