(* ===== verification/BlockCache.v ===== *)
(** * The block cache: class BlockCache of include/cache.h, src/cache.cpp

    An LRU cache of blocks: a doubly-linked list of nodes between two
    sentinels, a hash map from block index to node, and a pool of free nodes.
    The nodes are a heap of records linked by pointers, and the cached blocks
    are heap objects that [delete] frees, so that a use after free shows.

    [Lru] is the abstract cache, a list of entries with the most recently used
    one first; [cache_rep] relates the two, and every operation refines its
    abstract counterpart. *)

From S2P Require Import Prelude Layout Disk Bitmap Block.

(** ** struct Node and class BlockCache *)

Record Node : Type := mk_node {
  dirty_ : bool;
  index_ : Z;
  block_ : positive;
  prev_ : option Z;
  next_ : option Z
}.

(** The nodes of [entries_] are 0, 1, ..., the sentinels are negative. *)
Definition head_ : Z := -1.

Definition tail_ : Z := -2.

Record BlockCache : Type := mk_cache {
  map_ : gmap Z Z;
  free_entries_ : list Z;
  nodes_ : gmap Z Node;
  size_ : Z
}.

(** The part of the program's state the cache works on: the disk, the blocks
    allocated with [new] (with the next fresh address) and the cache. *)
Record Store : Type := mk_store {
  st_disk : Disk;
  st_mem : gmap positive Block;
  st_next : positive;
  st_cache : BlockCache
}.

Definition node_init : Node := mk_node false 0 1%positive None None.

(** [BlockCache(size_t size)] *)
Definition BlockCache_init (size : Z) : BlockCache :=
  let ids := map Z.of_nat (seq 0 (Z.to_nat size)) in
  {| map_ := ∅;
     free_entries_ := ids;
     nodes_ :=
       <[head_ := mk_node false 0 1%positive None (Some tail_)]>
         (<[tail_ := mk_node false 0 1%positive (Some head_) None]>
            (list_to_map (map (fun i => (i, node_init)) ids)));
     size_ := size |}.

(** ** Access to the heap *)

Definition on_store_disk {A} (m : M Disk A) : M Store A :=
  zoom st_disk (fun d s => mk_store d (st_mem s) (st_next s) (st_cache s)) m.

Definition set_cache (c : BlockCache) : M Store unit :=
  modify_st (fun s => mk_store (st_disk s) (st_mem s) (st_next s) c).

Definition upd_node (p : Z) (f : Node -> Node) : M Store unit := fun s =>
  let c := st_cache s in
  match nodes_ c !! p with
  | None => Fault UseAfterFree
  | Some n =>
      Ret tt (mk_store (st_disk s) (st_mem s) (st_next s)
                (mk_cache (map_ c) (free_entries_ c) (<[p := f n]> (nodes_ c)) (size_ c)))
  end.

Definition get_node (p : Z) : M Store Node := fun s =>
  match nodes_ (st_cache s) !! p with
  | None => Fault UseAfterFree
  | Some n => Ret n s
  end.

Definition with_prev (v : option Z) (n : Node) : Node :=
  mk_node (dirty_ n) (index_ n) (block_ n) v (next_ n).

Definition with_next (v : option Z) (n : Node) : Node :=
  mk_node (dirty_ n) (index_ n) (block_ n) (prev_ n) v.

Definition with_dirty (d : bool) (n : Node) : Node :=
  mk_node d (index_ n) (block_ n) (prev_ n) (next_ n).

(** [block->get()]: the block behind a pointer. *)
Definition block_deref (p : positive) : M Store Block := fun s =>
  match st_mem s !! p with
  | None => Fault UseAfterFree
  | Some b => Ret b s
  end.

(** A store of bytes through a block pointer. *)
Definition block_update (p : positive) (b : Block) : M Store unit := fun s =>
  match st_mem s !! p with
  | None => Fault UseAfterFree
  | Some _ => Ret tt (mk_store (st_disk s) (<[p := b]> (st_mem s)) (st_next s) (st_cache s))
  end.

(** [new Block(...)] *)
Definition block_new (b : Block) : M Store positive := fun s =>
  Ret (st_next s)
    (mk_store (st_disk s) (<[st_next s := b]> (st_mem s)) (Pos.succ (st_next s)) (st_cache s)).

(** [delete block] *)
Definition block_delete (p : positive) : M Store unit := fun s =>
  match st_mem s !! p with
  | None => Fault UseAfterFree
  | Some _ => Ret tt (mk_store (st_disk s) (delete p (st_mem s)) (st_next s) (st_cache s))
  end.

(** [block->flush()] *)
Definition block_flush (p : positive) : M Store Z :=
  b ← block_deref p;
  on_store_disk (Block_flush b).

(** ** Operations *)

(** [void detach(Node* node)] *)
Definition detach (node : Z) : M Store unit :=
  n ← get_node node;
  p ← unwrap NullDeref (prev_ n);
  _ ← upd_node p (with_next (next_ n));
  n ← get_node node;
  q ← unwrap NullDeref (next_ n);
  upd_node q (with_prev (prev_ n)).

(** [void attach(Node* node)] *)
Definition attach (node : Z) : M Store unit :=
  _ ← upd_node node (with_prev (Some head_));
  h ← get_node head_;
  _ ← upd_node node (with_next (next_ h));
  _ ← upd_node head_ (with_next (Some node));
  n ← get_node node;
  q ← unwrap NullDeref (next_ n);
  upd_node q (with_prev (Some node)).

(** [void release(Node* node)] *)
Definition release (node : Z) : M Store unit :=
  n ← get_node node;
  _ ← (if dirty_ n then
         _ ← block_flush (block_ n);
         block_delete (block_ n)
       else block_delete (block_ n));
  c ← reads st_cache;
  set_cache (mk_cache (map_ c) (free_entries_ c ++ [node]) (nodes_ c) (size_ c)).

Definition map_erase (index : Z) : M Store unit :=
  c ← reads st_cache;
  set_cache (mk_cache (delete index (map_ c)) (free_entries_ c) (nodes_ c) (size_ c)).

(** [void insert(uint32_t index, Block* block, bool dirty)] *)
Definition cache_insert (index : Z) (block : positive) (dirty : bool) : M Store unit :=
  c ← reads st_cache;
  match map_ c !! index with
  | None =>
      _ ← (if bool_decide (free_entries_ c = []) then
             t ← get_node tail_;
             node ← unwrap AssertFail (prev_ t);
             _ ← detach node;
             _ ← release node;
             n ← get_node node;
             map_erase (index_ n)
           else mret tt);
      c ← reads st_cache;
      node ← unwrap OutOfBounds (last (free_entries_ c));
      _ ← set_cache (mk_cache (map_ c) (removelast (free_entries_ c)) (nodes_ c) (size_ c));
      _ ← upd_node node (fun n => mk_node dirty index block (prev_ n) (next_ n));
      c ← reads st_cache;
      _ ← set_cache (mk_cache (<[index := node]> (map_ c)) (free_entries_ c) (nodes_ c) (size_ c));
      attach node
  | Some node =>
      _ ← upd_node node (fun n => with_dirty (dirty_ n || dirty) n);
      n ← get_node node;
      _ ← ASSERT (bool_decide (block_ n = block));
      _ ← detach node;
      attach node
  end.

(** [Block* get(uint32_t index, bool dirty)] *)
Definition cache_get (index : Z) (dirty : bool) : M Store (option positive) :=
  c ← reads st_cache;
  match map_ c !! index with
  | None => mret None
  | Some node =>
      n ← get_node node;
      _ ← ASSERT (index_ n =? index);
      _ ← detach node;
      _ ← attach node;
      _ ← upd_node node (fun n => with_dirty (dirty_ n || dirty) n);
      n ← get_node node;
      mret (Some (block_ n))
  end.

(** [void remove(uint32_t index)] *)
Definition cache_remove (index : Z) : M Store unit :=
  c ← reads st_cache;
  match map_ c !! index with
  | None => mret tt
  | Some node =>
      n ← get_node node;
      _ ← ASSERT (index =? index_ n);
      _ ← detach node;
      _ ← release node;
      n ← get_node node;
      map_erase (index_ n)
  end.

(** [void modify(uint32_t index)] *)
Definition cache_modify (index : Z) : M Store unit :=
  c ← reads st_cache;
  match map_ c !! index with
  | None => mret tt
  | Some node => upd_node node (with_dirty true)
  end.

(** The body of both [flush] loops. *)
Definition flush_node (node : Z) : M Store unit :=
  n ← get_node node;
  if dirty_ n then
    _ ← block_flush (block_ n);
    upd_node node (with_dirty false)
  else mret tt.

Fixpoint flush_nodes (ns : list Z) : M Store unit :=
  match ns with
  | [] => mret tt
  | n :: ns' =>
      _ ← flush_node n;
      flush_nodes ns'
  end.

(** [void flush()]; the order of a hash map is unspecified, here [map_to_list]'s. *)
Definition cache_flush : M Store unit :=
  c ← reads st_cache;
  flush_nodes (map snd (map_to_list (map_ c))).

(** [void flush(uint32_t inode_index)] *)
Definition cache_flush_index (inode_index : Z) : M Store unit :=
  c ← reads st_cache;
  flush_nodes
    (filter (fun p => (index_ <$> nodes_ c !! p) = Some inode_index) (map snd (map_to_list (map_ c)))).

(** ** The abstract cache *)

Module Lru.
(** Block index, block pointer, dirty flag; most recently used first. *)
Definition t : Type := list (Z * positive * bool).

Definition key (e : Z * positive * bool) : Z := e.1.1.

Definition find (i : Z) (l : t) : option (Z * positive * bool) :=
  List.find (fun e => key e =? i) l.

Definition drop (i : Z) (l : t) : t := List.filter (fun e => negb (key e =? i)) l.

(** A hit moves the entry to the front and adds to its dirty flag. *)
Definition touch (i : Z) (dirty : bool) (l : t) : t :=
  match find i l with
  | Some e => (i, e.1.2, e.2 || dirty) :: drop i l
  | None => l
  end.

Definition mark (i : Z) (dirty : bool) (l : t) : t :=
  map (fun e => if key e =? i then (e.1, dirty) else e) l.

(** The entries with the given indices have been written back. *)
Definition clean (ks : list Z) (l : t) : t := fold_left (fun l i => mark i false l) ks l.
End Lru.

(** ** Views of the node heap *)

Definition nx (m : gmap Z Node) (p : Z) : option Z := m !! p ≫= next_.

Definition pv (m : gmap Z Node) (p : Z) : option Z := m !! p ≫= prev_.

(** The payload of a node. *)
Definition payload (m : gmap Z Node) (p : Z) : option (Z * positive * bool) :=
  (fun n => (index_ n, block_ n, dirty_ n)) <$> m !! p.

(** [xs] are the nodes that follow [a], linked in both directions. *)
Fixpoint seg (n p : Z -> option Z) (a : Z) (xs : list Z) : Prop :=
  match xs with
  | [] => True
  | b :: xs' => n a = Some b /\ p b = Some a /\ seg n p b xs'
  end.

Definition put_nodes (m : gmap Z Node) (s : Store) : Store :=
  let c := st_cache s in
  mk_store (st_disk s) (st_mem s) (st_next s)
    (mk_cache (map_ c) (free_entries_ c) m (size_ c)).

Lemma upd_node_eq p f s n :
  nodes_ (st_cache s) !! p = Some n ->
  upd_node p f s = Ret tt (put_nodes (<[p := f n]> (nodes_ (st_cache s))) s).
Proof. intros H. unfold upd_node. by rewrite H. Qed.

Lemma get_node_eq p s n : nodes_ (st_cache s) !! p = Some n -> get_node p s = Ret n s.
Proof. intros H. unfold get_node. by rewrite H. Qed.

Lemma payload_dom m p : is_Some (payload m p) <-> is_Some (m !! p).
Proof. unfold payload. apply fmap_is_Some. Qed.

Section Views.
Context (m : gmap Z Node) (p : Z) (n : Node) (Hp : m !! p = Some n).

Lemma nx_with_next v q : nx (<[p := with_next v n]> m) q = if decide (q = p) then v else nx m q.
Proof. unfold nx. case_decide; simplify_map_eq; done. Qed.

Lemma pv_with_next v q : pv (<[p := with_next v n]> m) q = pv m q.
Proof. unfold pv. destruct (decide (q = p)); simplify_map_eq; done. Qed.

Lemma nx_with_prev v q : nx (<[p := with_prev v n]> m) q = nx m q.
Proof. unfold nx. destruct (decide (q = p)); simplify_map_eq; done. Qed.

Lemma pv_with_prev v q : pv (<[p := with_prev v n]> m) q = if decide (q = p) then v else pv m q.
Proof. unfold pv. case_decide; simplify_map_eq; done. Qed.

Lemma payload_with_next v q : payload (<[p := with_next v n]> m) q = payload m q.
Proof. unfold payload. destruct (decide (q = p)); simplify_map_eq; done. Qed.

Lemma payload_with_prev v q : payload (<[p := with_prev v n]> m) q = payload m q.
Proof. unfold payload. destruct (decide (q = p)); simplify_map_eq; done. Qed.

Lemma nx_payload d i b q : nx (<[p := mk_node d i b (prev_ n) (next_ n)]> m) q = nx m q.
Proof. unfold nx. destruct (decide (q = p)); simplify_map_eq; done. Qed.

Lemma pv_payload d i b q : pv (<[p := mk_node d i b (prev_ n) (next_ n)]> m) q = pv m q.
Proof. unfold pv. destruct (decide (q = p)); simplify_map_eq; done. Qed.

Lemma payload_payload d i b q :
  payload (<[p := mk_node d i b (prev_ n) (next_ n)]> m) q
  = if decide (q = p) then Some (i, b, d) else payload m q.
Proof. unfold payload. case_decide; simplify_map_eq; done. Qed.
End Views.

(** ** Segments *)

Lemma seg_ext n p n' p' a xs :
  (forall q, q ∈ a :: xs -> n' q = n q) -> (forall q, q ∈ xs -> p' q = p q) ->
  seg n p a xs -> seg n' p' a xs.
Proof.
  revert a. induction xs as [|b xs IH]; intros a Hn Hp; [done|].
  intros (H1 & H2 & H3). split; [by rewrite Hn by set_solver|].
  split; [by rewrite Hp by set_solver|]. apply IH; [set_solver..|done].
Qed.

(** The pointers around a node in the middle of a segment, and the segment
    without it. *)
Lemma seg_detach n p a xs x y ys :
  NoDup (a :: xs ++ x :: y :: ys) -> seg n p a (xs ++ x :: y :: ys) ->
  exists w, p x = Some w /\ n x = Some y /\ w ∈ a :: xs /\ w <> x
    /\ forall n' p', (forall q, n' q = if decide (q = w) then Some y else n q) ->
         (forall q, p' q = if decide (q = y) then Some w else p q) ->
         seg n' p' a (xs ++ y :: ys).
Proof.
  revert a. induction xs as [|b xs IH]; intros a Hnd.
  - intros (H1 & H2 & H3 & H4 & H5). exists a.
    apply NoDup_cons in Hnd as [Ha Hnd]. apply NoDup_cons in Hnd as [Hx Hnd].
    apply NoDup_cons in Hnd as [Hy _].
    split; [done|]. split; [done|]. split; [set_solver|]. split; [set_solver|].
    intros n' p' Hn' Hp'. simpl. split; [by rewrite Hn', decide_True|].
    split; [by rewrite Hp', decide_True|].
    eapply seg_ext; [| |exact H5].
    + intros q Hq. rewrite Hn', decide_False; [done|]. set_solver.
    + intros q Hq. rewrite Hp', decide_False; [done|]. set_solver.
  - intros (H1 & H2 & H3). apply NoDup_cons in Hnd as [Ha Hnd].
    destruct (IH b Hnd H3) as (w & Hw1 & Hw2 & Hw3 & Hwx & Hw4).
    exists w. split; [done|]. split; [done|]. split; [set_solver|]. split; [done|].
    intros n' p' Hn' Hp'. simpl. split; [|split].
    + rewrite Hn', decide_False; [done|]. set_solver.
    + rewrite Hp', decide_False; [done|].
      apply NoDup_cons in Hnd as [Hb _]. set_solver.
    + by apply Hw4.
Qed.

(** [detach] unlinks a node and touches nothing else. *)
Lemma detach_spec s xs x y ys :
  let m := nodes_ (st_cache s) in
  NoDup (head_ :: xs ++ x :: y :: ys) -> seg (nx m) (pv m) head_ (xs ++ x :: y :: ys) ->
  (forall q, q ∈ head_ :: xs ++ x :: y :: ys -> is_Some (m !! q)) ->
  exists m', detach x s = Ret tt (put_nodes m' s)
    /\ seg (nx m') (pv m') head_ (xs ++ y :: ys) /\ (forall q, payload m' q = payload m q).
Proof.
  intros m Hnd Hseg Hdom.
  destruct (seg_detach _ _ _ _ _ _ _ Hnd Hseg) as (w & Hpx & Hnx & Hw & Hwx & Hres).
  destruct (Hdom x) as [nd Hx]; [set_solver|].
  destruct (Hdom w) as [nw Hnw]; [set_solver|].
  destruct (Hdom y) as [ny Hny]; [set_solver|].
  unfold pv in Hpx. unfold nx in Hnx. rewrite Hx in Hpx, Hnx. cbn in Hpx, Hnx.
  unfold detach. mstep (get_node_eq x s nd Hx). rewrite Hpx.
  rewrite (bind_ret _ _ _ w s) by done. rewrite Hnx.
  mstep (upd_node_eq w (with_next (Some y)) s nw Hnw). fold m.
  set (m1 := <[w := with_next (Some y) nw]> m). set (s1 := put_nodes m1 s).
  assert (Hx1 : nodes_ (st_cache s1) !! x = Some nd) by (cbn; unfold m1; by rewrite lookup_insert_ne).
  mstep (get_node_eq x s1 nd Hx1). rewrite Hnx. rewrite (bind_ret _ _ _ y s1) by done. rewrite Hpx.
  assert (exists ny1, m1 !! y = Some ny1) as [ny1 Hy1].
  { unfold m1. destruct (decide (y = w)) as [->|]; simplify_map_eq; eauto. }
  rewrite (upd_node_eq y (with_prev (Some w)) s1 ny1 Hy1).
  eexists. split; [reflexivity|]. cbn [st_cache put_nodes nodes_ s1]. split.
  - apply Hres.
    + intros q. rewrite (nx_with_prev _ _ _ Hy1). unfold m1. by rewrite nx_with_next.
    + intros q. rewrite pv_with_prev. unfold m1. by rewrite (pv_with_next _ _ _ Hnw).
  - intros q. rewrite (payload_with_prev _ _ _ Hy1). unfold m1.
    by rewrite (payload_with_next _ _ _ Hnw).
Qed.

(** [attach] links a node behind the head and touches nothing else. *)
Lemma attach_spec s x y ys :
  let m := nodes_ (st_cache s) in
  NoDup (head_ :: y :: ys) -> x ∉ head_ :: y :: ys -> seg (nx m) (pv m) head_ (y :: ys) ->
  (forall q, q ∈ x :: head_ :: y :: ys -> is_Some (m !! q)) ->
  exists m', attach x s = Ret tt (put_nodes m' s)
    /\ seg (nx m') (pv m') head_ (x :: y :: ys) /\ (forall q, payload m' q = payload m q).
Proof.
  intros m Hnd Hx (Hny & Hpy & Hseg) Hdom.
  destruct (Hdom x) as [nd Hxm]; [set_solver|].
  destruct (Hdom head_) as [nh Hh]; [set_solver|].
  destruct (Hdom y) as [ny Hy]; [set_solver|].
  assert (Hxh : x <> head_) by set_solver. assert (Hxy : x <> y) by set_solver.
  assert (Hyh : y <> head_) by (apply NoDup_cons in Hnd as [? _]; set_solver).
  unfold nx in Hny. rewrite Hh in Hny. cbn in Hny.
  unfold attach. mstep (upd_node_eq x (with_prev (Some head_)) s nd Hxm). fold m.
  set (n1 := with_prev (Some head_) nd). set (m1 := <[x := n1]> m). set (s1 := put_nodes m1 s).
  assert (Hh1 : m1 !! head_ = Some nh) by (unfold m1; by rewrite lookup_insert_ne).
  mstep (get_node_eq head_ s1 nh Hh1). rewrite Hny.
  assert (Hx1 : m1 !! x = Some n1) by apply lookup_insert_eq.
  mstep (upd_node_eq x (with_next (Some y)) s1 n1 Hx1).
  set (n2 := with_next (Some y) n1). cbn [st_cache s1 put_nodes nodes_].
  set (m2 := <[x := n2]> m1). set (s2 := put_nodes m2 s1).
  assert (Hh2 : m2 !! head_ = Some nh) by (unfold m2; by rewrite lookup_insert_ne).
  mstep (upd_node_eq head_ (with_next (Some x)) s2 nh Hh2). cbn [st_cache s2 put_nodes nodes_].
  set (m3 := <[head_ := with_next (Some x) nh]> m2). set (s3 := put_nodes m3 s2).
  assert (Hx3 : m3 !! x = Some n2) by (unfold m3; rewrite lookup_insert_ne by done; apply lookup_insert_eq).
  mstep (get_node_eq x s3 n2 Hx3). rewrite (bind_ret _ _ _ y s3) by done.
  assert (Hy3 : m3 !! y = Some ny).
  { unfold m3, m2, m1. by rewrite !lookup_insert_ne by done. }
  rewrite (upd_node_eq y (with_prev (Some x)) s3 ny Hy3). cbn [st_cache s3 put_nodes nodes_].
  eexists. split; [reflexivity|].
  assert (Hnx : forall q, nx (<[y := with_prev (Some x) ny]> m3) q
            = if decide (q = head_) then Some x else if decide (q = x) then Some y else nx m q).
  { intros q. rewrite (nx_with_prev _ _ _ Hy3). unfold m3. rewrite nx_with_next.
    unfold m2, n2. rewrite nx_with_next. unfold m1, n1. by rewrite (nx_with_prev _ _ _ Hxm). }
  assert (Hpv : forall q, pv (<[y := with_prev (Some x) ny]> m3) q
            = if decide (q = y) then Some x else if decide (q = x) then Some head_ else pv m q).
  { intros q. rewrite pv_with_prev. unfold m3. rewrite (pv_with_next _ _ _ Hh2).
    unfold m2, n2. rewrite (pv_with_next _ _ _ Hx1). unfold m1, n1. by rewrite pv_with_prev. }
  split.
  - cbn [seg]. split; [by rewrite Hnx, decide_True|].
    split; [by rewrite Hpv, decide_False, decide_True by done|].
    split; [by rewrite Hnx, decide_False, decide_True by done|].
    split; [by rewrite Hpv, decide_True|].
    apply NoDup_cons in Hnd as [Hhn Hnd]. apply NoDup_cons in Hnd as [Hyn _].
    eapply seg_ext; [| |exact Hseg].
    + intros q Hq. rewrite Hnx, !decide_False; [done|set_solver..].
    + intros q Hq. rewrite Hpv, !decide_False; [done|set_solver..].
  - intros q. rewrite (payload_with_prev _ _ _ Hy3). unfold m3. rewrite (payload_with_next _ _ _ Hh2).
    unfold m2, n2. rewrite (payload_with_next _ _ _ Hx1). unfold m1, n1.
    by rewrite (payload_with_prev _ _ _ Hxm).
Qed.

(** ** The representation relation *)

(** A node with the entry it holds. *)
Definition item : Type := Z * (Z * positive * bool).

Definition ikey (e : item) : Z := Lru.key e.2.

Record rep (c : BlockCache) (ps : list item) : Prop := {
  rep_seg : seg (nx (nodes_ c)) (pv (nodes_ c)) head_ (ps.*1 ++ [tail_]);
  rep_nodup : NoDup (head_ :: tail_ :: ps.*1 ++ free_entries_ c);
  rep_dom : forall q, q ∈ head_ :: tail_ :: ps.*1 ++ free_entries_ c -> is_Some (nodes_ c !! q);
  rep_payload : forall e, e ∈ ps -> payload (nodes_ c) e.1 = Some e.2;
  rep_map : map_ c = list_to_map ((fun e => (ikey e, e.1)) <$> ps);
  rep_keys : NoDup (ikey <$> ps);
  rep_size : Z.of_nat (length ps + length (free_entries_ c)) = size_ c
}.

(** [l] is the content of the cache, in order of use. *)
Definition cache_rep (c : BlockCache) (l : Lru.t) : Prop := exists ps, rep c ps /\ l = ps.*2.

(** The content of the cache is a function of its state. *)
Lemma seg_unique n p t xs ys a :
  seg n p a (xs ++ [t]) -> seg n p a (ys ++ [t]) -> t ∉ xs -> t ∉ ys -> xs = ys.
Proof.
  revert ys a. induction xs as [|x xs IH]; intros [|y ys] a H1 H2 Hx Hy; [done| | |].
  - destruct H1 as [H1 _]. destruct H2 as [H2 _]. cbn in H1, H2. rewrite H1 in H2. injection H2 as ->.
    exfalso. apply Hy. by constructor.
  - destruct H1 as [H1 _]. destruct H2 as [H2 _]. cbn in H1, H2. rewrite H1 in H2. injection H2 as ->.
    exfalso. apply Hx. by constructor.
  - destruct H1 as (H1 & _ & H1'). destruct H2 as (H2 & _ & H2'). rewrite H1 in H2. injection H2 as <-.
    f_equal. apply (IH ys x); [done|done|..]; intros Hin; [apply Hx|apply Hy]; by constructor.
Qed.

Lemma rep_unique c ps ps' : rep c ps -> rep c ps' -> ps = ps'.
Proof.
  intros H H'. assert (Hp : ps.*1 = ps'.*1).
  { apply (seg_unique (nx (nodes_ c)) (pv (nodes_ c)) tail_ _ _ head_); [apply H|apply H'|..].
    - pose proof (rep_nodup _ _ H) as Hnd. apply NoDup_cons in Hnd as [_ Hnd]. apply NoDup_cons in Hnd as [Hn _].
      intros Hin. apply Hn, elem_of_app. by left.
    - pose proof (rep_nodup _ _ H') as Hnd. apply NoDup_cons in Hnd as [_ Hnd]. apply NoDup_cons in Hnd as [Hn _].
      intros Hin. apply Hn, elem_of_app. by left. }
  pose proof (rep_payload _ _ H) as Hpay. pose proof (rep_payload _ _ H') as Hpay'. clear H H'.
  revert ps' Hp Hpay'. induction ps as [|e ps IH]; intros [|e' ps'] Hp Hpay'; [done|done|done|].
  injection Hp as He Hp. pose proof (Hpay e ltac:(by constructor)) as H1.
  pose proof (Hpay' e' ltac:(by constructor)) as H2. rewrite <- He, H1 in H2. injection H2 as H2.
  f_equal; [destruct e, e'; cbn in *; congruence|].
  apply IH; [intros x Hx; apply Hpay; by constructor|done|intros x Hx; apply Hpay'; by constructor].
Qed.

Lemma cache_rep_unique c l l' : cache_rep c l -> cache_rep c l' -> l = l'.
Proof. intros (ps & H & ->) (ps' & H' & ->). by rewrite (rep_unique _ _ _ H H'). Qed.

Lemma map_keys_fst (ps : list item) : ((fun e => (ikey e, e.1)) <$> ps).*1 = ikey <$> ps.
Proof. rewrite <- list_fmap_compose. done. Qed.

Lemma rep_lookup_Some c ps e : rep c ps -> e ∈ ps -> map_ c !! ikey e = Some e.1.
Proof.
  intros Hr He. rewrite (rep_map _ _ Hr). apply elem_of_list_to_map_1.
  - rewrite map_keys_fst. apply Hr.
  - apply list_elem_of_fmap. eauto.
Qed.

Lemma rep_lookup_inv c ps i p :
  rep c ps -> map_ c !! i = Some p -> exists e, e ∈ ps /\ ikey e = i /\ e.1 = p.
Proof.
  intros Hr H. rewrite (rep_map _ _ Hr) in H. apply elem_of_list_to_map_2 in H.
  apply list_elem_of_fmap in H as (e & He & Hin). injection He as -> ->. eauto.
Qed.

Lemma rep_lookup_None c ps i : rep c ps -> map_ c !! i = None -> i ∉ ikey <$> ps.
Proof.
  intros Hr H Hin. apply list_elem_of_fmap in Hin as (e & -> & He).
  by rewrite (rep_lookup_Some _ _ _ Hr He) in H.
Qed.

(** ** The abstract operations on a list with distinct keys *)

Lemma lru_find_mid (xs : list item) e ys :
  NoDup (ikey <$> xs ++ e :: ys) -> Lru.find (ikey e) (xs ++ e :: ys).*2 = Some e.2.
Proof.
  intros Hnd. unfold Lru.find. rewrite fmap_app. induction xs as [|x xs IH]; cbn.
  - by rewrite Z.eqb_refl.
  - cbn in Hnd. apply NoDup_cons in Hnd as [Hx Hnd].
    destruct (Z.eqb_spec (Lru.key x.2) (ikey e)) as [E|E]; [|by apply IH].
    exfalso. apply Hx. fold (ikey x) in E. rewrite E. apply list_elem_of_fmap_2. set_solver.
Qed.

Lemma lru_find_none (ps : list item) i : i ∉ ikey <$> ps -> Lru.find i ps.*2 = None.
Proof.
  intros H. unfold Lru.find. induction ps as [|x xs IH]; [done|]. cbn.
  cbn in H. destruct (Z.eqb_spec (Lru.key x.2) i) as [E|E]; [set_solver|]. apply IH. set_solver.
Qed.

Lemma lru_drop_none (ps : list item) i : i ∉ ikey <$> ps -> Lru.drop i ps.*2 = ps.*2.
Proof.
  intros H. unfold Lru.drop. induction ps as [|x xs IH]; [done|]. cbn.
  cbn in H. destruct (Z.eqb_spec (Lru.key x.2) i) as [E|E]; [set_solver|]. cbn. f_equal.
  apply IH. set_solver.
Qed.

Lemma lru_drop_mid (xs : list item) e ys :
  NoDup (ikey <$> xs ++ e :: ys) -> Lru.drop (ikey e) (xs ++ e :: ys).*2 = (xs ++ ys).*2.
Proof.
  intros Hnd. rewrite fmap_app in Hnd. apply NoDup_app in Hnd as (_ & Hd & Hnd).
  cbn in Hnd. apply NoDup_cons in Hnd as [He _].
  unfold Lru.drop. rewrite !fmap_app, List.filter_app. cbn. rewrite Z.eqb_refl. cbn.
  fold (Lru.drop (ikey e) xs.*2). fold (Lru.drop (ikey e) ys.*2).
  rewrite !lru_drop_none; [done|done|]. intros Hx. apply (Hd _ Hx). cbn. set_solver.
Qed.

Lemma lru_touch_mid (xs : list item) e ys d :
  NoDup (ikey <$> xs ++ e :: ys) ->
  Lru.touch (ikey e) d (xs ++ e :: ys).*2
  = (((e.1, (e.2.1, e.2.2 || d)) : item) :: xs ++ ys).*2.
Proof.
  intros Hnd. unfold Lru.touch. rewrite lru_find_mid, lru_drop_mid by done.
  by destruct e as [p [[i b] d']].
Qed.

(** ** Relinking and relabelling a represented cache *)

Definition with_nodes (m : gmap Z Node) (c : BlockCache) : BlockCache :=
  mk_cache (map_ c) (free_entries_ c) m (size_ c).

(** Permuting the list and relinking the nodes keeps the representation. *)
Lemma rep_relink c ps ps' m' :
  rep c ps -> ps ≡ₚ ps' -> seg (nx m') (pv m') head_ (ps'.*1 ++ [tail_]) ->
  (forall q, payload m' q = payload (nodes_ c) q) -> rep (with_nodes m' c) ps'.
Proof.
  intros Hr Hperm Hseg Hpay.
  assert (Hp1 : head_ :: tail_ :: ps.*1 ++ free_entries_ c ≡ₚ head_ :: tail_ :: ps'.*1 ++ free_entries_ c).
  { by rewrite Hperm. }
  constructor; cbn [with_nodes nodes_ free_entries_ map_ size_].
  - done.
  - rewrite <- Hp1. apply Hr.
  - intros q Hq. rewrite <- Hp1 in Hq. apply payload_dom. rewrite Hpay. apply payload_dom. by apply Hr.
  - intros e He. rewrite <- Hperm in He. rewrite Hpay. by apply Hr.
  - rewrite (rep_map _ _ Hr). apply list_to_map_proper; [rewrite map_keys_fst; apply Hr|]. by rewrite Hperm.
  - rewrite <- Hperm. apply Hr.
  - rewrite <- Hperm. apply Hr.
Qed.

(** Changing the dirty flag of one entry. *)
Lemma rep_dirty c xs e ys n d :
  rep c (xs ++ e :: ys) -> nodes_ c !! e.1 = Some n ->
  rep (with_nodes (<[e.1 := with_dirty d n]> (nodes_ c)) c) (xs ++ (e.1, (e.2.1, d)) :: ys).
Proof.
  intros Hr Hn.
  assert (Hfst : (xs ++ (e.1, (e.2.1, d)) :: ys).*1 = (xs ++ e :: ys).*1) by by rewrite !fmap_app.
  assert (Hkey : ikey <$> xs ++ (e.1, (e.2.1, d)) :: ys = ikey <$> xs ++ e :: ys) by by rewrite !fmap_app.
  assert (Hmk : (fun e => (ikey e, e.1)) <$> xs ++ (e.1, (e.2.1, d)) :: ys
                = (fun e => (ikey e, e.1)) <$> xs ++ e :: ys) by by rewrite !fmap_app.
  pose proof (rep_nodup _ _ Hr) as Hnd.
  constructor; cbn [with_nodes nodes_ free_entries_ map_ size_]; rewrite ?Hfst, ?Hkey, ?Hmk; try apply Hr.
  - eapply seg_ext; [| |apply Hr]; intros q _; [by apply nx_payload|by apply pv_payload].
  - intros q Hq. apply (rep_dom _ _ Hr) in Hq as [nq Hq].
    destruct (decide (q = e.1)) as [->|]; simplify_map_eq; eauto.
  - intros f Hf. unfold with_dirty. rewrite payload_payload.
    pose proof (rep_payload _ _ Hr e ltac:(set_solver)) as Hpe. unfold payload in Hpe. rewrite Hn in Hpe.
    cbn in Hpe. injection Hpe as Hpe.
    apply elem_of_app in Hf as [Hf|Hf]; [|apply elem_of_cons in Hf as [->|Hf]].
    + rewrite decide_False; [apply Hr; set_solver|]. intros E.
      rewrite fmap_app in Hnd. cbn in Hnd. apply NoDup_cons in Hnd as [_ Hnd]. apply NoDup_cons in Hnd as [_ Hnd].
      apply NoDup_app in Hnd as (Hnd & _ & _). apply NoDup_app in Hnd as (_ & Hd & _).
      apply (Hd f.1); [by apply list_elem_of_fmap_2|]. rewrite E. set_solver.
    + cbn [fst snd]. rewrite decide_True by done. by rewrite <- Hpe.
    + rewrite decide_False; [apply Hr; set_solver|]. intros E.
      rewrite fmap_app in Hnd. cbn in Hnd. apply NoDup_cons in Hnd as [_ Hnd]. apply NoDup_cons in Hnd as [_ Hnd].
      apply NoDup_app in Hnd as (Hnd & _ & _). apply NoDup_app in Hnd as (_ & _ & Hnd).
      apply NoDup_cons in Hnd as [Hd _]. apply Hd. rewrite <- E. by apply list_elem_of_fmap_2.
  - rewrite <- (rep_size _ _ Hr). rewrite !length_app. done.
Qed.

(** The nodes of a cache, without the free ones. *)
Lemma rep_chain c xs e ys :
  rep c (xs ++ e :: ys) ->
  exists y zs, ys.*1 ++ [tail_] = y :: zs
    /\ (xs ++ e :: ys).*1 ++ [tail_] = xs.*1 ++ e.1 :: y :: zs
    /\ NoDup (head_ :: xs.*1 ++ e.1 :: y :: zs)
    /\ (forall q, q ∈ head_ :: xs.*1 ++ e.1 :: y :: zs -> is_Some (nodes_ c !! q)).
Proof.
  intros Hr. destruct (ys.*1 ++ [tail_]) as [|y zs] eqn:E; [by destruct (ys.*1)|].
  assert (Hch : (xs ++ e :: ys).*1 ++ [tail_] = xs.*1 ++ e.1 :: y :: zs).
  { rewrite fmap_app. cbn. by rewrite <- app_assoc, <- E. }
  exists y, zs. split; [done|]. split; [done|].
  assert (Hsub : head_ :: tail_ :: (xs ++ e :: ys).*1 ++ free_entries_ c
                 ≡ₚ (head_ :: xs.*1 ++ e.1 :: y :: zs) ++ free_entries_ c).
  { rewrite <- Hch. cbn. f_equiv. rewrite <- app_assoc. cbn.
    apply Permutation_middle. }
  split.
  - pose proof (rep_nodup _ _ Hr) as Hnd. rewrite Hsub in Hnd. by apply NoDup_app in Hnd as [? _].
  - intros q Hq. apply (rep_dom _ _ Hr). rewrite Hsub. apply elem_of_app. by left.
Qed.

(** [detach(node); attach(node);] moves an entry to the front. *)
Lemma move_front_spec s xs e ys :
  rep (st_cache s) (xs ++ e :: ys) ->
  exists m1 m2, detach e.1 s = Ret tt (put_nodes m1 s)
    /\ attach e.1 (put_nodes m1 s) = Ret tt (put_nodes m2 s)
    /\ rep (st_cache (put_nodes m2 s)) (e :: xs ++ ys).
Proof.
  intros Hr. destruct (rep_chain _ _ _ _ Hr) as (y & zs & Hys & Hch & Hnd & Hdom).
  pose proof (rep_seg _ _ Hr) as Hseg. rewrite Hch in Hseg.
  destruct (detach_spec s (xs.*1) e.1 y zs) as (m1 & Hd & Hseg1 & Hpay1); [done..|].
  assert (Hdom1 : forall q, q ∈ head_ :: xs.*1 ++ e.1 :: y :: zs -> is_Some (m1 !! q)).
  { intros q Hq. apply payload_dom. rewrite Hpay1. apply payload_dom. by apply Hdom. }
  destruct (xs.*1 ++ y :: zs) as [|w ws] eqn:Hw; [by destruct (xs.*1)|].
  assert (Hperm : head_ :: xs.*1 ++ e.1 :: y :: zs ≡ₚ e.1 :: head_ :: w :: ws).
  { rewrite <- Hw, <- (Permutation_middle (xs.*1) (y :: zs) e.1). apply Permutation_swap. }
  rewrite Hperm in Hnd. apply NoDup_cons in Hnd as [Hx Hnd].
  destruct (attach_spec (put_nodes m1 s) e.1 w ws) as (m2 & Ha & Hseg2 & Hpay2);
    [done|done|done| |].
  { intros q Hq. rewrite <- Hperm in Hq. by apply Hdom1. }
  exists m1, m2. split; [done|]. split; [exact Ha|].
  apply (rep_relink _ (xs ++ e :: ys)); [done|by rewrite <- Permutation_middle| |].
  - rewrite fmap_cons, fmap_app. cbn [app]. rewrite <- app_assoc, Hys, Hw. exact Hseg2.
  - intros q. rewrite Hpay2. apply Hpay1.
Qed.

Lemma put_nodes_twice m1 m2 s : put_nodes m1 (put_nodes m2 s) = put_nodes m1 s.
Proof. done. Qed.

Lemma find_split (ps : list item) i :
  match Lru.find i ps.*2 with
  | Some en => exists xs e ys, ps = xs ++ e :: ys /\ ikey e = i /\ e.2 = en
  | None => i ∉ ikey <$> ps
  end.
Proof.
  destruct (decide (i ∈ ikey <$> ps)) as [Hin|Hin].
  - destruct (Lru.find i ps.*2) as [en|] eqn:E.
    + unfold Lru.find in E. induction ps as [|x ps IH]; [done|]. cbn in E.
      destruct (Z.eqb_spec (Lru.key x.2) i) as [Hk|Hk].
      * injection E as <-. exists [], x, ps. done.
      * destruct IH as (xs & e & ys & -> & ? & ?); [cbn in Hin; set_solver|done|].
        exists (x :: xs), e, ys. done.
    + exfalso. unfold Lru.find in E. apply list_elem_of_fmap in Hin as (e & -> & He).
      assert (HIn : In e.2 ps.*2) by (apply list_elem_of_In, list_elem_of_fmap_2; done).
      apply (find_none _ _ E) in HIn. cbn in HIn. by rewrite Z.eqb_refl in HIn.
  - by rewrite lru_find_none.
Qed.

(** ** Operations on a represented cache *)

Definition with_cache (c : BlockCache) (s : Store) : Store :=
  mk_store (st_disk s) (st_mem s) (st_next s) c.

Lemma payload_node c ps e :
  rep c ps -> e ∈ ps ->
  exists n, nodes_ c !! e.1 = Some n /\ (index_ n, block_ n, dirty_ n) = e.2.
Proof.
  intros Hr He. pose proof (rep_payload _ _ Hr e He) as H. unfold payload in H.
  destruct (nodes_ c !! e.1) as [n|]; [|done]. injection H as H. eauto.
Qed.

Lemma cache_get_spec s l i d :
  cache_rep (st_cache s) l ->
  match Lru.find i l with
  | None => cache_get i d s = Ret None s
  | Some e => exists c', cache_get i d s = Ret (Some e.1.2) (with_cache c' s)
                /\ cache_rep c' (Lru.touch i d l) /\ size_ c' = size_ (st_cache s)
  end.
Proof.
  intros (ps & Hr & ->). pose proof (find_split ps i) as Hf.
  destruct (Lru.find i ps.*2) as [en|] eqn:Hfind.
  - destruct Hf as (xs & e & ys & -> & <- & <-).
    unfold cache_get. rewrite (bind_ret _ _ _ (st_cache s) s) by done.
    rewrite (rep_lookup_Some _ _ e Hr) by set_solver.
    destruct (payload_node _ _ e Hr) as (n & Hn & Hpe); [set_solver|].
    mstep (get_node_eq _ _ _ Hn).
    assert (Hix : index_ n = ikey e) by (unfold ikey; by rewrite <- Hpe).
    rewrite Hix, Z.eqb_refl. rewrite (bind_ret _ _ _ tt s) by done.
    destruct (move_front_spec s xs e ys Hr) as (m1 & m2 & Hd & Ha & Hr2).
    mstep Hd. mstep Ha.
    destruct (payload_node _ _ e Hr2) as (n2 & Hn2 & Hpe2); [set_solver|].
    mstep (upd_node_eq e.1 (fun n => with_dirty (dirty_ n || d) n) _ _ Hn2).
    set (s3 := put_nodes _ _).
    assert (Hn3 : nodes_ (st_cache s3) !! e.1 = Some (with_dirty (dirty_ n2 || d) n2)) by apply lookup_insert_eq.
    mstep (get_node_eq _ _ _ Hn3).
    pose proof (rep_dirty _ [] e (xs ++ ys) n2 (dirty_ n2 || d) Hr2 Hn2) as Hr3.
    eexists. split.
    + cbn. rewrite <- Hpe2. reflexivity.
    + split; [|done]. eexists. split; [exact Hr3|]. rewrite lru_touch_mid by apply Hr. cbn [app]. by rewrite <- Hpe2.
  - unfold cache_get. rewrite (bind_ret _ _ _ (st_cache s) s) by done.
    destruct (map_ (st_cache s) !! i) as [p|] eqn:E; [|done].
    apply (rep_lookup_inv _ _ _ _ Hr) in E as (e & He & <- & _).
    exfalso. by apply Hf, list_elem_of_fmap_2.
Qed.

Lemma lru_mark_mid (xs : list item) e ys d :
  NoDup (ikey <$> xs ++ e :: ys) ->
  Lru.mark (ikey e) d (xs ++ e :: ys).*2 = (xs ++ (e.1, (e.2.1, d)) :: ys).*2.
Proof.
  intros Hnd. rewrite fmap_app in Hnd. apply NoDup_app in Hnd as (_ & Hd & Hnd).
  cbn in Hnd. apply NoDup_cons in Hnd as [He _].
  assert (Hno : forall zs : list item, ikey e ∉ ikey <$> zs -> Lru.mark (ikey e) d zs.*2 = zs.*2).
  { induction zs as [|z zs IH]; intros Hz; [done|]. cbn in *. fold (ikey z).
    destruct (Z.eqb_spec (ikey z) (ikey e)); [set_solver|]. f_equal. apply IH. set_solver. }
  rewrite !fmap_app, !fmap_cons. unfold Lru.mark at 1. rewrite List.map_app. cbn [List.map].
  fold (ikey e). rewrite Z.eqb_refl. f_equal.
  - apply Hno. intros Hx. apply (Hd _ Hx). cbn. set_solver.
  - f_equal. by apply Hno.
Qed.

Lemma cache_modify_spec s l i :
  cache_rep (st_cache s) l ->
  exists c', cache_modify i s = Ret tt (with_cache c' s) /\ cache_rep c' (Lru.mark i true l)
    /\ size_ c' = size_ (st_cache s).
Proof.
  intros (ps & Hr & ->). unfold cache_modify. rewrite (bind_ret _ _ _ (st_cache s) s) by done.
  destruct (map_ (st_cache s) !! i) as [p|] eqn:E.
  - apply (rep_lookup_inv _ _ _ _ Hr) in E as (e & He & <- & <-).
    apply list_elem_of_split in He as (xs & ys & ->).
    destruct (payload_node _ _ e Hr) as (n & Hn & Hpe); [set_solver|].
    rewrite (upd_node_eq _ _ _ _ Hn). eexists. split; [reflexivity|]. split; [|done].
    eexists. split; [exact (rep_dirty _ xs e ys n true Hr Hn)|]. by apply lru_mark_mid, Hr.
  - exists (st_cache s). split; [by destruct s|]. split; [|done]. exists ps. split; [done|].
    pose proof (rep_lookup_None _ _ _ Hr E) as Hno. clear -Hno. unfold Lru.mark.
    induction ps as [|z zs IH]; [done|]. cbn in *.
    destruct (Z.eqb_spec (Lru.key z.2) i); [exfalso; apply Hno; subst; set_solver|].
    f_equal. apply IH. set_solver.
Qed.

(** The disk after [b->flush()]; a write never faults. *)
Definition write_back (b : Block) (d : Disk) : Disk :=
  match Block_flush b d with
  | Ret _ d' => d'
  | Fault _ => d
  end.

Lemma Block_flush_total b d : exists z, Block_flush b d = Ret z (write_back b d).
Proof.
  unfold write_back. unfold Block_flush, __disk_write.
  destruct (lseek (offset_ b) d) as [o d1]. destruct (i32 o <? 0); [by eexists|].
  destruct (write_at o (data_ b) d1) as [n d2]. destruct (i32 n <? 0); by eexists.
Qed.

(** [release]: a dirty block is written back, the block is freed, the node
    goes to the pool. *)
Lemma release_spec s p n b :
  nodes_ (st_cache s) !! p = Some n -> st_mem s !! block_ n = Some b ->
  release p s
  = Ret tt (mk_store (if dirty_ n then write_back b (st_disk s) else st_disk s)
              (delete (block_ n) (st_mem s)) (st_next s)
              (mk_cache (map_ (st_cache s)) (free_entries_ (st_cache s) ++ [p])
                 (nodes_ (st_cache s)) (size_ (st_cache s)))).
Proof.
  intros Hn Hb. unfold release. mstep (get_node_eq _ _ _ Hn).
  destruct (dirty_ n).
  - destruct (Block_flush_total b (st_disk s)) as [z Hz].
    set (s1 := mk_store (write_back b (st_disk s)) (st_mem s) (st_next s) (st_cache s)).
    assert (Hfl : block_flush (block_ n) s = Ret z s1).
    { unfold block_flush. rewrite (bind_ret _ _ _ b s) by (unfold block_deref; by rewrite Hb).
      unfold on_store_disk, zoom. by rewrite Hz. }
    rewrite bind_assoc. mstep Hfl.
    rewrite (bind_ret _ _ _ tt (mk_store (st_disk s1) (delete (block_ n) (st_mem s1)) (st_next s1) (st_cache s1)))
      by (unfold block_delete; cbn [s1 st_mem]; by rewrite Hb).
    done.
  - rewrite (bind_ret _ _ _ tt (mk_store (st_disk s) (delete (block_ n) (st_mem s)) (st_next s) (st_cache s)))
      by (unfold block_delete; by rewrite Hb).
    done.
Qed.

(** The representation after an entry has been unlinked and released. *)
Lemma rep_drop c xs e ys m1 :
  rep c (xs ++ e :: ys) -> seg (nx m1) (pv m1) head_ ((xs ++ ys).*1 ++ [tail_]) ->
  (forall q, payload m1 q = payload (nodes_ c) q) ->
  rep (mk_cache (delete (ikey e) (map_ c)) (free_entries_ c ++ [e.1]) m1 (size_ c)) (xs ++ ys).
Proof.
  intros Hr Hseg Hpay.
  assert (Hperm : xs ++ e :: ys ≡ₚ e :: xs ++ ys) by by rewrite Permutation_middle.
  assert (Hp1 : head_ :: tail_ :: (xs ++ e :: ys).*1 ++ free_entries_ c
                ≡ₚ head_ :: tail_ :: (xs ++ ys).*1 ++ free_entries_ c ++ [e.1]).
  { rewrite Hperm. cbn. rewrite (Permutation_app_comm (free_entries_ c)). cbn.
    do 2 f_equiv. apply Permutation_middle. }
  pose proof (rep_keys _ _ Hr) as Hk. rewrite Hperm in Hk. cbn in Hk. apply NoDup_cons in Hk as [He Hk].
  constructor; cbn [nodes_ free_entries_ map_ size_].
  - done.
  - rewrite <- Hp1. apply Hr.
  - intros q Hq. rewrite <- Hp1 in Hq. apply payload_dom. rewrite Hpay. apply payload_dom. by apply Hr.
  - intros f Hf. rewrite Hpay. apply Hr. set_solver.
  - rewrite (rep_map _ _ Hr).
    rewrite (list_to_map_proper _ ((fun e => (ikey e, e.1)) <$> e :: xs ++ ys));
      [|rewrite map_keys_fst; apply Hr|by rewrite Hperm].
    cbn. apply delete_insert_id. apply not_elem_of_list_to_map_1. by rewrite map_keys_fst.
  - done.
  - rewrite <- (rep_size _ _ Hr), !length_app. cbn. lia.
Qed.

(** [detach(node); release(node); map_.erase(node->index_);] *)
Lemma unlink_spec s xs e ys b :
  rep (st_cache s) (xs ++ e :: ys) -> st_mem s !! e.2.1.2 = Some b ->
  exists c', (_ ← detach e.1; _ ← release e.1; n ← get_node e.1; map_erase (index_ n)) s
    = Ret tt (mk_store (if e.2.2 then write_back b (st_disk s) else st_disk s)
                (delete e.2.1.2 (st_mem s)) (st_next s) c')
    /\ rep c' (xs ++ ys) /\ size_ c' = size_ (st_cache s).
Proof.
  intros Hr Hb. destruct (rep_chain _ _ _ _ Hr) as (y & zs & Hys & Hch & Hnd & Hdom).
  pose proof (rep_seg _ _ Hr) as Hseg. rewrite Hch in Hseg.
  destruct (detach_spec s (xs.*1) e.1 y zs) as (m1 & Hd & Hseg1 & Hpay1); [done..|].
  mstep Hd. destruct (nodes_ (st_cache (put_nodes m1 s)) !! e.1) as [n|] eqn:Hn.
  2:{ assert (is_Some (m1 !! e.1)) as [? E]; [|cbn in Hn; by rewrite E in Hn].
      apply payload_dom. rewrite Hpay1. apply payload_dom, Hdom. set_solver. }
  pose proof (rep_payload _ _ Hr e ltac:(set_solver)) as Hpe. rewrite <- Hpay1 in Hpe.
  unfold payload in Hpe. cbn in Hn. rewrite Hn in Hpe. cbn in Hpe. injection Hpe as Hpe.
  assert (Hbn : block_ n = e.2.1.2) by by rewrite <- Hpe.
  assert (Hdn : dirty_ n = e.2.2) by by rewrite <- Hpe.
  assert (Hin : index_ n = ikey e) by (unfold ikey; by rewrite <- Hpe).
  mstep (release_spec (put_nodes m1 s) e.1 n b Hn ltac:(by rewrite Hbn)).
  set (s2 := mk_store _ _ _ _). mstep (get_node_eq e.1 s2 n Hn).
  rewrite Hin. eexists. split; [unfold s2; rewrite Hbn, Hdn; reflexivity|]. split; [|done].
  refine (rep_drop (st_cache s) xs e ys m1 Hr _ Hpay1).
  rewrite fmap_app, <- app_assoc, Hys. done.
Qed.

Lemma cache_remove_spec s l i :
  cache_rep (st_cache s) l ->
  match Lru.find i l with
  | None => cache_remove i s = Ret tt s
  | Some e => forall b, st_mem s !! e.1.2 = Some b ->
      exists c', cache_remove i s
        = Ret tt (mk_store (if e.2 then write_back b (st_disk s) else st_disk s)
                    (delete e.1.2 (st_mem s)) (st_next s) c')
        /\ cache_rep c' (Lru.drop i l) /\ size_ c' = size_ (st_cache s)
  end.
Proof.
  intros (ps & Hr & ->). pose proof (find_split ps i) as Hf.
  unfold cache_remove. rewrite (bind_ret _ _ _ (st_cache s) s) by done.
  destruct (Lru.find i ps.*2) as [en|] eqn:Hfind.
  - destruct Hf as (xs & e & ys & -> & <- & <-). intros b Hb.
    rewrite (rep_lookup_Some _ _ e Hr) by set_solver.
    destruct (payload_node _ _ e Hr) as (n & Hn & Hpe); [set_solver|].
    mstep (get_node_eq _ _ _ Hn).
    assert (Hix : index_ n = ikey e) by (unfold ikey; by rewrite <- Hpe).
    rewrite Hix, Z.eqb_refl. rewrite (bind_ret _ _ _ tt s) by done.
    destruct (unlink_spec s xs e ys b Hr Hb) as (c' & Hu & Hr' & Hsz).
    exists c'. split; [exact Hu|]. split; [|done]. exists (xs ++ ys). split; [done|]. by apply lru_drop_mid, Hr.
  - destruct (map_ (st_cache s) !! i) as [p|] eqn:E; [|done].
    apply (rep_lookup_inv _ _ _ _ Hr) in E as (e & He & <- & _).
    exfalso. by apply Hf, list_elem_of_fmap_2.
Qed.

(** Taking a node from the pool and linking it in front. *)
Lemma rep_add c ps free p i blk d n m1 :
  rep c ps -> free_entries_ c = free ++ [p] -> i ∉ ikey <$> ps -> nodes_ c !! p = Some n ->
  let m0 := <[p := mk_node d i blk (prev_ n) (next_ n)]> (nodes_ c) in
  seg (nx m1) (pv m1) head_ (p :: ps.*1 ++ [tail_]) -> (forall q, payload m1 q = payload m0 q) ->
  rep (mk_cache (<[i := p]> (map_ c)) free m1 (size_ c)) ((p, (i, blk, d)) :: ps).
Proof.
  intros Hr Hfree Hi Hn m0 Hseg Hpay.
  assert (Hp1 : head_ :: tail_ :: ps.*1 ++ free_entries_ c ≡ₚ head_ :: tail_ :: (p :: ps.*1) ++ free).
  { rewrite Hfree, (Permutation_app_comm free). cbn. do 2 f_equiv. symmetry. apply Permutation_middle. }
  pose proof (rep_nodup _ _ Hr) as Hnd. rewrite Hp1 in Hnd.
  constructor; cbn [nodes_ free_entries_ map_ size_]; rewrite ?fmap_cons; cbn [fst snd].
  - exact Hseg.
  - done.
  - intros q Hq. rewrite <- Hp1 in Hq. apply payload_dom. rewrite Hpay. unfold m0.
    rewrite payload_payload. case_decide; [eauto|]. apply payload_dom. by apply Hr.
  - intros e He. rewrite Hpay. unfold m0. rewrite payload_payload.
    apply elem_of_cons in He as [->|He]; cbn [fst snd]; [by rewrite decide_True|].
    rewrite decide_False; [by apply Hr|]. intros E. apply (list_elem_of_fmap_2 fst) in He.
    rewrite E in He. do 2 apply NoDup_cons in Hnd as [_ Hnd]. cbn in Hnd.
    apply NoDup_cons in Hnd as [Hnd _]. set_solver.
  - cbn. by rewrite (rep_map _ _ Hr).
  - apply NoDup_cons. split; [exact Hi|apply Hr].
  - rewrite <- (rep_size _ _ Hr), Hfree, length_app. cbn. lia.
Qed.

(** The last half of [insert]: a node of the pool gets the block. *)
Lemma fill_spec s ps i blk d :
  rep (st_cache s) ps -> i ∉ ikey <$> ps -> free_entries_ (st_cache s) <> [] ->
  exists c',
    (c ← reads st_cache;
     node ← unwrap OutOfBounds (last (free_entries_ c));
     _ ← set_cache (mk_cache (map_ c) (removelast (free_entries_ c)) (nodes_ c) (size_ c));
     _ ← upd_node node (fun n => mk_node d i blk (prev_ n) (next_ n));
     c ← reads st_cache;
     _ ← set_cache (mk_cache (<[i := node]> (map_ c)) (free_entries_ c) (nodes_ c) (size_ c));
     attach node) s = Ret tt (with_cache c' s)
    /\ cache_rep c' ((i, blk, d) :: ps.*2) /\ size_ c' = size_ (st_cache s).
Proof.
  intros Hr Hi Hfree. rewrite (bind_ret _ _ _ (st_cache s) s) by done.
  destruct (exists_last Hfree) as (fr & p & Hfr).
  rewrite Hfr, last_snoc, removelast_last. rewrite (bind_ret _ _ _ p s) by done.
  set (c0 := st_cache s) in *.
  set (s1 := with_cache (mk_cache (map_ c0) fr (nodes_ c0) (size_ c0)) s).
  rewrite (bind_ret _ _ _ tt s1) by done.
  assert (is_Some (nodes_ c0 !! p)) as [n Hn].
  { apply (rep_dom _ _ Hr). rewrite Hfr. set_solver. }
  mstep (upd_node_eq p (fun n => mk_node d i blk (prev_ n) (next_ n)) s1 n Hn).
  set (m0 := <[p := mk_node d i blk (prev_ n) (next_ n)]> (nodes_ (st_cache s1))).
  rewrite (bind_ret _ _ _ (st_cache (put_nodes m0 s1)) (put_nodes m0 s1)) by done.
  set (s2 := with_cache (mk_cache (<[i := p]> (map_ c0)) fr m0 (size_ c0)) s).
  rewrite (bind_ret _ _ _ tt s2) by done.
  pose proof (rep_nodup _ _ Hr) as Hnd. rewrite Hfr in Hnd.
  destruct (ps.*1 ++ [tail_]) as [|y zs] eqn:Hy; [by destruct (ps.*1)|].
  assert (Hperm : head_ :: tail_ :: ps.*1 ++ fr ++ [p] ≡ₚ (p :: head_ :: y :: zs) ++ fr).
  { rewrite <- Hy. rewrite (Permutation_app_comm fr). cbn [app].
    rewrite <- !app_assoc. cbn [app]. rewrite <- (Permutation_middle (ps.*1) fr tail_).
    rewrite <- (Permutation_middle (ps.*1) fr p). 
    etrans; [|apply Permutation_swap]. constructor. apply Permutation_swap. }
  rewrite Hperm in Hnd. apply NoDup_app in Hnd as (Hnd & _). apply NoDup_cons in Hnd as [Hp Hnd].
  destruct (attach_spec s2 p y zs Hnd Hp) as (m' & Ha & Hseg & Hpay).
  - eapply seg_ext; [| |rewrite <- Hy; apply (rep_seg _ _ Hr)];
      intros q _; [by apply nx_payload|by apply pv_payload].
  - intros q Hq. cbn [s2 with_cache st_cache nodes_]. unfold m0.
    destruct (decide (q = p)) as [->|]; [rewrite lookup_insert_eq; eauto|].
    rewrite lookup_insert_ne by done. apply (rep_dom _ _ Hr). rewrite Hfr, Hperm. set_solver.
  - exists (mk_cache (<[i := p]> (map_ c0)) fr m' (size_ c0)). split; [exact Ha|]. split; [|done].
    exists ((p, (i, blk, d)) :: ps). split; [|done].
    refine (rep_add c0 ps fr p i blk d n m' Hr Hfr Hi Hn _ Hpay). rewrite Hy. exact Hseg.
Qed.

Lemma cache_insert_room s l i blk d :
  cache_rep (st_cache s) l -> Lru.find i l = None -> Z.of_nat (length l) < size_ (st_cache s) ->
  exists c', cache_insert i blk d s = Ret tt (with_cache c' s) /\ cache_rep c' ((i, blk, d) :: l)
    /\ size_ c' = size_ (st_cache s).
Proof.
  intros (ps & Hr & ->) Hf Hlen. pose proof (find_split ps i) as Hi. rewrite Hf in Hi.
  rewrite <- (rep_size _ _ Hr), length_fmap in Hlen.
  fold item in Hlen. assert (Hfree : free_entries_ (st_cache s) <> []).
  { intros E. rewrite E in Hlen. cbn [length] in Hlen. lia. }
  destruct (fill_spec s ps i blk d Hr Hi Hfree) as (c' & He & Hr' & Hsz).
  exists c'. split; [|done]. unfold cache_insert. rewrite (bind_ret _ _ _ (st_cache s) s) by done.
  destruct (map_ (st_cache s) !! i) as [p|] eqn:E.
  { apply (rep_lookup_inv _ _ _ _ Hr) in E as (e & Hin & <- & _).
    exfalso. by apply Hi, list_elem_of_fmap_2. }
  rewrite bool_decide_false by done. rewrite (bind_ret _ _ _ tt s) by done. exact He.
Qed.

Lemma seg_last n p a xs w z : seg n p a (xs ++ [w; z]) -> p z = Some w.
Proof.
  revert a. induction xs as [|x xs IH]; intros a; cbn [seg app].
  - intros (_ & _ & _ & H & _). exact H.
  - intros (_ & _ & H). exact (IH x H).
Qed.

Lemma cache_insert_full s l e i blk d b :
  cache_rep (st_cache s) (l ++ [e]) -> Lru.find i (l ++ [e]) = None ->
  Z.of_nat (length (l ++ [e])) = size_ (st_cache s) -> st_mem s !! e.1.2 = Some b ->
  exists c1 c', cache_insert i blk d s
      = Ret tt (mk_store (if e.2 then write_back b (st_disk s) else st_disk s)
                  (delete e.1.2 (st_mem s)) (st_next s) c')
    /\ cache_rep c1 l /\ cache_rep c' ((i, blk, d) :: l) /\ size_ c' = size_ (st_cache s).
Proof.
  intros (ps0 & Hr & Hl) Hf Hlen Hb. pose proof (find_split ps0 i) as Hi. rewrite <- Hl, Hf in Hi.
  destruct ps0 as [|q0 qs _] using rev_ind; [by destruct l|].
  rewrite fmap_app in Hl. cbn in Hl. apply app_inj_tail in Hl as [-> ->].
  assert (Hfree : free_entries_ (st_cache s) = []).
  { apply length_zero_iff_nil. rewrite <- (rep_size _ _ Hr), !length_app, length_fmap in Hlen.
    cbn [length] in Hlen. fold item in Hlen. lia. }
  unfold cache_insert. rewrite (bind_ret _ _ _ (st_cache s) s) by done.
  destruct (map_ (st_cache s) !! i) as [p|] eqn:E.
  { apply (rep_lookup_inv _ _ _ _ Hr) in E as (e & Hin & <- & _).
    exfalso. by apply Hi, list_elem_of_fmap_2. }
  rewrite bool_decide_true by done. rewrite bind_assoc.
  destruct (rep_dom _ _ Hr tail_) as [t Ht]; [set_solver|].
  mstep (get_node_eq _ _ _ Ht).
  pose proof (rep_seg _ _ Hr) as Hlast. rewrite fmap_app, <- app_assoc in Hlast.
  apply seg_last in Hlast.
  unfold pv in Hlast. rewrite Ht in Hlast. cbn in Hlast. rewrite Hlast, bind_assoc.
  rewrite (bind_ret _ _ _ q0.1 s) by done.
  destruct (unlink_spec s qs q0 [] b Hr Hb) as (c1 & Hu & Hr1 & Hsz1). rewrite app_nil_r in Hr1.
  mstep Hu.
  set (s1 := mk_store _ _ _ c1).
  destruct (fill_spec s1 qs i blk d Hr1) as (c' & He & Hr' & Hsz).
  - rewrite fmap_app in Hi. set_solver.
  - intros E1. pose proof (rep_size _ _ Hr1) as H1. cbn in E1. rewrite E1 in H1. cbn in H1.
    rewrite length_app, length_fmap in Hlen. cbn [length] in Hlen. fold item in Hlen. lia.
  - exists c1, c'. split; [exact He|]. split; [by exists qs|]. split; [done|]. by rewrite <- Hsz1.
Qed.

Lemma cache_insert_hit s l e i blk d :
  cache_rep (st_cache s) l -> Lru.find i l = Some e -> e.1.2 = blk ->
  exists c', cache_insert i blk d s = Ret tt (with_cache c' s) /\ cache_rep c' (Lru.touch i d l)
    /\ size_ c' = size_ (st_cache s).
Proof.
  intros (ps & Hr & ->) Hf Hblk. pose proof (find_split ps i) as Hi. rewrite Hf in Hi.
  destruct Hi as (xs & e' & ys & -> & <- & <-).
  unfold cache_insert. rewrite (bind_ret _ _ _ (st_cache s) s) by done.
  rewrite (rep_lookup_Some _ _ e' Hr) by set_solver.
  destruct (payload_node _ _ e' Hr) as (n & Hn & Hpe); [set_solver|].
  mstep (upd_node_eq e'.1 (fun n => with_dirty (dirty_ n || d) n) _ _ Hn).
  pose proof (rep_dirty _ xs e' ys n (dirty_ n || d) Hr Hn) as Hr1.
  set (s1 := put_nodes _ _).
  assert (Hn1 : nodes_ (st_cache s1) !! e'.1 = Some (with_dirty (dirty_ n || d) n)) by apply lookup_insert_eq.
  mstep (get_node_eq _ _ _ Hn1).
  rewrite (bind_ret _ _ _ tt s1).
  2:{ cbn [with_dirty block_]. rewrite bool_decide_true; [done|]. by rewrite <- Hblk, <- Hpe. }
  destruct (move_front_spec s1 xs (e'.1, (e'.2.1, dirty_ n || d)) ys Hr1) as (m1 & m2 & Hd & Ha & Hr2).
  cbn [fst] in Hd, Ha. mstep Hd. rewrite Ha.
  eexists. split; [reflexivity|]. split; [|done]. eexists. split; [exact Hr2|].
  rewrite lru_touch_mid by apply Hr. by rewrite <- Hpe.
Qed.

(** A block that is already cached under another address trips the assertion. *)
Lemma cache_insert_clash s l e i blk d :
  cache_rep (st_cache s) l -> Lru.find i l = Some e -> e.1.2 <> blk ->
  cache_insert i blk d s = Fault AssertFail.
Proof.
  intros (ps & Hr & ->) Hf Hblk. pose proof (find_split ps i) as Hi. rewrite Hf in Hi.
  destruct Hi as (xs & e' & ys & -> & <- & <-).
  unfold cache_insert. rewrite (bind_ret _ _ _ (st_cache s) s) by done.
  rewrite (rep_lookup_Some _ _ e' Hr) by set_solver.
  destruct (payload_node _ _ e' Hr) as (n & Hn & Hpe); [set_solver|].
  mstep (upd_node_eq e'.1 (fun n => with_dirty (dirty_ n || d) n) _ _ Hn).
  set (s1 := put_nodes _ _).
  assert (Hn1 : nodes_ (st_cache s1) !! e'.1 = Some (with_dirty (dirty_ n || d) n)) by apply lookup_insert_eq.
  mstep (get_node_eq _ _ _ Hn1).
  rewrite bool_decide_false; [done|]. intros E. apply Hblk. rewrite <- E, <- Hpe. done.
Qed.

(** One iteration of the [flush] loops. *)
Lemma flush_node_spec s xs e ys b :
  rep (st_cache s) (xs ++ e :: ys) -> st_mem s !! e.2.1.2 = Some b ->
  exists c', flush_node e.1 s
      = Ret tt (mk_store (if e.2.2 then write_back b (st_disk s) else st_disk s) (st_mem s) (st_next s) c')
    /\ rep c' (xs ++ (e.1, (e.2.1, false)) :: ys)
    /\ map_ c' = map_ (st_cache s) /\ size_ c' = size_ (st_cache s).
Proof.
  intros Hr Hb. destruct (payload_node _ _ e Hr) as (n & Hn & Hpe); [set_solver|].
  assert (Hbn : block_ n = e.2.1.2) by by rewrite <- Hpe.
  assert (Hdn : dirty_ n = e.2.2) by by rewrite <- Hpe.
  unfold flush_node. mstep (get_node_eq _ _ _ Hn). rewrite Hdn.
  destruct (e.2.2) eqn:Hd.
  - destruct (Block_flush_total b (st_disk s)) as [z Hz].
    set (s1 := mk_store (write_back b (st_disk s)) (st_mem s) (st_next s) (st_cache s)).
    assert (Hfl : block_flush (block_ n) s = Ret z s1).
    { unfold block_flush. rewrite (bind_ret _ _ _ b s) by (unfold block_deref; by rewrite Hbn, Hb).
      unfold on_store_disk, zoom. by rewrite Hz. }
    mstep Hfl. rewrite (upd_node_eq e.1 (with_dirty false) s1 n Hn).
    eexists. split; [reflexivity|]. split; [exact (rep_dirty _ xs e ys n false Hr Hn)|done].
  - exists (st_cache s). split; [by destruct s|]. split; [|done].
    replace (e.1, (e.2.1, false)) with e; [done|]. rewrite <- Hd. by destruct e as [? [??]].
Qed.

(** ** Coherence of the cache with the disk

    [off i] is the disk offset of the block with index [i]; [valid] are the
    indices in use.  [store_ok] says that the cache represents the list [l],
    that its blocks are live and distinct objects, and that a clean entry
    equals its block on disk.  [view s i] is the content of block [i] as a
    client of the cache sees it. *)

Section Coherence.
Context (off : Z -> Z) (valid : Z -> Prop).

Record offsets_ok : Prop := {
  off_aligned : forall i, valid i -> aligned (off i) = true;
  off_pos : forall i, valid i -> 0 <= off i;
  off_int : forall i, valid i -> 0 <= i32 (off i);
  off_apart : forall i j, valid i -> valid j -> i <> j ->
    off i + BLOCK_SIZE <= off j \/ off j + BLOCK_SIZE <= off i
}.

Definition eptr (e : Z * positive * bool) : positive := e.1.2.

Definition entry_ok (s : Store) (e : Z * positive * bool) : Prop :=
  valid (Lru.key e) /\
  exists b, st_mem s !! eptr e = Some b /\ offset_ b = off (Lru.key e)
    /\ length (data_ b) = Z.to_nat BLOCK_SIZE
    /\ (e.2 = false -> block_at (st_disk s) (off (Lru.key e)) = data_ b).

Record store_ok (l : Lru.t) (s : Store) : Prop := {
  ok_rep : cache_rep (st_cache s) l;
  ok_ptrs : NoDup (eptr <$> l);
  ok_entries : forall e, e ∈ l -> entry_ok s e;
  ok_disk : sectors_wf (sectors (st_disk s))
}.

Definition view (s : Store) (i : Z) : list byte :=
  match p ← map_ (st_cache s) !! i; n ← nodes_ (st_cache s) !! p; st_mem s !! block_ n with
  | Some b => data_ b
  | None => block_at (st_disk s) (off i)
  end.

Lemma view_find s l i :
  store_ok l s ->
  view s i = match e ← Lru.find i l; st_mem s !! eptr e with
             | Some b => data_ b
             | None => block_at (st_disk s) (off i)
             end.
Proof.
  intros [(ps & Hr & ->) _ _ _]. unfold view. pose proof (find_split ps i) as Hf.
  destruct (Lru.find i ps.*2) as [en|].
  - destruct Hf as (xs & e & ys & -> & <- & <-).
    destruct (payload_node _ _ e Hr) as (n & Hn & Hpe); [set_solver|].
    rewrite (rep_lookup_Some _ _ e Hr) by set_solver. cbn. rewrite Hn. cbn.
    unfold eptr. by rewrite <- Hpe.
  - destruct (map_ (st_cache s) !! i) as [p|] eqn:E; [|done].
    apply (rep_lookup_inv _ _ _ _ Hr) in E as (e & He & <- & _).
    exfalso. by apply Hf, list_elem_of_fmap_2.
Qed.

Lemma find_key l i e : Lru.find i l = Some e -> e ∈ l /\ Lru.key e = i.
Proof.
  intros H. apply find_some in H as [H1 H2]. apply Z.eqb_eq in H2.
  split; [by apply list_elem_of_In|done].
Qed.

Lemma store_ok_keys l s : store_ok l s -> NoDup (Lru.key <$> l).
Proof.
  intros [(ps & Hr & ->) _ _ _]. rewrite <- list_fmap_compose. apply Hr.
Qed.

Lemma store_ok_capacity l s : store_ok l s -> Z.of_nat (length l) <= size_ (st_cache s).
Proof.
  intros [(ps & Hr & ->) _ _ _]. rewrite <- (rep_size _ _ Hr), length_fmap. fold item. lia.
Qed.

(** Two stores with the same disk and memory, and related lists. *)
Lemma store_ok_shuffle s l c' l' :
  store_ok l s -> cache_rep c' l' ->
  (forall e', e' ∈ l' -> exists e, e ∈ l /\ e.1 = e'.1 /\ (e'.2 = false -> e.2 = false)) ->
  NoDup (eptr <$> l') -> store_ok l' (with_cache c' s).
Proof.
  intros Hok Hc Hl Hnd. constructor; [done|done| |apply Hok].
  intros e' He'. destruct (Hl e' He') as (e & He & Heq & Hd).
  destruct (ok_entries _ _ Hok e He) as (Hv & b & Hb & Ho & Hlen & Hcl).
  unfold entry_ok, eptr, Lru.key in *. rewrite <- Heq. split; [done|]. exists b. eauto 10.
Qed.

Lemma lru_find_cons e l i :
  Lru.find i (e :: l) = if Lru.key e =? i then Some e else Lru.find i l.
Proof. done. Qed.

Lemma lru_drop_cons e l i :
  Lru.drop i (e :: l) = if Lru.key e =? i then Lru.drop i l else e :: Lru.drop i l.
Proof. unfold Lru.drop. cbn. by destruct (Lru.key e =? i). Qed.

Lemma lru_find_drop l i j : i <> j -> Lru.find j (Lru.drop i l) = Lru.find j l.
Proof.
  intros Hne. induction l as [|e l IH]; [done|]. rewrite lru_drop_cons, lru_find_cons.
  destruct (Z.eqb_spec (Lru.key e) i) as [E|E].
  - destruct (Z.eqb_spec (Lru.key e) j); [lia|done].
  - rewrite lru_find_cons. by rewrite IH.
Qed.

Lemma elem_of_drop e l i : e ∈ Lru.drop i l -> e ∈ l /\ Lru.key e <> i.
Proof.
  unfold Lru.drop. rewrite list_elem_of_In, filter_In. intros [H1 H2].
  apply negb_true_iff, Z.eqb_neq in H2. by rewrite list_elem_of_In.
Qed.

Lemma drop_sublist l i : Lru.drop i l `sublist_of` l.
Proof.
  unfold Lru.drop. induction l as [|e l IH]; cbn; [done|].
  destruct (negb _); [by constructor|by constructor].
Qed.

Lemma find_touch l i j d :
  NoDup (Lru.key <$> l) ->
  Lru.find j (Lru.touch i d l)
  = if i =? j then (fun e => (i, e.1.2, e.2 || d)) <$> Lru.find i l else Lru.find j l.
Proof.
  intros Hnd. unfold Lru.touch. destruct (Lru.find i l) as [e|] eqn:Hf.
  - rewrite lru_find_cons. cbn [Lru.key fst]. destruct (Z.eqb_spec i j); [done|].
    by apply lru_find_drop.
  - destruct (Z.eqb_spec i j) as [<-|]; [by rewrite Hf|done].
Qed.

(** A hit leaves every block as it was. *)
Lemma touch_ok s l i d c' :
  store_ok l s -> cache_rep c' (Lru.touch i d l) ->
  store_ok (Lru.touch i d l) (with_cache c' s)
  /\ forall j, view (with_cache c' s) j = view s j.
Proof.
  intros Hok Hc.
  assert (Hok' : store_ok (Lru.touch i d l) (with_cache c' s)).
  { apply (store_ok_shuffle s l); [done|done| |].
    - unfold Lru.touch. destruct (Lru.find i l) as [e|] eqn:Hf; [|by eauto].
      apply find_key in Hf as [He Hk]. intros e' He'. apply elem_of_cons in He' as [->|He'].
      + exists e. split; [done|]. cbn. unfold Lru.key in Hk.
        split; [by destruct e as [[??]?]; cbn in *; subst|]. by intros [? _]%orb_false_elim.
      + apply elem_of_drop in He' as [He' _]. eauto.
    - pose proof (ok_ptrs _ _ Hok) as Hnd. unfold Lru.touch.
      destruct (Lru.find i l) as [e|] eqn:Hf; [|done]. apply find_key in Hf as [He <-].
      apply NoDup_cons. split; [|by eapply sublist_fmap_NoDup; [apply drop_sublist|]].
      intros Hin. apply list_elem_of_fmap in Hin as (e' & Hp & He').
      apply elem_of_drop in He' as [He' Hk]. apply Hk.
      f_equal. by apply (NoDup_fmap_inj eptr l). }
  split; [done|]. intros j. rewrite (view_find _ _ _ Hok'), (view_find _ _ _ Hok).
  rewrite find_touch by by eapply store_ok_keys. destruct (Z.eqb_spec i j) as [<-|]; [|done].
  by destruct (Lru.find i l) as [[[]]|].
Qed.

Lemma find_elem l j e : NoDup (Lru.key <$> l) -> e ∈ l -> Lru.key e = j -> Lru.find j l = Some e.
Proof.
  intros Hnd He Hk. destruct (Lru.find j l) as [e'|] eqn:Hf.
  - apply find_key in Hf as [He' Hk']. f_equal. apply (NoDup_fmap_inj Lru.key l); [done|done|done|congruence].
  - apply list_elem_of_In in He. apply (find_none _ _ Hf) in He. by apply Z.eqb_neq in He.
Qed.

Lemma find_perm l l' j :
  NoDup (Lru.key <$> l) -> l ≡ₚ l' -> Lru.find j l = Lru.find j l'.
Proof.
  intros Hnd Hp. assert (Hnd' : NoDup (Lru.key <$> l')) by by rewrite <- Hp.
  destruct (Lru.find j l') as [e|] eqn:Hf.
  - apply find_key in Hf as [He Hk]. apply find_elem; [done|by rewrite Hp|done].
  - destruct (Lru.find j l) as [e|] eqn:Hf'; [|done]. apply find_key in Hf' as [He Hk].
    rewrite Hp in He. rewrite (find_elem l' j e) in Hf by done. done.
Qed.

Lemma perm_drop l e : NoDup (Lru.key <$> l) -> e ∈ l -> l ≡ₚ e :: Lru.drop (Lru.key e) l.
Proof.
  induction l as [|x l IH]; intros Hnd He; [by apply not_elem_of_nil in He|].
  rewrite lru_drop_cons. cbn in Hnd. apply NoDup_cons in Hnd as [Hx Hnd].
  apply elem_of_cons in He as [->|He].
  - rewrite Z.eqb_refl. f_equiv. clear -Hx. induction l as [|y l IH]; [done|].
    rewrite lru_drop_cons. cbn in Hx. destruct (Z.eqb_spec (Lru.key y) (Lru.key x)); [set_solver|].
    f_equiv. apply IH. set_solver.
  - destruct (Z.eqb_spec (Lru.key x) (Lru.key e)) as [E|E].
    + destruct Hx. rewrite E. by apply list_elem_of_fmap_2.
    + rewrite (IH Hnd He) at 1. apply Permutation_swap.
Qed.

Lemma write_back_ok b d i :
  offsets_ok -> valid i -> offset_ b = off i -> length (data_ b) = Z.to_nat BLOCK_SIZE ->
  sectors_wf (sectors d) ->
  sectors_wf (sectors (write_back b d)) /\ block_at (write_back b d) (off i) = data_ b
  /\ forall j, valid j -> j <> i -> block_at (write_back b d) (off j) = block_at d (off j).
Proof.
  intros Hoff Hv Ho Hlen Hwf. unfold write_back, Block_flush. rewrite Ho.
  destruct (disk_write_block d (off i) (data_ b)) as (d' & -> & Hs & _); [by apply Hoff..|done|].
  unfold block_at. rewrite Hs. split; [by apply sectors_wf_write|].
  split; [by apply read_write_sectors_eq|]. intros j Hj Hne. apply read_write_sectors_ne.
  pose proof (off_apart Hoff i j Hv Hj ltac:(done)) as Hap.
  pose proof (off_aligned Hoff i Hv) as Hi. pose proof (off_aligned Hoff j Hj) as Hja.
  unfold aligned, DISK_ALIGN, BLOCK_SIZE in *. apply Z.eqb_eq in Hi, Hja.
  change (Z.of_nat SECTORS_PER_BLOCK) with 8. Z.div_mod_to_equations. lia.
Qed.

(** Writing an entry back if it is dirty, and freeing its block. *)
Lemma free_ok s l l' e b c' :
  offsets_ok -> store_ok l s -> l ≡ₚ e :: l' -> st_mem s !! eptr e = Some b -> cache_rep c' l' ->
  let s' := mk_store (if e.2 then write_back b (st_disk s) else st_disk s)
              (delete (eptr e) (st_mem s)) (st_next s) c' in
  store_ok l' s' /\ forall j, valid j -> view s' j = view s j.
Proof.
  intros Hoff Hok Hp Hb Hc s'.
  destruct (ok_entries _ _ Hok e) as (Hv & b' & Hb' & Ho & Hlen & Hcl); [rewrite Hp; set_solver|].
  rewrite Hb in Hb'. injection Hb' as <-.
  destruct (write_back_ok b (st_disk s) _ Hoff Hv Ho Hlen (ok_disk _ _ Hok)) as (Hw & Hsame & Hother).
  pose proof (ok_ptrs _ _ Hok) as Hptr. rewrite Hp in Hptr. apply NoDup_cons in Hptr as [Hnp Hptr].
  pose proof (store_ok_keys _ _ Hok) as Hkeys.
  pose proof Hkeys as Hk'. rewrite Hp in Hk'. apply NoDup_cons in Hk' as [Hnk Hk'].
  assert (Hsd : forall j, valid j -> j <> Lru.key e ->
            block_at (st_disk s') (off j) = block_at (st_disk s) (off j)).
  { intros j Hj Hne. cbn. destruct (e.2); [by apply Hother|done]. }
  assert (Hself : block_at (st_disk s') (off (Lru.key e)) = data_ b).
  { cbn. destruct (e.2); [done|by apply Hcl]. }
  assert (Hmem : forall e', e' ∈ l' -> st_mem s' !! eptr e' = st_mem s !! eptr e').
  { intros e' He'. cbn. apply lookup_delete_ne. intros E. apply Hnp. rewrite E.
    by apply list_elem_of_fmap_2. }
  assert (Hok' : store_ok l' s').
  { constructor; [done|done| |cbn; destruct (e.2); [done|apply Hok]].
    intros e' He'. destruct (ok_entries _ _ Hok e') as (Hv' & b1 & Hb1 & Ho1 & Hl1 & Hc1); [rewrite Hp; set_solver|].
    split; [done|]. exists b1. rewrite Hmem by done. split; [done|]. split; [done|]. split; [done|].
    intros Hd. rewrite Hsd; [by apply Hc1|done|]. intros E. apply Hnk. rewrite <- E.
    by apply list_elem_of_fmap_2. }
  split; [done|]. intros j Hj.
  rewrite (view_find _ _ _ Hok'), (view_find _ _ _ Hok), (find_perm _ _ j Hkeys Hp), lru_find_cons.
  destruct (Z.eqb_spec (Lru.key e) j) as [<-|Hne].
  - replace (Lru.find (Lru.key e) l') with (@None (Z * positive * bool)).
    + cbn. rewrite Hb. done.
    + symmetry. destruct (Lru.find (Lru.key e) l') as [e'|] eqn:Hf; [|done].
      apply find_key in Hf as [He' Hk1]. destruct Hnk. rewrite <- Hk1. by apply list_elem_of_fmap_2.
  - destruct (Lru.find j l') as [e'|] eqn:Hf; cbn [mbind option_bind].
    + apply find_key in Hf as [He' _]. rewrite Hmem by done.
      destruct (ok_entries _ _ Hok e') as (_ & b1 & Hb1 & _); [rewrite Hp; set_solver|]. by rewrite Hb1.
    + by apply Hsd.
Qed.

(** Linking a block that the cache did not hold. *)
Lemma add_ok s l i blk d b c' :
  store_ok l s -> Lru.find i l = None -> valid i -> st_mem s !! blk = Some b ->
  blk ∉ eptr <$> l -> offset_ b = off i -> length (data_ b) = Z.to_nat BLOCK_SIZE ->
  (d = false -> block_at (st_disk s) (off i) = data_ b) -> cache_rep c' ((i, blk, d) :: l) ->
  store_ok ((i, blk, d) :: l) (with_cache c' s)
  /\ forall j, view (with_cache c' s) j = if j =? i then data_ b else view s j.
Proof.
  intros Hok Hf Hv Hb Hp Ho Hlen Hcl Hc.
  assert (Hok' : store_ok ((i, blk, d) :: l) (with_cache c' s)).
  { constructor; [done| | |apply Hok].
    - apply NoDup_cons. split; [done|apply Hok].
    - intros e He. apply elem_of_cons in He as [->|He].
      + split; [done|]. exists b. done.
      + exact (ok_entries _ _ Hok e He). }
  split; [done|]. intros j. rewrite (view_find _ _ _ Hok'), (view_find _ _ _ Hok), lru_find_cons.
  cbn [Lru.key fst]. rewrite (Z.eqb_sym j i). destruct (i =? j); [|done].
  cbn. by rewrite Hb.
Qed.

Lemma find_mark l i j d :
  Lru.find j (Lru.mark i d l)
  = (fun e => if Lru.key e =? i then (e.1, d) else e) <$> Lru.find j l.
Proof.
  unfold Lru.mark. induction l as [|e l IH]; [done|]. cbn [List.map].
  rewrite !lru_find_cons. destruct (Z.eqb_spec (Lru.key e) i) as [E|E]; cbn [Lru.key fst].
  - change (Lru.key (e.1, d)) with (Lru.key e). destruct (Z.eqb_spec (Lru.key e) j); [|exact IH]. cbn.
    by rewrite (proj2 (Z.eqb_eq _ _) E).
  - destruct (Z.eqb_spec (Lru.key e) j); [|exact IH]. cbn. by rewrite (proj2 (Z.eqb_neq _ _) E).
Qed.

Lemma elem_of_mark e l i d :
  e ∈ Lru.mark i d l ->
  exists e0, e0 ∈ l /\ e = if Lru.key e0 =? i then (e0.1, d) else e0.
Proof. intros H. apply list_elem_of_fmap in H as (e0 & -> & H). eauto. Qed.

Lemma mark_ptrs l i d : eptr <$> Lru.mark i d l = eptr <$> l.
Proof.
  unfold Lru.mark. induction l as [|e l IH]; [done|]. cbn. f_equal; [|done].
  by destruct (Lru.key e =? i).
Qed.

(** Changing the dirty flag of an entry, with the disk written first if the
    entry becomes clean. *)
Lemma mark_ok s l i d c' dk :
  store_ok l s -> cache_rep c' (Lru.mark i d l) -> sectors_wf (sectors dk) ->
  (forall j, valid j -> j <> i -> block_at dk (off j) = block_at (st_disk s) (off j)) ->
  (forall e b, Lru.find i l = Some e -> st_mem s !! eptr e = Some b -> d = false ->
     block_at dk (off i) = data_ b) ->
  (Lru.find i l = None -> block_at dk (off i) = block_at (st_disk s) (off i)) ->
  let s' := mk_store dk (st_mem s) (st_next s) c' in
  store_ok (Lru.mark i d l) s' /\ forall j, valid j -> view s' j = view s j.
Proof.
  intros Hok Hc Hwf Hother Hself Hnone s'. pose proof (store_ok_keys _ _ Hok) as Hkeys.
  assert (Hok' : store_ok (Lru.mark i d l) s').
  { constructor; [done|rewrite mark_ptrs; apply Hok| |done].
    intros e He. apply elem_of_mark in He as (e0 & He0 & ->).
    destruct (ok_entries _ _ Hok e0 He0) as (Hv & b & Hb & Ho & Hlen & Hcl).
    destruct (Z.eqb_spec (Lru.key e0) i) as [E|E].
    - split; [done|]. exists b. split; [done|]. split; [done|]. split; [done|].
      cbn [snd]. intros ->. change (block_at dk (off (Lru.key e0)) = data_ b). rewrite E.
      apply (Hself e0 b); [by apply find_elem|done|done].
    - split; [done|]. exists b. split; [done|]. split; [done|]. split; [done|].
      intros Hd. cbn. rewrite Hother by done. by apply Hcl. }
  split; [done|]. intros j Hj. rewrite (view_find _ _ _ Hok'), (view_find _ _ _ Hok), find_mark.
  destruct (Lru.find j l) as [e|] eqn:Hf; cbn.
  - apply find_key in Hf as [He Hk]. destruct (ok_entries _ _ Hok e He) as (_ & b & Hb & _).
    assert (Hp : eptr (if Lru.key e =? i then (e.1, d) else e) = eptr e) by by destruct (_ =? _).
    by rewrite Hp, Hb.
  - destruct (decide (j = i)) as [->|]; [by apply Hnone|by apply Hother].
Qed.

Lemma flush_node_ok s l k p :
  offsets_ok -> store_ok l s -> map_ (st_cache s) !! k = Some p ->
  exists s', flush_node p s = Ret tt s' /\ store_ok (Lru.mark k false l) s'
    /\ (forall j, valid j -> view s' j = view s j)
    /\ (forall j, valid j -> j <> k -> block_at (st_disk s') (off j) = block_at (st_disk s) (off j))
    /\ map_ (st_cache s') = map_ (st_cache s).
Proof.
  intros Hoff Hok Hm. pose proof (ok_rep _ _ Hok) as Hc. destruct Hc as (ps & Hr & Hl).
  destruct (rep_lookup_inv _ _ _ _ Hr Hm) as (e & He & <- & <-).
  apply list_elem_of_split in He as (xs & ys & Hps).
  assert (Hel : e.2 ∈ l) by (rewrite Hl, Hps; apply list_elem_of_fmap_2; set_solver).
  destruct (ok_entries _ _ Hok _ Hel) as (Hv & b & Hb & Ho & Hlen & Hcl).
  rewrite Hps in Hr. destruct (flush_node_spec s xs e ys b Hr Hb) as (c' & Hf & Hr' & Hmap & _).
  destruct (write_back_ok b (st_disk s) _ Hoff Hv Ho Hlen (ok_disk _ _ Hok)) as (Hw & Hsame & Hother).
  pose proof (store_ok_keys _ _ Hok) as Hkeys.
  assert (Hrest : forall j, valid j -> j <> ikey e ->
    block_at (if e.2.2 then write_back b (st_disk s) else st_disk s) (off j) = block_at (st_disk s) (off j)).
  { intros j Hj Hne. destruct (e.2.2); [by apply Hother|done]. }
  eexists. split; [exact Hf|]. cbn [st_cache st_mem st_disk].
  assert (Hfind : Lru.find (ikey e) l = Some e.2) by (apply find_elem; done).
  destruct (mark_ok s l (ikey e) false c'
              (if e.2.2 then write_back b (st_disk s) else st_disk s)) as [H1 H2].
  - done.
  - exists (xs ++ (e.1, (e.2.1, false)) :: ys). split; [done|]. rewrite Hl, Hps.
    apply lru_mark_mid. apply Hr.
  - destruct (e.2.2); [done|apply Hok].
  - done.
  - intros e' b' Hf' Hb' _. rewrite Hfind in Hf'. injection Hf' as <-. rewrite Hb in Hb'.
    injection Hb' as <-. destruct (e.2.2); [exact Hsame|by apply Hcl].
  - by rewrite Hfind.
  - done.
Qed.

Lemma flush_nodes_ok kvs s l :
  offsets_ok -> store_ok l s -> (forall kv, kv ∈ kvs -> map_ (st_cache s) !! kv.1 = Some kv.2) ->
  exists s', flush_nodes kvs.*2 s = Ret tt s' /\ store_ok (Lru.clean kvs.*1 l) s'
    /\ (forall j, valid j -> view s' j = view s j)
    /\ (forall j, valid j -> j ∉ kvs.*1 -> block_at (st_disk s') (off j) = block_at (st_disk s) (off j)).
Proof.
  intros Hoff. revert s l. induction kvs as [|[k p] kvs IH]; intros s l Hok Hkv.
  { exists s. done. }
  destruct (flush_node_ok s l k p Hoff Hok) as (s1 & Hf & Hok1 & Hv1 & Hd1 & Hm1).
  { exact (Hkv (k, p) ltac:(set_solver)). }
  destruct (IH s1 _ Hok1) as (s2 & Hf2 & Hok2 & Hv2 & Hd2).
  { intros kv Hin. rewrite Hm1. apply Hkv. set_solver. }
  exists s2. split; [cbn; by mstep Hf|]. split; [done|].
  split; intros j Hj; [by rewrite Hv2, Hv1 by done|]. cbn [fmap list_fmap fst].
  intros [Hk Hks]%not_elem_of_cons. by rewrite Hd2, Hd1 by done.
Qed.

Lemma elem_of_clean ks l e :
  e ∈ Lru.clean ks l -> exists e0, e0 ∈ l /\ e.1 = e0.1 /\ (Lru.key e0 ∈ ks \/ e0.2 = false -> e.2 = false).
Proof.
  revert l. induction ks as [|k ks IH]; intros l He.
  { exists e. split; [done|]. split; [done|].
    intros [H|H]; [by apply not_elem_of_nil in H|done]. }
  destruct (IH _ He) as (e1 & He1 & Heq & Hc). apply elem_of_mark in He1 as (e0 & He0 & ->).
  exists e0. split; [done|]. split; [by destruct (Lru.key e0 =? k)|].
  intros H. apply Hc. destruct (Z.eqb_spec (Lru.key e0) k) as [E|E]; [by right|].
  destruct H as [H|H]; [left; by apply elem_of_cons in H as [H|H]|by right].
Qed.

(** Storing through the pointer of a dirty entry. *)
Lemma update_ok s l i p b data :
  store_ok l s -> (i, p, true) ∈ l -> st_mem s !! p = Some b ->
  length data = Z.to_nat BLOCK_SIZE ->
  let s' := mk_store (st_disk s) (<[p := with_data data b]> (st_mem s)) (st_next s) (st_cache s) in
  store_ok l s' /\ forall j, view s' j = if j =? i then data else view s j.
Proof.
  intros Hok He Hb Hlen s'. pose proof (store_ok_keys _ _ Hok) as Hkeys.
  assert (Hother : forall e, e ∈ l -> e <> (i, p, true) -> eptr e <> p).
  { intros e Hin Hne E. apply Hne. by apply (NoDup_fmap_inj eptr l); [apply Hok|..]. }
  assert (Hok' : store_ok l s').
  { constructor; [apply Hok|apply Hok| |apply Hok]. intros e Hin.
    destruct (ok_entries _ _ Hok e Hin) as (Hv & b1 & Hb1 & Ho & Hl & Hc). split; [done|].
    destruct (decide (e = (i, p, true))) as [->|Hne].
    - exists (with_data data b). cbn in Hb1 |- *. rewrite lookup_insert_eq. rewrite Hb in Hb1.
      injection Hb1 as <-. done.
    - exists b1. cbn. rewrite lookup_insert_ne by (intros E; by apply (Hother e)). done. }
  split; [done|]. intros j. rewrite (view_find _ _ _ Hok'), (view_find _ _ _ Hok).
  destruct (Z.eqb_spec j i) as [->|Hne].
  - rewrite (find_elem l i (i, p, true)) by done. cbn. by rewrite lookup_insert_eq.
  - destruct (Lru.find j l) as [e|] eqn:Hf; [|done]. apply find_key in Hf as [Hin Hk]. cbn.
    rewrite lookup_insert_ne; [done|]. intros E. apply (Hother e); [done| |done].
    intros ->. by apply Hne.
Qed.
End Coherence.

(** What no operation of the cache does: change its capacity, allocate a
    block or shrink the disk. *)
Record store_frame (s s' : Store) : Prop := {
  fr_size : size_ (st_cache s') = size_ (st_cache s);
  fr_next : st_next s' = st_next s;
  fr_mem : forall q, is_Some (st_mem s' !! q) -> is_Some (st_mem s !! q);
  fr_disk : disk_size (st_disk s) <= disk_size (st_disk s')
}.

Lemma write_back_size b d : disk_size d <= disk_size (write_back b d).
Proof.
  unfold write_back, Block_flush, __disk_write, lseek, write_at.
  repeat (case_match; simplify_eq/=; try lia).
Qed.

Lemma frame_with_cache s c' : size_ c' = size_ (st_cache s) -> store_frame s (with_cache c' s).
Proof. intros H. by constructor. Qed.

Lemma frame_free s p b c' (d : bool) :
  size_ c' = size_ (st_cache s) ->
  store_frame s (mk_store (if d then write_back b (st_disk s) else st_disk s)
                   (delete p (st_mem s)) (st_next s) c').
Proof.
  intros H. constructor; cbn; [done|done| |].
  - intros q [x Hx]. apply lookup_delete_Some in Hx as [_ Hx]. eauto.
  - destruct d; [apply write_back_size|lia].
Qed.

(** ** Properties *)

Lemma BlockCache_init_rep n : 0 <= n -> rep (BlockCache_init n) [].
Proof.
  intros Hn. set (ids := map Z.of_nat (seq 0 (Z.to_nat n))).
  assert (Hpos : forall q, q ∈ ids -> 0 <= q).
  { intros q Hq. apply list_elem_of_fmap in Hq as (k & -> & _). lia. }
  assert (Hnd : NoDup ids) by (apply (NoDup_fmap_2 _), NoDup_seq).
  constructor; cbn [fmap list_fmap app].
  - split; [|split; [|done]].
    + unfold nx. cbn [BlockCache_init nodes_]. by rewrite lookup_insert_eq.
    + unfold pv. cbn [BlockCache_init nodes_]. by rewrite lookup_insert_ne, lookup_insert_eq.
  - cbn [BlockCache_init free_entries_]. fold ids. rewrite !NoDup_cons. split; [|split; [|done]].
    + intros H. apply elem_of_cons in H as [H|H]; [done|]. by apply Hpos in H.
    + intros H. by apply Hpos in H.
  - intros q Hq. cbn [BlockCache_init nodes_ free_entries_] in *. fold ids in Hq |- *.
    destruct (decide (q = head_)) as [->|]; [rewrite lookup_insert_eq; eauto|].
    rewrite lookup_insert_ne by done.
    destruct (decide (q = tail_)) as [->|]; [rewrite lookup_insert_eq; eauto|].
    rewrite lookup_insert_ne by done. exists node_init. apply elem_of_list_to_map_1'.
    + intros y Hy. apply list_elem_of_fmap in Hy as (? & Hy & _). by injection Hy.
    + apply list_elem_of_fmap. exists q. split; [done|]. set_solver.
  - set_solver.
  - done.
  - constructor.
  - cbn [BlockCache_init free_entries_ size_ length]. rewrite length_map, length_seq. lia.
Qed.

Definition store_init (d : Disk) (n : Z) : Store := mk_store d ∅ 1%positive (BlockCache_init n).

Lemma store_init_ok off valid d n :
  sectors_wf (sectors d) -> 0 <= n -> store_ok off valid [] (store_init d n).
Proof.
  intros Hd Hn. constructor; [|constructor|set_solver|done].
  exists []. split; [by apply BlockCache_init_rep|done].
Qed.

Lemma cache_get_ok off valid s l i d :
  store_ok off valid l s ->
  exists s', cache_get i d s = Ret (eptr <$> Lru.find i l) s'
    /\ store_ok off valid (Lru.touch i d l) s'
    /\ store_frame s s' /\ (forall j, view off s' j = view off s j)
    /\ (forall p b, eptr <$> Lru.find i l = Some p -> st_mem s !! p = Some b -> data_ b = view off s i).
Proof.
  intros Hok. pose proof (cache_get_spec s l i d (ok_rep _ _ _ _ Hok)) as H.
  assert (Hv : forall p b, eptr <$> Lru.find i l = Some p -> st_mem s !! p = Some b -> data_ b = view off s i).
  { intros p b Hp Hb. rewrite (view_find _ _ _ _ _ Hok). destruct (Lru.find i l); [|done].
    injection Hp as <-. cbn. by rewrite Hb. }
  destruct (Lru.find i l) as [e|] eqn:Hf.
  - destruct H as (c' & Hg & Hc & Hsz). destruct (touch_ok off valid s l i d c' Hok Hc) as [H1 H2].
    eauto 10 using frame_with_cache.
  - exists s. unfold Lru.touch. rewrite Hf. done.
Qed.

Lemma cache_insert_ok off valid s l i blk d b :
  offsets_ok off valid -> store_ok off valid l s -> Lru.find i l = None -> valid i ->
  0 < size_ (st_cache s) ->
  st_mem s !! blk = Some b -> blk ∉ eptr <$> l -> offset_ b = off i ->
  length (data_ b) = Z.to_nat BLOCK_SIZE ->
  (d = false -> block_at (st_disk s) (off i) = data_ b) ->
  exists s', cache_insert i blk d s = Ret tt s'
    /\ store_ok off valid
         ((i, blk, d) :: if Z.of_nat (length l) <? size_ (st_cache s) then l else removelast l) s'
    /\ st_mem s' !! blk = Some b /\ store_frame s s'
    /\ forall j, valid j -> view off s' j = if j =? i then data_ b else view off s j.
Proof.
  intros Hoff Hok Hf Hv Hsz Hb Hp Ho Hlen Hcl.
  pose proof (store_ok_capacity _ _ _ _ Hok) as Hcap.
  destruct (Z.ltb_spec (Z.of_nat (length l)) (size_ (st_cache s))) as [Hlt|Hge].
  - destruct (cache_insert_room s l i blk d (ok_rep _ _ _ _ Hok) Hf Hlt) as (c' & Hi & Hc & Hcs).
    destruct (add_ok off valid s l i blk d b c') as [H1 H2]; [done..|].
    exists (with_cache c' s). eauto 10 using frame_with_cache.
  - destruct l as [|e l' _] using rev_ind; [cbn in Hge; lia|]. rewrite removelast_last.
    destruct (ok_entries _ _ _ _ Hok e) as (Hve & be & Hbe & _); [set_solver|].
    destruct (cache_insert_full s l' e i blk d be (ok_rep _ _ _ _ Hok) Hf) as (c1 & c' & Hi & Hc1 & Hc' & Hcs);
      [lia|done|].
    destruct (free_ok off valid s (l' ++ [e]) l' e be c1) as [Hok1 Hview1]; [done|done| |done|done|].
    { rewrite Permutation_app_comm. done. }
    assert (Hbne : blk <> eptr e) by set_solver.
    assert (Hne : Lru.key e <> i).
    { intros <-. by rewrite (find_elem _ _ e (store_ok_keys _ _ _ _ Hok)) in Hf by set_solver. }
    set (s1 := mk_store (if e.2 then write_back be (st_disk s) else st_disk s)
                 (delete (eptr e) (st_mem s)) (st_next s) c1) in *.
    assert (Hb1 : st_mem s1 !! blk = Some b) by (cbn; by rewrite lookup_delete_ne).
    destruct (add_ok off valid s1 l' i blk d b c') as [H1 H2]; [done| |done|done| |done|done| |done|].
    + destruct (Lru.find i l') as [e'|] eqn:Hf'; [|done]. apply find_key in Hf' as [He' <-].
      by rewrite (find_elem _ _ e' (store_ok_keys _ _ _ _ Hok)) in Hf by set_solver.
    + rewrite fmap_app in Hp. set_solver.
    + intros Hd. rewrite <- (Hcl Hd). cbn.
      destruct (ok_entries _ _ _ _ Hok e) as (_ & be' & Hbe' & Hoe & Hle & _); [set_solver|].
      rewrite Hbe in Hbe'. injection Hbe' as <-. destruct (e.2); [|done].
      destruct (write_back_ok off valid be (st_disk s) _ Hoff Hve Hoe Hle (ok_disk _ _ _ _ Hok)) as (_ & _ & Ho').
      apply Ho'; [done|]. auto.
    + exists (with_cache c' s1). split; [exact Hi|]. split; [done|]. split; [done|].
      split; [exact (frame_free s (eptr e) be c' e.2 Hcs)|]. intros j Hj. rewrite H2. destruct (j =? i); [done|]. by apply Hview1.
Qed.

Lemma cache_remove_ok off valid s l i :
  offsets_ok off valid -> store_ok off valid l s ->
  exists s', cache_remove i s = Ret tt s' /\ store_ok off valid (Lru.drop i l) s' /\ store_frame s s'
    /\ (forall p, eptr <$> Lru.find i l = Some p -> st_mem s' !! p = None)
    /\ (valid i -> block_at (st_disk s') (off i) = view off s i)
    /\ forall j, valid j -> view off s' j = view off s j.
Proof.
  intros Hoff Hok. pose proof (cache_remove_spec s l i (ok_rep _ _ _ _ Hok)) as H.
  pose proof (store_ok_keys _ _ _ _ Hok) as Hkeys.
  destruct (Lru.find i l) as [e|] eqn:Hf.
  - destruct (find_key _ _ _ Hf) as [He <-].
    destruct (ok_entries _ _ _ _ Hok e He) as (_ & b & Hb & _).
    destruct (H b Hb) as (c' & Hrm & Hc & Hcs).
    destruct (free_ok off valid s l (Lru.drop (Lru.key e) l) e b c') as [Hok' Hv]; [done|done| |done|done|].
    { by apply perm_drop. }
    eexists. split; [exact Hrm|]. split; [done|]. split; [exact (frame_free s (eptr e) b c' e.2 Hcs)|]. split.
    { intros p Hp. injection Hp as <-. apply lookup_delete_eq. }
    split; [|done]. intros Hvi. rewrite <- Hv by done. rewrite (view_find _ _ _ _ _ Hok').
    replace (Lru.find (Lru.key e) (Lru.drop (Lru.key e) l)) with (@None (Z * positive * bool)); [done|].
    symmetry. destruct (Lru.find (Lru.key e) (Lru.drop (Lru.key e) l)) eqn:E; [|done].
    apply find_key in E as [Hin Hk]. by apply elem_of_drop in Hin as [_ ?].
  - exists s. assert (Hdrop : Lru.drop i l = l).
    { clear -Hf. induction l as [|e l IH]; [done|]. rewrite lru_drop_cons. rewrite lru_find_cons in Hf.
      destruct (Lru.key e =? i); [done|]. f_equal. by apply IH. }
    rewrite Hdrop. split; [done|]. split; [done|]. split; [done|]. split; [done|]. split; [|done].
    intros _. rewrite (view_find _ _ _ _ _ Hok), Hf. done.
Qed.

Lemma cache_modify_ok off valid s l i :
  store_ok off valid l s ->
  exists s', cache_modify i s = Ret tt s' /\ store_ok off valid (Lru.mark i true l) s'
    /\ st_mem s' = st_mem s /\ st_disk s' = st_disk s /\ store_frame s s'
    /\ forall j, valid j -> view off s' j = view off s j.
Proof.
  intros Hok. destruct (cache_modify_spec s l i (ok_rep _ _ _ _ Hok)) as (c' & Hm & Hc & Hcs).
  destruct (mark_ok off valid s l i true c' (st_disk s)) as [H1 H2]; [done|done|apply Hok|done..|].
  exists (with_cache c' s). eauto 10 using frame_with_cache.
Qed.

(** C27. A lookup in the block cache refines a lookup in the list of entries:
    on a hit it returns the block, makes it the most recently used one and
    adds to its dirty flag; it never changes what a block holds. *)
Theorem cache_get_coherent off valid s l i d :
  store_ok off valid l s ->
  exists s', cache_get i d s = Ret (eptr <$> Lru.find i l) s'
    /\ store_ok off valid (Lru.touch i d l) s'
    /\ store_frame s s' /\ (forall j, view off s' j = view off s j)
    /\ (forall p b, eptr <$> Lru.find i l = Some p -> st_mem s !! p = Some b -> data_ b = view off s i).
Proof. apply cache_get_ok. Qed.

(** C26. Inserting a block that the cache does not hold makes it the most
    recently used entry, evicts the least recently used one exactly when the
    cache is full, and changes what no other block holds: a dirty victim is
    written to its place on disk before its memory is freed. *)
Theorem cache_insert_coherent off valid s l i blk d b :
  offsets_ok off valid -> store_ok off valid l s -> Lru.find i l = None -> valid i ->
  0 < size_ (st_cache s) ->
  st_mem s !! blk = Some b -> blk ∉ eptr <$> l -> offset_ b = off i ->
  length (data_ b) = Z.to_nat BLOCK_SIZE ->
  (d = false -> block_at (st_disk s) (off i) = data_ b) ->
  exists s', cache_insert i blk d s = Ret tt s'
    /\ store_ok off valid
         ((i, blk, d) :: if Z.of_nat (length l) <? size_ (st_cache s) then l else removelast l) s'
    /\ st_mem s' !! blk = Some b /\ store_frame s s'
    /\ forall j, valid j -> view off s' j = if j =? i then data_ b else view off s j.
Proof. apply cache_insert_ok. Qed.

(** Removing a block from the cache frees it, writes it to disk if it was
    dirty and changes what no block holds. *)
Theorem cache_remove_coherent off valid s l i :
  offsets_ok off valid -> store_ok off valid l s ->
  exists s', cache_remove i s = Ret tt s' /\ store_ok off valid (Lru.drop i l) s' /\ store_frame s s'
    /\ (forall p, eptr <$> Lru.find i l = Some p -> st_mem s' !! p = None)
    /\ (valid i -> block_at (st_disk s') (off i) = view off s i)
    /\ forall j, valid j -> view off s' j = view off s j.
Proof. apply cache_remove_ok. Qed.

(** [modify] sets the dirty flag of a cached block and nothing else. *)
Theorem cache_modify_coherent off valid s l i :
  store_ok off valid l s ->
  exists s', cache_modify i s = Ret tt s' /\ store_ok off valid (Lru.mark i true l) s'
    /\ st_mem s' = st_mem s /\ st_disk s' = st_disk s /\ store_frame s s'
    /\ forall j, valid j -> view off s' j = view off s j.
Proof. apply cache_modify_ok. Qed.

Lemma cache_flush_ok off valid s l :
  offsets_ok off valid -> store_ok off valid l s ->
  exists s' l', cache_flush s = Ret tt s' /\ store_ok off valid l' s'
    /\ (forall e, e ∈ l' -> e.2 = false)
    /\ forall j, valid j -> block_at (st_disk s') (off j) = view off s j /\ view off s' j = view off s j.
Proof.
  intros Hoff Hok. set (kvs := map_to_list (map_ (st_cache s))).
  destruct (flush_nodes_ok off valid kvs s l Hoff Hok) as (s' & Hf & Hok' & Hv & _).
  { intros [k p] Hin. by apply elem_of_map_to_list in Hin. }
  assert (Hcl : forall e, e ∈ Lru.clean kvs.*1 l -> e.2 = false).
  { intros e He. destruct (elem_of_clean _ _ _ He) as (e0 & He0 & _ & Hc). apply Hc. left.
    destruct (ok_rep _ _ _ _ Hok) as (ps & Hr & ->).
    apply list_elem_of_fmap in He0 as (x & -> & Hx). apply list_elem_of_fmap.
    exists (ikey x, x.1). split; [done|]. apply elem_of_map_to_list. by eapply rep_lookup_Some. }
  exists s', (Lru.clean kvs.*1 l). split; [exact Hf|]. split; [done|]. split; [done|].
  intros j Hj. split; [|by apply Hv]. rewrite <- Hv by done. rewrite (view_find _ _ _ _ _ Hok').
  destruct (Lru.find j _) as [e|] eqn:Hfj; [|done]. apply find_key in Hfj as [He <-]. cbn.
  destruct (ok_entries _ _ _ _ Hok' e He) as (_ & b & Hb & _ & _ & Hc). rewrite Hb. apply Hc, Hcl, He.
Qed.

(** C28. After [flush] every block on disk is what its clients see, and no
    entry of the cache is dirty. *)
Theorem cache_flush_persists off valid s l :
  offsets_ok off valid -> store_ok off valid l s ->
  exists s' l', cache_flush s = Ret tt s' /\ store_ok off valid l' s'
    /\ (forall e, e ∈ l' -> e.2 = false)
    /\ forall j, valid j -> block_at (st_disk s') (off j) = view off s j /\ view off s' j = view off s j.
Proof. apply cache_flush_ok. Qed.

(** Writing back keeps the blocks in memory and never makes the disk smaller. *)
Definition written_back (s s' : Store) : Prop :=
  st_mem s' = st_mem s /\ st_next s' = st_next s /\ size_ (st_cache s') = size_ (st_cache s)
  /\ disk_size (st_disk s) <= disk_size (st_disk s').

Lemma flush_node_back p s s' : flush_node p s = Ret tt s' -> written_back s s'.
Proof.
  unfold flush_node. intros H. minv H as n s1 H1. unfold get_node in H1.
  destruct (nodes_ (st_cache s) !! p); [|done]. injection H1 as -> <-.
  destruct (dirty_ n); [|injection H as <-; do 3 (split; [done|]); lia]. minv H as z s2 H2.
  unfold block_flush in H2. minv H2 as b s3 H3. unfold block_deref in H3.
  destruct (st_mem s !! block_ n); [|done]. injection H3 as -> <-.
  destruct (Block_flush_total b (st_disk s)) as [z' Hz]. unfold on_store_disk, zoom in H2. rewrite Hz in H2.
  injection H2 as _ <-. unfold upd_node in H. destruct (nodes_ _ !! p); [|done]. injection H as <-.
  do 3 (split; [done|]). apply write_back_size.
Qed.

Lemma flush_nodes_back ns : forall s s', flush_nodes ns s = Ret tt s' -> written_back s s'.
Proof.
  induction ns as [|n ns IH]; intros s s' H; cbn [flush_nodes] in H; [injection H as <-; do 3 (split; [done|]); lia|].
  minv H as u s1 H1. destruct u. apply flush_node_back in H1 as (E1 & E2 & E3 & E4). apply IH in H as (F1 & F2 & F3 & F4).
  unfold written_back. rewrite F1, F2, F3. do 3 (split; [done|]). lia.
Qed.

Lemma cache_flush_size s s' : cache_flush s = Ret tt s' -> disk_size (st_disk s) <= disk_size (st_disk s').
Proof. apply flush_nodes_back. Qed.

Lemma filter_map_snd (f : Z -> option Z) (kvs : list (Z * Z)) i :
  (forall kv, kv ∈ kvs -> f kv.2 = Some kv.1) ->
  filter (fun p => f p = Some i) (map snd kvs) = (filter (fun kv => kv.1 = i) kvs).*2.
Proof.
  intros H. induction kvs as [|kv kvs IH]; [done|]. cbn [map].
  assert (Hkv : f kv.2 = Some kv.1) by (apply H; constructor).
  destruct (decide (kv.1 = i)) as [E|E].
  - rewrite filter_cons_True by by rewrite Hkv, E. rewrite filter_cons_True by done. cbn [fmap list_fmap].
    f_equal. apply IH. intros kv' Hin. apply H. by constructor.
  - rewrite filter_cons_False by (rewrite Hkv; congruence). rewrite filter_cons_False by done.
    apply IH. intros kv' Hin. apply H. by constructor.
Qed.

Lemma cache_flush_index_ok off valid s l i :
  offsets_ok off valid -> store_ok off valid l s ->
  exists s' l', cache_flush_index i s = Ret tt s' /\ store_ok off valid l' s'
    /\ (forall e, e ∈ l' -> exists e0, e0 ∈ l /\ Lru.key e0 = Lru.key e)
    /\ (valid i -> block_at (st_disk s') (off i) = view off s i)
    /\ (forall j, valid j -> j <> i -> block_at (st_disk s') (off j) = block_at (st_disk s) (off j))
    /\ forall j, valid j -> view off s' j = view off s j.
Proof.
  intros Hoff Hok. pose proof (store_ok_keys _ _ _ _ Hok) as Hkeys.
  pose proof (ok_rep _ _ _ _ Hok) as Hc. destruct Hc as (ps & Hr & Hl).
  set (kvs := filter (fun kv => kv.1 = i) (map_to_list (map_ (st_cache s)))).
  assert (Hmap : forall kv, kv ∈ kvs -> kv.1 = i /\ map_ (st_cache s) !! kv.1 = Some kv.2).
  { intros [k p] Hin. apply list_elem_of_filter in Hin as [Hk Hin]. by apply elem_of_map_to_list in Hin. }
  destruct (flush_nodes_ok off valid kvs s l Hoff Hok) as (s' & Hf & Hok' & Hv & Hd).
  { intros kv Hin. by apply Hmap. }
  exists s', (Lru.clean kvs.*1 l). split; [|split; [done|split; [|split; [|split; [|done]]]]].
  - unfold cache_flush_index. rewrite (bind_ret _ _ _ (st_cache s) s) by done. rewrite <- Hf. f_equal.
    unfold kvs. assert (Hin : forall kv, kv ∈ map_to_list (map_ (st_cache s)) ->
      (index_ <$> nodes_ (st_cache s) !! kv.2) = Some kv.1).
    { intros [k p] Hin. apply elem_of_map_to_list in Hin. destruct (rep_lookup_inv _ _ _ _ Hr Hin) as (e & He & <- & <-).
      destruct (payload_node _ _ e Hr He) as (n & Hn & Hpe). cbn. rewrite Hn. cbn. unfold ikey. by rewrite <- Hpe. }
    by apply filter_map_snd.
  - intros e He. destruct (elem_of_clean _ _ _ He) as (e0 & He0 & Heq & _). exists e0. split; [done|]. unfold Lru.key. by rewrite Heq.
  - intros Hvi. rewrite <- Hv by done. rewrite (view_find _ _ _ _ _ Hok').
    destruct (Lru.find i _) as [e|] eqn:Hfj; [|done]. apply find_key in Hfj as [He <-]. cbn.
    destruct (ok_entries _ _ _ _ Hok' e He) as (_ & b & Hb & _ & _ & Hc). rewrite Hb. apply Hc.
    destruct (elem_of_clean _ _ _ He) as (e0 & He0 & Heq & Hcl). apply Hcl. left.
    assert (Hk0 : Lru.key e0 = Lru.key e) by (unfold Lru.key; by rewrite Heq). rewrite Hk0.
    rewrite Hl in He0. apply list_elem_of_fmap in He0 as (x & -> & Hx).
    apply list_elem_of_fmap. exists (ikey x, x.1). split; [done|].
    apply list_elem_of_filter. split; [done|]. apply elem_of_map_to_list. by eapply rep_lookup_Some.
  - intros j Hj Hne. apply Hd; [done|]. intros Hin. apply list_elem_of_fmap in Hin as (kv & -> & Hin).
    by apply Hmap in Hin as [? _].
Qed.

(** [flush(inode_index)] selects by block index: it writes back the block
    whose index equals the number passed and no other one, so that a caller
    that passes an inode number does not persist the inode's blocks. *)
Theorem cache_flush_index_selects off valid s l i :
  offsets_ok off valid -> store_ok off valid l s ->
  exists s', cache_flush_index i s = Ret tt s'
    /\ (valid i -> block_at (st_disk s') (off i) = view off s i)
    /\ (forall j, valid j -> j <> i -> block_at (st_disk s') (off j) = block_at (st_disk s) (off j))
    /\ forall j, valid j -> view off s' j = view off s j.
Proof.
  intros Hoff Hok. destruct (cache_flush_index_ok off valid s l i Hoff Hok) as (s' & _ & H & _ & _ & H'). by exists s'.
Qed.

(** ** Instances of the properties *)

(** A disk of four blocks, and a cache of two entries that holds block 1,
    modified, while block 2 is in memory but not cached. *)
Definition sample_off (i : Z) : Z := i * BLOCK_SIZE.

Definition sample_valid (i : Z) : Prop := 0 <= i < 4.

Definition sample_block (i : Z) (x : byte) : Block := mk_block (sample_off i) (replicate 4096 x).

Definition sample_store0 : Store :=
  mk_store (disk_empty (4 * BLOCK_SIZE))
    (<[1%positive := sample_block 1 Byte.x07]> (<[2%positive := sample_block 2 Byte.x00]> ∅))
    3 (BlockCache_init 1).

Definition sample_store : Store :=
  match cache_insert 1 1 true sample_store0 with
  | Ret _ s => s
  | Fault _ => sample_store0
  end.

Definition sample_lru : Lru.t := [(1, 1%positive, true)].

Lemma sample_offsets : offsets_ok sample_off sample_valid.
Proof.
  constructor; unfold sample_valid, sample_off, BLOCK_SIZE.
  - intros i Hi. unfold aligned, DISK_ALIGN. apply Z.eqb_eq. Z.div_mod_to_equations. lia.
  - lia.
  - intros i Hi. rewrite i32_small; lia.
  - lia.
Qed.

Lemma sample_store_ok : store_ok sample_off sample_valid sample_lru sample_store.
Proof.
  destruct (cache_insert_ok sample_off sample_valid sample_store0 [] 1 1 true (sample_block 1 Byte.x07))
    as (s' & Hs & Hok & _).
  - apply sample_offsets.
  - constructor; [|constructor|set_solver|apply map_Forall_empty].
    exists []. split; [by apply BlockCache_init_rep|done].
  - done.
  - by unfold sample_valid.
  - done.
  - done.
  - set_solver.
  - done.
  - by vm_compute.
  - done.
  - unfold sample_store. rewrite Hs. exact Hok.
Qed.

Lemma cache_get_coherent_witness :
  exists s', cache_get 1 false sample_store = Ret (Some 1%positive) s'
    /\ store_ok sample_off sample_valid sample_lru s'.
Proof.
  destruct (cache_get_coherent sample_off sample_valid sample_store sample_lru 1 false sample_store_ok)
    as (s' & H1 & H2 & _).
  exists s'. split; [exact H1|exact H2].
Defined.

(** The cache has room for one block: the dirty block 1 is evicted, and block 1
    is still seen with its bytes. *)
Lemma cache_insert_coherent_witness :
  exists s', cache_insert 2 2 false sample_store = Ret tt s'
    /\ store_ok sample_off sample_valid [(2, 2%positive, false)] s'
    /\ view sample_off s' 1 = view sample_off sample_store 1.
Proof.
  destruct (cache_insert_coherent sample_off sample_valid sample_store sample_lru 2 2 false
              (sample_block 2 Byte.x00)) as (s' & H1 & H2 & _ & _ & Hv).
  - apply sample_offsets.
  - apply sample_store_ok.
  - done.
  - by unfold sample_valid.
  - by vm_compute.
  - by vm_compute.
  - intros H. apply list_elem_of_singleton in H. done.
  - done.
  - by vm_compute.
  - intros _. by vm_compute.
  - exists s'. split; [exact H1|]. split; [exact H2|]. specialize (Hv 1 ltac:(by split)).
    change (1 =? 2) with false in Hv. cbv iota in Hv. exact Hv.
Defined.

Lemma cache_remove_coherent_witness :
  exists s', cache_remove 1 sample_store = Ret tt s' /\ store_ok sample_off sample_valid [] s'
    /\ block_at (st_disk s') BLOCK_SIZE = replicate 4096 Byte.x07.
Proof.
  destruct (cache_remove_coherent sample_off sample_valid sample_store sample_lru 1
              sample_offsets sample_store_ok) as (s' & H1 & H2 & _ & _ & H3 & _).
  exists s'. split; [exact H1|]. split; [exact H2|].
  transitivity (view sample_off sample_store 1); [apply H3; by unfold sample_valid|by vm_compute].
Defined.

Lemma cache_modify_coherent_witness :
  exists s', cache_modify 1 sample_store = Ret tt s' /\ store_ok sample_off sample_valid sample_lru s'.
Proof.
  destruct (cache_modify_coherent sample_off sample_valid sample_store sample_lru 1 sample_store_ok)
    as (s' & H1 & H2 & _).
  exists s'. split; [exact H1|exact H2].
Defined.

Lemma cache_flush_persists_witness :
  exists s', cache_flush sample_store = Ret tt s'
    /\ block_at (st_disk s') BLOCK_SIZE = replicate 4096 Byte.x07.
Proof.
  destruct (cache_flush_persists sample_off sample_valid sample_store sample_lru
              sample_offsets sample_store_ok) as (s' & l' & H1 & _ & _ & H2).
  exists s'. split; [exact H1|].
  transitivity (view sample_off sample_store 1); [apply (H2 1); by unfold sample_valid|by vm_compute].
Defined.

Lemma cache_flush_index_selects_witness :
  exists s', cache_flush_index 0 sample_store = Ret tt s'
    /\ block_at (st_disk s') BLOCK_SIZE = zeros BLOCK_SIZE.
Proof.
  destruct (cache_flush_index_selects sample_off sample_valid sample_store sample_lru 0
              sample_offsets sample_store_ok) as (s' & H1 & _ & H2 & _).
  exists s'. split; [exact H1|].
  transitivity (block_at (st_disk sample_store) BLOCK_SIZE);
    [apply (H2 1); [by unfold sample_valid|done]|by vm_compute].
Defined.
