(* ===== verification/DentryCache.v ===== *)
(** * The directory cache: class DentryCache of include/cache.h, src/cache.cpp

    A tree of names: every node has a ring of children, of which [childs_]
    points to the one used last.  The nodes are heap objects linked by
    pointers; [free] removes a node from the heap, so that a dangling pointer
    faults when it is followed. *)

From S2P Require Import Prelude Layout.

(** ** struct Node and class DentryCache *)

Record DNode : Type := mk_dnode {
  d_inode : Z;
  d_name_len : Z;
  d_name : list byte;
  d_childs : option positive;
  d_next : option positive
}.

Record DentryCache : Type := mk_dcache {
  d_nodes : gmap positive DNode;
  d_fresh : positive;
  root_ : positive;
  d_size : Z;
  d_max_size : Z
}.

Definition with_childs (c : option positive) (n : DNode) : DNode :=
  mk_dnode (d_inode n) (d_name_len n) (d_name n) c (d_next n).

Definition with_dnext (x : option positive) (n : DNode) : DNode :=
  mk_dnode (d_inode n) (d_name_len n) (d_name n) (d_childs n) x.

Definition with_dinode (i : Z) (n : DNode) : DNode :=
  mk_dnode i (d_name_len n) (d_name n) (d_childs n) (d_next n).

(** ** Access to the heap *)

Definition dn_get (p : positive) : M DentryCache DNode := fun c =>
  match d_nodes c !! p with
  | Some n => Ret n c
  | None => Fault UseAfterFree
  end.

Definition with_dnodes (m : gmap positive DNode) (c : DentryCache) : DentryCache :=
  mk_dcache m (d_fresh c) (root_ c) (d_size c) (d_max_size c).

Definition dn_upd (p : positive) (f : DNode -> DNode) : M DentryCache unit := fun c =>
  match d_nodes c !! p with
  | Some n => Ret tt (with_dnodes (<[p := f n]> (d_nodes c)) c)
  | None => Fault UseAfterFree
  end.

Definition dn_free (p : positive) : M DentryCache unit := fun c =>
  match d_nodes c !! p with
  | Some _ => Ret tt (with_dnodes (delete p (d_nodes c)) c)
  | None => Fault UseAfterFree
  end.

(** [strncmp(a, b, n) == 0] *)
Fixpoint strncmp_eq (n : nat) (a b : list byte) : bool :=
  match n with
  | O => true
  | S n' =>
      let x := default Byte.x00 (head a) in
      let y := default Byte.x00 (head b) in
      bool_decide (x = y) && (bool_decide (x = Byte.x00) || strncmp_eq n' (tail a) (tail b))
  end.

(** [strncpy(dst, src, n)]: the characters up to the terminator, padded. *)
Fixpoint strncpy_bytes (n : nat) (src : list byte) : list byte :=
  match n with
  | O => []
  | S n' =>
      match src with
      | [] => replicate n Byte.x00
      | x :: src' =>
          if bool_decide (x = Byte.x00) then replicate n Byte.x00
          else x :: strncpy_bytes n' src'
      end
  end.

(** ** Operations *)

(** [void alloc_new_node(Node** node, const char* name, size_t name_len)]; a
    name and its length are the list of its bytes. *)
Definition alloc_new_node (name : list byte) : M DentryCache positive := fun c =>
  let name_len := Z.of_nat (length name) in
  if name_len + 1 <=? EXT2_NAME_LEN then
    let p := d_fresh c in
    Ret p (mk_dcache
             (<[p := mk_dnode 0 (u8 name_len) (strncpy_bytes (length name) name) None None]> (d_nodes c))
             (Pos.succ p) (root_ c) (d_size c) (d_max_size c))
  else Fault AssertFail.

(** [DentryCache(size_t size)] *)
Definition DentryCache_init (size : Z) : outcome DentryCache positive :=
  (p ← alloc_new_node [Byte.x2f];
   _ ← dn_upd p (with_dinode ROOT_INODE);
   _ ← modify_st (fun c => mk_dcache (d_nodes c) (d_fresh c) p (d_size c) (d_max_size c));
   mret p) (mk_dcache ∅ 1%positive 1%positive 1 size).

(** [if (parent == nullptr) parent = root_;] *)
Definition or_root (parent : option positive) : M DentryCache positive :=
  match parent with
  | Some p => mret p
  | None => reads root_
  end.

(** [Node* insert(Node* parent, const char* name, size_t name_len, uint32_t inode)] *)
Definition dc_insert (parent : option positive) (name : list byte) (inode : Z)
  : M DentryCache positive :=
  parent ← or_root parent;
  new_node ← alloc_new_node name;
  _ ← dn_upd new_node (with_dinode inode);
  pn ← dn_get parent;
  match d_childs pn with
  | None =>
      _ ← dn_upd new_node (with_dnext (Some new_node));
      _ ← dn_upd parent (with_childs (Some new_node));
      mret new_node
  | Some c =>
      cn ← dn_get c;
      _ ← dn_upd new_node (with_dnext (d_next cn));
      _ ← dn_upd c (with_dnext (Some new_node));
      _ ← dn_upd parent (with_childs (Some new_node));
      mret new_node
  end.

(** [ptr->name_len_ == name_len && strncmp(ptr->name_, name, name_len) == 0] *)
Definition name_match (n : DNode) (name : list byte) : bool :=
  (d_name_len n =? Z.of_nat (length name)) && strncmp_eq (length name) (d_name n) name.

(** The loops visit a ring once; the number of nodes bounds its length. *)
Definition ring_fuel (c : DentryCache) : nat := S (size (d_nodes c)).

(** The [do ... while (ptr != parent->childs_)] of [lookup]. *)
Fixpoint lookup_loop (fuel : nat) (parent : positive) (name : list byte) (ptr : positive)
  : M DentryCache (option positive) :=
  match fuel with
  | O => fail OutOfFuel
  | S fuel' =>
      n ← dn_get ptr;
      if name_match n name then
        _ ← dn_upd parent (with_childs (Some ptr));
        mret (Some ptr)
      else
        pn ← dn_get parent;
        if bool_decide (d_next n = d_childs pn) then mret None
        else
          next ← unwrap NullDeref (d_next n);
          lookup_loop fuel' parent name next
  end.

(** [Node* lookup(Node* parent, const char* name, size_t name_len)] *)
Definition dc_lookup (parent : option positive) (name : list byte)
  : M DentryCache (option positive) :=
  parent ← or_root parent;
  if bool_decide (name = []) then mret None
  else
    pn ← dn_get parent;
    match d_childs pn with
    | None => mret None
    | Some c =>
        fuel ← reads ring_fuel;
        lookup_loop fuel parent name c
    end.

(** The [do ... while (ptr != parent->childs_)] of [release_node], with the
    recursive call [rel]. *)
Fixpoint release_loop (rel : positive -> M DentryCache unit) (k : nat) (parent ptr : positive) : M DentryCache unit :=
  match k with
  | O => fail OutOfFuel
  | S k' =>
      n ← dn_get ptr;
      _ ← rel ptr;
      _ ← dn_free ptr;
      pn ← dn_get parent;
      if bool_decide (d_next n = d_childs pn) then mret tt
      else
        next ← unwrap NullDeref (d_next n);
        release_loop rel k' parent next
  end.

(** [void release_node(Node* parent)]: frees the subtrees of the children. *)
Fixpoint release_node (fuel : nat) (parent : option positive) : M DentryCache unit :=
  match fuel with
  | O => fail OutOfFuel
  | S fuel' =>
      match parent with
      | None => mret tt
      | Some p =>
          pn ← dn_get p;
          match d_childs pn with
          | None => mret tt
          | Some c => release_loop (fun q => release_node fuel' (Some q)) fuel p c
          end
      end
  end.

(** The [do ... while (ptr != parent->childs_->next_)] of [remove]. *)
Fixpoint remove_loop (fuel : nat) (parent : positive) (name : list byte) (prev ptr : positive)
  : M DentryCache unit :=
  match fuel with
  | O => fail OutOfFuel
  | S fuel' =>
      n ← dn_get ptr;
      if name_match n name then
        _ ← dn_upd parent
              (with_childs (if bool_decide (d_next n = Some ptr) then None else d_next n));
        _ ← dn_upd prev (with_dnext (d_next n));
        fl ← reads ring_fuel;
        _ ← release_node fl (Some ptr);
        dn_free ptr
      else
        pn ← dn_get parent;
        c ← unwrap NullDeref (d_childs pn);
        cn ← dn_get c;
        if bool_decide (d_next n = d_next cn) then mret tt
        else
          next ← unwrap NullDeref (d_next n);
          remove_loop fuel' parent name ptr next
  end.

(** [void remove(Node* parent, const char* name, size_t name_len)] *)
Definition dc_remove (parent : option positive) (name : list byte) : M DentryCache unit :=
  parent ← or_root parent;
  pn ← dn_get parent;
  match d_childs pn with
  | None => mret tt
  | Some c =>
      cn ← dn_get c;
      first ← unwrap NullDeref (d_next cn);
      fuel ← reads ring_fuel;
      remove_loop fuel parent name first first
  end.

(** ** Rings of children *)

Definition dnx (m : gmap positive DNode) (p : positive) : option positive := m !! p ≫= d_next.

(** [a], then [xs], then [z], by [next_] pointers. *)
Fixpoint chain (nx : positive -> option positive) (a : positive) (xs : list positive) (z : positive) : Prop :=
  match xs with
  | [] => nx a = Some z
  | b :: xs' => nx a = Some b /\ chain nx b xs' z
  end.

(** The children of [p], starting with the one [childs_] points to: a ring of
    live nodes, none of them twice, [p] not among them. *)
Definition children (m : gmap positive DNode) (p : positive) (cs : list positive) : Prop :=
  exists pn, m !! p = Some pn /\ NoDup (p :: cs) /\ (forall q, q ∈ cs -> is_Some (m !! q))
    /\ match cs with
       | [] => d_childs pn = None
       | c :: cs' => d_childs pn = Some c /\ chain (dnx m) c cs' c
       end.

(** The first child with the given name. *)
Definition find_child (m : gmap positive DNode) (name : list byte) (cs : list positive) : option positive :=
  List.find (fun q => match m !! q with Some n => name_match n name | None => false end) cs.

Lemma dn_get_eq p c n : d_nodes c !! p = Some n -> dn_get p c = Ret n c.
Proof. intros H. unfold dn_get. by rewrite H. Qed.

Lemma dn_upd_eq p f c n :
  d_nodes c !! p = Some n -> dn_upd p f c = Ret tt (with_dnodes (<[p := f n]> (d_nodes c)) c).
Proof. intros H. unfold dn_upd. by rewrite H. Qed.

Lemma dn_free_eq p c n :
  d_nodes c !! p = Some n -> dn_free p c = Ret tt (with_dnodes (delete p (d_nodes c)) c).
Proof. intros H. unfold dn_free. by rewrite H. Qed.

Lemma chain_ext nx nx' a xs z :
  (forall q, q ∈ a :: xs -> nx' q = nx q) -> chain nx a xs z -> chain nx' a xs z.
Proof.
  revert a. induction xs as [|b xs IH]; intros a H; cbn; [by rewrite H by set_solver|].
  intros [H1 H2]. split; [by rewrite H by set_solver|]. apply IH; [set_solver|done].
Qed.

Lemma chain_app nx a xs b ys z :
  chain nx a (xs ++ b :: ys) z <-> chain nx a xs b /\ chain nx b ys z.
Proof.
  revert a. induction xs as [|x xs IH]; intros a; cbn; [done|]. rewrite IH. tauto.
Qed.

(** No more nodes than the heap has. *)
Lemma live_length (m : gmap positive DNode) l : NoDup l -> (forall q, q ∈ l -> is_Some (m !! q)) -> (length l <= size m)%nat.
Proof.
  intros Hnd Hdom. assert (Hsub : list_to_set l ⊆@{gset positive} dom m).
  { intros q Hq. apply elem_of_list_to_set in Hq. apply elem_of_dom. by apply Hdom. }
  apply subseteq_size in Hsub. rewrite size_list_to_set in Hsub by done. by rewrite size_dom in Hsub.
Qed.

(** Children are nodes of the heap: the fuel of the loops is enough. *)
Lemma children_length m p cs : children m p cs -> (length cs < S (size m))%nat.
Proof. intros (pn & _ & Hnd & Hdom & _). apply NoDup_cons in Hnd as [_ Hnd]. pose proof (live_length m cs Hnd Hdom). lia. Qed.

Lemma lookup_loop_spec fuel c p pn name c0 ptr xs :
  (length xs < fuel)%nat -> d_nodes c !! p = Some pn -> d_childs pn = Some c0 ->
  chain (dnx (d_nodes c)) ptr xs c0 -> (forall q, q ∈ ptr :: xs -> is_Some (d_nodes c !! q)) -> c0 ∉ xs ->
  lookup_loop fuel p name ptr c
  = match find_child (d_nodes c) name (ptr :: xs) with
    | Some q => Ret (Some q) (with_dnodes (<[p := with_childs (Some q) pn]> (d_nodes c)) c)
    | None => Ret None c
    end.
Proof.
  intros Hfuel Hp Hc. revert ptr xs Hfuel. induction fuel as [|fuel IH]; intros ptr xs Hfuel Hch Hdom Hnot; [lia|].
  destruct (Hdom ptr) as [n Hn]; [set_solver|]. cbn [lookup_loop].
  unfold find_child. cbn [List.find]. rewrite Hn. mstep (dn_get_eq _ _ _ Hn).
  destruct (name_match n name); [by mstep (dn_upd_eq p (with_childs (Some ptr)) _ _ Hp)|].
  mstep (dn_get_eq _ _ _ Hp). rewrite Hc. destruct xs as [|x xs]; cbn [chain] in Hch.
  - unfold dnx in Hch. rewrite Hn in Hch. cbn in Hch. rewrite Hch, bool_decide_true by done. done.
  - destruct Hch as [Hx Hch]. unfold dnx in Hx. rewrite Hn in Hx. cbn in Hx. rewrite Hx.
    rewrite bool_decide_false by (intros [= ->]; set_solver).
    rewrite (bind_ret _ _ _ x c) by done. apply IH; [cbn in Hfuel; lia|done|set_solver|set_solver].
Qed.

(** Changing [childs_] of the parent leaves the [next_] pointers. *)
Lemma dnx_with_childs m p pn v q : m !! p = Some pn -> dnx (<[p := with_childs v pn]> m) q = dnx m q.
Proof. intros H. unfold dnx. destruct (decide (q = p)) as [->|]; simplify_map_eq; done. Qed.

Lemma children_rotate m p pn xs q ys :
  m !! p = Some pn -> children m p (xs ++ q :: ys) ->
  children (<[p := with_childs (Some q) pn]> m) p (q :: ys ++ xs).
Proof.
  intros Hp (pn' & Hp' & Hnd & Hdom & Hring). rewrite Hp in Hp'. injection Hp' as <-.
  exists (with_childs (Some q) pn). split; [apply lookup_insert_eq|].
  assert (Hperm : p :: xs ++ q :: ys ≡ₚ p :: q :: ys ++ xs).
  { f_equiv. rewrite <- Permutation_middle. f_equiv. apply Permutation_app_comm. }
  split; [by rewrite <- Hperm|]. split.
  - intros r Hr. destruct (decide (r = p)) as [->|]; [rewrite lookup_insert_eq; eauto|].
    rewrite lookup_insert_ne by done. apply Hdom. set_solver.
  - split; [done|]. apply (chain_ext (dnx m)); [intros r _; by apply dnx_with_childs|].
    destruct xs as [|x xs]; cbn [app] in Hring; [rewrite app_nil_r; by destruct Hring|].
    destruct Hring as [_ Hch]. rewrite chain_app in Hch. rewrite chain_app. tauto.
Qed.

Lemma find_child_split m name cs :
  match find_child m name cs with
  | Some q => exists xs ys n, cs = xs ++ q :: ys /\ m !! q = Some n /\ name_match n name = true
  | None => True
  end.
Proof.
  unfold find_child. induction cs as [|c cs IH]; cbn; [done|].
  destruct (m !! c) as [n|] eqn:E.
  - destruct (name_match n name) eqn:Hm; [by exists [], cs, n|].
    destruct (List.find _ cs); [|done]. destruct IH as (xs & ys & n' & -> & ? & ?). by exists (c :: xs), ys, n'.
  - destruct (List.find _ cs); [|done]. destruct IH as (xs & ys & n' & -> & ? & ?). by exists (c :: xs), ys, n'.
Qed.

Lemma dc_lookup_eq c p cs name :
  children (d_nodes c) p cs -> name <> [] ->
  exists pn, d_nodes c !! p = Some pn /\
    dc_lookup (Some p) name c
    = match find_child (d_nodes c) name cs with
      | Some q => Ret (Some q) (with_dnodes (<[p := with_childs (Some q) pn]> (d_nodes c)) c)
      | None => Ret None c
      end.
Proof.
  intros Hch Hne. pose proof (children_length _ _ _ Hch) as Hlen.
  destruct Hch as (pn & Hp & Hnd & Hdom & Hring). exists pn. split; [done|].
  unfold dc_lookup. rewrite (bind_ret _ _ _ p c) by done. rewrite bool_decide_false by done.
  mstep (dn_get_eq _ _ _ Hp). destruct cs as [|c0 cs].
  - rewrite Hring. done.
  - destruct Hring as [Hc Hch]. rewrite Hc. rewrite (bind_ret _ _ _ (ring_fuel c) c) by done.
    apply (lookup_loop_spec _ c p pn name c0 c0 cs); [|done..|].
    + unfold ring_fuel. cbn in Hlen. lia.
    + do 2 (apply NoDup_cons in Hnd as [? Hnd]). done.
Qed.

(** ** Names *)

Definition no_nul (l : list byte) : Prop := Forall (fun x => x <> Byte.x00) l.

Lemma strncpy_bytes_id l : no_nul l -> strncpy_bytes (length l) l = l.
Proof.
  induction 1 as [|x l Hx Hl IH]; cbn; [done|]. rewrite bool_decide_false by done. by rewrite IH.
Qed.

Lemma strncmp_eq_spec a b :
  no_nul a -> length a = length b -> strncmp_eq (length b) a b = bool_decide (a = b).
Proof.
  intros Ha. revert b. induction Ha as [|x a Hx Ha IH]; intros [|y b] Hl; cbn in *; try done.
  destruct (decide (x = y)) as [->|Hne].
  - rewrite (bool_decide_true (y = y)), (bool_decide_false (y = Byte.x00)) by done. cbn.
    rewrite IH by lia. apply bool_decide_ext. naive_solver.
  - rewrite (bool_decide_false (x = y)) by done. cbn. by rewrite bool_decide_false by naive_solver.
Qed.

(** A node made for [a] matches exactly the name [a]. *)
Lemma name_match_spec n a b :
  no_nul a -> Z.of_nat (length a) < EXT2_NAME_LEN -> d_name n = a -> d_name_len n = Z.of_nat (length a) ->
  name_match n b = bool_decide (a = b).
Proof.
  intros Ha Hl Hn Hln. unfold name_match. rewrite Hn, Hln.
  destruct (Z.eqb_spec (Z.of_nat (length a)) (Z.of_nat (length b))) as [E|E]; cbn.
  - apply strncmp_eq_spec; [done|lia].
  - symmetry. apply bool_decide_eq_false. intros ->. lia.
Qed.

(** ** insert *)

(** Every node is below the next fresh address. *)
Definition heap_ok (c : DentryCache) : Prop :=
  forall p, is_Some (d_nodes c !! p) -> (p < d_fresh c)%positive.

Definition new_node (name : list byte) (inode : Z) (next : option positive) : DNode :=
  mk_dnode inode (Z.of_nat (length name)) name None next.

(** The heap after [insert] of [name] under [p]. *)
Definition insert_nodes (m : gmap positive DNode) (p new : positive) (pn : DNode) (name : list byte) (inode : Z)
  : gmap positive DNode :=
  match d_childs pn with
  | None => <[p := with_childs (Some new) pn]> (<[new := new_node name inode (Some new)]> m)
  | Some c =>
      match m !! c with
      | Some cn =>
          <[p := with_childs (Some new) pn]>
            (<[c := with_dnext (Some new) cn]> (<[new := new_node name inode (d_next cn)]> m))
      | None => m
      end
  end.

Lemma dc_insert_eq c p pn cs name inode :
  children (d_nodes c) p cs -> d_nodes c !! p = Some pn -> heap_ok c ->
  no_nul name -> Z.of_nat (length name) + 1 <= EXT2_NAME_LEN ->
  dc_insert (Some p) name inode c
  = Ret (d_fresh c) (mk_dcache (insert_nodes (d_nodes c) p (d_fresh c) pn name inode)
                       (Pos.succ (d_fresh c)) (root_ c) (d_size c) (d_max_size c)).
Proof.
  intros (pn' & Hp' & Hnd & Hdom & Hring) Hp Hheap Hnul Hlen. rewrite Hp in Hp'. injection Hp' as <-.
  set (new := d_fresh c). set (m := d_nodes c) in *.
  assert (Hfresh : forall q, is_Some (m !! q) -> q <> new) by (intros q Hq ->; apply Hheap in Hq; unfold new in *; lia).
  assert (Hpn : p <> new) by (apply Hfresh; eauto).
  unfold dc_insert. rewrite (bind_ret _ _ _ p c) by done.
  set (m1 := <[new := mk_dnode 0 (Z.of_nat (length name)) name None None]> m).
  set (c1 := mk_dcache m1 (Pos.succ new) (root_ c) (d_size c) (d_max_size c)).
  rewrite (bind_ret _ _ _ new c1).
  2:{ unfold alloc_new_node. rewrite (proj2 (Z.leb_le _ _) Hlen).
      rewrite strncpy_bytes_id, u8_small by (done || (unfold EXT2_NAME_LEN in Hlen; lia)). done. }
  assert (H1 : d_nodes c1 !! new = Some (mk_dnode 0 (Z.of_nat (length name)) name None None))
    by apply lookup_insert_eq.
  mstep (dn_upd_eq new (with_dinode inode) c1 _ H1). cbn [c1 d_nodes]. unfold m1 at 1. rewrite insert_insert_eq.
  change (with_dinode inode _) with (new_node name inode None).
  set (m2 := <[new := new_node name inode None]> m). set (c2 := with_dnodes m2 c1).
  assert (H2p : d_nodes c2 !! p = Some pn) by (cbn; unfold m2; by rewrite lookup_insert_ne).
  mstep (dn_get_eq _ _ _ H2p). unfold insert_nodes. destruct cs as [|c0 cs].
  - rewrite Hring.
    assert (H2 : d_nodes c2 !! new = Some (new_node name inode None)) by apply lookup_insert_eq.
    mstep (dn_upd_eq new (with_dnext (Some new)) c2 _ H2). cbn [c2 with_dnodes d_nodes]. unfold m2 at 1.
    rewrite insert_insert_eq. set (m3 := <[new := _]> m). set (c3 := with_dnodes m3 c2).
    assert (H3p : d_nodes c3 !! p = Some pn) by (cbn; unfold m3; by rewrite lookup_insert_ne).
    mstep (dn_upd_eq p (with_childs (Some new)) c3 _ H3p). done.
  - destruct Hring as [Hc Hch]. rewrite Hc. destruct (Hdom c0) as [cn Hcn]; [set_solver|]. rewrite Hcn.
    assert (Hc0 : c0 <> new) by (apply Hfresh; eauto).
    assert (Hc0p : c0 <> p) by (apply NoDup_cons in Hnd as [? _]; set_solver).
    assert (H2c : d_nodes c2 !! c0 = Some cn) by (cbn; unfold m2; by rewrite lookup_insert_ne).
    mstep (dn_get_eq _ _ _ H2c).
    assert (H2 : d_nodes c2 !! new = Some (new_node name inode None)) by apply lookup_insert_eq.
    mstep (dn_upd_eq new (with_dnext (d_next cn)) c2 _ H2). cbn [c2 with_dnodes d_nodes]. unfold m2 at 1.
    rewrite insert_insert_eq. set (m3 := <[new := _]> m). set (c3 := with_dnodes m3 c2).
    assert (H3c : d_nodes c3 !! c0 = Some cn) by (cbn; unfold m3; by rewrite lookup_insert_ne).
    mstep (dn_upd_eq c0 (with_dnext (Some new)) c3 _ H3c). set (m4 := <[c0 := _]> _). set (c4 := with_dnodes m4 c3).
    assert (H4p : d_nodes c4 !! p = Some pn).
    { cbn. unfold m4. rewrite lookup_insert_ne by done. cbn. unfold m3. by rewrite lookup_insert_ne. }
    mstep (dn_upd_eq p (with_childs (Some new)) c4 _ H4p). done.
Qed.

Lemma dnx_insert_nodes m p new pn c cn name inode q :
  m !! p = Some pn -> d_childs pn = Some c -> m !! c = Some cn -> p <> new -> c <> new -> c <> p ->
  dnx (insert_nodes m p new pn name inode) q
  = if decide (q = c) then Some new else if decide (q = new) then d_next cn else dnx m q.
Proof.
  intros Hp Hc Hcn Hpn Hcnew Hcp. unfold insert_nodes. rewrite Hc, Hcn. unfold dnx.
  destruct (decide (q = p)) as [->|].
  - rewrite lookup_insert_eq, !decide_False by done. cbn. by rewrite Hp.
  - rewrite lookup_insert_ne by done. case_decide; [subst; by rewrite lookup_insert_eq|].
    rewrite lookup_insert_ne by done. case_decide; [subst; by rewrite lookup_insert_eq|].
    by rewrite lookup_insert_ne.
Qed.

(** The new child comes first; the one that was first comes last. *)
Lemma children_insert m p new pn cs name inode :
  children m p cs -> m !! p = Some pn -> m !! new = None ->
  let m' := insert_nodes m p new pn name inode in
  children m' p (new :: match cs with [] => [] | c :: cs' => cs' ++ [c] end)
  /\ exists nxt, m' !! new = Some (new_node name inode nxt).
Proof.
  intros (pn' & Hp' & Hnd & Hdom & Hring) Hp Hnew m'. rewrite Hp in Hp'. injection Hp' as <-.
  assert (Hpn : p <> new) by congruence.
  destruct cs as [|c cs].
  - unfold m', insert_nodes. rewrite Hring. split.
    + exists (with_childs (Some new) pn). split; [apply lookup_insert_eq|].
      split; [apply NoDup_cons; split; [set_solver|apply NoDup_singleton]|]. split.
      * intros q Hq. apply list_elem_of_singleton in Hq as ->.
        rewrite lookup_insert_ne, lookup_insert_eq by done. eauto.
      * split; [done|]. cbn. unfold dnx. by rewrite lookup_insert_ne, lookup_insert_eq by done.
    + exists (Some new). by rewrite lookup_insert_ne, lookup_insert_eq by done.
  - destruct Hring as [Hc Hch]. destruct (Hdom c) as [cn Hcn]; [set_solver|].
    assert (Hcnew : c <> new) by congruence.
    pose proof Hnd as Hnd'. apply NoDup_cons in Hnd' as [Hpcs Hcs]. apply NoDup_cons in Hcs as [Hccs Hcs].
    assert (Hcp : c <> p) by set_solver.
    assert (Hncs : forall q, q ∈ c :: cs -> q <> new).
    { intros q Hq ->. apply Hdom in Hq as [? Hq]. congruence. }
    assert (Hnx : forall q, dnx m' q = if decide (q = c) then Some new else if decide (q = new) then d_next cn else dnx m q).
    { intros q. by apply dnx_insert_nodes. }
    assert (Hnc : dnx m c = d_next cn) by (unfold dnx; by rewrite Hcn).
    split.
    + exists (with_childs (Some new) pn). split; [unfold m', insert_nodes; rewrite Hc, Hcn; apply lookup_insert_eq|].
      split.
      { assert (Hperm : p :: new :: cs ++ [c] ≡ₚ new :: p :: c :: cs).
        { rewrite <- Permutation_cons_append. apply Permutation_swap. }
        rewrite Hperm. apply NoDup_cons. split; [|done]. intros Hin.
        apply elem_of_cons in Hin as [Hin|Hin]; [congruence|by apply (Hncs new)]. }
      split.
      { intros q Hq. unfold m', insert_nodes. rewrite Hc, Hcn.
        destruct (decide (q = p)) as [->|]; [rewrite lookup_insert_eq; eauto|]. rewrite lookup_insert_ne by done.
        destruct (decide (q = c)) as [->|]; [rewrite lookup_insert_eq; eauto|]. rewrite lookup_insert_ne by done.
        destruct (decide (q = new)) as [->|]; [rewrite lookup_insert_eq; eauto|]. rewrite lookup_insert_ne by done.
        apply Hdom. set_solver. }
      split; [done|]. rewrite chain_app. cbn [chain]. rewrite Hnx, decide_True by done. split; [|done].
      destruct cs as [|b cs]; cbn [chain] in Hch |- *.
      * rewrite Hnx, decide_False, decide_True by done. by rewrite <- Hnc.
      * destruct Hch as [H1 H2]. rewrite Hnx, decide_False, decide_True by done.
        split; [by rewrite <- Hnc|]. apply (chain_ext (dnx m)); [|done].
        intros q Hq. rewrite Hnx. rewrite decide_False by (intros ->; done).
        rewrite decide_False; [done|]. apply Hncs. set_solver.
    + exists (d_next cn). unfold m', insert_nodes. rewrite Hc, Hcn.
      rewrite lookup_insert_ne by done. rewrite lookup_insert_ne by done. apply lookup_insert_eq.
Qed.

(** ** remove *)

(** The walk to the node before [q]. *)
Lemma remove_walk k c p pn name q qn first prev ptr xs w :
  d_nodes c !! p = Some pn -> d_childs pn = Some q -> d_nodes c !! q = Some qn -> d_next qn = Some first ->
  chain (dnx (d_nodes c)) ptr xs q -> (forall r, r ∈ ptr :: xs -> is_Some (d_nodes c !! r)) ->
  first ∉ xs -> first <> q -> find_child (d_nodes c) name (ptr :: xs) = None ->
  last (ptr :: xs) = Some w ->
  remove_loop (S (length xs) + k) p name prev ptr c = remove_loop k p name w q c.
Proof.
  intros Hp Hc Hq Hf. revert prev ptr. induction xs as [|x xs IH]; intros prev ptr Hch Hdom Hnot Hfq Hno Hw.
  - destruct (Hdom ptr) as [n Hn]; [set_solver|]. cbn [length Nat.add remove_loop].
    unfold find_child in Hno. cbn in Hno. rewrite Hn in Hno. mstep (dn_get_eq _ _ _ Hn).
    destruct (name_match n name); [done|]. mstep (dn_get_eq _ _ _ Hp). rewrite Hc.
    rewrite (bind_ret _ _ _ q c) by done. mstep (dn_get_eq _ _ _ Hq). cbn in Hch. unfold dnx in Hch.
    rewrite Hn in Hch. cbn in Hch. rewrite Hch, Hf. rewrite bool_decide_false by congruence.
    injection Hw as <-. done.
  - destruct (Hdom ptr) as [n Hn]; [set_solver|]. cbn [length Nat.add remove_loop].
    unfold find_child in Hno. cbn [List.find] in Hno. rewrite Hn in Hno. mstep (dn_get_eq _ _ _ Hn).
    destruct (name_match n name); [done|]. mstep (dn_get_eq _ _ _ Hp). rewrite Hc.
    rewrite (bind_ret _ _ _ q c) by done. mstep (dn_get_eq _ _ _ Hq). destruct Hch as [Hx Hch].
    unfold dnx in Hx. rewrite Hn in Hx. cbn in Hx. rewrite Hx, Hf.
    rewrite bool_decide_false by (intros [= ->]; set_solver). rewrite (bind_ret _ _ _ x c) by done.
    apply (IH ptr x Hch); [set_solver|set_solver|done|done|done].
Qed.

(** ** Subtrees *)

(** A node with the subtrees of its children, in the order of the ring. *)
#[warnings="-register-all"]
Inductive dtree : Type := DTree (p : positive) (ts : list dtree).

Definition droot (t : dtree) : positive := match t with DTree p _ => p end.

Lemma dtree_ind' (P : dtree -> Prop) : (forall p ts, Forall P ts -> P (DTree p ts)) -> forall t, P t.
Proof.
  intros H. fix IH 1. intros [p ts]. apply H. induction ts as [|t ts IHts]; constructor; [apply IH|exact IHts].
Qed.

Fixpoint dnodes (t : dtree) : list positive :=
  match t with DTree p ts => p :: foldr (fun t l => dnodes t ++ l) [] ts end.

(** The nodes below the children [ts], with them. *)
Definition below (ts : list dtree) : list positive := foldr (fun t l => dnodes t ++ l) [] ts.

(** The heap [m] holds the tree [t]. *)
Fixpoint dtree_in (m : gmap positive DNode) (t : dtree) : Prop :=
  match t with DTree p ts => children m p (map droot ts) /\ foldr (fun t P => dtree_in m t /\ P) True ts end.

Lemma dtree_in_eq m p ts : dtree_in m (DTree p ts) <-> children m p (map droot ts) /\ Forall (dtree_in m) ts.
Proof.
  cbn. apply and_iff_compat_l. induction ts as [|t ts IH]; cbn; [by split|]. rewrite IH. symmetry. apply Forall_cons.
Qed.

Lemma below_cons t ts : below (t :: ts) = dnodes t ++ below ts.
Proof. done. Qed.

Lemma dnodes_below ts t q : t ∈ ts -> q ∈ dnodes t -> q ∈ below ts.
Proof.
  intros Ht Hq. induction ts as [|u ts IH]; [by apply elem_of_nil in Ht|]. rewrite below_cons. apply elem_of_app.
  apply elem_of_cons in Ht as [->|Ht]; auto.
Qed.

Lemma droot_below ts t : t ∈ ts -> droot t ∈ below ts.
Proof. intros Ht. apply (dnodes_below _ t); [done|]. destruct t. by constructor. Qed.

(** The children of [p] stay while they do and [childs_] does. *)
Definition same_childs (m m' : gmap positive DNode) (p : positive) : Prop := (m' !! p ≫= d_childs) = (m !! p ≫= d_childs) /\ is_Some (m' !! p).

Lemma children_ext m m' p cs :
  same_childs m m' p -> (forall q, q ∈ cs -> m' !! q = m !! q) -> children m p cs -> children m' p cs.
Proof.
  intros [Hc [pn' Hp']] Hm (pn & Hp & Hnd & Hdom & Hcs). rewrite Hp, Hp' in Hc. cbn in Hc. exists pn'. split; [done|]. split; [done|].
  split; [intros q Hq; rewrite Hm; auto|]. rewrite Hc. destruct cs as [|c cs]; [done|]. destruct Hcs as [Hcs Hch].
  split; [done|]. apply (chain_ext (dnx m)); [|done]. intros q Hq. unfold dnx. by rewrite Hm.
Qed.

(** A tree stays where it is while its nodes do; its root may be linked to
    other siblings. *)
Lemma dtree_in_root m m' t :
  same_childs m m' (droot t) -> (forall q, q ∈ tail (dnodes t) -> m' !! q = m !! q) -> dtree_in m t -> dtree_in m' t.
Proof.
  induction t as [p ts IH] using dtree_ind'. intros Hc Hm. rewrite !dtree_in_eq. intros [Hch Hts].
  change (tail (dnodes (DTree p ts))) with (below ts) in Hm. split.
  - apply (children_ext m); [done| |done]. intros q (t & -> & Ht)%list_elem_of_fmap. apply Hm. by apply droot_below.
  - rewrite Forall_forall in IH, Hts |- *. intros t Ht. specialize (Hts t Ht).
    assert (Hn : forall q, q ∈ dnodes t -> m' !! q = m !! q) by (intros q Hq; by apply Hm, (dnodes_below _ t)).
    apply IH; [done| | |done].
    + destruct t as [q us]. apply dtree_in_eq in Hts as [(qn & Hq & _) _]. unfold same_childs. cbn [droot]. rewrite Hn by by constructor.
      split; [done|by exists qn].
    + intros q Hq. apply Hn. destruct t. by constructor.
Qed.

Lemma dtree_live m t q : dtree_in m t -> q ∈ dnodes t -> is_Some (m !! q).
Proof.
  induction t as [p ts IH] using dtree_ind'. rewrite dtree_in_eq. intros [(pn & Hp & _) Hts] [->|Hq]%elem_of_cons; [by exists pn|].
  change (q ∈ below ts) in Hq. clear pn Hp. induction Hts as [|t ts Ht Hts IHts]; [by apply elem_of_nil in Hq|].
  apply Forall_cons in IH as [IHt IH]. rewrite below_cons in Hq. apply elem_of_app in Hq as [Hq|Hq]; auto.
Qed.

Lemma dtree_in_ext m m' t : (forall q, q ∈ dnodes t -> m' !! q = m !! q) -> dtree_in m t -> dtree_in m' t.
Proof.
  intros Hm Ht. apply (dtree_in_root m); [|intros q Hq; apply Hm; destruct t; by constructor|done].
  assert (Hr : droot t ∈ dnodes t) by (destruct t; by constructor). unfold same_childs. rewrite Hm by done. split; [done|].
  by apply (dtree_live _ t).
Qed.

(** The heap without the nodes [l]. *)
Definition without (l : list positive) (m : gmap positive DNode) : gmap positive DNode := foldr delete m l.

Lemma without_app l1 l2 m : without (l1 ++ l2) m = without l1 (without l2 m).
Proof. apply foldr_app. Qed.

Lemma lookup_without l m q : without l m !! q = if decide (q ∈ l) then None else m !! q.
Proof.
  induction l as [|x l IH]; [done|]. cbn. fold (without l m). destruct (decide (q = x)) as [->|Hne].
  - rewrite lookup_delete_eq. by rewrite decide_True by by constructor.
  - rewrite lookup_delete_ne, IH by done. apply decide_ext. rewrite elem_of_cons. naive_solver.
Qed.

Lemma without_perm l1 l2 m : l1 ≡ₚ l2 -> without l1 m = without l2 m.
Proof. intros Hp. apply map_eq. intros q. rewrite !lookup_without. apply decide_ext. by rewrite Hp. Qed.

Lemma with_dnodes_twice m m' c : with_dnodes m (with_dnodes m' c) = with_dnodes m c.
Proof. done. Qed.

(** The loop frees the subtrees [ts] one after the other. *)
Lemma release_loop_ok rel p pn c0 : forall ts t k c,
  d_nodes c !! p = Some pn -> d_childs pn = Some c0 -> (length ts < k)%nat ->
  chain (dnx (d_nodes c)) (droot t) (map droot ts) c0 -> c0 ∉ map droot ts ->
  NoDup (p :: below (t :: ts)) -> Forall (dtree_in (d_nodes c)) (t :: ts) ->
  (forall u c', u ∈ t :: ts -> NoDup (dnodes u) -> dtree_in (d_nodes c') u ->
     rel (droot u) c' = Ret tt (with_dnodes (without (tail (dnodes u)) (d_nodes c')) c')) ->
  release_loop rel k p (droot t) c = Ret tt (with_dnodes (without (below (t :: ts)) (d_nodes c)) c).
Proof.
  induction ts as [|t2 ts IH]; intros t k c Hp Hc Hk Hch Hc0 Hnd Hin Hrel; (destruct k as [|k]; [cbn in Hk; lia|]); cbn [release_loop].
  all: apply Forall_cons in Hin as [Ht Hts]; rewrite below_cons in Hnd |- *; apply NoDup_cons in Hnd as [Hpn Hnd];
    apply NoDup_app in Hnd as (Hndt & Hdis & Hndts);
    assert (exists n, d_nodes c !! droot t = Some n) as [n Hn] by
      (destruct t as [q us]; apply dtree_in_eq in Ht as [(qn & Hq & _) _]; by exists qn);
    mstep (dn_get_eq _ _ _ Hn); mstep (Hrel t c ltac:(by constructor) Hndt Ht);
    set (c1 := with_dnodes _ c);
    assert (Hd : dnodes t = droot t :: tail (dnodes t)) by (by destruct t);
    assert (Hn1 : d_nodes c1 !! droot t = Some n) by
      (cbn; rewrite lookup_without, decide_False; [done|]; rewrite Hd in Hndt; by apply NoDup_cons in Hndt as [? _]);
    mstep (dn_free_eq _ _ _ Hn1);
    assert (E1 : with_dnodes (delete (droot t) (d_nodes c1)) c1 = with_dnodes (without (dnodes t) (d_nodes c)) c)
      by (rewrite Hd; done); rewrite E1; set (c2 := with_dnodes _ c);
    assert (Hp2 : d_nodes c2 !! p = Some pn) by (cbn; rewrite lookup_without, decide_False; [done|set_solver]);
    mstep (dn_get_eq _ _ _ Hp2); rewrite Hc.
  - cbn in Hch. unfold dnx in Hch. rewrite Hn in Hch. cbn in Hch. rewrite bool_decide_true by done. by rewrite app_nil_r.
  - cbn [map] in Hch, Hc0. destruct Hch as [Hnx Hch]. unfold dnx in Hnx. rewrite Hn in Hnx. cbn in Hnx.
    rewrite bool_decide_false by (rewrite Hnx; intros [= E]; apply Hc0; rewrite E; by constructor). rewrite Hnx.
    rewrite (bind_ret _ _ _ (droot t2) c2) by done.
    assert (Hsame : forall q, q ∈ below (t2 :: ts) -> d_nodes c2 !! q = d_nodes c !! q).
    { intros q Hq. cbn. rewrite lookup_without, decide_False; [done|]. intros Hq'. by apply (Hdis q). }
    assert (Hroots : forall q, q ∈ droot t2 :: map droot ts -> q ∈ below (t2 :: ts)).
    { intros q Hq. change (droot t2 :: map droot ts) with (map droot (t2 :: ts)) in Hq. apply list_elem_of_fmap in Hq as (u & -> & Hu). by apply droot_below. }
    rewrite (IH t2 k c2); [| |done|cbn in Hk; lia| |set_solver|apply NoDup_cons; split; [set_solver|done]| |].
    + unfold c2. rewrite with_dnodes_twice. cbn [with_dnodes d_nodes]. rewrite <- without_app. do 2 f_equal. apply without_perm. apply Permutation_app_comm.
    + done.
    + apply (chain_ext (dnx (d_nodes c))); [|done]. intros q Hq. unfold dnx. by rewrite Hsame by auto.
    + rewrite Forall_forall in Hts |- *. intros u Hu. apply (dtree_in_ext (d_nodes c)); [|auto]. intros q Hq.
      by apply Hsame, (dnodes_below _ u).
    + intros u c' Hu. apply Hrel. by constructor.
Qed.

Lemma release_node_ok t : forall fuel c,
  (length (dnodes t) <= fuel)%nat -> NoDup (dnodes t) -> dtree_in (d_nodes c) t ->
  release_node fuel (Some (droot t)) c = Ret tt (with_dnodes (without (tail (dnodes t)) (d_nodes c)) c).
Proof.
  induction t as [p ts IH] using dtree_ind'. intros fuel c Hf Hnd Ht. apply dtree_in_eq in Ht as [(pn & Hp & Hndc & Hdom & Hc) Hts].
  change (dnodes (DTree p ts)) with (p :: below ts) in *. cbn [droot tail length] in *. destruct fuel as [|fuel]; [lia|].
  cbn [release_node]. mstep (dn_get_eq _ _ _ Hp). destruct ts as [|t ts]; cbn [map] in *; [rewrite Hc; by destruct c|].
  destruct Hc as [Hc Hch]. rewrite Hc. assert (Hlen : (length ts <= length (below ts))%nat).
  { clear. induction ts as [|[q us] ts IHl]; [done|]. rewrite below_cons, length_app. cbn [length dnodes]. lia. }
  rewrite below_cons, length_app in Hf.
  apply (release_loop_ok _ p pn (droot t)); try done.
  - destruct t. cbn [length dnodes] in Hf. lia.
  - apply NoDup_cons in Hndc as [_ Hndc]. by apply NoDup_cons in Hndc as [? _].
  - intros u c' Hu Hndu Hin. rewrite Forall_forall in IH. apply (IH u Hu); [|done|done].
    assert (length (dnodes u) <= length (dnodes t) + length (below ts))%nat; [|lia].
    rewrite <- length_app, <- below_cons. clear - Hu. induction (t :: ts) as [|x l IHl]; [by apply elem_of_nil in Hu|].
    rewrite below_cons, length_app. apply elem_of_cons in Hu as [->|Hu]; [lia|]. specialize (IHl Hu). lia.
Qed.

(** The heap after the node [q], with the subtrees [us], has been unlinked
    between [prev] and its successor. *)
Definition remove_nodes (m : gmap positive DNode) (p prev : positive) (t : dtree) (pn pvn qn : DNode)
  : gmap positive DNode :=
  without (dnodes t) (<[prev := with_dnext (d_next qn) pvn]>
    (<[p := with_childs (if bool_decide (d_next qn = Some (droot t)) then None else d_next qn) pn]> m)).

Lemma remove_here k c p pn name prev pvn q us qn :
  d_nodes c !! p = Some pn -> d_nodes c !! prev = Some pvn -> d_nodes c !! q = Some qn ->
  p <> prev -> p ∉ dnodes (DTree q us) -> prev ∉ below us -> NoDup (dnodes (DTree q us)) -> dtree_in (d_nodes c) (DTree q us) ->
  name_match qn name = true ->
  remove_loop (S k) p name prev q c = Ret tt (with_dnodes (remove_nodes (d_nodes c) p prev (DTree q us) pn pvn qn) c).
Proof.
  intros Hp Hpv Hq Hppv Hpq Hpu Hnd Ht Hm. cbn [remove_loop]. mstep (dn_get_eq _ _ _ Hq). rewrite Hm.
  mstep (dn_upd_eq p (with_childs (if bool_decide (d_next qn = Some q) then None else d_next qn)) _ _ Hp).
  set (m1 := <[p := _]> _). set (c1 := with_dnodes m1 c).
  assert (Hpv1 : d_nodes c1 !! prev = Some pvn) by (cbn; unfold m1; by rewrite lookup_insert_ne).
  mstep (dn_upd_eq prev (with_dnext (d_next qn)) c1 _ Hpv1). cbn [c1 with_dnodes d_nodes].
  set (m2 := <[prev := _]> m1). set (c2 := with_dnodes m2 c1).
  rewrite (bind_ret _ _ _ (ring_fuel c2) c2) by done. assert (Hpq' : p <> q) by (intros ->; apply Hpq; by constructor).
  assert (exists qn2, m2 !! q = Some qn2 /\ d_childs qn2 = d_childs qn) as (qn2 & Hq2 & Hqc).
  { unfold m2, m1. destruct (decide (q = prev)) as [->|Hne].
    - rewrite lookup_insert_eq. rewrite Hq in Hpv. injection Hpv as <-. eauto.
    - rewrite !lookup_insert_ne by done. eauto. }
  assert (Ht2 : dtree_in m2 (DTree q us)).
  { apply (dtree_in_root (d_nodes c)); [|intros r Hr|done].
    - unfold same_childs. cbn [droot]. rewrite Hq2, Hq. split; [exact Hqc|by exists qn2].
    - change (r ∈ below us) in Hr. unfold m2, m1. rewrite !lookup_insert_ne; [done|intros ->; apply Hpq; by constructor|by intros ->]. }
  assert (Hfuel : (length (dnodes (DTree q us)) <= ring_fuel c2)%nat).
  { unfold ring_fuel. cbn [c2 with_dnodes d_nodes]. pose proof (live_length m2 _ Hnd (fun r => dtree_live m2 _ r Ht2)). lia. }
  mstep (release_node_ok (DTree q us) (ring_fuel c2) c2 Hfuel Hnd Ht2). set (c3 := with_dnodes _ c2).
  assert (Hq3 : d_nodes c3 !! q = Some qn2).
  { unfold c3. cbn [with_dnodes d_nodes]. rewrite lookup_without, decide_False; [done|]. by apply NoDup_cons in Hnd as [? _]. }
  by rewrite (dn_free_eq _ _ _ Hq3).
Qed.

Lemma chain_relink nx nx' a xs z z' w :
  NoDup (a :: xs) -> last (a :: xs) = Some w -> chain nx a xs z -> nx' w = Some z' ->
  (forall q, q ∈ a :: xs -> q <> w -> nx' q = nx q) -> chain nx' a xs z'.
Proof.
  revert a. induction xs as [|b xs IH]; intros a Hnd Hl Hch Hw Hsame.
  - injection Hl as <-. done.
  - destruct Hch as [H1 H2]. apply NoDup_cons in Hnd as [Ha Hnd]. split.
    + rewrite Hsame; [done|set_solver|]. intros ->. apply Ha.
      change (last (w :: b :: xs)) with (last (b :: xs)) in Hl. by apply last_Some_elem_of.
    + apply IH; [done|done|done|done|]. intros q Hq. apply Hsame. set_solver.
Qed.

(** The subtrees that are left, once the heap outside of [tq] has changed only
    in [p] and in the [next_] of a child. *)
Lemma dtrees_left m m' p tq ts w :
  NoDup (p :: below (tq :: ts)) -> Forall (dtree_in m) ts ->
  (w ∈ map droot (tq :: ts)) ->
  (forall r, r ∉ dnodes tq -> r <> w -> r <> p -> m' !! r = m !! r) ->
  (w ∉ dnodes tq -> same_childs m m' w) -> Forall (dtree_in m') ts.
Proof.
  intros Hnd Hts Hw Hm Hwc. rewrite Forall_forall in Hts |- *. intros u Hu. specialize (Hts u Hu).
  apply NoDup_cons in Hnd as [Hp Hnd]. rewrite below_cons in Hp, Hnd. apply NoDup_app in Hnd as (_ & Hdis & Hnd).
  assert (Hout : forall r, r ∈ dnodes u -> (r ∉ dnodes tq) /\ r <> p).
  { intros r Hr. pose proof (dnodes_below _ _ _ Hu Hr) as Hb. split; [intros Hr'; by apply (Hdis r)|intros ->; set_solver]. }
  assert (Hru : droot u ∈ dnodes u) by (destruct u; by constructor). apply (dtree_in_root m); [| |done].
  - destruct (decide (droot u = w)) as [<-|Hne]; [by apply Hwc, Hout|]. unfold same_childs.
    rewrite Hm by (done || by apply Hout). split; [done|]. by apply (dtree_live _ u).
  - intros r Hr. assert (Hr' : r ∈ dnodes u) by (destruct u; by constructor). apply Hm; [by apply Hout| |by apply Hout].
    intros ->. assert (NoDup (dnodes u)) as Hndu.
    { clear - Hnd Hu. induction ts as [|x ts IH]; [by apply elem_of_nil in Hu|]. rewrite below_cons in Hnd. apply NoDup_app in Hnd as (H1 & _ & H2).
      apply elem_of_cons in Hu as [->|Hu]; auto. }
    cbn [map] in Hw. apply elem_of_cons in Hw as [->|Hw].
    { apply (Hdis (droot tq)); [destruct tq; by constructor|by apply (dnodes_below _ u)]. }
    apply list_elem_of_fmap in Hw as (x & -> & Hx). destruct (decide (droot x = droot u)) as [E|Hxu].
    + rewrite E in Hr. destruct u. cbn [dnodes tail droot] in *. by apply NoDup_cons in Hndu as [? _].
    + clear - Hnd Hu Hx Hxu Hr'. induction ts as [|y ts IH]; [by apply elem_of_nil in Hu|]. rewrite below_cons in Hnd.
      apply NoDup_app in Hnd as (_ & Hd & Hnd). apply elem_of_cons in Hu, Hx. destruct Hu as [->|Hu], Hx as [->|Hx].
      * done.
      * apply (Hd (droot x)); [done|by apply droot_below].
      * apply (Hd (droot y)); [destruct y; by constructor|by apply (dnodes_below _ u)].
      * by apply IH.
Qed.

Lemma dc_remove_eq c p q us ts qn name :
  dtree_in (d_nodes c) (DTree p (DTree q us :: ts)) -> NoDup (dnodes (DTree p (DTree q us :: ts))) ->
  d_nodes c !! q = Some qn -> name_match qn name = true -> find_child (d_nodes c) name (map droot ts) = None ->
  exists c', dc_remove (Some p) name c = Ret tt c' /\ dtree_in (d_nodes c') (DTree p ts)
    /\ (forall r, r ∈ dnodes (DTree q us) -> d_nodes c' !! r = None)
    /\ (forall r, r ∉ dnodes (DTree p (DTree q us :: ts)) -> d_nodes c' !! r = d_nodes c !! r).
Proof.
  intros Ht Hnds Hq Hm Hno. apply dtree_in_eq in Ht as [Hchd Hts]. apply Forall_cons in Hts as [Htq Hts].
  change (dnodes (DTree p (DTree q us :: ts))) with (p :: below (DTree q us :: ts)) in *. cbn [map droot] in Hchd.
  pose proof (children_length _ _ _ Hchd) as Hlen.
  destruct Hchd as (pn & Hp & Hnd & Hdom & Hc & Hch).
  pose proof Hnd as Hnd'. apply NoDup_cons in Hnd' as [Hpn Hqn]. apply NoDup_cons in Hqn as [Hqr Hr].
  assert (Hpq : p <> q) by set_solver. set (tq := DTree q us) in *.
  pose proof Hnds as Hnds'. apply NoDup_cons in Hnds' as [Hpb Hnb]. rewrite below_cons in Hpb, Hnb. apply NoDup_app in Hnb as (Hndq & Hdis & Hndb).
  assert (Hpt : p ∉ dnodes tq) by set_solver.
  assert (Hroots : forall r, r ∈ map droot ts -> r ∈ below ts) by (intros r (u & -> & Hu)%list_elem_of_fmap; by apply droot_below).
  unfold dc_remove. rewrite (bind_ret _ _ _ p c) by done. mstep (dn_get_eq _ _ _ Hp). rewrite Hc.
  mstep (dn_get_eq _ _ _ Hq). destruct ts as [|t0 rs]; cbn [map] in *.
  - cbn in Hch. unfold dnx in Hch. rewrite Hq in Hch. cbn in Hch. rewrite Hch.
    rewrite (bind_ret _ _ _ q c) by done. rewrite (bind_ret _ _ _ (ring_fuel c) c) by done.
    unfold ring_fuel. rewrite (remove_here _ c p pn name q qn q us qn) by (done || (by apply NoDup_cons in Hndq as [? _])).
    fold tq. eexists. split; [reflexivity|]. cbn [with_dnodes d_nodes]. unfold remove_nodes. rewrite Hch, bool_decide_true by done.
    split; [|split].
    + apply dtree_in_eq. split; [|constructor]. exists (with_childs None pn).
      split; [by rewrite lookup_without, decide_False, lookup_insert_ne, lookup_insert_eq by done|].
      split; [apply NoDup_singleton|]. split; [set_solver|done].
    + intros r Hin. by rewrite lookup_without, decide_True.
    + intros r Hout. rewrite below_cons in Hout. rewrite lookup_without, decide_False, !lookup_insert_ne; [done|set_solver| |set_solver].
      intros ->. apply Hout. constructor. apply elem_of_app. left. by constructor.
  - set (r0 := droot t0) in *. destruct Hch as [Hn Hch]. unfold dnx in Hn. rewrite Hq in Hn. cbn in Hn. rewrite Hn.
    rewrite (bind_ret _ _ _ r0 c) by done. rewrite (bind_ret _ _ _ (ring_fuel c) c) by done. set (rest := map droot rs) in *.
    destruct (last (r0 :: rest)) as [w|] eqn:Hw; [|by apply last_None in Hw].
    pose proof (last_Some_elem_of _ _ Hw) as Hwin.
    destruct (Hdom w) as [wn Hwn]; [set_solver|]. cbn [length] in Hlen.
    assert (exists k, ring_fuel c = (S (length rest) + S k)%nat) as [k Hk].
    { unfold ring_fuel. exists (size (d_nodes c) - S (length rest))%nat. lia. }
    assert (Hwt : w ∉ dnodes tq) by (intros Hw'; apply (Hdis w Hw'), Hroots, Hwin).
    assert (Hqt : q ∈ dnodes tq) by by constructor. assert (Hwq : w <> q) by (intros ->; done). assert (Hwp : p <> w) by set_solver.
    assert (Hr0q : r0 <> q) by set_solver. assert (Hr0rs : r0 ∉ rest) by (apply NoDup_cons in Hr as [? _]; done).
    rewrite Hk. rewrite (remove_walk (S k) c p pn name q qn r0 r0 r0 rest w) by (done || set_solver).
    rewrite (remove_here _ c p pn name w wn q us qn) by (done || (intros Hw'; apply Hwt; by constructor)).
    fold tq. eexists. split; [reflexivity|]. cbn [with_dnodes d_nodes]. unfold remove_nodes. cbn [tq droot].
    rewrite Hn, bool_decide_false by congruence. fold tq. set (m' := without _ _).
    assert (Hlk : forall r, r ∉ dnodes tq -> r <> w -> r <> p -> m' !! r = d_nodes c !! r).
    { intros r ???. unfold m'. by rewrite lookup_without, decide_False, !lookup_insert_ne by done. }
    assert (Hmw : m' !! w = Some (with_dnext (Some r0) wn)) by (unfold m'; by rewrite lookup_without, decide_False, lookup_insert_eq by done).
    split; [|split].
    + apply dtree_in_eq. split.
      * exists (with_childs (Some r0) pn). split.
        { unfold m'. by rewrite lookup_without, decide_False, lookup_insert_ne, lookup_insert_eq by done. }
        split; [apply NoDup_cons; split; [set_solver|done]|]. cbn [map]. split.
        { intros r Hin. destruct (decide (r = w)) as [->|]; [by rewrite Hmw; eauto|].
          rewrite Hlk; [apply Hdom; set_solver|intros Hr'; by apply (Hdis r Hr'), Hroots|done|set_solver]. }
        split; [done|].
        apply (chain_relink (dnx (d_nodes c)) _ r0 rest q r0 w); [done|done|done| |].
        -- unfold dnx. by rewrite Hmw.
        -- intros r Hin Hne. unfold dnx. rewrite Hlk; [done|intros Hr'; by apply (Hdis r Hr'), Hroots|done|set_solver].
      * apply (dtrees_left (d_nodes c) m' p tq (t0 :: rs) w); [done|done|by constructor|done|]. intros _. unfold same_childs. rewrite Hmw, Hwn.
        split; [done|by eexists].
    + intros r Hin. unfold m'. by rewrite lookup_without, decide_True.
    + intros r Hout. rewrite below_cons in Hout. apply Hlk; [set_solver| |set_solver]. intros ->. apply Hout. constructor. apply elem_of_app. right. auto.
Qed.

Lemma below_perm ts ts' : ts ≡ₚ ts' -> below ts ≡ₚ below ts'.
Proof.
  induction 1 as [|t ts ts' _ IH|t u ts|ts1 ts2 ts3 _ IH1 _ IH2]; [done|rewrite !below_cons; by rewrite IH| |by etransitivity].
  rewrite !below_cons, !app_assoc. apply Permutation_app_tail, Permutation_app_comm.
Qed.

Lemma dtrees_split ts xs q ys : map droot ts = xs ++ q :: ys ->
  exists ts1 us ts2, ts = ts1 ++ DTree q us :: ts2 /\ xs = map droot ts1 /\ ys = map droot ts2.
Proof.
  intros E. apply fmap_app_inv in E as (ts1 & ts' & -> & Hy & ->). symmetry in Hy. apply fmap_cons_inv in Hy as ([q' us] & ts2 & -> & -> & ->).
  by exists ts1, us, ts2.
Qed.

(** ** Properties *)

(** C35. A lookup returns the first child with the name, in the order of the
    ring, and makes it the first of the ring; the tree is otherwise as it was. *)
Theorem dc_lookup_first c p cs name :
  children (d_nodes c) p cs -> name <> [] ->
  exists c', dc_lookup (Some p) name c = Ret (find_child (d_nodes c) name cs) c'
    /\ match find_child (d_nodes c) name cs with
       | Some q => exists xs ys, cs = xs ++ q :: ys /\ children (d_nodes c') p (q :: ys ++ xs)
       | None => c' = c
       end
    /\ forall r, r <> p -> d_nodes c' !! r = d_nodes c !! r.
Proof.
  intros Hch Hne. destruct (dc_lookup_eq c p cs name Hch Hne) as (pn & Hp & Hl). rewrite Hl.
  pose proof (find_child_split (d_nodes c) name cs) as Hs.
  destruct (find_child (d_nodes c) name cs) as [q|]; [|by exists c].
  destruct Hs as (xs & ys & n & -> & Hq & Hm). eexists. split; [reflexivity|]. split.
  - exists xs, ys. split; [done|]. by apply children_rotate.
  - intros r Hr. cbn. by rewrite lookup_insert_ne.
Qed.

(** A name that was inserted under a node is found there by the next
    lookup, with the inode it was inserted with, whatever its siblings. *)
Theorem dc_insert_lookup c p cs name inode :
  children (d_nodes c) p cs -> heap_ok c -> no_nul name -> name <> [] ->
  Z.of_nat (length name) + 1 <= EXT2_NAME_LEN ->
  exists new c1 c2 n, dc_insert (Some p) name inode c = Ret new c1
    /\ children (d_nodes c1) p (new :: match cs with [] => [] | c0 :: cs' => cs' ++ [c0] end)
    /\ dc_lookup (Some p) name c1 = Ret (Some new) c2
    /\ d_nodes c2 !! new = Some n /\ d_inode n = inode /\ d_name n = name.
Proof.
  intros Hch Hheap Hnul Hne Hlen. pose proof Hch as Hch'. destruct Hch' as (pn & Hp & _).
  pose proof (dc_insert_eq c p pn cs name inode Hch Hp Hheap Hnul Hlen) as Hi.
  assert (Hnew : d_nodes c !! d_fresh c = None).
  { destruct (d_nodes c !! d_fresh c) eqn:E; [|done]. specialize (Hheap (d_fresh c) ltac:(eauto)). lia. }
  destruct (children_insert (d_nodes c) p (d_fresh c) pn cs name inode Hch Hp Hnew) as (Hch1 & nxt & Hn).
  set (m1 := insert_nodes _ _ _ _ _ _) in *.
  set (c1 := mk_dcache m1 _ _ _ _) in Hi.
  destruct (dc_lookup_eq c1 p _ name Hch1 Hne) as (pn1 & Hp1 & Hl).
  assert (Hfind : find_child (d_nodes c1) name
            (d_fresh c :: match cs with [] => [] | c0 :: cs' => cs' ++ [c0] end) = Some (d_fresh c)).
  { unfold find_child. cbn [List.find c1 d_nodes]. rewrite Hn.
    rewrite (name_match_spec _ name name) by (done || (unfold EXT2_NAME_LEN in *; lia)).
    by rewrite bool_decide_true. }
  rewrite Hfind in Hl. eexists (d_fresh c), c1, _, (new_node name inode nxt).
  split; [exact Hi|]. split; [exact Hch1|]. split; [exact Hl|]. split; [|done].
  cbn. rewrite lookup_insert_ne; [exact Hn|]. congruence.
Qed.

(** C36. Removing the child that a lookup has just found, when no sibling has
    its name: the child and everything below it is freed, the other children
    with their subtrees are in a ring again, no freed pointer is followed and
    no node outside of the tree changes. *)
Theorem dc_remove_after_lookup c p ts name q :
  dtree_in (d_nodes c) (DTree p ts) -> NoDup (dnodes (DTree p ts)) -> name <> [] ->
  find_child (d_nodes c) name (map droot ts) = Some q ->
  (forall r n, r ∈ map droot ts -> r <> q -> d_nodes c !! r = Some n -> name_match n name = false) ->
  exists c1 c2 us rest, dc_lookup (Some p) name c = Ret (Some q) c1
    /\ dc_remove (Some p) name c1 = Ret tt c2
    /\ ts ≡ₚ DTree q us :: rest /\ dtree_in (d_nodes c2) (DTree p rest)
    /\ (forall r, r ∈ dnodes (DTree q us) -> d_nodes c2 !! r = None)
    /\ (forall r, r ∉ dnodes (DTree p ts) -> d_nodes c2 !! r = d_nodes c !! r).
Proof.
  intros Ht Hnds Hne Hf Huniq. apply dtree_in_eq in Ht as [Hch Hts].
  destruct (dc_lookup_eq c p _ name Hch Hne) as (pn & Hp & Hl).
  rewrite Hf in Hl. pose proof (find_child_split (d_nodes c) name (map droot ts)) as Hs. rewrite Hf in Hs.
  destruct Hs as (xs & ys & qn & Hcs & Hq & Hm). pose proof Hch as Hch1. rewrite Hcs in Hch1.
  apply (children_rotate _ _ pn xs q ys Hp) in Hch1. destruct (dtrees_split ts xs q ys Hcs) as (ts1 & us & ts2 & -> & -> & ->).
  set (c1 := with_dnodes _ c) in Hl. set (tq := DTree q us) in *.
  assert (Hperm : ts1 ++ tq :: ts2 ≡ₚ tq :: ts2 ++ ts1) by (rewrite <- Permutation_middle; f_equiv; apply Permutation_app_comm).
  assert (Hb : dnodes (DTree p (ts1 ++ tq :: ts2)) ≡ₚ dnodes (DTree p (tq :: ts2 ++ ts1))) by (apply perm_skip, below_perm, Hperm).
  assert (Hnds1 : NoDup (dnodes (DTree p (tq :: ts2 ++ ts1)))) by by rewrite <- Hb.
  assert (Hpout : p ∉ below (tq :: ts2 ++ ts1)) by by apply NoDup_cons in Hnds1 as [? _].
  assert (Hq1 : d_nodes c1 !! q = Some qn).
  { cbn. rewrite lookup_insert_ne; [done|]. intros ->. apply Hpout, (droot_below _ tq). by constructor. }
  assert (Hnds0 := Hnds1). apply NoDup_cons in Hnds0 as [_ Hnd0]. change (NoDup (below (tq :: ts2 ++ ts1))) in Hnd0.
  rewrite below_cons in Hnd0. apply NoDup_app in Hnd0 as (_ & Hdis & _).
  destruct (dc_remove_eq c1 p q us (ts2 ++ ts1) qn name) as (c2 & Hr & Ht2 & Hgone & Hkept); [| |done|done| |].
  - apply dtree_in_eq. split; [by cbn [map]; rewrite map_app|]. rewrite Hperm in Hts. rewrite Forall_forall in Hts |- *.
    intros u Hu. apply (dtree_in_ext (d_nodes c)); [|auto]. intros r Hr. cbn. rewrite lookup_insert_ne; [done|].
    intros ->. by apply Hpout, (dnodes_below _ u).
  - done.
  - unfold find_child. destruct (List.find _ (map droot (ts2 ++ ts1))) as [r|] eqn:E; [|done]. exfalso.
    apply find_some in E as [Hin Hmr]. apply list_elem_of_In in Hin.
    assert (Hrb : r ∈ below (ts2 ++ ts1)) by (apply list_elem_of_fmap in Hin as (u & -> & Hu); by apply droot_below).
    assert (Hrq : r <> q) by (intros ->; apply (Hdis q); [by constructor|done]).
    cbn in Hmr. rewrite lookup_insert_ne in Hmr by (intros ->; apply Hpout; rewrite below_cons; apply elem_of_app; by right).
    destruct (d_nodes c !! r) as [rn|] eqn:Hrn; [|done].
    rewrite (Huniq r rn) in Hmr; [done| |done|done]. rewrite Hperm. cbn [map]. by constructor.
  - exists c1, c2, us, (ts2 ++ ts1). split; [exact Hl|]. split; [exact Hr|]. split; [done|]. split; [done|]. split; [done|].
    intros r Hr'. rewrite Hb in Hr'. rewrite Hkept by done. cbn. rewrite lookup_insert_ne; [done|]. intros ->. apply Hr'. by constructor.
Qed.

(** A cache with the children 1, 2 and 3 of the root. *)
Definition three_children : outcome DentryCache (option positive) :=
  match DentryCache_init 4 with
  | Ret _ c =>
      (_ ← dc_insert None [Byte.x61] 1;
       _ ← dc_insert None [Byte.x62] 2;
       p ← dc_insert None [Byte.x63] 3;
       mret (Some p)) c
  | Fault f => Fault f
  end.

(** Removing a child without looking it up first can leave a dangling
    pointer: when the match is the first node the loop visits, [prev] is the
    match itself and its predecessor still points to it after it was freed;
    the next lookup that walks the ring faults. *)
Theorem dc_remove_dangles :
  exists c p c', three_children = Ret (Some p) c
    /\ dc_remove None [Byte.x61] c = Ret tt c'
    /\ dc_lookup None [Byte.x64] c' = Fault UseAfterFree.
Proof. eexists _, _, _. split; [vm_compute; reflexivity|]. split; vm_compute; reflexivity. Qed.

(** ** Instances of the properties *)

(** The root with the children "a" (2) and "b" (3). *)
Definition sample_dcache : DentryCache :=
  mk_dcache
    (<[1%positive := mk_dnode 0 1 [Byte.x2f] (Some 2%positive) None]>
       (<[2%positive := mk_dnode 5 1 [Byte.x61] None (Some 3%positive)]>
          (<[3%positive := mk_dnode 6 1 [Byte.x62] None (Some 2%positive)]> ∅)))
    4 1 3 8.

Lemma sample_children : children (d_nodes sample_dcache) 1 [2%positive; 3%positive].
Proof.
  eexists. split; [reflexivity|]. split; [|split].
  - apply (bool_decide_unpack _). by vm_compute.
  - intros q Hq. apply elem_of_cons in Hq as [->|Hq]; [eauto|].
    apply elem_of_cons in Hq as [->|Hq]; [eauto|]. by apply elem_of_nil in Hq.
  - by vm_compute.
Qed.

Lemma sample_heap_ok : heap_ok sample_dcache.
Proof.
  intros p [n Hn]. cbn [sample_dcache d_nodes d_fresh] in *.
  repeat (apply lookup_insert_Some in Hn as [[<- _]|[_ Hn]]; [done|]). by rewrite lookup_empty in Hn.
Qed.

Lemma dc_lookup_first_witness :
  exists c', dc_lookup (Some 1%positive) [Byte.x62] sample_dcache = Ret (Some 3%positive) c'
    /\ exists xs ys, [2%positive; 3%positive] = xs ++ 3%positive :: ys
         /\ children (d_nodes c') 1 (3%positive :: ys ++ xs).
Proof.
  destruct (dc_lookup_first sample_dcache 1 [2%positive; 3%positive] [Byte.x62]
              sample_children ltac:(done)) as (c' & H1 & H2 & _).
  exists c'. split; [exact H1|exact H2].
Defined.

Lemma dc_insert_lookup_witness :
  exists new c1 c2 n, dc_insert (Some 1%positive) [Byte.x63] 9 sample_dcache = Ret new c1
    /\ children (d_nodes c1) 1 [new; 3%positive; 2%positive]
    /\ dc_lookup (Some 1%positive) [Byte.x63] c1 = Ret (Some new) c2
    /\ d_nodes c2 !! new = Some n /\ d_inode n = 9 /\ d_name n = [Byte.x63].
Proof.
  apply (dc_insert_lookup sample_dcache 1 [2%positive; 3%positive] [Byte.x63] 9).
  - apply sample_children.
  - apply sample_heap_ok.
  - by repeat constructor.
  - done.
  - by vm_compute.
Defined.

(** "b" (3) has a child "c" (4). *)
Definition sample_deep : DentryCache :=
  mk_dcache
    (<[1%positive := mk_dnode 0 1 [Byte.x2f] (Some 2%positive) None]>
       (<[2%positive := mk_dnode 5 1 [Byte.x61] None (Some 3%positive)]>
          (<[3%positive := mk_dnode 6 1 [Byte.x62] (Some 4%positive) (Some 2%positive)]>
             (<[4%positive := mk_dnode 7 1 [Byte.x63] None (Some 4%positive)]> ∅))))
    5 1 4 8.

Definition sample_trees : list dtree := [DTree 2 []; DTree 3 [DTree 4 []]].

Lemma sample_deep_in : dtree_in (d_nodes sample_deep) (DTree 1 sample_trees).
Proof.
  assert (H : forall p cs pn, d_nodes sample_deep !! p = Some pn -> NoDup (p :: cs) ->
    Forall (fun q => is_Some (d_nodes sample_deep !! q)) cs ->
    match cs with [] => d_childs pn = None | c :: cs' => d_childs pn = Some c /\ chain (dnx (d_nodes sample_deep)) c cs' c end ->
    children (d_nodes sample_deep) p cs).
  { intros p cs pn H1 H2 H3 H4. exists pn. split; [done|]. split; [done|]. split; [by apply Forall_forall|done]. }
  cbn [dtree_in sample_trees map droot foldr]. repeat split; (eapply H; [reflexivity| | |]);
    first [by vm_compute|apply (bool_decide_unpack _); by vm_compute|repeat constructor; by eexists].
Qed.

Lemma dc_remove_after_lookup_witness :
  exists c1 c2 us rest,
    dc_lookup (Some 1%positive) [Byte.x62] sample_deep = Ret (Some 3%positive) c1
    /\ dc_remove (Some 1%positive) [Byte.x62] c1 = Ret tt c2
    /\ sample_trees ≡ₚ DTree 3 us :: rest /\ dtree_in (d_nodes c2) (DTree 1 rest).
Proof.
  destruct (dc_remove_after_lookup sample_deep 1 sample_trees [Byte.x62] 3 sample_deep_in) as (c1 & c2 & us & rest & H1 & H2 & H3 & H4 & _).
  - apply (bool_decide_unpack _). by vm_compute.
  - done.
  - by vm_compute.
  - intros r n Hr Hne Hn. cbn in Hr. apply elem_of_cons in Hr as [->|Hr].
    + vm_compute in Hn. injection Hn as <-. by vm_compute.
    + apply elem_of_cons in Hr as [->|Hr]; [done|]. by apply elem_of_nil in Hr.
  - exists c1, c2, us, rest. exact (conj H1 (conj H2 (conj H3 H4))).
Defined.
