(* ===== verification/FileSystem.v ===== *)
(** * The file system: class FileSystem of include/filesystem.h, src/filesystem.cpp

    The state joins the super block, the block groups read so far, the block
    cache (with the disk and the heap of blocks), the directory cache, and the
    copies of inodes that open files work on.  An [ext2_inode*] points into
    the inode table of a block group or to such a copy; a [Block*] is an
    address of the heap of blocks.  A visitor is a function that threads the
    variables its lambda captures by reference. *)

From S2P Require Import Prelude Layout Disk Bitmap PathName Block BlockGroup BlockCache DentryCache.

Record FS : Type := mk_fs {
  fs_store : Store;
  fs_super : SuperBlock;
  fs_groups : gmap Z BlockGroup;
  fs_dentry : DentryCache;
  fs_copies : gmap Z ext2_inode
}.

(** A pointer to slot [i] of the inode table of group [g], or to the copy
    that the InodeCache of inode [id] owns. *)
Inductive iptr : Type :=
| InTable (g i : Z)
| InCopy (id : Z).

Definition root_inode_ : iptr := InTable 0 ROOT_INODE.

(** The result of [gettimeofday], in seconds. *)
Class Clock : Type := now : Z.

(** ** Running the parts *)

Definition on_store {A} (m : M Store A) : M FS A :=
  zoom fs_store (fun st s => mk_fs st (fs_super s) (fs_groups s) (fs_dentry s) (fs_copies s)) m.

Definition on_dentry {A} (m : M DentryCache A) : M FS A :=
  zoom fs_dentry (fun dc s => mk_fs (fs_store s) (fs_super s) (fs_groups s) dc (fs_copies s)) m.

Definition on_fsdisk {A} (m : M Disk A) : M FS A := on_store (on_store_disk m).

Definition set_super (f : SuperBlock -> SuperBlock) : M FS unit :=
  modify_st (fun s => mk_fs (fs_store s) (f (fs_super s)) (fs_groups s) (fs_dentry s) (fs_copies s)).

Definition set_groups (f : gmap Z BlockGroup -> gmap Z BlockGroup) : M FS unit :=
  modify_st (fun s => mk_fs (fs_store s) (fs_super s) (f (fs_groups s)) (fs_dentry s) (fs_copies s)).

(** A call of a method of [block_groups_[gi]]. *)
Definition on_group {A} (gi : Z) (m : M GroupSt A) : M FS A := fun s =>
  match fs_groups s !! gi with
  | None => Fault NullDeref
  | Some g =>
      match m (mk_gst (st_disk (fs_store s)) (fs_super s) g) with
      | Ret a gs =>
          Ret a (mk_fs (mk_store (gs_disk gs) (st_mem (fs_store s)) (st_next (fs_store s))
                          (st_cache (fs_store s)))
                   (gs_super gs) (<[gi := gs_group gs]> (fs_groups s)) (fs_dentry s)
                   (fs_copies s))
      | Fault f => Fault f
      end
  end.

(** [super_block_->get_super()->f += delta] *)
Definition super_add (f : field) (delta : Z) : M FS unit :=
  set_super (fun sb => sb_set f (sb_get f sb + delta) sb).

(** The lookup of a block group, read from disk when it is not yet loaded. *)
Definition load_group (gi : Z) : M FS unit :=
  gs ← reads fs_groups;
  match gs !! gi with
  | Some _ => mret tt
  | None =>
      sb ← reads fs_super;
      g ← on_fsdisk (BlockGroup_init (get_group_desc gi sb) false sb);
      set_groups (fun gs => <[gi := g]> gs)
  end.

(** [*inode] and [*inode = v] *)
Definition iload (ip : iptr) : M FS ext2_inode :=
  s ← get_st;
  match ip with
  | InTable gi i =>
      g ← unwrap NullDeref (fs_groups s !! gi);
      unwrap NullDeref (inode_load i g)
  | InCopy id => unwrap UseAfterFree (fs_copies s !! id)
  end.

Definition set_copies (f : gmap Z ext2_inode -> gmap Z ext2_inode) : M FS unit :=
  modify_st (fun s => mk_fs (fs_store s) (fs_super s) (fs_groups s) (fs_dentry s) (f (fs_copies s))).

Definition istore (ip : iptr) (v : ext2_inode) : M FS unit :=
  s ← get_st;
  match ip with
  | InTable gi i =>
      g ← unwrap NullDeref (fs_groups s !! gi);
      g ← unwrap NullDeref (inode_store i v g);
      set_groups (fun gs => <[gi := g]> gs)
  | InCopy id =>
      _ ← unwrap UseAfterFree (fs_copies s !! id);
      set_copies (fun cs => <[id := v]> cs)
  end.

Definition iupdate (ip : iptr) (f : ext2_inode -> ext2_inode) : M FS unit :=
  v ← iload ip;
  istore ip (f v).

(** Word [k] of a block, read and written through a [uint32_t] pointer. *)
Definition load32 (p : positive) (k : Z) : M FS Z :=
  b ← on_store (block_deref p);
  _ ← unwrap OutOfBounds (if in_range (4 * k) 4 (data_ b) then Some tt else None);
  mret (ld 4 (4 * k) (data_ b)).

Definition store32 (p : positive) (k v : Z) : M FS unit :=
  b ← on_store (block_deref p);
  _ ← unwrap OutOfBounds (if in_range (4 * k) 4 (data_ b) then Some tt else None);
  on_store (block_update p (with_data (st 4 (4 * k) v (data_ b)) b)).

Section Time.
Context {clock : Clock}.

(** [static void inode_init(ext2_inode* inode)] *)
Definition inode_init (i : ext2_inode) : ext2_inode :=
  let i := set_i_ctime (u32 now) i in
  let i := set_i_mtime (u32 now) i in
  let i := set_i_atime (u32 now) i in
  let i := set_i_blocks 0 i in
  let i := set_i_links_count 1 i in
  let i := set_i_size 0 i in
  let i := set_i_uid 0 i in
  let i := set_i_gid 0 i in
  let i := set_i_file_acl 0 i in
  let i := set_i_dir_acl 0 i in
  let i := set_i_faddr 0 i in
  set_i_dtime 0 i.
End Time.

(** ** Blocks and inodes by index *)

(** [bool get_inode(uint32_t index, ext2_inode** inode)] *)
Definition get_inode (index : Z) : M FS (option iptr) :=
  if index =? u32 (-1) then mret (Some root_inode_)
  else
    sb ← reads fs_super;
    block_group_index ← udiv index (inodes_per_group sb);
    _ ← load_group block_group_index;
    inner_index ← umod index (inodes_per_group sb);
    r ← on_group block_group_index (group_get_inode inner_index);
    match r with
    | None => mret None
    | Some i => mret (Some (InTable block_group_index i))
    end.

(** The [memcpy] of [get_block]: from the block to [buf] when reading, from
    [buf] to the block when writing. *)
Definition block_copy (p : positive) (dirty : bool) (offset : Z) (buf : list byte) (copy_size : Z)
  : M Store (list byte) :=
  b ← block_deref p;
  if negb (in_range offset copy_size (data_ b)) then fail OutOfBounds
  else if dirty then
    if Z.of_nat (length buf) <? copy_size then fail OutOfBounds
    else
      _ ← block_update p (with_data (splice offset (take (Z.to_nat copy_size) buf) (data_ b)) b);
      mret buf
  else mret (slice offset copy_size (data_ b)).

(** [bool get_block(uint32_t index, Block** block, bool dirty, off_t offset,
    const char* buf, size_t copy_size)]: the block and what the buffer holds. *)
Definition get_block_copy (index : Z) (dirty : bool) (offset : Z) (buf : list byte) (copy_size : Z)
  : M FS (option (positive * list byte)) :=
  r ← on_store (cache_get index dirty);
  match r with
  | Some p =>
      buf ← on_store (block_copy p dirty offset buf copy_size);
      mret (Some (p, buf))
  | None =>
      sb ← reads fs_super;
      block_group_index ← udiv index (blocks_per_group sb);
      r ← on_store (cache_get index false);
      r ← match r with
          | Some p => mret (Some p)
          | None =>
              _ ← load_group block_group_index;
              inner_index ← umod index (blocks_per_group sb);
              ob ← on_group block_group_index (group_get_block inner_index);
              match ob with
              | None => mret None
              | Some b =>
                  p ← on_store (block_new b);
                  _ ← on_store (cache_insert index p dirty);
                  mret (Some p)
              end
          end;
      match r with
      | None => mret None
      | Some p =>
          buf ← on_store (block_copy p dirty offset buf copy_size);
          mret (Some (p, buf))
      end
  end.

(** [get_block(index, &block)] with the default arguments. *)
Definition get_block (index : Z) : M FS (option positive) :=
  r ← get_block_copy index false 0 [] 0;
  mret (fst <$> r).

(** [bool alloc_block_group(uint32_t* index)] *)
Definition alloc_block_group : M FS Z :=
  sb ← reads fs_super;
  index ← num_block_groups sb;
  _ ← ASSERT (sizeof_ext2_super_block + index * sizeof_ext2_group_desc <=? BLOCK_SIZE);
  let desc := desc_off index in
  _ ← unwrap OutOfBounds
        (if in_range desc sizeof_ext2_group_desc (data_ (sb_block sb)) then Some tt else None);
  _ ← set_super (fill_desc desc (u32 (index * MAX_BLOCK_GROUP_SIZE + BLOCK_SIZE))
                   BLOCKS_PER_GROUP INODES_PER_GROUP);
  _ ← set_super (put_group_desc desc);
  sb ← reads fs_super;
  g ← on_fsdisk (BlockGroup_init (Some desc) true sb);
  _ ← set_groups (fun gs => <[index := g]> gs);
  mret index.

(** [block_groups_[gi]->get_desc()->f] *)
Definition group_desc_get (gi : Z) (f : field) : M FS Z :=
  s ← get_st;
  g ← unwrap NullDeref (fs_groups s !! gi);
  mret (desc_get (desc_ g) f (fs_super s)).

(** [bool alloc_inode(ext2_inode** inode, uint32_t* index, mode_t mode)] *)
Definition alloc_inode {clock : Clock} (mode : Z) : M FS (option (iptr * Z)) :=
  _ ← super_add s_free_inodes_count (-1);
  _ ← super_add s_inodes_count 1;
  gs ← reads fs_groups;
  r ← for_list (sorted_keys gs)
        (fun gi (_ : unit) =>
           n ← group_desc_get gi bg_free_inodes_count;
           if n =? 0 then mret (inr tt)
           else
             r ← on_group gi (group_alloc_inode mode);
             match r with
             | None => mret (inr tt)
             | Some i =>
                 _ ← iupdate (InTable gi i) inode_init;
                 mret (inl (gi, i))
             end) tt;
  r ← match r with
      | inl gi => mret (Some gi)
      | inr _ =>
          gi ← alloc_block_group;
          r ← on_group gi (group_alloc_inode mode);
          mret ((fun i => (gi, i)) <$> r)
      end;
  match r with
  | None => mret None
  | Some (gi, i) =>
      sb ← reads fs_super;
      mret (Some (InTable gi i, u32 (gi * inodes_per_group sb + i)))
  end.

(** [bool alloc_block(Block** block, uint32_t* index)]; [old] is [*block] on
    entry.  A group is added only past an assertion that the [Block] object
    behind [*block] is all zero, which no object with a buffer is. *)
Definition alloc_block (old : option positive) : M FS (option (positive * Z)) :=
  _ ← super_add s_free_blocks_count (-1);
  _ ← super_add s_blocks_count 1;
  gs ← reads fs_groups;
  r ← for_list (sorted_keys gs)
        (fun gi (_ : unit) =>
           n ← group_desc_get gi bg_free_blocks_count;
           if n =? 0 then mret (inr tt)
           else
             r ← on_group gi group_alloc_block;
             match r with
             | None => mret (inr tt)
             | Some (b, i) => mret (inl (gi, b, i))
             end) tt;
  r ← match r with
      | inl gbi => mret (Some gbi)
      | inr _ =>
          p ← unwrap NullDeref old;
          _ ← on_store (block_deref p);
          _ ← ASSERT false;
          gi ← alloc_block_group;
          r ← on_group gi group_alloc_block;
          mret ((fun bi => (gi, bi.1, bi.2)) <$> r)
      end;
  match r with
  | None => mret None
  | Some (gi, b, i) =>
      sb ← reads fs_super;
      let index := u32 (gi * blocks_per_group sb + i) in
      p ← on_store (block_new b);
      _ ← on_store (cache_insert index p false);
      mret (Some (p, index))
  end.

(** [bool free_inode(uint32_t index)] *)
Definition free_inode (index : Z) : M FS bool :=
  _ ← super_add s_free_inodes_count 1;
  _ ← super_add s_inodes_count (-1);
  sb ← reads fs_super;
  block_group_index ← udiv index (inodes_per_group sb);
  inner_index ← umod index (inodes_per_group sb);
  _ ← load_group block_group_index;
  on_group block_group_index (group_free_inode inner_index).

(** [bool free_block(uint32_t index)] *)
Definition free_block (index : Z) : M FS bool :=
  _ ← super_add s_free_blocks_count 1;
  _ ← super_add s_blocks_count (-1);
  sb ← reads fs_super;
  block_group_index ← udiv index (blocks_per_group sb);
  inner_index ← umod index (blocks_per_group sb);
  _ ← load_group block_group_index;
  r ← on_group block_group_index (group_free_block inner_index);
  if negb r then mret false
  else
    _ ← on_store (cache_remove index);
    mret true.

(** ** Visiting the blocks of an inode *)

Definition visitor (A : Type) : Type := Z -> positive -> A -> M FS (bool * A).

(** The loop of [visit_indirect_blocks]: [k] turns at most, at word [i]. *)
Fixpoint visit_indirect_loop {A} (k : nat) (i : Z) (indirect_block : positive) (v : visitor A) (acc : A)
  : M FS (bool * A) :=
  match k with
  | O => mret (true, acc)
  | S k' =>
      indirect_index ← load32 indirect_block i;
      ob ← get_block indirect_index;
      match ob with
      | None => mret (false, acc)
      | Some block =>
          '(stop, acc) ← v indirect_index block acc;
          if (stop : bool) then mret (true, acc)
          else visit_indirect_loop k' (i + 1) indirect_block v acc
      end
  end.

(** [bool visit_indirect_blocks(Block* indirect_block, uint32_t num,
    const BlockVisitor& visitor)] *)
Definition visit_indirect_blocks {A} (indirect_block : positive) (num : Z) (v : visitor A) (acc : A)
  : M FS (bool * A) :=
  visit_indirect_loop (Z.to_nat (Z.min num NUM_INDIRECT_BLOCKS)) 0 indirect_block v acc.

(** [indirect_visitor] and [double_indirect_visitor]: they share [curr_num]. *)
Definition indirect_visitor {A} (num_blocks : Z) (v : visitor A) : visitor (Z * A) :=
  fun _ block '(curr_num, acc) =>
    '(_, acc) ← visit_indirect_blocks block (u32 (num_blocks - curr_num)) v acc;
    mret (false, (curr_num + Z.min (u32 (num_blocks - curr_num)) NUM_INDIRECT_BLOCKS, acc)).

Definition double_indirect_visitor {A} (num_blocks : Z) (v : visitor A) : visitor (Z * A) :=
  fun _ block '(curr_num, acc) =>
    '(_, st) ← visit_indirect_blocks block (u32 (num_blocks - curr_num))
                 (indirect_visitor num_blocks v) (curr_num, acc);
    mret (false, st).

(** One turn of the [for] of [visit_inode_blocks]; [inl] leaves the loop. *)
Definition visit_step {A} (inode : iptr) (num_blocks : Z) (v : visitor A) (i : Z) (st : Z * A)
  : M FS (A + Z * A) :=
  let '(curr_num, acc) := st in
  ind ← iload inode;
  if i <? EXT2_NDIR_BLOCKS then
    ob ← get_block (i_block_at i ind);
    match ob with
    | None => mret (inl acc)
    | Some block =>
        ind ← iload inode;
        '(stop, acc) ← v (i_block_at i ind) block acc;
        if (stop : bool) then mret (inl acc)
        else if curr_num + 1 =? num_blocks then mret (inl acc)
        else mret (inr (curr_num + 1, acc))
    end
  else if i =? EXT2_IND_BLOCK then
    _ ← ASSERT (curr_num =? MAX_DIR_BLOCKS);
    ob ← get_block (i_block_at i ind);
    match ob with
    | None => mret (inl acc)
    | Some block =>
        '(ok, acc) ← visit_indirect_blocks block (u32 (num_blocks - curr_num)) v acc;
        if negb ok then mret (inl acc)
        else
          let curr_num := curr_num + Z.min (u32 (num_blocks - curr_num)) MAX_IND_BLOCKS in
          if curr_num =? num_blocks then mret (inl acc) else mret (inr (curr_num, acc))
    end
  else if i =? EXT2_DIND_BLOCK then
    _ ← ASSERT (curr_num =? MAX_DIR_BLOCKS + MAX_IND_BLOCKS);
    ob ← get_block (i_block_at i ind);
    match ob with
    | None => mret (inl acc)
    | Some block =>
        let num_indirects :=
          (u32 (num_blocks - curr_num) + NUM_INDIRECT_BLOCKS - 1) / NUM_INDIRECT_BLOCKS in
        '(ok, st) ← visit_indirect_blocks block num_indirects (indirect_visitor num_blocks v) (curr_num, acc);
        if negb ok then mret (inl st.2)
        else if st.1 =? num_blocks then mret (inl st.2) else mret (inr st)
    end
  else
    _ ← ASSERT (curr_num =? MAX_DIR_BLOCKS + MAX_IND_BLOCKS + MAX_DIND_BLOCKS);
    ob ← get_block (i_block_at i ind);
    match ob with
    | None => mret (inl acc)
    | Some block =>
        let num_indirects :=
          (u32 (num_blocks - curr_num) + MAX_DIND_BLOCKS - 1) / MAX_DIND_BLOCKS in
        '(ok, st) ← visit_indirect_blocks block num_indirects
                      (double_indirect_visitor num_blocks v) (curr_num, acc);
        if negb ok then mret (inl st.2)
        else if st.1 =? num_blocks then mret (inl st.2) else mret (inr st)
    end.

(** [void visit_inode_blocks(ext2_inode* inode, const BlockVisitor& visitor)] *)
Definition visit_inode_blocks {A} (inode : iptr) (v : visitor A) (acc : A) : M FS A :=
  ind ← iload inode;
  _ ← ASSERT (S_ISDIR (i_mode ind) || S_ISREG (i_mode ind));
  sb ← reads fs_super;
  num_blocks ← num_aligned_blocks (i_blocks ind) sb;
  if num_blocks =? 0 then mret acc
  else
    r ← for_list (map Z.of_nat (seq 0 (Z.to_nat EXT2_N_BLOCKS))) (visit_step inode num_blocks v) (0, acc);
    match r with
    | inl acc => mret acc
    | inr st => mret st.2
    end.

(** ** Growing an inode *)

(** The error exit of [alloc_block]. *)
Definition or_error {A B} (m : M FS (option A)) (k : A -> M FS (option B)) : M FS (option B) :=
  r ← m;
  match r with
  | None => mret None
  | Some a => k a
  end.

(** [block_cache_->modify(index)] *)
Definition touch_block (index : Z) : M FS unit := on_store (cache_modify index).

(** The branch of the single indirect block. *)
Definition append_indirect (inode : iptr) (num_blocks block_index : Z) : M FS (option unit) :=
  or_error
    (if num_blocks =? MAX_DIR_BLOCKS then
       or_error (alloc_block None) (fun '(p, ix) =>
         _ ← iupdate inode (set_i_block_at EXT2_IND_BLOCK ix);
         mret (Some p))
     else
       ind ← iload inode;
       get_block (i_block_at EXT2_IND_BLOCK ind))
    (fun indirect_block =>
       _ ← store32 indirect_block (num_blocks - MAX_DIR_BLOCKS) block_index;
       ind ← iload inode;
       _ ← touch_block (i_block_at EXT2_IND_BLOCK ind);
       mret (Some tt)).

(** The branch of the double indirect block. *)
Definition append_double_indirect (inode : iptr) (num_blocks block_index : Z) : M FS (option unit) :=
  or_error
    (if num_blocks =? MAX_DIR_BLOCKS + MAX_IND_BLOCKS then
       or_error (alloc_block None) (fun '(p, ix) =>
         _ ← iupdate inode (set_i_block_at EXT2_DIND_BLOCK ix);
         mret (Some p))
     else
       ind ← iload inode;
       get_block (i_block_at EXT2_DIND_BLOCK ind))
    (fun indirect_block =>
       let num_indirects := (num_blocks - MAX_DIR_BLOCKS - 1) / NUM_INDIRECT_BLOCKS in
       _ ← ASSERT (num_indirects <=? NUM_INDIRECT_BLOCKS);
       let inner_index := (num_blocks - MAX_DIR_BLOCKS - MAX_IND_BLOCKS) mod NUM_INDIRECT_BLOCKS in
       if inner_index =? 0 then
         or_error (alloc_block None) (fun '(double_indirect_block, double_indirect_index) =>
           _ ← store32 indirect_block num_indirects double_indirect_index;
           ind ← iload inode;
           _ ← touch_block (i_block_at EXT2_DIND_BLOCK ind);
           _ ← store32 double_indirect_block 0 block_index;
           _ ← touch_block double_indirect_index;
           mret (Some tt))
       else
         double_indirect_index ← load32 indirect_block (num_indirects - 1);
         or_error (get_block double_indirect_index) (fun double_indirect_block =>
           _ ← store32 double_indirect_block inner_index block_index;
           _ ← touch_block double_indirect_index;
           mret (Some tt))).

(** The branch of the triple indirect block. *)
Definition append_triple_indirect (inode : iptr) (num_blocks block_index : Z) : M FS (option unit) :=
  or_error
    (if num_blocks =? MAX_DIR_BLOCKS + MAX_IND_BLOCKS + MAX_DIND_BLOCKS then
       or_error (alloc_block None) (fun '(p, ix) =>
         _ ← iupdate inode (set_i_block_at EXT2_TIND_BLOCK ix);
         mret (Some p))
     else
       ind ← iload inode;
       get_block (i_block_at EXT2_TIND_BLOCK ind))
    (fun indirect_block =>
       let num_indirects := (num_blocks - MAX_DIR_BLOCKS - MAX_IND_BLOCKS - 1) / MAX_DIND_BLOCKS in
       _ ← ASSERT (num_indirects <=? NUM_INDIRECT_BLOCKS);
       let inner_index := (num_blocks - MAX_DIR_BLOCKS - MAX_IND_BLOCKS - MAX_DIND_BLOCKS) mod MAX_DIND_BLOCKS in
       if inner_index =? 0 then
         or_error (alloc_block None) (fun '(double_indirect_block, double_indirect_index) =>
         or_error (alloc_block None) (fun '(triple_indirect_block, triple_indirect_index) =>
           _ ← store32 indirect_block num_indirects double_indirect_index;
           ind ← iload inode;
           _ ← touch_block (i_block_at EXT2_DIND_BLOCK ind);
           _ ← store32 double_indirect_block 0 triple_indirect_index;
           _ ← touch_block double_indirect_index;
           _ ← store32 triple_indirect_block 0 block_index;
           _ ← touch_block triple_indirect_index;
           mret (Some tt)))
       else
         double_indirect_index ← load32 indirect_block (num_indirects - 1);
         or_error (get_block double_indirect_index) (fun double_indirect_block =>
           let num_double_indirects := (inner_index + MAX_IND_BLOCKS - 1) / MAX_IND_BLOCKS in
           let double_inner_index := inner_index mod MAX_IND_BLOCKS in
           if double_inner_index =? 0 then
             or_error (alloc_block None) (fun '(triple_indirect_block, triple_indirect_index) =>
               _ ← store32 double_indirect_block num_double_indirects triple_indirect_index;
               _ ← touch_block double_indirect_index;
               _ ← store32 triple_indirect_block 0 block_index;
               _ ← touch_block triple_indirect_index;
               mret (Some tt))
           else
             triple_indirect_index ← load32 double_indirect_block (num_double_indirects - 1);
             or_error (get_block triple_indirect_index) (fun triple_indirect_block =>
               _ ← store32 triple_indirect_block double_inner_index block_index;
               _ ← touch_block triple_indirect_index;
               mret (Some tt)))).

(** [bool alloc_block(Block** block, uint32_t* index, ext2_inode* inode)] *)
Definition alloc_block_inode (old : option positive) (inode : iptr) : M FS (option (positive * Z)) :=
  ind ← iload inode;
  _ ← ASSERT (S_ISDIR (i_mode ind) || S_ISREG (i_mode ind));
  sb ← reads fs_super;
  num_blocks ← num_aligned_blocks (i_blocks ind) sb;
  or_error (alloc_block old) (fun '(block, block_index) =>
    or_error
      (if num_blocks <? MAX_DIR_BLOCKS then
         _ ← iupdate inode (set_i_block_at num_blocks block_index);
         mret (Some tt)
       else if num_blocks <? MAX_DIR_BLOCKS + MAX_IND_BLOCKS then
         append_indirect inode num_blocks block_index
       else if num_blocks <? MAX_DIR_BLOCKS + MAX_IND_BLOCKS + MAX_DIND_BLOCKS then
         append_double_indirect inode num_blocks block_index
       else append_triple_indirect inode num_blocks block_index)
      (fun _ =>
         sb ← reads fs_super;
         _ ← iupdate inode (fun i =>
               set_i_blocks (u32 (i_blocks i + u32 (Z.shiftl 2 (sb_get s_log_block_size sb)))) i);
         mret (Some (block, block_index)))).

(** ** Directory entries *)

(** The entries of a directory block: their offsets and [size()]. *)
Definition dentries (p : positive) : M FS (list Z * Z) :=
  b ← on_store (block_deref p);
  unwrap OutOfFuel (DentryBlock_init (data_ b)).

(** [dentry->name_len == name_len && !memcmp(name, dentry->name, name_len)] *)
Definition dentry_match (name : list byte) (off : Z) (data : list byte) : bool :=
  (getf off de_name_len data =? Z.of_nat (length name))
  && bool_decide (slice (off + de_name_off) (Z.of_nat (length name)) data = name).

(** The loop of [inode_lookup(parent, ...)]: every match overwrites the
    result, and the last block is remembered. *)
Definition scan_dentries (name : list byte) (data : list byte) (offs : list Z) (found : option Z)
  : option Z :=
  fold_left (fun found off =>
    if dentry_match name off data then Some (getf off de_inode data) else found) offs found.

(** [RetCode inode_lookup(ext2_inode* parent, const char* name, ...)]: the
    inode of the name if it exists, and the last block with its index. *)
Definition inode_lookup_in (parent : iptr) (name : list byte)
  : M FS (option Z * option (positive * Z)) :=
  visit_inode_blocks parent
    (fun index block '(found, _) =>
       b ← on_store (block_deref block);
       '(offs, _) ← dentries block;
       mret (false, (scan_dentries name (data_ b) offs found, Some (block, index))))
    (None, None).

(** [RetCode dentry_create(...)] *)
Definition dentry_create (last_block : option (positive * Z)) (parent : iptr) (name : list byte)
    (inode_index mode : Z) : M FS RetCode :=
  r ← match last_block with
      | Some b => mret (Some b)
      | None => alloc_block_inode None parent
      end;
  match r with
  | None => mret FS_ALLOC_ERR
  | Some (block, block_index) =>
      '(_, size) ← dentries block;
      r ← (if BLOCK_SIZE <? size + sizeof_ext2_dir_entry_2 + Z.of_nat (length name) then
             or_error (alloc_block_inode (Some block) parent) (fun '(block, block_index) =>
               '(_, size) ← dentries block;
               mret (Some (block, block_index, size)))
           else mret (Some (block, block_index, size)));
      match r with
      | None => mret FS_ALLOC_ERR
      | Some (block, block_index, size) =>
          b ← on_store (block_deref block);
          data ← unwrap OutOfBounds (alloc_dentry size name inode_index mode (data_ b));
          _ ← on_store (block_update block (with_data data b));
          _ ← touch_block block_index;
          mret FS_SUCCESS
      end
  end.

(** ** Paths *)

(** The search of one directory by [inode_lookup(path)]: the first match
    whose inode exists. *)
Fixpoint search_dentries (name : list byte) (data : list byte) (offs : list Z) (acc : Z * iptr)
  : M FS (bool * (Z * iptr)) :=
  match offs with
  | [] => mret (false, acc)
  | off :: offs' =>
      if dentry_match name off data then
        r ← get_inode (getf off de_inode data);
        match r with
        | None => mret (true, (-1, acc.2))
        | Some ip => mret (true, (getf off de_inode data, ip))
        end
      else search_dentries name data offs' acc
  end.

(** The variables of the loop of [inode_lookup(path)]. *)
Record LookupSt : Type := mk_lookup {
  lk_inode : iptr;
  lk_link : option positive;
  lk_parent : option positive;
  lk_hit : bool;
  lk_result : Z;
  lk_index : Z
}.

(** [link->inode_] *)
Definition link_inode (link : option positive) : M FS Z :=
  p ← unwrap NullDeref link;
  n ← on_dentry (dn_get p);
  mret (d_inode n).

(** One component of the path. *)
Definition lookup_step (path : Path) (elem : list byte) (st : LookupSt) : M FS (RetCode + LookupSt) :=
  node ← on_dentry (dc_lookup (lk_link st) elem);
  match node with
  | None =>
      r ← (if (0 <? lk_index st) && lk_hit st then
             i ← link_inode (lk_link st);
             get_inode i
           else mret (Some (lk_inode st)));
      match r with
      | None => mret (inl FS_NOT_FOUND)
      | Some inode =>
          ind ← iload inode;
          if (lk_index st <? path_size path - 1) && negb (S_ISDIR (i_mode ind))
          then mret (inl FS_NDIR_ERR)
          else
            '(result, inode) ← visit_inode_blocks inode
               (fun _ block acc =>
                  b ← on_store (block_deref block);
                  '(offs, _) ← dentries block;
                  search_dentries elem (data_ b) offs acc)
               (-1, inode);
            if result =? -1 then mret (inl FS_NOT_FOUND)
            else
              link ← on_dentry (dc_insert (lk_link st) elem (u32 result));
              mret (inr (mk_lookup inode (Some link) (lk_link st) false result (lk_index st + 1)))
      end
  | Some node =>
      i ← link_inode (Some node);
      r ← (if lk_index st =? path_size path - 1 then get_inode i else mret (Some (lk_inode st)));
      match r with
      | None => mret (inl FS_NOT_FOUND)
      | Some inode =>
          mret (inr (mk_lookup inode (Some node) (lk_link st) true i (lk_index st + 1)))
      end
  end.

(** What the out-parameters of [inode_lookup(path)] receive. *)
Record Found : Type := mk_found {
  fd_inode : iptr;
  fd_index : Z;
  fd_cache : option positive
}.

(** [RetCode inode_lookup(const Path& path, ext2_inode** inode,
    uint32_t* inode_index, DentryCache::Node** cache_ptr)] *)
Definition inode_lookup (path : Path) : M FS (RetCode + Found) :=
  if negb (path_valid path) then mret (inl FS_INVALID)
  else if path_empty path then mret (inr (mk_found root_inode_ ROOT_INODE None))
  else
    r ← for_list (path_names path) (lookup_step path) (mk_lookup root_inode_ None None false (-1) 0);
    match r with
    | inl code => mret (inl code)
    | inr st => mret (inr (mk_found (lk_inode st) (u32 (lk_result st)) (lk_parent st)))
    end.

(** What [inode_create] answers: the code, and the inode with its index when
    they are set. *)
Record Created : Type := mk_created {
  cr_code : RetCode;
  cr_inode : option iptr;
  cr_index : option Z
}.

Definition created_err (code : RetCode) : Created := mk_created code None None.

(** [path.size() - 1] names of a path. *)
Definition path_dir (path : Path) : Path := path_slice path (path_size path - 1).

Section Create.
Context {clock : Clock}.

(** [RetCode inode_create(const Path& path, ext2_inode** inode,
    uint32_t* inode_index_result, mode_t mode)] *)
Definition inode_create (path : Path) (mode : Z) : M FS Created :=
  if negb (path_valid path) then mret (created_err FS_INVALID)
  else if path_empty path then mret (created_err FS_DUP_ERR)
  else
    r ← inode_lookup (path_dir path);
    match r with
    | inl code => mret (created_err code)
    | inr fd =>
        let parent := fd_inode fd in
        ind ← iload parent;
        if negb (S_ISDIR (i_mode ind)) then mret (created_err FS_NDIR_ERR)
        else
          '(found, last_block) ← inode_lookup_in parent (path_back path);
          match found with
          | Some inode_index =>
              r ← get_inode inode_index;
              match r with
              | None => mret (mk_created FS_NOT_FOUND None (Some inode_index))
              | Some ip => mret (mk_created FS_DUP_ERR (Some ip) (Some inode_index))
              end
          | None =>
              r ← alloc_inode mode;
              match r with
              | None => mret (created_err FS_ALLOC_ERR)
              | Some (ip, inode_index) =>
                  code ← dentry_create last_block parent (path_back path) inode_index mode;
                  match code with
                  | FS_SUCCESS => mret (mk_created FS_SUCCESS (Some ip) (Some inode_index))
                  | _ => mret (mk_created code (Some ip) None)
                  end
              end
          end
    end.
End Create.

(** [RetCode inode_link(const Path& src, const Path& dst)] *)
Definition inode_link (src dst : Path) : M FS RetCode :=
  if negb (path_valid src) || negb (path_valid dst) then mret FS_INVALID
  else if path_empty src || path_empty dst then mret FS_DUP_ERR
  else
    r ← inode_lookup src;
    match r with
    | inl code => mret code
    | inr fs =>
        let src_inode := fd_inode fs in
        sind ← iload src_inode;
        if S_ISDIR (i_mode sind) then mret FS_DIR_ERR
        else
          r ← inode_lookup (path_dir dst);
          match r with
          | inl code => mret code
          | inr fd =>
              let parent := fd_inode fd in
              pind ← iload parent;
              if negb (S_ISDIR (i_mode pind)) then mret FS_NDIR_ERR
              else
                '(found, last_block) ← inode_lookup_in parent (path_back dst);
                match found with
                | Some _ => mret FS_DUP_ERR
                | None =>
                    sind ← iload src_inode;
                    code ← dentry_create last_block parent (path_back dst) (fd_index fs) (i_mode sind);
                    match code with
                    | FS_SUCCESS =>
                        _ ← iupdate src_inode (fun i => set_i_links_count (u16 (i_links_count i + 1)) i);
                        mret FS_SUCCESS
                    | _ => mret code
                    end
                end
          end
    end.

(** ** Deleting *)

(** [RetCode inode_delete(uint32_t index)]; [fuel] bounds the depth of the
    directory tree. *)
Fixpoint inode_delete (fuel : nat) (index : Z) : M FS RetCode :=
  match fuel with
  | O => fail OutOfFuel
  | S fuel' =>
      if index =? ROOT_INODE then mret FS_INVALID
      else
        r ← get_inode index;
        match r with
        | None => mret FS_NOT_FOUND
        | Some ip =>
            ind ← iload ip;
            if negb (S_ISREG (i_mode ind)) && negb (S_ISDIR (i_mode ind)) then mret FS_NOT_FOUND
            else
              _ ← (if S_ISDIR (i_mode ind) then
                     visit_inode_blocks ip
                       (fun _ block (_ : unit) =>
                          '(offs, _) ← dentries block;
                          _ ← for_list offs
                                (fun off (_ : unit) =>
                                   b ← on_store (block_deref block);
                                   if getf off de_name_len (data_ b) =? 0 then mret (inr tt)
                                   else
                                     _ ← inode_delete fuel' (getf off de_inode (data_ b));
                                     mret (inr tt : unit + unit)) tt;
                          mret (false, tt)) tt
                   else
                     visit_inode_blocks ip
                       (fun index _ (_ : unit) =>
                          _ ← free_block index;
                          mret (false, tt)) tt);
              _ ← free_inode index;
              mret FS_SUCCESS
        end
  end.

(** The visitor of [inode_unlink]: the first match is cleared. *)
Fixpoint clear_dentry (name : list byte) (index : Z) (block : positive) (offs : list Z)
  : M FS (bool * option (Z * Z)) :=
  match offs with
  | [] => mret (false, None)
  | off :: offs' =>
      b ← on_store (block_deref block);
      if dentry_match name off (data_ b) then
        _ ← on_store (block_update block (with_data (setf off de_name_len 0 (data_ b)) b));
        mret (true, Some (index, getf off de_inode (data_ b)))
      else clear_dentry name index block offs'
  end.

(** The search of [inode_unlink] in the parent: where the entry was, and its
    inode. *)
Definition clear_entry (parent : iptr) (name : list byte) : M FS (option (Z * Z)) :=
  visit_inode_blocks parent
    (fun index block (acc : option (Z * Z)) =>
       '(offs, _) ← dentries block;
       '(stop, r) ← clear_dentry name index block offs;
       mret (stop, match r with Some _ => r | None => acc end))
    None.

(** No directory is deeper than the number of inodes. *)
Definition delete_fuel (sb : SuperBlock) : nat := S (Z.to_nat (sb_get s_inodes_count sb)).

(** [RetCode inode_unlink(const Path& path)] *)
Definition inode_unlink (path : Path) : M FS RetCode :=
  if negb (path_valid path) then mret FS_INVALID
  else if path_empty path then mret FS_INVALID
  else
    let dir_path := path_dir path in
    r ← inode_lookup dir_path;
    match r with
    | inl code => mret code
    | inr fd =>
        let parent := fd_inode fd in
        pind ← iload parent;
        if negb (S_ISDIR (i_mode pind)) then mret FS_NDIR_ERR
        else
          let last_item := path_back path in
          found ← clear_entry parent last_item;
          match found with
          | None => mret FS_NOT_FOUND
          | Some (dentry_block_index, matched_index) =>
              _ ← touch_block dentry_block_index;
              cache_ptr ← on_dentry (dc_lookup (fd_cache fd) (path_back dir_path));
              _ ← on_dentry (dc_remove cache_ptr last_item);
              r ← get_inode matched_index;
              match r with
              | None => mret FS_NOT_FOUND
              | Some ip =>
                  _ ← iupdate ip (fun i => set_i_links_count (u16 (i_links_count i - 1)) i);
                  ind ← iload ip;
                  sb ← reads fs_super;
                  if i_links_count ind =? 0 then inode_delete (delete_fuel sb) matched_index
                  else mret FS_SUCCESS
              end
          end
    end.

(** [void write_block(Block* block, uint32_t index, const char* buf, size_t size)] *)
Definition write_block (block : positive) (index : Z) (buf : list byte) : M FS unit :=
  b ← on_store (block_deref block);
  _ ← unwrap OutOfBounds
        (if in_range 0 (Z.of_nat (length buf)) (data_ b) then Some tt else None);
  _ ← on_store (block_update block (with_data (splice 0 buf (data_ b)) b));
  touch_block index.

(** ** Mounting and flushing *)

Fixpoint flush_groups (gs : list BlockGroup) : M Disk unit :=
  match gs with
  | [] => mret tt
  | g :: gs' =>
      _ ← BlockGroup_flush g;
      flush_groups gs'
  end.

Definition groups_in_order (s : FS) : list BlockGroup :=
  omap (fun k => fs_groups s !! k) (sorted_keys (fs_groups s)).

(** [void flush()] *)
Definition fs_flush : M FS unit :=
  sb ← reads fs_super;
  _ ← on_fsdisk (Block_flush (sb_block sb));
  gs ← reads groups_in_order;
  _ ← on_fsdisk (flush_groups gs);
  on_store cache_flush.

(** [void flush(uint32_t inode_index)] *)
Definition fs_flush_index (inode_index : Z) : M FS unit :=
  sb ← reads fs_super;
  _ ← on_fsdisk (Block_flush (sb_block sb));
  gs ← reads groups_in_order;
  _ ← on_fsdisk (flush_groups gs);
  on_store (cache_flush_index inode_index).

(** [~FileSystem()]: what is left is the disk. *)
Definition fs_unmount (s : FS) : outcome FS unit := fs_flush s.

(** [FileSystem()] on a disk. *)
Definition fs_mount {clock : Clock} (d : Disk) : outcome FS unit :=
  match SuperBlock_init d with
  | Fault f => Fault f
  | Ret sb d =>
      match DentryCache_init BLOCK_CACHE_SIZE with
      | Fault f => Fault f
      | Ret _ dc =>
          let s := mk_fs (mk_store d ∅ 1%positive (BlockCache_init BLOCK_CACHE_SIZE)) sb ∅ dc ∅ in
          (_ ← load_group 0;
           r ← on_group 0 (group_get_inode ROOT_INODE);
           _ ← match r with
               | Some _ => mret tt
               | None =>
                   r ← on_group 0 (group_alloc_inode S_IFDIR);
                   i ← unwrap AssertFail r;
                   _ ← iupdate (InTable 0 i) inode_init;
                   iupdate (InTable 0 i)
                     (set_i_mode (Z.lor S_IFDIR (Z.lor EXT2_S_IRUSR (Z.lor EXT2_S_IRGRP EXT2_S_IROTH))))
               end;
           gs ← reads groups_in_order;
           on_fsdisk (flush_groups gs)) s
      end
  end.
