(* ===== verification/FileStatus.v ===== *)
(** * The file cursor: class FileStatus of include/operation.h,
    src/operation/operation.cpp

    An open file remembers the block its cursor is on and the indirect blocks
    on the way to it; [next_block], [seek] and [bf_seek] move the cursor.
    They read words of indirect blocks, and nothing else of the file system:
    the class [WordReader] is that interface. *)

From S2P Require Import Prelude Layout.

(** ** Where the blocks of a file are *)

Definition WORDS : Z := BLOCK_SIZE / 4.

Definition IBLOCK_11 : Z := 11.

Definition IBLOCK_12 : Z := WORDS + 11.

Definition IBLOCK_13 : Z := WORDS * WORDS + IBLOCK_12.

Definition IBLOCK_14 : Z := WORDS * WORDS * WORDS + IBLOCK_13.

(** [IndirectBlockPtr::seek(off, block_id)]: word [off] of block [id], if the
    block can be read. *)
Class WordReader (S : Type) : Type := read_word : Z -> Z -> M S (option Z).

(** ** class FileStatus *)

Record FileStatus : Type := mk_file {
  f_inode_id : Z;
  cache_update_flag_ : bool;
  block_id_ : Z;
  block_id_in_file_ : Z;
  indirect_0 : Z;
  indirect_1 : Z;
  indirect_2 : Z
}.

(** [FileStatus()], with the inode cache its creator sets. *)
Definition FileStatus_init (inode_id : Z) : FileStatus := mk_file inode_id false 0 0 0 0 0.

Definition set_update_flag (v : bool) (f : FileStatus) : FileStatus :=
  mk_file (f_inode_id f) v (block_id_ f) (block_id_in_file_ f) (indirect_0 f) (indirect_1 f) (indirect_2 f).

Definition set_block_id (v : Z) (f : FileStatus) : FileStatus :=
  mk_file (f_inode_id f) (cache_update_flag_ f) v (block_id_in_file_ f) (indirect_0 f) (indirect_1 f) (indirect_2 f).

Definition set_in_file (v : Z) (f : FileStatus) : FileStatus :=
  mk_file (f_inode_id f) (cache_update_flag_ f) (block_id_ f) v (indirect_0 f) (indirect_1 f) (indirect_2 f).

Definition set_indirect_0 (v : Z) (f : FileStatus) : FileStatus :=
  mk_file (f_inode_id f) (cache_update_flag_ f) (block_id_ f) (block_id_in_file_ f) v (indirect_1 f) (indirect_2 f).

Definition set_indirect_1 (v : Z) (f : FileStatus) : FileStatus :=
  mk_file (f_inode_id f) (cache_update_flag_ f) (block_id_ f) (block_id_in_file_ f) (indirect_0 f) v (indirect_2 f).

Definition set_indirect_2 (v : Z) (f : FileStatus) : FileStatus :=
  mk_file (f_inode_id f) (cache_update_flag_ f) (block_id_ f) (block_id_in_file_ f) (indirect_0 f) (indirect_1 f) v.

Section Cursor.
Context {S : Type} {reader : WordReader S}.

(** [if (!ptr.seek(off, dst)) return -EINVAL;] on the cursor [f]. *)
Definition seek_or (id off : Z) (f : FileStatus) (k : Z -> M S (Z * FileStatus))
  : M S (Z * FileStatus) :=
  r ← read_word id off;
  match r with
  | None => mret (- EINVAL, f)
  | Some v => k v
  end.

(** [int bf_seek(uint32_t new_block_id_in_file)]; [inode] is the inode
    cache of the file. *)
Definition bf_seek (inode : ext2_inode) (new_block_id_in_file : Z) (f : FileStatus)
  : M S (Z * FileStatus) :=
  let f := set_in_file new_block_id_in_file f in
  let n := block_id_in_file_ f in
  if n <=? IBLOCK_11 then mret (0, set_block_id (i_block_at n inode) f)
  else if n <=? IBLOCK_12 then
    let first_id := n - IBLOCK_11 - 1 in
    let f := set_indirect_0 (i_block_at 12 inode) f in
    seek_or (indirect_0 f) first_id f (fun v => mret (0, set_block_id v f))
  else if n <=? IBLOCK_13 then
    let first_id := (n - IBLOCK_12 - 1) / WORDS in
    let second_id := (n - IBLOCK_12 - 1) mod WORDS in
    let f := set_indirect_0 (i_block_at 13 inode) f in
    seek_or (indirect_0 f) first_id f (fun v =>
      let f := set_indirect_1 v f in
      seek_or (indirect_1 f) second_id f (fun v => mret (0, set_block_id v f)))
  else if n <=? IBLOCK_14 then
    let first_id := (n - IBLOCK_13 - 1) / (WORDS * WORDS) in
    let second_id := (n - IBLOCK_13 - 1) mod (WORDS * WORDS) / WORDS in
    let third_id := (n - IBLOCK_13 - 1) mod WORDS in
    let f := set_indirect_0 (i_block_at 14 inode) f in
    seek_or (indirect_0 f) first_id f (fun v =>
      let f := set_indirect_1 v f in
      seek_or (indirect_1 f) second_id f (fun v =>
        let f := set_indirect_2 v f in
        seek_or (indirect_2 f) third_id f (fun v => mret (0, set_block_id v f))))
  else mret (- EINVAL, f).

(** [int next_block()] *)
Definition next_block (inode : ext2_inode) (f : FileStatus) : M S (Z * FileStatus) :=
  let old := block_id_in_file_ f in
  if old <=? IBLOCK_11 then
    let f := set_in_file (old + 1) f in
    if block_id_in_file_ f <=? IBLOCK_11 then
      mret (0, set_block_id (i_block_at (block_id_in_file_ f) inode) f)
    else
      let f := set_indirect_0 (i_block_at 12 inode) f in
      seek_or (indirect_0 f) 0 f (fun v => mret (0, set_block_id v f))
  else if old <=? IBLOCK_12 then
    let f := set_in_file (old + 1) f in
    if block_id_in_file_ f <=? IBLOCK_12 then
      seek_or (indirect_0 f) (block_id_in_file_ f - IBLOCK_11 - 1) f (fun v => mret (0, set_block_id v f))
    else
      let f := set_indirect_0 (i_block_at 13 inode) f in
      seek_or (indirect_0 f) 0 f (fun v =>
        let f := set_indirect_1 v f in
        seek_or (indirect_1 f) 0 f (fun v => mret (0, set_block_id v f)))
  else if old <=? IBLOCK_13 then
    let f := set_in_file (old + 1) f in
    let n := block_id_in_file_ f in
    if n <=? IBLOCK_13 then
      let first_id := (n - IBLOCK_12 - 1) / WORDS in
      let second_id := (n - IBLOCK_12 - 1) mod WORDS in
      if second_id =? 0 then
        seek_or (indirect_0 f) first_id f (fun v =>
          let f := set_indirect_1 v f in
          seek_or (indirect_1 f) 0 f (fun v => mret (0, set_block_id v f)))
      else seek_or (indirect_1 f) second_id f (fun v => mret (0, set_block_id v f))
    else
      let f := set_indirect_0 (i_block_at 14 inode) f in
      seek_or (indirect_0 f) 0 f (fun v =>
        let f := set_indirect_1 v f in
        seek_or (indirect_1 f) 0 f (fun v =>
          let f := set_indirect_2 v f in
          seek_or (indirect_2 f) 0 f (fun v => mret (0, set_block_id v f))))
  else if old <=? IBLOCK_14 then
    let f := set_in_file (old + 1) f in
    let n := block_id_in_file_ f in
    let first_id := (n - IBLOCK_13 - 1) / (WORDS * WORDS) in
    let second_id := (n - IBLOCK_13 - 1) mod (WORDS * WORDS) / WORDS in
    let third_id := (n - IBLOCK_13 - 1) mod WORDS in
    if third_id =? 0 then
      if second_id =? 0 then
        seek_or (indirect_0 f) first_id f (fun v =>
          let f := set_indirect_1 v f in
          seek_or (indirect_1 f) second_id f (fun v =>
            let f := set_indirect_2 v f in
            seek_or (indirect_2 f) third_id f (fun v => mret (0, set_block_id v f))))
      else
        seek_or (indirect_1 f) second_id f (fun v =>
          let f := set_indirect_2 v f in
          seek_or (indirect_2 f) third_id f (fun v => mret (0, set_block_id v f)))
    else seek_or (indirect_2 f) third_id f (fun v => mret (0, set_block_id v f))
  else mret (- EINVAL, f).

(** [int seek(uint32_t new_block_id_in_file)]; the differences of unsigned
    block numbers wrap. *)
Definition seek (inode : ext2_inode) (new : Z) (f : FileStatus) : M S (Z * FileStatus) :=
  let old := block_id_in_file_ f in
  if new <=? IBLOCK_12 then
    '(_, f) ← bf_seek inode new f;
    mret (0, f)
  else if new <=? IBLOCK_13 then
    let old_first_id := u32 (old - IBLOCK_12 - 1) / WORDS in
    let old_second_id := u32 (old - IBLOCK_12 - 1) mod WORDS in
    let new_first_id := (new - IBLOCK_12 - 1) / WORDS in
    let new_second_id := (new - IBLOCK_12 - 1) mod WORDS in
    let f := set_in_file new f in
    if (new_first_id =? old_first_id) && (new_second_id =? old_second_id) then mret (0, f)
    else if new_first_id =? old_first_id then
      seek_or (indirect_1 f) new_second_id f (fun v => mret (0, set_block_id v f))
    else bf_seek inode new f
  else if new <=? IBLOCK_14 then
    let old_first_id := u32 (old - IBLOCK_13 - 1) / (WORDS * WORDS) in
    let old_second_id := u32 (old - IBLOCK_13 - 1) mod (WORDS * WORDS) / WORDS in
    let old_third_id := u32 (old - IBLOCK_13 - 1) mod WORDS in
    let new_first_id := (new - IBLOCK_13 - 1) / (WORDS * WORDS) in
    let new_second_id := (new - IBLOCK_13 - 1) mod (WORDS * WORDS) / WORDS in
    let new_third_id := (new - IBLOCK_13 - 1) mod WORDS in
    let f := set_in_file new f in
    if (new_first_id =? old_first_id) && (new_second_id =? old_second_id) && (new_third_id =? old_third_id)
    then mret (0, f)
    else if (new_first_id =? old_first_id) && (new_second_id =? old_second_id) then
      seek_or (indirect_2 f) new_second_id f (fun v => mret (0, set_block_id v f))
    else if new_first_id =? old_first_id then
      seek_or (indirect_1 f) new_second_id f (fun v =>
        let f := set_indirect_2 v f in
        seek_or (indirect_2 f) new_second_id f (fun v => mret (0, set_block_id v f)))
    else bf_seek inode new f
  else mret (0, f).

(** [int _upd_cache()] *)
Definition _upd_cache (inode : ext2_inode) (f : FileStatus) : M S (Z * FileStatus) :=
  if cache_update_flag_ f then
    let f := set_update_flag false f in
    bf_seek inode (block_id_in_file_ f) f
  else mret (0, f).

(** [void init_seek()] *)
Definition init_seek (f : FileStatus) : FileStatus := set_update_flag true f.
End Cursor.

(** ** What the cursor should find

    [slot n] is where the pointer to file block [n] is kept: an entry of
    [i_block] and the word to follow in each indirect block below it. *)

Definition slot (n : Z) : Z * list Z :=
  if n <=? IBLOCK_11 then (n, [])
  else if n <=? IBLOCK_12 then (12, [n - IBLOCK_11 - 1])
  else if n <=? IBLOCK_13 then
    (13, [(n - IBLOCK_12 - 1) / WORDS; (n - IBLOCK_12 - 1) mod WORDS])
  else
    (14, [(n - IBLOCK_13 - 1) / (WORDS * WORDS);
          (n - IBLOCK_13 - 1) mod (WORDS * WORDS) / WORDS;
          (n - IBLOCK_13 - 1) mod WORDS]).

(** What a reader promises: [word s id off] is the word it reads ([Some None]
    when the block is not there, [None] when nothing is promised), and
    reading changes no word. *)
Class WordReaderSpec (S : Type) {reader : WordReader S} (inv : S -> Prop)
    (word : S -> Z -> Z -> option (option Z)) : Prop :=
  read_word_spec : forall s id off r,
    inv s -> word s id off = Some r ->
    exists s', read_word id off s = Ret r s' /\ inv s' /\ forall i o, word s' i o = word s i o.

Lemma IB11 : IBLOCK_11 = 11. Proof. done. Qed.
Lemma IB12 : IBLOCK_12 = 1035. Proof. done. Qed.
Lemma IB13 : IBLOCK_13 = 1049611. Proof. done. Qed.
Lemma IB14 : IBLOCK_14 = 1074791435. Proof. done. Qed.
Lemma W1 : WORDS = 1024. Proof. done. Qed.

Section Resolve.
Context {S : Type} {reader : WordReader S} (inv : S -> Prop)
  (word : S -> Z -> Z -> option (option Z)) {spec : WordReaderSpec S inv word}.

Fixpoint follow (s : S) (id : Z) (offs : list Z) : option (option Z) :=
  match offs with
  | [] => Some (Some id)
  | o :: offs' =>
      match word s id o with
      | Some (Some v) => follow s v offs'
      | r => r
      end
  end.

(** The block of the disk that holds file block [n]. *)
Definition resolve (s : S) (inode : ext2_inode) (n : Z) : option (option Z) :=
  follow s (i_block_at (slot n).1 inode) (slot n).2.

(** The indirect blocks a cursor remembers are those of its position. *)
Definition levels_ok (s : S) (inode : ext2_inode) (f : FileStatus) : Prop :=
  match slot (block_id_in_file_ f) with
  | (_, []) => True
  | (k, [_]) => indirect_0 f = i_block_at k inode
  | (k, [a; _]) => indirect_0 f = i_block_at k inode /\ word s (indirect_0 f) a = Some (Some (indirect_1 f))
  | (k, a :: b :: _) =>
      indirect_0 f = i_block_at k inode /\ word s (indirect_0 f) a = Some (Some (indirect_1 f))
      /\ word s (indirect_1 f) b = Some (Some (indirect_2 f))
  end.

Record cursor_ok (s : S) (inode : ext2_inode) (f : FileStatus) : Prop := {
  cur_pos : 0 <= block_id_in_file_ f <= IBLOCK_14;
  cur_block : resolve s inode (block_id_in_file_ f) = Some (Some (block_id_ f));
  cur_levels : levels_ok s inode f
}.

(** [m] moves the cursor to file block [n], or reports that it is missing. *)
Definition moves_to (s : S) (inode : ext2_inode) (n : Z) (m : M S (Z * FileStatus)) : Prop :=
  forall r, resolve s inode n = Some r ->
  exists s' f', inv s' /\ (forall i o, word s' i o = word s i o) /\
    match r with
    | Some v => m s = Ret (0, f') s' /\ block_id_in_file_ f' = n /\ block_id_ f' = v /\ cursor_ok s' inode f'
    | None => m s = Ret (- EINVAL, f') s'
    end.

Lemma follow_ext s s' id offs :
  (forall i o, word s' i o = word s i o) -> follow s' id offs = follow s id offs.
Proof.
  intros H. revert id. induction offs as [|o offs IH]; intros id; cbn; [done|].
  rewrite H. destruct (word s id o) as [[v|]|]; [apply IH|done|done].
Qed.

(** One step of a path: [seek_or] reads the next level. *)
Lemma seek_or_step s id off f k r offs :
  inv s -> follow s id (off :: offs) = Some r ->
  exists s', inv s' /\ (forall i o, word s' i o = word s i o) /\
    ((exists v, word s id off = Some (Some v) /\ follow s' v offs = Some r /\ seek_or id off f k s = k v s')
     \/ (r = None /\ seek_or id off f k s = Ret (- EINVAL, f) s')).
Proof.
  intros Hi Hf. cbn in Hf. destruct (word s id off) as [o|] eqn:Hw; [|done].
  destruct (spec s id off o Hi Hw) as (s' & Hr & Hi' & Hsame).
  exists s'. split; [done|]. split; [done|]. unfold seek_or. mstep Hr. destruct o as [v|].
  - left. exists v. split; [done|]. split; [|done]. rewrite <- Hf. by apply follow_ext.
  - right. injection Hf as <-. done.
Qed.

Lemma slot_direct n : n <= IBLOCK_11 -> slot n = (n, []).
Proof. intros H. unfold slot. by rewrite (proj2 (Z.leb_le _ _) H). Qed.

Lemma slot_single n : IBLOCK_11 < n <= IBLOCK_12 -> slot n = (12, [n - IBLOCK_11 - 1]).
Proof.
  intros H. unfold slot. rewrite (proj2 (Z.leb_gt _ _)) by lia. by rewrite (proj2 (Z.leb_le _ _)) by lia.
Qed.

Lemma slot_double n :
  IBLOCK_12 < n <= IBLOCK_13 ->
  slot n = (13, [(n - IBLOCK_12 - 1) / WORDS; (n - IBLOCK_12 - 1) mod WORDS]).
Proof.
  intros H. unfold slot. rewrite (proj2 (Z.leb_gt n IBLOCK_11)) by (rewrite IB11, IB12 in *; lia).
  rewrite (proj2 (Z.leb_gt n IBLOCK_12)) by lia. by rewrite (proj2 (Z.leb_le _ _)) by lia.
Qed.

Lemma slot_triple n :
  IBLOCK_13 < n ->
  slot n = (14, [(n - IBLOCK_13 - 1) / (WORDS * WORDS);
                 (n - IBLOCK_13 - 1) mod (WORDS * WORDS) / WORDS; (n - IBLOCK_13 - 1) mod WORDS]).
Proof.
  intros H. unfold slot. rewrite IB11, IB12, IB13 in *.
  by rewrite !(proj2 (Z.leb_gt _ _)) by lia.
Qed.

Lemma levels_ok_ext s s' inode f :
  (forall i o, word s' i o = word s i o) -> levels_ok s inode f -> levels_ok s' inode f.
Proof.
  intros H. unfold levels_ok. destruct (slot _) as [k [|a [|b [|c l]]]]; rewrite ?H; done.
Qed.

Lemma resolve_ext s s' inode n :
  (forall i o, word s' i o = word s i o) -> resolve s' inode n = resolve s inode n.
Proof. intros H. by apply follow_ext. Qed.

(** The last read of a move. *)
Lemma finish s inode f id o :
  inv s -> 0 <= block_id_in_file_ f <= IBLOCK_14 -> levels_ok s inode f ->
  resolve s inode (block_id_in_file_ f) = follow s id [o] ->
  moves_to s inode (block_id_in_file_ f) (seek_or id o f (fun v => mret (0, set_block_id v f))).
Proof.
  intros Hi Hn Hl Hp r Hr. pose proof Hr as Hf. rewrite Hp in Hf.
  destruct (seek_or_step s id o f (fun v => mret (0, set_block_id v f)) r [] Hi Hf)
    as (s' & Hi' & Hsame & [(v & Hw & Hv & Hk)|(-> & Hk)]).
  - cbn in Hv. injection Hv as <-. exists s', (set_block_id v f). split; [done|]. split; [done|].
    split; [exact Hk|]. split; [done|]. split; [done|]. constructor.
    + done.
    + cbn. rewrite (resolve_ext s s') by done. exact Hr.
    + by apply (levels_ok_ext s s' inode f).
  - exists s', f. done.
Qed.

(** A read on the way. *)
Lemma descend s inode n id o offs f k :
  inv s -> resolve s inode n = follow s id (o :: offs) ->
  (forall s' v, inv s' -> (forall i o, word s' i o = word s i o) -> word s' id o = Some (Some v) ->
     resolve s' inode n = follow s' v offs -> moves_to s' inode n (k v)) ->
  moves_to s inode n (seek_or id o f k).
Proof.
  intros Hi Hp Hk r Hr. pose proof Hr as Hf. rewrite Hp in Hf.
  destruct (seek_or_step s id o f k r offs Hi Hf)
    as (s1 & Hi1 & Hsame1 & [(v & Hw & Hv & Hm)|(-> & Hm)]); [|exists s1, f; done].
  assert (Hr1 : resolve s1 inode n = Some r) by by rewrite (resolve_ext s s1).
  destruct (Hk s1 v) with (r := r) as (s2 & f2 & Hi2 & Hsame2 & H2); [done|done|by rewrite Hsame1|by rewrite Hr1|done|].
  exists s2, f2. split; [done|]. split; [intros; by rewrite Hsame2|]. by rewrite Hm.
Qed.

(** A move that needs no read. *)
Lemma stay s inode f v :
  inv s -> 0 <= block_id_in_file_ f <= IBLOCK_14 -> levels_ok s inode f ->
  resolve s inode (block_id_in_file_ f) = Some (Some v) ->
  moves_to s inode (block_id_in_file_ f) (mret (0, set_block_id v f)).
Proof.
  intros Hi Hn Hl Hv r Hr. rewrite Hv in Hr. injection Hr as <-.
  exists s, (set_block_id v f). done.
Qed.

Lemma bf_seek_moves s inode n f :
  inv s -> 0 <= n <= IBLOCK_14 -> moves_to s inode n (bf_seek inode n f).
Proof.
  intros Hi Hn. unfold bf_seek. cbn [set_in_file block_id_in_file_].
  destruct (Z.leb_spec n IBLOCK_11) as [H11|H11].
  { apply (stay s inode (set_in_file n f)); [done|done| |]; unfold levels_ok, resolve;
      cbn [set_in_file block_id_in_file_]; by rewrite slot_direct. }
  destruct (Z.leb_spec n IBLOCK_12) as [H12|H12].
  { apply (finish s inode (set_indirect_0 (i_block_at 12 inode) (set_in_file n f))); [done|done| |];
      unfold levels_ok, resolve; cbn; by rewrite slot_single by lia. }
  destruct (Z.leb_spec n IBLOCK_13) as [H13|H13].
  { pose proof (slot_double n ltac:(lia)) as Hs.
    eapply descend; [done|unfold resolve; by rewrite Hs|].
    intros s1 v Hi1 _ Hw Hr1. cbn [set_indirect_1 indirect_1].
    apply (finish s1 inode (set_indirect_1 v (set_indirect_0 (i_block_at 13 inode) (set_in_file n f)))); [done|done| |done].
    unfold levels_ok. cbn. by rewrite Hs. }
  rewrite (proj2 (Z.leb_le n IBLOCK_14)) by lia.
  pose proof (slot_triple n ltac:(lia)) as Hs.
  eapply descend; [done|unfold resolve; by rewrite Hs|].
  intros s1 v Hi1 _ Hw Hr1. eapply descend; [done|exact Hr1|].
  intros s2 w Hi2 Hsame Hw2 Hr2. cbn.
  apply (finish s2 inode (set_indirect_2 w (set_indirect_1 v (set_indirect_0 (i_block_at 14 inode) (set_in_file n f)))));
    [done|done| |done].
  unfold levels_ok. cbn. rewrite Hs. rewrite Hsame. done.
Qed.

(** The remembered levels of a cursor at [old], for the same or the next
    block of the same indirect blocks. *)
Lemma levels_single s inode f :
  levels_ok s inode f -> IBLOCK_11 < block_id_in_file_ f <= IBLOCK_12 -> indirect_0 f = i_block_at 12 inode.
Proof. intros H Hn. unfold levels_ok in H. by rewrite slot_single in H. Qed.

Lemma levels_double s inode f :
  levels_ok s inode f -> IBLOCK_12 < block_id_in_file_ f <= IBLOCK_13 ->
  indirect_0 f = i_block_at 13 inode
  /\ word s (indirect_0 f) ((block_id_in_file_ f - IBLOCK_12 - 1) / WORDS) = Some (Some (indirect_1 f)).
Proof. intros H Hn. unfold levels_ok in H. by rewrite slot_double in H. Qed.

Lemma levels_triple s inode f :
  levels_ok s inode f -> IBLOCK_13 < block_id_in_file_ f ->
  indirect_0 f = i_block_at 14 inode
  /\ word s (indirect_0 f) ((block_id_in_file_ f - IBLOCK_13 - 1) / (WORDS * WORDS)) = Some (Some (indirect_1 f))
  /\ word s (indirect_1 f) ((block_id_in_file_ f - IBLOCK_13 - 1) mod (WORDS * WORDS) / WORDS)
     = Some (Some (indirect_2 f)).
Proof. intros H Hn. unfold levels_ok in H. by rewrite slot_triple in H. Qed.

(** Reading the last word of a double (triple) indirect block from the
    remembered level. *)
Lemma finish_double s inode f :
  inv s -> IBLOCK_12 < block_id_in_file_ f <= IBLOCK_13 -> indirect_0 f = i_block_at 13 inode ->
  word s (indirect_0 f) ((block_id_in_file_ f - IBLOCK_12 - 1) / WORDS) = Some (Some (indirect_1 f)) ->
  moves_to s inode (block_id_in_file_ f)
    (seek_or (indirect_1 f) ((block_id_in_file_ f - IBLOCK_12 - 1) mod WORDS) f
       (fun v => mret (0, set_block_id v f))).
Proof.
  intros Hi Hn H0 Hw. apply finish; [done|rewrite IB12, IB13, IB14 in *; lia| |];
    unfold levels_ok, resolve; rewrite slot_double by done; [done|].
  cbn [fst snd follow]. by rewrite <- H0, Hw.
Qed.

Lemma finish_triple s inode f :
  inv s -> IBLOCK_13 < block_id_in_file_ f <= IBLOCK_14 -> indirect_0 f = i_block_at 14 inode ->
  word s (indirect_0 f) ((block_id_in_file_ f - IBLOCK_13 - 1) / (WORDS * WORDS)) = Some (Some (indirect_1 f)) ->
  word s (indirect_1 f) ((block_id_in_file_ f - IBLOCK_13 - 1) mod (WORDS * WORDS) / WORDS)
    = Some (Some (indirect_2 f)) ->
  moves_to s inode (block_id_in_file_ f)
    (seek_or (indirect_2 f) ((block_id_in_file_ f - IBLOCK_13 - 1) mod WORDS) f
       (fun v => mret (0, set_block_id v f))).
Proof.
  intros Hi Hn H0 Hw Hw2. apply finish; [done|rewrite IB13, IB14 in *; lia| |];
    unfold levels_ok, resolve; rewrite slot_triple by lia; [done|].
  cbn [fst snd follow]. by rewrite <- H0, Hw, Hw2.
Qed.

(** From the first level of a double, and the second of a triple indirect
    block. *)
Lemma descend_double s inode f :
  inv s -> IBLOCK_12 < block_id_in_file_ f <= IBLOCK_13 -> indirect_0 f = i_block_at 13 inode ->
  moves_to s inode (block_id_in_file_ f)
    (seek_or (indirect_0 f) ((block_id_in_file_ f - IBLOCK_12 - 1) / WORDS) f (fun v =>
       seek_or v ((block_id_in_file_ f - IBLOCK_12 - 1) mod WORDS) (set_indirect_1 v f)
         (fun w => mret (0, set_block_id w (set_indirect_1 v f))))).
Proof.
  intros Hi Hn H0. eapply descend; [done|unfold resolve; by rewrite slot_double, H0 by done|].
  intros s1 v Hi1 _ Hw _. by apply (finish_double s1 inode (set_indirect_1 v f)).
Qed.

Lemma descend_triple_2 s inode f :
  inv s -> IBLOCK_13 < block_id_in_file_ f <= IBLOCK_14 -> indirect_0 f = i_block_at 14 inode ->
  word s (indirect_0 f) ((block_id_in_file_ f - IBLOCK_13 - 1) / (WORDS * WORDS)) = Some (Some (indirect_1 f)) ->
  moves_to s inode (block_id_in_file_ f)
    (seek_or (indirect_1 f) ((block_id_in_file_ f - IBLOCK_13 - 1) mod (WORDS * WORDS) / WORDS) f (fun v =>
       seek_or v ((block_id_in_file_ f - IBLOCK_13 - 1) mod WORDS) (set_indirect_2 v f)
         (fun w => mret (0, set_block_id w (set_indirect_2 v f))))).
Proof.
  intros Hi Hn H0 Hw0.
  apply (descend _ _ _ _ _ [(block_id_in_file_ f - IBLOCK_13 - 1) mod WORDS]); [done| |].
  { unfold resolve. rewrite slot_triple by lia. cbn [fst snd]. rewrite <- H0.
    cbn [follow]. rewrite Hw0. reflexivity. }
  intros s1 v Hi1 Hsame Hw _. apply (finish_triple s1 inode (set_indirect_2 v f)); try done.
  cbn. by rewrite Hsame.
Qed.

Lemma descend_triple s inode f :
  inv s -> IBLOCK_13 < block_id_in_file_ f <= IBLOCK_14 -> indirect_0 f = i_block_at 14 inode ->
  moves_to s inode (block_id_in_file_ f)
    (seek_or (indirect_0 f) ((block_id_in_file_ f - IBLOCK_13 - 1) / (WORDS * WORDS)) f (fun u =>
       seek_or u ((block_id_in_file_ f - IBLOCK_13 - 1) mod (WORDS * WORDS) / WORDS) (set_indirect_1 u f) (fun v =>
         seek_or v ((block_id_in_file_ f - IBLOCK_13 - 1) mod WORDS) (set_indirect_2 v (set_indirect_1 u f))
           (fun w => mret (0, set_block_id w (set_indirect_2 v (set_indirect_1 u f))))))).
Proof.
  intros Hi Hn H0. eapply descend; [done|unfold resolve; by rewrite slot_triple, H0 by lia|].
  intros s1 v Hi1 _ Hw _. by apply (descend_triple_2 s1 inode (set_indirect_1 v f)).
Qed.

Lemma next_block_moves s inode f :
  inv s -> cursor_ok s inode f -> block_id_in_file_ f < IBLOCK_14 ->
  moves_to s inode (block_id_in_file_ f + 1) (next_block inode f).
Proof.
  intros Hi [Hpos Hblk Hlev] Hlt. unfold next_block. cbn [set_in_file block_id_in_file_].
  set (n := block_id_in_file_ f) in *.
  destruct (Z.leb_spec n IBLOCK_11) as [H11|H11].
  { destruct (Z.leb_spec (n + 1) IBLOCK_11) as [H11'|H11'].
    - apply (stay s inode (set_in_file (n + 1) f)); [done|cbn; lia| |];
        unfold levels_ok, resolve; cbn [set_in_file block_id_in_file_]; by rewrite slot_direct.
    - assert (n + 1 = 12) as Hn by (rewrite IB11 in *; lia).
      apply (finish s inode (set_indirect_0 (i_block_at 12 inode) (set_in_file (n + 1) f)));
        [done|cbn; lia| |]; unfold levels_ok, resolve; cbn [set_in_file set_indirect_0 block_id_in_file_ indirect_0];
        rewrite slot_single by (rewrite IB11, IB12 in *; lia); [done|].
      cbn [fst snd]. by replace (n + 1 - IBLOCK_11 - 1) with 0 by (rewrite IB11 in *; lia). }
  destruct (Z.leb_spec n IBLOCK_12) as [H12|H12].
  { pose proof (levels_single _ _ _ Hlev ltac:(lia)) as H0.
    destruct (Z.leb_spec (n + 1) IBLOCK_12) as [H12'|H12'].
    - apply (finish s inode (set_in_file (n + 1) f)); [done|cbn; lia| |];
        unfold levels_ok, resolve; cbn [set_in_file block_id_in_file_ indirect_0];
        rewrite slot_single by (rewrite IB11, IB12 in *; lia); [done|].
      cbn [fst snd]. by rewrite <- H0.
    - assert (Hz : n + 1 - IBLOCK_12 - 1 = 0) by lia.
      pose proof (descend_double s inode (set_indirect_0 (i_block_at 13 inode) (set_in_file (n + 1) f)) Hi) as Hd.
      cbn [set_in_file set_indirect_0 block_id_in_file_ indirect_0] in Hd. rewrite Hz in Hd.
      apply Hd; [rewrite IB12, IB13 in *; lia|done]. }
  destruct (Z.leb_spec n IBLOCK_13) as [H13|H13].
  { pose proof (levels_double _ _ _ Hlev ltac:(lia)) as [H0 Hw].
    destruct (Z.leb_spec (n + 1) IBLOCK_13) as [H13'|H13'].
    - destruct (Z.eqb_spec ((n + 1 - IBLOCK_12 - 1) mod WORDS) 0) as [Hm|Hm].
      + pose proof (descend_double s inode (set_in_file (n + 1) f) Hi) as Hd.
        cbn [set_in_file block_id_in_file_ indirect_0] in Hd. rewrite Hm in Hd. apply Hd; [lia|done].
      + apply (finish_double s inode (set_in_file (n + 1) f)); [done|cbn; lia|done|].
        cbn [set_in_file block_id_in_file_ indirect_0 indirect_1]. rewrite <- Hw. f_equal.
        fold n. rewrite IB12, W1 in *. Z.div_mod_to_equations. lia.
    - assert (Hz : n + 1 - IBLOCK_13 - 1 = 0) by lia.
      pose proof (descend_triple s inode (set_indirect_0 (i_block_at 14 inode) (set_in_file (n + 1) f)) Hi) as Hd.
      cbn [set_in_file set_indirect_0 block_id_in_file_ indirect_0] in Hd. rewrite Hz in Hd.
      apply Hd; [rewrite IB13, IB14 in *; lia|done]. }
  rewrite (proj2 (Z.leb_le n IBLOCK_14)) by lia.
  pose proof (levels_triple _ _ _ Hlev ltac:(lia)) as (H0 & Hw & Hw2). fold n in Hw, Hw2.
  destruct (Z.eqb_spec ((n + 1 - IBLOCK_13 - 1) mod WORDS) 0) as [Hm|Hm].
  - destruct (Z.eqb_spec ((n + 1 - IBLOCK_13 - 1) mod (WORDS * WORDS) / WORDS) 0) as [Hm2|Hm2].
    + apply (descend_triple s inode (set_in_file (n + 1) f) Hi); [cbn; lia|done].
    + apply (descend_triple_2 s inode (set_in_file (n + 1) f) Hi); [cbn; lia|done|].
      cbn [set_in_file block_id_in_file_ indirect_0 indirect_1]. rewrite <- Hw. f_equal.
      rewrite IB13, W1 in *. change (1024 * 1024) with 1048576 in *. Z.div_mod_to_equations. lia.
  - apply (finish_triple s inode (set_in_file (n + 1) f) Hi); [cbn; lia|done| |];
      cbn [set_in_file block_id_in_file_ indirect_0 indirect_1 indirect_2]; [rewrite <- Hw|rewrite <- Hw2];
      f_equal; rewrite IB13, W1 in *; change (1024 * 1024) with 1048576 in *; Z.div_mod_to_equations; lia.
Qed.

(** A cursor in the same double indirect block as [new]. *)
Lemma same_first old new :
  0 <= old <= IBLOCK_14 -> IBLOCK_12 < new <= IBLOCK_13 ->
  (new - IBLOCK_12 - 1) / WORDS = u32 (old - IBLOCK_12 - 1) / WORDS ->
  IBLOCK_12 < old <= IBLOCK_13 /\ u32 (old - IBLOCK_12 - 1) = old - IBLOCK_12 - 1.
Proof.
  unfold u32. rewrite IB12, IB13, IB14, W1. change (2 ^ 32) with 4294967296. intros Ho Hn He.
  Z.div_mod_to_equations. lia.
Qed.

Lemma seek_moves s inode f new v :
  inv s -> cursor_ok s inode f -> 0 <= new <= IBLOCK_13 -> resolve s inode new = Some (Some v) ->
  exists s' f', seek inode new f s = Ret (0, f') s' /\ inv s' /\ (forall i o, word s' i o = word s i o)
    /\ block_id_in_file_ f' = new /\ block_id_ f' = v /\ cursor_ok s' inode f'.
Proof.
  intros Hi [Hpos Hblk Hlev] Hnew Hv.
  assert (Hgo : forall m, moves_to s inode new m -> exists s' f', m s = Ret (0, f') s' /\ inv s'
    /\ (forall i o, word s' i o = word s i o)
    /\ block_id_in_file_ f' = new /\ block_id_ f' = v /\ cursor_ok s' inode f').
  { intros m Hm. destruct (Hm _ Hv) as (s' & f' & H1 & H2 & H3 & H4 & H5 & H6). eauto 10. }
  unfold seek. destruct (Z.leb_spec new IBLOCK_12) as [H12|H12].
  { destruct (Hgo _ (bf_seek_moves s inode new f Hi ltac:(rewrite IB13, IB14 in *; lia)))
      as (s' & f' & Hb & Hrest). exists s', f'. split; [by mstep Hb|done]. }
  rewrite (proj2 (Z.leb_le new IBLOCK_13)) by lia. cbn [set_in_file block_id_in_file_].
  set (old := block_id_in_file_ f) in *.
  destruct (Z.eqb_spec ((new - IBLOCK_12 - 1) / WORDS) (u32 (old - IBLOCK_12 - 1) / WORDS)) as [Hf|Hf];
    cbn [andb]; [|apply Hgo, bf_seek_moves; [done|rewrite IB13, IB14 in *; lia]].
  destruct (same_first old new Hpos ltac:(lia) Hf) as [Hold Hu]. rewrite Hu in *.
  pose proof (levels_double _ _ _ Hlev Hold) as [H0 Hw].
  destruct (Z.eqb_spec ((new - IBLOCK_12 - 1) mod WORDS) ((old - IBLOCK_12 - 1) mod WORDS)) as [Hs|Hs].
  - assert (new = old) as -> by (rewrite IB12, W1 in *; Z.div_mod_to_equations; lia).
    rewrite Hblk in Hv. injection Hv as <-. exists s, (set_in_file old f).
    split; [done|]. split; [done|]. split; [done|]. split; [done|]. split; [done|].
    unfold old. by destruct f.
  - apply Hgo. apply (finish_double s inode (set_in_file new f)); [done|cbn; lia|done|].
    cbn [set_in_file block_id_in_file_ indirect_0 indirect_1]. by rewrite Hf.
Qed.
End Resolve.

(** ** What the moves leave alone *)

Section Keep.
Context {S : Type} {reader : WordReader S}.

(** The handle stays on its inode, and its update flag stays. *)
Definition keeps (f : FileStatus) (m : M S (Z * FileStatus)) : Prop :=
  forall s r f' s', m s = Ret (r, f') s' ->
    f_inode_id f' = f_inode_id f /\ cache_update_flag_ f' = cache_update_flag_ f.

Lemma keeps_ret f f' (r : Z) :
  f_inode_id f' = f_inode_id f -> cache_update_flag_ f' = cache_update_flag_ f -> keeps f (mret (r, f')).
Proof. intros H1 H2 s r1 f1 s1 [= _ <- _]. done. Qed.

Lemma keeps_seek_or f f0 id off k :
  f_inode_id f0 = f_inode_id f -> cache_update_flag_ f0 = cache_update_flag_ f ->
  (forall v, keeps f (k v)) -> keeps f (seek_or id off f0 k).
Proof.
  intros H1 H2 Hk s r f1 s1 H. unfold seek_or in H. minv H as o s2 Ho.
  destruct o as [v|]; [by eapply Hk|]. by injection H as _ <- _.
Qed.

Ltac keeps :=
  repeat first
    [ case_match | apply keeps_ret; [done|done] | apply keeps_seek_or; [done|done|intros ?; cbv beta zeta] ].

Lemma bf_seek_keeps inode n f f0 :
  f_inode_id f0 = f_inode_id f -> cache_update_flag_ f0 = cache_update_flag_ f -> keeps f (bf_seek inode n f0).
Proof. intros H1 H2. unfold bf_seek. cbv zeta. keeps. Qed.

Lemma next_block_keeps inode f : keeps f (next_block inode f).
Proof. unfold next_block. cbv zeta. keeps. Qed.

Lemma seek_keeps inode n f : keeps f (seek inode n f).
Proof.
  unfold seek. cbv zeta. case_match; [|keeps; by apply bf_seek_keeps].
  intros s r f1 s1 Hb. minv Hb as x s2 Hx. destruct x as [r0 f0]. injection Hb as <- <- <-.
  by apply (bf_seek_keeps inode n f f eq_refl eq_refl) in Hx.
Qed.
End Keep.

(** ** Properties *)

(** C25. [bf_seek] moves the cursor to the block that the inode and its
    indirect blocks give for a file block, over all four ranges, or returns
    -EINVAL when an indirect block on the way is missing. *)
Theorem bf_seek_resolves {S} `{WordReader S} inv word `{!WordReaderSpec S inv word} s inode n f r :
  inv s -> 0 <= n <= IBLOCK_14 -> resolve word s inode n = Some r ->
  exists s' f', inv s' /\ (forall i o, word s' i o = word s i o) /\
    match r with
    | Some v => bf_seek inode n f s = Ret (0, f') s' /\ block_id_in_file_ f' = n /\ block_id_ f' = v
                /\ cursor_ok word s' inode f'
    | None => bf_seek inode n f s = Ret (- EINVAL, f') s'
    end.
Proof. intros Hi Hn Hr. exact (bf_seek_moves inv word s inode n f Hi Hn r Hr). Qed.

(** C24. [next_block], which reuses the indirect blocks the cursor remembers,
    arrives where [bf_seek] of the following block arrives, across every
    boundary between the ranges. *)
Theorem next_block_bf_seek {S} `{WordReader S} inv word `{!WordReaderSpec S inv word} s inode f v :
  inv s -> cursor_ok word s inode f -> block_id_in_file_ f < IBLOCK_14 ->
  resolve word s inode (block_id_in_file_ f + 1) = Some (Some v) ->
  exists s1 f1 s2 f2,
    next_block inode f s = Ret (0, f1) s1 /\ bf_seek inode (block_id_in_file_ f + 1) f s = Ret (0, f2) s2
    /\ block_id_ f1 = v /\ block_id_ f2 = v
    /\ block_id_in_file_ f1 = block_id_in_file_ f + 1 /\ cursor_ok word s1 inode f1 /\ inv s1.
Proof.
  intros Hi Hc Hlt Hv. pose proof (cur_pos _ _ _ _ Hc) as Hpos.
  destruct (next_block_moves inv word s inode f Hi Hc Hlt _ Hv) as (s1 & f1 & Hi1 & _ & Hm1 & Hp1 & Hb1 & Hc1).
  destruct (bf_seek_moves inv word s inode (block_id_in_file_ f + 1) f Hi ltac:(lia) _ Hv)
    as (s2 & f2 & _ & _ & Hm2 & _ & Hb2 & _).
  exists s1, f1, s2, f2. done.
Qed.

(** Up to the end of the double indirect range, [seek], which skips the
    reads that the old position makes unnecessary, arrives where [bf_seek]
    arrives. *)
Theorem seek_bf_seek {S} `{WordReader S} inv word `{!WordReaderSpec S inv word} s inode f n v :
  inv s -> cursor_ok word s inode f -> 0 <= n <= IBLOCK_13 -> resolve word s inode n = Some (Some v) ->
  exists s1 f1 s2 f2,
    seek inode n f s = Ret (0, f1) s1 /\ bf_seek inode n f s = Ret (0, f2) s2
    /\ block_id_ f1 = v /\ block_id_ f2 = v /\ block_id_in_file_ f1 = n
    /\ cursor_ok word s1 inode f1 /\ inv s1.
Proof.
  intros Hi Hc Hn Hv.
  destruct (seek_moves inv word s inode f n v Hi Hc Hn Hv) as (s1 & f1 & Hm1 & Hi1 & _ & Hp1 & Hb1 & Hc1).
  destruct (bf_seek_moves inv word s inode n f Hi ltac:(rewrite IB13, IB14 in *; lia) _ Hv)
    as (s2 & f2 & _ & _ & Hm2 & _ & Hb2 & _).
  exists s1, f1, s2, f2. done.
Qed.

(** In the triple indirect range [seek] within one third-level block reads
    the word of the second level's index instead of the third's. *)
Theorem seek_triple_reads_second {S} `{WordReader S} inv word `{!WordReaderSpec S inv word} s inode f n w :
  inv s -> cursor_ok word s inode f -> IBLOCK_13 < block_id_in_file_ f -> IBLOCK_13 < n <= IBLOCK_14 ->
  (n - IBLOCK_13 - 1) / (WORDS * WORDS) = (block_id_in_file_ f - IBLOCK_13 - 1) / (WORDS * WORDS) ->
  let second_id := (n - IBLOCK_13 - 1) mod (WORDS * WORDS) / WORDS in
  second_id = (block_id_in_file_ f - IBLOCK_13 - 1) mod (WORDS * WORDS) / WORDS ->
  n <> block_id_in_file_ f -> word s (indirect_2 f) second_id = Some (Some w) ->
  exists s' f', seek inode n f s = Ret (0, f') s' /\ block_id_in_file_ f' = n /\ block_id_ f' = w.
Proof.
  intros Hi [Hpos _ _] Hold Hn H1 second_id H2 Hne Hw.
  set (old := block_id_in_file_ f) in *. set (second := second_id) in *. unfold second_id in second. unfold seek. fold old.
  assert (Hu : u32 (old - IBLOCK_13 - 1) = old - IBLOCK_13 - 1).
  { apply u32_small. rewrite IB13, IB14 in *. lia. }
  rewrite Hu. rewrite !(proj2 (Z.leb_gt n _)) by (rewrite ?IB12, ?IB13 in *; lia).
  rewrite (proj2 (Z.leb_le n IBLOCK_14)) by lia. fold second. rewrite H1, <- H2, !Z.eqb_refl. cbn [andb].
  destruct (Z.eqb_spec ((n - IBLOCK_13 - 1) mod WORDS) ((old - IBLOCK_13 - 1) mod WORDS)) as [He|He].
  { exfalso. apply Hne. unfold second in H2. rewrite IB13, W1 in *. change (1024 * 1024) with 1048576 in *.
    Z.div_mod_to_equations. lia. }
  destruct (read_word_spec s (indirect_2 f) second (Some w) Hi Hw) as (s' & Hr & _).
  eexists s', _. split; [|split].
  - unfold seek_or. cbn [set_in_file indirect_2]. mstep Hr. reflexivity.
  - done.
  - done.
Qed.

(** [seek] drops the error of [bf_seek] for the direct and single indirect
    ranges: it answers 0 and keeps the old block. *)
Theorem seek_drops_error {S} `{WordReader S} inv word `{!WordReaderSpec S inv word} s inode f n :
  inv s -> IBLOCK_11 < n <= IBLOCK_12 -> resolve word s inode n = Some None ->
  exists s1 f1 s2 f2,
    bf_seek inode n f s = Ret (- EINVAL, f1) s1
    /\ seek inode n f s = Ret (0, f2) s2 /\ block_id_ f2 = block_id_ f.
Proof.
  intros Hi Hn Hr. unfold resolve in Hr. rewrite slot_single in Hr by done. cbn in Hr.
  destruct (word s (i_block_at 12 inode) (n - IBLOCK_11 - 1)) as [[v|]|] eqn:Hw; [done| |done].
  destruct (read_word_spec s _ _ None Hi Hw) as (s' & Hrd & _).
  assert (Hb : bf_seek inode n f s
               = Ret (- EINVAL, set_indirect_0 (i_block_at 12 inode) (set_in_file n f)) s').
  { unfold bf_seek. cbn [set_in_file block_id_in_file_]. rewrite (proj2 (Z.leb_gt _ _)) by lia.
    rewrite (proj2 (Z.leb_le _ _)) by lia. unfold seek_or. cbn [set_indirect_0 indirect_0].
    by mstep Hrd. }
  set (f' := set_indirect_0 (i_block_at 12 inode) (set_in_file n f)) in Hb.
  exists s', f', s', f'. split; [exact Hb|]. split; [|done].
  unfold seek. rewrite (proj2 (Z.leb_le n IBLOCK_12)) by lia. by mstep Hb.
Qed.

(** ** Instances of the properties *)

(** A reader in which block 0 is missing and word [off] of another block
    [id] is [1024 * id + off]. *)
Definition sample_word (_ : unit) (id off : Z) : option (option Z) :=
  Some (if id =? 0 then None else Some (WORDS * id + off)).

#[local] Instance sample_reader : WordReader unit :=
  fun id off s => Ret (if id =? 0 then None else Some (WORDS * id + off)) s.

#[local] Instance sample_reader_spec : WordReaderSpec unit (fun _ => True) sample_word.
Proof. intros s id off r _ [= <-]. exists s. done. Qed.

(** A file whose direct blocks are 1 to 12 and whose indirect blocks are
    [single], 14 and 15. *)
Definition sample_inode (single : Z) : ext2_inode :=
  mk_inode 0 0 0 0 0 0 0 0 0 0 0 0 [1; 2; 3; 4; 5; 6; 7; 8; 9; 10; 11; 12; single; 14; 15] 0 0 0 0 [0; 0; 0].

(** Its cursor on block [n], as [bf_seek] leaves it. *)
Definition sample_cursor (n : Z) : FileStatus :=
  match bf_seek (sample_inode 13) n (FileStatus_init 3) tt with
  | Ret (_, f) _ => f
  | Fault _ => FileStatus_init 3
  end.

Lemma sample_cursor_ok n v :
  0 <= n <= IBLOCK_14 -> resolve sample_word tt (sample_inode 13) n = Some (Some v) ->
  cursor_ok sample_word tt (sample_inode 13) (sample_cursor n) /\ block_id_in_file_ (sample_cursor n) = n.
Proof.
  intros Hn Hr.
  destruct (bf_seek_moves (fun _ => True) sample_word tt (sample_inode 13) n (FileStatus_init 3) I Hn _ Hr)
    as ([] & f' & _ & _ & Hm & Hp & _ & Hc).
  unfold sample_cursor. rewrite Hm. done.
Qed.

Lemma bf_seek_resolves_witness :
  exists f', bf_seek (sample_inode 13) 1049612 (FileStatus_init 3) tt = Ret (0, f') tt
    /\ block_id_ f' = 16106127360.
Proof.
  destruct (bf_seek_resolves (fun _ => True) sample_word tt (sample_inode 13) 1049612 (FileStatus_init 3)
              (Some 16106127360) I ltac:(by vm_compute) ltac:(by vm_compute))
    as ([] & f' & _ & _ & H1 & _ & H2 & _).
  exists f'. auto.
Defined.

(** From the last block of the single indirect range to the first one of
    the double indirect range. *)
Lemma next_block_bf_seek_witness :
  exists s1 f1, next_block (sample_inode 13) (sample_cursor 1035) tt = Ret (0, f1) s1
    /\ block_id_ f1 = 14680064 /\ block_id_in_file_ f1 = 1036.
Proof.
  destruct (next_block_bf_seek (fun _ => True) sample_word tt (sample_inode 13) (sample_cursor 1035) 14680064)
    as (s1 & f1 & _ & _ & H1 & _ & H2 & _ & H3 & _).
  - done.
  - by apply (sample_cursor_ok 1035 14335); vm_compute.
  - by vm_compute.
  - by vm_compute.
  - exists s1, f1. auto.
Defined.

Lemma seek_bf_seek_witness :
  exists s1 f1, seek (sample_inode 13) 1040 (sample_cursor 1036) tt = Ret (0, f1) s1
    /\ block_id_ f1 = 14680068.
Proof.
  destruct (seek_bf_seek (fun _ => True) sample_word tt (sample_inode 13) (sample_cursor 1036) 1040 14680068)
    as (s1 & f1 & _ & _ & H1 & _ & H2 & _).
  - done.
  - by apply (sample_cursor_ok 1036 14680064); vm_compute.
  - by vm_compute.
  - by vm_compute.
  - exists s1, f1. auto.
Defined.

(** Block 1049617 is word 5 of the third-level block; the code reads word 0. *)
Lemma seek_triple_reads_second_witness :
  resolve sample_word tt (sample_inode 13) 1049617 = Some (Some 16106127365)
  /\ exists s' f', seek (sample_inode 13) 1049617 (sample_cursor 1049612) tt = Ret (0, f') s'
       /\ block_id_in_file_ f' = 1049617 /\ block_id_ f' = 16106127360.
Proof.
  split; [by vm_compute|].
  apply (seek_triple_reads_second (fun _ => True) sample_word tt (sample_inode 13) (sample_cursor 1049612)
           1049617 16106127360).
  - done.
  - by apply (sample_cursor_ok 1049612 16106127360); vm_compute.
  - by vm_compute.
  - by vm_compute.
  - by vm_compute.
  - by vm_compute.
  - by vm_compute.
  - by vm_compute.
Defined.

Lemma seek_drops_error_witness :
  exists s1 f1 s2 f2,
    bf_seek (sample_inode 0) 12 (sample_cursor 3) tt = Ret (- EINVAL, f1) s1
    /\ seek (sample_inode 0) 12 (sample_cursor 3) tt = Ret (0, f2) s2 /\ block_id_ f2 = 4.
Proof.
  apply (seek_drops_error (fun _ => True) sample_word tt (sample_inode 0) (sample_cursor 3) 12);
    by vm_compute.
Defined.
