(* ===== verification/OpenFiles.v ===== *)
(** * Open files: classes InodeCache and OpManager of include/operation.h,
    reads and writes of src/operation/operation.cpp and data.cpp

    All file handles of an inode share one copy of it, an InodeCache, which
    is counted, written back when the last handle goes, and keeps a list of
    its handles so that a write can tell them to recompute their cursors. *)

From S2P Require Import Prelude Layout Disk Bitmap PathName Block BlockGroup BlockCache DentryCache.
From S2P Require Import FileSystem FileStatus.

(** ** State *)

(** class InodeCache; its [cache_] is the copy [InCopy id]. *)
Record InodeCache : Type := mk_icache {
  cnts_ : Z;
  vec : list positive
}.

Record OpSt : Type := mk_op {
  op_fs : FS;
  st_ : gmap Z InodeCache;
  op_files : gmap positive FileStatus;
  op_fresh : positive
}.

Definition on_fs {A} (m : M FS A) : M OpSt A :=
  zoom op_fs (fun f s => mk_op f (st_ s) (op_files s) (op_fresh s)) m.

Definition set_st (f : gmap Z InodeCache -> gmap Z InodeCache) : M OpSt unit :=
  modify_st (fun s => mk_op (op_fs s) (f (st_ s)) (op_files s) (op_fresh s)).

Definition set_files (f : gmap positive FileStatus -> gmap positive FileStatus) : M OpSt unit :=
  modify_st (fun s => mk_op (op_fs s) (st_ s) (f (op_files s)) (op_fresh s)).

(** The file system reads words of blocks by [get_block]. *)
#[export] Instance fs_reader : WordReader FS := fun id off =>
  or_error (get_block id) (fun p =>
    w ← load32 p off;
    mret (Some w)).

(** ** class FSList *)

Definition fslist_ins {A} (x : A) (l : list A) : list A := x :: l.

Fixpoint fslist_del {A} `{EqDecision A} (x : A) (l : list A) : list A :=
  match l with
  | [] => []
  | y :: l' => if decide (y = x) then l' else y :: fslist_del x l'
  end.

Fixpoint fslist_iter {S A} (l : list A) (func : A -> M S unit) : M S unit :=
  match l with
  | [] => mret tt
  | x :: l' =>
      _ ← func x;
      fslist_iter l' func
  end.

(** ** class InodeCache *)

(** [int copy()] *)
Definition ic_copy (id : Z) : M OpSt Z :=
  r ← on_fs (get_inode id);
  match r with
  | None => mret (- EIO)
  | Some ip =>
      v ← on_fs (iload ip);
      _ ← on_fs (set_copies (fun cs => <[id := v]> cs));
      mret 0
  end.

(** [int commit()] *)
Definition ic_commit (id : Z) : M OpSt Z :=
  r ← on_fs (get_inode id);
  match r with
  | None => mret (- EIO)
  | Some ip =>
      v ← on_fs (iload (InCopy id));
      _ ← on_fs (istore ip v);
      mret 0
  end.

(** [void upd_all()] *)
Definition upd_all (id : Z) : M OpSt unit :=
  s ← get_st;
  ic ← unwrap NullDeref (st_ s !! id);
  fslist_iter (vec ic) (fun fd =>
    s ← get_st;
    f ← unwrap UseAfterFree (op_files s !! fd);
    set_files (fun fs => <[fd := set_update_flag true f]> fs)).

(** ** class OpManager *)

(** [InodeCache* get_cache(uint32_t inode_id)]; false is [nullptr]. *)
Definition get_cache (id : Z) : M OpSt bool :=
  s ← get_st;
  ok ← match st_ s !! id with
       | Some _ => mret true
       | None =>
           r ← ic_copy id;
           if r =? 0 then
             _ ← set_st (fun m => <[id := mk_icache 0 []]> m);
             mret true
           else mret false
       end;
  if (ok : bool) then
    s ← get_st;
    ic ← unwrap NullDeref (st_ s !! id);
    _ ← set_st (fun m => <[id := mk_icache (u32 (cnts_ ic + 1)) (vec ic)]> m);
    mret true
  else mret false.

(** [void upd_cache(FileStatus* fd, uint32_t inode_id)] *)
Definition upd_cache (fd : positive) (id : Z) : M OpSt unit :=
  s ← get_st;
  match st_ s !! id with
  | None => mret tt
  | Some ic => set_st (fun m => <[id := mk_icache (cnts_ ic) (fslist_ins fd (vec ic))]> m)
  end.

(** [int rel_cache(uint32_t inode_id)] *)
Definition rel_cache (id : Z) : M OpSt Z :=
  s ← get_st;
  match st_ s !! id with
  | None => mret 0
  | Some ic =>
      let c := u32 (cnts_ ic - 1) in
      if c =? 0 then
        r ← ic_commit id;
        _ ← on_fs (set_copies (fun cs => delete id cs));
        _ ← set_st (fun m => delete id m);
        mret r
      else
        _ ← set_st (fun m => <[id := mk_icache c (vec ic)]> m);
        mret 0
  end.

(** ** File handles *)

(** [new FileStatus] *)
Definition file_new (id : Z) : M OpSt positive := fun s =>
  Ret (op_fresh s)
    (mk_op (op_fs s) (st_ s) (<[op_fresh s := FileStatus_init id]> (op_files s)) (Pos.succ (op_fresh s))).

Definition file_get (fd : positive) : M OpSt FileStatus :=
  s ← get_st;
  unwrap UseAfterFree (op_files s !! fd).

Definition file_set (fd : positive) (f : FileStatus) : M OpSt unit :=
  set_files (fun fs => <[fd := f]> fs).

(** [delete fd]: the destructor leaves the list of the inode cache. *)
Definition file_delete (fd : positive) : M OpSt unit :=
  f ← file_get fd;
  s ← get_st;
  ic ← unwrap UseAfterFree (st_ s !! f_inode_id f);
  _ ← set_st (fun m => <[f_inode_id f := mk_icache (cnts_ ic) (fslist_del fd (vec ic))]> m);
  set_files (fun fs => delete fd fs).

(** The inode cache of a handle, and updates of it. *)
Definition file_inode (fd : positive) : M OpSt ext2_inode :=
  f ← file_get fd;
  on_fs (iload (InCopy (f_inode_id f))).

Definition file_inode_update (fd : positive) (g : ext2_inode -> ext2_inode) : M OpSt unit :=
  f ← file_get fd;
  on_fs (iupdate (InCopy (f_inode_id f)) g).

(** A cursor operation of a handle: its result code. *)
Definition move (fd : positive) (op : ext2_inode -> FileStatus -> M FS (Z * FileStatus)) : M OpSt Z :=
  f ← file_get fd;
  inode ← file_inode fd;
  '(r, f) ← on_fs (op inode f);
  _ ← file_set fd f;
  mret r.

(** [fs->get_block(block_id_, &blk, dirty, offset, buf, csz)] of a handle. *)
Definition file_block (fd : positive) (dirty : bool) (offset : Z) (buf : list byte) (csz : Z)
  : M OpSt (option (list byte)) :=
  f ← file_get fd;
  r ← on_fs (get_block_copy (block_id_ f) dirty offset buf csz);
  mret (snd <$> r).

(** [fs->alloc_block(&blk, &index, inode_cache_->cache_)] *)
Definition file_alloc (fd : positive) : M OpSt bool :=
  f ← file_get fd;
  r ← on_fs (alloc_block_inode None (InCopy (f_inode_id f)));
  mret (bool_decide (is_Some r)).

(** [file_size()] *)
Definition file_size (fd : positive) : M OpSt Z :=
  inode ← file_inode fd;
  mret (i_size inode).

(** An early return with a code that is not 0. *)
Definition check {A} (m : M OpSt Z) (f : Z -> A) : M OpSt (A + unit) :=
  r ← m;
  if r =? 0 then go (mret tt) else ret (f r).

(** ** Reading *)

(** The [while (size)] of [copy_to_buf]; the answer is the return value and
    the bytes put into the buffer. *)
Fixpoint read_loop (fuel : nat) (fd : positive) (isize offset size : Z) (acc : list byte)
  : M OpSt (Z * list byte + Z * list byte) :=
  match fuel with
  | O => fail OutOfFuel
  | S fuel' =>
      if size =? 0 then mret (inr (i32 (Z.of_nat (length acc)), acc))
      else if isize <=? offset then ret (i32 (Z.of_nat (length acc)), acc)
      else
        r ← move fd next_block;
        let csz := Z.min size (Z.min (isize - offset) BLOCK_SIZE) in
        _ ←? check (mret r) (fun r => (r, acc));
        b ← file_block fd false 0 [] csz;
        match b with
        | None => ret (- EINVAL, acc)
        | Some bs => read_loop fuel' fd isize (offset + csz) (size - csz) (acc ++ bs)
        end
  end.

(** [int copy_to_buf(char* buf, size_t offset, size_t size)] *)
Definition copy_to_buf (fd : positive) (offset size : Z) : M OpSt (Z * list byte) :=
  body (
    isize ← file_size fd;
    if isize <=? offset then ret (0, [])
    else
      _ ←? check (move fd _upd_cache) (fun r => (r, []));
      _ ←? check (move fd (fun inode => seek inode (u32 (offset / BLOCK_SIZE)))) (fun r => (r, []));
      let csz := Z.min size (BLOCK_SIZE - offset mod BLOCK_SIZE) in
      b ← file_block fd false (offset mod BLOCK_SIZE) [] csz;
      match b with
      | None => ret (- EINVAL, [])
      | Some bs =>
          read_loop (S (Z.to_nat (size / BLOCK_SIZE + 1))) fd isize (offset + csz) (size - csz) bs
      end).

(** ** Writing *)

(** The first [while] of [write]: the file grows by whole blocks until its
    last block is the one before [offset]. *)
Fixpoint grow_loop (fuel : nat) (fd : positive) (offset : Z) : M OpSt (Z + unit) :=
  match fuel with
  | O => fail OutOfFuel
  | S fuel' =>
      sz ← file_size fd;
      if u32 (sz + BLOCK_SIZE - sz mod BLOCK_SIZE) <? offset then
        ok ← file_alloc fd;
        if negb ok then ret 0
        else
          _ ← file_inode_update fd (fun i =>
                set_i_size (u32 (i_size i + (BLOCK_SIZE - i_size i mod BLOCK_SIZE))) i);
          grow_loop fuel' fd offset
      else go (mret tt)
  end.

(** [i_size = std::max(i_size, offset)] *)
Definition extend_size (fd : positive) (offset : Z) : M OpSt unit :=
  file_inode_update fd (fun i => set_i_size (u32 (Z.max (i_size i) offset)) i).

(** The [while (size)] of the growing branch; [buf] is what is left of the
    buffer and [done] the number of bytes written. *)
Fixpoint write_loop (fuel : nat) (fd : positive) (buf : list byte) (offset size done : Z)
  : M OpSt (Z + Z) :=
  match fuel with
  | O => fail OutOfFuel
  | S fuel' =>
      if size =? 0 then go (mret (i32 done))
      else
        let csz := Z.min size BLOCK_SIZE in
        sz ← file_size fd;
        ok ← (if sz <=? offset then file_alloc fd else mret true);
        if negb ok then ret (i32 done)
        else
          _ ←? check (move fd next_block) (fun _ => - EIO);
          b ← file_block fd true 0 buf csz;
          match b with
          | None => ret (- EIO)
          | Some _ =>
              _ ← extend_size fd (offset + csz);
              write_loop fuel' fd (drop (Z.to_nat csz) buf) (offset + csz) (size - csz) (done + csz)
          end
  end.

(** The [while (size)] of the overwriting branch. *)
Fixpoint overwrite_loop (fuel : nat) (fd : positive) (buf : list byte) (isize offset size done : Z)
  : M OpSt (Z + Z) :=
  match fuel with
  | O => fail OutOfFuel
  | S fuel' =>
      if size =? 0 then go (mret (i32 done))
      else
        let csz := Z.min size BLOCK_SIZE in
        if isize <=? offset then ret (i32 done)
        else
          _ ←? check (move fd next_block) (fun r => r);
          b ← file_block fd true 0 buf csz;
          match b with
          | None => ret (- EINVAL)
          | Some _ =>
              overwrite_loop fuel' fd (drop (Z.to_nat csz) buf) isize (offset + csz) (size - csz) (done + csz)
          end
  end.

(** [int write(const char* buf, size_t offset, size_t size, bool append_flag)] *)
Definition file_write (fd : positive) (buf : list byte) (offset size : Z) (append_flag : bool) : M OpSt Z :=
  body (
    isize ← file_size fd;
    _ ←? check (move fd _upd_cache) (fun r => r);
    let offset := if append_flag then isize else offset in
    let fuel := S (Z.to_nat (size / BLOCK_SIZE + 1)) in
    let csz := Z.min size (BLOCK_SIZE - offset mod BLOCK_SIZE) in
    if isize <? u64 (offset + size) then
      _ ←? grow_loop (S (Z.to_nat (offset / BLOCK_SIZE + 1))) fd offset;
      sz ← file_size fd;
      ok ← (if sz mod BLOCK_SIZE =? 0 then file_alloc fd else mret true);
      if negb ok then ret 0
      else
        _ ←? check (move fd (fun inode => seek inode (u32 (offset / BLOCK_SIZE)))) (fun r => r);
        b ← file_block fd true (offset mod BLOCK_SIZE) buf csz;
        match b with
        | None => ret (- EINVAL)
        | Some _ =>
            _ ← extend_size fd (offset + csz);
            r ←? write_loop fuel fd (drop (Z.to_nat csz) buf) (offset + csz) (size - csz) csz;
            f ← file_get fd;
            _ ← upd_all (f_inode_id f);
            go (mret r)
        end
    else
      _ ←? check (move fd (fun inode => seek inode (u32 (offset / BLOCK_SIZE)))) (fun r => r);
      b ← file_block fd true (offset mod BLOCK_SIZE) buf csz;
      match b with
      | None => ret (- EINVAL)
      | Some _ =>
          overwrite_loop fuel fd (drop (Z.to_nat csz) buf) isize (offset + csz) (size - csz) csz
      end).

(** [int append(const char* buf, size_t offset, size_t size)] *)
Definition file_append (fd : positive) (buf : list byte) (offset size : Z) : M OpSt Z :=
  file_write fd buf offset size true.

(** [bool is_one_block(off_t off)] and [bool check_size(off_t off, size_t counts)] *)
Definition is_one_block (fd : positive) (off : Z) : M OpSt bool :=
  f ← file_get fd;
  mret (Z.quot off BLOCK_SIZE =? block_id_in_file_ f).

Definition check_size (fd : positive) (off counts : Z) : M OpSt bool :=
  inode ← file_inode fd;
  mret (i_size inode <? u64 (counts + off)).

(** ** src/operation/data.cpp *)

Definition O_ACCMODE : Z := 3.
Definition O_RDONLY : Z := 0.
Definition O_WRONLY : Z := 1.
Definition O_RDWR : Z := 2.
Definition O_APPEND : Z := 0x400.

(** The members of [struct fuse_file_info] that the code reads: the handle,
    [None] for a null one, and the flags of the open file. *)
Record fuse_file_info : Type := mk_file_info {
  fi_fh : option positive;
  fi_flags : Z
}.

(** A pointer to such a structure. *)
Definition file_info (fh : option positive) (flags : Z) : option fuse_file_info := Some (mk_file_info fh flags).

(** [FileStatus* _fuse_trans_info(struct fuse_file_info* fi)] *)
Definition _fuse_trans_info (fi : fuse_file_info) : option positive := fi_fh fi.

(** [int fuse_read(...)]: [fi] is [None] for a null pointer.  The handlers also
    answer [-EINVAL] when [fs] is null, which it is only before [fuse_init] and
    after [fuse_destroy], where there is no [OpSt]. *)
Definition fuse_read (size offset : Z) (fi : option fuse_file_info) : M OpSt (Z * list byte) :=
  match fi with
  | None => mret (- EINVAL, [])
  | Some fi =>
      match _fuse_trans_info fi with
      | None => mret (- EINVAL, [])
      | Some fd =>
          if Z.land (fi_flags fi) O_ACCMODE =? O_WRONLY then mret (- EINVAL, [])
          else copy_to_buf fd offset size
      end
  end.

(** [int fuse_write(...)] *)
Definition fuse_write (buf : list byte) (size offset : Z) (fi : option fuse_file_info) : M OpSt Z :=
  match fi with
  | None => mret (- EINVAL)
  | Some fi =>
      match _fuse_trans_info fi with
      | None => mret (- EBADF)
      | Some fd =>
          if Z.land (fi_flags fi) O_ACCMODE =? O_RDONLY then mret (- EACCES)
          else if size =? 0 then mret 0
          else file_write fd buf offset size (negb (Z.land (fi_flags fi) O_APPEND =? 0))
      end
  end.
