(* ===== verification/FsBlocks.v ===== *)
(** * What the file system's blocks hold

    The block cache, the block groups and the disk joined: [fs_inv] is the
    invariant under which [get_block] is transparent, and [fview s i] is what
    block [i] holds.  The file system then fulfils the interface
    [WordReaderSpec] that the cursors of open files rely on. *)

From S2P Require Import Prelude Layout Disk Bitmap PathName Block BlockGroup BlockCache DentryCache.
From S2P Require Import FileSystem FileStatus OpenFiles.

(** ** The layout of the disk *)

(** Where the block bitmap of a group is. *)
Definition bitmap_off (gi : Z) : Z := gi * MAX_BLOCK_GROUP_SIZE + 2 * BLOCK_SIZE.

(** The offset of a data block, by its number in the file system. *)
Definition fs_off (i : Z) : Z :=
  bitmap_off (i / TOTAL_BLOCKS_PER_GROUP) + NUM_INODE_TABLE_BLOCKS * BLOCK_SIZE
  + (i mod TOTAL_BLOCKS_PER_GROUP) * BLOCK_SIZE.

(** The groups that lie below 2 GiB, where [__disk_write] works. *)
Definition MAX_GROUPS : Z := 15.

Definition fs_valid (i : Z) : Prop :=
  0 <= i /\ i / TOTAL_BLOCKS_PER_GROUP < MAX_GROUPS /\ i mod TOTAL_BLOCKS_PER_GROUP < BLOCKS_PER_GROUP.

Lemma TBPG_eq : TOTAL_BLOCKS_PER_GROUP = 33794. Proof. done. Qed.
Lemma MAXB_eq : MAX_BLOCK_GROUP_SIZE = 138420224. Proof. done. Qed.
Lemma ITB_eq : NUM_INODE_TABLE_BLOCKS = 1024. Proof. done. Qed.
Lemma BPG_eq : BLOCKS_PER_GROUP = 32768. Proof. done. Qed.

(** A data block lies inside its group. *)
Lemma fs_off_bounds i :
  fs_valid i ->
  (i / TOTAL_BLOCKS_PER_GROUP) * MAX_BLOCK_GROUP_SIZE <= fs_off i
  /\ fs_off i + BLOCK_SIZE <= (i / TOTAL_BLOCKS_PER_GROUP + 1) * MAX_BLOCK_GROUP_SIZE.
Proof.
  unfold fs_valid, fs_off, bitmap_off. rewrite TBPG_eq, MAXB_eq, ITB_eq, BPG_eq.
  change BLOCK_SIZE with 4096. intros (H0 & H1 & H2).
  pose proof (Z.mod_pos_bound i 33794 ltac:(lia)). lia.
Qed.

Lemma fs_offsets_ok : offsets_ok fs_off fs_valid.
Proof.
  constructor.
  - intros i _. unfold aligned, fs_off, bitmap_off, MAX_BLOCK_GROUP_SIZE. apply Z.eqb_eq.
    rewrite ITB_eq, TBPG_eq. change BLOCK_SIZE with (8 * 512). change DISK_ALIGN with 512.
    set (a := i / 33794). set (b := i mod 33794).
    replace (a * (33794 * (8 * 512)) + 2 * (8 * 512) + 1024 * (8 * 512) + b * (8 * 512))
      with ((a * 33794 * 8 + 2 * 8 + 1024 * 8 + b * 8) * 512) by lia.
    apply Z_mod_mult.
  - intros i Hv. pose proof (fs_off_bounds i Hv) as [H _]. destruct Hv as (H0 & _).
    pose proof (Z.div_pos i TOTAL_BLOCKS_PER_GROUP H0 ltac:(done)). rewrite MAXB_eq in H. lia.
  - intros i Hv. pose proof (fs_off_bounds i Hv) as [H H']. destruct Hv as (H0 & H1 & _).
    pose proof (Z.div_pos i TOTAL_BLOCKS_PER_GROUP H0 ltac:(done)).
    rewrite MAXB_eq in *. unfold MAX_GROUPS in H1. change BLOCK_SIZE with 4096 in H'.
    rewrite i32_small; lia.
  - intros i j Hi Hj Hne. pose proof (fs_off_bounds i Hi) as [Hi1 Hi2].
    pose proof (fs_off_bounds j Hj) as [Hj1 Hj2].
    destruct (decide (i / TOTAL_BLOCKS_PER_GROUP = j / TOTAL_BLOCKS_PER_GROUP)) as [E|E].
    + unfold fs_off. rewrite E. change BLOCK_SIZE with 4096.
      assert (i mod TOTAL_BLOCKS_PER_GROUP <> j mod TOTAL_BLOCKS_PER_GROUP); [|lia].
      intros Em. apply Hne. rewrite (Z.div_mod i TOTAL_BLOCKS_PER_GROUP), (Z.div_mod j TOTAL_BLOCKS_PER_GROUP) by done.
      by rewrite E, Em.
    + rewrite MAXB_eq in *. lia.
Qed.

(** ** The invariant *)

(** Block [i] is marked as used in the bitmap of its group. *)
Definition allocated (s : FS) (i : Z) : bool :=
  match fs_groups s !! (i / TOTAL_BLOCKS_PER_GROUP) with
  | Some g =>
      (i mod TOTAL_BLOCKS_PER_GROUP <? BLOCKS_PER_GROUP)
      && bm_bit (block_bitmap_ g) (i mod TOTAL_BLOCKS_PER_GROUP)
  | None => false
  end.

Record fs_inv (s : FS) : Prop := {
  inv_bpg : blocks_per_group (fs_super s) = TOTAL_BLOCKS_PER_GROUP;
  inv_groups : forall gi g, fs_groups s !! gi = Some g ->
    0 <= gi < MAX_GROUPS /\ bm_wf (block_bitmap_ g) /\ offset_ (block_bitmap_ g) = bitmap_off gi;
  inv_store : exists l, store_ok fs_off fs_valid l (fs_store s)
    /\ forall e, e ∈ l -> allocated s (Lru.key e) = true;
  inv_cache : 0 < size_ (st_cache (fs_store s));
  inv_fresh : forall p, is_Some (st_mem (fs_store s) !! p) -> (p < st_next (fs_store s))%positive;
  inv_disk : MAX_GROUPS * MAX_BLOCK_GROUP_SIZE <= disk_size (st_disk (fs_store s))
}.

(** What block [i] holds. *)
Definition fview (s : FS) (i : Z) : list byte := view fs_off (fs_store s) i.

Lemma allocated_valid s i : fs_inv s -> allocated s i = true -> fs_valid i.
Proof.
  intros Hinv Ha. unfold allocated in Ha.
  destruct (fs_groups s !! (i / TOTAL_BLOCKS_PER_GROUP)) as [g|] eqn:Hg; [|done].
  apply andb_true_iff in Ha as [Hm _]. apply Z.ltb_lt in Hm.
  destruct (inv_groups _ Hinv _ _ Hg) as (Hgi & _ & _).
  split; [|by split; [apply Hgi|]].
  assert (~ i < 0); [|lia]. intros Hneg.
  pose proof (Z.div_lt_upper_bound i TOTAL_BLOCKS_PER_GROUP 0 ltac:(done) ltac:(lia)). lia.
Qed.

(** Only the store has changed. *)
Definition with_store (st : Store) (s : FS) : FS :=
  mk_fs st (fs_super s) (fs_groups s) (fs_dentry s) (fs_copies s).

Lemma allocated_with_store st s i : allocated (with_store st s) i = allocated s i.
Proof. done. Qed.

Lemma on_store_eq {A} (m : M Store A) s a st :
  m (fs_store s) = Ret a st -> on_store m s = Ret a (with_store st s).
Proof. intros H. unfold on_store, zoom. by rewrite H. Qed.

(** A step of the store that keeps its invariant keeps that of the file
    system. *)
Lemma fs_inv_store s st l :
  fs_inv s -> store_ok fs_off fs_valid l st -> (forall e, e ∈ l -> allocated s (Lru.key e) = true) ->
  0 < size_ (st_cache st) -> (forall p, is_Some (st_mem st !! p) -> (p < st_next st)%positive) ->
  disk_size (st_disk (fs_store s)) <= disk_size (st_disk st) -> fs_inv (with_store st s).
Proof.
  intros Hinv Hok Hal Hsz Hfr Hd. constructor; cbn; try apply Hinv; try done.
  - exists l. done.
  - pose proof (inv_disk _ Hinv). lia.
Qed.

Lemma fs_inv_frame s st l :
  fs_inv s -> store_ok fs_off fs_valid l st -> (forall e, e ∈ l -> allocated s (Lru.key e) = true) ->
  store_frame (fs_store s) st -> fs_inv (with_store st s).
Proof.
  intros Hinv Hok Hal Hf. apply (fs_inv_store s st l); try done.
  - rewrite (fr_size _ _ Hf). apply Hinv.
  - intros p Hp. rewrite (fr_next _ _ Hf). apply (inv_fresh _ Hinv). by apply (fr_mem _ _ Hf).
  - apply (fr_disk _ _ Hf).
Qed.

(** ** Pointers to cached blocks *)

(** [p] is the block that the cache holds for block [i], among the [n] most
    recently used ones: it is not evicted before the cache has taken that
    many blocks in less than its capacity. *)
Definition recent (s : FS) (n : nat) (i : Z) (p : positive) : Prop :=
  exists l d, store_ok fs_off fs_valid l (fs_store s) /\ (i, p, d) ∈ take n l.

Lemma store_ok_unique l l' st : store_ok fs_off fs_valid l st -> store_ok fs_off fs_valid l' st -> l = l'.
Proof. intros H H'. exact (cache_rep_unique _ _ _ (ok_rep _ _ _ _ H) (ok_rep _ _ _ _ H')). Qed.

Lemma elem_of_take_filter (n : nat) (f : Z * positive * bool -> bool) l x :
  x ∈ take n l -> f x = true -> x ∈ take n (List.filter f l).
Proof.
  revert n. induction l as [|y l IH]; intros [|n] Hx Hf; cbn in *; [by apply not_elem_of_nil in Hx..|].
  apply elem_of_cons in Hx as [->|Hx].
  - rewrite Hf. cbn. by constructor.
  - specialize (IH n Hx Hf). destruct (f y); cbn; [by constructor|].
    apply list_elem_of_lookup in IH as [k Hk]. apply lookup_take_Some in Hk as [Hk Hn].
    apply list_elem_of_lookup. exists k. apply lookup_take_Some. split; [done|lia].
Qed.

(** A hit moves one block to the front. *)
Lemma recent_hit s st n i p j d d' l :
  store_ok fs_off fs_valid l (fs_store s) -> store_ok fs_off fs_valid ((i, p, d') :: Lru.drop i l) st ->
  (i, p, d) ∈ l -> forall q, recent s n j q -> recent (with_store st s) (S n) j q.
Proof.
  intros Hok Hok' Hi q (l0 & d0 & Hok0 & Hin). rewrite (store_ok_unique _ _ _ Hok0 Hok) in Hin.
  destruct (decide (j = i)) as [->|Hne].
  - assert (Hq : (i, q, d0) = (i, p, d)).
    { apply (NoDup_fmap_inj Lru.key l); [by apply (store_ok_keys _ _ _ _ Hok)| |done|done].
      apply elem_of_take in Hin as (k & Hk & _). by eapply list_elem_of_lookup_2. }
    injection Hq as -> _. exists ((i, p, d') :: Lru.drop i l), d'. split; [done|]. cbn. by constructor.
  - exists ((i, p, d') :: Lru.drop i l), d0. split; [done|]. cbn. constructor.
    apply elem_of_take_filter; [done|]. cbn. by rewrite (proj2 (Z.eqb_neq j i)).
Qed.

(** An insertion evicts the last block only. *)
Lemma recent_insert s st n i p d j l :
  store_ok fs_off fs_valid l (fs_store s) ->
  store_ok fs_off fs_valid
    ((i, p, d) :: if Z.of_nat (length l) <? size_ (st_cache (fs_store s)) then l else removelast l) st ->
  Z.of_nat n < size_ (st_cache (fs_store s)) ->
  forall q, recent s n j q -> recent (with_store st s) (S n) j q.
Proof.
  intros Hok Hok' Hn q (l0 & d0 & Hok0 & Hin). rewrite (store_ok_unique _ _ _ Hok0 Hok) in Hin.
  eexists _, d0. split; [exact Hok'|]. cbn. constructor.
  destruct (Z.ltb_spec (Z.of_nat (length l)) (size_ (st_cache (fs_store s)))) as [|Hge]; [done|].
  apply list_elem_of_lookup in Hin as [k Hk]. apply lookup_take_Some in Hk as [Hk Hkn].
  apply list_elem_of_lookup. exists k. apply lookup_take_Some. split; [|done].
  assert (Hl : l <> []) by (intros ->; cbn in Hge; lia).
  rewrite (app_removelast_last (0, 1%positive, false) Hl) in Hk.
  rewrite lookup_app_l in Hk; [done|].
  pose proof (f_equal length (app_removelast_last (0, 1%positive, false) Hl)) as HL.
  rewrite length_app in HL. cbn in HL. lia.
Qed.

(** ** get_block *)

(** [new Block]: a fresh address. *)
Lemma block_new_ok s l b :
  store_ok fs_off fs_valid l s -> (forall p, is_Some (st_mem s !! p) -> (p < st_next s)%positive) ->
  let s' := mk_store (st_disk s) (<[st_next s := b]> (st_mem s)) (Pos.succ (st_next s)) (st_cache s) in
  block_new b s = Ret (st_next s) s' /\ store_ok fs_off fs_valid l s'
  /\ (st_next s ∉ (eptr <$> l))
  /\ (forall p, is_Some (st_mem s' !! p) -> (p < st_next s')%positive)
  /\ forall j, view fs_off s' j = view fs_off s j.
Proof.
  intros Hok Hfr s'.
  assert (Hne : forall e, e ∈ l -> eptr e <> st_next s).
  { intros e He E. destruct (ok_entries _ _ _ _ Hok e He) as (_ & b1 & Hb1 & _).
    specialize (Hfr (eptr e) ltac:(eauto)). lia. }
  assert (Hok' : store_ok fs_off fs_valid l s').
  { constructor; [apply Hok|apply Hok| |apply Hok]. intros e He.
    destruct (ok_entries _ _ _ _ Hok e He) as (Hv & b1 & Hb1 & H). split; [done|]. exists b1.
    cbn. rewrite lookup_insert_ne by (intros E; by apply (Hne e)). done. }
  split; [done|]. split; [done|]. split.
  - intros Hin. apply list_elem_of_fmap in Hin as (e & E & He). by apply (Hne e).
  - split.
    + intros p [x Hp]. cbn in Hp |- *. destruct (decide (p = st_next s)) as [->|]; [lia|].
      rewrite lookup_insert_ne in Hp by done. specialize (Hfr p ltac:(eauto)). lia.
    + intros j. rewrite (view_find _ _ _ _ _ Hok'), (view_find _ _ _ _ _ Hok).
      destruct (Lru.find j l) as [e|] eqn:Hf; [|done]. apply find_key in Hf as [He _]. cbn.
      rewrite lookup_insert_ne; [done|]. intros E. by apply (Hne e).
Qed.

(** The [memcpy] of [get_block] on a cached block. *)
Lemma block_copy_ok s l i p d dirty offset buf n :
  store_ok fs_off fs_valid l s -> (i, p, d) ∈ l -> (dirty = true -> d = true) ->
  0 <= offset -> 0 <= n -> offset + n <= BLOCK_SIZE ->
  (dirty = true -> n <= Z.of_nat (length buf)) ->
  exists s', block_copy p dirty offset buf n s
      = Ret (if dirty then buf else slice offset n (view fs_off s i)) s'
    /\ store_ok fs_off fs_valid l s' /\ store_frame s s'
    /\ (exists b, st_mem s' !! p = Some b /\ data_ b = view fs_off s' i)
    /\ forall j, view fs_off s' j
         = if (j =? i) && dirty then splice offset (take (Z.to_nat n) buf) (view fs_off s i)
           else view fs_off s j.
Proof.
  intros Hok Hin Hd Ho Hn Hon Hbuf.
  destruct (ok_entries _ _ _ _ Hok _ Hin) as (Hv & b & Hb & _ & Hlen & _).
  change (eptr (i, p, d)) with p in Hb.
  assert (Hview : view fs_off s i = data_ b).
  { rewrite (view_find _ _ _ _ _ Hok), (find_elem l i (i, p, d)); [|by eapply store_ok_keys|done|done].
    cbn. by rewrite Hb. }
  assert (HL : Z.of_nat (length (data_ b)) = BLOCK_SIZE) by (rewrite Hlen; done).
  unfold block_copy. rewrite (bind_ret _ _ _ b s) by (unfold block_deref; by rewrite Hb).
  rewrite (proj2 (in_range_spec _ _ _)) by lia. cbn [negb]. destruct dirty.
  - specialize (Hd eq_refl). specialize (Hbuf eq_refl). subst d.
    rewrite (proj2 (Z.ltb_ge _ _)) by lia.
    set (data := splice offset (take (Z.to_nat n) buf) (data_ b)).
    assert (HL' : length data = Z.to_nat BLOCK_SIZE).
    { unfold data. rewrite length_splice; [done|done|]. rewrite length_take. lia. }
    destruct (update_ok fs_off fs_valid s l i p b data Hok Hin Hb HL') as [Hok' Hv'].
    rewrite (bind_ret _ _ _ tt (mk_store (st_disk s) (<[p := with_data data b]> (st_mem s)) (st_next s) (st_cache s)))
      by (unfold block_update; by rewrite Hb).
    eexists. split; [reflexivity|]. split; [done|]. split.
    { constructor; cbn; [done|done| |lia]. intros q [x Hq].
      destruct (decide (q = p)) as [->|]; [eauto|]. rewrite lookup_insert_ne in Hq by done. eauto. }
    split.
    + exists (with_data data b). split; [cbn; apply lookup_insert_eq|]. rewrite Hv', Z.eqb_refl. done.
    + intros j. rewrite Hv', Hview. by destruct (j =? i).
  - exists s. rewrite Hview. split; [done|]. split; [done|]. split; [done|]. split; [by exists b|].
    intros j. by rewrite andb_false_r.
Qed.

(** Reading a block that is not cached from its group. *)
Lemma group_get_block_ok s i g :
  fs_inv s -> fs_groups s !! (i / TOTAL_BLOCKS_PER_GROUP) = Some g ->
  i mod TOTAL_BLOCKS_PER_GROUP < BLOCKS_PER_GROUP ->
  on_group (i / TOTAL_BLOCKS_PER_GROUP) (group_get_block (i mod TOTAL_BLOCKS_PER_GROUP)) s
  = Ret (if allocated s i then Some (mk_block (fs_off i) (block_at (st_disk (fs_store s)) (fs_off i))) else None) s.
Proof.
  intros Hinv Hg Hm. destruct (inv_groups _ Hinv _ _ Hg) as (Hgi & Hwf & Ho).
  pose proof (Z.mod_pos_bound i TOTAL_BLOCKS_PER_GROUP ltac:(done)) as Hmod.
  set (inner := i mod TOTAL_BLOCKS_PER_GROUP) in *. set (gi := i / TOTAL_BLOCKS_PER_GROUP) in *.
  assert (Hal : allocated s i = bm_bit (block_bitmap_ g) inner).
  { unfold allocated. fold gi inner. rewrite Hg. by rewrite (proj2 (Z.ltb_lt _ _) Hm). }
  assert (Hback : mk_fs (mk_store (st_disk (fs_store s)) (st_mem (fs_store s)) (st_next (fs_store s)) (st_cache (fs_store s)))
             (fs_super s) (<[gi := g]> (fs_groups s)) (fs_dentry s) (fs_copies s) = s).
  { rewrite insert_id by done. by destruct s as [[] ? ? ? ?]. }
  unfold on_group. rewrite Hg. unfold group_get_block.
  rewrite (bind_ret _ _ _ g (mk_gst (st_disk (fs_store s)) (fs_super s) g)) by done.
  rewrite (bind_ret _ _ _ _ _ (bm_test_spec _ inner (block_bitmap_ g) Hwf ltac:(change BITS with BLOCKS_PER_GROUP; lia))).
  rewrite Hal. destruct (bm_bit (block_bitmap_ g) inner) eqn:Hbit; cbn [negb].
  - assert (Hv : fs_valid i) by (apply (allocated_valid s); [done|by rewrite Hal]).
    assert (Hoff : data_block_offset g inner = fs_off i).
    { unfold data_block_offset, fs_off. rewrite Ho. fold gi inner.
      rewrite u32_small; [done|]. rewrite BPG_eq in Hm. change BLOCK_SIZE with 4096. lia. }
    assert (Hread : Block_init (data_block_offset g inner) false (st_disk (fs_store s))
      = Ret (mk_block (fs_off i) (block_at (st_disk (fs_store s)) (fs_off i))) (st_disk (fs_store s))).
    { unfold Block_init. rewrite Hoff. cbn [negb]. destruct (inv_store _ Hinv) as (l & Hok & _).
      pose proof (fs_off_bounds i Hv) as [Hlo Hhi]. pose proof (inv_disk _ Hinv) as Hd.
      rewrite (bind_ret _ _ _ _ _ (disk_read_block (st_disk (fs_store s)) (fs_off i) (ok_disk _ _ _ _ Hok)
                 (off_aligned _ _ fs_offsets_ok i Hv) (off_pos _ _ fs_offsets_ok i Hv)
                 ltac:(unfold MAX_GROUPS in *; rewrite MAXB_eq in *; fold gi in Hlo, Hhi; lia))).
      done. }
    unfold on_disk, zoom. cbn [gs_disk]. unfold mbind at 1, M_bind at 1. cbn [gs_disk].
    rewrite Hread. cbn. by rewrite Hback.
  - cbn. by rewrite Hback.
Qed.

(** [load_group] of a group that is loaded. *)
Lemma load_group_loaded s gi g : fs_groups s !! gi = Some g -> load_group gi s = Ret tt s.
Proof. intros H. unfold load_group. rewrite (bind_ret _ _ _ (fs_groups s) s) by done. by rewrite H. Qed.

Lemma get_block_copy_ok s i dirty offset buf n :
  fs_inv s -> allocated s i = true -> 0 <= offset -> 0 <= n -> offset + n <= BLOCK_SIZE ->
  (dirty = true -> n <= Z.of_nat (length buf)) ->
  exists p st, get_block_copy i dirty offset buf n s
      = Ret (Some (p, if dirty then buf else slice offset n (fview s i))) (with_store st s)
    /\ fs_inv (with_store st s)
    /\ (exists b, st_mem st !! p = Some b /\ data_ b = fview (with_store st s) i)
    /\ (recent (with_store st s) 1 i p /\ forall k j q, recent s k j q ->
          Z.of_nat k < size_ (st_cache (fs_store s)) -> recent (with_store st s) (S k) j q)
    /\ size_ (st_cache st) = size_ (st_cache (fs_store s))
    /\ forall j, fs_valid j -> fview (with_store st s) j
         = if (j =? i) && dirty then splice offset (take (Z.to_nat n) buf) (fview s i) else fview s j.
Proof.
  intros Hinv Ha Ho Hn Hon Hbuf. destruct (inv_store _ Hinv) as (l & Hok & Hal).
  pose proof (allocated_valid _ _ Hinv Ha) as Hv.
  unfold get_block_copy. destruct (Lru.find i l) as [e|] eqn:Hf.
  - destruct (cache_get_ok _ _ _ _ i dirty Hok) as (st1 & Hg & Hok1 & Hfr1 & Hv1 & _).
    rewrite Hf in Hg. mstep (on_store_eq _ _ _ _ Hg). cbn [fmap option_fmap option_map].
    assert (Hin : (i, eptr e, e.2 || dirty) ∈ Lru.touch i dirty l).
    { unfold Lru.touch. rewrite Hf. set_solver. }
    destruct (block_copy_ok st1 _ i (eptr e) (e.2 || dirty) dirty offset buf n Hok1 Hin)
      as (st2 & Hc & Hok2 & Hfr2 & Hb2 & Hv2); [by intros ->; apply orb_true_r|done..|].
    assert (Hal1 : forall e', e' ∈ Lru.touch i dirty l -> allocated s (Lru.key e') = true).
    { intros e' He'. unfold Lru.touch in He'. rewrite Hf in He'. apply elem_of_cons in He' as [->|He']; [done|].
      apply elem_of_drop in He' as [He' _]. by apply Hal. }
    pose proof (fs_inv_frame s st1 _ Hinv Hok1 Hal1 Hfr1) as Hinv1.
    pose proof (fs_inv_frame _ st2 _ Hinv1 Hok2 Hal1 Hfr2) as Hinv2.
    exists (eptr e), st2. rewrite (bind_ret _ _ _ _ _ (on_store_eq _ (with_store st1 s) _ _ Hc)).
    split; [unfold fview; by rewrite <- Hv1|]. split; [exact Hinv2|]. split; [exact Hb2|].
    destruct (find_key _ _ _ Hf) as [Hel Hek].
    assert (Htl : Lru.touch i dirty l = (i, eptr e, e.2 || dirty) :: Lru.drop i l).
    { unfold Lru.touch. by rewrite Hf. }
    rewrite Htl in Hok2. split; [split|split].
    { eexists _, _. split; [exact Hok2|]. by constructor. }
    { intros k j q Hr _. revert q Hr. apply (recent_hit s st2 k i (eptr e) j e.2 (e.2 || dirty) l Hok Hok2).
      destruct e as [[k0 p0] d0]. cbn in *. by subst k0. }
    { rewrite (fr_size _ _ Hfr2). apply (fr_size _ _ Hfr1). }
    intros j Hj. unfold fview. cbn [with_store fs_store]. rewrite Hv2, !Hv1. done.
  - assert (Hg : forall d, cache_get i d (fs_store s) = Ret None (fs_store s)).
    { intros d. pose proof (cache_get_spec (fs_store s) l i d (ok_rep _ _ _ _ Hok)) as H. by rewrite Hf in H. }
    assert (Hws : with_store (fs_store s) s = s) by by destruct s.
    assert (Hgs : forall d, on_store (cache_get i d) s = Ret None s).
    { intros d. rewrite (on_store_eq _ _ _ _ (Hg d)). by rewrite Hws. }
    mstep (Hgs dirty). cbn beta iota.
    rewrite (bind_ret _ _ _ (fs_super s) s) by done. rewrite (inv_bpg _ Hinv).
    rewrite (bind_ret _ _ _ (i / TOTAL_BLOCKS_PER_GROUP) s) by done. mstep (Hgs false).
    unfold allocated in Ha. destruct (fs_groups s !! (i / TOTAL_BLOCKS_PER_GROUP)) as [g|] eqn:Hgrp; [|done].
    apply andb_true_iff in Ha as [Hm Hbit]. apply Z.ltb_lt in Hm.
    assert (Ha : allocated s i = true).
    { unfold allocated. rewrite Hgrp, Hbit. by rewrite (proj2 (Z.ltb_lt _ _) Hm). }
    set (b := mk_block (fs_off i) (block_at (st_disk (fs_store s)) (fs_off i))).
    pose proof (group_get_block_ok s i g Hinv Hgrp Hm) as Hgb. rewrite Ha in Hgb.
    destruct (block_new_ok (fs_store s) l b Hok (inv_fresh _ Hinv)) as (Hnew & Hok1 & Hnp & Hfr1 & Hv1).
    set (st1 := mk_store _ _ _ _) in *. set (p := st_next (fs_store s)) in *.
    assert (Hb1 : st_mem st1 !! p = Some b) by apply lookup_insert_eq.
    assert (Hlenb : length (data_ b) = Z.to_nat BLOCK_SIZE) by (apply length_block_at, Hok).
    destruct (cache_insert_ok fs_off fs_valid st1 l i p dirty b) as (st2 & Hi2 & Hok2 & Hb2 & Hfr2 & Hv2);
      [apply fs_offsets_ok|done..|apply Hinv|done|done|done|done|done|].
    set (l2 := (i, p, dirty) :: _) in Hok2.
    destruct (block_copy_ok st2 l2 i p dirty dirty offset buf n Hok2) as (st3 & Hc & Hok3 & Hfr3 & Hb3 & Hv3);
      [unfold l2; set_solver|done..|].
    assert (Hal2 : forall e, e ∈ l2 -> allocated s (Lru.key e) = true).
    { intros e He. unfold l2 in He. apply elem_of_cons in He as [->|He]; [done|]. apply Hal.
      destruct (_ <? _); [done|]. by apply elem_of_removelast. }
    assert (Hinv1 : fs_inv (with_store st1 s)).
    { apply (fs_inv_store s st1 l); [done|done|done|apply Hinv|done|cbn; lia]. }
    pose proof (fs_inv_frame _ st2 l2 Hinv1 Hok2 Hal2 Hfr2) as Hinv2.
    pose proof (fs_inv_frame _ st3 l2 Hinv2 Hok3 Hal2 Hfr3) as Hinv3.
    assert (Hvi : view fs_off (fs_store s) i = data_ b).
    { rewrite (view_find _ _ _ _ _ Hok), Hf. done. }
    assert (Hv12 : forall j, fs_valid j -> view fs_off st2 j = view fs_off (fs_store s) j).
    { intros j Hj. rewrite Hv2 by done. destruct (Z.eqb_spec j i) as [->|]; [done|]. by rewrite Hv1. }
    exists p, st3. split; [|split; [exact Hinv3|split; [exact Hb3|split; [split|split]]]].
    + erewrite bind_ret.
      2:{ cbn beta iota. mstep (load_group_loaded _ _ _ Hgrp).
          rewrite (bind_ret _ _ _ (i mod TOTAL_BLOCKS_PER_GROUP) s) by done. mstep Hgb. cbn beta iota.
          mstep (on_store_eq _ s _ _ Hnew). mstep (on_store_eq _ (with_store st1 s) _ _ Hi2). reflexivity. }
      cbn beta iota. rewrite (bind_ret _ _ _ _ _ (on_store_eq _ (with_store st2 s) _ _ Hc)).
      unfold fview. by rewrite <- Hv12.
    + eexists _, _. split; [exact Hok3|]. by constructor.
    + intros k j q Hr Hk. revert q Hr. by apply (recent_insert s st3 k i p dirty j l Hok Hok3).
    + rewrite (fr_size _ _ Hfr3), (fr_size _ _ Hfr2). done.
    + intros j Hj. unfold fview. cbn [with_store fs_store]. rewrite Hv3, !Hv12 by done. done.
Qed.

(** A block of a loaded group that is not in use is not returned. *)
Lemma get_block_copy_free s i dirty offset buf n g :
  fs_inv s -> fs_groups s !! (i / TOTAL_BLOCKS_PER_GROUP) = Some g ->
  i mod TOTAL_BLOCKS_PER_GROUP < BLOCKS_PER_GROUP -> allocated s i = false ->
  get_block_copy i dirty offset buf n s = Ret None s.
Proof.
  intros Hinv Hg Hm Ha. destruct (inv_store _ Hinv) as (l & Hok & Hal).
  assert (Hf : Lru.find i l = None).
  { destruct (Lru.find i l) as [e|] eqn:E; [|done]. apply find_key in E as [He <-].
    apply Hal in He. congruence. }
  assert (Hws : with_store (fs_store s) s = s) by by destruct s.
  assert (Hgs : forall d, on_store (cache_get i d) s = Ret None s).
  { intros d. pose proof (cache_get_spec (fs_store s) l i d (ok_rep _ _ _ _ Hok)) as H. rewrite Hf in H.
    rewrite (on_store_eq _ _ _ _ H). by rewrite Hws. }
  unfold get_block_copy. mstep (Hgs dirty). cbn beta iota.
  rewrite (bind_ret _ _ _ (fs_super s) s) by done. rewrite (inv_bpg _ Hinv).
  rewrite (bind_ret _ _ _ (i / TOTAL_BLOCKS_PER_GROUP) s) by done. mstep (Hgs false). cbn beta iota.
  pose proof (group_get_block_ok s i g Hinv Hg Hm) as Hgb. rewrite Ha in Hgb.
  erewrite bind_ret.
  2:{ mstep (load_group_loaded _ _ _ Hg). rewrite (bind_ret _ _ _ (i mod TOTAL_BLOCKS_PER_GROUP) s) by done.
      mstep Hgb. reflexivity. }
  done.
Qed.

Lemma fview_length s i : fs_inv s -> length (fview s i) = Z.to_nat BLOCK_SIZE.
Proof.
  intros Hinv. destruct (inv_store _ Hinv) as (l & Hok & _).
  unfold fview. rewrite (view_find _ _ _ _ _ Hok). destruct (Lru.find i l) as [e|] eqn:Hf.
  - apply find_key in Hf as [He _]. destruct (ok_entries _ _ _ _ Hok e He) as (_ & b' & Hb' & _ & Hl' & _).
    cbn. by rewrite Hb'.
  - apply length_block_at, Hok.
Qed.

(** ** The interface to the cursors *)

(** Word [off] of block [id]; nothing is promised for blocks of groups that
    are not loaded. *)
Definition fs_word (s : FS) (id off : Z) : option (option Z) :=
  if bool_decide (is_Some (fs_groups s !! (id / TOTAL_BLOCKS_PER_GROUP)))
     && (id mod TOTAL_BLOCKS_PER_GROUP <? BLOCKS_PER_GROUP) && (0 <=? off) && (off <? WORDS)
  then Some (if allocated s id then Some (ld 4 (4 * off) (fview s id)) else None)
  else None.

Lemma fs_word_with_store s st :
  fs_inv s -> (forall j, fs_valid j -> fview (with_store st s) j = fview s j) ->
  forall i o, fs_word (with_store st s) i o = fs_word s i o.
Proof.
  intros Hinv Hv i o. unfold fs_word. rewrite allocated_with_store.
  cbn [with_store fs_groups]. destruct (_ && _); [|done].
  destruct (allocated s i) eqn:Ha; [|done]. rewrite Hv; [done|]. by apply (allocated_valid s).
Qed.

Lemma fs_reader_state s id off r :
  fs_inv s -> fs_word s id off = Some r ->
  exists st, fs_reader id off s = Ret r (with_store st s) /\ fs_inv (with_store st s)
    /\ size_ (st_cache st) = size_ (st_cache (fs_store s))
    /\ forall j, fs_valid j -> fview (with_store st s) j = fview s j.
Proof.
  intros Hinv Hw. unfold fs_word in Hw.
  destruct (bool_decide _) eqn:Hl; [|done]. destruct (_ <? BLOCKS_PER_GROUP) eqn:Hm; [|done].
  destruct (0 <=? off) eqn:H0; [|done]. destruct (off <? WORDS) eqn:H1; [|done]. cbn [andb] in Hw.
  apply bool_decide_eq_true in Hl as [g Hg]. apply Z.ltb_lt in Hm, H1. apply Z.leb_le in H0.
  unfold fs_reader, or_error, get_block. destruct (allocated s id) eqn:Ha; injection Hw as <-.
  - destruct (get_block_copy_ok s id false 0 [] 0 Hinv Ha) as (p & st & Hgb & Hinv' & (b & Hb & Hd) & _ & Hsz & Hv);
      [lia|lia|done|done|].
    assert (Hv' : forall j, fs_valid j -> fview (with_store st s) j = fview s j).
    { intros j Hj. rewrite Hv by done. by rewrite andb_false_r. }
    exists st. split; [|done].
    rewrite bind_assoc. mstep Hgb. cbn [fmap option_fmap option_map fst].
    rewrite (bind_ret _ _ _ (Some p) (with_store st s)) by done. cbn beta iota.
    erewrite bind_ret; [reflexivity|]. unfold load32.
    rewrite (bind_ret _ _ _ b (with_store st s)).
    2:{ unfold on_store, zoom, block_deref. cbn [with_store fs_store]. by rewrite Hb. }
    assert (HL : length (data_ b) = Z.to_nat BLOCK_SIZE) by (rewrite Hd; by apply fview_length).
    rewrite (proj2 (in_range_spec _ _ _)).
    2:{ rewrite HL. change (Z.of_nat (Z.to_nat BLOCK_SIZE)) with 4096. rewrite W1 in H1. lia. }
    rewrite (bind_ret _ _ _ tt (with_store st s)) by done. rewrite Hd, Hv'; [done|].
    by apply (allocated_valid s).
  - assert (Hws : with_store (fs_store s) s = s) by by destruct s.
    exists (fs_store s). rewrite Hws. split; [|done]. rewrite bind_assoc.
    by mstep (get_block_copy_free s id false 0 [] 0 g Hinv Hg Hm Ha).
Qed.

Lemma fs_read_word s id off r :
  fs_inv s -> fs_word s id off = Some r ->
  exists s', fs_reader id off s = Ret r s' /\ fs_inv s' /\ forall i o, fs_word s' i o = fs_word s i o.
Proof.
  intros Hinv Hw. destruct (fs_reader_state s id off r Hinv Hw) as (st & Hr & Hinv' & _ & Hv).
  exists (with_store st s). split; [done|]. split; [done|]. by apply fs_word_with_store.
Qed.

#[export] Instance fs_reader_spec : WordReaderSpec FS fs_inv fs_word.
Proof. intros s id off r. apply fs_read_word. Qed.

(** ** Properties *)

(** C20. Through [get_block] a write of [n] bytes at an offset of a block in
    use succeeds, and a later read of any range of any block in use returns
    what the write put there, or what was there before: caching, eviction
    and write-back are invisible. *)
Theorem get_block_write_read s i offset buf n j offset' n' :
  fs_inv s -> allocated s i = true -> allocated s j = true ->
  0 <= offset -> 0 <= n -> offset + n <= BLOCK_SIZE -> n <= Z.of_nat (length buf) ->
  0 <= offset' -> 0 <= n' -> offset' + n' <= BLOCK_SIZE ->
  exists p s1 q s2,
    get_block_copy i true offset buf n s = Ret (Some (p, buf)) s1
    /\ get_block_copy j false offset' [] n' s1
       = Ret (Some (q, slice offset' n'
                         (if j =? i then splice offset (take (Z.to_nat n) buf) (fview s i) else fview s j))) s2
    /\ fs_inv s2.
Proof.
  intros Hinv Hi Hj Ho Hn Hon Hb Ho' Hn' Hon'.
  destruct (get_block_copy_ok s i true offset buf n Hinv Hi Ho Hn Hon (fun _ => Hb))
    as (p & st1 & H1 & Hinv1 & _ & _ & _ & Hv1).
  destruct (get_block_copy_ok (with_store st1 s) j false offset' [] n' Hinv1 Hj Ho' Hn' Hon' ltac:(done))
    as (q & st2 & H2 & Hinv2 & _ & _).
  exists p, (with_store st1 s), q, (with_store st2 (with_store st1 s)).
  split; [exact H1|]. split; [|exact Hinv2]. rewrite H2, Hv1 by by apply (allocated_valid s).
  by destruct (j =? i).
Qed.

(** A read of a block that its group's bitmap does not mark as used
    fails, and changes nothing. *)
Theorem get_block_free_fails s i g :
  fs_inv s -> fs_groups s !! (i / TOTAL_BLOCKS_PER_GROUP) = Some g ->
  i mod TOTAL_BLOCKS_PER_GROUP < BLOCKS_PER_GROUP -> allocated s i = false ->
  get_block i s = Ret None s.
Proof.
  intros Hinv Hg Hm Ha. unfold get_block. by mstep (get_block_copy_free s i false 0 [] 0 g Hinv Hg Hm Ha).
Qed.

(** The file system fulfils the interface of the file cursors: reading a
    word of an indirect block returns that word of what the block holds, or
    reports a block that is not in use, and changes no word of any block. *)
Theorem fs_implements_reader : WordReaderSpec FS fs_inv fs_word.
Proof. intros s id off r. apply fs_read_word. Qed.

(** ** Instances of the properties *)

(** A file system of one group, the first two blocks of which are used; its
    cache, of four blocks, is empty. *)
Definition sample_super : SuperBlock :=
  sb_set s_state FSState_NORMAL (sb_set s_log_block_size LOG_BLOCK_SIZE
    (sb_set s_inodes_per_group INODES_PER_GROUP
      (sb_set s_blocks_per_group TOTAL_BLOCKS_PER_GROUP (gs_super (sample_gst [] (BITS - 2)))))).

Definition sample_fs (copies : gmap Z ext2_inode) : FS :=
  mk_fs (store_init (disk_empty (MAX_GROUPS * MAX_BLOCK_GROUP_SIZE)) 4) sample_super
    {[ 0 := sample_group [Byte.x03] ]} sample_dcache copies.

Lemma sample_fs_inv copies : fs_inv (sample_fs copies).
Proof.
  constructor; cbn [sample_fs fs_super fs_groups fs_store store_init st_cache st_mem st_disk].
  - by vm_compute.
  - intros gi g Hg. apply lookup_singleton_Some in Hg as [<- <-].
    split; [done|]. split; [|done]. unfold bm_wf. by vm_compute.
  - exists []. split; [by apply store_init_ok; [apply map_Forall_empty|]|]. intros e He. by apply elem_of_nil in He.
  - done.
  - intros p [b Hb]. by rewrite lookup_empty in Hb.
  - done.
Qed.

Lemma get_block_write_read_witness :
  exists p s1 q s2,
    get_block_copy 1 true 4090 [Byte.x07; Byte.x08] 2 (sample_fs ∅) = Ret (Some (p, [Byte.x07; Byte.x08])) s1
    /\ get_block_copy 1 false 4089 [] 4 s1 = Ret (Some (q, [Byte.x00; Byte.x07; Byte.x08; Byte.x00])) s2
    /\ fs_inv s2.
Proof.
  destruct (get_block_write_read (sample_fs ∅) 1 4090 [Byte.x07; Byte.x08] 2 1 4089 4)
    as (p & s1 & q & s2 & H1 & H2 & H3); [apply sample_fs_inv|by vm_compute..|].
  exists p, s1, q, s2. split; [exact H1|]. split; [|exact H3].
  rewrite H2. vm_compute. reflexivity.
Defined.

Lemma get_block_free_fails_witness : get_block 2 (sample_fs ∅) = Ret None (sample_fs ∅).
Proof.
  apply (get_block_free_fails (sample_fs ∅) 2 (sample_group [Byte.x03])).
  - apply sample_fs_inv.
  - by vm_compute.
  - by vm_compute.
  - by vm_compute.
Defined.

(** Block 1 is used and empty: its word 3 is 0. *)
Lemma fs_implements_reader_witness :
  exists s', read_word 1 3 (sample_fs ∅) = Ret (Some 0) s' /\ fs_inv s'.
Proof.
  destruct (fs_implements_reader (sample_fs ∅) 1 3 (Some 0) (sample_fs_inv ∅) ltac:(by vm_compute))
    as (s' & H1 & H2 & _).
  exists s'. auto.
Defined.
