(* ===== verification/FileData.v ===== *)
(** * Reading a file

    [copy_to_buf] returns the bytes of the file: the block of the file that
    holds a position is found by the inode and its indirect blocks
    ([resolve]), and what the block holds is its [fview]. *)

From S2P Require Import Prelude Layout Disk Bitmap PathName Block BlockGroup BlockCache DentryCache.
From S2P Require Import FileSystem FileStatus OpenFiles FsBlocks.

(** ** The reference *)

(** [bs] are the [n] bytes from position [offset] of a file whose blocks are
    [blk 0], [blk 1], ... *)
Definition reads_as (blk : Z -> list byte) (offset n : Z) (bs : list byte) : Prop :=
  Z.of_nat (length bs) = n /\
  forall k, 0 <= k < n ->
    bs !! Z.to_nat k = blk ((offset + k) / BLOCK_SIZE) !! Z.to_nat ((offset + k) mod BLOCK_SIZE).

Lemma reads_as_app blk offset a b bs1 bs2 :
  reads_as blk offset a bs1 -> reads_as blk (offset + a) b bs2 -> reads_as blk offset (a + b) (bs1 ++ bs2).
Proof.
  intros [L1 H1] [L2 H2]. split; [rewrite length_app; lia|]. intros k Hk.
  destruct (decide (k < a)).
  - rewrite lookup_app_l by lia. apply H1. lia.
  - rewrite lookup_app_r by lia. replace (Z.to_nat k - length bs1)%nat with (Z.to_nat (k - a)) by lia.
    rewrite H2 by lia. by replace (offset + a + (k - a)) with (offset + k) by lia.
Qed.

(** Part of one block. *)
Lemma reads_as_slice blk offset n :
  0 <= offset -> 0 <= n -> offset mod BLOCK_SIZE + n <= BLOCK_SIZE ->
  length (blk (offset / BLOCK_SIZE)) = Z.to_nat BLOCK_SIZE ->
  reads_as blk offset n (slice (offset mod BLOCK_SIZE) n (blk (offset / BLOCK_SIZE))).
Proof.
  unfold reads_as. change BLOCK_SIZE with 4096. intros Ho Hn Hb HL.
  pose proof (Z.mod_pos_bound offset 4096 ltac:(lia)) as Hm.
  assert (HL' : Z.of_nat (length (blk (offset / 4096))) = 4096) by (rewrite HL; done).
  split; [rewrite length_slice by lia; lia|]. intros k Hk.
  assert (Hd : (offset + k) / 4096 = offset / 4096 /\ (offset + k) mod 4096 = offset mod 4096 + k).
  { Z.div_mod_to_equations. lia. }
  destruct Hd as [-> ->]. unfold slice. rewrite lookup_take_lt, lookup_drop by lia. f_equal. lia.
Qed.

(** Block [n] of the file. *)
Definition file_blk (s : FS) (inode : ext2_inode) (n : Z) : list byte :=
  match resolve fs_word s inode n with
  | Some (Some v) => fview s v
  | _ => []
  end.

(** Every block below the size of the file is there. *)
Definition mapped (s : FS) (inode : ext2_inode) : Prop :=
  forall n, 0 <= n -> n * BLOCK_SIZE < i_size inode ->
    exists v, resolve fs_word s inode n = Some (Some v) /\ allocated s v = true.

(** ** States that differ in what is cached only *)

Definition same_blocks (s0 s : FS) : Prop :=
  fs_inv s /\ exists st, s = with_store st s0 /\ size_ (st_cache st) = size_ (st_cache (fs_store s0))
    /\ forall j, fs_valid j -> fview s j = fview s0 j.

Lemma same_blocks_refl s : fs_inv s -> same_blocks s s.
Proof. intros H. split; [done|]. exists (fs_store s). by destruct s. Qed.

Lemma same_blocks_word s0 s : same_blocks s0 s -> fs_inv s0 -> forall i o, fs_word s i o = fs_word s0 i o.
Proof. intros [_ (st & -> & _ & Hv)] Hinv. by apply fs_word_with_store. Qed.

Lemma same_blocks_view s0 s v :
  same_blocks s0 s -> fs_inv s0 -> allocated s0 v = true -> fview s v = fview s0 v /\ allocated s v = true.
Proof.
  intros [_ (st & -> & _ & Hv)] Hinv Ha. split; [|done]. apply Hv. by apply (allocated_valid s0).
Qed.

Lemma read_block_ok s0 s v offset n :
  same_blocks s0 s -> fs_inv s0 -> allocated s0 v = true -> 0 <= offset -> 0 <= n -> offset + n <= BLOCK_SIZE ->
  exists p s', get_block_copy v false offset [] n s = Ret (Some (p, slice offset n (fview s0 v))) s'
    /\ same_blocks s0 s'.
Proof.
  intros Hs Hinv Ha Ho Hn Hon. destruct (same_blocks_view _ _ _ Hs Hinv Ha) as [Hvv Ha'].
  destruct Hs as [Hinv1 (st & -> & Hsz & Hv)].
  destruct (get_block_copy_ok _ v false offset [] n Hinv1 Ha' Ho Hn Hon ltac:(done)) as (p & st2 & H & Hinv2 & _ & _ & Hsz2 & Hv2).
  exists p, (with_store st2 (with_store st s0)). split; [by rewrite <- Hvv|].
  split; [done|]. exists st2. split; [done|]. split; [by rewrite Hsz2|]. intros j Hj.
  rewrite Hv2, andb_false_r by done. by apply Hv.
Qed.

#[export] Instance same_blocks_spec s0 : WordReaderSpec FS (fun s => same_blocks s0 s /\ fs_inv s0) fs_word.
Proof.
  intros s id off r [Hs Hinv] Hw.
  pose proof Hs as [Hinv1 (st & -> & Hsz & Hv)].
  destruct (fs_reader_state (with_store st s0) id off r Hinv1 Hw) as (st2 & Hr & Hinv2 & Hsz2 & Hv2).
  exists (with_store st2 (with_store st s0)). split; [done|]. split.
  - split; [|done]. split; [done|]. exists st2. split; [done|]. split; [by rewrite Hsz2|]. intros j Hj. rewrite Hv2 by done. by apply Hv.
  - by apply fs_word_with_store.
Qed.

(** ** Handles *)

Definition put_op (fs : FS) (fd : positive) (f : FileStatus) (s : OpSt) : OpSt :=
  mk_op fs (st_ s) (<[fd := f]> (op_files s)) (op_fresh s).

(** [fd] is a handle with cursor [f] on [inode], and nothing but the cache
    has changed since [s0]. *)
Record handle (s0 : FS) (inode : ext2_inode) (fd : positive) (s : OpSt) (f : FileStatus) : Prop := {
  h_file : op_files s !! fd = Some f;
  h_inode : fs_copies s0 !! f_inode_id f = Some inode;
  h_same : same_blocks s0 (op_fs s);
  h_inv : fs_inv s0
}.

(** A move changes one handle, and what is cached. *)
Lemma move_frame fd op s r s' :
  move fd op s = Ret r s' -> st_ s' = st_ s /\ forall q, q <> fd -> op_files s' !! q = op_files s !! q.
Proof.
  intros H. unfold move in H. minv H as f s1 H1. minv H as i s2 H2. minv H as [r0 f0] s3 H3. minv H as u s4 H4.
  assert (E1 : s1 = s).
  { unfold file_get in H1. minv H1 as x s0 Hx. injection Hx as <- <-.
    destruct (op_files s !! fd); [by injection H1 as _ <-|done]. }
  assert (E2 : st_ s2 = st_ s1 /\ op_files s2 = op_files s1).
  { unfold file_inode in H2. minv H2 as g s0 Hg.
    assert (s0 = s1) as ->.
    { unfold file_get in Hg. minv Hg as x s9 Hx. injection Hx as <- <-.
      destruct (op_files s1 !! fd); [by injection Hg as _ <-|done]. }
    unfold on_fs, zoom in H2. destruct (iload _ _); [|done]. by injection H2 as _ <-. }
  assert (E3 : st_ s3 = st_ s2 /\ op_files s3 = op_files s2).
  { unfold on_fs, zoom in H3. destruct (op i f (op_fs s2)) as [[]|]; [|done]. by injection H3 as _ _ <-. }
  injection H4 as _ <-. injection H as _ <-. subst s1. destruct E2 as [E2 F2], E3 as [E3 F3]. cbn.
  split; [congruence|]. intros q Hq. rewrite lookup_insert_ne by done. congruence.
Qed.

Section Handle.
Context (s0 : FS) (inode : ext2_inode) (fd : positive).

Lemma file_get_eq s f : handle s0 inode fd s f -> file_get fd s = Ret f s.
Proof. intros H. unfold file_get. rewrite (bind_ret _ _ _ s s) by done. by rewrite (h_file _ _ _ _ _ H). Qed.

Lemma file_inode_eq s f : handle s0 inode fd s f -> file_inode fd s = Ret inode s.
Proof.
  intros H. unfold file_inode. mstep (file_get_eq _ _ H). unfold on_fs, zoom, iload.
  destruct (h_same _ _ _ _ _ H) as [_ (st & Hst & _)]. rewrite (bind_ret _ _ _ (op_fs s) (op_fs s)) by done.
  rewrite Hst. cbn [with_store fs_copies]. rewrite (h_inode _ _ _ _ _ H). cbn.
  rewrite <- Hst. by destruct s.
Qed.

Lemma handle_put s f fs' f' :
  handle s0 inode fd s f -> same_blocks s0 fs' -> f_inode_id f' = f_inode_id f ->
  handle s0 inode fd (put_op fs' fd f' s) f'.
Proof.
  intros H Hs Hid. constructor; cbn; [apply lookup_insert_eq|rewrite Hid; apply H|done|apply H].
Qed.

Lemma move_eq s f op r f' fs' :
  handle s0 inode fd s f -> op inode f (op_fs s) = Ret (r, f') fs' ->
  move fd op s = Ret r (put_op fs' fd f' s).
Proof.
  intros H Hop. unfold move. mstep (file_get_eq _ _ H). mstep (file_inode_eq _ _ H).
  rewrite (bind_ret _ _ _ (r, f') (mk_op fs' (st_ s) (op_files s) (op_fresh s))).
  2:{ unfold on_fs, zoom. by rewrite Hop. }
  done.
Qed.

Lemma cursor_ok_same s f :
  handle s0 inode fd s f -> cursor_ok fs_word s0 inode f <-> cursor_ok fs_word (op_fs s) inode f.
Proof.
  intros H. pose proof (same_blocks_word _ _ (h_same _ _ _ _ _ H) (h_inv _ _ _ _ _ H)) as Hw.
  split; intros [H1 H2 H3]; constructor; try done.
  - by rewrite (resolve_ext _ s0).
  - by apply (levels_ok_ext _ s0).
  - by rewrite <- (resolve_ext _ s0 (op_fs s)).
  - by apply (levels_ok_ext _ (op_fs s)).
Qed.

(** A move that arrives. *)
Lemma move_arrives s f op n v :
  handle s0 inode fd s f -> resolve fs_word s0 inode n = Some (Some v) ->
  (forall s r f' s', op inode f s = Ret (r, f') s' -> f_inode_id f' = f_inode_id f) ->
  (exists fs' f', op inode f (op_fs s) = Ret (0, f') fs' /\ (same_blocks s0 fs' /\ fs_inv s0)
     /\ block_id_in_file_ f' = n /\ block_id_ f' = v /\ cursor_ok fs_word fs' inode f') ->
  exists s' f', move fd op s = Ret 0 s' /\ handle s0 inode fd s' f' /\ cursor_ok fs_word s0 inode f'
    /\ block_id_in_file_ f' = n /\ block_id_ f' = v /\ f_inode_id f' = f_inode_id f.
Proof.
  intros H Hv Hk (fs' & f' & Hop & [Hs _] & Hn & Hb & Hc). pose proof (Hk _ _ _ _ Hop) as Hid.
  pose proof (handle_put s f fs' f' H Hs Hid) as H'.
  exists (put_op fs' fd f' s), f'. split; [by apply (move_eq s f)|]. split; [done|].
  split; [|done]. by apply (cursor_ok_same _ _ H').
Qed.

Lemma resolve_same s f n :
  handle s0 inode fd s f -> resolve fs_word (op_fs s) inode n = resolve fs_word s0 inode n.
Proof.
  intros H. apply resolve_ext. apply (same_blocks_word _ _ (h_same _ _ _ _ _ H) (h_inv _ _ _ _ _ H)).
Qed.

Lemma seek_arrives s f n v :
  handle s0 inode fd s f -> cursor_ok fs_word s0 inode f -> 0 <= n <= IBLOCK_13 ->
  resolve fs_word s0 inode n = Some (Some v) ->
  exists s' f', move fd (fun inode => seek inode n) s = Ret 0 s' /\ handle s0 inode fd s' f'
    /\ cursor_ok fs_word s0 inode f' /\ block_id_in_file_ f' = n /\ block_id_ f' = v /\ f_inode_id f' = f_inode_id f.
Proof.
  intros H Hc Hn Hv. apply (move_arrives s f _ n v); [done|done|intros ? ? ? ?; apply seek_keeps|].
  destruct (seek_moves (fun s => same_blocks s0 s /\ fs_inv s0) fs_word (op_fs s) inode f n v)
    as (fs' & f' & H1 & H2 & _ & H3); [split; apply H|by apply (cursor_ok_same s f)|done| |].
  - by rewrite (resolve_same s f).
  - exists fs', f'. done.
Qed.

Lemma next_arrives s f v :
  handle s0 inode fd s f -> cursor_ok fs_word s0 inode f -> block_id_in_file_ f < IBLOCK_14 ->
  resolve fs_word s0 inode (block_id_in_file_ f + 1) = Some (Some v) ->
  exists s' f', move fd next_block s = Ret 0 s' /\ handle s0 inode fd s' f'
    /\ cursor_ok fs_word s0 inode f' /\ block_id_in_file_ f' = block_id_in_file_ f + 1 /\ block_id_ f' = v
    /\ f_inode_id f' = f_inode_id f.
Proof.
  intros H Hc Hn Hv. apply (move_arrives s f _ _ v); [done|done|intros ? ? ? ?; apply next_block_keeps|].
  destruct (next_block_moves (fun s => same_blocks s0 s /\ fs_inv s0) fs_word (op_fs s) inode f)
    with (r := Some v) as (fs' & f' & H1 & _ & H2 & H3); [split; apply H|by apply (cursor_ok_same s f)|done| |].
  - by rewrite (resolve_same s f).
  - exists fs', f'. done.
Qed.

(** A handle whose cursor can be used: it is where it says it is, unless it
    is about to be recomputed. *)
Definition ready (f : FileStatus) : Prop :=
  0 <= block_id_in_file_ f <= IBLOCK_14
  /\ (exists w, resolve fs_word s0 inode (block_id_in_file_ f) = Some (Some w))
  /\ (cache_update_flag_ f = false -> cursor_ok fs_word s0 inode f).

Lemma upd_cache_arrives s f :
  handle s0 inode fd s f -> ready f ->
  exists s' f', move fd _upd_cache s = Ret 0 s' /\ handle s0 inode fd s' f' /\ cursor_ok fs_word s0 inode f'
    /\ block_id_in_file_ f' = block_id_in_file_ f /\ f_inode_id f' = f_inode_id f.
Proof.
  intros H (Hpos & (w & Hw) & Hcur). destruct (cache_update_flag_ f) eqn:Hfl.
  - set (f0 := set_update_flag false f).
    assert (Hop : forall st, _upd_cache inode f st = bf_seek inode (block_id_in_file_ f) f0 st).
    { intros st. unfold _upd_cache. by rewrite Hfl. }
    destruct (move_arrives s f _upd_cache (block_id_in_file_ f) w) as (s' & f' & H1 & H2 & H3 & H4 & _ & H5);
      [done|done| | |by exists s', f'].
    + intros st r f1 st1 Hm. rewrite Hop in Hm.
      by apply (bf_seek_keeps inode (block_id_in_file_ f) f0 _ eq_refl eq_refl) in Hm as [Hid _].
    + destruct (bf_seek_moves (fun s => same_blocks s0 s /\ fs_inv s0) fs_word (op_fs s) inode (block_id_in_file_ f) f0)
        with (r := Some w) as (fs' & f' & H1 & _ & H2 & H3); [split; apply H|done|by rewrite (resolve_same s f)|].
      exists fs', f'. by rewrite Hop.
  - exists (put_op (op_fs s) fd f s), f. split; [|split; [|by split; [apply Hcur|]]].
    + apply (move_eq s f); [done|]. unfold _upd_cache. by rewrite Hfl.
    + apply (handle_put s f); [done|apply H|done].
Qed.

(** Reading the block under the cursor. *)
Lemma file_block_reads s f offset n :
  handle s0 inode fd s f -> allocated s0 (block_id_ f) = true ->
  0 <= offset -> 0 <= n -> offset + n <= BLOCK_SIZE ->
  exists s', file_block fd false offset [] n s = Ret (Some (slice offset n (fview s0 (block_id_ f)))) s'
    /\ handle s0 inode fd s' f /\ st_ s' = st_ s /\ op_files s' = op_files s.
Proof.
  intros H Ha Ho Hn Hon. unfold file_block. mstep (file_get_eq _ _ H).
  destruct (read_block_ok s0 (op_fs s) (block_id_ f) offset n (h_same _ _ _ _ _ H) (h_inv _ _ _ _ _ H) Ha Ho Hn Hon)
    as (p & fs' & Hr & Hs).
  exists (mk_op fs' (st_ s) (op_files s) (op_fresh s)). split; [|split; [|done]].
  - rewrite (bind_ret _ _ _ (Some (p, slice offset n (fview s0 (block_id_ f)))) (mk_op fs' (st_ s) (op_files s) (op_fresh s)));
      [done|]. unfold on_fs, zoom. by rewrite Hr.
  - constructor; cbn; [apply H|apply H|done|apply H].
Qed.

(** The handle while [copy_to_buf], started in [s1], is running. *)
Record reading (s1 : OpSt) (id : Z) (s : OpSt) (f : FileStatus) : Prop := {
  rd_handle : handle s0 inode fd s f;
  rd_cursor : cursor_ok fs_word s0 inode f;
  rd_pos : block_id_in_file_ f * BLOCK_SIZE < i_size inode;
  rd_id : f_inode_id f = id;
  rd_caches : st_ s = st_ s1;
  rd_others : forall q, q <> fd -> op_files s !! q = op_files s1 !! q
}.

Lemma reading_move s1 id s f op r s' f' :
  reading s1 id s f -> move fd op s = Ret r s' -> handle s0 inode fd s' f' -> cursor_ok fs_word s0 inode f' ->
  f_inode_id f' = f_inode_id f -> block_id_in_file_ f' * BLOCK_SIZE < i_size inode -> reading s1 id s' f'.
Proof.
  intros R Hm H Hc Hid Hp. destruct (move_frame _ _ _ _ _ Hm) as [Hst Hq].
  constructor; [done|done|done|by rewrite Hid, (rd_id _ _ _ _ R)|by rewrite Hst, (rd_caches _ _ _ _ R)|].
  intros q Hne. by rewrite Hq, (rd_others _ _ _ _ R).
Qed.

Lemma reading_block s1 id s f offset n :
  reading s1 id s f -> allocated s0 (block_id_ f) = true -> 0 <= offset -> 0 <= n -> offset + n <= BLOCK_SIZE ->
  exists s', file_block fd false offset [] n s = Ret (Some (slice offset n (fview s0 (block_id_ f)))) s'
    /\ reading s1 id s' f.
Proof.
  intros R Ha Ho Hn Hon. destruct (file_block_reads s f offset n (rd_handle _ _ _ _ R) Ha Ho Hn Hon) as (s' & H & Hh & E1 & E2).
  exists s'. split; [done|]. destruct R as [R1 R2 R3 R4 R5 R6]. constructor; [done|done|done|done|by rewrite E1|].
  intros q Hq. by rewrite E2, R6.
Qed.

Lemma read_loop_reads fuel s1 id s f offset size acc :
  reading s1 id s f -> mapped s0 inode -> i_size inode < 2 ^ 32 -> 0 <= offset -> 0 <= size ->
  (0 < fuel)%nat ->
  (size = 0 \/ i_size inode <= offset
   \/ (size <= BLOCK_SIZE * (Z.of_nat fuel - 1) /\ offset mod BLOCK_SIZE = 0
       /\ block_id_in_file_ f = offset / BLOCK_SIZE - 1)) ->
  exists s' f' bs r, read_loop fuel fd (i_size inode) offset size acc s = Ret r s'
    /\ (r = inl (i32 (Z.of_nat (length (acc ++ bs))), acc ++ bs)
        \/ r = inr (i32 (Z.of_nat (length (acc ++ bs))), acc ++ bs))
    /\ reads_as (file_blk s0 inode) offset (Z.max 0 (Z.min size (i_size inode - offset))) bs
    /\ reading s1 id s' f'.
Proof.
  intros H Hmap Hsz. revert s f offset size acc H. change BLOCK_SIZE with 4096.
  induction fuel as [|fuel IH]; intros s f offset size acc H Ho Hs Hfuel Hcase; [lia|].
  assert (Hempty : forall n, n <= 0 -> reads_as (file_blk s0 inode) offset (Z.max 0 n) []).
  { intros n Hn. split; [cbn; lia|]. intros k Hk. lia. }
  cbn [read_loop]. destruct (Z.eqb_spec size 0) as [Hs0|Hs0].
  { exists s, f, [], (inr (i32 (Z.of_nat (length acc)), acc)). rewrite app_nil_r.
    split; [done|]. split; [by right|]. split; [apply Hempty; lia|done]. }
  destruct (Z.leb_spec (i_size inode) offset) as [He|He].
  { exists s, f, [], (inl (i32 (Z.of_nat (length acc)), acc)). rewrite app_nil_r.
    split; [done|]. split; [by left|]. split; [apply Hempty; lia|done]. }
  destruct Hcase as [?|[?|(Hfl & Hal & Hpos)]]; [lia|lia|].
  set (n := offset / 4096) in *.
  assert (Hn : 0 <= n /\ n * 4096 = offset) by (unfold n; Z.div_mod_to_equations; lia).
  destruct (Hmap n ltac:(lia)) as (v & Hv & Hav); [change BLOCK_SIZE with 4096; lia|].
  destruct (next_arrives s f v (rd_handle _ _ _ _ H) (rd_cursor _ _ _ _ H)) as (s2 & f1 & Hm1 & H1 & Hc1 & Hp1 & Hb1 & Hid).
  { rewrite Hpos, IB14. change (2 ^ 32) with 4294967296 in Hsz. lia. }
  { rewrite Hpos. by replace (n - 1 + 1) with n by lia. }
  mstep Hm1. change BLOCK_SIZE with 4096.
  set (csz := Z.min size (Z.min (i_size inode - offset) 4096)).
  unfold try_bind, check. rewrite (bind_ret _ _ _ (inr tt) s2) by done. cbn beta iota.
  assert (R1 : reading s1 id s2 f1).
  { apply (reading_move s1 id s f next_block 0); [done..|]. rewrite Hp1, Hpos. change BLOCK_SIZE with 4096. lia. }
  destruct (reading_block s1 id s2 f1 0 csz R1) as (s3 & Hb & H2); [by rewrite Hb1|lia|lia|change BLOCK_SIZE with 4096; lia|].
  mstep Hb. rewrite Hb1. cbn beta iota.
  assert (Hblk : file_blk s0 inode n = fview s0 v) by (unfold file_blk; by rewrite Hv).
  assert (Hrd : reads_as (file_blk s0 inode) offset csz (slice 0 csz (fview s0 v))).
  { pose proof (reads_as_slice (file_blk s0 inode) offset csz Ho ltac:(lia)) as Hr.
    change BLOCK_SIZE with 4096 in Hr. fold n in Hr. rewrite Hal, Hblk in Hr.
    apply Hr; [lia|apply fview_length, (rd_handle _ _ _ _ H)]. }
  destruct (IH s3 f1 (offset + csz) (size - csz) (acc ++ slice 0 csz (fview s0 v)) H2)
    as (s' & f' & bs & r & Hl & Hr & Hrs & Hh); [lia|lia| | |].
  { assert (4096 * (Z.of_nat (S fuel) - 1) >= 1) by lia. lia. }
  { destruct (decide (csz = 4096)) as [E|E]; [|lia].
    destruct (decide (size - csz = 0)) as [|]; [lia|]. right. right.
    split; [lia|]. split; [rewrite E; Z.div_mod_to_equations; lia|].
    rewrite Hp1, Hpos, E. fold n. unfold n. Z.div_mod_to_equations. lia. }
  exists s', f', (slice 0 csz (fview s0 v) ++ bs), r. split; [exact Hl|].
  rewrite !app_assoc. split; [exact Hr|]. split; [|done].
  replace (Z.max 0 (Z.min size (i_size inode - offset)))
    with (csz + Z.max 0 (Z.min (size - csz) (i_size inode - (offset + csz)))) by lia.
  by apply reads_as_app.
Qed.

Lemma file_size_eq s f : handle s0 inode fd s f -> file_size fd s = Ret (i_size inode) s.
Proof. intros H. unfold file_size. by mstep (file_inode_eq _ _ H). Qed.
End Handle.

(** ** copy_to_buf *)

(** As many bytes as asked for are returned, up to the end of the file, or up
    to the end of the first block read if that lies behind it. *)
Lemma copy_to_buf_reads s0 inode fd s f offset size :
  handle s0 inode fd s f -> ready s0 inode f -> mapped s0 inode ->
  0 <= offset < i_size inode -> i_size inode < 2 ^ 32 -> 0 <= size < 2 ^ 31 ->
  let n := Z.max (Z.min size (BLOCK_SIZE - offset mod BLOCK_SIZE)) (Z.min size (i_size inode - offset)) in
  exists s' f' bs, copy_to_buf fd offset size s = Ret (n, bs) s'
    /\ reads_as (file_blk s0 inode) offset n bs /\ reading s0 inode fd s (f_inode_id f) s' f'.
Proof.
  intros H Hr Hmap Ho Hsz Hs n. unfold copy_to_buf, body.
  rewrite bind_assoc. mstep (file_size_eq _ _ _ _ _ H). rewrite (proj2 (Z.leb_gt _ _)) by lia.
  destruct (upd_cache_arrives s0 inode fd s f H Hr) as (s1 & f1 & Hm1 & H1 & Hc1 & _ & Hid1).
  assert (Hblk : 0 <= offset / BLOCK_SIZE <= 1048575).
  { change BLOCK_SIZE with 4096. change (2 ^ 32) with 4294967296 in Hsz. Z.div_mod_to_equations. lia. }
  destruct (Hmap (offset / BLOCK_SIZE)) as (v & Hv & Hav).
  { lia. }
  { change BLOCK_SIZE with 4096. Z.div_mod_to_equations. lia. }
  destruct (seek_arrives s0 inode fd s1 f1 (offset / BLOCK_SIZE) v H1 Hc1) as (s2 & f2 & Hm2 & H2 & Hc2 & Hp2 & Hb2 & Hid2);
    [rewrite IB13; lia|done|].
  destruct (move_frame _ _ _ _ _ Hm1) as [Hst1 Hq1]. destruct (move_frame _ _ _ _ _ Hm2) as [Hst2 Hq2].
  assert (R2 : reading s0 inode fd s (f_inode_id f) s2 f2).
  { constructor; [done|done| |congruence|congruence|intros q Hq; by rewrite Hq2, Hq1].
    rewrite Hp2. change BLOCK_SIZE with 4096. Z.div_mod_to_equations. lia. }
  pose proof (Z.mod_pos_bound offset BLOCK_SIZE ltac:(done)) as Hmod.
  set (csz := Z.min size (BLOCK_SIZE - offset mod BLOCK_SIZE)) in *.
  destruct (reading_block s0 inode fd s (f_inode_id f) s2 f2 (offset mod BLOCK_SIZE) csz R2) as (s3 & Hb & H3);
    [by rewrite Hb2|lia|lia|lia|].
  set (bs0 := slice (offset mod BLOCK_SIZE) csz (fview s0 (block_id_ f2))) in *.
  assert (Hfb : file_blk s0 inode (offset / BLOCK_SIZE) = fview s0 v) by (unfold file_blk; by rewrite Hv).
  assert (Hrd : reads_as (file_blk s0 inode) offset csz bs0).
  { unfold bs0. rewrite Hb2, <- Hfb. apply reads_as_slice; [lia|lia|lia|]. rewrite Hfb. apply fview_length, H. }
  destruct (read_loop_reads s0 inode fd (S (Z.to_nat (size / BLOCK_SIZE + 1))) s (f_inode_id f) s3 f2 (offset + csz) (size - csz) bs0 H3 Hmap Hsz)
    as (s' & f' & bs & r & Hl & Hx & Hrs & Hh); [lia|lia|lia| |].
  { destruct (decide (size - csz = 0)) as [|Hne]; [by left|]. right. right.
    change BLOCK_SIZE with 4096 in *.
    split; [rewrite Nat2Z.inj_succ, Z2Nat.id by (Z.div_mod_to_equations; lia); Z.div_mod_to_equations; lia|].
    split; [|rewrite Hp2]; Z.div_mod_to_equations; lia. }
  assert (Hn : reads_as (file_blk s0 inode) offset n (bs0 ++ bs)).
  { replace n with (csz + Z.max 0 (Z.min (size - csz) (i_size inode - (offset + csz)))) by lia.
    by apply reads_as_app. }
  exists s', f', (bs0 ++ bs). split; [|split; [exact Hn|exact Hh]].
  erewrite bind_ret.
  2:{ unfold try_bind, check. rewrite bind_assoc. mstep Hm1. cbn beta iota.
      rewrite (bind_ret _ _ _ (inr tt) s1) by done. cbn beta iota. rewrite bind_assoc.
      rewrite u32_small by lia. mstep Hm2. rewrite (bind_ret _ _ _ (inr tt) s2) by done. cbn beta iota.
      mstep Hb. exact Hl. }
  assert (Hval : i32 (Z.of_nat (length (bs0 ++ bs))) = n).
  { destruct Hn as [-> _]. apply i32_small. change (2 ^ 31) with 2147483648 in Hs. lia. }
  destruct Hx as [-> | ->]; cbn; by rewrite Hval.
Qed.

(** ** A sample

    A file of 10 bytes in block 1, opened as handle 1. *)
Definition sample_file : ext2_inode :=
  mk_inode 0 0 10 0 0 0 0 0 1 8 0 0 [1; 0; 0; 0; 0; 0; 0; 0; 0; 0; 0; 0; 0; 0; 0] 0 0 0 0 [0; 0; 0].

Definition sample_opened : OpSt :=
  mk_op (sample_fs {[ 5 := sample_file ]}) {[ 5 := mk_icache 1 [1%positive] ]}
    {[ 1%positive := set_update_flag true (FileStatus_init 5) ]} 2.
