(* ===== verification/FsPointers.v ===== *)
(** * Words of blocks through pointers

    [alloc_block(inode)] keeps a [Block*] while it allocates and reads other
    blocks, writes a word through it and marks the block as modified.  The
    pointer stays good because the block is recent enough ([recent]); between
    the write and the mark the cache is not coherent, after both it is. *)

From S2P Require Import Prelude Layout Disk Bitmap PathName Block BlockGroup BlockCache DentryCache.
From S2P Require Import FileSystem FileStatus OpenFiles FsBlocks.

Lemma recent_entry s n i p :
  recent s n i p -> exists l d, store_ok fs_off fs_valid l (fs_store s) /\ (i, p, d) ∈ l.
Proof.
  intros (l & d & Hok & Hin). exists l, d. split; [done|].
  apply elem_of_take in Hin as (k & Hk & _). by eapply list_elem_of_lookup_2.
Qed.

(** The block behind a recent pointer is what the block holds. *)
Lemma recent_block s n i p :
  recent s n i p -> exists b, st_mem (fs_store s) !! p = Some b /\ data_ b = fview s i
    /\ length (data_ b) = Z.to_nat BLOCK_SIZE.
Proof.
  intros Hr. destruct (recent_entry _ _ _ _ Hr) as (l & d & Hok & Hin).
  destruct (ok_entries _ _ _ _ Hok _ Hin) as (_ & b & Hb & _ & HL & _).
  change (eptr (i, p, d)) with p in Hb. exists b. split; [done|]. split; [|done].
  unfold fview. rewrite (view_find _ _ _ _ _ Hok).
  rewrite (find_elem l i (i, p, d)); [cbn; by rewrite Hb|by apply (store_ok_keys _ _ _ _ Hok)|done|done].
Qed.

Lemma recent_le s n m i p : recent s n i p -> (n <= m)%nat -> recent s m i p.
Proof.
  intros (l & d & Hok & Hin) Hle. exists l, d. split; [done|].
  apply elem_of_take in Hin as (k & Hk & Hlt). apply elem_of_take. exists k. split; [done|lia].
Qed.

Lemma word_in_range k (d : list byte) :
  0 <= k < WORDS -> length d = Z.to_nat BLOCK_SIZE -> in_range (4 * k) 4 d = true.
Proof.
  intros Hk HL. unfold in_range. rewrite HL. change WORDS with 1024 in Hk. change BLOCK_SIZE with 4096.
  rewrite (proj2 (Z.leb_le _ _)), (proj2 (Z.leb_le _ _)) by lia. done.
Qed.

(** Reading a word. *)
Lemma load32_recent s n i p k :
  recent s n i p -> 0 <= k < WORDS -> load32 p k s = Ret (ld 4 (4 * k) (fview s i)) s.
Proof.
  intros Hr Hk. destruct (recent_block _ _ _ _ Hr) as (b & Hb & Hd & HL). unfold load32.
  rewrite (bind_ret _ _ _ b s).
  2:{ unfold on_store, zoom, block_deref. rewrite Hb. by destruct s as [[] ? ? ? ?]. }
  rewrite word_in_range by done. rewrite (bind_ret _ _ _ tt s) by done. by rewrite Hd.
Qed.

(** ** Writing *)

Lemma elem_of_take_mark n i (j : Z) (q : positive) d l :
  (j, q, d) ∈ take n l -> exists d', (j, q, d') ∈ take n (Lru.mark i true l).
Proof.
  intros H. apply elem_of_take in H as (k & Hk & Hn).
  exists (if Lru.key (j, q, d) =? i then true else d). apply elem_of_take. exists k. split; [|done].
  unfold Lru.mark. rewrite list_lookup_fmap, Hk. cbn. by destruct (j =? i).
Qed.

(** New contents through a recent pointer, then [modify]. *)
Lemma update_touch s n i p data :
  fs_inv s -> recent s n i p -> length data = Z.to_nat BLOCK_SIZE ->
  exists b st1 st2, st_mem (fs_store s) !! p = Some b /\ data_ b = fview s i
    /\ on_store (block_update p (with_data data b)) s = Ret tt (with_store st1 s)
    /\ touch_block i (with_store st1 s) = Ret tt (with_store st2 s)
    /\ fs_inv (with_store st2 s)
    /\ (forall j, fs_valid j -> fview (with_store st2 s) j = if j =? i then data else fview s j)
    /\ (forall k j q, recent s k j q -> recent (with_store st2 s) k j q)
    /\ size_ (st_cache st2) = size_ (st_cache (fs_store s)).
Proof.
  intros Hinv Hr HL. destruct (recent_block _ _ _ _ Hr) as (b & Hb & Hd & _).
  destruct (recent_entry _ _ _ _ Hr) as (l & d & Hok & Hin).
  destruct (inv_store _ Hinv) as (l0 & Hok0 & Hal). rewrite (store_ok_unique _ _ _ Hok0 Hok) in Hal. clear l0 Hok0.
  set (m1 := <[p := with_data data b]> (st_mem (fs_store s))).
  set (st1 := mk_store (st_disk (fs_store s)) m1 (st_next (fs_store s)) (st_cache (fs_store s))).
  destruct (cache_modify_spec st1 l i (ok_rep _ _ _ _ Hok)) as (c' & Hm & Hc & Hcs).
  destruct (mark_ok fs_off fs_valid (fs_store s) l i true c' (st_disk (fs_store s)))
    as [Hok1 Hv1]; [done|done|apply Hok|done..|].
  set (s1 := mk_store _ _ _ c') in Hok1, Hv1.
  assert (Hin1 : (i, p, true) ∈ Lru.mark i true l).
  { unfold Lru.mark. apply list_elem_of_fmap. exists (i, p, d). split; [|done]. cbn. by rewrite Z.eqb_refl. }
  destruct (update_ok fs_off fs_valid s1 _ i p b data Hok1 Hin1 Hb HL) as [Hok2 Hv2].
  set (st2 := mk_store _ _ _ _) in Hok2, Hv2.
  exists b, st1, st2. split; [done|]. split; [done|]. split; [|split; [|split; [|split; [|split]]]].
  - unfold on_store, zoom, block_update. by rewrite Hb.
  - unfold touch_block. rewrite (on_store_eq _ (with_store st1 s) _ _ Hm). done.
  - apply (fs_inv_store s st2 (Lru.mark i true l)); [done|done| | | |cbn; lia].
    + intros e He. apply elem_of_mark in He as (e0 & He0 & ->). specialize (Hal _ He0).
      by destruct (Lru.key e0 =? i).
    + cbn. rewrite Hcs. apply Hinv.
    + cbn. intros q Hq. apply (inv_fresh _ Hinv). destruct (decide (q = p)) as [->|]; [by exists b|].
      by rewrite lookup_insert_ne in Hq.
  - intros j Hj. unfold fview. cbn [with_store fs_store]. rewrite Hv2. destruct (j =? i); [done|]. by apply Hv1.
  - intros k j q (l0 & d0 & Hok0 & Hin0). rewrite (store_ok_unique _ _ _ Hok0 Hok) in Hin0.
    destruct (elem_of_take_mark k i j q d0 l Hin0) as [d' Hd']. by exists (Lru.mark i true l), d'.
  - cbn. by rewrite Hcs.
Qed.

(** [uint32_t* ptr = block->get(); ptr[k] = v; ... modify(i)] *)
Lemma store32_touch s n i p k v :
  fs_inv s -> recent s n i p -> 0 <= k < WORDS ->
  exists st1 st2, store32 p k v s = Ret tt (with_store st1 s)
    /\ touch_block i (with_store st1 s) = Ret tt (with_store st2 s)
    /\ fs_inv (with_store st2 s)
    /\ (forall j, fs_valid j ->
          fview (with_store st2 s) j = if j =? i then st 4 (4 * k) v (fview s i) else fview s j)
    /\ (forall m j q, recent s m j q -> recent (with_store st2 s) m j q)
    /\ size_ (st_cache st2) = size_ (st_cache (fs_store s)).
Proof.
  intros Hinv Hr Hk. pose proof (fview_length s i Hinv) as HL.
  assert (Hin : in_range (4 * k) 4 (fview s i) = true) by by apply word_in_range.
  destruct (update_touch s n i p (st 4 (4 * k) v (fview s i)) Hinv Hr) as (b & st1 & st2 & Hb & Hd & Hu & Ht & H).
  { rewrite length_st; [done|lia|]. change WORDS with 1024 in Hk. rewrite HL. change (Z.to_nat BLOCK_SIZE) with 4096%nat.
    lia. }
  exists st1, st2. split; [|split; [done|exact H]].
  unfold store32. rewrite (bind_ret _ _ _ b s).
  2:{ unfold on_store, zoom, block_deref. rewrite Hb. by destruct s as [[] ? ? ? ?]. }
  rewrite Hd, Hin, (bind_ret _ _ _ tt s) by done. exact Hu.
Qed.
