(* ===== verification/FsAlloc.v ===== *)
(** * Allocating and freeing blocks: FileSystem::alloc_block and
    FileSystem::free_block of src/filesystem.cpp

    The first loaded group with a free block gives it; its number in the
    file system, its place on disk and what it holds follow.  [fs_wf] is the
    invariant of the file system's blocks: the cache is coherent, and the
    descriptor of every loaded group counts the free blocks of its bitmap. *)

From S2P Require Import Prelude Layout Disk Bitmap PathName Block BlockGroup BlockCache DentryCache.
From S2P Require Import FileSystem FileStatus OpenFiles FsBlocks FsPointers.

(** ** The invariant *)

Definition super_len (s : FS) : Prop := length (data_ (sb_block (fs_super s))) = Z.to_nat BLOCK_SIZE.

(** The table blocks of group [gi] were read from their place on disk. *)
Definition table_placed (gi : Z) (g : BlockGroup) : Prop :=
  map_Forall (fun k b => 0 <= k < NUM_INODE_TABLE_BLOCKS
                         /\ offset_ b = bitmap_off gi + (k + 1) * BLOCK_SIZE) (inode_table_ g).

Lemma table_from_placed gi g g' : offset_ (block_bitmap_ g) = bitmap_off gi ->
  table_from g g' -> table_placed gi g -> table_placed gi g'.
Proof.
  intros Ho Hf Hp k b Hb. destruct (Hf k b Hb) as [(b0 & Hb0 & ->)|[Hk ->]]; [exact (Hp k b0 Hb0)|].
  split; [done|]. unfold inode_block_offset. change NUM_INODE_TABLE_BLOCKS with 1024 in Hk.
  rewrite Ho, u32_small; [done|]. change BLOCK_SIZE with 4096. lia.
Qed.

Lemma inode_store_placed gi i w g g' :
  inode_store i w g = Some g' -> table_placed gi g -> table_placed gi g'.
Proof.
  unfold inode_store. destruct (inode_table_ g !! (i / INODES_PER_BLOCK)) as [b|] eqn:Hb; [|done].
  cbn. intros [= <-] Hp. apply map_Forall_insert_2; [|done]. exact (Hp _ _ Hb).
Qed.

(** The tables of inodes are whole blocks. *)
Definition tables_ok (s : FS) : Prop :=
  forall gi g, fs_groups s !! gi = Some g -> itab_wf g /\ table_placed gi g.

(** Where the super block and the bitmaps of a loaded group belong on disk,
    and that a mount will find them there. *)
Record disk_layout (s : FS) : Prop := {
  dl_super : offset_ (sb_block (fs_super s)) = 0;
  dl_state : sb_get s_state (fs_super s) = FSState_NORMAL;
  dl_group : forall gi g, fs_groups s !! gi = Some g ->
    offset_ (inode_bitmap_ g) = bitmap_off gi - BLOCK_SIZE
    /\ desc_get (desc_off gi) bg_block_bitmap (fs_super s) = bitmap_off gi
    /\ desc_get (desc_off gi) bg_inode_bitmap (fs_super s) = bitmap_off gi - BLOCK_SIZE
}.

Record fs_wf (s : FS) : Prop := {
  wf_inv : fs_inv s;
  wf_len : super_len s;
  wf_log : sb_get s_log_block_size (fs_super s) = LOG_BLOCK_SIZE;
  wf_group : forall gi g, fs_groups s !! gi = Some g ->
    desc_ g = desc_off gi /\ bm_wf (inode_bitmap_ g)
    /\ desc_get (desc_off gi) bg_free_blocks_count (fs_super s) = free_bits (block_bitmap_ g);
  wf_tables : tables_ok s;
  wf_layout : disk_layout s
}.

Lemma fs_wf_group_wf s gi g :
  fs_wf s -> fs_groups s !! gi = Some g -> group_wf (mk_gst (st_disk (fs_store s)) (fs_super s) g).
Proof.
  intros H Hg. destruct (wf_group _ H _ _ Hg) as (Hd & Hib & _).
  destruct (inv_groups _ (wf_inv _ H) _ _ Hg) as (Hgi & Hbb & _).
  constructor; [done|done|]. split; [apply (wf_len _ H)|]. cbn. rewrite Hd.
  unfold desc_off, sizeof_ext2_super_block, sizeof_ext2_group_desc, MAX_GROUPS, BLOCK_SIZE in *. lia.
Qed.

(** Blocks that are not in use are zero on disk. *)
Definition free_zero (s : FS) : Prop :=
  forall i, fs_valid i -> allocated s i = false -> block_at (st_disk (fs_store s)) (fs_off i) = zeros BLOCK_SIZE.

(** Some loaded group has [k] free blocks. *)
Definition room (s : FS) (k : Z) : Prop :=
  exists gi g, fs_groups s !! gi = Some g /\ k <= free_bits (block_bitmap_ g).

(** What allocation never changes: the directory cache, the copies of
    inodes, the inode tables and their bitmaps, the geometry. *)
Definition sb_fixed (sb : SuperBlock) : Z * Z * Z :=
  (sb_get s_log_block_size sb, sb_get s_blocks_per_group sb, sb_get s_inodes_per_group sb).

Definition group_meta (g : BlockGroup) : Z * Block * gmap Z Block :=
  (desc_ g, inode_bitmap_ g, inode_table_ g).

(** The free inodes that the descriptor of group [gi] counts. *)
Definition icount (gi : Z) (sb : SuperBlock) : Z := desc_get (desc_off gi) bg_free_inodes_count sb.

Record same_meta (s s' : FS) : Prop := {
  sm_dentry : fs_dentry s' = fs_dentry s;
  sm_copies : fs_copies s' = fs_copies s;
  sm_super : sb_fixed (fs_super s') = sb_fixed (fs_super s);
  sm_groups : forall gi, group_meta <$> fs_groups s' !! gi = group_meta <$> fs_groups s !! gi;
  sm_counts : forall gi, 0 <= gi -> icount gi (fs_super s') = icount gi (fs_super s)
}.

#[export] Instance same_meta_preorder : PreOrder same_meta.
Proof.
  split; [by constructor|]. intros s1 s2 s3 [H1 H2 H3 H4 H5] [K1 K2 K3 K4 K5].
  constructor; [congruence|congruence|congruence| |]; intros gi; [by rewrite K4, H4|]. intros Hgi. by rewrite K5, H5.
Qed.

Lemma same_meta_log s s' :
  same_meta s s' -> sb_get s_log_block_size (fs_super s') = sb_get s_log_block_size (fs_super s).
Proof. intros H. pose proof (sm_super _ _ H) as E. by injection E. Qed.

Lemma same_meta_store s st : same_meta s (with_store st s).
Proof. by constructor. Qed.

Lemma fs_wf_store s st : fs_wf s -> fs_inv (with_store st s) -> fs_wf (with_store st s).
Proof.
  intros H Hi. constructor; [done|apply (wf_len _ H)|apply (wf_log _ H)|apply (wf_group _ H)|apply (wf_tables _ H)|].
  destruct (wf_layout _ H). by constructor.
Qed.

Lemma same_meta_tables s s' : same_meta s s' -> tables_ok s -> tables_ok s'.
Proof.
  intros M H gi g' Hg'. pose proof (sm_groups _ _ M gi) as E. rewrite Hg' in E.
  destruct (fs_groups s !! gi) as [g|] eqn:Hg; [|done]. cbn in E. unfold group_meta in E. injection E as _ _ E.
  unfold itab_wf, table_placed. rewrite E. by apply (H gi).
Qed.

(** The layout follows from the super block's fields and the places of the
    inode bitmaps. *)
Definition sb_layout (sb : SuperBlock) : Z * Z := (offset_ (sb_block sb), sb_get s_state sb).

Lemma disk_layout_keep s s' :
  fs_inv s -> disk_layout s -> sb_layout (fs_super s') = sb_layout (fs_super s) ->
  (forall p f, 0 <= p -> 0 <= f_off f -> f_off f + Z.of_nat (f_width f) <= f_off bg_free_blocks_count ->
     desc_get (desc_off p) f (fs_super s') = desc_get (desc_off p) f (fs_super s)) ->
  (forall gi g', fs_groups s' !! gi = Some g' -> exists g, fs_groups s !! gi = Some g
     /\ offset_ (inode_bitmap_ g') = offset_ (inode_bitmap_ g)) ->
  disk_layout s'.
Proof.
  intros Hinv [D1 D2 D3] E Hd Hg. injection E as E1 E2. constructor; [congruence|congruence|].
  intros gi g' Hg'. destruct (Hg gi g' Hg') as (g & Hgi & ->). destruct (D3 gi g Hgi) as (H1 & H2 & H3).
  destruct (inv_groups _ Hinv _ _ Hgi) as [Hr _].
  rewrite !Hd by solve [lia | vm_compute; congruence]. done.
Qed.

Lemma same_meta_ibm s s' : same_meta s s' -> forall gi g', fs_groups s' !! gi = Some g' ->
  exists g, fs_groups s !! gi = Some g /\ offset_ (inode_bitmap_ g') = offset_ (inode_bitmap_ g).
Proof.
  intros M gi g' Hg'. pose proof (sm_groups _ _ M gi) as E. rewrite Hg' in E.
  destruct (fs_groups s !! gi) as [g|] eqn:Hg; [|done]. exists g. split; [done|].
  cbn in E. unfold group_meta in E. injection E as _ E _. by rewrite E.
Qed.

(** ** Numbers of blocks *)

(** The number of block [i] of group [gi]. *)
Definition block_number (gi i : Z) : Z := gi * TOTAL_BLOCKS_PER_GROUP + i.

Lemma block_number_div gi i :
  0 <= i < BLOCKS_PER_GROUP ->
  block_number gi i / TOTAL_BLOCKS_PER_GROUP = gi /\ block_number gi i mod TOTAL_BLOCKS_PER_GROUP = i.
Proof.
  unfold block_number. rewrite TBPG_eq, BPG_eq. intros H. Z.div_mod_to_equations. lia.
Qed.

Lemma block_number_of i :
  block_number (i / TOTAL_BLOCKS_PER_GROUP) (i mod TOTAL_BLOCKS_PER_GROUP) = i.
Proof. unfold block_number. rewrite (Z.div_mod i TOTAL_BLOCKS_PER_GROUP) at 3 by done. lia. Qed.

(** ** Flipping a bit of a block bitmap *)

(** [s'] is [s] after block [i] of group [gi] was taken ([v] is true) or
    given back: its bit and the counts have changed, the store has not. *)
Record flipped (gi i : Z) (v : bool) (s s' : FS) : Prop := {
  fl_store : fs_store s' = fs_store s;
  fl_range : 0 <= i < BLOCKS_PER_GROUP;
  fl_group : exists g bb, fs_groups s !! gi = Some g /\ bm_bit (block_bitmap_ g) i = negb v
    /\ bm_update (block_bitmap_ g) bb i v /\ fs_groups s' = <[gi := with_bbm bb g]> (fs_groups s);
  fl_meta : same_meta s s';
  fl_len : super_len s';
  fl_counts : forall gj h, fs_groups s' !! gj = Some h ->
    desc_ h = desc_off gj /\ bm_wf (inode_bitmap_ h)
    /\ desc_get (desc_off gj) bg_free_blocks_count (fs_super s') = free_bits (block_bitmap_ h);
  fl_layout : disk_layout s'
}.

Lemma flipped_allocated gi i v s s' j :
  flipped gi i v s s' ->
  allocated s (block_number gi i) = negb v
  /\ allocated s' j = if j =? block_number gi i then v else allocated s j.
Proof.
  intros T. destruct (fl_group _ _ _ _ _ T) as (g & bb & Hg & Hfree & (_ & _ & Hset & Hsame) & Hgs).
  pose proof (fl_range _ _ _ _ _ T) as Hi. destruct (block_number_div gi i Hi) as [Hd Hm].
  pose proof (Z.mod_pos_bound j TOTAL_BLOCKS_PER_GROUP ltac:(done)) as Hj.
  assert (Hlt : (i <? BLOCKS_PER_GROUP) = true) by (apply Z.ltb_lt; lia).
  unfold allocated. rewrite Hgs, Hd, Hm, Hg, Hfree, Hlt. split; [done|].
  destruct (decide (j / TOTAL_BLOCKS_PER_GROUP = gi)) as [E|E].
  - rewrite E, lookup_insert_eq, Hg. cbn [with_bbm block_bitmap_].
    destruct (decide (j mod TOTAL_BLOCKS_PER_GROUP = i)) as [Em|Em].
    + assert (j = block_number gi i) as -> by (rewrite <- E, <- Em; symmetry; apply block_number_of).
      by rewrite Z.eqb_refl, Em, Hset, Hlt.
    + rewrite Hsame by (done || lia). destruct (Z.eqb_spec j (block_number gi i)) as [->|]; [|done].
      by rewrite Hm in Em.
  - rewrite lookup_insert_ne by done. destruct (Z.eqb_spec j (block_number gi i)) as [->|]; [|done].
    by rewrite Hd in E.
Qed.

Lemma flipped_groups gi i v s s' :
  fs_inv s -> flipped gi i v s s' -> forall k h, fs_groups s' !! k = Some h ->
  0 <= k < MAX_GROUPS /\ bm_wf (block_bitmap_ h) /\ offset_ (block_bitmap_ h) = bitmap_off k.
Proof.
  intros Hinv T k h Hk. destruct (fl_group _ _ _ _ _ T) as (g & bb & Hg & _ & (Hwf & Hoff & _) & Hgs).
  rewrite Hgs in Hk. destruct (decide (k = gi)) as [->|].
  - rewrite lookup_insert_eq in Hk. injection Hk as <-. cbn [with_bbm block_bitmap_].
    destruct (inv_groups _ Hinv _ _ Hg) as (H1 & _ & H2). split; [done|]. split; [done|]. by rewrite Hoff.
  - rewrite lookup_insert_ne in Hk by done. by apply Hinv.
Qed.

Lemma flipped_bpg gi i v s s' : flipped gi i v s s' -> blocks_per_group (fs_super s') = blocks_per_group (fs_super s).
Proof. intros T. pose proof (sm_super _ _ (fl_meta _ _ _ _ _ T)) as H. injection H as _ H _. exact H. Qed.

(** Taking a block keeps the invariant. *)
Lemma flipped_wf gi i s s' : fs_wf s -> flipped gi i true s s' -> fs_wf s'.
Proof.
  intros Hwf T. pose proof (wf_inv _ Hwf) as Hinv.
  constructor; [|apply (fl_len _ _ _ _ _ T)| |apply (fl_counts _ _ _ _ _ T)| |apply (fl_layout _ _ _ _ _ T)];
    [|by rewrite (same_meta_log _ _ (fl_meta _ _ _ _ _ T)), (wf_log _ Hwf)
     |apply (same_meta_tables s); [apply (fl_meta _ _ _ _ _ T)|apply (wf_tables _ Hwf)]].
  constructor; rewrite ?(fl_store _ _ _ _ _ T); try apply Hinv.
  - rewrite (flipped_bpg _ _ _ _ _ T). apply Hinv.
  - by apply (flipped_groups gi i true s).
  - destruct (inv_store _ Hinv) as (l & Hok & Hal). exists l. split; [done|]. intros e He.
    destruct (flipped_allocated gi i true s s' (Lru.key e) T) as [_ ->].
    rewrite (Hal e He). by destruct (_ =? _).
Qed.

(** It costs one free block. *)
Lemma flipped_room gi i s s' k : flipped gi i true s s' -> room s (k + 1) -> room s' k.
Proof.
  intros T (gj & h & Hh & Hk). destruct (fl_group _ _ _ _ _ T) as (g & bb & Hg & Hfree & Hup & Hgs).
  pose proof (fl_range _ _ _ _ _ T) as Hi. unfold room. rewrite Hgs. destruct (decide (gj = gi)) as [->|Hne].
  - exists gi, (with_bbm bb g). split; [apply lookup_insert_eq|]. cbn [with_bbm block_bitmap_].
    rewrite Hh in Hg. injection Hg as <-. rewrite (free_bits_set _ _ i Hi Hfree Hup). lia.
  - exists gj, h. rewrite lookup_insert_ne by done. split; [done|lia].
Qed.

(** A call of a group's method that flips a bit and counts. *)
Lemma on_group_flips {A} gi i v (m : M GroupSt A) s g r gs bb :
  fs_wf s -> fs_groups s !! gi = Some g -> 0 <= i < BLOCKS_PER_GROUP ->
  m (mk_gst (st_disk (fs_store s)) (fs_super s) g) = Ret r gs ->
  gs_disk gs = st_disk (fs_store s) -> gs_group gs = with_bbm bb g ->
  bm_bit (block_bitmap_ g) i = negb v -> bm_update (block_bitmap_ g) bb i v ->
  desc_get (desc_ g) bg_free_blocks_count (gs_super gs)
  = u16 (desc_get (desc_ g) bg_free_blocks_count (fs_super s) + (if v then -1 else 1)) ->
  desc_get (desc_ g) bg_free_inodes_count (gs_super gs) = desc_get (desc_ g) bg_free_inodes_count (fs_super s) ->
  desc_only (desc_ g) (fs_super s) (gs_super gs) ->
  exists s', on_group gi m s = Ret r s' /\ flipped gi i v s s'.
Proof.
  intros Hwf Hg Hi Hm Hdk Hgg Hbit Hup Hcnt Hicnt Honly. unfold on_group. rewrite Hg, Hm.
  eexists. split; [reflexivity|]. destruct (wf_group _ Hwf _ _ Hg) as (Hd & Hib & Hacc).
  destruct (inv_groups _ (wf_inv _ Hwf) _ _ Hg) as (Hgi & _ & _). rewrite Hd in *.
  assert (Hp : sizeof_ext2_super_block <= desc_off gi) by (unfold desc_off, sizeof_ext2_group_desc; lia).
  constructor; cbn [fs_store fs_groups fs_super fs_dentry fs_copies]; rewrite ?Hgg.
  - rewrite Hdk. by destruct (fs_store s).
  - assumption.
  - exists g, bb. auto.
  - constructor; cbn; [reflexivity|reflexivity| | |].
    + unfold sb_fixed. rewrite !(desc_only_super _ _ _ _ Honly Hp) by (vm_compute; congruence). reflexivity.
    + intros gj. destruct (decide (gj = gi)) as [->|]; [rewrite lookup_insert_eq, Hg; reflexivity|].
      rewrite lookup_insert_ne by congruence. reflexivity.
    + intros gj Hgj. unfold icount. destruct (decide (gj = gi)) as [->|Hne]; [assumption|].
      apply (desc_only_other gi gj _ _ _ Honly); [congruence|lia|by vm_compute|by vm_compute].
  - unfold super_len; cbn. destruct Honly as [-> _]. apply (wf_len _ Hwf).
  - intros gj h Hh. destruct (decide (gj = gi)) as [->|Hne].
    + rewrite lookup_insert_eq in Hh. injection Hh as <-. cbn [with_bbm desc_ inode_bitmap_ block_bitmap_].
      split; [assumption|]. split; [assumption|]. rewrite Hcnt, Hacc. clear Hcnt Hacc. destruct v.
      * apply (account_set _ _ i); assumption.
      * apply (account_clear _ _ i); assumption.
    + rewrite lookup_insert_ne in Hh by done. destruct (wf_group _ Hwf _ _ Hh) as (Hdh & Hih & Hah).
      destruct (inv_groups _ (wf_inv _ Hwf) _ _ Hh) as (Hgj & _ & _).
      split; [assumption|]. split; [assumption|].
      rewrite (desc_only_other gi gj _ _ _ Honly); [assumption|congruence|lia|by vm_compute|by vm_compute].
  - apply (disk_layout_keep s); [apply Hwf|apply Hwf| | |]; cbn [fs_super fs_groups].
    + unfold sb_layout. rewrite (desc_only_super _ _ _ _ Honly Hp) by (vm_compute; congruence).
      destruct Honly as (_ & -> & _). reflexivity.
    + intros p f H1 H2 H3. apply (desc_only_offsets gi p _ _ f Honly); assumption.
    + intros gj h Hh. destruct (decide (gj = gi)) as [->|Hne].
      * rewrite lookup_insert_eq in Hh. injection Hh as <-. by exists g.
      * rewrite lookup_insert_ne in Hh by done. by exists h.
Qed.

(** ** Taking a block *)

(** The body of the loop over the groups. *)
Definition alloc_body (gi : Z) (_ : unit) : M FS (Z * Block * Z + unit) :=
  n ← group_desc_get gi bg_free_blocks_count;
  if n =? 0 then mret (inr tt)
  else
    r ← on_group gi group_alloc_block;
    match r with
    | None => mret (inr tt)
    | Some (b, i) => mret (inl (gi, b, i))
    end.

Lemma alloc_body_spec s gi g :
  fs_wf s -> fs_groups s !! gi = Some g ->
  (alloc_body gi tt s = Ret (inr tt) s /\ free_bits (block_bitmap_ g) = 0)
  \/ exists i s', alloc_body gi tt s
       = Ret (inl (gi, mk_block (fs_off (block_number gi i)) (zeros BLOCK_SIZE), i)) s'
       /\ flipped gi i true s s'.
Proof.
  intros Hwf Hg. unfold alloc_body, group_desc_get.
  destruct (wf_group _ Hwf _ _ Hg) as (Hd & _ & Hacc).
  rewrite bind_assoc, (bind_ret _ _ _ s s) by done. rewrite bind_assoc, Hg, (bind_ret _ _ _ g s) by done.
  rewrite (bind_ret _ _ _ (desc_get (desc_ g) bg_free_blocks_count (fs_super s)) s) by done.
  rewrite Hd, Hacc. destruct (Z.eqb_spec (free_bits (block_bitmap_ g)) 0) as [Hz|Hz]; [by left|]. right.
  destruct (group_alloc_block_spec _ (fs_wf_group_wf _ _ _ Hwf Hg)) as (r & gs & Hr & Hdk & Hcase).
  cbn [gs_disk gs_super gs_group] in *. destruct r as [[b i]|]; [|by destruct Hcase as [Hz' _]].
  destruct Hcase as (Hi & Hfree & _ & Hb & (bb & Hgg & Hup) & _ & Hcnt & Hicnt & Honly).
  destruct (on_group_flips gi i true _ s g _ gs bb Hwf Hg Hi Hr Hdk Hgg Hfree Hup Hcnt Hicnt Honly) as (s' & Hog & T).
  exists i, s'. split; [|exact T]. mstep Hog. unfold mret, M_ret. do 4 f_equal. rewrite Hb. f_equal.
  destruct (inv_groups _ (wf_inv _ Hwf) _ _ Hg) as (Hgi & _ & Hoff).
  unfold data_block_offset, fs_off. destruct (block_number_div gi i) as [-> ->]; [done|].
  rewrite Hoff, u32_small; [done|]. change BITS with 32768 in Hi. change BLOCK_SIZE with 4096. lia.
Qed.

Lemma alloc_loop_spec s keys :
  fs_wf s -> (forall gi, gi ∈ keys -> is_Some (fs_groups s !! gi)) ->
  (for_list keys alloc_body tt s = Ret (inr tt) s
   /\ forall gi g, gi ∈ keys -> fs_groups s !! gi = Some g -> free_bits (block_bitmap_ g) = 0)
  \/ exists gi i s', for_list keys alloc_body tt s
       = Ret (inl (gi, mk_block (fs_off (block_number gi i)) (zeros BLOCK_SIZE), i)) s'
       /\ flipped gi i true s s'.
Proof.
  intros Hwf. induction keys as [|k keys IH]; intros Hk.
  { left. split; [done|]. intros gi g Hin. by apply not_elem_of_nil in Hin. }
  destruct (Hk k) as [g Hg]; [by constructor|]. cbn [for_list].
  destruct (alloc_body_spec s k g Hwf Hg) as [[Hb Hex]|(i & s' & Hb & T)].
  - mstep Hb. destruct IH as [[Hl Hall]|Hr]; [intros; apply Hk; by constructor| |by right].
    left. split; [done|]. intros gi g' Hin Hg'. apply elem_of_cons in Hin as [->|Hin]; [|by apply (Hall gi)].
    rewrite Hg in Hg'. by injection Hg' as <-.
  - right. exists k, i, s'. split; [|done]. by mstep Hb.
Qed.

(** ** Counting in the super block *)

Definition with_sb (sb : SuperBlock) (s : FS) : FS :=
  mk_fs (fs_store s) sb (fs_groups s) (fs_dentry s) (fs_copies s).

(** Counting changes no other field of the super block, and no descriptor. *)
Lemma super_add_spec s f delta :
  super_len s -> 0 <= f_off f -> f_off f + Z.of_nat (f_width f) <= sizeof_ext2_super_block ->
  exists sb, super_add f delta s = Ret tt (with_sb sb s) /\ super_len (with_sb sb s)
    /\ (forall f', 0 <= f_off f' -> f_off f' + Z.of_nat (f_width f') <= f_off f
                   \/ f_off f + Z.of_nat (f_width f) <= f_off f' -> sb_get f' sb = sb_get f' (fs_super s))
    /\ (forall p f', sizeof_ext2_super_block <= p -> 0 <= f_off f' -> desc_get p f' sb = desc_get p f' (fs_super s))
    /\ sb_get f sb = (sb_get f (fs_super s) + delta) mod 2 ^ (8 * Z.of_nat (f_width f))
    /\ offset_ (sb_block sb) = offset_ (sb_block (fs_super s)).
Proof.
  unfold super_len. intros HL H0 H1. unfold sizeof_ext2_super_block in *. change (Z.to_nat BLOCK_SIZE) with 4096%nat in HL.
  eexists. split; [reflexivity|]. cbn [with_sb fs_super]. unfold sb_get, desc_get, sb_set; cbn [sb_block with_data data_].
  split; [rewrite length_setf by (rewrite ?HL; lia); done|]. split; [|split].
  - intros f' Hf' Hd. rewrite getf_setf_ne by (rewrite ?HL; lia). done.
  - intros p f' Hp Hf'. rewrite getf_setf_ne by (rewrite ?HL; lia). done.
  - rewrite getf_setf_eq by (rewrite ?HL; lia). done.
Qed.

(** A field of the super block that is not part of the geometry. *)
Definition counter (f : field) : bool :=
  (0 <=? f_off f) && (f_off f + Z.of_nat (f_width f) <=? f_off s_log_block_size).

Lemma super_add_wf s f delta :
  fs_wf s -> counter f = true ->
  exists sb, super_add f delta s = Ret tt (with_sb sb s) /\ fs_wf (with_sb sb s) /\ same_meta s (with_sb sb s)
    /\ (forall f', 0 <= f_off f' -> f_off f' + Z.of_nat (f_width f') <= f_off f
                   \/ f_off f + Z.of_nat (f_width f) <= f_off f' -> sb_get f' sb = sb_get f' (fs_super s))
    /\ sb_get f sb = (sb_get f (fs_super s) + delta) mod 2 ^ (8 * Z.of_nat (f_width f))
    /\ (forall p f', sizeof_ext2_super_block <= p -> 0 <= f_off f' -> desc_get p f' sb = desc_get p f' (fs_super s)).
Proof.
  intros Hwf Hc. apply andb_true_iff in Hc as [Hc0 Hc1]. apply Z.leb_le in Hc0, Hc1.
  change (f_off s_log_block_size) with 24 in Hc1.
  destruct (super_add_spec s f delta (wf_len _ Hwf)) as (sb & H1 & HL & Hf & Hd & Hv & Ho);
    [done|unfold sizeof_ext2_super_block; lia|].
  exists sb. split; [done|]. split; [|split; [|by split]].
  - constructor; [|exact HL| | |exact (wf_tables _ Hwf)|].
    + pose proof (wf_inv _ Hwf) as Hinv. constructor; cbn; try apply Hinv.
      rewrite <- (inv_bpg _ Hinv). apply Hf; [by vm_compute|right; cbn; lia].
    + rewrite <- (wf_log _ Hwf). apply Hf; [by vm_compute|right; cbn; lia].
    + intros gi g Hg. destruct (wf_group _ Hwf _ _ Hg) as (H2 & H3 & H4). split; [done|]. split; [done|].
      cbn [with_sb fs_super]. rewrite Hd; [done| |by vm_compute].
      destruct (inv_groups _ (wf_inv _ Hwf) _ _ Hg) as (Hgi & _). unfold desc_off, sizeof_ext2_group_desc. lia.
    + apply (disk_layout_keep s); [apply Hwf|apply Hwf| | |by eauto]; cbn [with_sb fs_super].
      * unfold sb_layout. rewrite Ho, Hf; [done|by vm_compute|right; cbn; lia].
      * intros p f' Hp Hf0 _. apply Hd; [|done]. unfold desc_off, sizeof_ext2_group_desc. lia.
  - constructor; cbn; [done|done| |done|].
    + unfold sb_fixed. by rewrite !Hf by solve [vm_compute; congruence | right; cbn; lia].
    + intros gi Hgi. apply Hd; [unfold desc_off, sizeof_ext2_group_desc; lia|by vm_compute].
Qed.

(** The two counters that [alloc_block] and [free_block] update. *)
Lemma count_blocks s a b :
  fs_wf s ->
  exists sb, (_ ← super_add s_free_blocks_count a; super_add s_blocks_count b) s = Ret tt (with_sb sb s)
    /\ fs_wf (with_sb sb s) /\ same_meta s (with_sb sb s)
    /\ sb_get s_free_blocks_count sb = u32 (sb_get s_free_blocks_count (fs_super s) + a).
Proof.
  intros Hwf. destruct (super_add_wf s s_free_blocks_count a Hwf eq_refl) as (sb1 & H1 & Hwf1 & Hm1 & _ & Hc1 & _).
  destruct (super_add_wf _ s_blocks_count b Hwf1 eq_refl) as (sb2 & H2 & Hwf2 & Hm2 & Hk & _).
  exists sb2. split; [by mstep H1|]. split; [exact Hwf2|]. split; [by etransitivity|].
  rewrite Hk; [exact Hc1|by vm_compute|right; by vm_compute].
Qed.

(** ** alloc_block *)

Lemma unallocated_view s i :
  fs_inv s -> allocated s i = false -> fview s i = block_at (st_disk (fs_store s)) (fs_off i).
Proof.
  intros Hinv Ha. destruct (inv_store _ Hinv) as (l & Hok & Hal). unfold fview.
  rewrite (view_find _ _ _ _ _ Hok). destruct (Lru.find i l) as [e|] eqn:Hf; [|done].
  apply find_key in Hf as [He <-]. rewrite (Hal e He) in Ha. done.
Qed.

(** A new block, zeroed, is put into the cache as clean. *)
Lemma cache_fresh s idx b :
  fs_inv s -> allocated s idx = true -> (forall l, store_ok fs_off fs_valid l (fs_store s) -> Lru.find idx l = None) ->
  offset_ b = fs_off idx -> length (data_ b) = Z.to_nat BLOCK_SIZE ->
  block_at (st_disk (fs_store s)) (fs_off idx) = data_ b ->
  exists p st1 st, on_store (block_new b) s = Ret p (with_store st1 s)
    /\ on_store (cache_insert idx p false) (with_store st1 s) = Ret tt (with_store st s)
    /\ fs_inv (with_store st s) /\ st_mem st !! p = Some b
    /\ recent (with_store st s) 1 idx p
    /\ (forall k j q, recent s k j q -> Z.of_nat k < size_ (st_cache (fs_store s)) ->
          recent (with_store st s) (S k) j q)
    /\ size_ (st_cache st) = size_ (st_cache (fs_store s))
    /\ forall j, fs_valid j -> fview (with_store st s) j = if j =? idx then data_ b else fview s j.
Proof.
  intros Hinv Ha Hnf Ho HL Hz. pose proof (allocated_valid _ _ Hinv Ha) as Hv.
  destruct (inv_store _ Hinv) as (l & Hok & Hall). specialize (Hnf l Hok).
  destruct (block_new_ok (fs_store s) l b Hok (inv_fresh _ Hinv)) as (Hnew & Hok1 & Hnp & Hfr & Hv1).
  set (st1 := mk_store _ _ _ _) in *. set (p := st_next (fs_store s)) in *.
  destruct (cache_insert_ok fs_off fs_valid st1 l idx p false b fs_offsets_ok Hok1 Hnf Hv)
    as (st2 & Hins & Hok2 & Hb2 & Hfr2 & Hv2);
    [apply Hinv|apply lookup_insert_eq|done|done|done|done|].
  set (l2 := (idx, p, false) :: _) in Hok2.
  exists p, st1, st2. split; [exact (on_store_eq _ s _ _ Hnew)|].
  split; [exact (on_store_eq _ (with_store st1 s) _ _ Hins)|].
  split; [|split; [exact Hb2|split; [|split; [|split]]]].
  - assert (Hinv1 : fs_inv (with_store st1 s)).
    { apply (fs_inv_store s st1 l); [done|done|done|apply Hinv|done|cbn; lia]. }
    apply (fs_inv_frame _ st2 l2 Hinv1 Hok2); [|done]. intros e He. unfold l2 in He.
    apply elem_of_cons in He as [->|He]; [done|]. rewrite allocated_with_store. apply Hall.
    destruct (_ <? _); [done|]. by apply elem_of_removelast.
  - eexists _, _. split; [exact Hok2|]. by constructor.
  - intros k j q Hr Hk. revert q Hr. by apply (recent_insert s st2 k idx p false j l Hok Hok2).
  - by rewrite (fr_size _ _ Hfr2).
  - intros j Hj. unfold fview. cbn [with_store fs_store]. rewrite Hv2 by done. destruct (j =? idx); [done|].
    by rewrite Hv1.
Qed.

(** Everything that holds after [alloc_block]. *)
Record alloc_post (s s' : FS) (p : positive) (idx : Z) : Prop := {
  ap_fresh : allocated s idx = false;
  ap_used : forall j, allocated s' j = (j =? idx) || allocated s j;
  ap_block : st_mem (fs_store s') !! p = Some (mk_block (fs_off idx) (zeros BLOCK_SIZE));
  ap_wf : fs_wf s';
  ap_zero : free_zero s';
  ap_meta : same_meta s s';
  ap_room : forall k, room s (k + 1) -> room s' k;
  ap_recent : recent s' 1 idx p;
  ap_recents : forall k j q, recent s k j q -> Z.of_nat k < size_ (st_cache (fs_store s)) -> recent s' (S k) j q;
  ap_size : size_ (st_cache (fs_store s')) = size_ (st_cache (fs_store s));
  ap_view : forall j, fs_valid j -> fview s' j = if j =? idx then zeros BLOCK_SIZE else fview s j
}.

Lemma alloc_block_ok s old :
  fs_wf s -> free_zero s -> room s 1 ->
  exists p idx s', alloc_block old s = Ret (Some (p, idx)) s' /\ alloc_post s s' p idx.
Proof.
  intros Hwf Hz (gi0 & g0 & Hg0 & Hroom).
  destruct (count_blocks s (-1) 1 Hwf) as (sb & Hcnt & Hwf1 & Hm1 & _). set (s1 := with_sb sb s) in *.
  destruct (alloc_loop_spec s1 (sorted_keys (fs_groups s1)) Hwf1) as [[_ Hall]|(gi & i & s2 & Hloop & T)].
  { intros gi Hin. by apply elem_of_sorted_keys in Hin. }
  { exfalso. specialize (Hall gi0 g0). rewrite Hall in Hroom; [lia| |exact Hg0].
    apply elem_of_sorted_keys. by exists g0. }
  pose proof (flipped_wf _ _ _ _ Hwf1 T) as Hwf2. set (idx := block_number gi i) in *.
  destruct (flipped_allocated gi i true s1 s2 idx T) as [Hfree _]. change (allocated s idx = false) in Hfree.
  assert (Hal : forall j, allocated s2 j = (j =? idx) || allocated s j).
  { intros j. destruct (flipped_allocated gi i true s1 s2 j T) as [_ ->]. fold idx. by destruct (j =? idx). }
  assert (Hused : allocated s2 idx = true) by (rewrite Hal, Z.eqb_refl; done).
  pose proof (wf_inv _ Hwf2) as Hinv2. pose proof (allocated_valid _ _ Hinv2 Hused) as Hv.
  pose proof (fl_store _ _ _ _ _ T) as Hst. cbn in Hst.
  destruct (cache_fresh s2 idx (mk_block (fs_off idx) (zeros BLOCK_SIZE)) Hinv2 Hused)
    as (p & st1 & st & Hnew & Hins & Hinv3 & Hb & Hrec & Hrecs & Hsz & Hview); [|done|done| |].
  { intros l Hok. rewrite Hst in Hok. destruct (inv_store _ (wf_inv _ Hwf)) as (l0 & Hok0 & Hall0).
    rewrite (store_ok_unique _ _ _ Hok0 Hok) in Hall0.
    destruct (Lru.find idx l) as [e|] eqn:E; [|done]. apply find_key in E as [He Hk].
    apply Hall0 in He. congruence. }
  { rewrite Hst. by apply Hz. }
  assert (Hviews : forall j, fs_valid j -> fview (with_store st s2) j = if j =? idx then zeros BLOCK_SIZE else fview s j).
  { intros j Hj. rewrite Hview by done. destruct (j =? idx); [done|]. unfold fview. by rewrite Hst. }
  exists p, idx, (with_store st s2). split.
  - unfold alloc_block. rewrite <- bind_assoc. mstep Hcnt.
    rewrite (bind_ret _ _ _ (fs_groups s1) s1) by done. fold alloc_body.
    erewrite bind_ret; [|exact Hloop]. cbn beta iota.
    rewrite (bind_ret _ _ _ (Some (gi, mk_block (fs_off idx) (zeros BLOCK_SIZE), i)) s2) by done.
    cbn beta iota. rewrite (bind_ret _ _ _ (fs_super s2) s2) by done. rewrite (inv_bpg _ Hinv2).
    assert (Hidx : u32 (gi * TOTAL_BLOCKS_PER_GROUP + i) = idx).
    { apply u32_small. unfold fs_valid in Hv. change (gi * TOTAL_BLOCKS_PER_GROUP + i) with idx.
      rewrite TBPG_eq in Hv. unfold MAX_GROUPS in Hv. Z.div_mod_to_equations. lia. }
    cbv zeta. rewrite Hidx. mstep Hnew. by mstep Hins.
  - constructor.
    + exact Hfree.
    + exact Hal.
    + exact Hb.
    + by apply fs_wf_store.
    + intros j Hj Haj. rewrite <- (unallocated_view _ _ Hinv3 Haj), Hviews by done.
      rewrite allocated_with_store, Hal in Haj. apply orb_false_iff in Haj as [-> Haj].
      rewrite (unallocated_view _ _ (wf_inv _ Hwf) Haj). by apply Hz.
    + transitivity s1; [done|]. transitivity s2; [apply (fl_meta _ _ _ _ _ T)|apply same_meta_store].
    + intros k Hk. apply (flipped_room gi i s1 s2 k T). exact Hk.
    + exact Hrec.
    + intros k j q Hr Hk. apply Hrecs; [|by rewrite Hst]. destruct Hr as (l & d & Hok & Hin).
      exists l, d. by rewrite Hst.
    + cbn. by rewrite Hsz, Hst.
    + exact Hviews.
Qed.

(** ** free_block *)

(** Everything that holds after [free_block] of a block in use. *)
Record free_post (s s' : FS) (i : Z) : Prop := {
  fp_used : forall j, allocated s' j = negb (j =? i) && allocated s j;
  fp_wf : fs_wf s';
  fp_meta : same_meta s s';
  fp_room : forall k, room s k -> room s' k;
  fp_view : forall j, fs_valid j -> fview s' j = fview s j
}.

Lemma flipped_room_free gi i s s' k : flipped gi i false s s' -> room s k -> room s' k.
Proof.
  intros T (gj & h & Hh & Hk). destruct (fl_group _ _ _ _ _ T) as (g & bb & Hg & Hfree & Hup & Hgs).
  pose proof (fl_range _ _ _ _ _ T) as Hi. unfold room. rewrite Hgs. destruct (decide (gj = gi)) as [->|Hne].
  - exists gi, (with_bbm bb g). split; [apply lookup_insert_eq|]. cbn [with_bbm block_bitmap_].
    rewrite Hh in Hg. injection Hg as <-. rewrite (free_bits_clear _ _ i Hi Hfree Hup). lia.
  - exists gj, h. rewrite lookup_insert_ne by done. split; [done|lia].
Qed.

(** Giving a block back, and dropping it from the cache. *)
Lemma drop_flipped gi i s s' :
  fs_wf s -> flipped gi i false s s' ->
  exists st, on_store (cache_remove (block_number gi i)) s' = Ret tt (with_store st s')
    /\ fs_wf (with_store st s') /\ forall j, fs_valid j -> fview (with_store st s') j = fview s j.
Proof.
  intros Hwf T. pose proof (wf_inv _ Hwf) as Hinv. set (idx := block_number gi i).
  destruct (inv_store _ Hinv) as (l & Hok & Hal). pose proof (fl_store _ _ _ _ _ T) as Hst.
  destruct (cache_remove_ok fs_off fs_valid (fs_store s) l idx fs_offsets_ok Hok)
    as (st & Hrm & Hok' & Hfr & _ & _ & Hv).
  exists st. split; [|split].
  - rewrite <- Hst in Hrm. exact (on_store_eq _ _ _ _ Hrm).
  - constructor; [|apply (fl_len _ _ _ _ _ T)| |apply (fl_counts _ _ _ _ _ T)| |destruct (fl_layout _ _ _ _ _ T); by constructor];
      [|cbn; by rewrite (same_meta_log _ _ (fl_meta _ _ _ _ _ T)), (wf_log _ Hwf)
       |apply (same_meta_tables s); [etransitivity; [apply (fl_meta _ _ _ _ _ T)|apply same_meta_store]|apply (wf_tables _ Hwf)]].
    constructor; cbn [with_store fs_store fs_super fs_groups].
    + rewrite (flipped_bpg _ _ _ _ _ T). apply Hinv.
    + by apply (flipped_groups gi i false s).
    + exists (Lru.drop idx l). split; [done|]. intros e He. apply elem_of_drop in He as [He Hne].
      rewrite allocated_with_store. destruct (flipped_allocated gi i false s s' (Lru.key e) T) as [_ ->].
      fold idx. rewrite (proj2 (Z.eqb_neq _ _) Hne). by apply Hal.
    + rewrite (fr_size _ _ Hfr). apply Hinv.
    + intros p Hp. rewrite (fr_next _ _ Hfr). apply (inv_fresh _ Hinv). by apply (fr_mem _ _ Hfr).
    + pose proof (fr_disk _ _ Hfr). pose proof (inv_disk _ Hinv). lia.
  - intros j Hj. unfold fview. cbn [with_store fs_store]. by apply Hv.
Qed.

(** The steps of [free_block] up to the call of the group. *)
Lemma free_block_start s i g :
  fs_wf s -> fs_groups s !! (i / TOTAL_BLOCKS_PER_GROUP) = Some g ->
  exists sb, fs_wf (with_sb sb s) /\ same_meta s (with_sb sb s)
    /\ sb_get s_free_blocks_count sb = u32 (sb_get s_free_blocks_count (fs_super s) + 1)
    /\ free_block i s
       = (r ← on_group (i / TOTAL_BLOCKS_PER_GROUP) (group_free_block (i mod TOTAL_BLOCKS_PER_GROUP));
          if negb r then mret false
          else
            _ ← on_store (cache_remove i);
            mret true) (with_sb sb s).
Proof.
  intros Hwf Hg. destruct (count_blocks s 1 (-1) Hwf) as (sb & Hcnt & Hwf1 & Hm1 & Hc).
  exists sb. do 3 (split; [assumption|]). unfold free_block. rewrite <- bind_assoc. mstep Hcnt.
  set (s1 := with_sb sb s) in *. rewrite (bind_ret _ _ _ (fs_super s1) s1) by done.
  pose proof (inv_bpg _ (wf_inv _ Hwf1)) as Hbpg. rewrite Hbpg.
  rewrite (bind_ret _ _ _ (i / TOTAL_BLOCKS_PER_GROUP) s1) by done.
  rewrite (bind_ret _ _ _ (i mod TOTAL_BLOCKS_PER_GROUP) s1) by done.
  by mstep (load_group_loaded s1 _ g Hg).
Qed.

Lemma free_block_ok s i :
  fs_wf s -> allocated s i = true -> exists s', free_block i s = Ret true s' /\ free_post s s' i.
Proof.
  intros Hwf Ha. set (gi := i / TOTAL_BLOCKS_PER_GROUP). set (k := i mod TOTAL_BLOCKS_PER_GROUP).
  assert (Hnum : block_number gi k = i) by apply block_number_of.
  unfold allocated in Ha. fold gi k in Ha. destruct (fs_groups s !! gi) as [g|] eqn:Hg; [|done].
  apply andb_true_iff in Ha as [Hlt Hbit]. apply Z.ltb_lt in Hlt.
  assert (Hk : 0 <= k < BLOCKS_PER_GROUP) by (pose proof (Z.mod_pos_bound i TOTAL_BLOCKS_PER_GROUP ltac:(done)); lia).
  destruct (free_block_start s i g Hwf Hg) as (sb & Hwf1 & Hm1 & _ & Heq). fold gi k in Heq.
  set (s1 := with_sb sb s) in *.
  destruct (group_free_block_spec _ k (fs_wf_group_wf s1 gi g Hwf1 Hg) Hk) as (gs & Hr & Hdk & Hcase).
  cbn [gs_disk gs_super gs_group] in *. rewrite Hbit in Hr, Hcase.
  destruct Hcase as ((bb & Hgg & Hup) & _ & Hcnt & Hicnt & Honly).
  destruct (on_group_flips gi k false _ s1 g _ gs bb Hwf1 Hg Hk Hr Hdk Hgg Hbit Hup Hcnt Hicnt Honly) as (s2 & Hog & T).
  destruct (drop_flipped gi k s1 s2 Hwf1 T) as (st & Hrm & Hwf2 & Hv). rewrite Hnum in Hrm.
  exists (with_store st s2). split; [rewrite Heq; mstep Hog; cbn [negb]; by mstep Hrm|]. constructor.
  - intros j. rewrite allocated_with_store. destruct (flipped_allocated gi k false s1 s2 j T) as [_ ->].
    rewrite Hnum. by destruct (j =? i).
  - exact Hwf2.
  - transitivity s1; [done|]. transitivity s2; [apply (fl_meta _ _ _ _ _ T)|apply same_meta_store].
  - intros n Hn. exact (flipped_room_free gi k s1 s2 n T Hn).
  - exact Hv.
Qed.

(** ** Properties *)

(** C21. As long as a loaded group has a free block and free blocks are zero on
    disk, [alloc_block] returns a block that was not in use, with its number;
    it marks this block as used and no other, the block reads as zeros, what
    every other block holds is unchanged, and the descriptors still count the
    free blocks. *)
Theorem alloc_block_fresh s old :
  fs_wf s -> free_zero s -> room s 1 ->
  exists p idx s', alloc_block old s = Ret (Some (p, idx)) s'
    /\ allocated s idx = false /\ (forall j, allocated s' j = (j =? idx) || allocated s j)
    /\ st_mem (fs_store s') !! p = Some (mk_block (fs_off idx) (zeros BLOCK_SIZE))
    /\ fs_wf s' /\ free_zero s'
    /\ forall j, fs_valid j -> fview s' j = if j =? idx then zeros BLOCK_SIZE else fview s j.
Proof.
  intros Hwf Hz Hr. destruct (alloc_block_ok s old Hwf Hz Hr) as (p & idx & s' & H & P).
  exists p, idx, s'. split; [exact H|]. destruct P. auto 10.
Qed.

(** C22. [free_block] of a block in use takes its bit and its cache entry away
    and nothing else: every block, the freed one too, still holds what it
    held (a modified block is written to disk on its way out of the cache),
    and the descriptors still count the free blocks. *)
Theorem free_block_frees s i :
  fs_wf s -> allocated s i = true ->
  exists s', free_block i s = Ret true s' /\ fs_wf s'
    /\ (forall j, allocated s' j = negb (j =? i) && allocated s j)
    /\ (forall j, fs_valid j -> fview s' j = fview s j)
    /\ block_at (st_disk (fs_store s')) (fs_off i) = fview s i.
Proof.
  intros Hwf Ha. destruct (free_block_ok s i Hwf Ha) as (s' & H & [Hu Hwf' _ _ Hv]).
  exists s'. split; [exact H|]. split; [exact Hwf'|]. split; [exact Hu|]. split; [exact Hv|].
  rewrite <- (unallocated_view s' i (wf_inv _ Hwf')); [|by rewrite Hu, Z.eqb_refl].
  apply Hv. exact (allocated_valid s i (wf_inv _ Hwf) Ha).
Qed.

(** Freeing a block that is not in use fails and touches no block and no
    bitmap, but the super block counts one free block more all the same. *)
Theorem free_block_unused s i g :
  fs_wf s -> fs_groups s !! (i / TOTAL_BLOCKS_PER_GROUP) = Some g ->
  i mod TOTAL_BLOCKS_PER_GROUP < BLOCKS_PER_GROUP -> allocated s i = false ->
  exists sb, free_block i s = Ret false (with_sb sb s) /\ fs_wf (with_sb sb s)
    /\ sb_get s_free_blocks_count sb = u32 (sb_get s_free_blocks_count (fs_super s) + 1).
Proof.
  intros Hwf Hg Hlt Ha. unfold allocated in Ha. rewrite Hg, (proj2 (Z.ltb_lt _ _) Hlt) in Ha. cbn [andb] in Ha.
  destruct (free_block_start s i g Hwf Hg) as (sb & Hwf1 & _ & Hc & Heq). set (s1 := with_sb sb s) in *.
  exists sb. split; [|done]. set (k := i mod TOTAL_BLOCKS_PER_GROUP) in *.
  assert (Hk : 0 <= k < BITS) by (pose proof (Z.mod_pos_bound i TOTAL_BLOCKS_PER_GROUP ltac:(done));
    change BITS with BLOCKS_PER_GROUP; lia).
  destruct (group_free_block_spec _ k (fs_wf_group_wf s1 _ g Hwf1 Hg) Hk) as (gs & Hr & Hdk & Hcase).
  cbn [gs_disk gs_super gs_group] in *. rewrite Ha in Hr, Hcase. subst gs.
  rewrite Heq, (bind_ret _ _ _ false s1); [done|]. unfold on_group. change (fs_groups s1) with (fs_groups s).
  rewrite Hg, Hr. cbn. rewrite insert_id by exact Hg. by destruct s as [[] ? ? ? ?].
Qed.

(** ** Instances of the properties *)

(** Two blocks of the sample group are used: bytes 0 and 1 of its bitmap are
    0x03 and 0. *)
Lemma free_bits_sample3 : free_bits (sample_bitmap [Byte.x03]) = BITS - 2.
Proof.
  destruct (bm_set_spec tt 1 (sample_bitmap [Byte.x01])) as (b' & Hb & Hup); [by vm_compute|by vm_compute|].
  assert (Hb' : b' = sample_bitmap [Byte.x03]).
  { assert (E : Ret b' tt = Ret (sample_bitmap [Byte.x03]) tt) by (rewrite <- Hb; vm_compute; reflexivity).
    by injection E. }
  rewrite <- Hb', (free_bits_set (sample_bitmap [Byte.x01]) b' 1); [|by vm_compute|by vm_compute|exact Hup].
  rewrite free_bits_sample. lia.
Qed.

Lemma sample_fs_wf copies : fs_wf (sample_fs copies).
Proof.
  constructor; [apply sample_fs_inv|by vm_compute|by vm_compute| | |constructor; [by vm_compute|by vm_compute|]];
    intros gi g Hg; cbn [sample_fs fs_groups] in Hg; apply lookup_singleton_Some in Hg as [<- <-];
    [|split; apply map_Forall_empty|by vm_compute].
  split; [by vm_compute|]. split; [by vm_compute|].
  cbn [sample_group block_bitmap_]. rewrite free_bits_sample3. by vm_compute.
Qed.

Lemma sample_fs_zero copies : free_zero (sample_fs copies).
Proof. intros i _ _. apply block_at_empty. Qed.

Lemma sample_fs_room copies : room (sample_fs copies) 1000.
Proof.
  exists 0, (sample_group [Byte.x03]). split; [by vm_compute|].
  cbn [sample_group block_bitmap_]. rewrite free_bits_sample3. by vm_compute.
Qed.

Lemma alloc_block_fresh_witness :
  exists p idx s', alloc_block None (sample_fs ∅) = Ret (Some (p, idx)) s'
    /\ allocated (sample_fs ∅) idx = false /\ fs_wf s'.
Proof.
  destruct (alloc_block_fresh (sample_fs ∅) None (sample_fs_wf ∅) (sample_fs_zero ∅))
    as (p & idx & s' & H1 & H2 & _ & _ & H3 & _).
  - destruct (sample_fs_room ∅) as (gi & g & Hg & Hk). exists gi, g. split; [exact Hg|lia].
  - exists p, idx, s'. auto.
Defined.

Lemma free_block_frees_witness :
  exists s', free_block 1 (sample_fs ∅) = Ret true s' /\ fs_wf s'.
Proof.
  destruct (free_block_frees (sample_fs ∅) 1 (sample_fs_wf ∅) ltac:(by vm_compute)) as (s' & H1 & H2 & _).
  exists s'. auto.
Defined.

Lemma free_block_unused_witness :
  exists sb, free_block 7 (sample_fs ∅) = Ret false (with_sb sb (sample_fs ∅))
    /\ sb_get s_free_blocks_count sb = 1.
Proof.
  destruct (free_block_unused (sample_fs ∅) 7 (sample_group [Byte.x03]) (sample_fs_wf ∅)
              ltac:(by vm_compute) ltac:(by vm_compute) ltac:(by vm_compute)) as (sb & H1 & _ & H2).
  exists sb. split; [exact H1|]. rewrite H2. by vm_compute.
Defined.
