(* ===== verification/FileBlocks.v ===== *)
(** * The blocks of a file: cells of inodes and the tree of indirect blocks

    An inode that operations work on is a cell: a slot of a loaded inode
    table, or the copy of an open file.  [blk s ind m] is the block that holds
    file block [m]; [metas] are the indirect blocks and [datas] the data
    blocks of the first [n] file blocks.  [file_ok] says that all of them are
    in use and no two are the same. *)

From S2P Require Import Prelude Layout Disk Bitmap PathName Block BlockGroup BlockCache DentryCache.
From S2P Require Import FileSystem FileStatus OpenFiles FsBlocks FsPointers FsAlloc.

(** ** Cells *)

Definition cell (s : FS) (ip : iptr) (v : ext2_inode) : Prop :=
  inode_wf v = true /\
  match ip with
  | InTable gi i => exists g, fs_groups s !! gi = Some g /\ itab_wf g /\ inode_load i g = Some v
  | InCopy id => fs_copies s !! id = Some v
  end.

(** What a store to a cell leaves alone. *)
Definition group_rest (g : BlockGroup) : Z * Block * Block := (desc_ g, block_bitmap_ g, inode_bitmap_ g).

Record inode_only (s s' : FS) : Prop := {
  io_store : fs_store s' = fs_store s;
  io_super : fs_super s' = fs_super s;
  io_dentry : fs_dentry s' = fs_dentry s;
  io_groups : forall gi, group_rest <$> fs_groups s' !! gi = group_rest <$> fs_groups s !! gi;
  io_tables : tables_ok s -> tables_ok s'
}.

#[export] Instance inode_only_preorder : PreOrder inode_only.
Proof.
  split; [by constructor|]. intros s1 s2 s3 [H1 H2 H3 H4 H5] [K1 K2 K3 K4 K5].
  constructor; [congruence..| |by auto]. intros gi. by rewrite K4, H4.
Qed.

Lemma cell_load s ip v : cell s ip v -> iload ip s = Ret v s.
Proof.
  intros [_ H]. unfold iload. rewrite (bind_ret _ _ _ s s) by done. destruct ip as [gi i|id].
  - destruct H as (g & Hg & _ & Hv). rewrite Hg, (bind_ret _ _ _ g s) by done. by rewrite Hv.
  - by rewrite H.
Qed.

(** A store changes this cell and no other one. *)
Record stored (s s' : FS) (ip : iptr) (w : ext2_inode) : Prop := {
  sd_cell : cell s' ip w;
  sd_only : inode_only s s';
  sd_other : forall ip2 v2, ip2 <> ip -> cell s ip2 v2 -> cell s' ip2 v2
}.

Lemma cell_store s ip v w :
  cell s ip v -> inode_wf w = true -> exists s', istore ip w s = Ret tt s' /\ stored s s' ip w.
Proof.
  intros [Hwf H] Hw. unfold istore. rewrite (bind_ret _ _ _ s s) by done. destruct ip as [gi i|id].
  - destruct H as (g & Hg & Hit & Hv). rewrite Hg, (bind_ret _ _ _ g s) by done.
    destruct (inode_store_loaded i w g) as (g' & Hst & Hd & Hbb & Hib); [by rewrite Hv|].
    rewrite Hst, (bind_ret _ _ _ g' s) by done.
    pose proof (fun j => inode_store_load i j w g g' Hit Hw Hst) as Hsl.
    eexists. split; [reflexivity|]. constructor.
    + destruct (Hsl i) as [Hit' Hl]. rewrite bool_decide_true in Hl by done.
      split; [done|]. exists g'. cbn. by rewrite lookup_insert_eq.
    + constructor; cbn; [done..| |].
      * intros gj. destruct (decide (gj = gi)) as [->|]; [|by rewrite lookup_insert_ne].
        rewrite lookup_insert_eq, Hg. cbn. unfold group_rest. by rewrite Hd, Hbb, Hib.
      * intros Ht gj h Hh. cbn in Hh. destruct (decide (gj = gi)) as [->|].
        -- rewrite lookup_insert_eq in Hh. injection Hh as <-. split; [apply (Hsl i)|].
           apply (inode_store_placed gi i w g); [done|]. by apply (Ht gi).
        -- rewrite lookup_insert_ne in Hh by done. by apply (Ht gj).
    + intros [gj j|id] v2 Hne [Hwf2 H2]; (split; [done|]); [|exact H2].
      destruct H2 as (h & Hh & Hit2 & Hv2). cbn. destruct (decide (gj = gi)) as [->|].
      * rewrite Hg in Hh. injection Hh as <-. exists g'. rewrite lookup_insert_eq. split; [done|].
        destruct (Hsl j) as [Hit' Hl]. rewrite bool_decide_false in Hl by congruence. by rewrite Hl.
      * exists h. by rewrite lookup_insert_ne.
  - rewrite H, (bind_ret _ _ _ v s) by done. eexists. split; [reflexivity|]. constructor; [|by constructor|].
    + split; [done|]. cbn. apply lookup_insert_eq.
    + intros [gj j|id2] v2 Hne [Hwf2 H2]; (split; [done|]); [exact H2|]. cbn.
      rewrite lookup_insert_ne by congruence. exact H2.
Qed.

Lemma cell_update s ip v f :
  cell s ip v -> inode_wf (f v) = true -> exists s', iupdate ip f s = Ret tt s' /\ stored s s' ip (f v).
Proof.
  intros H Hw. unfold iupdate. mstep (cell_load s ip v H). by apply (cell_store s ip v).
Qed.

Lemma cell_meta s s' ip v : same_meta s s' -> cell s ip v -> cell s' ip v.
Proof.
  intros M [Hwf H]. split; [done|]. destruct ip as [gi i|id].
  - destruct H as (g & Hg & Hit & Hv). pose proof (sm_groups _ _ M gi) as E. rewrite Hg in E.
    destruct (fs_groups s' !! gi) as [g'|] eqn:Hg'; [|done]. cbn in E. unfold group_meta in E.
    injection E as _ _ Et. exists g'. unfold itab_wf, inode_load in *. rewrite Et. done.
  - by rewrite (sm_copies _ _ M).
Qed.

(** ** What an update of a cell leaves alone *)

Lemma inode_only_allocated s s' i : inode_only s s' -> allocated s' i = allocated s i.
Proof.
  intros H. unfold allocated. pose proof (io_groups _ _ H (i / TOTAL_BLOCKS_PER_GROUP)) as E.
  destruct (fs_groups s' !! (i / TOTAL_BLOCKS_PER_GROUP)) as [g'|],
    (fs_groups s !! (i / TOTAL_BLOCKS_PER_GROUP)) as [g|]; cbn in E; [|done..].
  unfold group_rest in E. injection E as _ E _. by rewrite E.
Qed.

Lemma inode_only_group s s' gi g' :
  inode_only s s' -> fs_groups s' !! gi = Some g' ->
  exists g, fs_groups s !! gi = Some g /\ group_rest g' = group_rest g.
Proof.
  intros H Hg'. pose proof (io_groups _ _ H gi) as E. rewrite Hg' in E.
  destruct (fs_groups s !! gi) as [g|]; [|done]. exists g. split; [done|]. by apply (inj Some) in E.
Qed.

Lemma inode_only_inv s s' : inode_only s s' -> fs_inv s -> fs_inv s'.
Proof.
  intros H Hinv. constructor; rewrite ?(io_store _ _ H), ?(io_super _ _ H); try apply Hinv.
  - intros gi g' Hg'. destruct (inode_only_group _ _ _ _ H Hg') as (g & Hg & E).
    unfold group_rest in E. injection E as _ -> _. by apply Hinv.
  - destruct (inv_store _ Hinv) as (l & Hok & Hal). exists l. split; [done|].
    intros e He. rewrite (inode_only_allocated s s') by done. by apply Hal.
Qed.

Lemma inode_only_wf s s' : inode_only s s' -> fs_wf s -> fs_wf s'.
Proof.
  intros H Hwf. constructor.
  - apply (inode_only_inv s); [done|apply (wf_inv _ Hwf)].
  - unfold super_len. rewrite (io_super _ _ H). apply (wf_len _ Hwf).
  - rewrite (io_super _ _ H). apply (wf_log _ Hwf).
  - intros gi g' Hg'. destruct (inode_only_group _ _ _ _ H Hg') as (g & Hg & E).
    unfold group_rest in E. injection E as -> -> ->. rewrite (io_super _ _ H). by apply (wf_group _ Hwf).
  - by apply (io_tables _ _ H), (wf_tables _ Hwf).
  - apply (disk_layout_keep s); [apply Hwf|apply Hwf| | |]; rewrite ?(io_super _ _ H); [done|done|].
    intros gi g' Hg'. destruct (inode_only_group _ _ _ _ H Hg') as (g & Hg & E).
    unfold group_rest in E. injection E as _ _ ->. by exists g.
Qed.

Lemma inode_only_view s s' i : inode_only s s' -> fview s' i = fview s i.
Proof. intros H. unfold fview. by rewrite (io_store _ _ H). Qed.

Lemma inode_only_zero s s' : inode_only s s' -> free_zero s -> free_zero s'.
Proof.
  intros H Hz i Hv Ha. rewrite (inode_only_allocated _ _ _ H) in Ha. rewrite (io_store _ _ H). by apply Hz.
Qed.

Lemma inode_only_room s s' k : inode_only s s' -> room s k -> room s' k.
Proof.
  intros H (gi & g & Hg & Hk). pose proof (io_groups _ _ H gi) as E. rewrite Hg in E.
  destruct (fs_groups s' !! gi) as [g'|] eqn:Hg'; [|done]. cbn in E. unfold group_rest in E. injection E as _ E _.
  exists gi, g'. by rewrite E.
Qed.

Lemma inode_only_recent s s' n i p : inode_only s s' -> recent s n i p -> recent s' n i p.
Proof. intros H (l & d & Hok & Hin). exists l, d. by rewrite (io_store _ _ H). Qed.

(** ** The tree of blocks *)

(** Word [off] of block [id]. *)
Definition wd (s : FS) (id off : Z) : Z := ld 4 (4 * off) (fview s id).

Fixpoint chase (s : FS) (id : Z) (offs : list Z) : Z :=
  match offs with
  | [] => id
  | o :: offs' => chase s (wd s id o) offs'
  end.

(** The block of file block [m]. *)
Definition blk (s : FS) (ind : ext2_inode) (m : Z) : Z := chase s (i_block_at (slot m).1 ind) (slot m).2.

(** File blocks without the triple indirect ones: more than 4 GiB. *)
Definition MAX_BLOCKS : Z := 1049612.

Lemma blk_direct s ind m : 0 <= m < 12 -> blk s ind m = i_block_at m ind.
Proof. intros H. unfold blk. rewrite slot_direct by (rewrite IB11; lia). done. Qed.

Lemma blk_single s ind m : 12 <= m < 1036 -> blk s ind m = wd s (i_block_at 12 ind) (m - 12).
Proof.
  intros H. unfold blk. rewrite slot_single by (rewrite IB11, IB12; lia). cbn [fst snd chase].
  f_equal. rewrite IB11. lia.
Qed.

Lemma blk_double s ind m :
  1036 <= m < MAX_BLOCKS ->
  blk s ind m = wd s (wd s (i_block_at 13 ind) ((m - 1036) / 1024)) ((m - 1036) mod 1024).
Proof.
  unfold MAX_BLOCKS. intros H. unfold blk. rewrite slot_double by (rewrite IB12, IB13; lia).
  cbn [fst snd chase]. rewrite IB12, W1. by replace (m - 1035 - 1) with (m - 1036) by lia.
Qed.

(** The indirect blocks of the first [n] file blocks. *)
Definition metas (s : FS) (ind : ext2_inode) (n : Z) : list Z :=
  (if 12 <? n then [i_block_at 12 ind] else [])
  ++ (if 1036 <? n then
        i_block_at 13 ind
        :: map (fun a => wd s (i_block_at 13 ind) (Z.of_nat a)) (seq 0 (Z.to_nat ((n - 13) / 1024)))
      else []).

Definition datas (s : FS) (ind : ext2_inode) (n : Z) : list Z :=
  map (fun m => blk s ind (Z.of_nat m)) (seq 0 (Z.to_nat n)).

Record file_ok (s : FS) (ind : ext2_inode) (n : Z) : Prop := {
  fo_range : 0 <= n <= MAX_BLOCKS;
  fo_nodup : NoDup (metas s ind n ++ datas s ind n);
  fo_used : forall b, b ∈ metas s ind n ++ datas s ind n -> allocated s b = true
}.

Lemma elem_of_datas s ind n b : b ∈ datas s ind n <-> exists m, 0 <= m < n /\ b = blk s ind m.
Proof.
  unfold datas. rewrite list_elem_of_fmap. split.
  - intros (k & -> & Hk). apply elem_of_seq in Hk. exists (Z.of_nat k). split; [lia|done].
  - intros (m & Hm & ->). exists (Z.to_nat m). split; [by rewrite Z2Nat.id by lia|]. apply elem_of_seq. lia.
Qed.

Lemma elem_of_metas s ind n b :
  b ∈ metas s ind n <->
  (12 < n /\ b = i_block_at 12 ind) \/ (1036 < n /\ b = i_block_at 13 ind)
  \/ (1036 < n /\ exists a, 0 <= a < (n - 13) / 1024 /\ b = wd s (i_block_at 13 ind) a).
Proof.
  unfold metas. rewrite elem_of_app.
  assert (H1 : b ∈ (if 12 <? n then [i_block_at 12 ind] else []) <-> 12 < n /\ b = i_block_at 12 ind).
  { destruct (Z.ltb_spec 12 n); [rewrite list_elem_of_singleton|rewrite elem_of_nil]; lia. }
  rewrite H1. destruct (Z.ltb_spec 1036 n) as [Hn|Hn]; [|rewrite elem_of_nil; lia].
  rewrite elem_of_cons, list_elem_of_fmap. split.
  - intros [H|[H|(k & -> & Hk)]]; [by left|right; by left|]. right; right. split; [done|].
    apply elem_of_seq in Hk. exists (Z.of_nat k). split; [lia|done].
  - intros [H|[[_ H]|(_ & a & Ha & ->)]]; [by left|right; by left|]. right; right.
    exists (Z.to_nat a). rewrite Z2Nat.id by lia. split; [done|]. apply elem_of_seq. lia.
Qed.

Lemma datas_used s ind n m : file_ok s ind n -> 0 <= m < n -> allocated s (blk s ind m) = true.
Proof. intros H Hm. apply (fo_used _ _ _ H), elem_of_app. right. apply elem_of_datas. by exists m. Qed.

Lemma metas_used s ind n b : file_ok s ind n -> b ∈ metas s ind n -> allocated s b = true.
Proof. intros H Hb. apply (fo_used _ _ _ H), elem_of_app. by left. Qed.

(** No data block is an indirect block, and no two are the same. *)
Lemma datas_metas s ind n m b : file_ok s ind n -> 0 <= m < n -> b ∈ metas s ind n -> blk s ind m <> b.
Proof.
  intros H Hm Hb E. pose proof (fo_nodup _ _ _ H) as Hnd. apply NoDup_app in Hnd as (_ & Hd & _).
  apply (Hd b Hb). rewrite elem_of_datas. by exists m.
Qed.

Lemma NoDup_map_inj {A B} (f : A -> B) l i j :
  NoDup (map f l) -> (i < length l)%nat -> (j < length l)%nat -> f <$> l !! i = f <$> l !! j -> i = j.
Proof.
  intros Hnd Hi Hj E. destruct (lookup_lt_is_Some_2 l i Hi) as [x Hx]. destruct (lookup_lt_is_Some_2 l j Hj) as [y Hy].
  rewrite Hx, Hy in E. cbn in E. injection E as E.
  apply (NoDup_lookup (map f l) i j (f x) Hnd); rewrite list_lookup_fmap; [by rewrite Hx|by rewrite Hy, E].
Qed.

Lemma blk_inj s ind n m k : file_ok s ind n -> 0 <= m < n -> 0 <= k < n -> blk s ind m = blk s ind k -> m = k.
Proof.
  intros H Hm Hk E. pose proof (fo_nodup _ _ _ H) as Hnd. apply NoDup_app in Hnd as (_ & _ & Hnd).
  enough (Z.to_nat m = Z.to_nat k) by lia. unfold datas in Hnd.
  apply (NoDup_map_inj _ _ _ _ Hnd); rewrite ?length_seq; [lia|lia|].
  rewrite !lookup_seq_lt by lia. cbn. by rewrite !Z2Nat.id by lia; rewrite E.
Qed.

(** ** What the cursors see *)

Lemma fs_word_used s id o : allocated s id = true -> 0 <= o < WORDS -> fs_word s id o = Some (Some (wd s id o)).
Proof.
  intros Ha Ho. unfold fs_word. assert (H : bool_decide (is_Some (fs_groups s !! (id / TOTAL_BLOCKS_PER_GROUP)))
    && (id mod TOTAL_BLOCKS_PER_GROUP <? BLOCKS_PER_GROUP) = true).
  { unfold allocated in Ha. destruct (fs_groups s !! (id / TOTAL_BLOCKS_PER_GROUP)); [|done].
    apply andb_true_iff in Ha as [-> _]. done. }
  rewrite H, (proj2 (Z.leb_le 0 o)), (proj2 (Z.ltb_lt o WORDS)) by lia. cbn [andb]. by rewrite Ha.
Qed.

Lemma file_ok_resolve s ind n m :
  file_ok s ind n -> 0 <= m < n -> resolve fs_word s ind m = Some (Some (blk s ind m)).
Proof.
  intros H Hm. pose proof (fo_range _ _ _ H) as Hn. unfold MAX_BLOCKS in Hn. unfold resolve, blk.
  assert (Hmeta : forall b, b ∈ metas s ind n -> allocated s b = true) by (intros b; by apply metas_used).
  assert (m < 12 \/ 12 <= m < 1036 \/ 1036 <= m) as [Hc|[Hc|Hc]] by lia.
  - by rewrite slot_direct by (rewrite IB11; lia).
  - rewrite slot_single by (rewrite IB11, IB12; lia). cbn [fst snd chase follow].
    rewrite fs_word_used; [done|apply Hmeta, elem_of_metas; left; lia|rewrite IB11, W1; lia].
  - rewrite slot_double by (rewrite IB12, IB13; lia). cbn [fst snd chase follow]. rewrite IB12, W1.
    assert (Ha : 0 <= (m - 1035 - 1) / 1024 < (n - 13) / 1024) by (Z.div_mod_to_equations; lia).
    rewrite fs_word_used; [|apply Hmeta, elem_of_metas; right; left; lia|rewrite W1; Z.div_mod_to_equations; lia].
    rewrite fs_word_used; [done| |rewrite W1; Z.div_mod_to_equations; lia].
    apply Hmeta, elem_of_metas. right; right. split; [lia|]. by exists ((m - 1035 - 1) / 1024).
Qed.

(** ** Growing the tree *)

(** The indirect blocks that file block [n] adds. *)
Definition new_metas (s : FS) (ind : ext2_inode) (n : Z) : list Z :=
  (if n =? 12 then [i_block_at 12 ind] else [])
  ++ (if n =? 1036 then [i_block_at 13 ind] else [])
  ++ (if (1036 <=? n) && ((n - 1036) mod 1024 =? 0)
      then [wd s (i_block_at 13 ind) ((n - 1036) / 1024)] else []).

Lemma metas_step s ind n :
  0 <= n -> metas s ind (n + 1) = metas s ind n ++ new_metas s ind n.
Proof.
  intros H. unfold metas, new_metas.
  assert (n < 12 \/ n = 12 \/ 12 < n < 1036 \/ n = 1036 \/ 1036 < n) as [Hc|[->|[Hc|[->|Hc]]]] by lia.
  - rewrite !(proj2 (Z.ltb_ge _ _)) by lia. rewrite !(proj2 (Z.eqb_neq _ _)) by lia.
    by rewrite (proj2 (Z.leb_gt _ _)) by lia.
  - done.
  - rewrite !(proj2 (Z.ltb_lt 12 _)), !(proj2 (Z.ltb_ge 1036 _)) by lia. rewrite !(proj2 (Z.eqb_neq _ _)) by lia.
    by rewrite (proj2 (Z.leb_gt _ _)) by lia.
  - done.
  - rewrite !(proj2 (Z.ltb_lt _ _)) by lia. rewrite !(proj2 (Z.eqb_neq n _)) by lia.
    rewrite (proj2 (Z.leb_le _ _)) by lia. cbn [app andb]. do 2 f_equal.
    destruct (Z.eqb_spec ((n - 1036) mod 1024) 0) as [E|E].
    + assert (Ha : (n - 13) / 1024 = (n - 1036) / 1024) by (Z.div_mod_to_equations; lia).
      assert (Hb : (n + 1 - 13) / 1024 = (n - 1036) / 1024 + 1) by (Z.div_mod_to_equations; lia).
      rewrite Ha, Hb. replace (Z.to_nat ((n - 1036) / 1024 + 1)) with (S (Z.to_nat ((n - 1036) / 1024)))
        by (Z.div_mod_to_equations; lia).
      rewrite seq_S, map_app. cbn [map plus]. by rewrite Z2Nat.id by (Z.div_mod_to_equations; lia).
    + rewrite app_nil_r. by replace ((n + 1 - 13) / 1024) with ((n - 13) / 1024) by (Z.div_mod_to_equations; lia).
Qed.

Lemma datas_step s ind n : 0 <= n -> datas s ind (n + 1) = datas s ind n ++ [blk s ind n].
Proof.
  intros H. unfold datas. replace (Z.to_nat (n + 1)) with (S (Z.to_nat n)) by lia.
  rewrite seq_S, map_app. cbn [map plus]. by rewrite Z2Nat.id by lia.
Qed.

(** [s'] and [ind'] have the words and entries that the first [n] file
    blocks of [ind] in [s] are found by. *)
Record keeps_tree (s : FS) (ind : ext2_inode) (s' : FS) (ind' : ext2_inode) (n : Z) : Prop := {
  kt_direct : forall k, 0 <= k < 12 -> k < n -> i_block_at k ind' = i_block_at k ind;
  kt_12 : 12 < n -> i_block_at 12 ind' = i_block_at 12 ind;
  kt_13 : 1036 < n -> i_block_at 13 ind' = i_block_at 13 ind;
  kt_single : forall o, 0 <= o < 1024 -> o < n - 12 -> wd s' (i_block_at 12 ind) o = wd s (i_block_at 12 ind) o;
  kt_first : forall a, 1036 < n -> 0 <= a < (n - 13) / 1024 ->
    wd s' (i_block_at 13 ind) a = wd s (i_block_at 13 ind) a;
  kt_second : forall a b, 0 <= a < (n - 13) / 1024 -> 0 <= b < 1024 -> 1036 + 1024 * a + b < n ->
    wd s' (wd s (i_block_at 13 ind) a) b = wd s (wd s (i_block_at 13 ind) a) b
}.

Lemma keeps_metas s ind s' ind' n : keeps_tree s ind s' ind' n -> metas s' ind' n = metas s ind n.
Proof.
  intros K. unfold metas. f_equal.
  - destruct (Z.ltb_spec 12 n); [|done]. by rewrite (kt_12 _ _ _ _ _ K).
  - destruct (Z.ltb_spec 1036 n) as [Hn|]; [|done]. rewrite (kt_13 _ _ _ _ _ K) by done. f_equal.
    apply map_ext_in. intros a Ha. apply in_seq in Ha. apply (kt_first _ _ _ _ _ K); [done|lia].
Qed.

Lemma keeps_blk s ind s' ind' n m :
  keeps_tree s ind s' ind' n -> n <= MAX_BLOCKS -> 0 <= m < n -> blk s' ind' m = blk s ind m.
Proof.
  intros K Hn Hm. assert (m < 12 \/ 12 <= m < 1036 \/ 1036 <= m) as [Hc|[Hc|Hc]] by lia.
  - rewrite !blk_direct by lia. apply (kt_direct _ _ _ _ _ K); lia.
  - rewrite !blk_single by lia. rewrite (kt_12 _ _ _ _ _ K) by lia. apply (kt_single _ _ _ _ _ K); lia.
  - rewrite !blk_double by lia. rewrite (kt_13 _ _ _ _ _ K) by lia.
    rewrite (kt_first _ _ _ _ _ K); [|lia|Z.div_mod_to_equations; lia].
    apply (kt_second _ _ _ _ _ K); Z.div_mod_to_equations; lia.
Qed.

Lemma keeps_datas s ind s' ind' n :
  keeps_tree s ind s' ind' n -> n <= MAX_BLOCKS -> datas s' ind' n = datas s ind n.
Proof.
  intros K Hn. unfold datas. apply map_ext_in. intros m Hm. apply in_seq in Hm.
  apply (keeps_blk _ _ _ _ n); [done|done|lia].
Qed.

(** A state in which the indirect blocks hold what they held. *)
Lemma keeps_views s ind s' n :
  (forall b, b ∈ metas s ind n -> fview s' b = fview s b) -> keeps_tree s ind s' ind n.
Proof.
  intros H. constructor; [done..| | |]; intros; unfold wd; rewrite H; try done; apply elem_of_metas.
  - left. lia.
  - right; left. lia.
  - right; right. split; [Z.div_mod_to_equations; lia|]. by exists a.
Qed.

Lemma keeps_trans s1 ind1 s2 ind2 s3 ind3 n :
  keeps_tree s1 ind1 s2 ind2 n -> keeps_tree s2 ind2 s3 ind3 n -> keeps_tree s1 ind1 s3 ind3 n.
Proof.
  intros A B. constructor.
  - intros k Hk Hn. by rewrite (kt_direct _ _ _ _ _ B), (kt_direct _ _ _ _ _ A).
  - intros Hn. by rewrite (kt_12 _ _ _ _ _ B), (kt_12 _ _ _ _ _ A).
  - intros Hn. by rewrite (kt_13 _ _ _ _ _ B), (kt_13 _ _ _ _ _ A).
  - intros o Ho Hn. rewrite <- (kt_single _ _ _ _ _ A) by done. rewrite <- (kt_12 _ _ _ _ _ A) by lia.
    by apply (kt_single _ _ _ _ _ B).
  - intros a Hn Ha. rewrite <- (kt_first _ _ _ _ _ A) by done. rewrite <- (kt_13 _ _ _ _ _ A) by lia.
    by apply (kt_first _ _ _ _ _ B).
  - intros a b Ha Hb Hn. rewrite <- (kt_second _ _ _ _ _ A) by done.
    rewrite <- !(kt_first _ _ _ _ _ A) by lia. rewrite <- (kt_13 _ _ _ _ _ A) by lia.
    by apply (kt_second _ _ _ _ _ B).
Qed.

(** Only the other fields of the inode differ. *)
Lemma keeps_inode s ind ind' n : i_block ind' = i_block ind -> keeps_tree s ind s ind' n.
Proof. intros E. constructor; intros; unfold i_block_at; by rewrite ?E. Qed.

Lemma file_ok_ext s ind s' n :
  file_ok s ind n -> (forall b, b ∈ metas s ind n -> fview s' b = fview s b) ->
  (forall b, b ∈ metas s ind n ++ datas s ind n -> allocated s b = true -> allocated s' b = true) ->
  file_ok s' ind n.
Proof.
  intros H Hv Ha. pose proof (keeps_views _ _ s' _ Hv) as K. pose proof (fo_range _ _ _ H) as Hn.
  constructor; [done| |]; rewrite (keeps_metas _ _ _ _ _ K), (keeps_datas _ _ _ _ _ K) by apply Hn.
  - apply H.
  - intros b Hb. apply Ha; [done|]. by apply H.
Qed.

(** The first [m] of [n] blocks. *)
Lemma metas_le s ind m n b : m <= n -> b ∈ metas s ind m -> b ∈ metas s ind n.
Proof.
  intros Hm. rewrite !elem_of_metas. assert (Hd : (m - 13) / 1024 <= (n - 13) / 1024) by (apply Z.div_le_mono; lia).
  intros [H|[H|(H & a & Ha & ->)]]; [left; lia|right; left; lia|right; right]. split; [lia|]. exists a. split; [lia|done].
Qed.

Lemma sublist_seq k l : (k <= l)%nat -> sublist (seq 0 k) (seq 0 l).
Proof.
  intros H. replace l with (k + (l - k))%nat by lia. rewrite seq_app. apply sublist_inserts_r. done.
Qed.

Lemma file_ok_le s ind m n : file_ok s ind n -> 0 <= m -> m <= n -> file_ok s ind m.
Proof.
  intros H Hm Hn. pose proof (fo_range _ _ _ H) as Hr. constructor; [lia| |].
  - apply (sublist_NoDup _ _ (fo_nodup _ _ _ H)), sublist_app.
    + unfold metas. assert (Hd : (m - 13) / 1024 <= (n - 13) / 1024) by (apply Z.div_le_mono; lia).
      apply sublist_app; [destruct (Z.ltb_spec 12 m), (Z.ltb_spec 12 n)|destruct (Z.ltb_spec 1036 m), (Z.ltb_spec 1036 n)];
        try lia; try done; try apply sublist_nil_l.
      apply sublist_skip, fmap_sublist, sublist_seq. lia.
    + apply fmap_sublist, sublist_seq. lia.
  - intros b Hb. apply (fo_used _ _ _ H). rewrite !elem_of_app in *. destruct Hb as [Hb|Hb].
    + left. by apply (metas_le s ind m n).
    + right. apply elem_of_datas in Hb as (k & Hk & ->). apply elem_of_datas. exists k. split; [lia|done].
Qed.

Lemma perm_grow {A} (M N D : list A) b : (M ++ N) ++ (D ++ [b]) ≡ₚ (b :: N) ++ (M ++ D).
Proof.
  rewrite (app_assoc _ D), (Permutation_app_comm _ [b]). cbn [app]. apply perm_skip.
  rewrite (Permutation_app_comm M), app_assoc. done.
Qed.

(** A file with one more block. *)
Lemma file_ok_grow s ind s' ind' n :
  file_ok s ind n -> n < MAX_BLOCKS -> keeps_tree s ind s' ind' n ->
  NoDup (blk s' ind' n :: new_metas s' ind' n) ->
  (forall b, b ∈ blk s' ind' n :: new_metas s' ind' n ->
     (b ∉ metas s ind n ++ datas s ind n) /\ allocated s' b = true) ->
  (forall b, b ∈ metas s ind n ++ datas s ind n -> allocated s' b = true) ->
  file_ok s' ind' (n + 1).
Proof.
  intros H Hn K Hnd Hnew Hold. pose proof (fo_range _ _ _ H) as Hr.
  assert (Hp : (metas s' ind' (n + 1) ++ datas s' ind' (n + 1))
    ≡ₚ ((blk s' ind' n :: new_metas s' ind' n) ++ (metas s ind n ++ datas s ind n))).
  { rewrite metas_step, datas_step, (keeps_metas _ _ _ _ _ K), (keeps_datas _ _ _ _ _ K) by lia.
    apply perm_grow. }
  constructor; [lia| |].
  - rewrite Hp. apply NoDup_app. split; [done|]. split; [|apply H]. intros b Hb. by apply Hnew.
  - intros b Hb. rewrite Hp in Hb. apply elem_of_app in Hb as [Hb|Hb]; [by apply Hnew|by apply Hold].
Qed.

(** ** Distinct indirect blocks *)

Lemma metas_nodup s ind n : file_ok s ind n -> NoDup (metas s ind n).
Proof. intros H. pose proof (fo_nodup _ _ _ H) as Hnd. by apply NoDup_app in Hnd as [? _]. Qed.

Section Distinct.
Context (s : FS) (ind : ext2_inode) (n : Z).
Hypothesis Hok : file_ok s ind n.
Hypothesis Hn : 1036 < n.

Let firsts : list Z :=
  map (fun a => wd s (i_block_at 13 ind) (Z.of_nat a)) (seq 0 (Z.to_nat ((n - 13) / 1024))).

Lemma metas_shape : NoDup (i_block_at 12 ind :: i_block_at 13 ind :: firsts).
Proof.
  pose proof (metas_nodup _ _ _ Hok) as H. unfold metas in H. fold firsts in H.
  rewrite !(proj2 (Z.ltb_lt _ _)) in H by lia. exact H.
Qed.

Lemma elem_of_firsts a : 0 <= a < (n - 13) / 1024 -> wd s (i_block_at 13 ind) a ∈ firsts.
Proof.
  intros Ha. apply list_elem_of_fmap. exists (Z.to_nat a). rewrite Z2Nat.id by lia. split; [done|].
  apply elem_of_seq. lia.
Qed.

Lemma ind_ne_dind : i_block_at 12 ind <> i_block_at 13 ind.
Proof. pose proof metas_shape as H. apply NoDup_cons in H as [H _]. intros E. apply H. rewrite E. by constructor. Qed.

Lemma ind_ne_first a : 0 <= a < (n - 13) / 1024 -> wd s (i_block_at 13 ind) a <> i_block_at 12 ind.
Proof.
  intros Ha E. pose proof metas_shape as H. apply NoDup_cons in H as [H _]. apply H. constructor.
  rewrite <- E. by apply elem_of_firsts.
Qed.

Lemma dind_ne_first a : 0 <= a < (n - 13) / 1024 -> wd s (i_block_at 13 ind) a <> i_block_at 13 ind.
Proof.
  intros Ha E. pose proof metas_shape as H. apply NoDup_cons in H as [_ H]. apply NoDup_cons in H as [H _].
  apply H. rewrite <- E at 1. by apply elem_of_firsts.
Qed.

Lemma first_inj a b :
  0 <= a < (n - 13) / 1024 -> 0 <= b < (n - 13) / 1024 ->
  wd s (i_block_at 13 ind) a = wd s (i_block_at 13 ind) b -> a = b.
Proof.
  intros Ha Hb E. pose proof metas_shape as H. do 2 apply NoDup_cons in H as [_ H].
  enough (Z.to_nat a = Z.to_nat b) by lia.
  apply (NoDup_map_inj _ _ _ _ H); rewrite ?length_seq; [lia|lia|].
  rewrite !lookup_seq_lt by lia. cbn. by rewrite !Z2Nat.id by lia; rewrite E.
Qed.
End Distinct.

(** ** One word of an indirect block changes *)

(** Word [o] of block [t] is not one by which the first [n] file blocks are
    found. *)
Record dead (s : FS) (ind : ext2_inode) (n t o : Z) : Prop := {
  dead_single : 12 < n -> t = i_block_at 12 ind -> n - 12 <= o;
  dead_first : 1036 < n -> t = i_block_at 13 ind -> (n - 13) / 1024 <= o;
  dead_second : forall a, 1036 < n -> 0 <= a < (n - 13) / 1024 -> t = wd s (i_block_at 13 ind) a ->
    n <= 1036 + 1024 * a + o
}.

Definition entries_kept (ind ind' : ext2_inode) (n : Z) : Prop :=
  (forall k, 0 <= k < 12 -> k < n -> i_block_at k ind' = i_block_at k ind)
  /\ (12 < n -> i_block_at 12 ind' = i_block_at 12 ind) /\ (1036 < n -> i_block_at 13 ind' = i_block_at 13 ind).

(** Only word [o] of block [t] differs, among the blocks in use. *)
Definition one_word (s s' : FS) (t o : Z) : Prop :=
  forall j k, allocated s j = true -> 0 <= k < WORDS -> j <> t \/ k <> o -> wd s' j k = wd s j k.

Lemma keeps_one_word s ind s' ind' n t o :
  file_ok s ind n -> entries_kept ind ind' n -> one_word s s' t o -> dead s ind n t o ->
  keeps_tree s ind s' ind' n.
Proof.
  intros H (E1 & E2 & E3) W D. assert (Hm : forall b, b ∈ metas s ind n -> allocated s b = true).
  { intros b. by apply metas_used. }
  constructor; [exact E1|exact E2|exact E3| | |].
  - intros k Hk Hlt. apply W; [apply Hm, elem_of_metas; left; lia|rewrite W1; lia|].
    destruct (decide (i_block_at 12 ind = t)) as [<-|]; [|by left]. right.
    pose proof (dead_single _ _ _ _ _ D ltac:(lia) eq_refl). lia.
  - intros a Hn Ha. pose proof (fo_range _ _ _ H) as Hr. unfold MAX_BLOCKS in Hr.
    apply W; [apply Hm, elem_of_metas; right; left; lia|rewrite W1; Z.div_mod_to_equations; lia|].
    destruct (decide (i_block_at 13 ind = t)) as [<-|]; [|by left]. right.
    pose proof (dead_first _ _ _ _ _ D ltac:(lia) eq_refl). lia.
  - intros a b Ha Hb Hlt. assert (Hn : 1036 < n) by lia.
    apply W; [apply Hm, elem_of_metas; right; right; split; [lia|by exists a]|rewrite W1; lia|].
    destruct (decide (wd s (i_block_at 13 ind) a = t)) as [<-|]; [|by left]. right.
    pose proof (dead_second _ _ _ _ _ D a Hn Ha eq_refl). lia.
Qed.

(** The places where the next block number goes. *)
Lemma dead_fresh s ind n t o : file_ok s ind n -> allocated s t = false -> dead s ind n t o.
Proof.
  intros H Ht. assert (Hm : forall b, b ∈ metas s ind n -> t <> b).
  { intros b Hb ->. rewrite (metas_used _ _ _ _ H Hb) in Ht. done. }
  constructor; intros; exfalso; (eapply Hm; [|eassumption]); apply elem_of_metas;
    [left; lia|right; left; lia|right; right; split; [done|by exists a]].
Qed.

Lemma dead_ind s ind n : 12 < n < 1036 -> dead s ind n (i_block_at 12 ind) (n - 12).
Proof. intros Hn. constructor; intros; lia. Qed.

Lemma dead_dind s ind n :
  file_ok s ind n -> 1036 < n -> dead s ind n (i_block_at 13 ind) ((n - 13) / 1024).
Proof.
  intros H Hn. constructor.
  - intros _ E. by destruct (ind_ne_dind s ind n H Hn).
  - lia.
  - intros a _ Ha E. by destruct (dind_ne_first s ind n H Hn a Ha).
Qed.

Lemma dead_second_level s ind n :
  file_ok s ind n -> 1036 < n -> (n - 1036) mod 1024 <> 0 ->
  dead s ind n (wd s (i_block_at 13 ind) ((n - 1036) / 1024)) ((n - 1036) mod 1024).
Proof.
  intros H Hn Hm. assert (Ha0 : 0 <= (n - 1036) / 1024 < (n - 13) / 1024) by (Z.div_mod_to_equations; lia).
  constructor.
  - intros _ E. by destruct (ind_ne_first s ind n H Hn _ Ha0).
  - intros _ E. by destruct (dind_ne_first s ind n H Hn _ Ha0).
  - intros a _ Ha E. apply (first_inj s ind n H Hn) in E as <-; [|done|done]. Z.div_mod_to_equations. lia.
Qed.
