(* ===== verification/FsInodes.v ===== *)
(** * Inodes by number: get_inode and alloc_inode of src/filesystem.cpp

    Inode numbers are resolved through the bitmaps and tables of the block
    groups; a new inode is taken from the first group that counts a free one.
    The count of free inodes in a descriptor need not be exact. *)

From S2P Require Import Prelude Layout Disk Bitmap PathName Block BlockGroup BlockCache DentryCache.
From S2P Require Import FileSystem FileStatus OpenFiles FsBlocks FileData FsPointers FsAlloc FileBlocks.

(** ** Inodes by number *)

Definition ip_of (i : Z) : iptr := InTable (i / INODES_PER_GROUP) (i mod INODES_PER_GROUP).

(** Inode [i] is in use, its part of the inode table has been read and it is
    [v]. *)
Record inode_at (s : FS) (i : Z) (v : ext2_inode) : Prop := {
  ia_range : 0 <= i < 2 ^ 32 - 1;
  ia_ipg : inodes_per_group (fs_super s) = INODES_PER_GROUP;
  ia_used : exists g, fs_groups s !! (i / INODES_PER_GROUP) = Some g /\ bm_wf (inode_bitmap_ g)
    /\ bm_bit (inode_bitmap_ g) (i mod INODES_PER_GROUP) = true;
  ia_cell : cell s (ip_of i) v
}.

Lemma on_group_id {A} gi (m : M GroupSt A) s g a :
  fs_groups s !! gi = Some g ->
  m (mk_gst (st_disk (fs_store s)) (fs_super s) g) = Ret a (mk_gst (st_disk (fs_store s)) (fs_super s) g) ->
  on_group gi m s = Ret a s.
Proof.
  intros Hg Hm. unfold on_group. rewrite Hg, Hm. cbn [gs_disk gs_super gs_group]. rewrite insert_id by done.
  by destruct s as [[] ? ? ? ?].
Qed.

Lemma get_inode_at s i v : inode_at s i v -> get_inode i s = Ret (Some (ip_of i)) s.
Proof.
  intros [Hr Hipg (g & Hg & Hwf & Hbit) [_ (g' & Hg' & _ & Hload)]]. rewrite Hg in Hg'. injection Hg' as <-.
  change INODES_PER_GROUP with 32768 in *.
  assert (Hm : 0 <= i mod 32768 < BITS) by (change BITS with 32768; apply Z.mod_pos_bound; lia).
  unfold get_inode. change (u32 (-1)) with (2 ^ 32 - 1).
  rewrite (proj2 (Z.eqb_neq _ _)) by lia. rewrite (bind_ret _ _ _ (fs_super s) s) by done. rewrite Hipg.
  rewrite (bind_ret _ _ _ (i / 32768) s) by done.
  rewrite (bind_ret _ _ _ tt s).
  2:{ unfold load_group. rewrite (bind_ret _ _ _ (fs_groups s) s) by done. by rewrite Hg. }
  rewrite (bind_ret _ _ _ (i mod 32768) s) by done. rewrite (bind_ret _ _ _ (Some (i mod 32768)) s); [done|].
  apply (on_group_id _ _ _ g); [done|]. unfold group_get_inode.
  rewrite (bind_ret _ _ _ g (mk_gst _ _ g)) by done.
  rewrite (bind_ret _ _ _ _ _ (bm_test_spec _ (i mod 32768) (inode_bitmap_ g) Hwf Hm)).
  rewrite Hbit. cbn [negb]. unfold inode_load in Hload.
  destruct (inode_table_ g !! (i mod 32768 / INODES_PER_BLOCK)); [done|discriminate Hload].
Qed.

Lemma inode_at_inj s i v w : inode_at s i v -> inode_at s i w -> v = w.
Proof.
  intros Hv Hw. pose proof (cell_load _ _ _ (ia_cell _ _ _ Hv)) as E. rewrite (cell_load _ _ _ (ia_cell _ _ _ Hw)) in E.
  by injection E.
Qed.

(** ** Taking an inode *)

(** Some group has a free inode and knows it. *)
Definition inode_room (s : FS) : Prop :=
  exists gi g, fs_groups s !! gi = Some g /\ free_bits (inode_bitmap_ g) <> 0
    /\ desc_get (desc_off gi) bg_free_inodes_count (fs_super s) <> 0.

(** Some group has [k] free inodes and knows it. *)
Definition inodes_left (s : FS) (k : Z) : Prop :=
  exists gi g, fs_groups s !! gi = Some g /\ 0 <= gi /\ k <= free_bits (inode_bitmap_ g) /\ k <= icount gi (fs_super s).

Lemma inodes_left_room s k : inodes_left s k -> 0 < k -> inode_room s.
Proof. intros (gi & g & Hg & _ & Hf & Hc) Hk. exists gi, g. unfold icount in Hc. split; [done|]. split; lia. Qed.

Lemma inodes_left_le s j k : inodes_left s k -> j <= k -> inodes_left s j.
Proof. intros (gi & g & Hg & H0 & Hf & Hc) Hj. exists gi, g. do 2 (split; [done|]). lia. Qed.

Lemma inodes_left_keep s s' k :
  (forall gi, 0 <= gi -> icount gi (fs_super s') = icount gi (fs_super s)) ->
  (forall gi, inode_bitmap_ <$> fs_groups s' !! gi = inode_bitmap_ <$> fs_groups s !! gi) ->
  inodes_left s k -> inodes_left s' k.
Proof.
  intros Hc Hb (gi & g & Hg & H0 & Hf & Hi). specialize (Hb gi). rewrite Hg in Hb.
  destruct (fs_groups s' !! gi) as [g'|] eqn:Hg'; [|done]. injection Hb as E. exists gi, g'. by rewrite E, Hc.
Qed.

Lemma same_meta_left s s' k : same_meta s s' -> inodes_left s k -> inodes_left s' k.
Proof.
  intros M. apply inodes_left_keep; [apply M|]. intros gi. pose proof (sm_groups _ _ M gi) as E.
  destruct (fs_groups s' !! gi), (fs_groups s !! gi); try done. cbn in *. unfold group_meta in E. congruence.
Qed.

Lemma inode_only_left s s' k : inode_only s s' -> inodes_left s k -> inodes_left s' k.
Proof.
  intros O. apply inodes_left_keep; [by rewrite (io_super _ _ O)|]. intros gi. pose proof (io_groups _ _ O gi) as E.
  destruct (fs_groups s' !! gi), (fs_groups s !! gi); try done. cbn in *. unfold group_rest in E. congruence.
Qed.

Lemma tables_readable s gi g i :
  fs_inv s -> fs_groups s !! gi = Some g -> 0 <= i < BITS ->
  table_readable (mk_gst (st_disk (fs_store s)) (fs_super s) g) i.
Proof.
  intros Hinv Hg Hi. destruct (inv_groups _ Hinv _ _ Hg) as (Hgi & _ & Hoff). destruct (inv_store _ Hinv) as (l & Hok & _).
  pose proof (inv_disk _ Hinv) as Hd. unfold table_readable, inode_block_offset, aligned. cbn [gs_group gs_disk].
  rewrite Hoff. unfold bitmap_off. change INODES_PER_BLOCK with 32. change BITS with 32768 in Hi.
  change MAX_BLOCK_GROUP_SIZE with 138420224 in *. change BLOCK_SIZE with 4096. unfold DISK_ALIGN.
  assert (H32 : 0 <= i / 32 < 1024) by (Z.div_mod_to_equations; lia). rewrite u32_small by lia.
  split; [apply (ok_disk _ _ _ _ Hok)|]. split; [apply Z.eqb_eq; Z.div_mod_to_equations; lia|]. lia.
Qed.

(** From [s] to [s'] inode [i] of group [gi] was taken, with contents [v]. *)
Record itaken (gi i : Z) (v : ext2_inode) (s s' : FS) : Prop := {
  it_store : fs_store s' = fs_store s;
  it_dentry : fs_dentry s' = fs_dentry s;
  it_copies : fs_copies s' = fs_copies s;
  it_super : sb_fixed (fs_super s') = sb_fixed (fs_super s);
  it_len : super_len s';
  it_group : exists g g', fs_groups s !! gi = Some g /\ fs_groups s' = <[gi := g']> (fs_groups s)
    /\ 0 <= i < BITS /\ bm_bit (inode_bitmap_ g) i = false /\ bm_update (inode_bitmap_ g) (inode_bitmap_ g') i true
    /\ desc_ g' = desc_ g /\ block_bitmap_ g' = block_bitmap_ g
    /\ itab_wf g' /\ inode_load i g' = Some v
    /\ (forall j, j <> i -> is_Some (inode_load j g) -> inode_load j g' = inode_load j g)
    /\ table_placed gi g';
  it_counts : forall gj h, fs_groups s' !! gj = Some h ->
    desc_get (desc_off gj) bg_free_blocks_count (fs_super s') = free_bits (block_bitmap_ h);
  it_layout : disk_layout s';
  it_icount : forall gj, 0 <= gj -> icount gj (fs_super s')
    = if gj =? gi then u16 (icount gi (fs_super s) - 1) else icount gj (fs_super s)
}.

(** The body of the loop over the groups, up to [inode_init]. *)
Lemma group_takes s gi g mode :
  fs_wf s -> fs_groups s !! gi = Some g ->
  (on_group gi (group_alloc_inode mode) s = Ret None s /\ free_bits (inode_bitmap_ g) = 0)
  \/ exists i s', on_group gi (group_alloc_inode mode) s = Ret (Some i) s' /\ itaken gi i (inode_fresh mode) s s'.
Proof.
  intros Hwf Hg. pose proof (wf_inv _ Hwf) as Hinv. destruct (wf_group _ Hwf _ _ Hg) as (Hd & Hib & Hacc).
  destruct (inv_groups _ Hinv _ _ Hg) as (Hgi & _ & Hoff).
  destruct (group_alloc_inode_spec (mk_gst (st_disk (fs_store s)) (fs_super s) g) mode) as (r & gs & Hr & Hdk & Hcase);
    [by apply fs_wf_group_wf with gi|by apply (wf_tables _ Hwf gi)|intros i Hi; by apply (tables_readable s gi)|].
  cbn [gs_disk gs_super gs_group] in *. destruct r as [i|].
  2:{ left. destruct Hcase as [Hz ->]. split; [|done]. by apply (on_group_id _ _ _ g). }
  destruct Hcase as (Hi & Hfree & _ & Hup & Hd' & Hbb & Hit & Hld & Hoth & Hfrom & _ & Hicnt & Hcnt & Honly & _).
  right. exists i. unfold on_group. rewrite Hg, Hr. eexists. split; [reflexivity|]. rewrite Hd in *.
  assert (Hp : sizeof_ext2_super_block <= desc_off gi) by (unfold desc_off, sizeof_ext2_group_desc; lia).
  constructor; cbn [fs_store fs_groups fs_super fs_dentry fs_copies].
  - rewrite Hdk. by destruct (fs_store s).
  - done.
  - done.
  - unfold sb_fixed. by rewrite !(desc_only_super _ _ _ _ Honly Hp) by (vm_compute; congruence).
  - unfold super_len; cbn. destruct Honly as [-> _]. apply (wf_len _ Hwf).
  - exists g, (gs_group gs). rewrite Hd, Hd'. do 10 (split; [done|]).
    apply (table_from_placed gi g); [done|done|]. by apply (wf_tables _ Hwf gi).
  - intros gj h Hh. destruct (decide (gj = gi)) as [->|Hne].
    + rewrite lookup_insert_eq in Hh. injection Hh as <-. by rewrite Hcnt, Hbb.
    + rewrite lookup_insert_ne in Hh by done. destruct (wf_group _ Hwf _ _ Hh) as (_ & _ & Hah).
      destruct (inv_groups _ Hinv _ _ Hh) as (Hgj & _ & _).
      rewrite (desc_only_other gi gj _ _ _ Honly); [done|congruence|lia|by vm_compute|by vm_compute].
  - apply (disk_layout_keep s); [apply Hwf|apply Hwf| | |]; cbn [fs_super fs_groups].
    + unfold sb_layout. rewrite (desc_only_super _ _ _ _ Honly Hp) by (vm_compute; congruence).
      by destruct Honly as (_ & -> & _).
    + intros p f H1 H2 H3. by apply (desc_only_offsets gi p _ _ f Honly).
    + intros gj h Hh. destruct (decide (gj = gi)) as [->|Hne].
      * rewrite lookup_insert_eq in Hh. injection Hh as <-. exists g. split; [done|apply Hup].
      * rewrite lookup_insert_ne in Hh by done. by exists h.
  - intros gj Hgj. unfold icount. destruct (Z.eqb_spec gj gi) as [->|Hne]; [done|].
    apply (desc_only_other gi gj _ _ _ Honly); [congruence|lia|by vm_compute|by vm_compute].
Qed.

Section Taken.
Context (gi i : Z) (v : ext2_inode) (s s' : FS) (Hwf : fs_wf s) (T : itaken gi i v s s').

Lemma itaken_groups gj h' :
  fs_groups s' !! gj = Some h' -> exists h, fs_groups s !! gj = Some h /\ desc_ h' = desc_ h
    /\ block_bitmap_ h' = block_bitmap_ h /\ bm_wf (inode_bitmap_ h')
    /\ (itab_wf h /\ table_placed gj h -> itab_wf h' /\ table_placed gj h').
Proof.
  destruct (it_group _ _ _ _ _ T) as (g & g' & Hg & Hgs & _ & _ & Hup & Hd & Hbb & Hit & _ & _ & Hpl). rewrite Hgs.
  destruct (decide (gj = gi)) as [->|Hne].
  - rewrite lookup_insert_eq. intros [= <-]. exists g. do 3 (split; [done|]). split; [apply Hup|done].
  - rewrite lookup_insert_ne by done. intros H. exists h'. do 3 (split; [done|]). split; [apply (wf_group _ Hwf _ _ H)|done].
Qed.

Lemma itaken_allocated k : allocated s' k = allocated s k.
Proof.
  destruct (it_group _ _ _ _ _ T) as (g & g' & Hg & Hgs & _ & _ & _ & _ & Hbb & _). unfold allocated. rewrite Hgs.
  destruct (decide (k / TOTAL_BLOCKS_PER_GROUP = gi)) as [->|Hne]; [by rewrite lookup_insert_eq, Hg, Hbb|by rewrite lookup_insert_ne].
Qed.

Lemma itaken_fview k : fview s' k = fview s k.
Proof. unfold fview. by rewrite (it_store _ _ _ _ _ T). Qed.

Lemma itaken_wf : fs_wf s'.
Proof.
  pose proof (wf_inv _ Hwf) as Hinv. pose proof (it_super _ _ _ _ _ T) as Hsb. unfold sb_fixed in Hsb. injection Hsb as Hlog Hbpg _.
  constructor; [|apply (it_len _ _ _ _ _ T)|by rewrite Hlog, (wf_log _ Hwf)| | |apply (it_layout _ _ _ _ _ T)].
  - constructor; rewrite ?(it_store _ _ _ _ _ T); try apply Hinv.
    + unfold blocks_per_group in *. rewrite Hbpg. apply (inv_bpg _ Hinv).
    + intros gj h' Hh'. destruct (itaken_groups gj h' Hh') as (h & Hh & _ & -> & _). by apply (inv_groups _ Hinv).
    + destruct (inv_store _ Hinv) as (l & Hok & Hal). exists l. split; [done|]. intros e He. rewrite itaken_allocated. auto.
  - intros gj h' Hh'. destruct (itaken_groups gj h' Hh') as (h & Hh & Hd & _ & Hib & _).
    split; [rewrite Hd; apply (wf_group _ Hwf _ _ Hh)|]. split; [done|by apply (it_counts _ _ _ _ _ T)].
  - intros gj h' Hh'. destruct (itaken_groups gj h' Hh') as (h & Hh & _ & _ & _ & Hit). by apply Hit, (wf_tables _ Hwf gj).
Qed.

Lemma itaken_zero : free_zero s -> free_zero s'.
Proof. intros Hz k Hk Ha. rewrite itaken_allocated in Ha. rewrite (it_store _ _ _ _ _ T). by apply Hz. Qed.

Lemma itaken_room k : room s k -> room s' k.
Proof.
  intros (gj & h & Hh & Hk). destruct (it_group _ _ _ _ _ T) as (g & g' & Hg & Hgs & _ & _ & _ & _ & Hbb & _). unfold room. rewrite Hgs.
  destruct (decide (gj = gi)) as [->|Hne].
  - exists gi, g'. rewrite lookup_insert_eq, Hbb. split; [done|]. rewrite Hh in Hg. by injection Hg as <-.
  - exists gj, h. by rewrite lookup_insert_ne.
Qed.

Lemma itaken_left k : 0 <= k -> inodes_left s (k + 1) -> inodes_left s' k.
Proof.
  intros Hk (gj & h & Hh & H0 & Hf & Hc). destruct (it_group _ _ _ _ _ T) as (g & g' & Hg & Hgs & Hi & Hfree & Hup & _).
  unfold inodes_left. rewrite Hgs. pose proof (it_icount _ _ _ _ _ T gj H0) as Hn. destruct (Z.eqb_spec gj gi) as [->|Hne].
  - rewrite Hh in Hg. injection Hg as <-. exists gi, g'. rewrite lookup_insert_eq, (free_bits_set _ _ i Hi Hfree Hup), Hn.
    do 2 (split; [done|]). split; [lia|]. rewrite u16_small; [lia|]. unfold icount in *.
    pose proof (getf_range (desc_off gi) bg_free_inodes_count (data_ (sb_block (fs_super s)))) as Hr.
    change (2 ^ (8 * Z.of_nat (f_width bg_free_inodes_count))) with 65536 in Hr. unfold desc_get in *. lia.
  - exists gj, h. rewrite lookup_insert_ne by done. rewrite Hn. do 2 (split; [done|]). lia.
Qed.

Lemma itaken_cell : inode_wf v = true -> cell s' (InTable gi i) v.
Proof.
  intros Hv. destruct (it_group _ _ _ _ _ T) as (g & g' & _ & Hgs & _ & _ & _ & _ & _ & Hit & Hld & _).
  split; [done|]. exists g'. by rewrite Hgs, lookup_insert_eq.
Qed.

Lemma itaken_cells ip w : ip <> InTable gi i -> cell s ip w -> cell s' ip w.
Proof.
  intros Hne [Hw Hc]. split; [done|]. destruct (it_group _ _ _ _ _ T) as (g & g' & Hg & Hgs & _ & _ & _ & _ & _ & Hit & _ & Hoth & _).
  destruct ip as [gj j|id]; [|by rewrite (it_copies _ _ _ _ _ T)].
  destruct Hc as (h & Hh & Hith & Hj). rewrite Hgs. destruct (decide (gj = gi)) as [->|].
  - rewrite Hg in Hh. injection Hh as <-. exists g'. rewrite lookup_insert_eq. split; [done|]. split; [done|].
    rewrite Hoth; [done|congruence|by eexists].
  - exists h. by rewrite lookup_insert_ne.
Qed.
End Taken.

(** ** alloc_inode *)

Lemma ip_of_number gi i : 0 <= i < INODES_PER_GROUP ->
  ip_of (gi * INODES_PER_GROUP + i) = InTable gi i.
Proof.
  unfold ip_of. change INODES_PER_GROUP with 32768. intros H. f_equal; Z.div_mod_to_equations; lia.
Qed.

Lemma ip_of_inj i j : ip_of i = ip_of j -> i = j.
Proof. unfold ip_of. change INODES_PER_GROUP with 32768. intros [= H1 H2]. Z.div_mod_to_equations. lia. Qed.

(** The bits of the inode bitmaps. *)
Definition inode_bit (s : FS) (i : Z) : bool :=
  match fs_groups s !! (i / INODES_PER_GROUP) with
  | Some g => bm_bit (inode_bitmap_ g) (i mod INODES_PER_GROUP)
  | None => false
  end.

(** Everything that holds after [alloc_inode]: inode [j] is new, with contents
    [v]; blocks, other inodes and the caches are as they were. *)
Record imade (s s' : FS) (j : Z) (v : ext2_inode) : Prop := {
  im_at : inode_at s' j v;
  im_new : forall w, ~ inode_at s j w;
  im_keep : forall i w, inode_at s i w -> inode_at s' i w;
  im_cells : forall ip w, ip <> ip_of j -> cell s ip w -> cell s' ip w;
  im_store : fs_store s' = fs_store s;
  im_used : forall k, allocated s' k = allocated s k;
  im_wf : fs_wf s';
  im_zero : free_zero s -> free_zero s';
  im_room : forall k, room s k -> room s' k;
  im_left : forall k, 0 <= k -> inodes_left s (k + 1) -> inodes_left s' k;
  im_dentry : fs_dentry s' = fs_dentry s;
  im_bits : forall k, inode_bit s' k = (k =? j) || inode_bit s k;
  im_super : sb_fixed (fs_super s') = sb_fixed (fs_super s)
}.

Lemma same_meta_bit s s' i : same_meta s s' -> inode_bit s' i = inode_bit s i.
Proof.
  intros H. unfold inode_bit. pose proof (sm_groups _ _ H (i / INODES_PER_GROUP)) as E.
  destruct (fs_groups s' !! (i / INODES_PER_GROUP)) as [g'|], (fs_groups s !! (i / INODES_PER_GROUP)) as [g|]; try done.
  cbn in E. unfold group_meta in E. injection E as _ E _. by rewrite E.
Qed.

Lemma inode_only_bit s s' i : inode_only s s' -> inode_bit s' i = inode_bit s i.
Proof.
  intros H. unfold inode_bit. pose proof (io_groups _ _ H (i / INODES_PER_GROUP)) as E.
  destruct (fs_groups s' !! (i / INODES_PER_GROUP)) as [g'|], (fs_groups s !! (i / INODES_PER_GROUP)) as [g|]; try done.
  cbn in E. unfold group_rest in E. injection E as _ _ E. by rewrite E.
Qed.

Lemma inode_at_bit s i v : inode_at s i v -> inode_bit s i = true.
Proof. intros [_ _ (g & Hg & _ & Hb) _]. unfold inode_bit. by rewrite Hg. Qed.

(** [inode_at] in terms of the bits. *)
Lemma inode_at_intro s i v :
  fs_wf s -> inodes_per_group (fs_super s) = INODES_PER_GROUP -> 0 <= i < 2 ^ 32 - 1 -> inode_bit s i = true ->
  cell s (ip_of i) v -> inode_at s i v.
Proof.
  intros Hwf Hipg Hi Hb Hc. unfold inode_bit in Hb.
  destruct (fs_groups s !! (i / INODES_PER_GROUP)) as [g|] eqn:Hg; [|done].
  constructor; [done|done| |done]. exists g. split; [done|]. split; [apply (wf_group _ Hwf _ _ Hg)|done].
Qed.

Lemma itaken_bit gi i v s s' j :
  itaken gi i v s s' -> inode_bit s' j = (j =? gi * INODES_PER_GROUP + i) || inode_bit s j.
Proof.
  intros T. destruct (it_group _ _ _ _ _ T) as (g & g' & Hg & Hgs & Hi & Hfree & (_ & _ & Hset & Hsame) & _).
  change BITS with 32768 in Hi. unfold inode_bit. rewrite Hgs. change INODES_PER_GROUP with 32768.
  pose proof (Z.mod_pos_bound j 32768 ltac:(lia)) as Hj. destruct (decide (j / 32768 = gi)) as [E|E].
  - rewrite E, lookup_insert_eq, Hg. destruct (Z.eqb_spec j (gi * 32768 + i)) as [->|Hne].
    + replace ((gi * 32768 + i) mod 32768) with i by (Z.div_mod_to_equations; lia). by rewrite Hset.
    + apply Hsame; [lia|]. intros Hm. apply Hne. Z.div_mod_to_equations. lia.
  - rewrite lookup_insert_ne by done. destruct (Z.eqb_spec j (gi * 32768 + i)) as [->|]; [|done].
    exfalso. apply E. Z.div_mod_to_equations. lia.
Qed.

Section Create.
Context {clock : Clock}.

Definition new_inode (mode : Z) : ext2_inode := inode_init (inode_fresh mode).

Lemma inode_wf_init v : inode_wf v = true -> inode_wf (inode_init v) = true.
Proof. intros H. unfold inode_init. cbv zeta. auto 20 with wf. Qed.

(** The body of the loop over the groups. *)
Definition take_body (mode : Z) (gi : Z) (_ : unit) : M FS (Z * Z + unit) :=
  n ← group_desc_get gi bg_free_inodes_count;
  if n =? 0 then mret (inr tt)
  else
    r ← on_group gi (group_alloc_inode mode);
    match r with
    | None => mret (inr tt)
    | Some i =>
        _ ← iupdate (InTable gi i) inode_init;
        mret (inl (gi, i))
    end.

Definition taken_in (gi i mode : Z) (s s' : FS) : Prop :=
  exists s1, itaken gi i (inode_fresh mode) s s1 /\ stored s1 s' (InTable gi i) (new_inode mode).

Lemma take_body_spec s gi g mode :
  fs_wf s -> fs_groups s !! gi = Some g ->
  (take_body mode gi tt s = Ret (inr tt) s
   /\ (free_bits (inode_bitmap_ g) = 0 \/ desc_get (desc_off gi) bg_free_inodes_count (fs_super s) = 0))
  \/ exists i s', take_body mode gi tt s = Ret (inl (gi, i)) s' /\ taken_in gi i mode s s'.
Proof.
  intros Hwf Hg. destruct (wf_group _ Hwf _ _ Hg) as (Hd & _ & _). unfold take_body, group_desc_get.
  rewrite bind_assoc, (bind_ret _ _ _ s s) by done. rewrite bind_assoc, Hg, (bind_ret _ _ _ g s) by done.
  rewrite (bind_ret _ _ _ (desc_get (desc_ g) bg_free_inodes_count (fs_super s)) s) by done. rewrite Hd.
  destruct (Z.eqb_spec (desc_get (desc_off gi) bg_free_inodes_count (fs_super s)) 0) as [Hz|Hz]; [by left; auto|].
  destruct (group_takes s gi g mode Hwf Hg) as [[H Hf]|(i & s1 & H & T)]; [left; split; [by mstep H|auto]|right].
  destruct (cell_update s1 (InTable gi i) (inode_fresh mode) inode_init) as (s2 & H2 & S2).
  { apply (itaken_cell _ _ _ _ _ T), inode_fresh_wf. }
  { apply inode_wf_init, inode_fresh_wf. }
  exists i, s2. split; [mstep H; by mstep H2|]. by exists s1.
Qed.

Lemma take_loop_spec s mode keys :
  fs_wf s -> (forall gi, gi ∈ keys -> is_Some (fs_groups s !! gi)) ->
  (exists gi g, gi ∈ keys /\ fs_groups s !! gi = Some g /\ free_bits (inode_bitmap_ g) <> 0
     /\ desc_get (desc_off gi) bg_free_inodes_count (fs_super s) <> 0) ->
  exists gi i s', for_list keys (take_body mode) tt s = Ret (inl (gi, i)) s' /\ taken_in gi i mode s s'.
Proof.
  intros Hwf. induction keys as [|k keys IH]; intros Hk (gi & g & Hin & Hg & Hf & Hc); [by apply elem_of_nil in Hin|].
  destruct (Hk k) as [gk Hgk]; [by constructor|]. cbn [for_list].
  destruct (take_body_spec s k gk mode Hwf Hgk) as [[H Hno]|(i & s' & H & T)].
  - mstep H. apply IH; [intros; apply Hk; by constructor|]. exists gi, g. split; [|done].
    apply elem_of_cons in Hin as [->|Hin]; [|done]. rewrite Hg in Hgk. injection Hgk as <-. by destruct Hno.
  - exists k, i, s'. split; [by mstep H|done].
Qed.

Lemma taken_made gi i mode s s' :
  fs_wf s -> inodes_per_group (fs_super s) = INODES_PER_GROUP -> taken_in gi i mode s s' ->
  imade s s' (gi * INODES_PER_GROUP + i) (new_inode mode).
Proof.
  intros Hwf Hipg (s1 & T & [Sc So Sk]). pose proof (itaken_wf _ _ _ _ _ Hwf T) as Hwf1.
  pose proof (inode_only_wf _ _ So Hwf1) as Hwf2. destruct (it_group _ _ _ _ _ T) as (g & g' & Hg & _ & Hi & Hfree & _).
  destruct (inv_groups _ (wf_inv _ Hwf) _ _ Hg) as (Hgi & _ & _). change BITS with INODES_PER_GROUP in Hi.
  set (j := gi * INODES_PER_GROUP + i). assert (Hip : ip_of j = InTable gi i) by by apply ip_of_number.
  assert (Hbit : forall k, inode_bit s' k = (k =? j) || inode_bit s k).
  { intros k. rewrite (inode_only_bit s1) by done. by apply (itaken_bit gi i (inode_fresh mode)). }
  assert (Hj : inode_bit s j = false).
  { unfold inode_bit. change (InTable (j / INODES_PER_GROUP) (j mod INODES_PER_GROUP) = InTable gi i) in Hip.
    injection Hip as -> ->. by rewrite Hg. }
  assert (Hipg' : inodes_per_group (fs_super s') = INODES_PER_GROUP).
  { rewrite (io_super _ _ So). pose proof (it_super _ _ _ _ _ T) as E. unfold sb_fixed in E. injection E as _ _ E.
    unfold inodes_per_group in *. congruence. }
  assert (Hcells : forall ip w, ip <> ip_of j -> cell s ip w -> cell s' ip w).
  { intros ip w Hne Hc. rewrite Hip in Hne. apply Sk; [done|]. by apply (itaken_cells gi i (inode_fresh mode) s). }
  constructor.
  - apply inode_at_intro; [done|done| |by rewrite Hbit, Z.eqb_refl|by rewrite Hip].
    unfold j. unfold MAX_GROUPS in Hgi. change INODES_PER_GROUP with 32768 in *. change (2 ^ 32 - 1) with 4294967295. lia.
  - intros w Hw. apply inode_at_bit in Hw. congruence.
  - intros k w Hw. pose proof (inode_at_bit _ _ _ Hw) as Hb. apply inode_at_intro; [done|done|apply Hw|by rewrite Hbit, Hb, orb_true_r|].
    apply Hcells; [|apply Hw]. intros E. apply ip_of_inj in E. congruence.
  - exact Hcells.
  - by rewrite (io_store _ _ So), (it_store _ _ _ _ _ T).
  - intros k. rewrite (inode_only_allocated s1 s') by done. by apply (itaken_allocated gi i (inode_fresh mode)).
  - done.
  - intros Hz. apply (inode_only_zero s1); [done|]. by apply (itaken_zero gi i (inode_fresh mode) s).
  - intros k Hk. apply (inode_only_room s1); [done|]. by apply (itaken_room gi i (inode_fresh mode) s).
  - intros k Hk Hl. apply (inode_only_left s1); [done|]. by apply (itaken_left gi i (inode_fresh mode) s).
  - by rewrite (io_dentry _ _ So), (it_dentry _ _ _ _ _ T).
  - done.
  - by rewrite (io_super _ _ So), (it_super _ _ _ _ _ T).
Qed.

(** The counters of the super block do not matter. *)
Lemma with_sb_at s sb i v :
  sb_fixed sb = sb_fixed (fs_super s) -> inode_at (with_sb sb s) i v <-> inode_at s i v.
Proof.
  intros E. assert (Hipg : inodes_per_group sb = inodes_per_group (fs_super s)) by (unfold sb_fixed in E; by injection E).
  split; intros [H1 H2 H3 H4]; (constructor; [done| |done|done]); cbn in *; congruence.
Qed.

Lemma made_with_sb s sb s' j v :
  sb_fixed sb = sb_fixed (fs_super s) -> (forall gi, 0 <= gi -> icount gi sb = icount gi (fs_super s)) -> imade (with_sb sb s) s' j v -> imade s s' j v.
Proof.
  intros E Ei [H1 H2 H3 H4 H5 H6 H7 H8 H9 H10 H11 H12 H13]. constructor; try done.
  - intros w Hw. apply (H2 w). by apply with_sb_at.
  - intros i w Hw. apply H3. by apply with_sb_at.
  - intros k Hk Hl. apply H10; [done|]. by apply (inodes_left_keep s).
  - by rewrite H13.
Qed.

(** The two counters that [alloc_inode] updates. *)
Lemma count_inodes s a b :
  fs_wf s ->
  exists sb, (_ ← super_add s_free_inodes_count a; super_add s_inodes_count b) s = Ret tt (with_sb sb s)
    /\ fs_wf (with_sb sb s) /\ sb_fixed sb = sb_fixed (fs_super s)
    /\ (forall p f', sizeof_ext2_super_block <= p -> 0 <= f_off f' -> desc_get p f' sb = desc_get p f' (fs_super s)).
Proof.
  intros Hwf. destruct (super_add_wf s s_free_inodes_count a Hwf eq_refl) as (sb1 & H1 & Hwf1 & Hm1 & _ & _ & Hd1).
  destruct (super_add_wf _ s_inodes_count b Hwf1 eq_refl) as (sb2 & H2 & Hwf2 & Hm2 & _ & _ & Hd2).
  exists sb2. split; [by mstep H1|]. split; [exact Hwf2|].
  split; [transitivity (sb_fixed sb1); [apply (sm_super _ _ Hm2)|apply (sm_super _ _ Hm1)]|].
  intros p f' Hp Hf'. by rewrite Hd2, <- Hd1.
Qed.

Lemma alloc_inode_ok s mode :
  fs_wf s -> inodes_per_group (fs_super s) = INODES_PER_GROUP -> inode_room s ->
  exists j s', alloc_inode mode s = Ret (Some (ip_of j, j)) s' /\ imade s s' j (new_inode mode).
Proof.
  intros Hwf Hipg (gi0 & g0 & Hg0 & Hf0 & Hc0).
  destruct (count_inodes s (-1) 1 Hwf) as (sb & Hcnt & Hwf1 & Hsb & Hd). set (s1 := with_sb sb s) in *.
  assert (Hipg1 : inodes_per_group (fs_super s1) = INODES_PER_GROUP).
  { rewrite <- Hipg. unfold sb_fixed in Hsb. by injection Hsb. }
  destruct (inv_groups _ (wf_inv _ Hwf) _ _ Hg0) as (Hgi0 & _).
  destruct (take_loop_spec s1 mode (sorted_keys (fs_groups s1)) Hwf1) as (gi & i & s' & Hloop & T).
  { intros gi Hin. by apply elem_of_sorted_keys in Hin. }
  { exists gi0, g0. split; [apply elem_of_sorted_keys; by exists g0|]. split; [done|]. split; [done|].
    cbn [s1 with_sb fs_super]. rewrite Hd; [done|unfold desc_off, sizeof_ext2_group_desc; lia|by vm_compute]. }
  pose proof (taken_made gi i mode s1 s' Hwf1 Hipg1 T) as Md. set (j := gi * INODES_PER_GROUP + i) in *.
  exists j, s'. split.
  2:{ apply (made_with_sb s sb); [done| |done]. intros gi' Hgi'. apply Hd; [unfold desc_off, sizeof_ext2_group_desc; lia|by vm_compute]. }
  unfold alloc_inode. rewrite <- bind_assoc. mstep Hcnt. rewrite (bind_ret _ _ _ (fs_groups s1) s1) by done.
  fold (take_body mode). erewrite bind_ret; [|exact Hloop]. cbn beta iota.
  rewrite (bind_ret _ _ _ (Some (gi, i)) s') by done. cbn beta iota. rewrite (bind_ret _ _ _ (fs_super s') s') by done.
  rewrite (ia_ipg _ _ _ (im_at _ _ _ _ Md)). pose proof (ia_range _ _ _ (im_at _ _ _ _ Md)) as Hr. fold j.
  rewrite u32_small by lia. unfold mret, M_ret. do 3 f_equal. symmetry. destruct T as (s2 & T & _).
  destruct (it_group _ _ _ _ _ T) as (_ & _ & _ & _ & Hi & _). by apply ip_of_number.
Qed.
End Create.
