(* ===== verification/FileGrow.v ===== *)
(** * Growing a file: FileSystem::alloc_block with an inode, of
    src/filesystem.cpp

    The function takes a block for the data, and as many indirect blocks as
    the new place in the tree needs.  [evolve] is what every step of it
    keeps; the branches of the code are lemmas that end in [linked]: the file
    has one block more and no other file is changed. *)

From S2P Require Import Prelude Layout Disk Bitmap PathName Block BlockGroup BlockCache DentryCache.
From S2P Require Import FileSystem FileStatus OpenFiles FsBlocks FileData FsPointers FsAlloc FileBlocks FsInodes.

(** ** What every step keeps *)

(** From [s] to [s'] at most [c] blocks were taken or brought into the cache,
    only the cell [ip] was stored to and the blocks in [K] hold what they
    held. *)
Record evolve (ip : iptr) (K : Z -> Prop) (c : nat) (s s' : FS) : Prop := {
  ev_wf : fs_wf s';
  ev_zero : free_zero s';
  ev_used : forall j, allocated s j = true -> allocated s' j = true;
  ev_view : forall j, K j -> fview s' j = fview s j;
  ev_room : forall k, room s (k + Z.of_nat c) -> room s' k;
  ev_size : size_ (st_cache (fs_store s')) = size_ (st_cache (fs_store s));
  ev_recent : forall k j q, recent s k j q -> Z.of_nat (k + c) <= size_ (st_cache (fs_store s)) ->
    recent s' (k + c) j q;
  ev_cells : forall ip2 v, ip2 <> ip -> cell s ip2 v -> cell s' ip2 v;
  ev_dentry : fs_dentry s' = fs_dentry s;
  ev_super : sb_fixed (fs_super s') = sb_fixed (fs_super s);
  ev_bits : forall i, inode_bit s' i = inode_bit s i;
  ev_left : forall k, inodes_left s k -> inodes_left s' k
}.

Lemma evolve_trans ip K c1 c2 s1 s2 s3 :
  evolve ip K c1 s1 s2 -> evolve ip K c2 s2 s3 -> evolve ip K (c1 + c2) s1 s3.
Proof.
  intros A B. constructor.
  - apply B.
  - apply B.
  - intros j Hj. by apply (ev_used _ _ _ _ _ B), (ev_used _ _ _ _ _ A).
  - intros j Hj. by rewrite (ev_view _ _ _ _ _ B), (ev_view _ _ _ _ _ A).
  - intros k Hk. apply (ev_room _ _ _ _ _ B), (ev_room _ _ _ _ _ A).
    by replace (k + Z.of_nat c2 + Z.of_nat c1) with (k + Z.of_nat (c1 + c2)) by lia.
  - by rewrite (ev_size _ _ _ _ _ B), (ev_size _ _ _ _ _ A).
  - intros k j q Hr Hk. rewrite Nat.add_assoc. apply (ev_recent _ _ _ _ _ B).
    + apply (ev_recent _ _ _ _ _ A); [done|lia].
    + rewrite (ev_size _ _ _ _ _ A). lia.
  - intros ip2 v Hne Hc. by apply (ev_cells _ _ _ _ _ B), (ev_cells _ _ _ _ _ A).
  - by rewrite (ev_dentry _ _ _ _ _ B), (ev_dentry _ _ _ _ _ A).
  - by rewrite (ev_super _ _ _ _ _ B), (ev_super _ _ _ _ _ A).
  - intros i. by rewrite (ev_bits _ _ _ _ _ B), (ev_bits _ _ _ _ _ A).
  - intros k Hk. by apply (ev_left _ _ _ _ _ B), (ev_left _ _ _ _ _ A).
Qed.

(** What a change of one file leaves alone besides blocks and inodes: the
    cache of names, the sizes and geometry, and which inodes are in use. *)
Record keeps_meta (s s' : FS) : Prop := {
  km_dentry : fs_dentry s' = fs_dentry s;
  km_size : size_ (st_cache (fs_store s')) = size_ (st_cache (fs_store s));
  km_super : sb_fixed (fs_super s') = sb_fixed (fs_super s);
  km_bits : forall i, inode_bit s' i = inode_bit s i;
  km_left : forall k, inodes_left s k -> inodes_left s' k
}.

#[export] Instance keeps_meta_preorder : PreOrder keeps_meta.
Proof.
  split; [by constructor|]. intros s1 s2 s3 [H1 H2 H3 H4 H5] [K1 K2 K3 K4 K5].
  constructor; [congruence..| |by auto]. intros i. by rewrite K4, H4.
Qed.

Lemma evolve_meta ip K c s s' : evolve ip K c s s' -> keeps_meta s s'.
Proof. intros E. constructor; apply E. Qed.

Lemma store_meta s st : size_ (st_cache st) = size_ (st_cache (fs_store s)) -> keeps_meta s (with_store st s).
Proof. intros H. by constructor. Qed.

Lemma room_le s j k : room s k -> j <= k -> room s j.
Proof. intros (gi & g & Hg & Hk) Hj. exists gi, g. split; [done|lia]. Qed.

Lemma evolve_weaken ip (K K' : Z -> Prop) c c' s s' :
  evolve ip K c s s' -> (forall j, K' j -> K j) -> (c <= c')%nat -> evolve ip K' c' s s'.
Proof.
  intros A HK Hc. constructor; try apply A.
  - intros j Hj. by apply A, HK.
  - intros k Hk. apply (ev_room _ _ _ _ _ A). apply (room_le _ _ _ Hk). lia.
  - intros k j q Hr Hk. apply (recent_le _ (k + c)); [|lia]. apply (ev_recent _ _ _ _ _ A); [done|lia].
Qed.

(** Free blocks that still look as they did are still zero. *)
Lemma free_zero_view s s' :
  fs_inv s -> fs_inv s' -> (forall j, fs_valid j -> allocated s' j = false ->
    allocated s j = false /\ fview s' j = fview s j) -> free_zero s -> free_zero s'.
Proof.
  intros H H' Hv Hz j Hj Ha. destruct (Hv j Hj Ha) as [Ha0 E].
  by rewrite <- (unallocated_view s' j H' Ha), E, (unallocated_view s j H Ha0), Hz.
Qed.

(** *** Taking a block *)

Lemma evolve_alloc ip K s s' p idx :
  fs_wf s -> alloc_post s s' p idx -> (forall j, K j -> allocated s j = true) -> evolve ip K 1 s s'.
Proof.
  intros Hwf P HK. pose proof (wf_inv _ Hwf) as Hinv. constructor; try apply P.
  - intros j Hj. by rewrite (ap_used _ _ _ _ P), Hj, orb_true_r.
  - intros j Hj. rewrite (ap_view _ _ _ _ P) by (apply (allocated_valid s); auto).
    destruct (Z.eqb_spec j idx) as [->|]; [|done]. apply HK in Hj. by rewrite (ap_fresh _ _ _ _ P) in Hj.
  - intros k j q Hr Hk. rewrite Nat.add_comm. cbn [plus]. apply (ap_recents _ _ _ _ P); [done|lia].
  - intros ip2 v _ Hc. apply (cell_meta s); [apply P|done].
  - intros i. apply same_meta_bit, P.
  - intros k. apply same_meta_left, P.
Qed.

Lemma alloc_wd s s' p idx j k :
  fs_wf s -> alloc_post s s' p idx -> 0 <= k < WORDS -> allocated s' j = true ->
  wd s' j k = if j =? idx then 0 else wd s j k.
Proof.
  intros Hwf P Hk Ha. pose proof (wf_inv _ (ap_wf _ _ _ _ P)) as Hinv. unfold wd.
  rewrite (ap_view _ _ _ _ P) by (apply (allocated_valid s'); auto). destruct (j =? idx); [|done].
  rewrite W1 in Hk. apply ld_zeros; [lia|]. change BLOCK_SIZE with 4096. lia.
Qed.

(** *** A change of the store only *)

Lemma evolve_store ip K c s st :
  fs_wf s -> free_zero s -> fs_inv (with_store st s) ->
  (forall j, K j -> fview (with_store st s) j = fview s j) ->
  (forall j, fs_valid j -> allocated s j = false -> fview (with_store st s) j = fview s j) ->
  size_ (st_cache st) = size_ (st_cache (fs_store s)) ->
  (forall k j q, recent s k j q -> Z.of_nat (k + c) <= size_ (st_cache (fs_store s)) ->
     recent (with_store st s) (k + c) j q) ->
  evolve ip K c s (with_store st s).
Proof.
  intros Hwf Hz Hi Hv Hf Hs Hr. constructor; [by apply fs_wf_store| | |exact Hv| |exact Hs|exact Hr| |done|done|done|done].
  - apply (free_zero_view s); [apply (wf_inv _ Hwf)|done| |done].
    intros j Hj Ha. rewrite allocated_with_store in Ha. auto.
  - intros j Hj. by rewrite allocated_with_store.
  - intros k (gi & g & Hg & Hk). exists gi, g. split; [done|lia].
  - intros ip2 v _ Hc. apply (cell_meta s); [apply same_meta_store|done].
Qed.

(** Bringing a block into the cache. *)
Lemma evolve_get ip K s i :
  fs_wf s -> free_zero s -> allocated s i = true -> (forall j, K j -> allocated s j = true) ->
  exists p st, get_block i s = Ret (Some p) (with_store st s) /\ recent (with_store st s) 1 i p
    /\ evolve ip K 1 s (with_store st s) /\ (forall j, fs_valid j -> fview (with_store st s) j = fview s j).
Proof.
  intros Hwf Hz Ha HK. pose proof (wf_inv _ Hwf) as Hinv.
  destruct (get_block_copy_ok s i false 0 [] 0 Hinv Ha) as (p & st & H & Hinv' & _ & [Hr Hrs] & Hs & Hv);
    [lia|lia|done|done|].
  assert (Hv' : forall j, fs_valid j -> fview (with_store st s) j = fview s j).
  { intros j Hj. rewrite Hv by done. by rewrite andb_false_r. }
  exists p, st. split; [unfold get_block; by mstep H|]. split; [done|]. split; [|done].
  apply evolve_store; auto.
  - intros j Hj. apply Hv'. apply (allocated_valid s); auto.
  - intros k j q Hk Hle. rewrite Nat.add_comm. cbn [plus]. apply Hrs; [done|lia].
Qed.

(** *** One word is written *)

Lemma wd_store s s' i k v j k' :
  fs_inv s -> 0 <= k < WORDS -> 0 <= k' < WORDS -> 0 <= v < 2 ^ 32 ->
  fview s' j = (if j =? i then st 4 (4 * k) v (fview s i) else fview s j) ->
  wd s' j k' = if (j =? i) && (k' =? k) then v else wd s j k'.
Proof.
  rewrite W1. intros Hinv Hk Hk' Hv E. unfold wd. rewrite E. destruct (Z.eqb_spec j i) as [->|]; [|done].
  pose proof (fview_length s i Hinv) as HL. change (Z.to_nat BLOCK_SIZE) with 4096%nat in HL. cbn [andb].
  destruct (Z.eqb_spec k' k) as [->|Hne].
  - rewrite ld_st_eq by (rewrite ?HL; lia). by apply Z.mod_small.
  - apply ld_st_ne; rewrite ?HL; lia.
Qed.

Lemma evolve_word ip (K : Z -> Prop) s n i p k v :
  fs_wf s -> free_zero s -> allocated s i = true -> recent s n i p -> 0 <= k < WORDS -> 0 <= v < 2 ^ 32 ->
  (forall j, K j -> allocated s j = true /\ j <> i) ->
  exists st1 st2, store32 p k v s = Ret tt (with_store st1 s)
    /\ touch_block i (with_store st1 s) = Ret tt (with_store st2 s)
    /\ evolve ip K 0 s (with_store st2 s)
    /\ (forall j k', allocated s j = true -> 0 <= k' < WORDS ->
          wd (with_store st2 s) j k' = if (j =? i) && (k' =? k) then v else wd s j k').
Proof.
  intros Hwf Hz Ha Hr Hk Hv HK. pose proof (wf_inv _ Hwf) as Hinv.
  destruct (store32_touch s n i p k v Hinv Hr Hk) as (st1 & st2 & H1 & H2 & Hinv2 & Hview & Hrs & Hs).
  exists st1, st2. split; [done|]. split; [done|]. split.
  - apply evolve_store; auto.
    + intros j Hj. destruct (HK j Hj) as [Haj Hne]. rewrite Hview by (apply (allocated_valid s); auto).
      by rewrite (proj2 (Z.eqb_neq _ _) Hne).
    + intros j Hj Haj. rewrite Hview by done. destruct (Z.eqb_spec j i) as [->|]; [congruence|done].
    + intros m j q Hq _. rewrite Nat.add_0_r. auto.
  - intros j k' Hj Hk'. apply wd_store; auto. apply Hview, (allocated_valid s); auto.
Qed.

(** *** The inode is updated *)

Lemma evolve_cell ip K s s' v :
  fs_wf s -> free_zero s -> stored s s' ip v -> evolve ip K 0 s s'.
Proof.
  intros Hwf Hz [_ Ho Hc]. constructor.
  - by apply (inode_only_wf s).
  - by apply (inode_only_zero s).
  - intros j. by rewrite (inode_only_allocated s s').
  - intros j _. by apply inode_only_view.
  - intros k Hk. apply (inode_only_room s); [done|]. by replace k with (k + Z.of_nat 0) by lia.
  - by rewrite (io_store _ _ Ho).
  - intros k j q Hr _. rewrite Nat.add_0_r. by apply (inode_only_recent s).
  - exact Hc.
  - apply Ho.
  - by rewrite (io_super _ _ Ho).
  - intros i. by apply inode_only_bit.
  - intros k. by apply inode_only_left.
Qed.

Lemma inode_only_wd s s' j k : inode_only s s' -> wd s' j k = wd s j k.
Proof. intros H. unfold wd. by rewrite (inode_only_view s s'). Qed.

(** ** A block that is taken but not yet linked *)

Record unlinked (s : FS) (ip : iptr) (ind : ext2_inode) (n idx : Z) : Prop := {
  ul_wf : fs_wf s;
  ul_zero : free_zero s;
  ul_cell : cell s ip ind;
  ul_file : file_ok s ind n;
  ul_more : n < MAX_BLOCKS;
  ul_used : allocated s idx = true;
  ul_apart : idx ∉ metas s ind n ++ datas s ind n;
  ul_room : room s 2;
  ul_size : 3 <= size_ (st_cache (fs_store s))
}.

(** The blocks in use that are no indirect blocks of the file. *)
Definition outside (s : FS) (ind : ext2_inode) (n j : Z) : Prop :=
  allocated s j = true /\ j ∉ metas s ind n.

Record linked (s s' : FS) (ip : iptr) (ind ind' : ext2_inode) (n idx : Z) : Prop := {
  ln_evolve : evolve ip (outside s ind n) 2 s s';
  ln_cell : cell s' ip ind';
  ln_inode : exists bl, ind' = set_i_block bl ind;
  ln_tree : keeps_tree s ind s' ind' n;
  ln_fresh : forall b, b ∈ new_metas s' ind' n -> allocated s b = false;
  ln_file : file_ok s' ind' (n + 1);
  ln_last : blk s' ind' n = idx;
  ln_before : forall m, 0 <= m < n -> blk s' ind' m = blk s ind m
}.

Lemma linked_intro s s' ip ind ind' n idx new t o :
  unlinked s ip ind n idx -> evolve ip (outside s ind n) 2 s s' -> cell s' ip ind' ->
  (exists bl, ind' = set_i_block bl ind) -> entries_kept ind ind' n ->
  one_word s s' t o -> dead s ind n t o -> blk s' ind' n = idx -> new_metas s' ind' n = new -> NoDup new ->
  (forall b, b ∈ new -> allocated s b = false /\ allocated s' b = true) -> linked s s' ip ind ind' n idx.
Proof.
  intros U E Hc Hi He Hw Hd Hb Hnew Hnd Hal. pose proof (ul_file _ _ _ _ _ U) as Hf.
  pose proof (keeps_one_word _ _ _ _ _ _ _ Hf He Hw Hd) as K. pose proof (ul_more _ _ _ _ _ U) as Hn.
  constructor; [done|done|done|done|by intros b Hin; rewrite Hnew in Hin; apply Hal in Hin as [? _]| |done|].
  - apply (file_ok_grow s ind); [done|done|done| | |].
    + rewrite Hb, Hnew. apply NoDup_cons. split; [|done]. intros Hin. apply Hal in Hin as [Hx _].
      rewrite (ul_used _ _ _ _ _ U) in Hx. done.
    + rewrite Hb, Hnew. intros b Hin. apply elem_of_cons in Hin as [->|Hin].
      * split; [apply (ul_apart _ _ _ _ _ U)|]. apply (ev_used _ _ _ _ _ E), (ul_used _ _ _ _ _ U).
      * destruct (Hal b Hin) as [Hx Hy]. split; [|done]. intros Hin2.
        rewrite (fo_used _ _ _ Hf b Hin2) in Hx. done.
    + intros b Hin. by apply (ev_used _ _ _ _ _ E), (fo_used _ _ _ Hf).
  - intros m Hm. apply (keeps_blk _ _ _ _ n); [done|lia|done].
Qed.

(** ** Entries of the inode *)

Lemma i_block_at_eq k v i :
  inode_wf i = true -> 0 <= k < 15 -> 0 <= v < 2 ^ 32 -> i_block_at k (set_i_block_at k v i) = v.
Proof.
  intros Hwf Hk Hv. apply inode_wf_fields in Hwf as (HL & _ & _). unfold i_block_at, set_i_block_at. cbn [i_block set_i_block].
  apply nth_lookup_Some. rewrite list_lookup_insert_eq by lia. by rewrite u32_small.
Qed.

Lemma i_block_at_ne k k' v i : 0 <= k -> 0 <= k' -> k <> k' -> i_block_at k' (set_i_block_at k v i) = i_block_at k' i.
Proof.
  intros Hk Hk' Hne. unfold i_block_at, set_i_block_at. cbn [i_block set_i_block].
  rewrite !nth_lookup, list_lookup_insert_ne by lia. done.
Qed.

Lemma allocated_u32 s i : fs_inv s -> allocated s i = true -> 0 <= i < 2 ^ 32.
Proof.
  intros Hinv Ha. pose proof (allocated_valid s i Hinv Ha) as Hv. unfold fs_valid in Hv.
  rewrite TBPG_eq in Hv. unfold MAX_GROUPS in Hv. Z.div_mod_to_equations. lia.
Qed.

Lemma one_word_views s s' t o :
  (forall j, allocated s j = true -> fview s' j = fview s j) -> one_word s s' t o.
Proof. intros H j k Hj _ _. unfold wd. by rewrite H. Qed.

(** ** The branch of the direct blocks *)

Lemma direct_ok s ip ind n idx :
  unlinked s ip ind n idx -> 0 <= n < 12 ->
  exists s' ind', (_ ← iupdate ip (set_i_block_at n idx); mret (Some tt)) s = Ret (Some tt) s'
    /\ linked s s' ip ind ind' n idx.
Proof.
  intros U Hn. pose proof (ul_cell _ _ _ _ _ U) as Hc. pose proof (wf_inv _ (ul_wf _ _ _ _ _ U)) as Hinv.
  destruct (cell_update s ip ind (set_i_block_at n idx) Hc) as (s' & Hu & Hs).
  { apply inode_wf_set_i_block_at; [change EXT2_N_BLOCKS with 15; lia|apply Hc]. }
  exists s', (set_i_block_at n idx ind). split; [by mstep Hu|].
  pose proof (sd_only _ _ _ _ Hs) as Ho. pose proof (allocated_u32 s idx Hinv (ul_used _ _ _ _ _ U)) as Hr.
  apply (linked_intro _ _ _ _ _ _ _ [] (-1) 0); [done| |apply Hs|by eexists| | | | | |constructor|].
  - apply (evolve_weaken ip (outside s ind n) _ 0); [|done|lia].
    apply (evolve_cell _ _ _ _ (set_i_block_at n idx ind)); [apply U|apply U|done].
  - split; [|lia]. intros k Hk Hlt. apply i_block_at_ne; lia.
  - apply one_word_views. intros j _. by apply inode_only_view.
  - constructor; lia.
  - rewrite blk_direct by lia. apply i_block_at_eq; [apply Hc|lia|done].
  - unfold new_metas. rewrite !(proj2 (Z.eqb_neq n _)), (proj2 (Z.leb_gt _ _)) by lia. done.
  - intros b Hb. by apply not_elem_of_nil in Hb.
Qed.

(** ** Indirect blocks: a new one, or the one the inode has *)

Lemma or_error_some {A B} (m : M FS (option A)) (k : A -> M FS (option B)) s a s' :
  m s = Ret (Some a) s' -> or_error m k s = k a s'.
Proof. intros H. unfold or_error. by mstep H. Qed.

Record new_block (s s' : FS) (ix : Z) (q : positive) : Prop := {
  nb_fresh : allocated s ix = false;
  nb_used : forall j, allocated s' j = (j =? ix) || allocated s j;
  nb_recent : recent s' 1 ix q;
  nb_wd : forall j k, allocated s' j = true -> 0 <= k < WORDS -> wd s' j k = if j =? ix then 0 else wd s j k;
  nb_range : 0 <= ix < 2 ^ 32
}.

Lemma new_block_self s s' ix q : new_block s s' ix q -> allocated s' ix = true.
Proof. intros N. by rewrite (nb_used _ _ _ _ N), Z.eqb_refl. Qed.

Lemma new_block_ne s s' ix q j : new_block s s' ix q -> allocated s j = true -> j <> ix.
Proof. intros N Hj ->. rewrite (nb_fresh _ _ _ _ N) in Hj. done. Qed.

Lemma new_block_old s s' ix q j k :
  new_block s s' ix q -> allocated s j = true -> 0 <= k < WORDS -> wd s' j k = wd s j k.
Proof.
  intros N Hj Hk. pose proof (new_block_ne _ _ _ _ _ N Hj) as Hne.
  rewrite (nb_wd _ _ _ _ N); [by rewrite (proj2 (Z.eqb_neq _ _) Hne)| |done].
  by rewrite (nb_used _ _ _ _ N), Hj, orb_true_r.
Qed.

Lemma take_block ip s :
  fs_wf s -> free_zero s -> room s 1 ->
  exists q ix s', alloc_block None s = Ret (Some (q, ix)) s' /\ new_block s s' ix q
    /\ evolve ip (fun j => allocated s j = true) 1 s s' /\ same_meta s s'.
Proof.
  intros Hwf Hz Hr. destruct (alloc_block_ok s None Hwf Hz Hr) as (q & ix & s' & H & P).
  exists q, ix, s'. split; [done|]. split; [|split; [by apply (evolve_alloc _ _ _ _ q ix)|apply P]].
  constructor; [apply P|apply P|apply P| |].
  - intros j k Hj Hk. by apply (alloc_wd s s' q ix).
  - apply (allocated_u32 s'); [apply (wf_inv _ (ap_wf _ _ _ _ P))|].
    by rewrite (ap_used _ _ _ _ P), Z.eqb_refl.
Qed.

(** A new indirect block for entry [e] of the inode. *)
Lemma take_entry ip s ind e :
  fs_wf s -> free_zero s -> room s 1 -> cell s ip ind -> 0 <= e < 15 ->
  exists q ix s', or_error (alloc_block None) (fun '(p, ix) =>
       _ ← iupdate ip (set_i_block_at e ix); mret (Some p)) s = Ret (Some q) s'
    /\ new_block s s' ix q /\ evolve ip (fun j => allocated s j = true) 1 s s'
    /\ cell s' ip (set_i_block_at e ix ind).
Proof.
  intros Hwf Hz Hr Hc He. destruct (take_block ip s Hwf Hz Hr) as (q & ix & s1 & H & N & E & M).
  pose proof (cell_meta _ _ _ _ M Hc) as Hc1.
  destruct (cell_update s1 ip ind (set_i_block_at e ix) Hc1) as (s2 & Hu & Hs).
  { apply inode_wf_set_i_block_at; [change EXT2_N_BLOCKS with 15; lia|apply Hc]. }
  pose proof (sd_only _ _ _ _ Hs) as Ho.
  exists q, ix, s2. split; [rewrite (or_error_some _ _ _ _ _ H); by mstep Hu|]. split; [|split; [|apply Hs]].
  - constructor; [apply N| | | |apply N].
    + intros j. rewrite (inode_only_allocated s1 s2) by done. apply N.
    + apply (inode_only_recent s1); [done|apply N].
    + intros j k Hj Hk. rewrite (inode_only_wd s1 s2) by done. rewrite (inode_only_allocated s1 s2) in Hj by done.
      by apply N.
  - replace 1%nat with (1 + 0)%nat by lia. apply (evolve_trans _ _ _ _ _ s1); [done|].
    apply (evolve_cell _ _ _ _ (set_i_block_at e ix ind)); [apply E|apply E|done].
Qed.

Lemma outside_used s ind n j : outside s ind n j -> allocated s j = true.
Proof. by intros [H _]. Qed.

(** ** The branch of the single indirect block *)

(** Writing the block's number into the indirect block. *)
Lemma indirect_tail s s2 ip ind ind2 n idx ib q c :
  unlinked s ip ind n idx -> 12 <= n < 1036 -> evolve ip (outside s ind n) c s s2 -> (c <= 2)%nat ->
  cell s2 ip ind2 -> i_block_at 12 ind2 = ib -> allocated s2 ib = true -> recent s2 1 ib q ->
  (forall j, outside s ind n j -> j <> ib) ->
  exists s3, (_ ← store32 q (n - MAX_DIR_BLOCKS) idx;
     ind ← iload ip;
     _ ← touch_block (i_block_at EXT2_IND_BLOCK ind);
     mret (Some tt)) s2 = Ret (Some tt) s3
    /\ evolve ip (outside s ind n) 2 s s3 /\ cell s3 ip ind2
    /\ (forall j k, allocated s2 j = true -> 0 <= k < WORDS ->
          wd s3 j k = if (j =? ib) && (k =? n - 12) then idx else wd s2 j k)
    /\ (forall j, allocated s3 j = allocated s2 j).
Proof.
  intros U Hn E Hcc Hc Hib Ha Hr Hout. change MAX_DIR_BLOCKS with 12. change EXT2_IND_BLOCK with 12.
  pose proof (allocated_u32 s idx (wf_inv _ (ul_wf _ _ _ _ _ U)) (ul_used _ _ _ _ _ U)) as Hidx.
  destruct (evolve_word ip (outside s ind n) s2 1 ib q (n - 12) idx) as (st1 & st2 & H1 & H2 & E2 & Hw);
    [apply E|apply E|done|done|rewrite W1; lia|done| |].
  { intros j Hj. split; [|auto]. apply (ev_used _ _ _ _ _ E). by apply outside_used in Hj. }
  exists (with_store st2 s2). split; [|split; [|split; [|split; [exact Hw|]]]].
  - mstep H1. rewrite (bind_ret _ _ _ ind2 (with_store st1 s2)).
    + rewrite Hib. by mstep H2.
    + apply cell_load, (cell_meta s2); [apply same_meta_store|done].
  - apply (evolve_weaken ip (outside s ind n) _ (c + 0)); [|done|lia]. by apply (evolve_trans _ _ _ _ _ s2).
  - apply (cell_meta s2); [apply same_meta_store|done].
  - intros j. apply allocated_with_store.
Qed.

Lemma unlinked_outside_ne s ip ind n idx b :
  unlinked s ip ind n idx -> b ∈ metas s ind n -> forall j, outside s ind n j -> j <> b.
Proof. intros _ Hb j [_ Hj] ->. done. Qed.

Lemma append_indirect_new s ip ind idx :
  unlinked s ip ind 12 idx ->
  exists s' ind', append_indirect ip 12 idx s = Ret (Some tt) s' /\ linked s s' ip ind ind' 12 idx.
Proof.
  intros U. pose proof (ul_cell _ _ _ _ _ U) as Hc. unfold append_indirect. change (12 =? MAX_DIR_BLOCKS) with true.
  destruct (take_entry ip s ind 12) as (q & ix & s2 & H & N & E & Hc2);
    [apply U|apply U|apply (room_le _ 1 2); [apply U|lia]|done|lia|].
  set (ind2 := set_i_block_at 12 ix ind) in *.
  assert (Hib : i_block_at 12 ind2 = ix) by (apply i_block_at_eq; [apply Hc|lia|apply N]).
  apply (evolve_weaken _ _ (outside s ind 12) _ 1) in E; [|apply outside_used|lia].
  pose proof (new_block_self _ _ _ _ N) as Hix.
  destruct (indirect_tail s s2 ip ind ind2 12 idx ix q 1 U) as (s3 & H3 & E3 & Hc3 & Hw & Hal);
    [lia|done|lia|done|done|done|apply N| |].
  { intros j Hj. apply outside_used in Hj. by apply (new_block_ne s s2 ix q). }
  exists s3, ind2. split; [rewrite (or_error_some _ _ _ _ _ H); exact H3|].
  apply (linked_intro _ _ _ _ _ _ _ [ix] ix 0); [done|done|done|by eexists| | | | | | |].
  - split; [|lia]. intros k Hk _. apply i_block_at_ne; lia.
  - intros j k Hj Hk Hne. rewrite Hw; [|by apply (ev_used _ _ _ _ _ E)|done].
    rewrite (proj2 (Z.eqb_neq j ix)) by (by apply (new_block_ne s s2 ix q)). cbn [andb].
    by apply (new_block_old s s2 ix q).
  - apply dead_fresh; [apply U|apply N].
  - rewrite blk_single by lia. rewrite Hib, Hw by (done || rewrite W1; lia). by rewrite !Z.eqb_refl.
  - unfold new_metas. by rewrite Hib.
  - apply NoDup_singleton.
  - intros b Hb. apply list_elem_of_singleton in Hb as ->. split; [apply N|]. by rewrite Hal.
Qed.

Lemma append_indirect_old s ip ind n idx :
  unlinked s ip ind n idx -> 12 < n < 1036 ->
  exists s' ind', append_indirect ip n idx s = Ret (Some tt) s' /\ linked s s' ip ind ind' n idx.
Proof.
  intros U Hn. pose proof (ul_cell _ _ _ _ _ U) as Hc. pose proof (ul_file _ _ _ _ _ U) as Hf.
  unfold append_indirect. change MAX_DIR_BLOCKS with 12. rewrite (proj2 (Z.eqb_neq _ _)) by lia.
  set (ib := i_block_at 12 ind).
  assert (Hmeta : ib ∈ metas s ind n) by (apply elem_of_metas; left; lia).
  pose proof (metas_used _ _ _ _ Hf Hmeta) as Ha.
  destruct (evolve_get ip (outside s ind n) s ib) as (q & st & H & Hr & E & Hv);
    [apply U|apply U|done|by apply outside_used|].
  set (s2 := with_store st s) in *.
  assert (Hc2 : cell s2 ip ind) by (apply (cell_meta s); [apply same_meta_store|done]).
  destruct (indirect_tail s s2 ip ind ind n idx ib q 1 U) as (s3 & H3 & E3 & Hc3 & Hw & Hal);
    [lia|done|lia|done|done|by apply (ev_used _ _ _ _ _ E)|done|by apply (unlinked_outside_ne s ip ind n idx)|].
  assert (Hold : forall j k, allocated s j = true -> wd s2 j k = wd s j k).
  { intros j k Hj. unfold wd. rewrite Hv; [done|]. apply (allocated_valid s); [apply (wf_inv _ (ul_wf _ _ _ _ _ U))|done]. }
  exists s3, ind. split.
  { erewrite or_error_some; [exact H3|]. mstep (cell_load _ _ _ Hc). exact H. }
  apply (linked_intro _ _ _ _ _ _ _ [] ib (n - 12)); [done|done|done| | | | | | |constructor|].
  - exists (i_block ind). by destruct ind.
  - by repeat split.
  - intros j k Hj Hk Hne. rewrite Hw; [|by apply (ev_used _ _ _ _ _ E)|done]. rewrite Hold by done.
    destruct (Z.eqb_spec j ib), (Z.eqb_spec k (n - 12)); try done. lia.
  - by apply dead_ind.
  - rewrite blk_single by lia. rewrite Hw; [by rewrite !Z.eqb_refl|by apply (ev_used _ _ _ _ _ E)|rewrite W1; lia].
  - unfold new_metas. rewrite !(proj2 (Z.eqb_neq n _)), (proj2 (Z.leb_gt _ _)) by lia. done.
  - intros b Hb. by apply not_elem_of_nil in Hb.
Qed.

(** ** The branch of the double indirect block *)

(** A new block of the second level, linked at word [a] of the first level
    block [ib], with the number of the data block in its first word. *)
Lemma dind_tail s s2 ip ind ind2 n idx ib q c a :
  unlinked s ip ind n idx -> evolve ip (outside s ind n) c s s2 -> (c <= 1)%nat ->
  cell s2 ip ind2 -> i_block_at 13 ind2 = ib -> allocated s2 ib = true -> recent s2 1 ib q ->
  (forall j, outside s ind n j -> j <> ib) -> 0 <= a < WORDS ->
  exists di s5, or_error (alloc_block None) (fun '(double_indirect_block, double_indirect_index) =>
      _ ← store32 q a double_indirect_index;
      ind ← iload ip;
      _ ← touch_block (i_block_at EXT2_DIND_BLOCK ind);
      _ ← store32 double_indirect_block 0 idx;
      _ ← touch_block double_indirect_index;
      mret (Some tt)) s2 = Ret (Some tt) s5
    /\ evolve ip (outside s ind n) 2 s s5 /\ cell s5 ip ind2
    /\ allocated s2 di = false /\ (forall j, allocated s5 j = (j =? di) || allocated s2 j) /\ wd s5 di 0 = idx
    /\ (forall j k, allocated s2 j = true -> 0 <= k < WORDS ->
          wd s5 j k = if (j =? ib) && (k =? a) then di else wd s2 j k).
Proof.
  intros U E Hcc Hc Hib Ha Hr Hout Hak. change EXT2_DIND_BLOCK with 13.
  pose proof (allocated_u32 s idx (wf_inv _ (ul_wf _ _ _ _ _ U)) (ul_used _ _ _ _ _ U)) as Hidx.
  pose proof (ul_size _ _ _ _ _ U) as Hsz. rewrite <- (ev_size _ _ _ _ _ E) in Hsz.
  assert (Hroom : room s2 1).
  { apply (ev_room _ _ _ _ _ E). apply (room_le _ _ 2); [apply U|lia]. }
  destruct (take_block ip s2 (ev_wf _ _ _ _ _ E) (ev_zero _ _ _ _ _ E) Hroom) as (d & di & s3 & H3 & N & E3 & M3).
  pose proof (cell_meta _ _ _ _ M3 Hc) as Hc3. pose proof (new_block_self _ _ _ _ N) as Hdi.
  pose proof (new_block_ne _ _ _ _ _ N Ha) as Hne.
  assert (Hr3 : recent s3 2 ib q) by (apply (ev_recent _ _ _ _ _ E3 1); [done|lia]).
  assert (HK : forall j, outside s ind n j -> allocated s2 j = true).
  { intros j Hj. apply (ev_used _ _ _ _ _ E). by apply outside_used in Hj. }
  assert (E3' : evolve ip (outside s ind n) 1 s2 s3) by by apply (evolve_weaken _ _ _ _ _ _ _ E3).
  destruct (evolve_word ip (outside s ind n) s3 2 ib q a di) as (st1 & st2 & H41 & H42 & E4 & Hw4);
    [apply E3|apply E3|by apply (ev_used _ _ _ _ _ E3)|done|done|apply N| |].
  { intros j Hj. split; [|auto]. by apply (ev_used _ _ _ _ _ E3), HK. }
  set (s4 := with_store st2 s3) in *.
  assert (Hr4 : recent s4 1 di d).
  { apply (ev_recent _ _ _ _ _ E4 1); [apply N|rewrite (ev_size _ _ _ _ _ E3); lia]. }
  destruct (evolve_word ip (outside s ind n) s4 1 di d 0 idx) as (st3 & st4 & H51 & H52 & E5 & Hw5);
    [apply E4|apply E4|exact Hdi|done|rewrite W1; lia|done| |].
  { intros j Hj. split; [by apply (ev_used _ _ _ _ _ E4), (ev_used _ _ _ _ _ E3), HK|].
    apply (new_block_ne _ _ _ _ _ N). by apply HK. }
  exists di, (with_store st4 s4). split; [|split; [|split; [|split; [apply N|split; [|split]]]]].
  - rewrite (or_error_some _ _ _ _ _ H3). mstep H41. rewrite (bind_ret _ _ _ ind2 (with_store st1 s3)).
    + rewrite Hib. mstep H42. mstep H51. by mstep H52.
    + apply cell_load, (cell_meta s3); [apply same_meta_store|done].
  - apply (evolve_weaken ip (outside s ind n) _ (c + (1 + (0 + 0)))); [|done|lia].
    apply (evolve_trans _ _ _ _ _ s2); [done|]. apply (evolve_trans _ _ _ _ _ s3); [done|].
    by apply (evolve_trans _ _ _ _ _ s4).
  - do 2 (eapply cell_meta; [apply same_meta_store|]). done.
  - intros j. unfold s4. rewrite !allocated_with_store. apply N.
  - rewrite Hw5; [by rewrite !Z.eqb_refl|exact Hdi|rewrite W1; lia].
  - intros j k Hj Hk. pose proof (ev_used _ _ _ _ _ E3 j Hj) as Hj3.
    rewrite Hw5; [|exact Hj3|exact Hk].
    rewrite (proj2 (Z.eqb_neq j di)) by by apply (new_block_ne s2 s3 di d). cbn [andb].
    rewrite Hw4 by done. by rewrite (new_block_old s2 s3 di d).
Qed.

Lemma inner_zero n : 1036 <= n -> (n - 12 - 1024) mod 1024 = 0 -> (n - 12 - 1) / 1024 = (n - 1036) / 1024.
Proof. intros. Z.div_mod_to_equations. lia. Qed.

Lemma append_double_new s ip ind idx :
  unlinked s ip ind 1036 idx ->
  exists s' ind', append_double_indirect ip 1036 idx s = Ret (Some tt) s' /\ linked s s' ip ind ind' 1036 idx.
Proof.
  intros U. pose proof (ul_cell _ _ _ _ _ U) as Hc. unfold append_double_indirect.
  change (1036 =? MAX_DIR_BLOCKS + MAX_IND_BLOCKS) with true. cbv iota zeta.
  change ((1036 - MAX_DIR_BLOCKS - 1) / NUM_INDIRECT_BLOCKS) with 0.
  change ((1036 - MAX_DIR_BLOCKS - MAX_IND_BLOCKS) mod NUM_INDIRECT_BLOCKS =? 0) with true. cbv iota.
  destruct (take_entry ip s ind 13) as (q & ix & s2 & H & N & E & Hc2);
    [apply U|apply U|apply (room_le _ 1 2); [apply U|lia]|done|lia|].
  set (ind2 := set_i_block_at 13 ix ind) in *.
  assert (Hib : i_block_at 13 ind2 = ix) by (apply i_block_at_eq; [apply Hc|lia|apply N]).
  apply (evolve_weaken _ _ (outside s ind 1036) _ 1) in E; [|apply outside_used|lia].
  pose proof (new_block_self _ _ _ _ N) as Hix.
  destruct (dind_tail s s2 ip ind ind2 1036 idx ix q 1 0 U) as (di & s5 & H5 & E5 & Hc5 & Hfr & Hal & Hd0 & Hw);
    [done|lia|done|done|done|apply N| |rewrite W1; lia|].
  { intros j Hj. apply outside_used in Hj. by apply (new_block_ne s s2 ix q). }
  assert (Hx : wd s5 ix 0 = di) by (rewrite Hw by (done || rewrite W1; lia); by rewrite !Z.eqb_refl).
  assert (Hne : di <> ix) by congruence.
  exists s5, ind2. split; [rewrite (or_error_some _ _ _ _ _ H); exact H5|].
  apply (linked_intro _ _ _ _ _ _ _ [ix; di] ix 0); [done|done|done|by eexists| | | | | | |].
  - split; [|split; [|lia]]; intros; apply i_block_at_ne; lia.
  - intros j k Hj Hk _. rewrite Hw; [|by apply (ev_used _ _ _ _ _ E)|done].
    rewrite (proj2 (Z.eqb_neq j ix)) by (by apply (new_block_ne s s2 ix q)). cbn [andb].
    by apply (new_block_old s s2 ix q).
  - apply dead_fresh; [apply U|apply N].
  - rewrite blk_double by (unfold MAX_BLOCKS; lia). rewrite Hib.
    change ((1036 - 1036) / 1024) with 0. change ((1036 - 1036) mod 1024) with 0. by rewrite Hx.
  - unfold new_metas. rewrite Hib. change ((1036 - 1036) / 1024) with 0. by rewrite Hx.
  - apply NoDup_cons. split; [|apply NoDup_singleton]. intros Hin. apply list_elem_of_singleton in Hin. congruence.
  - intros b Hb. apply elem_of_cons in Hb as [->|Hb].
    + split; [apply N|]. by rewrite Hal, Hix, orb_true_r.
    + apply list_elem_of_singleton in Hb as ->. split; [|by rewrite Hal, Z.eqb_refl].
      destruct (allocated s di) eqn:Hs; [|done]. by rewrite (ev_used _ _ _ _ _ E) in Hfr.
Qed.

(** The first level block of a file that has one is brought into the cache. *)
Lemma get_dind s ip ind n idx :
  unlinked s ip ind n idx -> 1036 < n ->
  exists q s2, get_block (i_block_at 13 ind) s = Ret (Some q) s2 /\ recent s2 1 (i_block_at 13 ind) q
    /\ evolve ip (outside s ind n) 1 s s2 /\ cell s2 ip ind
    /\ (forall j, allocated s2 j = allocated s j)
    /\ (forall j, allocated s j = true -> fview s2 j = fview s j).
Proof.
  intros U Hn. pose proof (ul_file _ _ _ _ _ U) as Hf.
  assert (Hmeta : i_block_at 13 ind ∈ metas s ind n) by (apply elem_of_metas; right; left; lia).
  destruct (evolve_get ip (outside s ind n) s (i_block_at 13 ind)) as (q & st & H & Hr & E & Hv);
    [apply U|apply U|by apply (metas_used s ind n)|by apply outside_used|].
  exists q, (with_store st s). do 3 (split; [done|]). split; [|split; [done|]].
  - apply (cell_meta s); [apply same_meta_store|apply U].
  - intros j Hj. apply Hv, (allocated_valid s); [apply (wf_inv _ (ul_wf _ _ _ _ _ U))|done].
Qed.

(** The code of the branch when the file has a first level block. *)
Lemma append_double_eq s ip ind n idx q s2 :
  cell s ip ind -> 1036 < n < MAX_BLOCKS -> get_block (i_block_at 13 ind) s = Ret (Some q) s2 ->
  append_double_indirect ip n idx s
  = (if (n - 1036) mod 1024 =? 0 then
       or_error (alloc_block None) (fun '(double_indirect_block, double_indirect_index) =>
         _ ← store32 q ((n - 13) / 1024) double_indirect_index;
         ind ← iload ip;
         _ ← touch_block (i_block_at EXT2_DIND_BLOCK ind);
         _ ← store32 double_indirect_block 0 idx;
         _ ← touch_block double_indirect_index;
         mret (Some tt))
     else
       double_indirect_index ← load32 q ((n - 13) / 1024 - 1);
       or_error (get_block double_indirect_index) (fun double_indirect_block =>
         _ ← store32 double_indirect_block ((n - 1036) mod 1024) idx;
         _ ← touch_block double_indirect_index;
         mret (Some tt))) s2.
Proof.
  unfold MAX_BLOCKS. intros Hc Hn H. unfold append_double_indirect. change (MAX_DIR_BLOCKS + MAX_IND_BLOCKS) with 1036.
  rewrite (proj2 (Z.eqb_neq _ _)) by lia. erewrite or_error_some; [|mstep (cell_load _ _ _ Hc); exact H].
  cbv zeta. change MAX_DIR_BLOCKS with 12. change NUM_INDIRECT_BLOCKS with 1024. change MAX_IND_BLOCKS with 1024.
  replace (n - 12 - 1) with (n - 13) by lia. replace (n - 12 - 1024) with (n - 1036) by lia.
  rewrite (proj2 (Z.leb_le ((n - 13) / 1024) 1024)) by (Z.div_mod_to_equations; lia).
  by rewrite (bind_ret _ _ _ tt s2) by done.
Qed.

Lemma append_double_row s ip ind n idx :
  unlinked s ip ind n idx -> 1036 < n -> (n - 1036) mod 1024 = 0 ->
  exists s' ind', append_double_indirect ip n idx s = Ret (Some tt) s' /\ linked s s' ip ind ind' n idx.
Proof.
  intros U Hn Hz. pose proof (ul_cell _ _ _ _ _ U) as Hc. pose proof (ul_file _ _ _ _ _ U) as Hf.
  pose proof (ul_more _ _ _ _ _ U) as Hmax. unfold MAX_BLOCKS in Hmax.
  set (a := (n - 13) / 1024). set (ib := i_block_at 13 ind).
  assert (Ha : 0 <= a < 1024 /\ (n - 1036) / 1024 = a) by (unfold a; Z.div_mod_to_equations; lia).
  destruct (get_dind s ip ind n idx U Hn) as (q & s2 & H & Hr & E & Hc2 & Hal2 & Hv). fold ib in H, Hr.
  assert (Hmeta : ib ∈ metas s ind n) by (apply elem_of_metas; right; left; lia).
  pose proof (metas_used _ _ _ _ Hf Hmeta) as Hib.
  destruct (dind_tail s s2 ip ind ind n idx ib q 1 a U) as (di & s5 & H5 & E5 & Hc5 & Hfr & Hal & Hd0 & Hw);
    [done|lia|done|done|by rewrite Hal2|done|by apply (unlinked_outside_ne s ip ind n idx)|rewrite W1; lia|].
  assert (Hold : forall j k, allocated s j = true -> wd s2 j k = wd s j k).
  { intros j k Hj. unfold wd. by rewrite Hv. }
  assert (Hx : wd s5 ib a = di).
  { rewrite Hw; [by rewrite !Z.eqb_refl|by rewrite Hal2|rewrite W1; lia]. }
  exists s5, ind. split.
  { rewrite (append_double_eq s ip ind n idx q s2 Hc) by (done || unfold MAX_BLOCKS; lia). rewrite Hz. exact H5. }
  apply (linked_intro _ _ _ _ _ _ _ [di] ib a); [done|done|done| | | | | | |apply NoDup_singleton|].
  - exists (i_block ind). by destruct ind.
  - by repeat split.
  - intros j k Hj Hk Hne. rewrite Hw by (done || by rewrite Hal2). rewrite Hold by done.
    destruct (Z.eqb_spec j ib), (Z.eqb_spec k a); try done. lia.
  - by apply dead_dind.
  - rewrite blk_double by (unfold MAX_BLOCKS; lia). fold ib. destruct Ha as [_ ->]. by rewrite Hz, Hx.
  - unfold new_metas. rewrite !(proj2 (Z.eqb_neq n _)), (proj2 (Z.leb_le _ _)), Hz by lia.
    fold ib. destruct Ha as [_ ->]. by rewrite Hx.
  - intros b Hb. apply list_elem_of_singleton in Hb as ->. rewrite Hal, Z.eqb_refl. split; [|done].
    by rewrite <- Hal2.
Qed.

(** The number of the data block goes to a block of the second level that
    the file already has. *)
Lemma second_tail s s2 ip ind n idx q :
  unlinked s ip ind n idx -> 1036 < n -> (n - 1036) mod 1024 <> 0 ->
  let a := (n - 1036) / 1024 in let b := (n - 1036) mod 1024 in let di := wd s (i_block_at 13 ind) a in
  recent s2 1 (i_block_at 13 ind) q -> evolve ip (outside s ind n) 1 s s2 -> cell s2 ip ind ->
  (forall j, allocated s2 j = allocated s j) -> (forall j, allocated s j = true -> fview s2 j = fview s j) ->
  exists s4, (double_indirect_index ← load32 q ((n - 13) / 1024 - 1);
       or_error (get_block double_indirect_index) (fun double_indirect_block =>
         _ ← store32 double_indirect_block b idx;
         _ ← touch_block double_indirect_index;
         mret (Some tt))) s2 = Ret (Some tt) s4
    /\ evolve ip (outside s ind n) 2 s s4 /\ cell s4 ip ind
    /\ (forall j k, allocated s j = true -> 0 <= k < WORDS ->
          wd s4 j k = if (j =? di) && (k =? b) then idx else wd s j k).
Proof.
  intros U Hn Hz a b di Hr E Hc2 Hal2 Hv. pose proof (ul_file _ _ _ _ _ U) as Hf.
  pose proof (ul_more _ _ _ _ _ U) as Hmax. unfold MAX_BLOCKS in Hmax.
  pose proof (allocated_u32 s idx (wf_inv _ (ul_wf _ _ _ _ _ U)) (ul_used _ _ _ _ _ U)) as Hidx.
  assert (Ha : 0 <= a < 1024 /\ 0 <= a < (n - 13) / 1024 /\ (n - 13) / 1024 - 1 = a /\ 0 <= b < 1024)
    by (unfold a, b; Z.div_mod_to_equations; lia). destruct Ha as (Ha & Ha1 & -> & Hb).
  assert (Hm1 : i_block_at 13 ind ∈ metas s ind n) by (apply elem_of_metas; right; left; lia).
  assert (Hm2 : di ∈ metas s ind n) by (apply elem_of_metas; right; right; split; [done|by exists a]).
  assert (HK : forall j, outside s ind n j -> allocated s2 j = true) by (intros j [Hj _]; by rewrite Hal2).
  destruct (evolve_get ip (outside s ind n) s2 di) as (d & st & H3 & Hr3 & E3 & Hv3);
    [apply E|apply E|by rewrite Hal2; apply (metas_used s ind n)|done|].
  set (s3 := with_store st s2) in *.
  destruct (evolve_word ip (outside s ind n) s3 1 di d b idx) as (st1 & st2 & H41 & H42 & E4 & Hw);
    [apply E3|apply E3|by apply (ev_used _ _ _ _ _ E3); rewrite Hal2; apply (metas_used s ind n)
    |done|rewrite W1; lia|done| |].
  { intros j Hj. split; [by apply (ev_used _ _ _ _ _ E3), HK|]. by apply (unlinked_outside_ne s ip ind n idx). }
  exists (with_store st2 s3). split; [|split; [|split]].
  - rewrite (bind_ret _ _ _ di s2).
    2:{ rewrite (load32_recent s2 1 (i_block_at 13 ind) q _ Hr) by (rewrite W1; lia). f_equal.
        unfold di, wd. rewrite Hv; [done|]. by apply (metas_used s ind n). }
    rewrite (or_error_some _ _ _ _ _ H3). mstep H41. by mstep H42.
  - apply (evolve_weaken ip (outside s ind n) _ (1 + (1 + 0))); [|done|lia].
    apply (evolve_trans _ _ _ _ _ s2); [done|]. by apply (evolve_trans _ _ _ _ _ s3).
  - do 2 (eapply cell_meta; [apply same_meta_store|]). done.
  - intros j k Hj Hk. rewrite Hw; [|by apply (ev_used _ _ _ _ _ E3); rewrite Hal2|done].
    unfold wd at 1. rewrite Hv3, Hv; [done|done|].
    apply (allocated_valid s2); [apply (wf_inv _ (ev_wf _ _ _ _ _ E))|by rewrite Hal2].
Qed.

Lemma append_double_old s ip ind n idx :
  unlinked s ip ind n idx -> 1036 < n -> (n - 1036) mod 1024 <> 0 ->
  exists s' ind', append_double_indirect ip n idx s = Ret (Some tt) s' /\ linked s s' ip ind ind' n idx.
Proof.
  intros U Hn Hz. pose proof (ul_cell _ _ _ _ _ U) as Hc. pose proof (ul_file _ _ _ _ _ U) as Hf.
  pose proof (ul_more _ _ _ _ _ U) as Hmax.
  destruct (get_dind s ip ind n idx U Hn) as (q & s2 & H & Hr & E & Hc2 & Hal2 & Hv).
  destruct (second_tail s s2 ip ind n idx q U Hn Hz Hr E Hc2 Hal2 Hv) as (s4 & H4 & E4 & Hc4 & Hw).
  set (a := (n - 1036) / 1024) in *. set (b := (n - 1036) mod 1024) in *. set (ib := i_block_at 13 ind) in *.
  set (di := wd s ib a) in *. unfold MAX_BLOCKS in Hmax.
  assert (Ha : 0 <= a < 1024 /\ 0 <= a < (n - 13) / 1024 /\ 0 <= b < 1024)
    by (unfold a, b; Z.div_mod_to_equations; lia). destruct Ha as (Ha & Ha1 & Hb).
  exists s4, ind. split.
  { rewrite (append_double_eq s ip ind n idx q s2 Hc) by (done || unfold MAX_BLOCKS; lia). fold b.
    rewrite (proj2 (Z.eqb_neq b 0) Hz). exact H4. }
  apply (linked_intro _ _ _ _ _ _ _ [] di b); [done|done|done| | | | | | |constructor|].
  - exists (i_block ind). by destruct ind.
  - by repeat split.
  - intros j k Hj Hk Hne. rewrite Hw by done. destruct (Z.eqb_spec j di), (Z.eqb_spec k b); try done. lia.
  - by apply dead_second_level.
  - rewrite blk_double by (unfold MAX_BLOCKS; lia). fold ib a b.
    assert (Hx : wd s4 ib a = di).
    { rewrite Hw; [|apply (metas_used s ind n), elem_of_metas; [done|right; left; lia]|rewrite W1; lia].
      destruct (Z.eqb_spec ib di) as [Eq|]; [|done]. by destruct (dind_ne_first s ind n Hf Hn a Ha1). }
    rewrite Hx, Hw; [by rewrite !Z.eqb_refl| |rewrite W1; lia].
    apply (metas_used s ind n), elem_of_metas; [done|]. right; right. split; [done|]. by exists a.
  - unfold new_metas. rewrite !(proj2 (Z.eqb_neq n _)), (proj2 (Z.leb_le _ _)) by lia.
    fold b. by rewrite (proj2 (Z.eqb_neq b 0)).
  - intros x Hx. by apply not_elem_of_nil in Hx.
Qed.

(** ** The whole function *)

Record grown (s s' : FS) (ip : iptr) (ind ind' : ext2_inode) (n idx : Z) (p : positive) : Prop := {
  gw_evolve : evolve ip (outside s ind n) 3 s s';
  gw_cell : cell s' ip ind';
  gw_inode : exists bl, ind' = set_i_blocks (8 * (n + 1)) (set_i_block bl ind);
  gw_tree : keeps_tree s ind s' ind' n;
  gw_fresh_metas : forall b, b ∈ new_metas s' ind' n -> allocated s b = false;
  gw_file : file_ok s' ind' (n + 1);
  gw_fresh : allocated s idx = false;
  gw_last : blk s' ind' n = idx;
  gw_zero : fview s' idx = zeros BLOCK_SIZE;
  gw_before : forall m, 0 <= m < n -> blk s' ind' m = blk s ind m;
  gw_recent : recent s' 3 idx p
}.

(** Where an inode's blocks are found does not depend on its other fields. *)
Lemma file_ok_inode s ind ind' n : i_block ind' = i_block ind -> file_ok s ind n -> file_ok s ind' n.
Proof.
  intros E H. assert (Hat : forall k, i_block_at k ind' = i_block_at k ind) by (intros k; unfold i_block_at; by rewrite E).
  assert (Hm : metas s ind' n = metas s ind n) by (unfold metas; by rewrite !Hat).
  assert (Hd : datas s ind' n = datas s ind n) by (unfold datas, blk; apply map_ext; intros k; by rewrite Hat).
  constructor; rewrite ?Hm, ?Hd; apply H.
Qed.

Lemma append_ok s ip ind n idx :
  unlinked s ip ind n idx -> 0 <= n ->
  exists s' ind', (if n <? MAX_DIR_BLOCKS then
         _ ← iupdate ip (set_i_block_at n idx);
         mret (Some tt)
       else if n <? MAX_DIR_BLOCKS + MAX_IND_BLOCKS then append_indirect ip n idx
       else if n <? MAX_DIR_BLOCKS + MAX_IND_BLOCKS + MAX_DIND_BLOCKS then append_double_indirect ip n idx
       else append_triple_indirect ip n idx) s = Ret (Some tt) s' /\ linked s s' ip ind ind' n idx.
Proof.
  intros U Hn. pose proof (ul_more _ _ _ _ _ U) as Hmax. unfold MAX_BLOCKS in Hmax.
  change MAX_DIR_BLOCKS with 12. change MAX_IND_BLOCKS with 1024. change MAX_DIND_BLOCKS with 1048576.
  destruct (Z.ltb_spec n 12) as [H1|H1]; [by apply direct_ok|].
  destruct (Z.ltb_spec n (12 + 1024)) as [H2|H2].
  - destruct (decide (n = 12)) as [->|]; [by apply append_indirect_new|by apply append_indirect_old; [|lia]].
  - rewrite (proj2 (Z.ltb_lt _ _)) by lia. destruct (decide (n = 1036)) as [->|]; [by apply append_double_new|].
    destruct (decide ((n - 1036) mod 1024 = 0)); [by apply append_double_row; [|lia|]|by apply append_double_old; [|lia|]].
Qed.

(** After the block for the data was taken. *)
Lemma taken_unlinked s s' ip ind n p idx :
  fs_wf s -> alloc_post s s' p idx -> room s 3 -> 3 <= size_ (st_cache (fs_store s)) -> cell s ip ind ->
  file_ok s ind n -> n < MAX_BLOCKS ->
  unlinked s' ip ind n idx /\ keeps_tree s ind s' ind n
  /\ forall m, 0 <= m < n -> blk s' ind m = blk s ind m.
Proof.
  intros Hwf P Hr Hs Hc Hf Hn. pose proof (fo_range _ _ _ Hf) as Hr0.
  assert (E : evolve ip (fun j => allocated s j = true) 1 s s') by by apply (evolve_alloc _ _ _ _ p idx).
  assert (Hv : forall b, b ∈ metas s ind n -> fview s' b = fview s b).
  { intros b Hb. apply (ev_view _ _ _ _ _ E). by apply (metas_used s ind n). }
  pose proof (keeps_views _ _ s' _ Hv) as K. pose proof (keeps_metas _ _ _ _ _ K) as Hm.
  pose proof (keeps_datas _ _ _ _ _ K ltac:(lia)) as Hd.
  split; [|split; [done|intros m Hm0; apply (keeps_blk _ _ _ _ n); [done|lia|done]]].
  constructor; [apply P|apply P|apply (cell_meta s); [apply P|done]| |done| | | |].
  - apply (file_ok_ext s); [done|done|]. intros b _. apply (ev_used _ _ _ _ _ E).
  - by rewrite (ap_used _ _ _ _ P), Z.eqb_refl.
  - rewrite Hm, Hd. intros Hin. apply (fo_used _ _ _ Hf) in Hin. rewrite (ap_fresh _ _ _ _ P) in Hin. done.
  - apply (ap_room _ _ _ _ P). exact Hr.
  - rewrite (ap_size _ _ _ _ P). exact Hs.
Qed.

Lemma aligned_blocks s n :
  sb_get s_log_block_size (fs_super s) = LOG_BLOCK_SIZE -> 0 <= n ->
  @num_aligned_blocks FS (8 * n) (fs_super s) s = Ret n s.
Proof.
  intros Hl Hn. unfold num_aligned_blocks. rewrite Hl. unfold udiv. change (u32 (Z.shiftl 2 LOG_BLOCK_SIZE)) with 8.
  cbn [Z.eqb]. f_equal. rewrite Z.mul_comm. by apply Z.div_mul.
Qed.

(** An inode of [n] blocks that can take one more. *)
Record growable (s : FS) (ip : iptr) (ind : ext2_inode) (n : Z) : Prop := {
  gb_wf : fs_wf s;
  gb_zero : free_zero s;
  gb_size : 3 <= size_ (st_cache (fs_store s));
  gb_cell : cell s ip ind;
  gb_mode : S_ISDIR (i_mode ind) || S_ISREG (i_mode ind) = true;
  gb_blocks : i_blocks ind = 8 * n;
  gb_file : file_ok s ind n
}.

Lemma grow_ok s ip ind n old :
  growable s ip ind n -> room s 3 -> n < MAX_BLOCKS ->
  exists p idx s' ind', alloc_block_inode old ip s = Ret (Some (p, idx)) s' /\ grown s s' ip ind ind' n idx p.
Proof.
  intros [Hwf Hz Hs Hc Hmode Hb Hf] Hr Hn. pose proof (fo_range _ _ _ Hf) as Hr0.
  destruct (alloc_block_ok s old Hwf Hz) as (p & idx & s1 & H1 & P); [by apply (room_le _ _ 3)|].
  destruct (taken_unlinked s s1 ip ind n p idx Hwf P Hr Hs Hc Hf Hn) as (U & K1 & Hbefore).
  pose proof (keeps_metas _ _ _ _ _ K1) as Hm.
  destruct (append_ok s1 ip ind n idx U) as (s2 & ind2 & H2 & L); [lia|].
  destruct (ln_inode _ _ _ _ _ _ _ L) as [bl ->]. pose proof (ln_cell _ _ _ _ _ _ _ L) as Hc2.
  pose proof (ln_evolve _ _ _ _ _ _ _ L) as E2. set (ind2 := set_i_block bl ind) in *.
  set (f := fun i => set_i_blocks (u32 (i_blocks i + u32 (Z.shiftl 2 (sb_get s_log_block_size (fs_super s2))))) i).
  assert (Hf2 : f ind2 = set_i_blocks (8 * (n + 1)) ind2).
  { unfold f. rewrite (wf_log _ (ev_wf _ _ _ _ _ E2)). change (u32 (Z.shiftl 2 LOG_BLOCK_SIZE)) with 8.
    change (i_blocks ind2) with (i_blocks ind). rewrite Hb. unfold MAX_BLOCKS in Hn. rewrite u32_small by lia.
    f_equal. lia. }
  destruct (cell_update s2 ip ind2 f Hc2) as (s3 & H3 & S3).
  { apply inode_wf_set_i_blocks, Hc2. }
  rewrite Hf2 in S3. set (ind' := set_i_blocks (8 * (n + 1)) ind2) in *. pose proof (sd_only _ _ _ _ S3) as O3.
  assert (E3 : evolve ip (outside s ind n) 0 s2 s3).
  { apply (evolve_cell _ _ _ _ ind'); [apply E2|apply E2|done]. }
  assert (HK : forall j, outside s ind n j -> outside s1 ind n j).
  { intros j [Hj Hnj]. split; [|by rewrite Hm]. by rewrite (ap_used _ _ _ _ P), Hj, orb_true_r. }
  assert (Hblk : forall m, blk s3 ind' m = blk s2 ind2 m).
  { intros m. unfold blk. change (i_block_at (slot m).1 ind') with (i_block_at (slot m).1 ind2).
    generalize (i_block_at (slot m).1 ind2). induction (slot m).2 as [|o l IH]; intros b; [done|].
    cbn [chase]. by rewrite IH, (inode_only_wd s2 s3). }
  exists p, idx, s3, ind'. split.
  - unfold alloc_block_inode. mstep (cell_load _ _ _ Hc). rewrite Hmode. rewrite (bind_ret _ _ _ tt s) by done.
    rewrite (bind_ret _ _ _ (fs_super s) s) by done. rewrite Hb.
    mstep (aligned_blocks s n (wf_log _ Hwf) ltac:(lia)). rewrite (or_error_some _ _ _ _ _ H1).
    rewrite (or_error_some _ _ _ _ _ H2). rewrite (bind_ret _ _ _ (fs_super s2) s2) by done. by mstep H3.
  - constructor.
    + change 3%nat with (1 + (2 + 0))%nat. apply (evolve_trans _ _ _ _ _ s1).
      { apply (evolve_alloc _ _ _ _ p idx); [done|done|by apply outside_used]. }
      apply (evolve_trans _ _ _ _ _ s2); [|done]. by apply (evolve_weaken _ _ _ _ _ _ _ E2).
    + apply S3.
    + by exists bl.
    + apply (keeps_trans s ind s1 ind s3 ind'); [done|]. apply (keeps_trans s1 ind s2 ind2 s3 ind'); [apply L|].
      apply (keeps_trans s2 ind2 s3 ind2 s3 ind'); [|by apply keeps_inode].
      apply keeps_views. intros b _. by apply inode_only_view.
    + intros b Hin. assert (Hb2 : b ∈ new_metas s2 ind2 n).
      { unfold new_metas in *. by rewrite (inode_only_wd s2 s3) in Hin. }
      apply (ln_fresh _ _ _ _ _ _ _ L) in Hb2. rewrite (ap_used _ _ _ _ P) in Hb2. by apply orb_false_iff in Hb2 as [_ ?].
    + apply (file_ok_inode _ ind2); [done|]. apply (file_ok_ext s2); [apply L| |].
      * intros b _. by apply inode_only_view.
      * intros b _. by rewrite (inode_only_allocated s2 s3).
    + apply P.
    + rewrite Hblk. apply L.
    + rewrite (inode_only_view s2 s3) by done. rewrite (ev_view _ _ _ _ _ E2).
      * rewrite (ap_view _ _ _ _ P), Z.eqb_refl; [done|].
        apply (allocated_valid s1); [apply (wf_inv _ (ap_wf _ _ _ _ P))|apply (ul_used _ _ _ _ _ U)].
      * split; [apply (ul_used _ _ _ _ _ U)|]. intros Hin. apply (ul_apart _ _ _ _ _ U), elem_of_app. by left.
    + intros m Hm0. rewrite Hblk, (ln_before _ _ _ _ _ _ _ L) by done. by apply Hbefore.
    + apply (ev_recent _ _ _ _ _ E3 3); [|rewrite (ev_size _ _ _ _ _ E2), (ap_size _ _ _ _ P); lia].
      apply (ev_recent _ _ _ _ _ E2 1); [apply P|rewrite (ap_size _ _ _ _ P); lia].
Qed.

Lemma grown_growable s s' ip ind ind' n idx p :
  growable s ip ind n -> grown s s' ip ind ind' n idx p -> growable s' ip ind' (n + 1).
Proof.
  intros B G. destruct (gw_inode _ _ _ _ _ _ _ _ G) as [bl E]. pose proof (gw_evolve _ _ _ _ _ _ _ _ G) as Ev.
  pose proof (fo_range _ _ _ (gw_file _ _ _ _ _ _ _ _ G)) as Hr. unfold MAX_BLOCKS in Hr.
  constructor; [apply Ev|apply Ev|rewrite (ev_size _ _ _ _ _ Ev); apply (gb_size _ _ _ _ B)
    |apply (gw_cell _ _ _ _ _ _ _ _ G)| | |apply (gw_file _ _ _ _ _ _ _ _ G)].
  - rewrite E. apply (gb_mode _ _ _ _ B).
  - rewrite E. cbn. rewrite u32_small; lia.
Qed.

(** ** Properties *)

(** C5. Growing a file of any number of blocks up to the end of the double
    indirect range by one, when three blocks are free and free blocks are
    zero on disk: a block that was not in use becomes the last block of the
    file and reads as zeros; the blocks of the file before it are the same
    and, like every block in use that is not an indirect block of this file,
    hold what they held; the blocks of the file, indirect ones included, are
    all in use and different from each other; only [i_block] and [i_blocks]
    of this inode have changed, and no other inode has. *)
Theorem alloc_block_inode_grows s ip ind n old :
  growable s ip ind n -> room s 3 -> n < MAX_BLOCKS ->
  exists p idx s' bl, alloc_block_inode old ip s = Ret (Some (p, idx)) s' /\
    let ind' := set_i_blocks (8 * (n + 1)) (set_i_block bl ind) in
    growable s' ip ind' (n + 1)
    /\ blk s' ind' n = idx /\ allocated s idx = false /\ fview s' idx = zeros BLOCK_SIZE
    /\ (forall m, 0 <= m < n -> blk s' ind' m = blk s ind m)
    /\ (forall j, allocated s j = true -> (j ∉ metas s ind n) -> fview s' j = fview s j)
    /\ (forall j, allocated s j = true -> allocated s' j = true)
    /\ (forall ip2 v, ip2 <> ip -> cell s ip2 v -> cell s' ip2 v).
Proof.
  intros B Hr Hn. destruct (grow_ok s ip ind n old B Hr Hn) as (p & idx & s' & ind' & H & G).
  pose proof (grown_growable _ _ _ _ _ _ _ _ B G) as B'. pose proof (gw_evolve _ _ _ _ _ _ _ _ G) as E.
  destruct G as [_ _ [bl ->] _ _ _ Hfr Hl Hz Hb _]. exists p, idx, s', bl. split; [exact H|].
  split; [exact B'|]. do 4 (split; [assumption|]). split; [|split; [apply E|apply E]].
  intros j Hj Hnj. apply (ev_view _ _ _ _ _ E). by split.
Qed.

(** ** Instances of the properties *)

(** The file of ten bytes in block 1, as a regular file. *)
Definition sample_reg : ext2_inode := set_i_mode S_IFREG sample_file.

Lemma sample_growable : growable (sample_fs {[ 5 := sample_reg ]}) (InCopy 5) sample_reg 1.
Proof.
  constructor; [apply sample_fs_wf|apply sample_fs_zero|by vm_compute|by split; vm_compute|by vm_compute
    |by vm_compute|].
  constructor; [by vm_compute| |].
  - change (NoDup [1]). apply NoDup_singleton.
  - intros b Hb. change (b ∈ [1]) in Hb. apply list_elem_of_singleton in Hb as ->. by vm_compute.
Qed.

Lemma alloc_block_inode_grows_witness :
  exists p idx s', alloc_block_inode None (InCopy 5) (sample_fs {[ 5 := sample_reg ]}) = Ret (Some (p, idx)) s'
    /\ allocated (sample_fs {[ 5 := sample_reg ]}) idx = false.
Proof.
  destruct (alloc_block_inode_grows (sample_fs {[ 5 := sample_reg ]}) (InCopy 5) sample_reg 1 None sample_growable
              (room_le _ 3 1000 (sample_fs_room _) ltac:(lia)) ltac:(by vm_compute))
    as (p & idx & s' & bl & H & _ & _ & Hf & _).
  exists p, idx, s'. auto.
Defined.
