(* ===== verification/FileWrite.v ===== *)
(** * Writing a file: FileStatus::write of include/operation.h

    [wstep] relates the states before and after a part of [write]: which
    bytes of the file were written, that all other bytes are as they were or
    zero in new blocks, and that no other block, inode or handle is touched.
    The parts of the code are lemmas that end in a [wstep]; the loops compose
    them. *)

From S2P Require Import Prelude Layout Disk Bitmap PathName Block BlockGroup BlockCache DentryCache.
From S2P Require Import FileSystem FileStatus OpenFiles FsBlocks FileData FsPointers FsAlloc FileBlocks FileGrow.

(** ** The bytes of a file *)

Definition fbyte (s : FS) (ind : ext2_inode) (k : Z) : option byte :=
  fview s (blk s ind (k / BLOCK_SIZE)) !! Z.to_nat (k mod BLOCK_SIZE).

(** [bs] laid over [old] at position [off]. *)
Definition overlay (off : Z) (bs : list byte) (old : Z -> option byte) (k : Z) : option byte :=
  if (off <=? k) && (k <? off + Z.of_nat (length bs)) then bs !! Z.to_nat (k - off) else old k.

(** The bytes of a file of [n] blocks, and zeros behind them. *)
Definition padded (s : FS) (ind : ext2_inode) (n k : Z) : option byte :=
  if k <? BLOCK_SIZE * n then fbyte s ind k else Some Byte.x00.

Lemma overlay_nil off old k : overlay off [] old k = old k.
Proof. unfold overlay. cbn [length]. rewrite Z.add_0_r.
  destruct (Z.leb_spec off k), (Z.ltb_spec k off); cbn [andb]; (done || lia). Qed.

Lemma overlay_ext off bs old old' k : old k = old' k -> overlay off bs old k = overlay off bs old' k.
Proof. intros H. unfold overlay. by rewrite H. Qed.

Lemma overlay_app off bs1 bs2 old k :
  overlay off (bs1 ++ bs2) old k = overlay (off + Z.of_nat (length bs1)) bs2 (overlay off bs1 old) k.
Proof.
  unfold overlay. rewrite length_app, Nat2Z.inj_add.
  destruct (Z.leb_spec off k), (Z.ltb_spec k (off + (Z.of_nat (length bs1) + Z.of_nat (length bs2)))),
    (Z.leb_spec (off + Z.of_nat (length bs1)) k),
    (Z.ltb_spec k (off + Z.of_nat (length bs1) + Z.of_nat (length bs2))),
    (Z.ltb_spec k (off + Z.of_nat (length bs1))); cbn; try done; try lia.
  - rewrite lookup_app_r by lia. f_equal. lia.
  - rewrite lookup_app_l by lia. done.
Qed.

(** ** Growable inodes and the store *)

Lemma keeps_le s ind s' ind' m n : keeps_tree s ind s' ind' n -> m <= n -> keeps_tree s ind s' ind' m.
Proof.
  intros K Hm. assert (Hd : (m - 13) / 1024 <= (n - 13) / 1024) by (apply Z.div_le_mono; lia).
  constructor; intros; [apply (kt_direct _ _ _ _ _ K)|apply (kt_12 _ _ _ _ _ K)|apply (kt_13 _ _ _ _ _ K)
    |apply (kt_single _ _ _ _ _ K)|apply (kt_first _ _ _ _ _ K)|apply (kt_second _ _ _ _ _ K)]; lia.
Qed.

(** A change of the store that touches data blocks of the file at most. *)
Lemma growable_store s st ip ind n :
  growable s ip ind n -> fs_inv (with_store st s) -> size_ (st_cache st) = size_ (st_cache (fs_store s)) ->
  (forall j, fs_valid j -> j ∉ datas s ind n -> fview (with_store st s) j = fview s j) ->
  growable (with_store st s) ip ind n /\ keeps_tree s ind (with_store st s) ind n.
Proof.
  intros B Hi Hs Hv. pose proof (gb_file _ _ _ _ B) as Hf. pose proof (gb_wf _ _ _ _ B) as Hwf.
  assert (Hm : forall b, b ∈ metas s ind n -> fview (with_store st s) b = fview s b).
  { intros b Hb. apply Hv.
    - apply (allocated_valid s); [apply (wf_inv _ Hwf)|by apply (metas_used s ind n)].
    - intros Hd. apply elem_of_datas in Hd as (m & Hm & ->). by apply (datas_metas s ind n m (blk s ind m)). }
  split; [|by apply keeps_views].
  constructor; [by apply fs_wf_store| | | |apply (gb_mode _ _ _ _ B)|apply (gb_blocks _ _ _ _ B)|].
  - apply (free_zero_view s); [apply (wf_inv _ Hwf)|done| |apply (gb_zero _ _ _ _ B)].
    intros j Hj Ha. rewrite allocated_with_store in Ha. split; [done|]. apply Hv; [done|]. intros Hd.
    apply elem_of_datas in Hd as (m & Hm0 & ->). rewrite (datas_used _ _ _ _ Hf Hm0) in Ha. done.
  - cbn. rewrite Hs. apply (gb_size _ _ _ _ B).
  - apply (cell_meta s); [apply same_meta_store|apply (gb_cell _ _ _ _ B)].
  - apply (file_ok_ext s); [done|done|]. intros b _. by rewrite allocated_with_store.
Qed.

(** ** States of a write *)

Definition attrs (ind : ext2_inode) : ext2_inode := set_i_size 0 (set_i_blocks 0 (set_i_block [] ind)).

Definition tree (s : FS) (ind : ext2_inode) (n : Z) : list Z := metas s ind n ++ datas s ind n.

(** [fd] is a handle on a file of [n] blocks. *)
Record wstate (s : OpSt) (fd : positive) (f : FileStatus) (ind : ext2_inode) (n : Z) : Prop := {
  ws_file : op_files s !! fd = Some f;
  ws_grow : growable (op_fs s) (InCopy (f_inode_id f)) ind n;
  ws_fits : i_size ind <= BLOCK_SIZE * n
}.

Record wstep (fd : positive) (id : Z) (ind ind' : ext2_inode) (n n' off : Z) (bs : list byte) (s s' : OpSt) : Prop := {
  st_le : n <= n';
  st_tree : keeps_tree (op_fs s) ind (op_fs s') ind' n;
  st_used : forall j, allocated (op_fs s) j = true -> allocated (op_fs s') j = true;
  st_new : forall b, b ∈ tree (op_fs s') ind' n' -> b ∈ tree (op_fs s) ind n \/ allocated (op_fs s) b = false;
  st_other : forall j, allocated (op_fs s) j = true -> (j ∉ tree (op_fs s) ind n) ->
    fview (op_fs s') j = fview (op_fs s) j;
  st_cells : forall ip v, ip <> InCopy id -> cell (op_fs s) ip v -> cell (op_fs s') ip v;
  st_in : bs = [] \/ off + Z.of_nat (length bs) <= BLOCK_SIZE * n';
  st_bytes : forall k, 0 <= k < BLOCK_SIZE * n' ->
    fbyte (op_fs s') ind' k = overlay off bs (padded (op_fs s) ind n) k;
  st_room : forall k, room (op_fs s) (k + 3 * (n' - n)) -> room (op_fs s') k;
  st_meta : keeps_meta (op_fs s) (op_fs s');
  st_attrs : attrs ind' = attrs ind;
  st_caches : st_ s' = st_ s;
  st_handles : forall q, q <> fd -> op_files s' !! q = op_files s !! q
}.

#[global] Arguments st_le {_ _ _ _ _ _ _ _ _ _}.
#[global] Arguments st_tree {_ _ _ _ _ _ _ _ _ _}.
#[global] Arguments st_used {_ _ _ _ _ _ _ _ _ _}.
#[global] Arguments st_new {_ _ _ _ _ _ _ _ _ _}.
#[global] Arguments st_other {_ _ _ _ _ _ _ _ _ _}.
#[global] Arguments st_cells {_ _ _ _ _ _ _ _ _ _}.
#[global] Arguments st_in {_ _ _ _ _ _ _ _ _ _}.
#[global] Arguments st_bytes {_ _ _ _ _ _ _ _ _ _}.
#[global] Arguments st_room {_ _ _ _ _ _ _ _ _ _}.
#[global] Arguments st_meta {_ _ _ _ _ _ _ _ _ _}.
#[global] Arguments st_attrs {_ _ _ _ _ _ _ _ _ _}.
#[global] Arguments st_caches {_ _ _ _ _ _ _ _ _ _}.
#[global] Arguments st_handles {_ _ _ _ _ _ _ _ _ _}.

Lemma wstep_trans fd id ind1 ind2 ind3 n1 n2 n3 off bs1 bs2 s1 s2 s3 :
  wstep fd id ind1 ind2 n1 n2 off bs1 s1 s2 ->
  wstep fd id ind2 ind3 n2 n3 (off + Z.of_nat (length bs1)) bs2 s2 s3 ->
  wstep fd id ind1 ind3 n1 n3 off (bs1 ++ bs2) s1 s3.
Proof.
  intros A B. pose proof (st_le A) as L1. pose proof (st_le B) as L2.
  constructor.
  - lia.
  - apply (keeps_trans _ _ (op_fs s2) ind2); [apply (st_tree A)|]. apply (keeps_le _ _ _ _ _ n2); [apply (st_tree B)|done].
  - intros j Hj. by apply (st_used B), (st_used A).
  - intros b Hb. apply (st_new B) in Hb as [Hb|Hb].
    + by apply (st_new A).
    + right. destruct (allocated (op_fs s1) b) eqn:E; [|done]. by rewrite (st_used A) in Hb.
  - intros j Hj Hnj. rewrite (st_other B); [by apply (st_other A)| |].
    + by apply (st_used A).
    + intros Hin. apply (st_new A) in Hin as [Hin|Hin]; [done|congruence].
  - intros ip v Hip Hc. by apply (st_cells B), (st_cells A).
  - rewrite length_app, Nat2Z.inj_add. destruct (st_in A) as [->|HA], (st_in B) as [->|HB];
      cbn [length app] in *; change BLOCK_SIZE with 4096 in *; [by left|right; lia|right; lia|right; lia].
  - intros k Hk. rewrite (st_bytes B) by done. rewrite overlay_app. apply overlay_ext.
    unfold padded at 1. destruct (Z.ltb_spec k (BLOCK_SIZE * n2)) as [Hlt|Hge].
    + apply (st_bytes A). lia.
    + unfold overlay, padded. change BLOCK_SIZE with 4096 in *.
      rewrite (proj2 (Z.ltb_ge k (4096 * n1))) by lia.
      destruct (st_in A) as [->|HA]; change BLOCK_SIZE with 4096 in *.
      * symmetry. by apply (overlay_nil off (fun _ => Some Byte.x00)).
      * rewrite (proj2 (Z.ltb_ge k (off + _))) by lia. by rewrite andb_false_r.
  - intros k Hk. apply (st_room B), (st_room A). by replace (k + 3 * (n3 - n2) + 3 * (n2 - n1)) with (k + 3 * (n3 - n1)) by lia.
  - etransitivity; [apply (st_meta A)|apply (st_meta B)].
  - by rewrite (st_attrs B), (st_attrs A).
  - by rewrite (st_caches B), (st_caches A).
  - intros q Hq. by rewrite (st_handles B), (st_handles A).
Qed.

Lemma wstate_handle s fd f ind n : wstate s fd f ind n -> handle (op_fs s) ind fd s f.
Proof.
  intros W. pose proof (wf_inv _ (gb_wf _ _ _ _ (ws_grow _ _ _ _ _ W))) as Hinv.
  constructor; [apply W|apply (gb_cell _ _ _ _ (ws_grow _ _ _ _ _ W))|by apply same_blocks_refl|done].
Qed.

(** The position of a byte in a file of [n] blocks. *)
Lemma byte_pos k n : 0 <= k < BLOCK_SIZE * n ->
  0 <= k / BLOCK_SIZE < n /\ 0 <= k mod BLOCK_SIZE < BLOCK_SIZE.
Proof. change BLOCK_SIZE with 4096. intros H. Z.div_mod_to_equations. lia. Qed.

(** *** A step that changes nothing but what is cached *)

Lemma room_groups s s' k : fs_groups s' = fs_groups s -> room s k -> room s' k.
Proof. intros E (gi & g & Hg & Hk). exists gi, g. by rewrite E. Qed.

Lemma wstep_same fd id ind n off s s' :
  growable (op_fs s) (InCopy id) ind n -> same_blocks (op_fs s) (op_fs s') ->
  st_ s' = st_ s -> (forall q, q <> fd -> op_files s' !! q = op_files s !! q) ->
  growable (op_fs s') (InCopy id) ind n /\ wstep fd id ind ind n n off [] s s'.
Proof.
  intros B [Hi (st & Est & Hsz & Hv)] Hst Hq. pose proof (gb_file _ _ _ _ B) as Hf.
  pose proof (wf_inv _ (gb_wf _ _ _ _ B)) as Hinv. rewrite Est in Hi, Hv.
  destruct (growable_store (op_fs s) st (InCopy id) ind n B Hi Hsz) as [B' K]; [auto|].
  rewrite <- Est in *. split; [done|]. pose proof (fo_range _ _ _ Hf) as Hr.
  assert (Ha : forall j, allocated (op_fs s') j = allocated (op_fs s) j) by (intros j; by rewrite Est).
  assert (Hbl : forall m, 0 <= m < n -> blk (op_fs s') ind m = blk (op_fs s) ind m).
  { intros m Hm. apply (keeps_blk _ _ _ _ n); [done|lia|done]. }
  constructor; [lia|done| | | | |by left| | |rewrite Est; by apply store_meta|done|done|done].
  - intros j. by rewrite Ha.
  - intros b Hb. left. unfold tree in *. rewrite (keeps_metas _ _ _ _ _ K), (keeps_datas _ _ _ _ _ K) in Hb by lia. done.
  - intros j Hj _. apply Hv, (allocated_valid (op_fs s)); done.
  - intros ip v _ Hc. rewrite Est. apply (cell_meta (op_fs s)); [apply same_meta_store|done].
  - intros k Hk. destruct (byte_pos k n Hk) as [Hm _]. rewrite overlay_nil. unfold padded, fbyte.
    rewrite (proj2 (Z.ltb_lt _ _)), Hbl by lia.
    rewrite Hv; [done|]. apply (allocated_valid (op_fs s)); [done|]. by apply (datas_used _ ind n).
  - intros k Hk. apply (room_groups (op_fs s)); [by rewrite Est|]. by replace k with (k + 3 * (n - n)) by lia.
Qed.

(** A move of the cursor. *)
Lemma wstep_move fd op s f f' ind n off r s' :
  wstate s fd f ind n -> move fd op s = Ret r s' -> handle (op_fs s) ind fd s' f' ->
  f_inode_id f' = f_inode_id f -> cursor_ok fs_word (op_fs s) ind f' ->
  wstate s' fd f' ind n /\ wstep fd (f_inode_id f) ind ind n n off [] s s' /\ cursor_ok fs_word (op_fs s') ind f'.
Proof.
  intros W Hm H Hid Hc. destruct (move_frame _ _ _ _ _ Hm) as [Hst Hq].
  destruct (wstep_same fd (f_inode_id f) ind n off s s' (ws_grow _ _ _ _ _ W) (h_same _ _ _ _ _ H) Hst Hq) as [B S].
  split; [|split; [done|by apply (cursor_ok_same _ _ _ _ _ H)]].
  constructor; [apply H|by rewrite Hid|apply (ws_fits _ _ _ _ _ W)].
Qed.

(** *** The cursor while the file grows *)

Lemma cursor_tree s ind s' ind' n f :
  file_ok s ind n -> file_ok s' ind' n -> keeps_tree s ind s' ind' n -> block_id_in_file_ f < n ->
  cursor_ok fs_word s ind f -> cursor_ok fs_word s' ind' f.
Proof.
  intros H H' K Hlt [Hp Hb Hl]. set (m := block_id_in_file_ f) in *. pose proof (fo_range _ _ _ H) as Hr.
  unfold MAX_BLOCKS in Hr. assert (Hm : forall b, b ∈ metas s ind n -> allocated s b = true) by (intros b; by apply metas_used).
  assert (Hm' : forall b, b ∈ metas s ind n -> allocated s' b = true).
  { intros b. rewrite <- (keeps_metas _ _ _ _ _ K). by apply metas_used. }
  constructor; [done| |].
  - fold m. rewrite (file_ok_resolve s ind n m H) in Hb by lia. rewrite (file_ok_resolve s' ind' n m H') by lia.
    rewrite (keeps_blk _ _ _ _ _ _ K) by (unfold MAX_BLOCKS; lia). exact Hb.
  - unfold levels_ok in *. fold m in Hl |- *.
    assert (m < 12 \/ 12 <= m < 1036 \/ 1036 <= m) as [Hc|[Hc|Hc]] by lia.
    + by rewrite slot_direct by (rewrite IB11; lia).
    + rewrite slot_single in * by (rewrite IB11, IB12; lia). by rewrite (kt_12 _ _ _ _ _ K) by lia.
    + rewrite slot_double in * by (rewrite IB12, IB13; lia). destruct Hl as [H0 H1].
      rewrite IB12, W1 in *. set (a := (m - 1035 - 1) / 1024) in *.
      assert (Ha : 0 <= a < 1024 /\ 0 <= a < (n - 13) / 1024) by (unfold a; Z.div_mod_to_equations; lia).
      assert (Hd : i_block_at 13 ind ∈ metas s ind n) by (apply elem_of_metas; right; left; lia).
      rewrite H0, fs_word_used in H1 by (auto || rewrite W1; lia).
      rewrite H0, (kt_13 _ _ _ _ _ K) by lia. split; [done|].
      rewrite fs_word_used by (auto || rewrite W1; lia). by rewrite (kt_first _ _ _ _ _ K) by lia.
Qed.

(** *** Growing *)

Lemma wstep_alloc s fd f ind n off :
  wstate s fd f ind n -> room (op_fs s) 3 -> n < MAX_BLOCKS ->
  exists s' ind', file_alloc fd s = Ret true s' /\ wstate s' fd f ind' (n + 1)
    /\ wstep fd (f_inode_id f) ind ind' n (n + 1) off [] s s' /\ i_size ind' = i_size ind.
Proof.
  intros W Hr Hn. pose proof (ws_grow _ _ _ _ _ W) as B. pose proof (gb_file _ _ _ _ B) as Hf.
  pose proof (fo_range _ _ _ Hf) as Hr0. set (ip := InCopy (f_inode_id f)) in *.
  destruct (grow_ok (op_fs s) ip ind n None B Hr Hn) as (p & idx & fs' & ind' & H & G).
  pose proof (grown_growable _ _ _ _ _ _ _ _ B G) as B'. pose proof (gw_evolve _ _ _ _ _ _ _ _ G) as E.
  destruct (gw_inode _ _ _ _ _ _ _ _ G) as [bl Hind]. pose proof (gw_tree _ _ _ _ _ _ _ _ G) as K.
  assert (Hsz : i_size ind' = i_size ind) by (rewrite Hind; done).
  exists (mk_op fs' (st_ s) (op_files s) (op_fresh s)), ind'. split; [|split; [|split; [|done]]].
  - unfold file_alloc. mstep (file_get_eq _ _ _ _ _ (wstate_handle _ _ _ _ _ W)).
    rewrite (bind_ret _ _ _ (Some (p, idx)) (mk_op fs' (st_ s) (op_files s) (op_fresh s))); [done|].
    unfold on_fs, zoom. fold ip. by rewrite H.
  - constructor; [apply W|done|]. rewrite Hsz. pose proof (ws_fits _ _ _ _ _ W). change BLOCK_SIZE with 4096 in *. lia.
  - constructor; cbn [op_fs st_ op_files]; [lia|done|apply E| | | |by left| | |apply (evolve_meta _ _ _ _ _ E)| |done|done].
    + intros b Hb. unfold tree in *. rewrite metas_step, datas_step, (keeps_metas _ _ _ _ _ K), (keeps_datas _ _ _ _ _ K) in Hb by lia.
      rewrite !elem_of_app in *. destruct Hb as [[Hb|Hb]|[Hb|Hb]]; [by auto| |by auto|].
      * right. by apply (gw_fresh_metas _ _ _ _ _ _ _ _ G).
      * right. apply list_elem_of_singleton in Hb as ->. rewrite (gw_last _ _ _ _ _ _ _ _ G). apply (gw_fresh _ _ _ _ _ _ _ _ G).
    + intros j Hj Hnj. apply (ev_view _ _ _ _ _ E). split; [done|]. unfold tree in Hnj. set_solver.
    + intros ip2 v Hip. by apply E.
    + intros k Hk. destruct (byte_pos k (n + 1) Hk) as [Hm Hmod]. rewrite overlay_nil. unfold padded, fbyte.
      destruct (Z.ltb_spec k (BLOCK_SIZE * n)) as [Hlt|Hge].
      * destruct (byte_pos k n ltac:(lia)) as [Hm' _]. rewrite (gw_before _ _ _ _ _ _ _ _ G) by done.
        rewrite (ev_view _ _ _ _ _ E); [done|]. split; [by apply (datas_used _ ind n)|].
        intros Hin. by apply (datas_metas _ ind n (k / BLOCK_SIZE) _ Hf Hm' Hin).
      * assert (k / BLOCK_SIZE = n) as -> by (change BLOCK_SIZE with 4096 in *; Z.div_mod_to_equations; lia).
        rewrite (gw_last _ _ _ _ _ _ _ _ G), (gw_zero _ _ _ _ _ _ _ _ G). unfold zeros.
        apply lookup_replicate. split; [done|]. lia.
    + intros k Hk. apply (ev_room _ _ _ _ _ E). by replace (k + Z.of_nat 3) with (k + 3 * (n + 1 - n)) by lia.
    + by rewrite Hind.
Qed.

(** *** Writing to the block under the cursor *)

Lemma lookup_splice off bs (d : list byte) i :
  0 <= off <= Z.of_nat (length d) ->
  splice off bs d !! i
  = if (off <=? Z.of_nat i) && (Z.of_nat i <? off + Z.of_nat (length bs))
    then bs !! (i - Z.to_nat off)%nat else d !! i.
Proof.
  intros Ho. unfold splice. assert (HL : length (take (Z.to_nat off) d) = Z.to_nat off) by (rewrite length_take; lia).
  destruct (Z.leb_spec off (Z.of_nat i)) as [H1|H1]; cbn [andb].
  - rewrite lookup_app_r by lia. rewrite HL. destruct (Z.ltb_spec (Z.of_nat i) (off + Z.of_nat (length bs))) as [H2|H2].
    + by rewrite lookup_app_l by lia.
    + rewrite lookup_app_r, lookup_drop by lia. f_equal. lia.
  - rewrite lookup_app_l, lookup_take_lt by lia. done.
Qed.

Lemma overlay_block m o bs old k (d : list byte) :
  0 <= o -> o + Z.of_nat (length bs) <= BLOCK_SIZE -> length d = Z.to_nat BLOCK_SIZE ->
  0 <= k -> k / BLOCK_SIZE = m -> old k = d !! Z.to_nat (k mod BLOCK_SIZE) ->
  splice o bs d !! Z.to_nat (k mod BLOCK_SIZE) = overlay (BLOCK_SIZE * m + o) bs old k.
Proof.
  change BLOCK_SIZE with 4096. intros Ho Hl HL Hk Hm Hold. rewrite lookup_splice by (rewrite ?HL; lia).
  assert (E : k mod 4096 = k - 4096 * m) by (Z.div_mod_to_equations; lia).
  assert (Hr : 0 <= k mod 4096) by (apply Z.mod_pos_bound; lia). unfold overlay. rewrite Z2Nat.id by done. rewrite Hold.
  destruct (Z.leb_spec o (k mod 4096)), (Z.leb_spec (4096 * m + o) k); cbn [andb]; try lia; try done.
  destruct (Z.ltb_spec (k mod 4096) (o + Z.of_nat (length bs))),
    (Z.ltb_spec k (4096 * m + o + Z.of_nat (length bs))); try lia; try done.
  f_equal. lia.
Qed.

Lemma wstep_write s fd f ind n m o buf csz :
  wstate s fd f ind n -> cursor_ok fs_word (op_fs s) ind f -> block_id_in_file_ f = m -> 0 <= m < n ->
  0 <= o -> 0 <= csz -> o + csz <= BLOCK_SIZE -> csz <= Z.of_nat (length buf) ->
  exists s', file_block fd true o buf csz s = Ret (Some buf) s' /\ wstate s' fd f ind n
    /\ wstep fd (f_inode_id f) ind ind n n (BLOCK_SIZE * m + o) (take (Z.to_nat csz) buf) s s'.
Proof.
  intros W Hc Hpos Hm Ho Hcs Hoc Hbuf. pose proof (ws_grow _ _ _ _ _ W) as B. pose proof (gb_file _ _ _ _ B) as Hf.
  pose proof (wf_inv _ (gb_wf _ _ _ _ B)) as Hinv. pose proof (fo_range _ _ _ Hf) as Hr0.
  set (bs := take (Z.to_nat csz) buf).
  assert (HL : Z.of_nat (length bs) = csz) by (unfold bs; rewrite length_take; lia).
  assert (Hv : block_id_ f = blk (op_fs s) ind m).
  { pose proof (cur_block _ _ _ _ Hc) as Hb. rewrite Hpos, (file_ok_resolve _ _ n) in Hb by done. by injection Hb. }
  pose proof (datas_used _ _ _ _ Hf Hm) as Ha. set (v := blk (op_fs s) ind m) in *.
  destruct (get_block_copy_ok (op_fs s) v true o buf csz Hinv Ha Ho Hcs Hoc (fun _ => Hbuf))
    as (p & st & H & Hi & _ & _ & Hsz & Hview). set (fs' := with_store st (op_fs s)) in *.
  destruct (growable_store (op_fs s) st (InCopy (f_inode_id f)) ind n B Hi Hsz) as [B' K].
  { intros j Hj Hnd. rewrite Hview by done. rewrite andb_true_r. destruct (Z.eqb_spec j v) as [->|]; [|done].
    destruct Hnd. apply elem_of_datas. by exists m. }
  fold fs' in B', K.
  exists (mk_op fs' (st_ s) (op_files s) (op_fresh s)). split; [|split].
  - unfold file_block. mstep (file_get_eq _ _ _ _ _ (wstate_handle _ _ _ _ _ W)). rewrite Hv.
    rewrite (bind_ret _ _ _ (Some (p, buf)) (mk_op fs' (st_ s) (op_files s) (op_fresh s))); [done|].
    unfold on_fs, zoom. by rewrite H.
  - constructor; [apply W|done|apply (ws_fits _ _ _ _ _ W)].
  - constructor; cbn [op_fs st_ op_files]; [lia|done|done| | | |right; rewrite HL; change BLOCK_SIZE with 4096 in *; lia| | |by apply store_meta|done|done|done].
    + intros b Hb. left. unfold tree in *. by rewrite (keeps_metas _ _ _ _ _ K), (keeps_datas _ _ _ _ _ K) in Hb by lia.
    + intros j Hj Hnj. rewrite Hview by by apply (allocated_valid (op_fs s)).
      destruct (Z.eqb_spec j v) as [->|]; [|done]. destruct Hnj. apply elem_of_app. right. apply elem_of_datas. by exists m.
    + intros ip v0 _ Hc0. apply (cell_meta (op_fs s)); [apply same_meta_store|done].
    + intros k Hk. destruct (byte_pos k n Hk) as [Hkm Hmod]. unfold fbyte.
      rewrite (keeps_blk _ _ _ _ _ _ K) by lia.
      rewrite Hview by (apply (allocated_valid (op_fs s)); [done|by apply (datas_used _ ind n)]).
      rewrite andb_true_r. destruct (Z.eqb_spec (blk (op_fs s) ind (k / BLOCK_SIZE)) v) as [E|E].
      * apply (blk_inj _ _ _ _ _ Hf Hkm Hm) in E.
        apply (overlay_block m); [lia|lia|by apply fview_length|lia|done|].
        unfold padded, fbyte. rewrite (proj2 (Z.ltb_lt _ _)) by lia. by rewrite E.
      * unfold overlay, padded. rewrite (proj2 (Z.ltb_lt k (BLOCK_SIZE * n))) by lia. rewrite HL.
        assert (k / BLOCK_SIZE <> m) as Hne by (intros Em; by rewrite Em in E).
        destruct (Z.leb_spec (BLOCK_SIZE * m + o) k), (Z.ltb_spec k (BLOCK_SIZE * m + o + csz)); cbn [andb]; try done.
        destruct Hne. change BLOCK_SIZE with 4096 in *. Z.div_mod_to_equations. lia.
    + intros k Hk. apply (room_groups (op_fs s)); [done|]. by replace k with (k + 3 * (n - n)) by lia.
Qed.

(** *** The size *)

Lemma wstep_size s fd f ind n off x :
  wstate s fd f ind n -> 0 <= x <= BLOCK_SIZE * n -> x < 2 ^ 32 ->
  exists s', extend_size fd x s = Ret tt s' /\ wstate s' fd f (set_i_size (Z.max (i_size ind) x) ind) n
    /\ wstep fd (f_inode_id f) ind (set_i_size (Z.max (i_size ind) x) ind) n n off [] s s'.
Proof.
  intros W Hx Hx32. pose proof (ws_grow _ _ _ _ _ W) as B. pose proof (gb_file _ _ _ _ B) as Hf.
  pose proof (gb_cell _ _ _ _ B) as Hc. set (ip := InCopy (f_inode_id f)) in *. pose proof (fo_range _ _ _ Hf) as Hr0.
  set (g := fun i => set_i_size (u32 (Z.max (i_size i) x)) i).
  destruct (cell_update (op_fs s) ip ind g Hc) as (fs' & Hu & S); [apply inode_wf_set_i_size, Hc|].
  assert (Hs32 : 0 <= i_size ind < 2 ^ 32) by (apply i_size_range, Hc).
  set (ind' := set_i_size (Z.max (i_size ind) x) ind).
  assert (Hg : g ind = ind') by (unfold g, ind'; rewrite u32_small by lia; done). rewrite Hg in S.
  pose proof (sd_only _ _ _ _ S) as O.
  assert (E : evolve ip (fun _ => True) 0 (op_fs s) fs') by (apply (evolve_cell _ _ _ _ ind'); [apply B|apply B|done]).
  assert (K : keeps_tree (op_fs s) ind fs' ind' n).
  { apply (keeps_trans _ _ fs' ind); [|by apply keeps_inode]. apply keeps_views. intros b _. by apply inode_only_view. }
  assert (Hsz : i_size ind' = Z.max (i_size ind) x) by (cbn; apply u32_small; lia).
  exists (mk_op fs' (st_ s) (op_files s) (op_fresh s)). split; [|split].
  - unfold extend_size, file_inode_update. mstep (file_get_eq _ _ _ _ _ (wstate_handle _ _ _ _ _ W)).
    unfold on_fs, zoom. fold ip g. by rewrite Hu.
  - constructor; [apply W| |rewrite Hsz; pose proof (ws_fits _ _ _ _ _ W); lia].
    constructor; cbn [op_fs]; [apply E|apply E|rewrite (ev_size _ _ _ _ _ E); apply (gb_size _ _ _ _ B)|apply S
      |apply (gb_mode _ _ _ _ B)|apply (gb_blocks _ _ _ _ B)|].
    apply (file_ok_inode _ ind); [done|]. apply (file_ok_ext (op_fs s)); [done| |].
    + intros b _. by apply inode_only_view.
    + intros b _. by rewrite (inode_only_allocated (op_fs s) fs').
  - constructor; cbn [op_fs st_ op_files]; [lia|done|apply E| | |apply S|by left| | |apply (evolve_meta _ _ _ _ _ E)|done|done|done].
    + intros b Hb. left. unfold tree in *. by rewrite (keeps_metas _ _ _ _ _ K), (keeps_datas _ _ _ _ _ K) in Hb by lia.
    + intros j _ _. by apply (ev_view _ _ _ _ _ E).
    + intros k Hk. destruct (byte_pos k n Hk) as [Hkm Hmod]. rewrite overlay_nil. unfold padded, fbyte.
      rewrite (keeps_blk _ _ _ _ _ _ K), (proj2 (Z.ltb_lt _ _)) by lia. by rewrite (ev_view _ _ _ _ _ E).
    + intros k Hk. apply (ev_room _ _ _ _ _ E). by replace (k + Z.of_nat 0) with (k + 3 * (n - n)) by lia.
Qed.

(** ** The loops *)

(** A handle whose cursor is at block [m] of the file. *)
Record at_block (s : OpSt) (fd : positive) (f : FileStatus) (ind : ext2_inode) (n m : Z) : Prop := {
  ab_state : wstate s fd f ind n;
  ab_cursor : cursor_ok fs_word (op_fs s) ind f;
  ab_pos : block_id_in_file_ f = m;
  ab_in : 0 <= m < n
}.

Lemma at_block_step s fd f ind n m s' ind' n' off bs :
  at_block s fd f ind n m -> wstate s' fd f ind' n' ->
  wstep fd (f_inode_id f) ind ind' n n' off bs s s' -> at_block s' fd f ind' n' m.
Proof.
  intros A W S. pose proof (ab_in _ _ _ _ _ _ A) as Hm. pose proof (st_le S) as Hle.
  constructor; [done| |apply A|lia].
  apply (cursor_tree (op_fs s) ind (op_fs s') ind' n).
  - apply (gb_file _ _ _ _ (ws_grow _ _ _ _ _ (ab_state _ _ _ _ _ _ A))).
  - apply (file_ok_le _ _ n n'); [|lia|done]. apply (gb_file _ _ _ _ (ws_grow _ _ _ _ _ W)).
  - apply (st_tree S).
  - rewrite (ab_pos _ _ _ _ _ _ A). lia.
  - apply (ab_cursor _ _ _ _ _ _ A).
Qed.

(** [next_block] *)
Lemma wstep_next s fd f ind n m off :
  at_block s fd f ind n m -> m + 1 < n ->
  exists s' f', move fd next_block s = Ret 0 s' /\ at_block s' fd f' ind n (m + 1)
    /\ f_inode_id f' = f_inode_id f /\ wstep fd (f_inode_id f) ind ind n n off [] s s'.
Proof.
  intros [W Hc Hp Hm] Hn. pose proof (gb_file _ _ _ _ (ws_grow _ _ _ _ _ W)) as Hf.
  pose proof (fo_range _ _ _ Hf) as Hr. unfold MAX_BLOCKS in Hr.
  destruct (next_arrives (op_fs s) ind fd s f (blk (op_fs s) ind (m + 1)) (wstate_handle _ _ _ _ _ W) Hc)
    as (s' & f' & H & Hh & Hc' & Hp' & _ & Hid).
  { rewrite IB14. lia. }
  { rewrite Hp. apply (file_ok_resolve _ _ n); [done|lia]. }
  destruct (wstep_move fd next_block s f f' ind n off 0 s' W H Hh Hid Hc') as (W' & S & Hc2).
  exists s', f'. split; [done|]. split; [|done]. constructor; [done|done|by rewrite Hp', Hp|lia].
Qed.

(** [seek] *)
Lemma wstep_seek s fd f ind n m m' off :
  at_block s fd f ind n m -> 0 <= m' < n ->
  exists s' f', move fd (fun inode => seek inode m') s = Ret 0 s' /\ at_block s' fd f' ind n m'
    /\ f_inode_id f' = f_inode_id f /\ wstep fd (f_inode_id f) ind ind n n off [] s s'.
Proof.
  intros [W Hc Hp Hm] Hn. pose proof (gb_file _ _ _ _ (ws_grow _ _ _ _ _ W)) as Hf.
  pose proof (fo_range _ _ _ Hf) as Hr. unfold MAX_BLOCKS in Hr.
  destruct (seek_arrives (op_fs s) ind fd s f m' (blk (op_fs s) ind m') (wstate_handle _ _ _ _ _ W) Hc)
    as (s' & f' & H & Hh & Hc' & Hp' & _ & Hid).
  { rewrite IB13. lia. }
  { by apply (file_ok_resolve _ _ n). }
  destruct (wstep_move fd _ s f f' ind n off 0 s' W H Hh Hid Hc') as (W' & S & Hc2).
  exists s', f'. split; [done|]. split; [|done]. by constructor.
Qed.

(** [c] more blocks can be taken. *)
Definition budget (s : OpSt) (n c : Z) : Prop := room (op_fs s) (3 * c) /\ n + c <= MAX_BLOCKS.

Lemma budget_step fd id ind ind' n n' off bs s s' c :
  wstep fd id ind ind' n n' off bs s s' -> budget s n c -> n' <= n + c -> budget s' n' (c - (n' - n)).
Proof.
  intros S [Hr Hm] Hn. split; [|lia]. apply (st_room S). apply (room_le _ _ _ Hr). lia.
Qed.

(** [if (file_size() <= offset) alloc_block(...)] *)
Lemma wstep_maybe_alloc s fd f ind n m c (b : bool) off :
  at_block s fd f ind n m -> budget s n c -> (b = true -> 1 <= c) ->
  exists s' ind' n', (if b then file_alloc fd else mret true) s = Ret true s' /\ at_block s' fd f ind' n' m
    /\ wstep fd (f_inode_id f) ind ind' n n' off [] s s' /\ i_size ind' = i_size ind
    /\ n' = n + (if b then 1 else 0).
Proof.
  intros A [Hr Hmax] Hb. pose proof (ab_state _ _ _ _ _ _ A) as W. destruct b.
  - destruct (wstep_alloc s fd f ind n off W) as (s' & ind' & H & W' & S & Hsz);
      [apply (room_le _ _ _ Hr); lia|lia|].
    exists s', ind', (n + 1). split; [done|]. split; [by apply (at_block_step s fd f ind n m _ _ _ off [])|done].
  - exists s, ind, n. split; [done|]. split; [done|]. split; [|split; [done|lia]].
    pose proof (gb_wf _ _ _ _ (ws_grow _ _ _ _ _ W)) as Hwf.
    apply (wstep_same fd (f_inode_id f) ind n off s s); [apply W|apply same_blocks_refl, (wf_inv _ Hwf)|done|done].
Qed.

Lemma wstep_nil_trans fd id ind1 ind2 ind3 n1 n2 n3 off bs s1 s2 s3 :
  wstep fd id ind1 ind2 n1 n2 off [] s1 s2 -> wstep fd id ind2 ind3 n2 n3 off bs s2 s3 ->
  wstep fd id ind1 ind3 n1 n3 off bs s1 s3.
Proof. intros A B. apply (wstep_trans _ _ _ ind2 _ _ n2 _ _ [] bs _ s2); [done|]. cbn [length]. by rewrite Z.add_0_r. Qed.

(** Writing to the block under the cursor and counting it in the size. *)
Lemma wstep_put s fd f ind n m o buf csz :
  at_block s fd f ind n m -> 0 <= o -> 0 <= csz -> o + csz <= BLOCK_SIZE -> csz <= Z.of_nat (length buf) ->
  BLOCK_SIZE * m + o + csz < 2 ^ 32 ->
  exists s1 s2, file_block fd true o buf csz s = Ret (Some buf) s1
    /\ extend_size fd (BLOCK_SIZE * m + o + csz) s1 = Ret tt s2
    /\ let ind' := set_i_size (Z.max (i_size ind) (BLOCK_SIZE * m + o + csz)) ind in
       at_block s2 fd f ind' n m
       /\ wstep fd (f_inode_id f) ind ind' n n (BLOCK_SIZE * m + o) (take (Z.to_nat csz) buf) s s2.
Proof.
  intros A Ho Hc Hoc Hb H32. destruct A as [W Hcur Hpos Hm] eqn:EA.
  destruct (wstep_write s fd f ind n m o buf csz W Hcur Hpos Hm Ho Hc Hoc Hb) as (s1 & H1 & W1 & S1).
  set (x := BLOCK_SIZE * m + o + csz) in *.
  destruct (wstep_size s1 fd f ind n x x W1) as (s2 & H2 & W2 & S2).
  { unfold x. change BLOCK_SIZE with 4096 in *. lia. }
  { done. }
  assert (S : wstep fd (f_inode_id f) ind (set_i_size (Z.max (i_size ind) x) ind) n n (BLOCK_SIZE * m + o)
    (take (Z.to_nat csz) buf) s s2).
  { rewrite <- (app_nil_r (take _ _)). apply (wstep_trans _ _ _ ind _ _ n _ _ _ _ _ s1); [done|].
    rewrite length_take. replace (BLOCK_SIZE * m + o + _) with x by (unfold x; lia). done. }
  exists s1, s2. do 2 (split; [done|]). split; [|exact S].
  by apply (at_block_step s fd f ind n m _ _ _ (BLOCK_SIZE * m + o) (take (Z.to_nat csz) buf)).
Qed.

(** The growing loop, from the block boundary [offset] on. *)
Lemma write_loop_ok fuel s fd f ind n m c buf offset size cnt :
  at_block s fd f ind n m -> budget s n c -> size = Z.of_nat (length buf) -> (0 < fuel)%nat ->
  size <= BLOCK_SIZE * c -> size <= BLOCK_SIZE * (Z.of_nat fuel - 1) -> offset <= i_size ind ->
  (size = 0 \/ offset = BLOCK_SIZE * (m + 1)) -> 0 <= offset -> offset + size < 2 ^ 32 ->
  exists s' f' ind' n' m', write_loop fuel fd buf offset size cnt s = Ret (inr (i32 (cnt + size))) s'
    /\ at_block s' fd f' ind' n' m' /\ f_inode_id f' = f_inode_id f
    /\ wstep fd (f_inode_id f) ind ind' n n' offset buf s s'
    /\ i_size ind' = Z.max (i_size ind) (offset + size) /\ n' <= n + c.
Proof.
  revert s f ind n m c buf offset size cnt.
  induction fuel as [|fuel IH]; intros s f ind n m c buf offset size cnt A Hb Hs Hfu Hc Hfl Hoff Hcase Ho H32; [lia|].
  pose proof (ab_state _ _ _ _ _ _ A) as W. cbn [write_loop]. destruct (Z.eqb_spec size 0) as [Hz|Hz].
  { destruct (wstep_maybe_alloc s fd f ind n m c false offset A Hb) as (s' & ind' & n' & H & A' & S & Hsz & Hn'); [done|].
    injection H as <-. exists s, f, ind', n', m. rewrite Hz, !Z.add_0_r. split; [done|]. split; [done|]. split; [done|].
    assert (n' = n) by lia. change BLOCK_SIZE with 4096 in Hc.
    split; [|split; [rewrite Hsz; lia|lia]]. destruct buf; [done|cbn in Hs; lia]. }
  destruct Hcase as [?|Hal]; [lia|]. set (csz := Z.min size BLOCK_SIZE).
  mstep (file_size_eq _ _ _ _ _ (wstate_handle _ _ _ _ _ W)).
  change BLOCK_SIZE with 4096 in *. pose proof (ab_in _ _ _ _ _ _ A) as Hm.
  destruct (wstep_maybe_alloc s fd f ind n m c (i_size ind <=? offset) offset A Hb)
    as (s1 & ind1 & n1 & H1 & A1 & S1 & Hsz1 & Hn1); [intros _; lia|].
  pose proof (ws_fits _ _ _ _ _ W) as Hfit. change BLOCK_SIZE with 4096 in Hfit.
  assert (Hm1 : m + 1 < n1) by (destruct (Z.leb_spec (i_size ind) offset); lia).
  mstep H1. cbn [negb]. destruct (wstep_next s1 fd f ind1 n1 m offset A1 Hm1) as (s2 & f2 & H2 & A2 & Hid2 & S2).
  assert (Ht : check (move fd next_block) (fun _ : Z => - EIO) s1 = Ret (inr tt) s2).
  { unfold check. by mstep H2. }
  tstep Ht. destruct (wstep_put s2 fd f2 ind1 n1 (m + 1) 0 buf csz A2) as (s3 & s4 & H3 & H4 & A4 & S4);
    [lia|lia|change BLOCK_SIZE with 4096; lia|lia|change BLOCK_SIZE with 4096; lia|].
  change BLOCK_SIZE with 4096 in H4, A4, S4. rewrite Z.add_0_r, <- Hal in H4, A4, S4.
  mstep H3. mstep H4. set (ind4 := set_i_size _ ind1) in *. rewrite Hid2 in S4.
  assert (S14 : wstep fd (f_inode_id f) ind ind4 n n1 offset (take (Z.to_nat csz) buf) s s4).
  { apply (wstep_nil_trans _ _ _ ind1 _ _ n1 _ _ _ _ s1); [done|]. by apply (wstep_nil_trans _ _ _ ind1 _ _ n1 _ _ _ _ s2). }
  assert (Hs32 : 0 <= i_size ind < 2 ^ 32) by (apply i_size_range, (gb_cell _ _ _ _ (ws_grow _ _ _ _ _ W))).
  assert (Hsz4 : i_size ind4 = Z.max (i_size ind) (offset + csz)) by (cbn; rewrite Hsz1; apply u32_small; lia).
  assert (Hlen : length (take (Z.to_nat csz) buf) = Z.to_nat csz) by (rewrite length_take; lia).
  destruct (IH s4 f2 ind4 n1 (m + 1) (c - (n1 - n)) (drop (Z.to_nat csz) buf) (offset + csz) (size - csz) (cnt + csz) A4)
    as (s' & f' & ind' & n' & m' & H & A' & Hid & S & Hsz' & Hn').
  { apply (budget_step _ _ _ _ _ _ _ _ _ _ _ S14 Hb). destruct (i_size ind <=? offset); lia. }
  { rewrite length_drop. lia. }
  1: lia. 1: destruct (i_size ind <=? offset); lia. 1-2: lia.
  { destruct (decide (csz = 4096)); [right|left]; lia. }
  1-2: lia.
  exists s', f', ind', n', m'. split; [rewrite H; do 3 f_equal; lia|]. split; [done|]. split; [congruence|].
  split; [|split; [rewrite Hsz', Hsz4; lia|lia]]. rewrite <- (take_drop (Z.to_nat csz) buf). rewrite Hid2 in S.
  apply (wstep_trans _ _ _ ind4 _ _ n1 _ _ _ _ _ s4); [done|]. rewrite Hlen, Z2Nat.id by lia. done.
Qed.

(** The overwriting loop. *)
Lemma overwrite_loop_ok fuel s fd f ind n m buf offset size cnt :
  at_block s fd f ind n m -> size = Z.of_nat (length buf) -> (0 < fuel)%nat ->
  size <= BLOCK_SIZE * (Z.of_nat fuel - 1) -> offset + size <= i_size ind ->
  (size = 0 \/ offset = BLOCK_SIZE * (m + 1)) -> 0 <= offset ->
  exists s' f' m', overwrite_loop fuel fd buf (i_size ind) offset size cnt s = Ret (inr (i32 (cnt + size))) s'
    /\ at_block s' fd f' ind n m' /\ f_inode_id f' = f_inode_id f
    /\ wstep fd (f_inode_id f) ind ind n n offset buf s s'.
Proof.
  revert s f m buf offset size cnt.
  induction fuel as [|fuel IH]; intros s f m buf offset size cnt A Hs Hfu Hfl Hoff Hcase Ho; [lia|].
  pose proof (ab_state _ _ _ _ _ _ A) as W. pose proof (gb_wf _ _ _ _ (ws_grow _ _ _ _ _ W)) as Hwf.
  cbn [overwrite_loop]. destruct (Z.eqb_spec size 0) as [Hz|Hz].
  { exists s, f, m. rewrite Hz, !Z.add_0_r. do 3 (split; [done|]). destruct buf; [|cbn in Hs; lia].
    apply (wstep_same fd (f_inode_id f) ind n offset s s); [apply W|apply same_blocks_refl, (wf_inv _ Hwf)|done|done]. }
  destruct Hcase as [?|Hal]; [lia|]. rewrite (proj2 (Z.leb_gt _ _)) by lia. set (csz := Z.min size BLOCK_SIZE).
  change BLOCK_SIZE with 4096 in *. pose proof (ab_in _ _ _ _ _ _ A) as Hm.
  pose proof (ws_fits _ _ _ _ _ W) as Hfit. change BLOCK_SIZE with 4096 in Hfit.
  destruct (wstep_next s fd f ind n m offset A ltac:(lia)) as (s2 & f2 & H2 & A2 & Hid2 & S2).
  assert (Ht : check (move fd next_block) (fun r : Z => r) s = Ret (inr tt) s2).
  { unfold check. by mstep H2. }
  tstep Ht. destruct A2 as [W2 C2 P2 M2] eqn:EA2.
  destruct (wstep_write s2 fd f2 ind n (m + 1) 0 buf csz W2 C2 P2 M2) as (s3 & H3 & W3 & S3);
    [lia|lia|change BLOCK_SIZE with 4096; lia|lia|].
  change BLOCK_SIZE with 4096 in S3. rewrite Z.add_0_r, <- Hal in S3.
  pose proof (at_block_step _ _ _ _ _ _ _ _ _ _ _ A2 W3 S3) as A3. rewrite Hid2 in S3. mstep H3.
  assert (Hlen : length (take (Z.to_nat csz) buf) = Z.to_nat csz) by (rewrite length_take; lia).
  destruct (IH s3 f2 (m + 1) (drop (Z.to_nat csz) buf) (offset + csz) (size - csz) (cnt + csz) A3)
    as (s' & f' & m' & H & A' & Hid & S).
  { rewrite length_drop. lia. }
  1-3: lia.
  { destruct (decide (csz = 4096)); [right|left]; lia. }
  1: lia.
  exists s', f', m'. split; [rewrite H; do 3 f_equal; lia|]. split; [done|]. split; [congruence|].
  rewrite <- (take_drop (Z.to_nat csz) buf). rewrite Hid2 in S.
  apply (wstep_trans _ _ _ ind _ _ n _ _ _ _ _ s3); [by apply (wstep_nil_trans _ _ _ ind _ _ n _ _ _ _ s2)|].
  rewrite Hlen, Z2Nat.id by lia. done.
Qed.

(** [upd_all] *)
Lemma upd_iter l s :
  (forall q, q ∈ l -> is_Some (op_files s !! q)) ->
  exists files, fslist_iter l (fun fd =>
      s ← get_st;
      f ← unwrap UseAfterFree (op_files s !! fd);
      set_files (fun fs => <[fd := set_update_flag true f]> fs)) s
    = Ret tt (mk_op (op_fs s) (st_ s) files (op_fresh s))
    /\ forall q g, op_files s !! q = Some g ->
         files !! q = Some (if bool_decide (q ∈ l) then set_update_flag true g else g).
Proof.
  revert s. induction l as [|x l IH]; intros s Hl.
  { exists (op_files s). split; [by destruct s|]. intros q g Hq. by rewrite bool_decide_false by apply not_elem_of_nil. }
  destruct (Hl x ltac:(by constructor)) as [h Hh]. cbn [fslist_iter].
  set (s1 := mk_op (op_fs s) (st_ s) (<[x := set_update_flag true h]> (op_files s)) (op_fresh s)).
  assert (H1 : (s ← get_st; f ← unwrap UseAfterFree (op_files s !! x);
    set_files (fun fs => <[x := set_update_flag true f]> fs)) s = Ret tt s1).
  { rewrite (bind_ret _ _ _ s s) by done. by rewrite Hh, (bind_ret _ _ _ h s) by done. }
  mstep H1. destruct (IH s1) as (files & H & Hfiles).
  { intros q Hq. cbn. destruct (decide (q = x)) as [->|]; [by rewrite lookup_insert_eq|].
    rewrite lookup_insert_ne by done. apply Hl. by constructor. }
  exists files. split; [exact H|]. intros q g Hq. destruct (decide (q = x)) as [->|Hne].
  - rewrite Hh in Hq. injection Hq as <-. rewrite (Hfiles x (set_update_flag true h)) by apply lookup_insert_eq.
    rewrite (bool_decide_true (x ∈ x :: l)) by by constructor. by destruct (bool_decide _).
  - rewrite (Hfiles q g) by (cbn; by rewrite lookup_insert_ne). by rewrite (bool_decide_ext (q ∈ x :: l) (q ∈ l)) by set_solver.
Qed.

Lemma upd_all_ok s id ic :
  st_ s !! id = Some ic -> (forall q, q ∈ vec ic -> is_Some (op_files s !! q)) ->
  exists files, upd_all id s = Ret tt (mk_op (op_fs s) (st_ s) files (op_fresh s))
    /\ forall q g, op_files s !! q = Some g ->
         files !! q = Some (if bool_decide (q ∈ vec ic) then set_update_flag true g else g).
Proof.
  intros Hic Hall. unfold upd_all. rewrite (bind_ret _ _ _ s s) by done.
  rewrite Hic, (bind_ret _ _ _ ic s) by done. by apply upd_iter.
Qed.

(** ** The first block of a write *)

(** Seeking block 0 needs no cursor. *)
Lemma wstep_seek_start s fd f ind n off :
  wstate s fd f ind n -> 0 < n ->
  exists s' f', move fd (fun inode => seek inode 0) s = Ret 0 s' /\ at_block s' fd f' ind n 0
    /\ f_inode_id f' = f_inode_id f /\ wstep fd (f_inode_id f) ind ind n n off [] s s'.
Proof.
  intros W Hn. set (f' := set_block_id (i_block_at 0 ind) (set_in_file 0 f)).
  pose proof (wstate_handle _ _ _ _ _ W) as Hh. pose proof (gb_wf _ _ _ _ (ws_grow _ _ _ _ _ W)) as Hwf.
  assert (Hm : move fd (fun inode => seek inode 0) s = Ret 0 (put_op (op_fs s) fd f' s)).
  { by apply (move_eq (op_fs s) ind fd s f). }
  assert (Hc : cursor_ok fs_word (op_fs s) ind f') by (constructor; [by vm_compute|done|done]).
  destruct (wstep_move fd _ s f f' ind n off 0 _ W Hm) as (W' & S & Hc'); [|done|done|].
  { apply (handle_put _ _ _ _ f); [done|apply same_blocks_refl, (wf_inv _ Hwf)|done]. }
  exists (put_op (op_fs s) fd f' s), f'. split; [done|]. split; [|done]. constructor; [done|done|done|lia].
Qed.

(** The cursor is on a block of the file, or the file is empty. *)
Definition placed (s : OpSt) (fd : positive) (f : FileStatus) (ind : ext2_inode) (n : Z) : Prop :=
  wstate s fd f ind n /\ (n = 0 \/ at_block s fd f ind n (block_id_in_file_ f)).

Lemma wstep_locate s fd f ind n c off (b : bool) m :
  placed s fd f ind n -> budget s n c -> (b = true -> 1 <= c) -> (n = 0 -> b = true) ->
  0 <= m < n + (if b then 1 else 0) ->
  exists s1 s2 f' ind' n', (if b then file_alloc fd else mret true) s = Ret true s1
    /\ move fd (fun inode => seek inode m) s1 = Ret 0 s2 /\ at_block s2 fd f' ind' n' m
    /\ f_inode_id f' = f_inode_id f /\ wstep fd (f_inode_id f) ind ind' n n' off [] s s2
    /\ i_size ind' = i_size ind /\ n' = n + (if b then 1 else 0).
Proof.
  intros [W [Hn|A]] Hb Hc Hnb Hm.
  - rewrite (Hnb Hn) in *. destruct Hb as [Hr Hmax]. specialize (Hc eq_refl).
    destruct (wstep_alloc s fd f ind n off W) as (s1 & ind1 & H1 & W1 & S1 & Hsz);
      [apply (room_le _ _ _ Hr); lia|lia|].
    destruct (wstep_seek_start s1 fd f ind1 (n + 1) off W1) as (s2 & f2 & H2 & A2 & Hid & S2); [lia|].
    assert (m = 0) as -> by lia. exists s1, s2, f2, ind1, (n + 1). do 4 (split; [done|]). split; [|done].
    by apply (wstep_nil_trans _ _ _ ind1 _ _ (n + 1) _ _ _ _ s1).
  - destruct (wstep_maybe_alloc s fd f ind n _ c b off A Hb Hc) as (s1 & ind1 & n1 & H1 & A1 & S1 & Hsz & Hn1).
    destruct (wstep_seek s1 fd f ind1 n1 _ m off A1) as (s2 & f2 & H2 & A2 & Hid & S2); [lia|].
    exists s1, s2, f2, ind1, n1. do 4 (split; [done|]). split; [|done].
    by apply (wstep_nil_trans _ _ _ ind1 _ _ n1 _ _ _ _ s1).
Qed.

(** [_upd_cache] at the beginning. *)
Lemma wstep_upd s fd f ind n off :
  wstate s fd f ind n -> ready (op_fs s) ind f -> n = 0 \/ block_id_in_file_ f < n ->
  exists s' f', move fd _upd_cache s = Ret 0 s' /\ placed s' fd f' ind n
    /\ f_inode_id f' = f_inode_id f /\ wstep fd (f_inode_id f) ind ind n n off [] s s'.
Proof.
  intros W Hr Hn. destruct (upd_cache_arrives (op_fs s) ind fd s f (wstate_handle _ _ _ _ _ W) Hr)
    as (s' & f' & H & Hh & Hc & Hp & Hid).
  destruct (wstep_move fd _ s f f' ind n off 0 s' W H Hh Hid Hc) as (W' & S & Hc').
  exists s', f'. split; [done|]. split; [|done]. split; [done|]. destruct Hn as [Hn|Hn]; [by left|right].
  constructor; [done|done|done|]. rewrite Hp. destruct Hr as [Hr _]. lia.
Qed.

(** ** The two branches of [write] *)

(** What a write of [buf] at position [off] does to the file of handle [fd]. *)
Record written (s s' : OpSt) (fd : positive) (f f' : FileStatus) (ind ind' : ext2_inode) (n n' off : Z) (buf : list byte) : Prop := {
  wr_step : exists s1, op_fs s1 = op_fs s' /\ wstep fd (f_inode_id f) ind ind' n n' off buf s s1;
  wr_block : exists f1 m, f' = set_update_flag (cache_update_flag_ f') f1 /\ f_inode_id f1 = f_inode_id f
    /\ at_block (put_op (op_fs s') fd f1 s') fd f1 ind' n' m;
  wr_file : op_files s' !! fd = Some f';
  wr_size : i_size ind' = Z.max (i_size ind) (off + Z.of_nat (length buf));
  wr_caches : st_ s' = st_ s;
  wr_handles : forall q g, q <> fd -> op_files s !! q = Some g ->
    exists g', op_files s' !! q = Some g' /\ (g' = g \/ g' = set_update_flag true g)
}.

(** A file is open for writing: the handle is ready and all the handles that
    the inode cache lists exist. *)
Record open_file (s : OpSt) (fd : positive) (f : FileStatus) (ind : ext2_inode) (n : Z) : Prop := {
  of_state : wstate s fd f ind n;
  of_ready : ready (op_fs s) ind f;
  of_pos : n = 0 \/ block_id_in_file_ f < n;
  of_cache : exists ic, st_ s !! f_inode_id f = Some ic /\ forall q, q ∈ vec ic -> is_Some (op_files s !! q)
}.

Lemma at_block_put s fd f ind n m :
  at_block s fd f ind n m -> at_block (put_op (op_fs s) fd f s) fd f ind n m.
Proof.
  intros [W Hc Hp Hm]. constructor; [|done|done|done].
  constructor; [apply lookup_insert_eq|apply (ws_grow _ _ _ _ _ W)|apply (ws_fits _ _ _ _ _ W)].
Qed.

Lemma grow_loop_done fuel s fd f ind n offset :
  wstate s fd f ind n -> offset <= i_size ind -> i_size ind + BLOCK_SIZE < 2 ^ 32 ->
  grow_loop (S fuel) fd offset s = Ret (inr tt) s.
Proof.
  intros W Ho H32. cbn [grow_loop]. mstep (file_size_eq _ _ _ _ _ (wstate_handle _ _ _ _ _ W)).
  assert (Hs : 0 <= i_size ind) by apply (i_size_range ind), (gb_cell _ _ _ _ (ws_grow _ _ _ _ _ W)).
  pose proof (Z.mod_pos_bound (i_size ind) BLOCK_SIZE ltac:(done)) as Hm.
  rewrite u32_small by lia. by rewrite (proj2 (Z.ltb_ge _ _)) by lia.
Qed.

Lemma u64_small z : 0 <= z < 2 ^ 64 -> u64 z = z.
Proof. apply Z.mod_small. Qed.

Lemma check_zero {A} (m : M OpSt Z) (k : Z -> A) s s' : m s = Ret 0 s' -> check m k s = Ret (inr tt) s'.
Proof. intros H. unfold check. by mstep H. Qed.

Lemma write_overwrites s fd f ind n buf offset (append : bool) :
  open_file s fd f ind n -> let off := if append then i_size ind else offset in
  0 <= off -> off + Z.of_nat (length buf) <= i_size ind -> 0 < Z.of_nat (length buf) < 2 ^ 31 ->
  exists s' f', file_write fd buf offset (Z.of_nat (length buf)) append s = Ret (Z.of_nat (length buf)) s'
    /\ written s s' fd f f' ind ind n n off buf.
Proof.
  intros O off Ho Hin Hlen. destruct O as [W Hr Hp _]. set (size := Z.of_nat (length buf)) in *.
  assert (Hs32 : 0 <= i_size ind < 2 ^ 32) by (apply i_size_range, (gb_cell _ _ _ _ (ws_grow _ _ _ _ _ W))).
  pose proof (ws_fits _ _ _ _ _ W) as Hfit. pose proof (gb_wf _ _ _ _ (ws_grow _ _ _ _ _ W)) as Hwf.
  destruct (wstep_upd s fd f ind n off W Hr Hp) as (s1 & f1 & H1 & P1 & Hid1 & S1).
  pose proof (fo_range _ _ _ (gb_file _ _ _ _ (ws_grow _ _ _ _ _ W))) as Hn0.
  change BLOCK_SIZE with 4096 in Hfit. set (m := off / 4096).
  assert (Hm : 0 <= m < n /\ off = 4096 * m + off mod 4096 /\ 0 <= off mod 4096 < 4096)
    by (unfold m; Z.div_mod_to_equations; lia). destruct Hm as (Hm & Hoff & Hmod).
  destruct P1 as [W1 [?|A1]]; [lia|]. destruct (wstep_seek s1 fd f1 ind n _ m off A1 Hm) as (s2 & f2 & H2 & A2 & Hid2 & S2).
  set (csz := Z.min size (4096 - off mod 4096)). destruct A2 as [W2 C2 P2 M2] eqn:EA2.
  destruct (wstep_write s2 fd f2 ind n m (off mod 4096) buf csz W2 C2 P2 M2) as (s3 & H3 & W3 & S3);
    [lia|lia|change BLOCK_SIZE with 4096; lia|lia|].
  change BLOCK_SIZE with 4096 in S3. rewrite <- Hoff in S3.
  pose proof (at_block_step _ _ _ _ _ _ _ _ _ _ _ A2 W3 S3) as A3.
  assert (Hlt : length (take (Z.to_nat csz) buf) = Z.to_nat csz) by (rewrite length_take; lia).
  destruct (overwrite_loop_ok (S (Z.to_nat (size / 4096 + 1))) s3 fd f2 ind n m (drop (Z.to_nat csz) buf)
    (off + csz) (size - csz) csz A3) as (s' & f' & m' & H & A' & Hid' & S); change BLOCK_SIZE with 4096.
  { rewrite length_drop. lia. }
  { lia. }
  { rewrite Nat2Z.inj_succ, Z2Nat.id by (Z.div_mod_to_equations; lia). Z.div_mod_to_equations. lia. }
  { lia. }
  { destruct (decide (csz = size)); [left; lia|right; lia]. }
  { lia. }
  exists s', f'. split.
  - unfold file_write. apply body_go. mstep (file_size_eq _ _ _ _ _ (wstate_handle _ _ _ _ _ W)).
    tstep (check_zero (move fd _upd_cache) (fun r : Z => r) s s1 H1). cbv zeta. fold off. fold size.
    rewrite (u64_small (off + size)) by lia. rewrite (proj2 (Z.ltb_ge (i_size ind) (off + size))) by lia.
    change BLOCK_SIZE with 4096. fold m. rewrite u32_small by (change (2 ^ 32) with 4294967296; unfold MAX_BLOCKS in Hn0; lia).
    tstep (check_zero _ (fun r : Z => r) s1 s2 H2). fold csz. mstep H3. rewrite H. do 3 f_equal.
    replace (csz + (size - csz)) with size by lia. apply i32_small. lia.
  - rewrite Hid2, Hid1 in *. constructor.
    + exists s'. split; [done|]. rewrite <- (take_drop (Z.to_nat csz) buf).
      apply (wstep_trans _ _ _ ind _ _ n _ _ _ _ _ s3); [|by rewrite Hlt, Z2Nat.id by lia].
      apply (wstep_nil_trans _ _ _ ind _ _ n _ _ _ _ s1); [done|].
      by apply (wstep_nil_trans _ _ _ ind _ _ n _ _ _ _ s2).
    + exists f', m'. split; [by destruct f'|]. split; [congruence|]. by apply at_block_put.
    + apply A'.
    + lia.
    + rewrite (st_caches S), (st_caches S3), (st_caches S2), (st_caches S1). done.
    + intros q g Hq Hg. exists g. split; [|by left].
      by rewrite (st_handles S), (st_handles S3), (st_handles S2), (st_handles S1).
Qed.

(** Telling the handles of the file to recompute their cursors. *)
Lemma written_upd s s1 fd f f1 ind ind' n n' m off buf :
  open_file s fd f ind n -> at_block s1 fd f1 ind' n' m -> f_inode_id f1 = f_inode_id f ->
  wstep fd (f_inode_id f) ind ind' n n' off buf s s1 ->
  i_size ind' = Z.max (i_size ind) (off + Z.of_nat (length buf)) ->
  exists s' f', (f ← file_get fd; upd_all (f_inode_id f)) s1 = Ret tt s' /\ written s s' fd f f' ind ind' n n' off buf.
Proof.
  intros O A Hid S Hsz. destruct (of_cache _ _ _ _ _ O) as (ic & Hic & Hall). pose proof (ab_state _ _ _ _ _ _ A) as W.
  destruct (upd_all_ok s1 (f_inode_id f1) ic) as (files & H & Hfiles).
  { by rewrite Hid, (st_caches S). }
  { intros q Hq. destruct (decide (q = fd)) as [->|Hne]; [by rewrite (ws_file _ _ _ _ _ W)|].
    rewrite (st_handles S) by done. by apply Hall. }
  pose proof (Hfiles fd f1 (ws_file _ _ _ _ _ W)) as Hf'. set (f' := if bool_decide _ then _ else f1) in Hf'.
  set (s' := mk_op (op_fs s1) (st_ s1) files (op_fresh s1)) in *.
  exists s', f'. split; [by mstep (file_get_eq _ _ _ _ _ (wstate_handle _ _ _ _ _ W))|]. constructor.
  - by exists s1.
  - exists f1, m. split; [unfold f'; destruct (bool_decide _); by destruct f1|]. split; [done|].
    destruct A as [W1 Hc Hp Hm]. constructor; [|done|done|done].
    constructor; [apply lookup_insert_eq|apply (ws_grow _ _ _ _ _ W)|apply (ws_fits _ _ _ _ _ W)].
  - exact Hf'.
  - exact Hsz.
  - apply (st_caches S).
  - intros q g Hq Hg. rewrite <- (st_handles S) in Hg by done. apply Hfiles in Hg.
    eexists. split; [exact Hg|]. destruct (bool_decide (q ∈ vec ic)); [by right|by left].
Qed.

Lemma write_grows s fd f ind n buf offset (append : bool) :
  open_file s fd f ind n -> let off := if append then i_size ind else offset in
  0 <= off <= i_size ind -> i_size ind < off + Z.of_nat (length buf) -> Z.of_nat (length buf) < 2 ^ 31 ->
  off + Z.of_nat (length buf) + BLOCK_SIZE < 2 ^ 32 -> budget s n (Z.of_nat (length buf) / BLOCK_SIZE + 2) ->
  exists s' f' ind' n', file_write fd buf offset (Z.of_nat (length buf)) append s = Ret (Z.of_nat (length buf)) s'
    /\ written s s' fd f f' ind ind' n n' off buf /\ n' <= n + Z.of_nat (length buf) / BLOCK_SIZE + 2.
Proof.
  intros O off Ho Hin Hlen H32 Hb. pose proof (of_state _ _ _ _ _ O) as W. set (size := Z.of_nat (length buf)) in *.
  assert (Hs32 : 0 <= i_size ind < 2 ^ 32) by (apply i_size_range, (gb_cell _ _ _ _ (ws_grow _ _ _ _ _ W))).
  pose proof (ws_fits _ _ _ _ _ W) as Hfit.
  destruct (wstep_upd s fd f ind n off W (of_ready _ _ _ _ _ O) (of_pos _ _ _ _ _ O)) as (s1 & f1 & H1 & P1 & Hid1 & S1).
  pose proof (fo_range _ _ _ (gb_file _ _ _ _ (ws_grow _ _ _ _ _ W))) as Hn0. unfold MAX_BLOCKS in Hn0.
  change BLOCK_SIZE with 4096 in *. set (m := off / 4096). set (al := i_size ind mod 4096 =? 0).
  assert (Hm : 0 <= m < n + (if al then 1 else 0) /\ off = 4096 * m + off mod 4096 /\ 0 <= off mod 4096 < 4096).
  { unfold m, al. destruct (Z.eqb_spec (i_size ind mod 4096) 0); Z.div_mod_to_equations; lia. }
  destruct Hm as (Hm & Hoff & Hmod). assert (Hc2 : 0 <= size / 4096) by (apply Z.div_pos; lia).
  pose proof (budget_step _ _ _ _ _ _ _ _ _ _ _ S1 Hb ltac:(lia)) as Hb1. rewrite Z.sub_diag, Z.sub_0_r in Hb1.
  destruct (wstep_locate s1 fd f1 ind n (size / 4096 + 2) off al m P1 Hb1)
    as (s2 & s3 & f3 & ind3 & n3 & H2 & H3 & A3 & Hid3 & S3 & Hsz3 & Hn3); [lia| |done|].
  { unfold al. intros ->. by assert (i_size ind = 0) as -> by lia. }
  set (csz := Z.min size (4096 - off mod 4096)).
  destruct (wstep_put s3 fd f3 ind3 n3 m (off mod 4096) buf csz A3) as (s4 & s5 & H4 & H5 & A5 & S5);
    [lia|lia|change BLOCK_SIZE with 4096; lia|lia|change BLOCK_SIZE with 4096; lia|].
  change BLOCK_SIZE with 4096 in H5, A5, S5. rewrite <- Hoff in H5, A5, S5. set (ind5 := set_i_size _ ind3) in *.
  rewrite Hid3, Hid1 in *.
  assert (S15 : wstep fd (f_inode_id f) ind ind5 n n3 off (take (Z.to_nat csz) buf) s s5).
  { apply (wstep_nil_trans _ _ _ ind _ _ n _ _ _ _ s1); [done|]. by apply (wstep_nil_trans _ _ _ ind3 _ _ n3 _ _ _ _ s3). }
  assert (Hsz5 : i_size ind5 = Z.max (i_size ind) (off + csz)) by (cbn; rewrite Hsz3; apply u32_small; lia).
  assert (Hlt : length (take (Z.to_nat csz) buf) = Z.to_nat csz) by (rewrite length_take; lia).
  pose proof (budget_step _ _ _ _ _ _ _ _ _ _ _ S15 Hb) as Hb5.
  destruct (write_loop_ok (S (Z.to_nat (size / 4096 + 1))) s5 fd f3 ind5 n3 m (size / 4096 + 2 - (n3 - n))
    (drop (Z.to_nat csz) buf) (off + csz) (size - csz) csz A5)
    as (s6 & f6 & ind6 & n6 & m6 & H6 & A6 & Hid6 & S6 & Hsz6 & Hn6); change BLOCK_SIZE with 4096.
  { apply Hb5. destruct al; lia. }
  { rewrite length_drop. lia. }
  { lia. }
  { destruct al; Z.div_mod_to_equations; lia. }
  { rewrite Nat2Z.inj_succ, Z2Nat.id by lia. Z.div_mod_to_equations. lia. }
  { lia. }
  { destruct (decide (csz = size)); [left; lia|right; lia]. }
  { lia. }
  { lia. }
  rewrite Hid3 in S6, Hid6.
  assert (S16 : wstep fd (f_inode_id f) ind ind6 n n6 off buf s s6).
  { rewrite <- (take_drop (Z.to_nat csz) buf).
    apply (wstep_trans _ _ _ ind5 _ _ n3 _ _ _ _ _ s5); [done|]. by rewrite Hlt, Z2Nat.id by lia. }
  destruct (written_upd s s6 fd f f6 ind ind6 n n6 m6 off buf O A6 Hid6 S16) as (s' & f' & H7 & R).
  { rewrite Hsz6, Hsz5. fold size. lia. }
  exists s', f', ind6, n6. split; [|split; [done|lia]]. unfold file_write. apply body_go.
  mstep (file_size_eq _ _ _ _ _ (wstate_handle _ _ _ _ _ W)).
  tstep (check_zero (move fd _upd_cache) (fun r : Z => r) s s1 H1). cbv zeta. fold off.
  rewrite (u64_small (off + size)) by lia. rewrite (proj2 (Z.ltb_lt (i_size ind) (off + size))) by lia.
  destruct P1 as [W1 _]. tstep (grow_loop_done (Z.to_nat (off / BLOCK_SIZE + 1)) s1 fd f1 ind n off W1
    ltac:(lia) ltac:(change BLOCK_SIZE with 4096; lia)).
  mstep (file_size_eq _ _ _ _ _ (wstate_handle _ _ _ _ _ W1)). change BLOCK_SIZE with 4096. fold al. mstep H2. cbn [negb].
  fold m. rewrite u32_small by (unfold m; Z.div_mod_to_equations; lia).
  tstep (check_zero _ (fun r : Z => r) s2 s3 H3). fold csz. mstep H4. mstep H5. tstep H6.
  replace (csz + (size - csz)) with size by lia. rewrite i32_small by lia.
  rewrite <- (bind_assoc (file_get fd) (fun f => upd_all (f_inode_id f))). by mstep H7.
Qed.
