(* ===== verification/FileIO.v ===== *)
(** * Reads and writes of open files refine a list of bytes

    The abstract state of an open file is its contents, a list of bytes; a
    write lays bytes over it and may extend it, a read returns a part of it.
    [open_as] relates the state of the program to the contents; every
    successful [fuse_write] and [fuse_read] keeps it. *)

From S2P Require Import Prelude Layout Disk Bitmap PathName Block BlockGroup BlockCache DentryCache.
From S2P Require Import FileSystem FileStatus OpenFiles FsBlocks FileData FsPointers FsAlloc FileBlocks FileGrow FileWrite.

(** The handle [fd] is open on a file of [n] blocks with these contents. *)
Definition holds (s : OpSt) (ind : ext2_inode) (content : list byte) : Prop :=
  Z.of_nat (length content) = i_size ind
  /\ forall k, 0 <= k < i_size ind -> content !! Z.to_nat k = fbyte (op_fs s) ind k.

Definition open_as (s : OpSt) (fd : positive) (n : Z) (content : list byte) : Prop :=
  exists f ind, open_file s fd f ind n /\ holds s ind content.

(** ** After a write *)

Lemma written_ready s s' fd f f' ind ind' n n' off buf :
  written s s' fd f f' ind ind' n n' off buf ->
  wstate s' fd f' ind' n' /\ ready (op_fs s') ind' f' /\ block_id_in_file_ f' < n' /\ f_inode_id f' = f_inode_id f.
Proof.
  intros R. destruct (wr_block _ _ _ _ _ _ _ _ _ _ _ R) as (f1 & m & Hf & Hid & [W C P M]). cbn [put_op op_fs] in *.
  assert (Hpos : block_id_in_file_ f' = m) by (rewrite Hf; done).
  split; [|split; [|split; [lia|by rewrite Hf]]].
  - constructor; [apply R| |apply (ws_fits _ _ _ _ _ W)].
    replace (f_inode_id f') with (f_inode_id f1) by (by rewrite Hf). apply (ws_grow _ _ _ _ _ W).
  - pose proof (gb_file _ _ _ _ (ws_grow _ _ _ _ _ W)) as Hok. cbn in Hok. pose proof (fo_range _ _ _ Hok) as Hr.
    unfold MAX_BLOCKS in Hr. split; [rewrite Hpos, IB14; lia|]. split.
    + eexists. rewrite Hpos. by apply (file_ok_resolve _ _ n').
    + intros _. rewrite Hf. by destruct C as [C1 C2 C3]; constructor.
Qed.

Lemma written_opened s s' fd f f' ind ind' n n' off buf :
  open_file s fd f ind n -> written s s' fd f f' ind ind' n n' off buf -> open_file s' fd f' ind' n'.
Proof.
  intros O R. destruct (written_ready _ _ _ _ _ _ _ _ _ _ _ R) as (W & Hr & Hp & Hid).
  constructor; [done|done|by right|]. destruct (of_cache _ _ _ _ _ O) as (ic & Hic & Hall). exists ic.
  rewrite Hid, (wr_caches _ _ _ _ _ _ _ _ _ _ _ R). split; [done|]. intros q Hq.
  destruct (decide (q = fd)) as [->|Hne]; [rewrite (ws_file _ _ _ _ _ W); by eexists|].
  destruct (Hall q Hq) as [g Hg]. destruct (wr_handles _ _ _ _ _ _ _ _ _ _ _ R q g Hne Hg) as (g' & -> & _). by eexists.
Qed.

(** Another handle on the same file. *)
Lemma written_other s s' fd f f' ind ind' n n' off buf q g :
  open_file s fd f ind n -> written s s' fd f f' ind ind' n n' off buf ->
  open_file s q g ind n -> q <> fd -> f_inode_id g = f_inode_id f -> block_id_in_file_ g < n ->
  exists g', open_file s' q g' ind' n'.
Proof.
  intros O R Og Hne Hid Hlt. destruct (written_opened _ _ _ _ _ _ _ _ _ _ _ O R) as [W _ _ (ic & Hic & Hall)].
  destruct (written_ready _ _ _ _ _ _ _ _ _ _ _ R) as (_ & _ & _ & Hid').
  destruct (wr_handles _ _ _ _ _ _ _ _ _ _ _ R q g Hne (ws_file _ _ _ _ _ (of_state _ _ _ _ _ Og))) as (g' & Hg' & Hcase).
  destruct (wr_step _ _ _ _ _ _ _ _ _ _ _ R) as (s1 & E1 & S). pose proof (st_tree S) as K. rewrite E1 in K.
  pose proof (st_le S) as Hle. pose proof (gb_file _ _ _ _ (ws_grow _ _ _ _ _ W)) as Hok'.
  pose proof (gb_file _ _ _ _ (ws_grow _ _ _ _ _ (of_state _ _ _ _ _ Og))) as Hok. pose proof (fo_range _ _ _ Hok') as Hr.
  assert (Hgid : f_inode_id g' = f_inode_id g) by (by destruct Hcase as [-> | ->]).
  assert (Hgpos : block_id_in_file_ g' = block_id_in_file_ g) by (by destruct Hcase as [-> | ->]).
  destruct (of_ready _ _ _ _ _ Og) as (Hp & _ & Hcur). exists g'. constructor.
  - constructor; [done| |apply (ws_fits _ _ _ _ _ W)]. rewrite Hgid, Hid, <- Hid'. apply (ws_grow _ _ _ _ _ W).
  - split; [by rewrite Hgpos|]. split; [eexists; rewrite Hgpos; apply (file_ok_resolve _ _ n'); [done|lia]|].
    intros Hfl. destruct Hcase as [-> | ->]; [|done].
    apply (cursor_tree (op_fs s) ind _ _ n); [done| |done|done|by apply Hcur].
    apply (file_ok_le _ _ n n'); [done|destruct (fo_range _ _ _ Hok); lia|done].
  - right. rewrite Hgpos. lia.
  - exists ic. rewrite Hgid, Hid, <- Hid'. split; [done|]. exact Hall.
Qed.

(** The contents after a write. *)
Lemma written_holds s s' fd f f' ind ind' n n' off buf c :
  written s s' fd f f' ind ind' n n' off buf -> i_size ind <= BLOCK_SIZE * n -> i_size ind' <= BLOCK_SIZE * n' ->
  0 <= off <= i_size ind -> holds s ind c -> holds s' ind' (splice off buf c).
Proof.
  intros R Hfit Hfit' Ho [HL Hc]. pose proof (wr_size _ _ _ _ _ _ _ _ _ _ _ R) as Hsz.
  destruct (wr_step _ _ _ _ _ _ _ _ _ _ _ R) as (s1 & E1 & S).
  split.
  - rewrite Hsz. unfold splice. rewrite !length_app, length_take, length_drop. lia.
  - intros k Hk. rewrite lookup_splice by lia. rewrite Z2Nat.id, <- E1 by lia. rewrite (st_bytes S) by lia.
    unfold overlay. rewrite <- Z2Nat.inj_sub by lia.
    destruct (Z.leb_spec off k), (Z.ltb_spec k (off + Z.of_nat (length buf))); cbn [andb]; try done;
      unfold padded; rewrite (proj2 (Z.ltb_lt _ _)) by lia; apply Hc; lia.
Qed.

(** ** The write *)

Lemma file_write_ok s fd f ind n buf offset (append : bool) :
  open_file s fd f ind n -> let off := if append then i_size ind else offset in
  0 <= off <= i_size ind -> 0 < Z.of_nat (length buf) < 2 ^ 31 ->
  off + Z.of_nat (length buf) + BLOCK_SIZE < 2 ^ 32 -> budget s n (Z.of_nat (length buf) / BLOCK_SIZE + 2) ->
  exists s' f' ind' n', file_write fd buf offset (Z.of_nat (length buf)) append s = Ret (Z.of_nat (length buf)) s'
    /\ written s s' fd f f' ind ind' n n' off buf /\ n' <= n + Z.of_nat (length buf) / BLOCK_SIZE + 2.
Proof.
  intros O off Ho Hlen H32 Hb. destruct (Z.ltb_spec (i_size ind) (off + Z.of_nat (length buf))) as [Hlt|Hge].
  - destruct (write_grows s fd f ind n buf offset append O) as (s' & f' & ind' & n' & H & R & Hn'); try done; try lia.
    by exists s', f', ind', n'.
  - destruct (write_overwrites s fd f ind n buf offset append O) as (s' & f' & H & R); try done; try lia.
    exists s', f', ind, n. split; [done|]. split; [done|]. change BLOCK_SIZE with 4096. Z.div_mod_to_equations. lia.
Qed.

(** The part of the budget that a write of [len] bytes may use. *)
Definition cost (len : Z) : Z := len / BLOCK_SIZE + 2.

Lemma written_budget s s' fd f f' ind ind' n n' off buf c :
  written s s' fd f f' ind ind' n n' off buf -> n' <= n + cost (Z.of_nat (length buf)) ->
  budget s n (c + cost (Z.of_nat (length buf))) -> budget s' n' c.
Proof.
  intros R Hn [Hr Hm]. destruct (wr_step _ _ _ _ _ _ _ _ _ _ _ R) as (s1 & E1 & S).
  split; [|lia]. rewrite <- E1. apply (st_room S). apply (room_le _ _ _ Hr). lia.
Qed.

Lemma budget_le s n c c' : budget s n c -> c' <= c -> budget s n c'.
Proof. intros [Hr Hm] Hc. split; [|lia]. apply (room_le _ _ _ Hr). lia. Qed.

(** The guards of [fuse_write]: a handle that may write, and some bytes. *)
Definition may_write (flags : Z) : bool := negb (Z.land flags O_ACCMODE =? O_RDONLY).
Definition appends (flags : Z) : bool := negb (Z.land flags O_APPEND =? 0).

Lemma fuse_write_eq fd flags buf offset s :
  may_write flags = true -> 0 < Z.of_nat (length buf) ->
  fuse_write buf (Z.of_nat (length buf)) offset (file_info (Some fd) flags) s
  = file_write fd buf offset (Z.of_nat (length buf)) (appends flags) s.
Proof.
  unfold may_write. intros Hm Hl. unfold fuse_write, file_info. cbn [_fuse_trans_info fi_fh fi_flags].
  apply negb_true_iff in Hm. rewrite Hm.
  by rewrite (proj2 (Z.eqb_neq _ _)) by lia.
Qed.

(** Where a write goes. *)
Definition write_pos (flags offset : Z) (c : list byte) : Z :=
  if appends flags then Z.of_nat (length c) else offset.

(** The conditions under which a write of [buf] succeeds. *)
Record write_pre (s : OpSt) (n flags offset : Z) (buf c : list byte) (k : Z) : Prop := {
  wp_mode : may_write flags = true;
  wp_len : 0 < Z.of_nat (length buf) < 2 ^ 31;
  wp_pos : 0 <= write_pos flags offset c <= Z.of_nat (length c);
  wp_32 : write_pos flags offset c + Z.of_nat (length buf) + BLOCK_SIZE < 2 ^ 32;
  wp_budget : budget s n (k + cost (Z.of_nat (length buf)));
  wp_left : 0 <= k
}.

Lemma fuse_write_full s fd f ind n flags offset buf c k :
  open_file s fd f ind n -> holds s ind c -> write_pre s n flags offset buf c k ->
  exists s' f' ind' n',
    fuse_write buf (Z.of_nat (length buf)) offset (file_info (Some fd) flags) s = Ret (Z.of_nat (length buf)) s'
    /\ written s s' fd f f' ind ind' n n' (write_pos flags offset c) buf
    /\ holds s' ind' (splice (write_pos flags offset c) buf c) /\ budget s' n' k
    /\ n' <= n + cost (Z.of_nat (length buf)).
Proof.
  intros O Hc [Hm Hl Hp H32 Hb Hk]. destruct Hc as [HL Hc0] eqn:EHc. rewrite (fuse_write_eq _ _ _ _ _ Hm) by lia.
  assert (Hpos : (if appends flags then i_size ind else offset) = write_pos flags offset c)
    by (unfold write_pos; by rewrite HL).
  destruct (file_write_ok s fd f ind n buf offset (appends flags) O) as (s' & f' & ind' & n' & H & R & Hn').
  1-4: rewrite ?Hpos, <- ?HL; try done. { apply (budget_le _ _ _ _ Hb). unfold cost. lia. }
  rewrite Hpos in R. exists s', f', ind', n'. split; [done|]. split; [done|].
  destruct (written_ready _ _ _ _ _ _ _ _ _ _ _ R) as (W' & _).
  split; [|split; [apply (written_budget _ _ _ _ _ _ _ _ _ _ _ _ R); [unfold cost; lia|done]|unfold cost; lia]].
  apply (written_holds _ _ _ _ _ _ _ _ _ _ _ _ R); [apply (ws_fits _ _ _ _ _ (of_state _ _ _ _ _ O))|
    apply (ws_fits _ _ _ _ _ W')|lia|done].
Qed.

Lemma fuse_write_ok s fd f ind n flags offset buf c k :
  open_file s fd f ind n -> holds s ind c -> write_pre s n flags offset buf c k ->
  exists s' f' ind' n',
    fuse_write buf (Z.of_nat (length buf)) offset (file_info (Some fd) flags) s = Ret (Z.of_nat (length buf)) s'
    /\ written s s' fd f f' ind ind' n n' (write_pos flags offset c) buf
    /\ holds s' ind' (splice (write_pos flags offset c) buf c) /\ budget s' n' k.
Proof.
  intros O Hc Hp. destruct (fuse_write_full s fd f ind n flags offset buf c k O Hc Hp) as (s' & f' & ind' & n' & H1 & H2 & H3 & H4 & _).
  by exists s', f', ind', n'.
Qed.

(** ** The read *)

Lemma file_blk_bytes s ind n m : file_ok s ind n -> 0 <= m < n -> file_blk s ind m = fview s (blk s ind m).
Proof. intros H Hm. unfold file_blk. by rewrite (file_ok_resolve s ind n m H Hm). Qed.

(** What a read of [size] bytes at [offset] returns, of a file of [len] bytes:
    the bytes up to the end of the file, and at least what the first block
    holds of them. *)
Definition read_len (len offset size : Z) : Z :=
  if len <=? offset then 0 else Z.max (Z.min size (BLOCK_SIZE - offset mod BLOCK_SIZE)) (Z.min size (len - offset)).

Lemma reading_opened s s' fd f f' ind n :
  open_file s fd f ind n -> reading (op_fs s) ind fd s (f_inode_id f) s' f' ->
  open_file s' fd f' ind n /\ (forall off, wstep fd (f_inode_id f) ind ind n n off [] s s')
    /\ block_id_in_file_ f' < n.
Proof.
  intros O R. pose proof (rd_handle _ _ _ _ _ _ _ R) as Hh. pose proof (of_state _ _ _ _ _ O) as W.
  assert (S : forall off, growable (op_fs s') (InCopy (f_inode_id f)) ind n /\ wstep fd (f_inode_id f) ind ind n n off [] s s').
  { intros off. apply wstep_same; [apply (ws_grow _ _ _ _ _ W)|apply Hh|apply (rd_caches _ _ _ _ _ _ _ R)|apply (rd_others _ _ _ _ _ _ _ R)]. }
  assert (Hlt : block_id_in_file_ f' < n).
  { pose proof (rd_pos _ _ _ _ _ _ _ R). pose proof (ws_fits _ _ _ _ _ W). change BLOCK_SIZE with 4096 in *. lia. }
  split; [|split; [intros off; apply S|done]]. destruct (S 0) as [B _]. pose proof (gb_file _ _ _ _ B) as Hok.
  pose proof (rd_pos _ _ _ _ _ _ _ R) as Hp. pose proof (ws_fits _ _ _ _ _ W) as Hfit.
  pose proof (proj1 (cursor_ok_same _ _ _ _ _ Hh) (rd_cursor _ _ _ _ _ _ _ R)) as Hc.
  constructor.
  - constructor; [apply Hh|by rewrite (rd_id _ _ _ _ _ _ _ R)|done].
  - split; [apply Hc|]. split; [eexists; apply Hc|done].
  - by right.
  - destruct (of_cache _ _ _ _ _ O) as (ic & Hic & Hall). exists ic.
    rewrite (rd_id _ _ _ _ _ _ _ R), (rd_caches _ _ _ _ _ _ _ R). split; [done|]. intros q Hq.
    destruct (decide (q = fd)) as [->|Hne]; [rewrite (h_file _ _ _ _ _ Hh); by eexists|].
    rewrite (rd_others _ _ _ _ _ _ _ R) by done. by apply Hall.
Qed.

(** Nothing changes but which blocks are cached and the cursor of [fd]: every
    block of the disk is seen with the same bytes, the groups, the inodes, the
    names and the other handles are the same. *)
Definition only_reads (fd : positive) (s s' : OpSt) : Prop :=
  same_blocks (op_fs s) (op_fs s') /\ st_ s' = st_ s /\ forall q, q <> fd -> op_files s' !! q = op_files s !! q.

Lemma fuse_read_ok s fd f ind n flags offset size :
  open_file s fd f ind n -> (Z.land flags O_ACCMODE =? O_WRONLY) = false -> 0 <= offset -> 0 <= size < 2 ^ 31 ->
  exists s' f' bs, fuse_read size offset (file_info (Some fd) flags) s = Ret (read_len (i_size ind) offset size, bs) s'
    /\ Z.of_nat (length bs) = read_len (i_size ind) offset size
    /\ (forall k, 0 <= k < Z.of_nat (length bs) -> bs !! Z.to_nat k = fbyte (op_fs s) ind (offset + k))
    /\ open_file s' fd f' ind n /\ (forall off, wstep fd (f_inode_id f) ind ind n n off [] s s')
    /\ f_inode_id f' = f_inode_id f /\ (f' = f \/ block_id_in_file_ f' < n) /\ only_reads fd s s'.
Proof.
  intros O Hfl Ho Hs. pose proof (of_state _ _ _ _ _ O) as W. pose proof (wstate_handle _ _ _ _ _ W) as Hh.
  pose proof (gb_wf _ _ _ _ (ws_grow _ _ _ _ _ W)) as Hwf. unfold fuse_read, file_info.
  cbn [_fuse_trans_info fi_fh fi_flags]. rewrite Hfl. unfold read_len.
  destruct (Z.leb_spec (i_size ind) offset) as [He|He].
  { exists s, f, []. split; [|split; [done|split; [cbn; lia|split; [done|split; [|split; [done|split; [by left|]]]]]]].
    3:{ split; [apply same_blocks_refl, (wf_inv _ Hwf)|done]. }
    - unfold copy_to_buf. apply body_stop. mstep (file_size_eq _ _ _ _ _ Hh). by rewrite (proj2 (Z.leb_le _ _)).
    - intros off. apply (wstep_same fd (f_inode_id f) ind n off s s); [apply W|apply same_blocks_refl, (wf_inv _ Hwf)|done|done]. }
  pose proof (gb_file _ _ _ _ (ws_grow _ _ _ _ _ W)) as Hok. pose proof (ws_fits _ _ _ _ _ W) as Hfit.
  assert (Hs32 : 0 <= i_size ind < 2 ^ 32) by (apply i_size_range, (gb_cell _ _ _ _ (ws_grow _ _ _ _ _ W))).
  destruct (copy_to_buf_reads (op_fs s) ind fd s f offset size Hh (of_ready _ _ _ _ _ O))
    as (s' & f' & bs & H & [HL Hb] & R); [|lia|lia|lia|].
  { intros m Hm Hlt. assert (Hmn : m < n) by (change BLOCK_SIZE with 4096 in *; lia).
    exists (blk (op_fs s) ind m). split; [by apply (file_ok_resolve _ _ n)|by apply (datas_used _ _ n)]. }
  destruct (reading_opened s s' fd f f' ind n O R) as (O' & S & Hlt).
  exists s', f', bs. split; [done|]. split; [done|].
  split; [|split; [done|split; [done|split; [apply (rd_id _ _ _ _ _ _ _ R)|split; [by right|]]]]].
  2:{ split; [apply (rd_handle _ _ _ _ _ _ _ R)|]. split; [apply (rd_caches _ _ _ _ _ _ _ R)|apply (rd_others _ _ _ _ _ _ _ R)]. }
  intros k Hk. rewrite HL in Hk. rewrite Hb by done.
  unfold fbyte. rewrite (file_blk_bytes _ _ n _ Hok); [done|].
  change BLOCK_SIZE with 4096 in *. Z.div_mod_to_equations. lia.
Qed.

(** What a read returns, in terms of the contents. *)
Lemma fuse_read_bytes s fd f ind n c flags offset size :
  open_file s fd f ind n -> holds s ind c -> Z.land flags O_ACCMODE <> O_WRONLY -> 0 <= offset -> 0 <= size < 2 ^ 31 ->
  let len := Z.of_nat (length c) in
  exists s' f' bs, fuse_read size offset (file_info (Some fd) flags) s = Ret (read_len len offset size, bs) s'
    /\ Z.of_nat (length bs) = read_len len offset size
    /\ take (Z.to_nat (len - offset)) bs = slice offset size c
    /\ open_file s' fd f' ind n /\ holds s' ind c
    /\ f_inode_id f' = f_inode_id f /\ (f' = f \/ block_id_in_file_ f' < n)
    /\ (forall off, wstep fd (f_inode_id f) ind ind n n off [] s s') /\ only_reads fd s s'.
Proof.
  intros O [HL Hc] Hfl Ho Hs len. apply Z.eqb_neq in Hfl.
  destruct (fuse_read_ok s fd f ind n flags offset size O Hfl Ho Hs) as (s' & f' & bs & H & Hl & Hb & O' & S & Hid & Hpos & Hro).
  unfold len. rewrite HL. exists s', f', bs. split; [done|]. split; [done|]. split; [|split; [done|split; [|done]]].
  - assert (Hsl : length (slice offset size c) = Z.to_nat (Z.max 0 (Z.min size (i_size ind - offset)))).
    { unfold slice. rewrite length_take, length_drop. lia. }
    apply list_eq_same_length with (n := length (slice offset size c)); [done| |].
    + rewrite length_take, Hsl. unfold read_len in Hl. destruct (Z.leb_spec (i_size ind) offset); [lia|].
      pose proof (Z.mod_pos_bound offset BLOCK_SIZE ltac:(done)). lia.
    + intros i x y Hi Hx Hy. rewrite Hsl in Hi. unfold slice in Hy.
      rewrite lookup_take_lt in Hx by lia. rewrite lookup_take_lt, lookup_drop in Hy by lia.
      pose proof (lookup_lt_Some _ _ _ Hx) as Hlt. specialize (Hb (Z.of_nat i) ltac:(lia)). rewrite Nat2Z.id, Hx in Hb.
      specialize (Hc (offset + Z.of_nat i) ltac:(lia)). rewrite <- Hb in Hc.
      replace (Z.to_nat (offset + Z.of_nat i)) with (Z.to_nat offset + i)%nat in Hc by lia. congruence.
  - split; [done|]. intros k Hk. rewrite Hc by done.
    rewrite (st_bytes (S 0)), overlay_nil.
    + unfold padded. rewrite (proj2 (Z.ltb_lt _ _)); [done|].
      pose proof (ws_fits _ _ _ _ _ (of_state _ _ _ _ _ O)). lia.
    + pose proof (ws_fits _ _ _ _ _ (of_state _ _ _ _ _ O)). lia.
Qed.

(** ** Histories *)

(** A sequence of writes, each at an offset. *)
Fixpoint run_writes (fd : positive) (flags : Z) (ws : list (Z * list byte)) : M OpSt (list Z) :=
  match ws with
  | [] => mret []
  | (offset, buf) :: ws' =>
      r ← fuse_write buf (Z.of_nat (length buf)) offset (file_info (Some fd) flags);
      rs ← run_writes fd flags ws';
      mret (r :: rs)
  end.

Definition put (flags : Z) (c : list byte) (w : Z * list byte) : list byte := splice (write_pos flags w.1 c) w.2 c.

(** All writes start inside the file or at its end, and stay below 4 GiB. *)
Fixpoint writes_fit (flags : Z) (ws : list (Z * list byte)) (c : list byte) : Prop :=
  match ws with
  | [] => True
  | w :: ws' =>
      0 < Z.of_nat (length w.2) < 2 ^ 31
      /\ 0 <= write_pos flags w.1 c <= Z.of_nat (length c)
      /\ write_pos flags w.1 c + Z.of_nat (length w.2) + BLOCK_SIZE < 2 ^ 32
      /\ writes_fit flags ws' (put flags c w)
  end.

Definition total_cost (ws : list (Z * list byte)) : Z :=
  foldr (fun w a => cost (Z.of_nat (length w.2)) + a) 0 ws.

Lemma total_cost_nonneg ws : 0 <= total_cost ws.
Proof.
  induction ws as [|w ws IH]; [done|].
  change (total_cost (w :: ws)) with (Z.of_nat (length w.2) / 4096 + 2 + total_cost ws).
  pose proof (Z.div_pos (Z.of_nat (length w.2)) 4096 ltac:(lia) ltac:(lia)). lia.
Qed.

(** ** Properties *)

(** C3. A write to an open file, at a position inside the file, at its end or
    by O_APPEND, writes all bytes and returns their number; afterwards the
    file holds the old contents with the bytes laid over them, extended when
    they reach past the end, however many direct, single or double indirect
    blocks that takes. *)
Theorem fuse_write_refines s fd n flags offset buf c k :
  open_as s fd n c -> write_pre s n flags offset buf c k ->
  exists s' n',
    fuse_write buf (Z.of_nat (length buf)) offset (file_info (Some fd) flags) s = Ret (Z.of_nat (length buf)) s'
    /\ open_as s' fd n' (splice (write_pos flags offset c) buf c) /\ budget s' n' k.
Proof.
  intros (f & ind & O & Hc) P. destruct (fuse_write_ok s fd f ind n flags offset buf c k O Hc P)
    as (s' & f' & ind' & n' & H & R & Hc' & Hb).
  exists s', n'. split; [done|]. split; [|done]. exists f', ind'. split; [|done].
  by apply (written_opened _ _ _ _ _ _ _ _ _ _ _ O R).
Qed.

(** C23. A write to an open file changes no block that another file or a
    directory uses and takes only blocks that were free; no other inode and
    no field of this inode but its size and block map changes, and the other
    open files stay open. *)
Theorem fuse_write_frame s fd f ind n flags offset buf c k :
  open_file s fd f ind n -> holds s ind c -> write_pre s n flags offset buf c k ->
  exists s' ind' n',
    fuse_write buf (Z.of_nat (length buf)) offset (file_info (Some fd) flags) s = Ret (Z.of_nat (length buf)) s'
    /\ cell (op_fs s') (InCopy (f_inode_id f)) ind' /\ attrs ind' = attrs ind
    /\ (forall j, allocated (op_fs s) j = true -> allocated (op_fs s') j = true)
    /\ (forall j, allocated (op_fs s) j = true -> (j ∉ tree (op_fs s) ind n) -> fview (op_fs s') j = fview (op_fs s) j)
    /\ (forall b, b ∈ tree (op_fs s') ind' n' -> b ∈ tree (op_fs s) ind n \/ allocated (op_fs s) b = false)
    /\ (forall ip v, ip <> InCopy (f_inode_id f) -> cell (op_fs s) ip v -> cell (op_fs s') ip v)
    /\ st_ s' = st_ s.
Proof.
  intros O Hc P. destruct (fuse_write_ok s fd f ind n flags offset buf c k O Hc P)
    as (s' & f' & ind' & n' & H & R & _). exists s', ind', n'. split; [done|].
  destruct (written_ready _ _ _ _ _ _ _ _ _ _ _ R) as (W & _ & _ & Hid).
  destruct (wr_step _ _ _ _ _ _ _ _ _ _ _ R) as (s1 & E1 & S). rewrite <- E1.
  pose proof (gb_cell _ _ _ _ (ws_grow _ _ _ _ _ W)) as Hcell. rewrite Hid, <- E1 in Hcell.
  split; [done|]. split; [apply (st_attrs S)|]. split; [apply (st_used S)|]. split; [apply (st_other S)|].
  split; [apply (st_new S)|]. split; [apply (st_cells S)|apply (wr_caches _ _ _ _ _ _ _ _ _ _ _ R)].
Qed.

(** C39. A write through one handle is seen through every other handle of the
    file whose cursor is inside it: both are then open on the contents with the
    bytes laid over them, and the cursor of the other one is still good, or
    marked to be recomputed. *)
Theorem fuse_write_seen_by_others s fd f q g ind n flags offset buf c k :
  open_file s fd f ind n -> open_file s q g ind n -> q <> fd -> f_inode_id g = f_inode_id f ->
  block_id_in_file_ g < n -> holds s ind c -> write_pre s n flags offset buf c k ->
  exists s' n',
    fuse_write buf (Z.of_nat (length buf)) offset (file_info (Some fd) flags) s = Ret (Z.of_nat (length buf)) s'
    /\ open_as s' fd n' (splice (write_pos flags offset c) buf c)
    /\ open_as s' q n' (splice (write_pos flags offset c) buf c).
Proof.
  intros O Og Hne Hid Hlt Hc P. destruct (fuse_write_ok s fd f ind n flags offset buf c k O Hc P)
    as (s' & f' & ind' & n' & H & R & Hc' & _).
  destruct (written_other _ _ _ _ _ _ _ _ _ _ _ q g O R Og Hne Hid Hlt) as (g' & Og').
  exists s', n'. split; [done|]. split; [exists f', ind'|exists g', ind']; (split; [|done]); [|done].
  by apply (written_opened _ _ _ _ _ _ _ _ _ _ _ O R).
Qed.

(** C7. A read of an open file, with a handle that may read, answers
    [read_len] bytes: from the offset on, as many as asked for or as there are
    up to the end of the file, and of these every one is the byte of the file.
    (When the end of the file is in the first block read, [read_len] goes on to
    the end of that block, and what the block has there is answered too.)  It
    only reads: every block, the groups, the inodes, the names and the other
    handles are as they were, and the file is open with the same contents. *)
Theorem fuse_read_refines s fd n c flags offset size :
  open_as s fd n c -> Z.land flags O_ACCMODE <> O_WRONLY -> 0 <= offset -> 0 <= size < 2 ^ 31 ->
  let len := Z.of_nat (length c) in
  exists s' bs, fuse_read size offset (file_info (Some fd) flags) s = Ret (read_len len offset size, bs) s'
    /\ Z.of_nat (length bs) = read_len len offset size
    /\ take (Z.to_nat (len - offset)) bs = slice offset size c
    /\ open_as s' fd n c
    /\ (forall j, fs_valid j -> fview (op_fs s') j = fview (op_fs s) j)
    /\ only_reads fd s s'.
Proof.
  intros (f & ind & O & Hc) Hfl Ho Hs len.
  destruct (fuse_read_bytes s fd f ind n c flags offset size O Hc Hfl Ho Hs)
    as (s' & f' & bs & H & Hl & Hb & O' & Hc' & _ & _ & _ & Hro).
  exists s', bs. do 3 (split; [done|]). split; [by exists f', ind|]. split; [|done].
  destruct Hro as [[_ (st & _ & _ & Hv)] _]. exact Hv.
Qed.

(** Any history of writes to an open file is the same as laying the bytes
    over its contents one after the other: the program refines the list of
    bytes, as long as there are enough free blocks. *)
Theorem run_writes_refines fd flags ws : forall s n c,
  open_as s fd n c -> may_write flags = true -> writes_fit flags ws c -> budget s n (total_cost ws) ->
  exists s' n', run_writes fd flags ws s = Ret (map (fun w => Z.of_nat (length w.2)) ws) s'
    /\ open_as s' fd n' (fold_left (put flags) ws c).
Proof.
  induction ws as [|[offset buf] ws IH]; intros s n c Ho Hm Hw Hb; [by exists s, n|].
  destruct Ho as (f & ind & O & Hc). destruct Hw as (Hl & Hp & H32 & Hw). cbn [fst snd] in *.
  destruct (fuse_write_ok s fd f ind n flags offset buf c (total_cost ws) O Hc)
    as (s1 & f1 & ind1 & n1 & H1 & R1 & Hc1 & Hb1).
  { constructor; [done|done|done|done| |apply total_cost_nonneg]. cbn in Hb. fold (total_cost ws) in Hb.
    by rewrite Z.add_comm. }
  destruct (IH s1 n1 (put flags c (offset, buf))) as (s' & n' & H2 & Ho'); [|done|done|done|].
  { exists f1, ind1. split; [|done]. by apply (written_opened _ _ _ _ _ _ _ _ _ _ _ O R1). }
  exists s', n'. split; [|done]. cbn [run_writes map fst snd]. mstep H1. by mstep H2.
Qed.

(** ** Instances of the properties *)

(** Two handles on the file of ten zeros in block 1. *)
Definition sample_handle : FileStatus := set_update_flag true (FileStatus_init 5).

Definition sample_io : OpSt :=
  mk_op (sample_fs {[ 5 := sample_reg ]}) {[ 5 := mk_icache 2 [2%positive; 1%positive] ]}
    {[ 1%positive := sample_handle; 2%positive := sample_handle ]} 3.

Lemma sample_open fd : fd = 1%positive \/ fd = 2%positive -> open_file sample_io fd sample_handle sample_reg 1.
Proof.
  intros Hfd. constructor.
  - constructor; [by destruct Hfd as [-> | ->]|apply sample_growable|by vm_compute].
  - split; [by vm_compute|]. split; [by exists 1; vm_compute|done].
  - right. by vm_compute.
  - exists (mk_icache 2 [2%positive; 1%positive]). split; [done|]. intros q Hq. cbn [vec] in Hq.
    apply elem_of_cons in Hq as [->|Hq]; [by eexists|]. apply list_elem_of_singleton in Hq as ->. by eexists.
Qed.

Lemma sample_holds : holds sample_io sample_reg (zeros 10).
Proof.
  split; [done|]. intros k Hk. change (i_size sample_reg) with 10 in Hk.
  assert (Hd : k / BLOCK_SIZE = 0 /\ k mod BLOCK_SIZE = k) by (change BLOCK_SIZE with 4096; Z.div_mod_to_equations; lia).
  unfold fbyte. destruct Hd as [-> ->].
  assert (Hv : fview (op_fs sample_io) (blk (op_fs sample_io) sample_reg 0) = zeros BLOCK_SIZE) by by vm_compute.
  rewrite Hv. unfold zeros. change BLOCK_SIZE with 4096. rewrite !lookup_replicate_2 by lia. done.
Qed.

Lemma sample_budget c : c <= 300 -> budget sample_io 1 c.
Proof.
  intros Hc. split; [|unfold MAX_BLOCKS; lia]. apply (room_le _ _ 1000); [apply sample_fs_room|lia].
Qed.

Definition sample_bytes : list byte := [Byte.x41; Byte.x42; Byte.x43].

(** Three bytes behind the ninth one: the file grows. *)
Lemma sample_write_pre : write_pre sample_io 1 O_RDWR 9 sample_bytes (zeros 10) 100.
Proof.
  constructor; [done|by vm_compute|by vm_compute|by vm_compute| |lia]. apply sample_budget. by vm_compute.
Qed.

Lemma fuse_write_refines_witness :
  exists s' n', fuse_write sample_bytes 3 9 (file_info (Some 1%positive) O_RDWR) sample_io = Ret 3 s'
    /\ open_as s' 1 n' (zeros 9 ++ sample_bytes).
Proof.
  destruct (fuse_write_refines sample_io 1 1 O_RDWR 9 sample_bytes (zeros 10) 100) as (s' & n' & H & Ho & _).
  - exists sample_handle, sample_reg. split; [by apply sample_open; left|exact sample_holds].
  - exact sample_write_pre.
  - exists s', n'. auto.
Defined.

Lemma fuse_write_frame_witness :
  exists s' ind', fuse_write sample_bytes 3 9 (file_info (Some 1%positive) O_RDWR) sample_io = Ret 3 s'
    /\ cell (op_fs s') (InCopy 5) ind' /\ attrs ind' = attrs sample_reg.
Proof.
  destruct (fuse_write_frame sample_io 1 sample_handle sample_reg 1 O_RDWR 9 sample_bytes (zeros 10) 100
              (sample_open 1 (or_introl eq_refl)) sample_holds sample_write_pre) as (s' & ind' & n' & H & H1 & H2 & _).
  exists s', ind'. auto.
Defined.

Lemma fuse_write_seen_by_others_witness :
  exists s' n', fuse_write sample_bytes 3 9 (file_info (Some 1%positive) O_RDWR) sample_io = Ret 3 s'
    /\ open_as s' 2 n' (zeros 9 ++ sample_bytes).
Proof.
  destruct (fuse_write_seen_by_others sample_io 1 sample_handle 2 sample_handle sample_reg 1 O_RDWR 9 sample_bytes (zeros 10) 100
              (sample_open 1 (or_introl eq_refl)) (sample_open 2 (or_intror eq_refl)) ltac:(done) eq_refl
              ltac:(by vm_compute) sample_holds sample_write_pre) as (s' & n' & H & _ & H2).
  exists s', n'. auto.
Defined.

Lemma fuse_read_refines_witness :
  exists s' bs, fuse_read 4 3 (file_info (Some 2%positive) O_RDONLY) sample_io = Ret (4, bs) s' /\ take 7 bs = zeros 4.
Proof.
  destruct (fuse_read_refines sample_io 2 1 (zeros 10) O_RDONLY 3 4) as (s' & bs & H & _ & Hb & _).
  - exists sample_handle, sample_reg. split; [by apply sample_open; right|exact sample_holds].
  - by vm_compute.
  - lia.
  - by vm_compute.
  - exists s', bs. split; [exact H|exact Hb].
Defined.

(** The second write appends to what the first one has made longer. *)
Lemma run_writes_refines_witness :
  exists s' n', run_writes 1 O_RDWR [(9, sample_bytes); (12, sample_bytes)] sample_io = Ret [3; 3] s'
    /\ open_as s' 1 n' (zeros 9 ++ sample_bytes ++ sample_bytes).
Proof.
  apply (run_writes_refines 1 O_RDWR [(9, sample_bytes); (12, sample_bytes)] sample_io 1 (zeros 10)).
  - exists sample_handle, sample_reg. split; [by apply sample_open; left|exact sample_holds].
  - done.
  - by vm_compute.
  - apply sample_budget. by vm_compute.
Defined.
