(* ===== verification/FsMount.v ===== *)
(** * Mounting: the constructor of FileSystem on an empty disk

    The file system that the constructor lays out fulfils the invariants
    that the other files start from: the cache is coherent, the descriptor
    counts the free blocks, free blocks are zero on disk, and the root
    directory is an empty file that can grow.  The clock is arbitrary. *)

From S2P Require Import Prelude Layout Disk Bitmap PathName Block BlockGroup BlockCache DentryCache.
From S2P Require Import FileSystem FileStatus OpenFiles FsBlocks FileData FsPointers FsAlloc FileBlocks FsInodes FileGrow.

(** ** What a flush writes *)

(** A block that [Block_flush] can write. *)
Definition flushable (b : Block) : Prop :=
  length (data_ b) = Z.to_nat BLOCK_SIZE /\ aligned (offset_ b) = true /\ 0 <= offset_ b < 2 ^ 31.

(** From [d] to [d'] nothing was written at [lim] or behind it. *)
Record written_below (lim : Z) (d d' : Disk) : Prop := {
  wb_wf : sectors_wf (sectors d) -> sectors_wf (sectors d');
  wb_size : disk_size d <= disk_size d';
  wb_above : forall off, aligned off = true -> lim <= off -> block_at d' off = block_at d off
}.

#[export] Instance written_below_preorder lim : PreOrder (written_below lim).
Proof.
  split; [by constructor|]. intros d1 d2 d3 [A1 A2 A3] [B1 B2 B3].
  constructor; [auto|lia|]. intros off Ha Hl. by rewrite B3, A3.
Qed.

Lemma flush_below lim d b :
  flushable b -> offset_ b + BLOCK_SIZE <= lim -> exists d', Block_flush b d = Ret 0 d' /\ written_below lim d d'.
Proof.
  intros (HL & Ha & Ho) Hlim. destruct (disk_write_block d (offset_ b) (data_ b)) as (d' & H & Hs & Hsz & _);
    [done|lia|rewrite i32_small; lia|done|].
  exists d'. split; [done|]. constructor; [|lia|].
  - intros Hwf. rewrite Hs. by apply sectors_wf_write.
  - intros off Hoa Hoff. unfold block_at. rewrite Hs. apply read_write_sectors_ne. right.
    unfold aligned, DISK_ALIGN, BLOCK_SIZE in *. apply Z.eqb_eq in Ha, Hoa.
    change (Z.of_nat SECTORS_PER_BLOCK) with 8. Z.div_mod_to_equations. lia.
Qed.

Lemma flush_blocks_below lim bs : forall d,
  (forall b, b ∈ bs -> flushable b /\ offset_ b + BLOCK_SIZE <= lim) ->
  exists d', flush_blocks bs d = Ret tt d' /\ written_below lim d d'.
Proof.
  induction bs as [|b bs IH]; intros d Hb; [by exists d|].
  destruct (Hb b) as [Hf Hl]; [by constructor|]. destruct (flush_below lim d b Hf Hl) as (d1 & H1 & A).
  destruct (IH d1) as (d' & H2 & B); [intros b' Hb'; apply Hb; by constructor|].
  exists d'. split; [cbn; by mstep H1|by etransitivity].
Qed.

(** ** The root inode *)

(** Where the blocks of an inode table come from does not change. *)
Definition table_offsets (s : FS) (gi : Z) : option (gmap Z Z) := (fun g => offset_ <$> inode_table_ g) <$> fs_groups s !! gi.

Lemma table_offsets_eq s gi g : fs_groups s !! gi = Some g -> table_offsets s gi = Some (offset_ <$> inode_table_ g).
Proof. intros H. unfold table_offsets. by rewrite H. Qed.

Lemma istore_offsets gi i w s s' gj :
  istore (InTable gi i) w s = Ret tt s' -> table_offsets s' gj = table_offsets s gj.
Proof.
  unfold istore. rewrite (bind_ret _ _ _ s s) by done. destruct (fs_groups s !! gi) as [g|] eqn:Hg; [|done].
  rewrite (bind_ret _ _ _ g s) by done. unfold inode_store.
  destruct (inode_table_ g !! (i / INODES_PER_BLOCK)) as [b|] eqn:Hb; [|done]. cbn. intros [= <-]. unfold table_offsets. cbn.
  destruct (decide (gj = gi)) as [->|]; [|by rewrite lookup_insert_ne].
  rewrite lookup_insert_eq, Hg. cbn. f_equal. apply map_eq. intros k. rewrite !lookup_fmap.
  destruct (decide (k = i / INODES_PER_BLOCK)) as [->|]; [by rewrite lookup_insert_eq, Hb|by rewrite lookup_insert_ne].
Qed.

Lemma iupdate_offsets gi i f s s' gj :
  iupdate (InTable gi i) f s = Ret tt s' -> table_offsets s' gj = table_offsets s gj.
Proof.
  unfold iupdate. intros H. minv H as v s1 H1. assert (s1 = s) as ->.
  { unfold iload in H1. minv H1 as x s2 H2. injection H2 as <- <-. destruct (fs_groups s !! gi) as [g|]; [|done].
    rewrite (bind_ret _ _ _ g s) in H1 by done. destruct (inode_load i g); [by injection H1|done]. }
  by apply (istore_offsets gi i (f v)).
Qed.

(** ** The layout of an empty disk *)

Definition blank : Disk := disk_empty (MAX_GROUPS * MAX_BLOCK_GROUP_SIZE).

(** The states of the constructor on the empty disk: after the super block
    was laid out, after group 0 was read and found without a root inode, and
    after the root inode was taken. *)
Definition state_of {S A} (default : S) (o : outcome S A) : S :=
  match o with
  | Ret _ s => s
  | Fault _ => default
  end.

Definition mount_start : FS :=
  match SuperBlock_init blank with
  | Ret sb d =>
      mk_fs (mk_store d ∅ 1%positive (BlockCache_init BLOCK_CACHE_SIZE)) sb ∅
        (state_of sample_dcache (DentryCache_init BLOCK_CACHE_SIZE)) ∅
  | Fault _ => sample_fs ∅
  end.

Definition mount_loaded : FS :=
  state_of mount_start ((_ ← load_group 0; on_group 0 (group_get_inode ROOT_INODE)) mount_start).

Definition laid_out : FS := state_of mount_start (on_group 0 (group_alloc_inode S_IFDIR) mount_loaded).

Lemma mount_super : SuperBlock_init blank = Ret (fs_super mount_start) (st_disk (fs_store mount_start)).
Proof. vm_cast_no_check (@eq_refl _ (SuperBlock_init blank)). Qed.

Lemma mount_dentry : exists p, DentryCache_init BLOCK_CACHE_SIZE = Ret p (fs_dentry mount_start).
Proof. eexists. vm_compute. reflexivity. Qed.

Lemma mount_start_eq :
  mk_fs (mk_store (st_disk (fs_store mount_start)) ∅ 1%positive (BlockCache_init BLOCK_CACHE_SIZE))
    (fs_super mount_start) ∅ (fs_dentry mount_start) ∅ = mount_start.
Proof. vm_cast_no_check (@eq_refl _ (mount_start)). Qed.

Lemma mount_loads : (_ ← load_group 0; on_group 0 (group_get_inode ROOT_INODE)) mount_start = Ret None mount_loaded.
Proof. vm_cast_no_check (@eq_refl _ (Ret None mount_loaded : outcome FS (option Z))). Qed.

Lemma mount_takes : on_group 0 (group_alloc_inode S_IFDIR) mount_loaded = Ret (Some 0) laid_out.
Proof. vm_cast_no_check (@eq_refl _ (Ret (Some 0) laid_out : outcome FS (option Z))). Qed.

Definition root_group : BlockGroup := default (sample_group []) (fs_groups laid_out !! 0).

Lemma laid_out_groups gi g : fs_groups laid_out !! gi = Some g -> gi = 0 /\ g = root_group.
Proof.
  intros H. apply elem_of_map_to_list in H. assert (E : map_to_list (fs_groups laid_out) = [(0, root_group)]).
  { vm_cast_no_check (@eq_refl _ [(0, root_group)]). }
  rewrite E in H. apply list_elem_of_singleton in H. apply pair_equal_spec in H. exact H.
Qed.

Lemma laid_out_bitmap : block_bitmap_ root_group = mk_block (bitmap_off 0) (zeros BLOCK_SIZE).
Proof. vm_compute. reflexivity. Qed.

#[local] Abbreviation laid_disk := (st_disk (fs_store laid_out)).

Lemma laid_out_group : fs_groups laid_out !! 0 = Some root_group.
Proof. vm_cast_no_check (@eq_refl _ (Some root_group)). Qed.

Lemma laid_out_store : fs_store laid_out = store_init laid_disk BLOCK_CACHE_SIZE.
Proof. vm_cast_no_check (@eq_refl _ (fs_store laid_out)). Qed.

Lemma laid_disk_wf : sectors_wf (sectors laid_disk).
Proof. apply (bool_decide_unpack _). vm_compute. exact I. Qed.

(** Only the super block has been written. *)
Lemma laid_disk_zero off : BLOCK_SIZE <= off -> block_at laid_disk off = zeros BLOCK_SIZE.
Proof.
  intros Ho. rewrite <- (block_at_empty 0 off). unfold block_at. apply read_sectors_ext. intros j Hj.
  assert (Hall : map_Forall (fun k _ => k < 8) (sectors laid_disk)) by (apply (bool_decide_unpack _); vm_compute; exact I).
  unfold sector. destruct (sectors laid_disk !! (off / DISK_ALIGN + j)) as [b|] eqn:E; [|done].
  specialize (Hall _ _ E). cbv beta in Hall. unfold DISK_ALIGN, BLOCK_SIZE in *. Z.div_mod_to_equations. lia.
Qed.

Lemma laid_out_free i : allocated laid_out i = false.
Proof.
  unfold allocated. destruct (fs_groups laid_out !! (i / TOTAL_BLOCKS_PER_GROUP)) as [g|] eqn:Hg; [|reflexivity].
  apply laid_out_groups in Hg as [_ ->]. rewrite laid_out_bitmap.
  destruct (Z.ltb_spec (i mod TOTAL_BLOCKS_PER_GROUP) BLOCKS_PER_GROUP) as [Hlt|]; [|reflexivity]. cbn [andb].
  pose proof (Z.mod_pos_bound i TOTAL_BLOCKS_PER_GROUP ltac:(done)).
  apply bm_bit_zeros. change BITS with BLOCKS_PER_GROUP. lia.
Qed.

Lemma laid_out_inv : fs_inv laid_out.
Proof.
  constructor.
  - by vm_compute.
  - intros gi g Hg. apply laid_out_groups in Hg as [-> ->]. rewrite laid_out_bitmap. by vm_compute.
  - exists []. rewrite laid_out_store. split; [apply store_init_ok; [exact laid_disk_wf|by vm_compute]|].
    intros e He. by apply elem_of_nil in He.
  - by vm_compute.
  - rewrite laid_out_store. intros p [b Hb]. cbn [store_init st_mem] in Hb. by rewrite lookup_empty in Hb.
  - by vm_compute.
Qed.

Lemma laid_out_itab : itab_wf root_group.
Proof. apply (bool_decide_unpack _). vm_compute. exact I. Qed.

Lemma laid_out_placed : table_placed 0 root_group.
Proof. apply (bool_decide_unpack _). vm_compute. exact I. Qed.

Lemma laid_out_wf : fs_wf laid_out.
Proof.
  constructor; [exact laid_out_inv|by vm_compute|by vm_compute| | |constructor; [by vm_compute|by vm_compute|]];
    intros gi g Hg; apply laid_out_groups in Hg as [-> ->];
    [|split; [exact laid_out_itab|exact laid_out_placed]|by vm_compute]. split; [by vm_compute|]. split; [by vm_compute|].
  rewrite laid_out_bitmap, free_bits_zeros. by vm_compute.
Qed.

Lemma laid_out_zero : free_zero laid_out.
Proof.
  intros i (Hi & Hg & Hm) _. apply laid_disk_zero. unfold fs_off, bitmap_off. rewrite TBPG_eq, MAXB_eq, ITB_eq in *.
  change BLOCK_SIZE with 4096. Z.div_mod_to_equations. lia.
Qed.

Lemma laid_out_table : offset_ <$> inode_table_ root_group = {[ 0 := 3 * BLOCK_SIZE ]}.
Proof. vm_compute. reflexivity. Qed.

Definition root_zero : ext2_inode := default inode_zero (inode_load 0 root_group).

Lemma laid_out_root : cell laid_out root_inode_ root_zero.
Proof.
  split; [by vm_compute|]. exists root_group. split; [exact laid_out_group|]. split; [exact laid_out_itab|].
  vm_compute. reflexivity.
Qed.

Lemma root_bitmaps : flushable (block_bitmap_ root_group) /\ flushable (inode_bitmap_ root_group).
Proof. split; (split; [|split; [|split]]); vm_compute; congruence. Qed.

(** ** The root inode is filled, and the group written *)

Section Mount.
Context {clock : Clock}.

Definition root_mode (v : ext2_inode) : ext2_inode :=
  set_i_mode (Z.lor S_IFDIR (Z.lor EXT2_S_IRUSR (Z.lor EXT2_S_IRGRP EXT2_S_IROTH))) v.

Definition root_dir : ext2_inode := root_mode (inode_init root_zero).

Lemma root_filled :
  exists s, (_ ← iupdate root_inode_ inode_init; iupdate root_inode_ root_mode) laid_out = Ret tt s
    /\ cell s root_inode_ root_dir /\ inode_only laid_out s /\ table_offsets s 0 = table_offsets laid_out 0.
Proof.
  destruct (cell_update laid_out root_inode_ root_zero inode_init laid_out_root) as (s1 & H1 & S1).
  { apply inode_wf_init, laid_out_root. }
  destruct (cell_update s1 root_inode_ (inode_init root_zero) root_mode) as (s2 & H2 & S2).
  { apply S1. }
  { apply inode_wf_set_i_mode. apply S1. }
  exists s2. split; [by mstep H1|]. split; [apply S2|]. split; [transitivity s1; [apply S1|apply S2]|].
  by rewrite (iupdate_offsets _ _ _ _ _ 0 H2), (iupdate_offsets _ _ _ _ _ 0 H1).
Qed.

(** The blocks that the flush of group 0 writes lie below its data. *)
Lemma group_flushes g d :
  group_rest g = group_rest root_group -> itab_wf g -> offset_ <$> inode_table_ g = {[ 0 := 3 * BLOCK_SIZE ]} ->
  exists d', flush_groups [g] d = Ret tt d' /\ written_below (4 * BLOCK_SIZE) d d'.
Proof.
  intros Hr Hit Hoff. unfold group_rest in Hr. apply pair_equal_spec in Hr as [Hr Hib]. apply pair_equal_spec in Hr as [_ Hbb].
  destruct (flush_below (4 * BLOCK_SIZE) d (block_bitmap_ g)) as (d1 & H1 & A1).
  { rewrite Hbb. exact (proj1 root_bitmaps). }
  { rewrite Hbb. vm_compute. congruence. }
  destruct (flush_below (4 * BLOCK_SIZE) d1 (inode_bitmap_ g)) as (d2 & H2 & A2).
  { rewrite Hib. exact (proj2 root_bitmaps). }
  { rewrite Hib. vm_compute. congruence. }
  destruct (flush_blocks_below (4 * BLOCK_SIZE)
    (omap (fun k => inode_table_ g !! k) (sorted_keys (inode_table_ g))) d2) as (d3 & H3 & A3).
  { intros b Hb. apply list_elem_of_omap in Hb as (k & _ & Hk).
    assert (E : (offset_ <$> inode_table_ g) !! k = Some (offset_ b)) by (by rewrite lookup_fmap, Hk).
    rewrite Hoff in E. apply lookup_singleton_Some in E as [_ E]. clear Hbb Hib H1 H2 A1 A2.
    unfold flushable. rewrite <- E. split; [split; [exact (Hit _ _ Hk)|]|vm_compute; discriminate].
    split; [reflexivity|]. split; [vm_compute; discriminate|reflexivity]. }
  exists d3. split.
  - cbn [flush_groups]. rewrite (bind_ret _ _ _ tt d3); [done|]. unfold BlockGroup_flush. mstep H1. by mstep H2.
  - transitivity d1; [done|]. by transitivity d2.
Qed.

(** The constructor, step by step. *)
Lemma mount_steps dk sb d dc s0 p s1 i s2 s3 s4 :
  SuperBlock_init dk = Ret sb d -> DentryCache_init BLOCK_CACHE_SIZE = Ret p dc ->
  mk_fs (mk_store d ∅ 1%positive (BlockCache_init BLOCK_CACHE_SIZE)) sb ∅ dc ∅ = s0 ->
  (_ ← load_group 0; on_group 0 (group_get_inode ROOT_INODE)) s0 = Ret None s1 ->
  on_group 0 (group_alloc_inode S_IFDIR) s1 = Ret (Some i) s2 ->
  (_ ← iupdate (InTable 0 i) inode_init; iupdate (InTable 0 i) root_mode) s2 = Ret tt s3 ->
  (gs ← reads groups_in_order; on_fsdisk (flush_groups gs)) s3 = Ret tt s4 ->
  fs_mount dk = Ret tt s4.
Proof.
  intros H1 H2 H3 H4 H5 H6 H7. unfold fs_mount. rewrite H1, H2. cbv zeta. rewrite H3.
  rewrite <- (bind_assoc (load_group 0) (fun _ => on_group 0 (group_get_inode ROOT_INODE))). mstep H4.
  rewrite bind_assoc. mstep H5. rewrite bind_assoc, (bind_ret _ _ _ i s2) by done. by mstep H6.
Qed.

Lemma one_group s g :
  (forall gi h, fs_groups s !! gi = Some h -> gi = 0) -> fs_groups s !! 0 = Some g -> groups_in_order s = [g].
Proof.
  intros Hd Hg. assert (E : fs_groups s = {[ 0 := g ]}).
  { apply map_eq. intros k. destruct (decide (k = 0)) as [->|Hk]; [by rewrite lookup_singleton_eq|].
    rewrite lookup_singleton_ne by congruence. destruct (fs_groups s !! k) eqn:Ek; [|done]. by apply Hd in Ek. }
  unfold groups_in_order. rewrite E. unfold sorted_keys. rewrite dom_singleton_L, elements_singleton.
  change (merge_sort Z.le [0]) with [0]. cbn [omap list_omap]. by rewrite lookup_singleton_eq.
Qed.

Lemma flush_mem s gs d0 d n :
  groups_in_order s = gs -> fs_store s = store_init d0 n -> flush_groups gs d0 = Ret tt d ->
  (gs ← reads groups_in_order; on_fsdisk (flush_groups gs)) s = Ret tt (with_store (store_init d n) s).
Proof.
  intros Hgs Hst Hf. rewrite (bind_ret _ _ _ gs s) by (by rewrite <- Hgs).
  unfold on_fsdisk, on_store, on_store_disk, zoom. rewrite Hst. cbn [store_init st_disk]. by rewrite Hf.
Qed.

(** The last step: flushing the group. *)
Lemma mount_flush s :
  inode_only laid_out s -> cell s root_inode_ root_dir -> table_offsets s 0 = table_offsets laid_out 0 ->
  exists d, (gs ← reads groups_in_order; on_fsdisk (flush_groups gs)) s
      = Ret tt (with_store (store_init d BLOCK_CACHE_SIZE) s)
    /\ written_below (4 * BLOCK_SIZE) laid_disk d.
Proof.
  intros O [_ (g & Hg & Hit & _)] Hoff.
  destruct (inode_only_group _ _ _ _ O Hg) as (g0 & Hg0 & Hrest). apply laid_out_groups in Hg0 as [_ ->].
  rewrite (table_offsets_eq s 0 g Hg), (table_offsets_eq laid_out 0 root_group laid_out_group) in Hoff.
  apply (inj Some) in Hoff. rewrite laid_out_table in Hoff.
  destruct (group_flushes g laid_disk Hrest Hit Hoff) as (d & Hd & Hb). exists d. split; [|exact Hb].
  apply (flush_mem s [g] laid_disk d BLOCK_CACHE_SIZE); [|exact (eq_trans (io_store _ _ O) laid_out_store)|exact Hd].
  apply one_group; [|exact Hg].
  intros gi h Hh. destruct (inode_only_group _ _ _ _ O Hh) as (h0 & Hh0 & _). by apply laid_out_groups in Hh0 as [-> _].
Qed.

Lemma fs_off_above i : fs_valid i -> aligned (fs_off i) = true /\ 4 * BLOCK_SIZE <= fs_off i.
Proof.
  intros (Hi & Hg & Hm). unfold fs_off, bitmap_off, aligned. rewrite TBPG_eq, MAXB_eq, ITB_eq in *.
  unfold DISK_ALIGN. change BLOCK_SIZE with 4096. split; [apply Z.eqb_eq|]; Z.div_mod_to_equations; lia.
Qed.

(** The root directory of the new file system is empty and can grow. *)
Lemma mount_blank :
  exists s, fs_mount blank = Ret tt s /\ fs_wf s /\ free_zero s /\ room s BLOCKS_PER_GROUP
    /\ (forall j, allocated s j = false) /\ growable s root_inode_ root_dir 0
    /\ fs_super s = fs_super laid_out /\ fs_dentry s = fs_dentry laid_out
    /\ (forall g, fs_groups s !! 0 = Some g -> inode_bitmap_ g = inode_bitmap_ root_group)
    /\ (forall gi g, fs_groups s !! gi = Some g -> gi = 0 /\ offset_ <$> inode_table_ g = {[ 0 := 3 * BLOCK_SIZE ]})
    /\ size_ (st_cache (fs_store s)) = BLOCK_CACHE_SIZE.
Proof.
  destruct root_filled as (s & Hu & Hc & O & Hoff). destruct (mount_flush s O Hc Hoff) as (d & Hf & Hb).
  set (s' := with_store (store_init d BLOCK_CACHE_SIZE) s) in *.
  pose proof (inode_only_wf _ _ O laid_out_wf) as Hwf.
  assert (Hal : forall j, allocated s' j = false).
  { intros j. change (allocated s' j) with (allocated s j). rewrite (inode_only_allocated _ _ j O). apply laid_out_free. }
  assert (Hwf' : fs_wf s').
  { apply fs_wf_store; [exact Hwf|]. apply (fs_inv_store s _ []); [apply (wf_inv _ Hwf)| | | | |].
    - apply store_init_ok; [|vm_compute; discriminate]. apply (wb_wf _ _ _ Hb), laid_disk_wf.
    - intros e He. destruct (not_elem_of_nil e He).
    - reflexivity.
    - intros p [b Hp]. cbn [store_init st_mem] in Hp. rewrite lookup_empty in Hp. discriminate.
    - rewrite (io_store _ _ O). apply (wb_size _ _ _ Hb). }
  assert (Hz : free_zero s').
  { intros i Hi _. destruct (fs_off_above i Hi) as [Ha Hl]. cbn [s' with_store fs_store store_init st_disk].
    rewrite (wb_above _ _ _ Hb _ Ha Hl). apply laid_disk_zero. clear -Hl. change BLOCK_SIZE with 4096 in *. lia. }
  exists s'. split; [|split; [exact Hwf'|split; [exact Hz|split; [|split; [exact Hal|split; [|split; [|split; [|split; [|split]]]]]]]]].
  - destruct mount_dentry as [p Hp].
    exact (mount_steps _ _ _ _ _ p _ _ _ _ _ mount_super Hp mount_start_eq mount_loads mount_takes Hu Hf).
  - change (room s BLOCKS_PER_GROUP). apply (inode_only_room laid_out); [exact O|].
    exists 0, root_group. split; [exact laid_out_group|]. rewrite laid_out_bitmap, free_bits_zeros. vm_compute. discriminate.
  - constructor; [exact Hwf'|exact Hz|vm_compute; discriminate| | | |].
    + apply (cell_meta s); [apply same_meta_store|exact Hc].
    + reflexivity.
    + reflexivity.
    + constructor; [vm_compute; split; discriminate|change (NoDup (@nil Z)); constructor|].
      intros b Hbn. change (b ∈ @nil Z) in Hbn. destruct (not_elem_of_nil b Hbn).
  - exact (io_super _ _ O).
  - exact (io_dentry _ _ O).
  - intros g Hg. change (fs_groups s !! 0 = Some g) in Hg. destruct (inode_only_group _ _ _ _ O Hg) as (g0 & Hg0 & Hrest).
    apply laid_out_groups in Hg0 as [_ ->]. unfold group_rest in Hrest. apply pair_equal_spec in Hrest as [_ Hrest]. exact Hrest.
  - intros gi g Hg. change (fs_groups s !! gi = Some g) in Hg. destruct (inode_only_group _ _ _ _ O Hg) as (g0 & Hg0 & _).
    apply laid_out_groups in Hg0 as [-> _]. split; [reflexivity|].
    rewrite (table_offsets_eq s 0 g Hg), (table_offsets_eq laid_out 0 root_group laid_out_group) in Hoff.
    apply (inj Some) in Hoff. rewrite laid_out_table in Hoff. exact Hoff.
  - reflexivity.
Qed.
End Mount.

(** ** Reachable states *)

(** The steps between two states of the mounted file system: reading or
    writing a block in use, taking a block, growing an inode, assigning to
    fields of an inode, and looking for a block that is not in use. *)
Inductive fs_step (s s' : FS) : Prop :=
| step_block i dirty offset buf n r :
    allocated s i = true -> 0 <= offset -> 0 <= n -> offset + n <= BLOCK_SIZE ->
    (dirty = true -> n <= Z.of_nat (length buf)) ->
    get_block_copy i dirty offset buf n s = Ret r s' -> fs_step s s'
| step_absent i g r :
    fs_groups s !! (i / TOTAL_BLOCKS_PER_GROUP) = Some g -> i mod TOTAL_BLOCKS_PER_GROUP < BLOCKS_PER_GROUP ->
    allocated s i = false -> get_block i s = Ret r s' -> fs_step s s'
| step_alloc old r : room s 1 -> alloc_block old s = Ret r s' -> fs_step s s'
| step_grow ip ind n old r :
    growable s ip ind n -> room s 3 -> n < MAX_BLOCKS -> alloc_block_inode old ip s = Ret r s' -> fs_step s s'
| step_inode ip v f : cell s ip v -> inode_wf (f v) = true -> iupdate ip f s = Ret tt s' -> fs_step s s'.

Lemma fs_step_wf s s' : fs_step s s' -> fs_wf s -> free_zero s -> fs_wf s' /\ free_zero s'.
Proof.
  intros S Hwf Hz. pose proof (wf_inv _ Hwf) as Hinv. destruct S as [i dirty offset buf n r Ha Ho Hn Hon Hb H
    |i g r Hg Hm Ha H|old r Hr H|ip ind n old r B Hr Hn H|ip v f Hc Hf H].
  - destruct (get_block_copy_ok s i dirty offset buf n Hinv Ha Ho Hn Hon Hb) as (p & st & H' & Hinv' & _ & _ & _ & Hv).
    rewrite H' in H. injection H as _ <-. split; [by apply fs_wf_store|].
    apply (free_zero_view s); [done|done| |done]. intros j Hj Haj. rewrite allocated_with_store in Haj.
    split; [done|]. rewrite Hv by done. destruct (Z.eqb_spec j i) as [->|]; [congruence|done].
  - unfold get_block in H. rewrite (bind_ret _ _ _ None s) in H by by apply (get_block_copy_free s i false 0 [] 0 g).
    by injection H as _ <-.
  - destruct (alloc_block_ok s old Hwf Hz Hr) as (p & idx & s1 & H' & P). rewrite H' in H. injection H as _ <-.
    split; apply P.
  - destruct (grow_ok s ip ind n old B Hr Hn) as (p & idx & s1 & ind' & H' & G). rewrite H' in H. injection H as _ <-.
    split; apply G.
  - destruct (cell_update s ip v f Hc Hf) as (s1 & H' & S). rewrite H' in H. injection H as <-.
    split; [apply (inode_only_wf s); [apply S|done]|apply (inode_only_zero s); [apply S|done]].
Qed.

(** ** Properties *)

(** C8. Mounting an empty disk succeeds, whatever the clock says, with all
    blocks of its group free and an empty root directory that can grow; in
    every state that can be reached from there by reading and writing blocks
    in use, taking blocks, growing files and assigning to inodes, the cache
    is coherent, the descriptors count the free blocks, and free blocks are
    zero on disk, which is what the properties of allocation, growth and file
    contents start from. *)
Theorem mounted_reachable {clock : Clock} :
  exists s0, fs_mount blank = Ret tt s0 /\ growable s0 root_inode_ root_dir 0 /\ room s0 BLOCKS_PER_GROUP
    /\ forall s, rtc fs_step s0 s -> fs_wf s /\ free_zero s.
Proof.
  destruct mount_blank as (s0 & H & Hwf & Hz & Hr & _ & Hg & _). exists s0. do 3 (split; [assumption|]).
  intros s Hs. clear H Hr Hg. induction Hs as [|s0 s1 s2 Hstep _ IH]; [auto|].
  destruct (fs_step_wf s0 s1 Hstep Hwf Hz). auto.
Qed.
