(* ===== verification/FsPersist.v ===== *)
(** * FsPersist: flush, and mounting what was flushed

    FileSystem::flush (the destructor does the same) writes the super block,
    the bitmaps and table blocks of the loaded groups and the modified blocks
    of the cache; the constructor reads them back, the tables only when they
    are asked for.  For a file system of one group, the mounted state has the
    same blocks, the same bitmaps and, once they are asked for, the same
    inodes as the one that was flushed. *)

From S2P Require Import Prelude Layout Disk Bitmap PathName Block BlockGroup BlockCache DentryCache.
From S2P Require Import FileSystem FileStatus OpenFiles FsBlocks FileData FsPointers FsAlloc FileBlocks FsInodes FileGrow FileWrite FsMount.

(** ** The blocks of the disk

    Block [m] below the data blocks of group 0 (the super block, the two
    bitmaps and the inode table) gets the number [-1 - m], so that a place of
    the disk is a number whether it holds data or not. *)

Definition META : Z := 2 + NUM_INODE_TABLE_BLOCKS.

Definition all_off (i : Z) : Z := if i <? 0 then (-1 - i) * BLOCK_SIZE else fs_off i.

Definition all_valid (i : Z) : Prop := fs_valid i \/ - META <= i < 0.

Lemma all_off_meta m : 0 <= m -> all_off (-1 - m) = m * BLOCK_SIZE.
Proof. intros H. unfold all_off. rewrite (proj2 (Z.ltb_lt _ _)) by lia. f_equal. lia. Qed.

Lemma all_off_data i : fs_valid i -> all_off i = fs_off i.
Proof. intros (H & _). unfold all_off. by rewrite (proj2 (Z.ltb_ge _ _)). Qed.

Lemma all_valid_meta m : 0 <= m < META -> all_valid (-1 - m).
Proof. intros H. right. lia. Qed.

(** Data starts where the metadata of group 0 ends. *)
Lemma fs_off_data i : fs_valid i -> META * BLOCK_SIZE <= fs_off i.
Proof.
  intros (Hi & Hg & Hm). unfold fs_off, bitmap_off, META. rewrite TBPG_eq, MAXB_eq, ITB_eq in *.
  change BLOCK_SIZE with 4096. Z.div_mod_to_equations. lia.
Qed.

Lemma all_offsets_ok : offsets_ok all_off all_valid.
Proof.
  destruct fs_offsets_ok as [A1 A2 A3 A4]. change META with 1026 in *.
  assert (Hm : forall i, - 1026 <= i < 0 -> exists m, i = -1 - m /\ 0 <= m < 1026)
    by (intros i Hi; exists (-1 - i); lia).
  constructor.
  - intros i [Hi|(m & -> & H)%Hm]; [rewrite all_off_data by done; auto|]. rewrite all_off_meta by lia.
    unfold aligned, DISK_ALIGN. change BLOCK_SIZE with 4096. apply Z.eqb_eq. Z.div_mod_to_equations. lia.
  - intros i [Hi|(m & -> & H)%Hm]; [rewrite all_off_data by done; auto|]. rewrite all_off_meta by lia.
    change BLOCK_SIZE with 4096. lia.
  - intros i [Hi|(m & -> & H)%Hm]; [rewrite all_off_data by done; auto|]. rewrite all_off_meta by lia.
    change BLOCK_SIZE with 4096. rewrite i32_small; lia.
  - intros i j [Hi|(m & -> & H)%Hm] [Hj|(n & -> & K)%Hm] Hne;
      rewrite ?(all_off_data i), ?(all_off_data j), ?all_off_meta by (done || lia); [by apply A4|..].
    + right. pose proof (fs_off_data i Hi). change META with 1026 in *. change BLOCK_SIZE with 4096 in *. lia.
    + left. pose proof (fs_off_data j Hj). change META with 1026 in *. change BLOCK_SIZE with 4096 in *. lia.
    + change BLOCK_SIZE with 4096. lia.
Qed.

Lemma store_ok_all l st : store_ok fs_off fs_valid l st -> store_ok all_off all_valid l st.
Proof.
  intros [A1 A2 A3 A4]. constructor; [done|done| |done]. intros e He.
  destruct (A3 e He) as (Hv & b & Hb). split; [by left|]. exists b. by rewrite all_off_data.
Qed.

Lemma store_ok_data l st : store_ok all_off all_valid l st -> (forall e, e ∈ l -> fs_valid (Lru.key e)) ->
  store_ok fs_off fs_valid l st.
Proof.
  intros [A1 A2 A3 A4] Hv. constructor; [done|done| |done]. intros e He.
  destruct (A3 e He) as (_ & b & Hb). split; [auto|]. exists b. by rewrite <- all_off_data by auto.
Qed.

Lemma view_data i st : fs_valid i -> view all_off st i = view fs_off st i.
Proof. intros H. unfold view. by rewrite all_off_data. Qed.

(** Metadata is never in the cache. *)
Lemma view_meta l st i : store_ok fs_off fs_valid l st -> i < 0 ->
  view all_off st i = block_at (st_disk st) (all_off i).
Proof.
  intros Hok Hi. pose proof (store_ok_all l st Hok) as Hok'. rewrite (view_find _ _ _ _ _ Hok').
  destruct (Lru.find i l) as [e|] eqn:E; [|done]. apply find_key in E as [He Hk].
  destruct (ok_entries _ _ _ _ Hok e He) as ((H0 & _) & _). lia.
Qed.

(** ** Writing metadata blocks *)

Definition meta_block (b : Block) : Prop :=
  length (data_ b) = Z.to_nat BLOCK_SIZE /\ exists m, 0 <= m < META /\ offset_ b = m * BLOCK_SIZE.

(** From [d] to [d'] the blocks [bs] were written. *)
Record wrote (bs : list Block) (d d' : Disk) : Prop := {
  wr_wf : sectors_wf (sectors d) -> sectors_wf (sectors d');
  wr_size : disk_size d <= disk_size d';
  wr_in : forall b, b ∈ bs -> block_at d' (offset_ b) = data_ b;
  wr_out : forall i, all_valid i -> all_off i ∉ offset_ <$> bs ->
    block_at d' (all_off i) = block_at d (all_off i)
}.

Lemma flush_wrote b d : meta_block b -> exists d', Block_flush b d = Ret 0 d' /\ wrote [b] d d'.
Proof.
  intros (HL & m & Hm & Ho). pose proof (all_valid_meta m Hm) as Hv.
  assert (Eo : offset_ b = all_off (-1 - m)) by (rewrite Ho; symmetry; apply all_off_meta; lia).
  destruct all_offsets_ok as [A1 A2 A3 A4].
  destruct (disk_write_block d (offset_ b) (data_ b)) as (d' & H & Hs & Hsz & _); [rewrite Eo; auto..|done|].
  exists d'. split; [done|]. constructor.
  - intros Hwf. rewrite Hs. by apply sectors_wf_write.
  - lia.
  - intros b' ->%list_elem_of_singleton. unfold block_at. rewrite Hs. by apply read_write_sectors_eq.
  - intros i Hi Hni. unfold block_at. rewrite Hs. apply read_write_sectors_ne.
    assert (Hne : i <> -1 - m) by (intros ->; apply Hni; rewrite <- Eo; apply list_elem_of_here).
    pose proof (A1 i Hi) as Ha. pose proof (A1 _ Hv) as Hb. specialize (A4 i (-1 - m) Hi Hv Hne). rewrite <- Eo in *.
    unfold aligned, DISK_ALIGN in *. apply Z.eqb_eq in Ha, Hb. change BLOCK_SIZE with 4096 in A4.
    change (Z.of_nat SECTORS_PER_BLOCK) with 8. Z.div_mod_to_equations. lia.
Qed.

Lemma flush_blocks_wrote bs : forall d, (forall b, b ∈ bs -> meta_block b) -> NoDup (offset_ <$> bs) ->
  exists d', flush_blocks bs d = Ret tt d' /\ wrote bs d d'.
Proof.
  induction bs as [|b bs IH]; intros d Hb Hn.
  { exists d. split; [done|]. constructor; [done|lia| |done]. intros b Hin. by apply elem_of_nil in Hin. }
  cbn in Hn. apply NoDup_cons in Hn as [Hnb Hn].
  destruct (flush_wrote b d) as (d1 & H1 & [W1 W2 W3 W4]); [apply Hb, list_elem_of_here|].
  destruct (IH d1) as (d2 & H2 & [V1 V2 V3 V4]); [intros; apply Hb; by constructor|done|].
  exists d2. split; [cbn; by mstep H1|]. constructor; [auto|lia| |].
  - intros b' [->|Hin]%elem_of_cons; [|auto]. destruct (Hb b) as (_ & m & Hm & Ho); [apply list_elem_of_here|].
    assert (Eo : offset_ b = all_off (-1 - m)) by (rewrite Ho; symmetry; apply all_off_meta; lia).
    rewrite Eo, V4, <- Eo; [apply W3, list_elem_of_here|by apply all_valid_meta|by rewrite <- Eo].
  - intros i Hi Hni. cbn in Hni. apply not_elem_of_cons in Hni as [Hni1 Hni2]. rewrite V4, W4; [done|done| |done|done].
    cbn. by apply not_elem_of_cons; split; [|apply not_elem_of_nil].
Qed.

(** ** Flushing a file system of one group *)

(** The state can be flushed and mounted again: one group is loaded, its root
    inode is in use, and the last block of the inode table, which shares its
    place with data block 0, is not in use. *)
Record mountable (s : FS) (g : BlockGroup) : Prop := {
  mt_wf : fs_wf s;
  mt_one : fs_groups s = {[ 0 := g ]};
  mt_ipg : inodes_per_group (fs_super s) = INODES_PER_GROUP;
  mt_root : bm_bit (inode_bitmap_ g) ROOT_INODE = true;
  mt_tab : forall k, is_Some (inode_table_ g !! k) -> k < NUM_INODE_TABLE_BLOCKS - 1
}.

Definition tab_blocks (g : BlockGroup) : list Block :=
  omap (fun k => inode_table_ g !! k) (sorted_keys (inode_table_ g)).

(** What BlockGroup::flush writes, and with the super block. *)
Definition group_blocks (g : BlockGroup) : list Block := block_bitmap_ g :: inode_bitmap_ g :: tab_blocks g.

Definition meta_blocks (s : FS) (g : BlockGroup) : list Block := sb_block (fs_super s) :: group_blocks g.

Lemma group_flush_list g d : BlockGroup_flush g d = flush_blocks (group_blocks g) d.
Proof. reflexivity. Qed.

Lemma elem_of_tab_blocks g b : b ∈ tab_blocks g <-> exists k, inode_table_ g !! k = Some b.
Proof.
  unfold tab_blocks. rewrite list_elem_of_omap. split; [intros (k & _ & H); by exists k|].
  intros (k & H). exists k. split; [|done]. apply elem_of_sorted_keys. by eexists.
Qed.

(** Everything that is written for a group has a place of its own. *)
Record group_on_disk (g : BlockGroup) : Prop := {
  gd_bbm : bm_wf (block_bitmap_ g);
  gd_bbm_off : offset_ (block_bitmap_ g) = 2 * BLOCK_SIZE;
  gd_ibm : bm_wf (inode_bitmap_ g);
  gd_ibm_off : offset_ (inode_bitmap_ g) = 1 * BLOCK_SIZE;
  gd_itab : itab_wf g;
  gd_tab : map_Forall (fun k b => 0 <= k < NUM_INODE_TABLE_BLOCKS - 1 /\ offset_ b = (3 + k) * BLOCK_SIZE)
             (inode_table_ g)
}.

Lemma NoDup_tab_offsets g : group_on_disk g -> NoDup (offset_ <$> tab_blocks g).
Proof.
  intros G. unfold tab_blocks. pose proof (gd_tab _ G) as Ht. change BLOCK_SIZE with 4096 in Ht.
  assert (Hn : NoDup (sorted_keys (inode_table_ g))) by (unfold sorted_keys; rewrite merge_sort_Permutation; apply NoDup_elements).
  revert Hn. generalize (sorted_keys (inode_table_ g)). intros ks Hn.
  induction Hn as [|k ks Hk Hn IH]; cbn; [constructor|].
  destruct (inode_table_ g !! k) as [b|] eqn:Hb; [|done]. cbn. apply NoDup_cons. split; [|done].
  intros (b' & E & Hin)%list_elem_of_fmap. apply list_elem_of_omap in Hin as (k' & Hk' & Hb').
  destruct (Ht k b Hb) as [_ E1], (Ht k' b' Hb') as [_ E2]. assert (k' = k) as -> by lia. done.
Qed.

Lemma group_blocks_ok g : group_on_disk g ->
  (forall b, b ∈ group_blocks g -> meta_block b /\ offset_ b <> 0) /\ NoDup (offset_ <$> group_blocks g).
Proof.
  intros G. pose proof G as [G1 G2 G3 G4 G5 G6]. split.
  - intros b Hb. unfold group_blocks in Hb. rewrite !elem_of_cons, elem_of_tab_blocks in Hb.
    destruct Hb as [->|[->|(k & Hk)]].
    + rewrite G2. split; [split; [done|]|done]. exists 2. split; [by vm_compute|done].
    + rewrite G4. split; [split; [done|]|done]. exists 1. split; [by vm_compute|done].
    + destruct (G6 k b Hk) as [Hr E]. change NUM_INODE_TABLE_BLOCKS with 1024 in Hr. rewrite E.
      split; [split; [exact (G5 k b Hk)|]|change BLOCK_SIZE with 4096; lia].
      exists (3 + k). change META with 1026. split; [lia|done].
  - assert (Ht : forall o, o ∈ offset_ <$> tab_blocks g -> 3 * BLOCK_SIZE <= o).
    { intros o (b & -> & Hb)%list_elem_of_fmap. apply elem_of_tab_blocks in Hb as (k & Hk).
      destruct (G6 k b Hk) as [Hr ->]. change BLOCK_SIZE with 4096. lia. }
    unfold group_blocks. cbn [fmap list_fmap]. rewrite G2, G4. change BLOCK_SIZE with 4096 in *.
    apply NoDup_cons. split; [rewrite elem_of_cons; intros [?|H%Ht]; lia|].
    apply NoDup_cons. split; [intros H%Ht; lia|by apply NoDup_tab_offsets].
Qed.

Lemma mountable_group s g : mountable s g -> fs_groups s !! 0 = Some g.
Proof. intros H. rewrite (mt_one _ _ H). apply lookup_singleton_eq. Qed.

Lemma mountable_on_disk s g : mountable s g -> group_on_disk g.
Proof.
  intros M. pose proof (mountable_group _ _ M) as Hg. pose proof (mt_wf _ _ M) as Hwf.
  destruct (inv_groups _ (wf_inv _ Hwf) _ _ Hg) as (_ & H1 & H2). destruct (wf_group _ Hwf _ _ Hg) as (_ & H3 & _).
  destruct (wf_tables _ Hwf _ _ Hg) as [H4 H5]. destruct (dl_group _ (wf_layout _ Hwf) _ _ Hg) as (H6 & _).
  constructor; [done|done|done|done|done|]. intros k b Hk. destruct (H5 k b Hk) as [Hr ->].
  pose proof (mt_tab _ _ M k ltac:(by eexists)). split; [lia|]. unfold bitmap_off. lia.
Qed.

Lemma meta_blocks_ok s g : mountable s g ->
  (forall b, b ∈ meta_blocks s g -> meta_block b) /\ NoDup (offset_ <$> meta_blocks s g).
Proof.
  intros M. destruct (group_blocks_ok g (mountable_on_disk s g M)) as [Hb Hn].
  pose proof (dl_super _ (wf_layout _ (mt_wf _ _ M))) as H0. split.
  - intros b [->|Hin]%elem_of_cons; [|by apply Hb]. split; [apply (wf_len _ (mt_wf _ _ M))|].
    exists 0. split; [by vm_compute|]. by rewrite H0.
  - cbn [meta_blocks fmap list_fmap]. apply NoDup_cons. split; [|done].
    rewrite H0. intros (b & E & Hin)%list_elem_of_fmap. by apply (proj2 (Hb b Hin)).
Qed.

(** The disk [d] holds what [s] shows. *)
Record saved (s : FS) (g : BlockGroup) (d : Disk) : Prop := {
  sv_wf : sectors_wf (sectors d);
  sv_size : MAX_GROUPS * MAX_BLOCK_GROUP_SIZE <= disk_size d;
  sv_meta : forall b, b ∈ meta_blocks s g -> block_at d (offset_ b) = data_ b;
  sv_data : forall i, fs_valid i -> block_at d (fs_off i) = fview s i
}.

Lemma on_fsdisk_eq {A} (m : M Disk A) s a d :
  m (st_disk (fs_store s)) = Ret a d ->
  on_fsdisk m s = Ret a (with_store (mk_store d (st_mem (fs_store s)) (st_next (fs_store s)) (st_cache (fs_store s))) s).
Proof. intros H. unfold on_fsdisk, on_store, on_store_disk, zoom. by rewrite H. Qed.

(** Writing metadata does not disturb the cache. *)
Lemma store_ok_wrote l st d bs :
  store_ok fs_off fs_valid l st -> (forall b, b ∈ bs -> meta_block b) -> wrote bs (st_disk st) d ->
  store_ok fs_off fs_valid l (mk_store d (st_mem st) (st_next st) (st_cache st))
  /\ forall i, fs_valid i -> block_at d (fs_off i) = block_at (st_disk st) (fs_off i).
Proof.
  intros [A1 A2 A3 A4] Hb W.
  assert (Hd : forall i, fs_valid i -> block_at d (fs_off i) = block_at (st_disk st) (fs_off i)).
  { intros i Hi. rewrite <- (all_off_data i Hi). apply (wr_out _ _ _ W); [by left|].
    rewrite (all_off_data i Hi). intros (b & E & Hin)%list_elem_of_fmap. destruct (Hb b Hin) as (_ & m & Hm & Ho).
    pose proof (fs_off_data i Hi). change META with 1026 in *. change BLOCK_SIZE with 4096 in *. lia. }
  split; [|done]. constructor; [done|done| |by apply (wr_wf _ _ _ W)].
  intros e He. destruct (A3 e He) as (Hv & b & H1 & H2 & H3 & H4). split; [done|]. exists b.
  do 3 (split; [done|]). cbn. intros Hc. rewrite Hd by done. auto.
Qed.

(** Both functions [flush] write the metadata first and then go to the cache. *)
Lemma flush_meta s g l (m : M Store unit) : mountable s g -> store_ok fs_off fs_valid l (fs_store s) ->
  exists d, let st := mk_store d (st_mem (fs_store s)) (st_next (fs_store s)) (st_cache (fs_store s)) in
    (sb ← reads fs_super;
     _ ← on_fsdisk (Block_flush (sb_block sb));
     gs ← reads groups_in_order;
     _ ← on_fsdisk (flush_groups gs);
     on_store m) s = on_store m (with_store st s)
    /\ wrote (meta_blocks s g) (st_disk (fs_store s)) d /\ store_ok fs_off fs_valid l st
    /\ forall i, fs_valid i -> block_at d (fs_off i) = block_at (st_disk (fs_store s)) (fs_off i).
Proof.
  intros M Hok. destruct (meta_blocks_ok s g M) as [Hb Hn].
  destruct (flush_blocks_wrote (meta_blocks s g) (st_disk (fs_store s)) Hb Hn) as (d1 & Hd1 & W).
  destruct (store_ok_wrote l (fs_store s) d1 _ Hok Hb W) as [Hok1 Hd]. exists d1. cbv zeta. split; [|done].
  rewrite (bind_ret _ _ _ (fs_super s) s) by done.
  cbn [meta_blocks flush_blocks] in Hd1. minv Hd1 as z d0 H0. mstep (on_fsdisk_eq _ s _ _ H0).
  set (s0 := with_store _ s). assert (Hgo : groups_in_order s0 = [g]).
  { apply one_group; [|exact (mountable_group _ _ M)].
    intros gi h Hh. cbn in Hh. rewrite (mt_one _ _ M) in Hh. by apply lookup_singleton_Some in Hh as [<- _]. }
  rewrite (bind_ret (reads groups_in_order) _ s0 [g] s0) by (unfold reads; by rewrite Hgo).
  assert (Hg : flush_groups [g] d0 = Ret tt d1).
  { cbn [flush_groups]. rewrite (bind_ret _ _ _ tt d1); [done|]. by rewrite group_flush_list. }
  by mstep (on_fsdisk_eq _ s0 tt d1 Hg).
Qed.

(** What goes to the cache then leaves the metadata on the disk. *)
Lemma meta_written s g l st st2 b : mountable s g -> store_ok fs_off fs_valid l st ->
  wrote (meta_blocks s g) (st_disk (fs_store s)) (st_disk st) ->
  (forall j, all_valid j -> j < 0 -> block_at (st_disk st2) (all_off j) = view all_off st j) ->
  b ∈ meta_blocks s g -> block_at (st_disk st2) (offset_ b) = data_ b.
Proof.
  intros M Hok W Hv Hin. destruct (proj1 (meta_blocks_ok s g M) b Hin) as (_ & m & Hm & Ho).
  assert (Eo : offset_ b = all_off (-1 - m)) by (rewrite Ho; symmetry; apply all_off_meta; lia).
  rewrite Eo, (Hv _ (all_valid_meta m Hm)), (view_meta l) by (done || lia). rewrite <- Eo.
  by apply (wr_in _ _ _ W).
Qed.

Lemma fs_flush_ok s g : mountable s g ->
  exists s1, fs_flush s = Ret tt s1 /\ saved s g (st_disk (fs_store s1)).
Proof.
  intros M. pose proof (wf_inv _ (mt_wf _ _ M)) as Hinv. destruct (inv_store _ Hinv) as (l & Hok & _).
  destruct (flush_meta s g l cache_flush M Hok) as (d1 & Hrun & W & Hok1 & Hd). set (st1 := mk_store d1 _ _ _) in *.
  destruct (cache_flush_ok all_off all_valid st1 l all_offsets_ok (store_ok_all _ _ Hok1))
    as (st2 & l2 & Hf & Hok2 & _ & Hv). pose proof (cache_flush_size _ _ Hf) as Hsz.
  exists (with_store st2 (with_store st1 s)). split.
  - unfold fs_flush. rewrite Hrun. apply (on_store_eq _ (with_store st1 s)). exact Hf.
  - cbn [with_store fs_store]. constructor.
    + apply (ok_disk _ _ _ _ Hok2).
    + pose proof (inv_disk _ Hinv). pose proof (wr_size _ _ _ W). cbn in Hsz. lia.
    + intros b. apply (meta_written s g l st1); [done|done|done|]. intros j Hj _. by apply Hv.
    + intros i Hi. rewrite <- (all_off_data i Hi), (proj1 (Hv i (or_introl Hi))), view_data by done.
      unfold fview, view. cbn [st1 st_cache st_mem st_disk]. by rewrite Hd.
Qed.

(** [flush(inode_index)] writes the metadata too, and of the cached blocks the
    one whose index is the number; what blocks hold does not change. *)
Lemma fs_flush_index_ok s g i : mountable s g ->
  exists st, fs_flush_index i s = Ret tt (with_store st s) /\ same_blocks s (with_store st s)
    /\ (forall b, b ∈ meta_blocks s g -> block_at (st_disk st) (offset_ b) = data_ b)
    /\ (forall j, fs_valid j -> j <> i -> block_at (st_disk st) (fs_off j) = block_at (st_disk (fs_store s)) (fs_off j)).
Proof.
  intros M. pose proof (wf_inv _ (mt_wf _ _ M)) as Hinv. destruct (inv_store _ Hinv) as (l & Hok & Hal).
  destruct (flush_meta s g l (cache_flush_index i) M Hok) as (d1 & Hrun & W & Hok1 & Hd). set (st1 := mk_store d1 _ _ _) in *.
  destruct (cache_flush_index_ok all_off all_valid st1 l i all_offsets_ok (store_ok_all _ _ Hok1))
    as (st2 & l2 & Hf & Hok2 & Hk & Hi & Ho & Hv).
  pose proof Hf as (Em & En & Ec & Es)%flush_nodes_back.
  assert (Hkeys : forall e, e ∈ l2 -> allocated s (Lru.key e) = true).
  { intros e He. destruct (Hk e He) as (e0 & He0 & <-). by apply Hal. }
  exists st2. split; [|split; [|split]].
  - unfold fs_flush_index. rewrite Hrun. rewrite (on_store_eq _ (with_store st1 s) tt st2) by exact Hf. done.
  - split.
    + destruct Hinv as [I1 I2 I3 I4 I5 I6]. constructor; cbn [with_store fs_store fs_super fs_groups]; [exact I1|exact I2| | | |].
      * exists l2. split; [|exact Hkeys]. apply store_ok_data; [done|]. intros e He. apply (allocated_valid s); [by constructor|auto].
      * rewrite Ec. exact I4.
      * rewrite Em, En. exact I5.
      * pose proof (wr_size _ _ _ W). cbn in Es. lia.
    + exists st2. split; [done|]. split; [exact Ec|]. intros j Hj. unfold fview. cbn [with_store fs_store].
      rewrite <- !view_data, Hv, !view_data by (done || by left). unfold view. cbn [st1 st_cache st_mem st_disk]. by rewrite Hd.
  - intros b. apply (meta_written s g l st1); [done|done|done|]. intros j Hj Hneg. destruct (decide (j = i)) as [->|Hne]; [auto|].
    rewrite Ho by done. by rewrite (view_meta l).
  - intros j Hj Hne. rewrite <- (all_off_data j Hj), Ho by (done || by left). rewrite all_off_data by done. by apply Hd.
Qed.

(** ** Mounting a saved disk *)

Definition desc_offs (n : Z) : list Z := map (fun i => desc_off (Z.of_nat i)) (seq 0 (Z.to_nat n)).

Lemma num_block_groups_pos {S} sb (s : S) : blocks_per_group sb = TOTAL_BLOCKS_PER_GROUP ->
  inodes_per_group sb = INODES_PER_GROUP -> exists n, 1 <= n /\ num_block_groups sb s = Ret n s.
Proof.
  intros Hb Hi. unfold num_block_groups. rewrite Hb, Hi. unfold udiv.
  change (TOTAL_BLOCKS_PER_GROUP =? 0) with false. change (INODES_PER_GROUP =? 0) with false.
  eexists. split; [|reflexivity].
  pose proof (Z.div_pos (u32 (sb_get s_blocks_count sb + TOTAL_BLOCKS_PER_GROUP - 1)) TOTAL_BLOCKS_PER_GROUP
    (proj1 (u32_range _)) ltac:(done)).
  case_match eqn:E; [lia|]. apply Z.eqb_neq in E. lia.
Qed.

Section Remount.
Context (s : FS) (g : BlockGroup) (d : Disk) (M : mountable s g) (V : saved s g d).

(** A block of the metadata is read back. *)
Lemma meta_read b : b ∈ meta_blocks s g -> Block_init (offset_ b) false d = Ret b d.
Proof.
  intros Hin. destruct (proj1 (meta_blocks_ok s g M) b Hin) as (HL & m & Hm & Ho).
  assert (Eo : offset_ b = all_off (-1 - m)) by (rewrite Ho; symmetry; apply all_off_meta; lia).
  destruct all_offsets_ok as [A1 A2 _ _]. pose proof (sv_size _ _ _ V) as Hs. rewrite Block_init_read.
  - rewrite (sv_meta _ _ _ V b Hin). by destruct b.
  - apply V.
  - rewrite Eo. by apply A1, all_valid_meta.
  - rewrite Eo. by apply A2, all_valid_meta.
  - rewrite Ho. change META with 1026 in Hm. rewrite MAXB_eq in Hs. unfold MAX_GROUPS in Hs.
    change BLOCK_SIZE with 4096. lia.
Qed.

Lemma super_mounts : exists n, 1 <= n /\ SuperBlock_init d = Ret (mk_super (sb_block (fs_super s)) (desc_offs n)) d.
Proof.
  pose proof (mt_wf _ _ M) as Hwf. pose proof (wf_layout _ Hwf) as L.
  set (sb0 := mk_super (sb_block (fs_super s)) []).
  destruct (num_block_groups_pos sb0 d (inv_bpg _ (wf_inv _ Hwf)) (mt_ipg _ _ M)) as (n & Hn & Hnb).
  exists n. split; [done|]. unfold SuperBlock_init. rewrite <- (dl_super _ L).
  mstep (meta_read (sb_block (fs_super s)) (list_elem_of_here _ _)). fold sb0. unfold init_super_block.
  assert (Hst : sb_get s_state sb0 = FSState_NORMAL) by apply (dl_state _ L). rewrite Hst.
  change (FSState_NORMAL =? FSState_UNINIT) with false. cbn iota. rewrite Z.eqb_refl. by mstep Hnb.
Qed.

(** The group as the constructor loads it, and with the table block of the
    root inode. *)
Definition group_read : BlockGroup := mk_group (desc_off 0) (block_bitmap_ g) (inode_bitmap_ g) ∅.

Definition root_table : Block := mk_block (3 * BLOCK_SIZE) (block_at d (3 * BLOCK_SIZE)).

Definition group_back : BlockGroup := with_itab {[ 0 := root_table ]} group_read.

Lemma group_mounts n : 1 <= n ->
  BlockGroup_init (get_group_desc 0 (mk_super (sb_block (fs_super s)) (desc_offs n))) false
    (mk_super (sb_block (fs_super s)) (desc_offs n)) d = Ret group_read d.
Proof.
  intros Hn. pose proof (mountable_group _ _ M) as Hg.
  destruct (dl_group _ (wf_layout _ (mt_wf _ _ M)) _ _ Hg) as (Ho & Hb & Hi).
  pose proof (mountable_on_disk _ _ M) as G.
  assert (Hd : get_group_desc 0 (mk_super (sb_block (fs_super s)) (desc_offs n)) = Some (desc_off 0)).
  { unfold get_group_desc, desc_offs; cbn [desc_table_]. destruct (Z.to_nat n) as [|m] eqn:E; [lia|].
    rewrite (proj2 (Z.leb_gt _ _)); [done|]. cbn [length map seq]. lia. }
  unfold BlockGroup_init. rewrite Hd, (bind_ret _ _ _ (desc_off 0) d) by done.
  change (desc_get (desc_off 0) bg_block_bitmap (mk_super (sb_block (fs_super s)) (desc_offs n)))
    with (desc_get (desc_off 0) bg_block_bitmap (fs_super s)).
  change (desc_get (desc_off 0) bg_inode_bitmap (mk_super (sb_block (fs_super s)) (desc_offs n)))
    with (desc_get (desc_off 0) bg_inode_bitmap (fs_super s)).
  rewrite Hb, Hi. change (bitmap_off 0 - BLOCK_SIZE) with (1 * BLOCK_SIZE). change (bitmap_off 0) with (2 * BLOCK_SIZE).
  rewrite <- (gd_bbm_off _ G), <- (gd_ibm_off _ G).
  mstep (meta_read (block_bitmap_ g) ltac:(unfold meta_blocks, group_blocks; by repeat constructor)).
  mstep (meta_read (inode_bitmap_ g) ltac:(unfold meta_blocks, group_blocks; by repeat constructor)).
  done.
Qed.

Lemma root_mounts sb : group_get_inode ROOT_INODE (mk_gst d sb group_read) = Ret (Some ROOT_INODE) (mk_gst d sb group_back).
Proof.
  pose proof (mountable_on_disk _ _ M) as G. unfold group_get_inode.
  rewrite (bind_ret _ _ _ group_read (mk_gst d sb group_read)) by done. cbn [group_read inode_bitmap_].
  mstep (bm_test_spec (mk_gst d sb group_read) ROOT_INODE (inode_bitmap_ g) (gd_ibm _ G) ltac:(by vm_compute)).
  rewrite (mt_root _ _ M). cbn [negb].
  change (inode_table_ group_read !! (ROOT_INODE / INODES_PER_BLOCK)) with (@None Block).
  assert (E : inode_block_offset group_read (ROOT_INODE / INODES_PER_BLOCK) = 3 * BLOCK_SIZE).
  { unfold inode_block_offset. cbn [group_read block_bitmap_]. rewrite (gd_bbm_off _ G). by vm_compute. }
  rewrite E. rewrite (bind_ret _ _ _ tt (mk_gst d sb group_back)); [done|].
  unfold mbind, M_bind, on_disk, zoom. cbn [gs_disk]. rewrite Block_init_read; [done|apply V|done|done|].
  pose proof (sv_size _ _ _ V) as Hs. rewrite MAXB_eq in Hs. unfold MAX_GROUPS in Hs. change BLOCK_SIZE with 4096. lia.
Qed.

(** The constructor writes the group back as it read it. *)
Lemma group_back_on_disk : group_on_disk group_back.
Proof.
  pose proof (mountable_on_disk _ _ M) as [G1 G2 G3 G4 _ _]. constructor; [done|done|done|done| |].
  - apply map_Forall_singleton. cbn. apply length_block_at, V.
  - apply map_Forall_singleton. by vm_compute.
Qed.

Lemma group_back_same b : b ∈ group_blocks group_back -> block_at d (offset_ b) = data_ b.
Proof.
  unfold group_blocks. rewrite !elem_of_cons, elem_of_tab_blocks.
  intros [->|[->|(k & Hk)]]; [apply (sv_meta _ _ _ V); unfold meta_blocks, group_blocks; by repeat constructor..|].
  cbn in Hk. by apply lookup_singleton_Some in Hk as [_ <-].
Qed.

Lemma rewrite_same : exists d2, flush_groups [group_back] d = Ret tt d2
  /\ disk_size d <= disk_size d2 /\ sectors_wf (sectors d2)
  /\ forall i, all_valid i -> block_at d2 (all_off i) = block_at d (all_off i).
Proof.
  destruct (group_blocks_ok group_back group_back_on_disk) as [Hb Hn].
  destruct (flush_blocks_wrote (group_blocks group_back) d (fun b H => proj1 (Hb b H)) Hn) as (d2 & Hf & W).
  exists d2. split; [cbn [flush_groups]; rewrite (bind_ret _ _ _ tt d2); [done|by rewrite group_flush_list]|].
  split; [apply W|]. split; [apply (wr_wf _ _ _ W), V|]. intros i Hi.
  destruct (decide (all_off i ∈ offset_ <$> group_blocks group_back)) as [Hin|Hni]; [|by apply (wr_out _ _ _ W)].
  apply list_elem_of_fmap in Hin as (b & -> & Hin). rewrite (wr_in _ _ _ W b Hin). symmetry. by apply group_back_same.
Qed.
End Remount.

(** [s2] is what the constructor makes of the disk that [s] was flushed to. *)
Record remounted (s : FS) (g : BlockGroup) (s2 : FS) : Prop := {
  rm_disk : saved s g (st_disk (fs_store s2));
  rm_store : fs_store s2 = store_init (st_disk (fs_store s2)) BLOCK_CACHE_SIZE;
  rm_super : sb_block (fs_super s2) = sb_block (fs_super s);
  rm_groups : fs_groups s2 = {[ 0 := group_back g (st_disk (fs_store s2)) ]};
  rm_dentry : exists p, DentryCache_init BLOCK_CACHE_SIZE = Ret p (fs_dentry s2);
  rm_copies : fs_copies s2 = ∅
}.

Lemma saved_same s g d d2 : mountable s g -> saved s g d -> disk_size d <= disk_size d2 -> sectors_wf (sectors d2) ->
  (forall i, all_valid i -> block_at d2 (all_off i) = block_at d (all_off i)) -> saved s g d2.
Proof.
  intros M [V1 V2 V3 V4] Hs Hw Hv. constructor; [done|lia| |].
  - intros b Hin. destruct (proj1 (meta_blocks_ok s g M) b Hin) as (_ & m & Hm & Ho). rewrite <- (V3 b Hin), Ho.
    rewrite <- (all_off_meta m) by lia. by apply Hv, all_valid_meta.
  - intros i Hi. rewrite <- (V4 i Hi), <- (all_off_data i Hi). apply Hv. by left.
Qed.

Lemma mount_saved {clock : Clock} s g d : mountable s g -> saved s g d ->
  exists s2, fs_mount d = Ret tt s2 /\ remounted s g s2.
Proof.
  intros M V. destruct (super_mounts s g d M V) as (n & Hn & Hsb). destruct mount_dentry as [p Hp].
  set (dc := fs_dentry mount_start) in Hp. set (sb := mk_super _ _) in Hsb.
  destruct (rewrite_same s g d M V) as (d2 & Hf & Hsz & Hw & Hv).
  set (c := BlockCache_init BLOCK_CACHE_SIZE). set (st0 := mk_store d ∅ 1%positive c).
  set (s0 := mk_fs st0 sb ∅ dc ∅).
  set (s1 := mk_fs st0 sb {[ 0 := group_back g d ]} dc ∅).
  assert (Hback : group_back g d2 = group_back g d).
  { assert (H3 : 0 <= 3 < META) by (change META with 1026; lia).
    pose proof (Hv _ (all_valid_meta 3 H3)) as E. rewrite (all_off_meta 3 (proj1 H3)) in E.
    unfold group_back, root_table. by rewrite E. }
  exists (with_store (mk_store d2 ∅ 1%positive c) s1). split.
  - unfold fs_mount. rewrite Hsb, Hp. cbv zeta. fold c st0 s0. clearbody c.
    set (s0' := mk_fs st0 sb {[ 0 := group_read g ]} dc ∅).
    assert (Hl : load_group 0 s0 = Ret tt s0').
    { unfold load_group. rewrite (bind_ret _ _ _ (fs_groups s0) s0) by done. cbn [s0 fs_groups]. rewrite lookup_empty.
      rewrite (bind_ret _ _ _ sb s0) by done. erewrite bind_ret; [|apply on_fsdisk_eq; exact (group_mounts s g d M V n Hn)].
      done. }
    mstep Hl.
    assert (Hr : on_group 0 (group_get_inode ROOT_INODE) s0' = Ret (Some ROOT_INODE) s1).
    { assert (Hg0 : fs_groups s0' !! 0 = Some (group_read g)) by apply lookup_singleton_eq.
      unfold on_group. rewrite Hg0. change (mk_gst _ _ _) with (mk_gst d sb (group_read g)).
      rewrite (root_mounts s g d M V sb). cbn [gs_disk gs_super gs_group s0' s1 fs_groups].
      by rewrite insert_singleton. }
    mstep Hr. rewrite (bind_ret _ _ _ tt s1) by done.
    assert (Hgo : groups_in_order s1 = [group_back g d]).
    { apply one_group; [|by cbn [s1 fs_groups]; rewrite lookup_singleton_eq]. cbn [s1 fs_groups].
      intros gi h Hh. by apply lookup_singleton_Some in Hh as [<- _]. }
    rewrite (bind_ret (reads groups_in_order) _ s1 _ s1) by (unfold reads; by rewrite Hgo).
    exact (on_fsdisk_eq _ s1 tt d2 Hf).
  - constructor; cbn [with_store s1 fs_store st_disk fs_super fs_groups fs_dentry fs_copies].
    + by apply (saved_same s g d).
    + unfold store_init. reflexivity.
    + reflexivity.
    + rewrite Hback. reflexivity.
    + exists p. exact Hp.
    + reflexivity.
Qed.

(** ** What a mounted state shows of the one that was flushed *)

(** [s2] shows the disk that [s] was flushed to, with some of the table
    blocks of the group read. *)
Record shows (s : FS) (g : BlockGroup) (s2 : FS) : Prop := {
  sh_disk : saved s g (st_disk (fs_store s2));
  sh_store : fs_store s2 = store_init (st_disk (fs_store s2)) BLOCK_CACHE_SIZE;
  sh_super : sb_block (fs_super s2) = sb_block (fs_super s);
  sh_group : exists t, fs_groups s2 = {[ 0 := with_itab t (group_read g) ]}
    /\ map_Forall (fun k b => 0 <= k < NUM_INODE_TABLE_BLOCKS
         /\ b = mk_block ((3 + k) * BLOCK_SIZE) (block_at (st_disk (fs_store s2)) ((3 + k) * BLOCK_SIZE))) t
}.

Lemma remounted_shows s g s2 : remounted s g s2 -> shows s g s2.
Proof.
  intros [R1 R2 R3 R4 _ _]. constructor; [done|done|done|]. eexists. split; [exact R4|].
  apply map_Forall_singleton. split; [by vm_compute|done].
Qed.

Section Shown.
Context (s : FS) (g : BlockGroup) (s2 : FS) (M : mountable s g) (R : shows s g s2).

Lemma shown_super f : sb_get f (fs_super s2) = sb_get f (fs_super s).
Proof. unfold sb_get. by rewrite (sh_super _ _ _ R). Qed.

Lemma shown_desc p f : desc_get p f (fs_super s2) = desc_get p f (fs_super s).
Proof. unfold desc_get. by rewrite (sh_super _ _ _ R). Qed.

Lemma shown_allocated i : allocated s2 i = allocated s i.
Proof.
  destruct (sh_group _ _ _ R) as (t & Hg & _). unfold allocated. rewrite Hg, (mt_one _ _ M).
  destruct (decide (i / TOTAL_BLOCKS_PER_GROUP = 0)) as [->|]; [by rewrite !lookup_singleton_eq|].
  by rewrite !lookup_singleton_ne.
Qed.

Lemma shown_view i : fs_valid i -> fview s2 i = fview s i.
Proof.
  intros Hi. rewrite <- (sv_data _ _ _ (sh_disk _ _ _ R) i Hi). unfold fview. rewrite (sh_store _ _ _ R). 
  rewrite (view_find fs_off fs_valid _ [] i); [done|]. apply store_init_ok; [apply (sh_disk _ _ _ R)|done].
Qed.

Lemma shown_inv : fs_inv s2.
Proof.
  pose proof (wf_inv _ (mt_wf _ _ M)) as Hinv. pose proof (sh_disk _ _ _ R) as V. constructor.
  - unfold blocks_per_group. rewrite shown_super. apply (inv_bpg _ Hinv).
  - destruct (sh_group _ _ _ R) as (t & Hg & _). rewrite Hg. intros gi h [<- <-]%lookup_singleton_Some.
    apply (inv_groups _ Hinv 0 g (mountable_group _ _ M)).
  - exists []. rewrite (sh_store _ _ _ R). split; [apply store_init_ok; [apply V|done]|].
    intros e He. by apply elem_of_nil in He.
  - rewrite (sh_store _ _ _ R). by vm_compute.
  - rewrite (sh_store _ _ _ R). intros p [b Hb]. cbn [store_init st_mem] in Hb. by rewrite lookup_empty in Hb.
  - apply V.
Qed.

Lemma shown_wf : fs_wf s2.
Proof.
  pose proof (mt_wf _ _ M) as Hwf. pose proof (mountable_group _ _ M) as Hg0. destruct (sh_group _ _ _ R) as (t & Hg & Ht).
  constructor; [exact shown_inv| | | | |].
  - unfold super_len. rewrite (sh_super _ _ _ R). apply (wf_len _ Hwf).
  - rewrite shown_super. apply (wf_log _ Hwf).
  - rewrite Hg. intros gi h [<- <-]%lookup_singleton_Some. split; [done|]. rewrite shown_desc.
    apply (wf_group _ Hwf 0 g Hg0).
  - intros gi h. rewrite Hg. intros [<- <-]%lookup_singleton_Some. split; intros k b Hk; cbn in Hk;
      destruct (Ht k b Hk) as [Hr ->]; cbn.
    + apply length_block_at, (sh_disk _ _ _ R).
    + split; [done|]. unfold bitmap_off. lia.
  - pose proof (wf_layout _ Hwf) as [D1 D2 D3]. constructor.
    + by rewrite (sh_super _ _ _ R).
    + by rewrite shown_super.
    + rewrite Hg. intros gi h [<- <-]%lookup_singleton_Some. rewrite !shown_desc. exact (D3 0 g Hg0).
Qed.

Lemma shown_zero : free_zero s -> free_zero s2.
Proof.
  intros Hz i Hi Ha. rewrite shown_allocated in Ha. rewrite (sv_data _ _ _ (sh_disk _ _ _ R) i Hi).
  rewrite (unallocated_view _ _ (wf_inv _ (mt_wf _ _ M)) Ha). by apply Hz.
Qed.

(** The table block of an inode of [s], as the disk holds it. *)
Lemma saved_table k b : inode_table_ g !! k = Some b ->
  0 <= k < NUM_INODE_TABLE_BLOCKS /\ block_at (st_disk (fs_store s2)) ((3 + k) * BLOCK_SIZE) = data_ b.
Proof.
  intros Hb. destruct (gd_tab _ (mountable_on_disk _ _ M) k b Hb) as [Hr E]. split; [lia|]. rewrite <- E.
  apply (sv_meta _ _ _ (sh_disk _ _ _ R)). unfold meta_blocks, group_blocks. rewrite !elem_of_cons, elem_of_tab_blocks.
  do 3 right. by exists k.
Qed.

Lemma shown_readable t k : 0 <= k < NUM_INODE_TABLE_BLOCKS ->
  Block_init (inode_block_offset (with_itab t (group_read g)) k) false (st_disk (fs_store s2))
  = Ret (mk_block ((3 + k) * BLOCK_SIZE) (block_at (st_disk (fs_store s2)) ((3 + k) * BLOCK_SIZE))) (st_disk (fs_store s2)).
Proof.
  intros Hk. change NUM_INODE_TABLE_BLOCKS with 1024 in Hk. pose proof (sh_disk _ _ _ R) as V.
  assert (E : inode_block_offset (with_itab t (group_read g)) k = (3 + k) * BLOCK_SIZE).
  { unfold inode_block_offset. cbn [with_itab group_read block_bitmap_].
    rewrite (gd_bbm_off _ (mountable_on_disk _ _ M)). change BLOCK_SIZE with 4096. rewrite u32_small; lia. }
  rewrite E. pose proof (sv_size _ _ _ V) as Hs. rewrite MAXB_eq in Hs. unfold MAX_GROUPS in Hs.
  apply Block_init_read; [apply V| | |]; change BLOCK_SIZE with 4096; [|lia|lia].
  unfold aligned, DISK_ALIGN. apply Z.eqb_eq. Z.div_mod_to_equations. lia.
Qed.

(** The table block that [get_inode] needs is there or is read. *)
Lemma shown_load t j b : fs_groups s2 = {[ 0 := with_itab t (group_read g) ]} ->
  map_Forall (fun k b => 0 <= k < NUM_INODE_TABLE_BLOCKS
    /\ b = mk_block ((3 + k) * BLOCK_SIZE) (block_at (st_disk (fs_store s2)) ((3 + k) * BLOCK_SIZE))) t ->
  0 <= j < BITS -> bm_bit (inode_bitmap_ g) j = true -> inode_table_ g !! (j / INODES_PER_BLOCK) = Some b ->
  exists t', t' !! (j / INODES_PER_BLOCK) = Some (mk_block ((3 + j / INODES_PER_BLOCK) * BLOCK_SIZE) (data_ b))
    /\ map_Forall (fun k b => 0 <= k < NUM_INODE_TABLE_BLOCKS
         /\ b = mk_block ((3 + k) * BLOCK_SIZE) (block_at (st_disk (fs_store s2)) ((3 + k) * BLOCK_SIZE))) t'
    /\ on_group 0 (group_get_inode j) s2
       = Ret (Some j) (mk_fs (fs_store s2) (fs_super s2) {[ 0 := with_itab t' (group_read g) ]} (fs_dentry s2) (fs_copies s2)).
Proof.
  intros Hg Ht Hj Hbit Hb. set (k := j / INODES_PER_BLOCK) in *. destruct (saved_table k b Hb) as [Hk Hd].
  set (gs := mk_gst (st_disk (fs_store s2)) (fs_super s2) (with_itab t (group_read g))).
  assert (Hgl : fs_groups s2 !! 0 = Some (with_itab t (group_read g))) by (rewrite Hg; apply lookup_singleton_eq).
  assert (Hfin : forall t', group_get_inode j gs
      = Ret (Some j) (mk_gst (st_disk (fs_store s2)) (fs_super s2) (with_itab t' (group_read g))) ->
    on_group 0 (group_get_inode j) s2
      = Ret (Some j) (mk_fs (fs_store s2) (fs_super s2) {[ 0 := with_itab t' (group_read g) ]} (fs_dentry s2) (fs_copies s2))).
  { intros t' H. unfold on_group. rewrite Hgl. fold gs. rewrite H. cbn [gs_disk gs_super gs_group].
    rewrite Hg, insert_singleton_eq. by destruct (fs_store s2). }
  assert (Hrun : group_get_inode j gs
    = (_ ← match t !! k with
           | Some _ => mret tt
           | None =>
               b ← on_disk (Block_init (inode_block_offset (with_itab t (group_read g)) k) false);
               put_group (with_itab (<[k := b]> t) (group_read g))
           end;
       mret (Some j)) gs).
  { unfold group_get_inode. rewrite (bind_ret _ _ _ (with_itab t (group_read g)) gs) by done.
    change (inode_bitmap_ (with_itab t (group_read g))) with (inode_bitmap_ g).
    rewrite (bind_ret _ _ _ _ _ (bm_test_spec gs j (inode_bitmap_ g) (gd_ibm _ (mountable_on_disk _ _ M)) Hj)), Hbit.
    done. }
  destruct (t !! k) as [b'|] eqn:Hk'.
  - exists t. destruct (Ht k b' Hk') as [_ E]. rewrite Hd in E. rewrite <- E. split; [done|]. split; [done|].
    apply Hfin. by rewrite Hrun.
  - set (nb := mk_block ((3 + k) * BLOCK_SIZE) (data_ b)). exists (<[k := nb]> t). split; [apply lookup_insert_eq|].
    split; [apply map_Forall_insert_2; [split; [done|by rewrite Hd]|done]|]. apply Hfin. rewrite Hrun.
    pose proof (shown_readable t k Hk) as Hr. rewrite Hd in Hr. fold nb in Hr.
    unfold mbind, M_bind, on_disk, zoom. cbn [gs gs_disk]. rewrite Hr. done.
Qed.

Lemma shown_get_inode i v : inode_at s i v ->
  exists s3, get_inode i s2 = Ret (Some (ip_of i)) s3 /\ shows s g s3 /\ inode_at s3 i v
    /\ fs_store s3 = fs_store s2 /\ fs_dentry s3 = fs_dentry s2.
Proof.
  intros [Hr Hipg (h & Hh & _ & Hbit) [Hwfv (h' & Hh' & _ & Hload)]]. rewrite (mt_one _ _ M) in Hh, Hh'.
  apply lookup_singleton_Some in Hh as [Hi0 <-], Hh' as [_ <-]. unfold ip_of. rewrite <- Hi0.
  set (j := i mod INODES_PER_GROUP) in *.
  assert (Hj : 0 <= j < BITS) by (change BITS with 32768; apply Z.mod_pos_bound; done).
  unfold inode_load in Hload. destruct (inode_table_ g !! (j / INODES_PER_BLOCK)) as [b|] eqn:Hb; [|done].
  destruct (sh_group _ _ _ R) as (t & Hg & Ht). destruct (shown_load t j b Hg Ht Hj Hbit Hb) as (t' & Hb' & Ht' & Hog).
  set (s3 := mk_fs _ _ _ _ _) in Hog.
  assert (R3 : shows s g s3) by (destruct R as [R1 R2 R3 _]; constructor; [done|done|done|by exists t']).
  exists s3. split; [|split; [done|split; [|done]]].
  - unfold get_inode. change (u32 (-1)) with (2 ^ 32 - 1). rewrite (proj2 (Z.eqb_neq _ _)) by lia.
    assert (Hipg2 : inodes_per_group (fs_super s2) = INODES_PER_GROUP) by (unfold inodes_per_group; by rewrite shown_super).
    rewrite (bind_ret _ _ _ (fs_super s2) s2) by done. rewrite Hipg2.
    rewrite (bind_ret _ _ _ 0 s2) by (unfold udiv; change (INODES_PER_GROUP =? 0) with false; by rewrite <- Hi0).
    rewrite (bind_ret _ _ _ tt s2) by (apply (load_group_loaded s2 0 (with_itab t (group_read g))); rewrite Hg; apply lookup_singleton_eq).
    rewrite (bind_ret _ _ _ j s2) by done. by mstep Hog.
  - assert (Hg3 : fs_groups s3 !! 0 = Some (with_itab t' (group_read g))) by apply lookup_singleton_eq.
    constructor; [done| | |].
    + unfold inodes_per_group. cbn [s3 fs_super]. by rewrite shown_super.
    + exists (with_itab t' (group_read g)). rewrite <- Hi0. split; [done|]. split; [|done].
      apply (gd_ibm _ (mountable_on_disk _ _ M)).
    + unfold ip_of. rewrite <- Hi0. fold j. split; [done|]. exists (with_itab t' (group_read g)). split; [done|]. split.
      * intros k x Hk. cbn in Hk. destruct (Ht' k x Hk) as [_ ->]. apply length_block_at, (sh_disk _ _ _ R).
      * unfold inode_load. cbn [with_itab inode_table_]. rewrite Hb'. exact Hload.
Qed.
End Shown.

(** The bytes of a file are those of its blocks. *)
Lemma shown_file s g s2 v n : mountable s g -> shows s g s2 -> file_ok s v n ->
  file_ok s2 v n /\ forall k, 0 <= k < n * BLOCK_SIZE -> fbyte s2 v k = fbyte s v k.
Proof.
  intros M R F. pose proof (wf_inv _ (mt_wf _ _ M)) as Hinv.
  assert (Hv : forall b, b ∈ metas s v n ++ datas s v n -> fview s2 b = fview s b).
  { intros b Hb. apply (shown_view s g); [done|]. by apply (allocated_valid s), (fo_used _ _ _ F). }
  assert (Hm : forall b, b ∈ metas s v n -> fview s2 b = fview s b) by (intros b Hb; apply Hv, elem_of_app; by left).
  split.
  - apply (file_ok_ext s); [done|done|]. intros b _ Ha. by rewrite (shown_allocated s g s2 M R).
  - intros k Hk. unfold fbyte. change BLOCK_SIZE with 4096 in *.
    assert (Hk' : 0 <= k / 4096 < n) by (Z.div_mod_to_equations; lia).
    rewrite (keeps_blk s v s2 v n); [|by apply keeps_views|apply (fo_range _ _ _ F)|done].
    rewrite Hv; [done|]. apply elem_of_app. right. apply elem_of_datas. by exists (k / 4096).
Qed.

Lemma shown_growable s g s2 ip v n : mountable s g -> shows s g s2 -> free_zero s -> cell s2 ip v ->
  growable s ip v n -> growable s2 ip v n.
Proof.
  intros M R Hz Hc [_ _ _ _ G4 G5 G6]. constructor; [exact (shown_wf s g s2 M R)|exact (shown_zero s g s2 M R Hz)| |done|done|done|].
  - rewrite (sh_store _ _ _ R). vm_compute. discriminate.
  - exact (proj1 (shown_file s g s2 v n M R G6)).
Qed.
