(* ===== verification/DentryTree.v ===== *)
(** * The directory cache and the tree of directories

    A cached name is only of use when it agrees with the directories on disk.
    [dc_ok] says so for every node of the cache: its children form a ring of
    their own, and each of them is an entry of the directory that the node
    stands for.  Lookups and insertions of entries that exist keep it. *)

From S2P Require Import Prelude Layout DentryCache.

(** Directories by inode number: a name in a directory and its inode. *)
Definition edges : Type := Z -> list byte -> option Z.

(** What a node says: its inode and its name. *)
Definition info (n : DNode) : Z * Z * list byte := (d_inode n, d_name_len n, d_name n).

Definition named (n : DNode) (name : list byte) : Prop :=
  d_name n = name /\ d_name_len n = Z.of_nat (length name) /\ no_nul name /\ Z.of_nat (length name) < EXT2_NAME_LEN.

(** [K] gives the children of every node in the order of its ring. *)
Record dc_ok (T : edges) (K : positive -> list positive) (c : DentryCache) : Prop := {
  dk_heap : heap_ok c;
  dk_root : exists rn, d_nodes c !! root_ c = Some rn /\ d_inode rn = ROOT_INODE;
  dk_kids : forall p, is_Some (d_nodes c !! p) -> children (d_nodes c) p (K p);
  dk_none : forall p, d_nodes c !! p = None -> K p = [];
  dk_apart : forall p p' q, q ∈ K p -> q ∈ K p' -> p = p';
  dk_edge : forall p pn q, d_nodes c !! p = Some pn -> q ∈ K p ->
    exists qn, d_nodes c !! q = Some qn /\ named qn (d_name qn) /\ T (d_inode pn) (d_name qn) = Some (d_inode qn)
}.

(** A node of the cache that stands for the directory [d]; no node stands for
    the root. *)
Definition stands_for (c : DentryCache) (link : option positive) (d : Z) : Prop :=
  match link with
  | None => d = ROOT_INODE
  | Some p => exists n, d_nodes c !! p = Some n /\ d_inode n = d
  end.

Definition node_of (c : DentryCache) (link : option positive) : positive := default (root_ c) link.

Lemma stands_node T K c link d :
  dc_ok T K c -> stands_for c link d -> exists n, d_nodes c !! node_of c link = Some n /\ d_inode n = d.
Proof. intros H. destruct link as [p|]; [done|]. intros ->. apply (dk_root _ _ _ H). Qed.

Lemma dc_lookup_node link name c : dc_lookup link name c = dc_lookup (Some (node_of c link)) name c.
Proof. by destruct link. Qed.

Lemma dc_insert_node link name inode c : dc_insert link name inode c = dc_insert (Some (node_of c link)) name inode c.
Proof. by destruct link. Qed.

(** ** Rings in a changed heap *)

Lemma children_same m m' p cs :
  children m p cs -> d_childs <$> m' !! p = d_childs <$> m !! p ->
  (forall q, q ∈ cs -> dnx m' q = dnx m q /\ is_Some (m' !! q)) -> children m' p cs.
Proof.
  intros (pn & Hp & Hnd & Hdom & Hring) Hc Hq. rewrite Hp in Hc. destruct (m' !! p) as [pn'|] eqn:Hp'; [|done].
  injection Hc as Hc. exists pn'. split; [done|]. split; [done|]. split; [intros q Hin; by apply Hq|].
  destruct cs as [|c cs]; [congruence|]. destruct Hring as [H1 H2]. split; [congruence|].
  apply (chain_ext (dnx m)); [|done]. intros q Hin. by apply Hq.
Qed.

Lemma info_edge (m m' : gmap positive DNode) (T : edges) p pn' q :
  (forall r, info <$> m' !! r = info <$> m !! r) -> m' !! p = Some pn' ->
  (forall pn, m !! p = Some pn -> exists qn, m !! q = Some qn /\ named qn (d_name qn) /\ T (d_inode pn) (d_name qn) = Some (d_inode qn)) ->
  exists qn, m' !! q = Some qn /\ named qn (d_name qn) /\ T (d_inode pn') (d_name qn) = Some (d_inode qn).
Proof.
  intros Hi Hp' H. pose proof (Hi p) as Ep. rewrite Hp' in Ep. destruct (m !! p) as [pn|] eqn:Hp; [|done].
  destruct (H pn) as (qn & Hq & (N1 & N2 & N3 & N4) & HT); [done|]. pose proof (Hi q) as Eq. rewrite Hq in Eq.
  destruct (m' !! q) as [qn'|]; [|done]. unfold info in *. injection Ep as Ep _ _. injection Eq as E1 E2 E3.
  exists qn'. split; [done|]. unfold named. by rewrite E1, E2, E3, Ep.
Qed.

(** ** Lookups *)

Definition set_kids (K : positive -> list positive) (p : positive) (cs : list positive) : positive -> list positive :=
  fun r => if decide (r = p) then cs else K r.

Lemma set_kids_eq K p cs : set_kids K p cs p = cs.
Proof. unfold set_kids. by rewrite decide_True. Qed.

Lemma set_kids_ne K p cs r : r <> p -> set_kids K p cs r = K r.
Proof. intros. unfold set_kids. by rewrite decide_False. Qed.

(** The ring of one node is turned. *)
Lemma rotate_ok T K c p pn xs q ys :
  dc_ok T K c -> d_nodes c !! p = Some pn -> K p = xs ++ q :: ys ->
  dc_ok T (set_kids K p (q :: ys ++ xs)) (with_dnodes (<[p := with_childs (Some q) pn]> (d_nodes c)) c).
Proof.
  intros D Hp HK. set (m' := <[p := _]> _).
  assert (Hperm : forall r, r ∈ q :: ys ++ xs <-> r ∈ K p).
  { intros r. rewrite HK, elem_of_cons, !elem_of_app, elem_of_cons. tauto. }
  assert (Hin : forall r s, r ∈ set_kids K p (q :: ys ++ xs) s <-> r ∈ K s).
  { intros r s. destruct (decide (s = p)) as [->|]; [by rewrite set_kids_eq|by rewrite set_kids_ne]. }
  assert (Hi : forall r, info <$> m' !! r = info <$> d_nodes c !! r).
  { intros r. unfold m'. destruct (decide (r = p)) as [->|]; [by rewrite lookup_insert_eq, Hp|by rewrite lookup_insert_ne]. }
  assert (Hs : forall r, is_Some (m' !! r) <-> is_Some (d_nodes c !! r)).
  { intros r. rewrite <- !(fmap_is_Some info). by rewrite Hi. }
  assert (Hch : forall r, r <> p -> d_childs <$> m' !! r = d_childs <$> d_nodes c !! r).
  { intros r Hr. unfold m'. by rewrite lookup_insert_ne. }
  constructor; cbn [with_dnodes d_nodes d_fresh root_].
  - intros r Hr. apply (dk_heap _ _ _ D). by apply Hs.
  - destruct (dk_root _ _ _ D) as (rn & Hr & E). unfold m'. destruct (decide (root_ c = p)) as [Ep|].
    + rewrite Ep in *. rewrite lookup_insert_eq. rewrite Hp in Hr. injection Hr as ->. by exists (with_childs (Some q) rn).
    + rewrite lookup_insert_ne by done. by exists rn.
  - intros r Hr. pose proof (dk_kids _ _ _ D r) as Hk. destruct (decide (r = p)) as [->|Hne].
    + rewrite set_kids_eq. apply children_rotate; [done|]. rewrite <- HK. apply Hk. by apply Hs.
    + rewrite set_kids_ne by done. apply (children_same (d_nodes c)); [by apply Hk, Hs|by apply Hch|].
      intros s Hins. split; [by apply dnx_with_childs|]. apply Hs. destruct Hr as [rn Hr].
      destruct (Hk ltac:(apply Hs; eauto)) as (_ & _ & _ & Hdom & _). by apply Hdom.
  - intros r Hr. destruct (decide (r = p)) as [->|Hne]; [unfold m' in Hr; by rewrite lookup_insert_eq in Hr|].
    rewrite set_kids_ne by done. apply (dk_none _ _ _ D). apply eq_None_not_Some. rewrite <- Hs. by apply eq_None_not_Some.
  - intros r r' s. rewrite !Hin. apply (dk_apart _ _ _ D).
  - intros r rn s Hr. rewrite Hin. intros Hins. apply (info_edge (d_nodes c) m' T r rn s); [done|done|].
    intros pn0 Hp0. by apply (dk_edge _ _ _ D r).
Qed.

(** A lookup finds an entry of the directory or leaves the cache as it is. *)
Lemma dc_lookup_ok T K c link d name :
  dc_ok T K c -> stands_for c link d -> name <> [] ->
  (dc_lookup link name c = Ret None c /\ find_child (d_nodes c) name (K (node_of c link)) = None)
  \/ (exists q qn c' K', dc_lookup link name c = Ret (Some q) c' /\ dc_ok T K' c'
      /\ d_nodes c' !! q = Some qn /\ T d name = Some (d_inode qn)
      /\ q ∈ K' (node_of c' link) /\ node_of c' link = node_of c link /\ d_nodes c !! q = Some qn
      /\ (forall r, info <$> d_nodes c' !! r = info <$> d_nodes c !! r)).
Proof.
  intros D Hs Hne. rewrite dc_lookup_node. destruct (stands_node _ _ _ _ _ D Hs) as (pn & Hp & Hd).
  set (p := node_of c link) in *. pose proof (dk_kids _ _ _ D p ltac:(eauto)) as Hk.
  destruct (dc_lookup_eq c p (K p) name Hk Hne) as (pn' & Hp' & Hl). rewrite Hp in Hp'. injection Hp' as <-. rewrite Hl.
  pose proof (find_child_split (d_nodes c) name (K p)) as Hf.
  destruct (find_child (d_nodes c) name (K p)) as [q|]; [right|by left].
  destruct Hf as (xs & ys & n & HK & Hq & Hm).
  destruct (dk_edge _ _ _ D p pn q Hp ltac:(rewrite HK; set_solver)) as (qn & Hq' & Hnm & HT).
  rewrite Hq in Hq'. injection Hq' as <-. destruct Hnm as (N1 & N2 & N3 & N4).
  rewrite (name_match_spec n (d_name n) name N3 N4 eq_refl N2) in Hm. apply bool_decide_eq_true in Hm.
  assert (Hpq : q <> p).
  { destruct Hk as (_ & _ & Hnd & _). apply NoDup_cons in Hnd as [Hnot _]. intros ->. apply Hnot. rewrite HK. set_solver. }
  eexists q, n, _, _. split; [reflexivity|]. split; [by apply (rotate_ok T K c p pn xs q ys)|].
  cbn [with_dnodes d_nodes]. split; [by rewrite lookup_insert_ne|]. split; [congruence|].
  assert (Hn : node_of (with_dnodes (<[p := with_childs (Some q) pn]> (d_nodes c)) c) link = p) by done.
  rewrite Hn, set_kids_eq. split; [set_solver|]. split; [done|]. split; [done|].
  intros r. destruct (decide (r = p)) as [->|]; [by rewrite lookup_insert_eq, Hp|by rewrite lookup_insert_ne].
Qed.

(** ** Insertions *)

Section Insert.
Context (m : gmap positive DNode) (p new : positive) (pn : DNode) (cs : list positive) (name : list byte) (inode : Z).
Hypothesis Hch : children m p cs.
Hypothesis Hp : m !! p = Some pn.
Hypothesis Hnew : m !! new = None.

Let m' := insert_nodes m p new pn name inode.

(** The node whose [next_] pointer changes, if there is one, is the first
    child. *)
Lemma insert_lookup r :
  r <> new -> exists n', m' !! r = (fun n => n' n) <$> m !! r /\ (forall n, info (n' n) = info n)
    /\ (r <> p -> forall n, d_childs (n' n) = d_childs n) /\ ((r ∉ cs) -> forall n, d_next (n' n) = d_next n).
Proof.
  intros Hr. pose proof Hch as (pn0 & Hp0 & Hnd & Hdom & Hring). rewrite Hp in Hp0. injection Hp0 as <-.
  apply NoDup_cons in Hnd as [Hpcs _]. assert (Hpn : p <> new) by congruence. unfold m', insert_nodes.
  destruct cs as [|c0 cs'].
  - rewrite Hring. destruct (decide (r = p)) as [->|Hrp].
    + exists (with_childs (Some new)). by rewrite lookup_insert_eq, Hp.
    + exists id. rewrite !lookup_insert_ne by done. split; [by destruct (m !! r)|done].
  - destruct Hring as [Hc _]. destruct (Hdom c0) as [cn Hcn]; [set_solver|]. rewrite Hc, Hcn.
    assert (c0 <> p) by set_solver. destruct (decide (r = p)) as [->|Hrp].
    + exists (with_childs (Some new)). by rewrite lookup_insert_eq, Hp.
    + destruct (decide (r = c0)) as [->|Hrc].
      * exists (with_dnext (Some new)). rewrite lookup_insert_ne, lookup_insert_eq, Hcn by done.
        split; [done|]. split; [done|]. split; [done|]. set_solver.
      * exists id. rewrite !lookup_insert_ne by done. split; [by destruct (m !! r)|done].
Qed.

Lemma insert_info r : r <> new -> info <$> m' !! r = info <$> m !! r.
Proof.
  intros Hr. destruct (insert_lookup r Hr) as (n' & -> & Hi & _). destruct (m !! r); cbn; [by rewrite Hi|done].
Qed.

Lemma insert_some r : is_Some (m' !! r) <-> r = new \/ is_Some (m !! r).
Proof.
  destruct (decide (r = new)) as [->|Hr].
  - destruct (children_insert m p new pn cs name inode Hch Hp Hnew) as (_ & nxt & E). fold m' in E. rewrite E. split; [auto|eauto].
  - rewrite <- !(fmap_is_Some info), insert_info by done. split; [auto|]. by intros [?|?].
Qed.

(** The children of the other nodes. *)
Lemma insert_other r rs :
  children m r rs -> r <> p -> r <> new -> (forall q, q ∈ rs -> q ∉ cs) -> children m' r rs.
Proof.
  intros Hr Hrp Hrn Hap. pose proof Hr as (rn & Hrr & _ & Hdom & _). apply (children_same m); [done| |].
  - destruct (insert_lookup r Hrn) as (n' & -> & _ & Hc & _). rewrite Hrr. cbn. by rewrite Hc.
  - intros q Hq. specialize (Hdom q Hq). assert (Hqn : q <> new) by (intros ->; rewrite Hnew in Hdom; by destruct Hdom).
    split; [|apply insert_some; by right]. destruct (insert_lookup q Hqn) as (n' & E & _ & _ & Hx).
    unfold dnx. rewrite E. destruct (m !! q); cbn; [by rewrite Hx; [|apply Hap]|done].
Qed.
End Insert.

(** An entry of the directory is inserted. *)
Lemma dc_insert_ok T K c link d name j :
  dc_ok T K c -> stands_for c link d -> T d name = Some j -> no_nul name -> Z.of_nat (length name) + 1 <= EXT2_NAME_LEN ->
  exists q c' K', dc_insert link name j c = Ret q c' /\ dc_ok T K' c' /\ stands_for c' (Some q) j
    /\ node_of c' link = node_of c link /\ q ∈ K' (node_of c' link) /\ d_nodes c !! q = None
    /\ (forall r, r <> q -> info <$> d_nodes c' !! r = info <$> d_nodes c !! r).
Proof.
  intros D Hs HT Hnul Hlen. rewrite dc_insert_node. destruct (stands_node _ _ _ _ _ D Hs) as (pn & Hp & Hd).
  set (p := node_of c link) in *. set (new := d_fresh c). pose proof (dk_kids _ _ _ D p ltac:(eauto)) as Hk.
  rewrite (dc_insert_eq c p pn (K p) name j Hk Hp (dk_heap _ _ _ D) Hnul Hlen).
  assert (Hnew : d_nodes c !! new = None).
  { destruct (d_nodes c !! new) eqn:E; [|done]. pose proof (dk_heap _ _ _ D new ltac:(eauto)) as Hlt. unfold new in Hlt. lia. }
  assert (Hpn : p <> new) by congruence.
  destruct (children_insert _ p new pn (K p) name j Hk Hp Hnew) as (Hk' & nxt & Hn).
  set (m' := insert_nodes _ _ _ _ _ _) in *. set (kp := new :: _) in Hk'.
  set (K' := set_kids (set_kids K p kp) new []).
  set (c' := mk_dcache m' _ _ _ _).
  assert (Hsome : forall r, is_Some (m' !! r) <-> r = new \/ is_Some (d_nodes c !! r)) by (intros r; by apply (insert_some _ p new pn (K p))).
  assert (Hinfo : forall r, r <> new -> info <$> m' !! r = info <$> d_nodes c !! r) by (intros r; by apply (insert_info _ p new pn (K p))).
  assert (HKn : K new = []) by by apply (dk_none _ _ _ D).
  assert (Hlive : forall r q, q ∈ K r -> is_Some (d_nodes c !! r) /\ is_Some (d_nodes c !! q)).
  { intros r q Hq. assert (Hr : is_Some (d_nodes c !! r)).
    { destruct (d_nodes c !! r) as [rn|] eqn:E; [eauto|]. rewrite (dk_none _ _ _ D r E) in Hq. by apply elem_of_nil in Hq. }
    split; [done|]. destruct Hr as [rn Hr]. destruct (dk_edge _ _ _ D r rn q Hr Hq) as (qn & Hqn & _). eauto. }
  assert (HKin : forall r q, q ∈ K' r <-> (q = new /\ r = p) \/ q ∈ K r).
  { intros r q. unfold K'. destruct (decide (r = new)) as [->|Hrn].
    - rewrite set_kids_eq, HKn. split; [by intros ?%elem_of_nil|]. intros [[_ E]|H]; [congruence|done].
    - rewrite set_kids_ne by done. destruct (decide (r = p)) as [->|Hrp].
      + rewrite set_kids_eq. unfold kp. rewrite elem_of_cons. destruct (K p) as [|c0 cs']; [|rewrite elem_of_app, list_elem_of_singleton, elem_of_cons]; tauto.
      + rewrite set_kids_ne by done. split; [auto|]. by intros [[_ ?]|?]. }
  exists new, c', K'. split; [done|]. split; [|split; [|split; [done|split; [|split; [done|exact Hinfo]]]]].
  - constructor; cbn [c' d_nodes d_fresh root_].
    + intros r Hr. change (r < Pos.succ (d_fresh c))%positive. apply Hsome in Hr as [->|Hr]; [unfold new; lia|].
      pose proof (dk_heap _ _ _ D r Hr). lia.
    + destruct (dk_root _ _ _ D) as (rn & Hr & E). assert (Hrn : root_ c <> new) by congruence.
      pose proof (Hinfo _ Hrn) as Hi. rewrite Hr in Hi. destruct (m' !! root_ c) as [rn'|]; [|done]. injection Hi as Hi _ _.
      exists rn'. split; [done|]. by rewrite Hi.
    + intros r Hr. unfold K'. destruct (decide (r = new)) as [->|Hrn].
      { rewrite set_kids_eq. exists (new_node name j nxt). split; [done|]. split; [apply NoDup_singleton|]. split; [set_solver|done]. }
      rewrite set_kids_ne by done. destruct (decide (r = p)) as [->|Hrp]; [by rewrite set_kids_eq|].
      rewrite set_kids_ne by done. apply Hsome in Hr as [?|Hr]; [done|].
      apply (insert_other (d_nodes c) p new pn (K p) name j Hk Hp Hnew r (K r)); [by apply (dk_kids _ _ _ D)|done|done|].
      intros q Hq Hq'. apply Hrp. by apply (dk_apart _ _ _ D r p q).
    + intros r Hr. assert (Hno : ~ (r = new \/ is_Some (d_nodes c !! r))) by (rewrite <- Hsome; by apply eq_None_not_Some).
      unfold K'. rewrite set_kids_ne by tauto. rewrite set_kids_ne by (intros ->; apply Hno; right; eauto).
      apply (dk_none _ _ _ D). apply eq_None_not_Some. tauto.
    + intros r r' q. rewrite !HKin. intros [[-> ->]|H1] [[E ->]|H2]; [done| | |by apply (dk_apart _ _ _ D r r' q)].
      * apply Hlive in H2 as [_ [? H2]]. congruence.
      * rewrite E in H1. apply Hlive in H1 as [_ [? H1]]. congruence.
    + intros r rn q Hr. rewrite HKin. intros [[-> ->]|Hq].
      * exists (new_node name j nxt). split; [done|]. split; [split; [done|]; split; [done|]; split; [done|cbn; lia]|].
        pose proof (Hinfo p Hpn) as Hi. rewrite Hp, Hr in Hi. injection Hi as Hi _ _. cbn. by rewrite Hi, Hd.
      * pose proof (Hlive r q Hq) as [Hr0 Hq0]. assert (Hrn : r <> new) by (intros ->; rewrite Hnew in Hr0; by destruct Hr0).
        assert (Hqn : q <> new) by (intros ->; rewrite Hnew in Hq0; by destruct Hq0).
        destruct Hr0 as [rn0 Hr0]. destruct (dk_edge _ _ _ D r rn0 q Hr0 Hq) as (qn & Hqq & (N1 & N2 & N3 & N4) & HTq).
        pose proof (Hinfo r Hrn) as E1. rewrite Hr, Hr0 in E1. pose proof (Hinfo q Hqn) as E2. rewrite Hqq in E2.
        destruct (m' !! q) as [qn'|]; [|done]. unfold info in *. injection E1 as E1 _ _. injection E2 as E2 E3 E4.
        exists qn'. split; [done|]. unfold named. by rewrite E1, E2, E3, E4.
  - exists (new_node name j nxt). done.
  - apply HKin. by left.
Qed.
