(* ===== verification/DirVisit.v ===== *)
(** * Visiting the blocks of an inode: FileSystem::visit_inode_blocks of
    src/filesystem.cpp

    A rule for loops over the blocks of a file: the visitor is called on the
    blocks of the file in order, with a pointer to the block, until it
    returns true or there are no more blocks. *)

From S2P Require Import Prelude Layout Disk Bitmap PathName Block BlockGroup BlockCache DentryCache.
From S2P Require Import FileSystem FileStatus OpenFiles FsBlocks FileData FsPointers FsAlloc FileBlocks FileGrow FileWrite.

(** A state that the visitor may continue from. *)
Record goes_on (ip : iptr) (ind : ext2_inode) (n : Z) (s s' : FS) : Prop := {
  go_grow : growable s' ip ind n;
  go_blk : forall m, 0 <= m < n -> blk s' ind m = blk s ind m;
  go_recent : forall k j q, recent s k j q -> recent s' k j q;
  go_size : size_ (st_cache (fs_store s')) = size_ (st_cache (fs_store s))
}.

(** The blocks of a file, brought into the cache one by one. *)
Lemma visit_get s ip ind n i :
  growable s ip ind n -> allocated s i = true ->
  exists p st, get_block i s = Ret (Some p) (with_store st s) /\ recent (with_store st s) 1 i p
    /\ growable (with_store st s) ip ind n
    /\ same_blocks s (with_store st s)
    /\ (forall m, 0 <= m < n -> blk (with_store st s) ind m = blk s ind m)
    /\ (forall k j q, recent s k j q -> Z.of_nat k < size_ (st_cache (fs_store s)) -> recent (with_store st s) (S k) j q)
    /\ size_ (st_cache st) = size_ (st_cache (fs_store s)).
Proof.
  intros B Ha. destruct (evolve_get ip (fun _ => False) s i (gb_wf _ _ _ _ B) (gb_zero _ _ _ _ B) Ha) as (p & st & H & Hr & E & Hv);
    [done|]. pose proof (ev_size _ _ _ _ _ E) as Hs. cbn in Hs.
  destruct (growable_store s st ip ind n B) as [B' K]; [apply (wf_inv _ (ev_wf _ _ _ _ _ E))|done|by intros; apply Hv|].
  exists p, st. do 3 (split; [done|]). split; [split; [apply (wf_inv _ (ev_wf _ _ _ _ _ E))|by exists st]|].
  split; [|split; [|done]].
  - intros m Hm. apply (keeps_blk _ _ _ _ n); [done|apply (fo_range _ _ _ (gb_file _ _ _ _ B))|done].
  - intros k j q Hk Hlt. replace (S k) with (k + 1)%nat by lia. apply (ev_recent _ _ _ _ _ E); [done|lia].
Qed.

Section Visit.
Context {A : Type} (ip : iptr) (ind : ext2_inode) (n : Z) (v : visitor A).
Context (I : Z -> A -> FS -> Prop) (Q : A -> FS -> Prop).

Hypothesis I_get : forall m acc s s', 0 <= m < n -> growable s ip ind n -> I m acc s ->
  same_blocks s s' -> growable s' ip ind n -> I m acc s'.

Hypothesis v_step : forall m acc s p, 0 <= m < n -> growable s ip ind n -> I m acc s -> recent s 1 (blk s ind m) p ->
  exists stop acc' s', v (blk s ind m) p acc s = Ret (stop, acc') s'
    /\ if (stop : bool) then Q acc' s' else goes_on ip ind n s s' /\ I (m + 1) acc' s'.

Hypothesis I_end : forall acc s, growable s ip ind n -> I n acc s -> Q acc s.

(** One block. *)
Lemma visit_block m acc s :
  0 <= m < n -> growable s ip ind n -> I m acc s ->
  exists p st stop acc' s', get_block (blk s ind m) s = Ret (Some p) (with_store st s)
    /\ cell (with_store st s) ip ind
    /\ v (blk s ind m) p acc (with_store st s) = Ret (stop, acc') s'
    /\ if (stop : bool) then Q acc' s'
       else growable s' ip ind n /\ I (m + 1) acc' s' /\ (forall k, 0 <= k < n -> blk s' ind k = blk s ind k)
            /\ size_ (st_cache (fs_store s')) = size_ (st_cache (fs_store s))
            /\ forall k j q, recent s k j q -> Z.of_nat k < size_ (st_cache (fs_store s)) -> recent s' (S k) j q.
Proof.
  intros Hm B HI. destruct (visit_get s ip ind n (blk s ind m) B) as (p & st & H & Hr & B' & Hv & Hb & Hrs & Hs).
  { by apply (datas_used _ _ n); [apply (gb_file _ _ _ _ B)|]. }
  destruct (v_step m acc (with_store st s) p Hm B') as (stop & acc' & s' & H' & Hcase); [by apply (I_get m acc s)|by rewrite Hb|].
  rewrite Hb in H' by done. exists p, st, stop, acc', s'. split; [done|]. split; [apply (gb_cell _ _ _ _ B')|]. split; [done|].
  destruct stop; [done|]. destruct Hcase as [[G1 G2 G3 G4] HI']. split; [done|]. split; [done|].
  split; [intros k Hk; by rewrite G2, Hb|]. split; [by rewrite G4|]. intros k j q Hk Hlt. by apply G3, Hrs.
Qed.

(** The blocks behind a single indirect block. *)
Lemma visit_indirect_loop_ok k : forall m acc s q,
  growable s ip ind n -> I m acc s -> 12 <= m -> m + Z.of_nat k = n -> n <= 1036 ->
  (k = 0%nat \/ recent s (Z.to_nat (m - 11)) (i_block_at 12 ind) q) -> n - 12 <= size_ (st_cache (fs_store s)) ->
  exists acc' s', visit_indirect_loop k (m - 12) q v acc s = Ret (true, acc') s' /\ Q acc' s'.
Proof.
  induction k as [|k IH]; intros m acc s q B HI Hm Hk Hn Hr Hsz.
  { exists acc, s. split; [done|]. apply I_end; [done|]. by replace n with m by lia. }
  destruct Hr as [?|Hr]; [done|]. cbn [visit_indirect_loop]. mstep (load32_recent s _ _ q (m - 12) Hr ltac:(rewrite W1; lia)).
  change (ld 4 (4 * (m - 12)) (fview s (i_block_at 12 ind))) with (wd s (i_block_at 12 ind) (m - 12)).
  rewrite <- (blk_single s ind m) by lia.
  destruct (visit_block m acc s ltac:(lia) B HI) as (p & st & stop & acc' & s' & H1 & _ & H2 & Hcase).
  mstep H1. mstep H2. destruct stop; [by exists acc', s'|]. destruct Hcase as (B' & HI' & _ & Hs' & Hrs).
  replace (m - 12 + 1) with (m + 1 - 12) by lia. apply IH; [done|done|lia|lia|lia| |by rewrite Hs'].
  destruct k as [|k]; [by left|right]. replace (Z.to_nat (m + 1 - 11)) with (S (Z.to_nat (m - 11))) by lia. apply Hrs; [done|lia].
Qed.

Lemma visit_single i acc s :
  growable s ip ind n -> I 12 acc s -> 12 < n <= 1036 -> n - 12 <= size_ (st_cache (fs_store s)) -> i = 12 ->
  exists acc' s', visit_step ip n v i (12, acc) s = Ret (inl acc') s' /\ Q acc' s'.
Proof.
  intros B HI Hn Hsz ->. unfold visit_step. mstep (cell_load _ _ _ (gb_cell _ _ _ _ B)).
  change (12 <? EXT2_NDIR_BLOCKS) with false. change (12 =? EXT2_IND_BLOCK) with true. cbv iota.
  change (12 =? MAX_DIR_BLOCKS) with true. rewrite (bind_ret _ _ _ tt s) by done.
  destruct (visit_get s ip ind n (i_block_at 12 ind) B) as (p & st & H & Hr & B' & Hv & Hb & _ & Hs).
  { apply (metas_used s ind n); [apply (gb_file _ _ _ _ B)|]. apply elem_of_metas. left. lia. }
  mstep H. rewrite u32_small by lia. unfold visit_indirect_blocks. change NUM_INDIRECT_BLOCKS with 1024.
  change MAX_IND_BLOCKS with 1024. rewrite Z.min_l by lia.
  destruct (visit_indirect_loop_ok (Z.to_nat (n - 12)) 12 acc (with_store st s) p B') as (acc' & s' & H' & HQ);
    [by apply (I_get 12 acc s); [lia|..]|lia|lia|lia|by right|cbn; lia|].
  rewrite (bind_ret _ _ _ (true, acc') s' H'). cbn [negb]. rewrite (proj2 (Z.eqb_eq (12 + (n - 12)) n)) by lia.
  by exists acc', s'.
Qed.

Lemma visit_steps k : forall i acc s,
  growable s ip ind n -> I (Z.of_nat i) acc s -> (i + k = 15)%nat -> (i <= 12)%nat -> Z.of_nat i < n <= 1036 ->
  n - 12 <= size_ (st_cache (fs_store s)) ->
  exists acc' s', for_list (map Z.of_nat (seq i k)) (visit_step ip n v) (Z.of_nat i, acc) s = Ret (inl acc') s' /\ Q acc' s'.
Proof.
  induction k as [|k IH]; intros i acc s B HI Hik Hi Hn Hsz; [lia|]. cbn [seq map for_list].
  destruct (decide (i = 12%nat)) as [->|Hne].
  { destruct (visit_single 12 acc s B HI) as (acc' & s' & H & HQ); [lia|done|done|].
    rewrite (bind_ret _ _ _ (inl acc') s' H). by exists acc', s'. }
  set (m := Z.of_nat i) in *.
  destruct (visit_block m acc s ltac:(lia) B HI) as (p & st & stop & acc' & s' & H1 & Hc & H2 & Hcase).
  rewrite blk_direct in H1, H2 by lia.
  assert (Hstep : visit_step ip n v m (m, acc) s
    = Ret (if stop then inl acc' else if m + 1 =? n then inl acc' else inr (m + 1, acc')) s').
  { unfold visit_step. mstep (cell_load _ _ _ (gb_cell _ _ _ _ B)).
    rewrite (proj2 (Z.ltb_lt m EXT2_NDIR_BLOCKS)) by (change EXT2_NDIR_BLOCKS with 12; lia). mstep H1.
    mstep (cell_load _ _ _ Hc). mstep H2. destruct stop; [done|]. by destruct (m + 1 =? n). }
  rewrite (bind_ret _ _ _ _ s' Hstep). destruct stop; [by exists acc', s'|].
  destruct Hcase as (B' & HI' & _ & Hs' & _). destruct (Z.eqb_spec (m + 1) n) as [E|E].
  - exists acc', s'. split; [done|]. apply I_end; [done|]. by rewrite <- E.
  - replace (m + 1) with (Z.of_nat (S i)) in * by lia. apply IH; [done|done|lia|lia|lia|lia].
Qed.

(** The rule. *)
Lemma visit_inode_blocks_ok acc s :
  growable s ip ind n -> I 0 acc s -> n <= 1036 -> n - 12 <= size_ (st_cache (fs_store s)) ->
  exists acc' s', visit_inode_blocks ip v acc s = Ret acc' s' /\ Q acc' s'.
Proof.
  intros B HI Hn Hsz. pose proof (fo_range _ _ _ (gb_file _ _ _ _ B)) as Hr. unfold visit_inode_blocks.
  mstep (cell_load _ _ _ (gb_cell _ _ _ _ B)). rewrite (gb_mode _ _ _ _ B), (bind_ret _ _ _ tt s) by done.
  rewrite (bind_ret _ _ _ (fs_super s) s) by done. rewrite (gb_blocks _ _ _ _ B).
  mstep (aligned_blocks s n (wf_log _ (gb_wf _ _ _ _ B)) ltac:(lia)). destruct (Z.eqb_spec n 0) as [E|E].
  - exists acc, s. split; [done|]. apply I_end; [done|]. by rewrite E.
  - destruct (visit_steps 15 0 acc s B HI) as (acc' & s' & H & HQ); [lia|lia|lia|done|].
    change (Z.to_nat EXT2_N_BLOCKS) with 15%nat. mstep H. by exists acc', s'.
Qed.
End Visit.
