(* ===== verification/Directory.v ===== *)
(** * Directories: inode_lookup in a directory and dentry_create of
    src/filesystem.cpp

    The abstract state of a directory is the list of its entries, block by
    block.  Looking a name up finds the last entry with that name; creating
    an entry appends it, to the last block or to a new one. *)

From S2P Require Import Prelude Layout Disk Bitmap PathName Block BlockGroup BlockCache DentryCache.
From S2P Require Import FileSystem FileStatus OpenFiles FsBlocks FileData FsPointers FsAlloc FileBlocks FsInodes FileGrow FileWrite DirVisit.
From S2P Require Import DirBlock.

(** ** Entries and names *)

(** The name of an entry is among the bytes reserved for it. *)
Definition d_fits (d : dentry) : Prop := d_wf d /\ d_name_len d <= Z.of_nat (length (d_name d)).

Definition d_matches (name : list byte) (d : dentry) : bool :=
  (d_name_len d =? Z.of_nat (length name)) && bool_decide (take (length name) (d_name d) = name).

Definition find_in (name : list byte) (ds : list dentry) (found : option Z) : option Z :=
  fold_left (fun found d => if d_matches name d then Some (d_inode d) else found) ds found.

Lemma find_in_app name ds1 ds2 found : find_in name (ds1 ++ ds2) found = find_in name ds2 (find_in name ds1 found).
Proof. apply fold_left_app. Qed.

Lemma dentry_match_at name off data :
  d_name_len (dentry_at data off) <= Z.of_nat (length (d_name (dentry_at data off))) ->
  dentry_match name off data = d_matches name (dentry_at data off).
Proof.
  intros Hle. unfold dentry_match, d_matches. cbn [d_name_len dentry_at] in *.
  destruct (Z.eqb_spec (getf off de_name_len data) (Z.of_nat (length name))) as [E|]; [|done]. cbn [andb]. f_equal.
  cbn [d_name dentry_at] in *. rewrite E in Hle. unfold slice in *. rewrite length_take in Hle.
  rewrite take_take. rewrite Nat2Z.id, Nat.min_l by lia. done.
Qed.

Lemma scan_dentries_find name data offs : forall found,
  Forall d_fits (map (dentry_at data) offs) ->
  scan_dentries name data offs found = find_in name (map (dentry_at data) offs) found.
Proof.
  induction offs as [|off offs IH]; intros found Hf; [done|]. cbn in Hf. apply Forall_cons in Hf as [[_ Hd] Hf].
  unfold scan_dentries, find_in. cbn [map fold_left]. rewrite dentry_match_at by done. by apply IH.
Qed.

(** ** The state of a directory *)

Definition dir_block (s : FS) (b : Z) (ds : list dentry) : Prop :=
  Forall d_fits ds /\ dir_size ds <= BLOCK_SIZE /\ fview s b = dir_image ds.

Record dir_ok (s : FS) (ip : iptr) (ind : ext2_inode) (n : Z) (dss : list (list dentry)) : Prop := {
  do_grow : growable s ip ind n;
  do_len : Z.of_nat (length dss) = n;
  do_small : n <= 1036;
  do_cache : n - 12 <= size_ (st_cache (fs_store s));
  do_blocks : forall m ds, dss !! m = Some ds -> dir_block s (blk s ind (Z.of_nat m)) ds
}.

Lemma dir_block_parse s b ds :
  dir_block s b ds ->
  DentryBlock_init (fview s b) = Some (dir_offsets 0 ds, dir_size ds)
  /\ map (dentry_at (fview s b)) (dir_offsets 0 ds) = ds.
Proof.
  intros (Hf & Hsz & ->). apply DentryBlock_image; [|done]. eapply Forall_impl; [exact Hf|]. by intros d [H _].
Qed.

Lemma dentries_recent s k b p ds :
  recent s k b p -> dir_block s b ds -> dentries p s = Ret (dir_offsets 0 ds, dir_size ds) s.
Proof.
  intros Hr Hd. destruct (recent_block _ _ _ _ Hr) as (blk & Hb & Hdata & _). unfold dentries.
  rewrite (bind_ret _ _ _ blk s).
  2:{ unfold on_store, zoom, block_deref. rewrite Hb. by destruct s as [[] ? ? ? ?]. }
  rewrite Hdata. by destruct (dir_block_parse _ _ _ Hd) as [-> _].
Qed.

Lemma deref_recent s k b p :
  recent s k b p -> exists bl, on_store (block_deref p) s = Ret bl s /\ data_ bl = fview s b
    /\ st_mem (fs_store s) !! p = Some bl.
Proof.
  intros Hr. destruct (recent_block _ _ _ _ Hr) as (bl & Hb & Hdata & _). exists bl. split; [|done].
  unfold on_store, zoom, block_deref. rewrite Hb. by destruct s as [[] ? ? ? ?].
Qed.

(** ** Caching changes nothing *)

Lemma same_blocks_trans s1 s2 s3 : fs_inv s1 -> same_blocks s1 s2 -> same_blocks s2 s3 -> same_blocks s1 s3.
Proof.
  intros Hi [Hi2 (st2 & -> & Hs2 & Hv2)] [Hi3 (st3 & -> & Hs3 & Hv3)]. split; [done|].
  exists st3. split; [done|]. split; [by rewrite Hs3|]. intros j Hj. by rewrite Hv3, Hv2.
Qed.

Lemma same_blocks_grow s s' ip ind n :
  growable s ip ind n -> same_blocks s s' ->
  growable s' ip ind n /\ forall m, 0 <= m < n -> blk s' ind m = blk s ind m.
Proof.
  intros B [Hi (st & -> & Hs & Hv)]. destruct (growable_store s st ip ind n B Hi Hs) as [B' K]; [auto|].
  split; [done|]. intros m Hm. apply (keeps_blk _ _ _ _ n); [done|apply (fo_range _ _ _ (gb_file _ _ _ _ B))|done].
Qed.

Lemma dir_ok_same s s' ip ind n dss : dir_ok s ip ind n dss -> same_blocks s s' -> dir_ok s' ip ind n dss.
Proof.
  intros [B Hl Hsm Hca Hbl] Hs. destruct (same_blocks_grow _ _ _ _ _ B Hs) as [B' Hb].
  pose proof (wf_inv _ (gb_wf _ _ _ _ B)) as Hinv. destruct Hs as [_ (st & -> & Hsz & Hv)].
  constructor; [done|done|done|by cbn; rewrite Hsz|]. intros m ds Hm. pose proof (lookup_lt_Some _ _ _ Hm) as Hlt.
  destruct (Hbl m ds Hm) as (H1 & H2 & H3). rewrite Hb by lia. split; [done|]. split; [done|].
  rewrite Hv; [done|]. apply (allocated_valid s); [done|]. apply (datas_used _ _ n); [apply (gb_file _ _ _ _ B)|lia].
Qed.

(** ** Looking a name up *)

(** The last block, under its pointer. *)
Definition last_ok (s : FS) (ind : ext2_inode) (n : Z) (last : option (positive * Z)) : Prop :=
  if n =? 0 then last = None
  else exists p, last = Some (p, blk s ind (n - 1)) /\ recent s 1 (blk s ind (n - 1)) p.

Lemma inode_lookup_in_ok s ip ind n dss name :
  dir_ok s ip ind n dss ->
  exists s' last, inode_lookup_in ip name s = Ret (find_in name (concat dss) None, last) s'
    /\ same_blocks s s' /\ dir_ok s' ip ind n dss /\ last_ok s' ind n last.
Proof.
  intros D. pose proof (do_grow _ _ _ _ _ D) as B. pose proof (wf_inv _ (gb_wf _ _ _ _ B)) as Hinv.
  pose proof (do_len _ _ _ _ _ D) as Hlen.
  set (I := fun (m : Z) (acc : option Z * option (positive * Z)) (t : FS) =>
    same_blocks s t /\ acc.1 = find_in name (concat (take (Z.to_nat m) dss)) None
    /\ (m = n -> last_ok t ind n acc.2)).
  destruct (visit_inode_blocks_ok ip ind n
    (fun index block '(found, _) =>
       b ← on_store (block_deref block);
       '(offs, _) ← dentries block;
       mret (false, (scan_dentries name (data_ b) offs found, Some (block, index)))) I
    (fun acc t => growable t ip ind n /\ I n acc t)) with (acc := (@None Z, @None (positive * Z))) (s := s)
    as ([found last] & s' & H & B' & Hs' & Hf & Hl).
  - intros m acc t t' Hm Bt (Hst & Hf & _) Ht' _. split; [by apply (same_blocks_trans _ t)|]. split; [done|lia].
  - intros m [found last] t p Hm Bt (Hst & Hf & _) Hr.
    destruct (lookup_lt_is_Some_2 dss (Z.to_nat m)) as [ds Hds]; [lia|].
    destruct (same_blocks_grow _ _ _ _ _ B Hst) as [_ Hb].
    assert (Hd : dir_block t (blk t ind m) ds).
    { pose proof (do_blocks _ _ _ _ _ (dir_ok_same _ _ _ _ _ _ D Hst) _ _ Hds) as H. by rewrite Z2Nat.id in H by lia. }
    destruct (deref_recent _ _ _ _ Hr) as (bl & Hbl & Hdata & _).
    eexists false, _, t. split.
    { mstep Hbl. mstep (dentries_recent _ _ _ _ _ Hr Hd). reflexivity. }
    split; [by constructor|]. split; [done|]. cbn [fst snd] in *. rewrite Hdata.
    destruct (dir_block_parse _ _ _ Hd) as [_ Hmap]. split.
    + rewrite scan_dentries_find; rewrite Hmap; [|apply Hd]. rewrite Hf.
      replace (Z.to_nat (m + 1)) with (S (Z.to_nat m)) by lia.
      rewrite (take_S_r _ _ _ Hds), concat_app, find_in_app. cbn [concat]. by rewrite app_nil_r.
    + intros Hmn. unfold last_ok. rewrite (proj2 (Z.eqb_neq n 0)) by lia. exists p.
      by replace (n - 1) with m by lia.
  - intros acc t Bt Ht. done.
  - done.
  - split; [by apply same_blocks_refl|]. split; [done|]. intros <-. done.
  - apply (do_small _ _ _ _ _ D).
  - apply (do_cache _ _ _ _ _ D).
  - exists s', last. cbn [fst snd] in *. split; [|split; [done|split; [by apply (dir_ok_same s)|by apply Hl]]].
    unfold inode_lookup_in. rewrite H, Hf. do 3 f_equal. by rewrite take_ge by lia.
Qed.

(** ** Adding an entry *)

(** What is left of a state when only the directory's own blocks and inode
    change: blocks in use stay in use, those outside of the directory and the
    other inodes are what they were, and the cache of names is the same. *)
Record dir_frame (ip : iptr) (ind : ext2_inode) (n c : Z) (s s' : FS) : Prop := {
  df_used : forall j, allocated s j = true -> allocated s' j = true;
  df_view : forall j, allocated s j = true -> (j ∉ tree s ind n) -> fview s' j = fview s j;
  df_cells : forall ip2 v, ip2 <> ip -> cell s ip2 v -> cell s' ip2 v;
  df_room : forall k, room s (k + c) -> room s' k;
  df_meta : keeps_meta s s'
}.

(** The stores at the end of [dentry_create]. *)
Definition dentry_put (block : positive) (block_index size : Z) (name : list byte) (inode_index mode : Z) : M FS RetCode :=
  b ← on_store (block_deref block);
  data ← unwrap OutOfBounds (alloc_dentry size name inode_index mode (data_ b));
  _ ← on_store (block_update block (with_data data b));
  _ ← touch_block block_index;
  mret FS_SUCCESS.

(** A block of the directory gets new entries. *)
Lemma dir_update s st ip ind n dss m ds ds' :
  dir_ok s ip ind n dss -> dss !! m = Some ds ->
  Forall d_fits ds' -> dir_size ds' <= BLOCK_SIZE ->
  fs_inv (with_store st s) -> size_ (st_cache st) = size_ (st_cache (fs_store s)) ->
  (forall j, fs_valid j -> fview (with_store st s) j = if j =? blk s ind (Z.of_nat m) then dir_image ds' else fview s j) ->
  dir_ok (with_store st s) ip ind n (<[m := ds']> dss) /\ dir_frame ip ind n 0 s (with_store st s)
  /\ tree (with_store st s) ind n = tree s ind n.
Proof.
  intros D Hm Hf Hsz Hi Hs Hv. pose proof (do_grow _ _ _ _ _ D) as B. pose proof (gb_file _ _ _ _ B) as F.
  pose proof (wf_inv _ (gb_wf _ _ _ _ B)) as Hinv. pose proof (lookup_lt_Some _ _ _ Hm) as Hlt.
  pose proof (do_len _ _ _ _ _ D) as Hlen.
  assert (Hin : blk s ind (Z.of_nat m) ∈ datas s ind n) by (apply elem_of_datas; exists (Z.of_nat m); split; [lia|done]).
  assert (Hout : forall j, fs_valid j -> (j ∉ datas s ind n) -> fview (with_store st s) j = fview s j).
  { intros j Hj Hd. rewrite Hv by done. destruct (Z.eqb_spec j (blk s ind (Z.of_nat m))) as [->|]; done. }
  destruct (growable_store s st ip ind n B Hi Hs Hout) as [B' K].
  assert (Hb : forall k, 0 <= k < n -> blk (with_store st s) ind k = blk s ind k).
  { intros k Hk. apply (keeps_blk _ _ _ _ n); [done|apply (fo_range _ _ _ F)|done]. }
  split; [|split].
  - constructor; [done|by rewrite length_insert|apply (do_small _ _ _ _ _ D)|cbn; rewrite Hs; apply (do_cache _ _ _ _ _ D)|].
    intros k es Hk. assert (Hkn : 0 <= Z.of_nat k < n).
    { apply lookup_lt_Some in Hk. rewrite length_insert in Hk. lia. }
    rewrite Hb by done. unfold dir_block. rewrite Hv by (apply (allocated_valid s); [done|by apply (datas_used _ _ n)]).
    destruct (decide (k = m)) as [->|Hne].
    + rewrite list_lookup_insert_eq in Hk by done. injection Hk as <-. by rewrite Z.eqb_refl.
    + rewrite list_lookup_insert_ne in Hk by done. destruct (Z.eqb_spec (blk s ind (Z.of_nat k)) (blk s ind (Z.of_nat m))) as [E|].
      * apply (blk_inj _ _ n) in E; [lia|done|done|lia].
      * by apply (do_blocks _ _ _ _ _ D).
  - constructor; [intros j; by rewrite allocated_with_store| | | |by apply store_meta].
    + intros j Hj Ht. apply Hout; [by apply (allocated_valid s)|]. intros Hd. apply Ht, elem_of_app. by right.
    + intros ip2 v _ Hc. apply (cell_meta s); [apply same_meta_store|done].
    + intros k (gi & g & Hg & Hk). exists gi, g. split; [done|lia].
  - unfold tree. by rewrite (keeps_metas _ _ _ _ _ K), (keeps_datas _ _ _ _ _ K) by apply (fo_range _ _ _ F).
Qed.

(** The fields of the entry that is written. *)
Definition entry (name : list byte) (inode mode : Z) : dentry :=
  mk_dentry inode (Z.of_nat (length name)) (u8 (Z.shiftr mode 12)) name.

Definition name_ok (name : list byte) : Prop := no_nul name /\ Z.of_nat (length name) <= EXT2_NAME_LEN.

Lemma entry_new name inode mode :
  name_ok name -> 0 <= inode < 2 ^ 32 -> new_dentry name inode mode = entry name inode mode.
Proof.
  intros [Hn Hl] Hi. unfold new_dentry, entry. unfold EXT2_NAME_LEN in Hl. by rewrite strncpy_id, u32_small, u8_small by (done || lia).
Qed.

Lemma entry_rec_len name inode mode : d_rec_len (entry name inode mode) = sizeof_ext2_dir_entry_2 + Z.of_nat (length name).
Proof. done. Qed.

Lemma entry_fits name inode mode : name_ok name -> 0 <= inode < 2 ^ 32 -> d_fits (entry name inode mode).
Proof.
  intros [_ Hl] Hi. unfold d_fits, d_wf. rewrite entry_rec_len. pose proof (u8_range (Z.shiftr mode 12)).
  cbn [d_inode d_name_len d_file_type d_name entry]. unfold EXT2_NAME_LEN, sizeof_ext2_dir_entry_2 in *. lia.
Qed.

Lemma dir_size_snoc ds d : dir_size (ds ++ [d]) = dir_size ds + d_rec_len d.
Proof. rewrite dir_size_app, dir_size_cons. change (dir_size []) with 0. lia. Qed.

Lemma dentry_put_ok s ip ind n dss m ds k p name inode mode :
  dir_ok s ip ind n dss -> dss !! m = Some ds -> recent s k (blk s ind (Z.of_nat m)) p ->
  name_ok name -> 0 <= inode < 2 ^ 32 ->
  dir_size ds + sizeof_ext2_dir_entry_2 + Z.of_nat (length name) <= BLOCK_SIZE ->
  exists s', dentry_put p (blk s ind (Z.of_nat m)) (dir_size ds) name inode mode s = Ret FS_SUCCESS s'
    /\ dir_ok s' ip ind n (<[m := ds ++ [entry name inode mode]]> dss) /\ dir_frame ip ind n 0 s s'
    /\ tree s' ind n = tree s ind n.
Proof.
  intros D Hm Hr Hn Hi Hsz. set (b := blk s ind (Z.of_nat m)) in *. set (d := entry name inode mode).
  pose proof (wf_inv _ (gb_wf _ _ _ _ (do_grow _ _ _ _ _ D))) as Hinv.
  destruct (do_blocks _ _ _ _ _ D _ _ Hm) as (Hf & _ & Hview). fold b in Hview.
  assert (Hfit : dir_size ds + d_rec_len d <= BLOCK_SIZE) by (unfold d; rewrite entry_rec_len; lia).
  pose proof (alloc_dentry_image ds name inode mode) as Hal. cbn zeta in Hal. rewrite entry_new in Hal by done.
  assert (Hsz' : dir_size (ds ++ [d]) <= BLOCK_SIZE) by (rewrite dir_size_snoc; lia).
  destruct (update_touch s k b p (dir_image (ds ++ [d])) Hinv Hr) as (bl & st1 & st2 & Hbl & Hd & Hu & Ht & Hi2 & Hv & _ & Hs).
  { by apply length_dir_image. }
  exists (with_store st2 s). split.
  - destruct (deref_recent _ _ _ _ Hr) as (bl' & Hde & _ & Hbl'). rewrite Hbl in Hbl'. injection Hbl' as <-.
    unfold dentry_put. mstep Hde. rewrite Hd, Hview. rewrite Hal by done.
    rewrite (bind_ret _ _ _ (dir_image (ds ++ [d])) s) by done. mstep Hu. by mstep Ht.
  - apply (dir_update s st2 ip ind n dss m ds); try done. apply Forall_app. split; [done|].
    constructor; [by apply entry_fits|done].
Qed.

(** The directory gets a block. *)
Lemma dir_grown s s' ip ind ind' n idx p dss :
  dir_ok s ip ind n dss -> grown s s' ip ind ind' n idx p -> n < 1036 -> n - 11 <= size_ (st_cache (fs_store s)) ->
  dir_ok s' ip ind' (n + 1) (dss ++ [[]]) /\ dir_frame ip ind n 3 s s'.
Proof.
  intros D G Hn Hc. pose proof (do_grow _ _ _ _ _ D) as B. pose proof (gw_evolve _ _ _ _ _ _ _ _ G) as E.
  pose proof (gb_file _ _ _ _ B) as F. pose proof (do_len _ _ _ _ _ D) as Hlen. split.
  - constructor; [by apply (grown_growable s s' ip ind ind' n idx p)|rewrite length_app; cbn [length]; lia|lia
      |rewrite (ev_size _ _ _ _ _ E); lia|].
    intros m ds Hm. assert (m < length dss \/ m = length dss)%nat as [Hlt| ->].
    { apply lookup_lt_Some in Hm. rewrite length_app in Hm. cbn [length] in Hm. lia. }
    + rewrite lookup_app_l in Hm by done. rewrite (gw_before _ _ _ _ _ _ _ _ G) by lia.
      destruct (do_blocks _ _ _ _ _ D _ _ Hm) as (H1 & H2 & H3). split; [done|]. split; [done|].
      rewrite (ev_view _ _ _ _ _ E); [done|]. split; [apply (datas_used _ _ n); [done|lia]|]. intros Hin.
      by apply (datas_metas s ind n (Z.of_nat m) (blk s ind (Z.of_nat m))); [|lia|..].
    + rewrite lookup_app_r, Nat.sub_diag in Hm by done. injection Hm as <-. rewrite Hlen, (gw_last _ _ _ _ _ _ _ _ G).
      split; [done|]. split; [by vm_compute|]. rewrite (gw_zero _ _ _ _ _ _ _ _ G). done.
  - constructor; [apply E| |apply E|apply (ev_room _ _ _ _ _ E)|apply (evolve_meta _ _ _ _ _ E)].
    intros j Hj Ht. apply (ev_view _ _ _ _ _ E). split; [done|]. intros Hin. apply Ht, elem_of_app. by left.
Qed.

(** The blocks the directory has got were free. *)
Lemma grown_tree s s' ip ind ind' n idx p b :
  growable s ip ind n -> n < MAX_BLOCKS -> grown s s' ip ind ind' n idx p -> b ∈ tree s' ind' (n + 1) ->
  b ∈ tree s ind n \/ allocated s b = false.
Proof.
  intros B Hn G. pose proof (fo_range _ _ _ (gb_file _ _ _ _ B)) as Hr. pose proof (gw_tree _ _ _ _ _ _ _ _ G) as K.
  unfold tree. rewrite metas_step, datas_step by lia. rewrite (keeps_metas _ _ _ _ _ K), (keeps_datas _ _ _ _ _ K) by lia.
  rewrite (gw_last _ _ _ _ _ _ _ _ G). rewrite !elem_of_app, list_elem_of_singleton.
  intros [[H|H]|[H|H]]; [by left; left|right|by left; right|right].
  - by apply (gw_fresh_metas _ _ _ _ _ _ _ _ G).
  - rewrite H. apply (gw_fresh _ _ _ _ _ _ _ _ G).
Qed.

Lemma grown_frame s s1 s2 ip ind ind' n idx p :
  growable s ip ind n -> n < MAX_BLOCKS -> grown s s1 ip ind ind' n idx p ->
  dir_frame ip ind n 3 s s1 -> dir_frame ip ind' (n + 1) 0 s1 s2 -> dir_frame ip ind n 3 s s2.
Proof.
  intros B Hn G F1 F2. constructor.
  - intros j Hj. by apply (df_used _ _ _ _ _ _ F2), (df_used _ _ _ _ _ _ F1).
  - intros j Hj Ht. rewrite (df_view _ _ _ _ _ _ F2), (df_view _ _ _ _ _ _ F1); try done.
    + by apply (df_used _ _ _ _ _ _ F1).
    + intros Hin. apply (grown_tree _ _ _ _ _ _ _ _ _ B Hn G) in Hin as [?|?]; [done|congruence].
  - intros ip2 v Hne Hc. by apply (df_cells _ _ _ _ _ _ F2), (df_cells _ _ _ _ _ _ F1).
  - intros k Hk. apply (df_room _ _ _ _ _ _ F2). rewrite Z.add_0_r. by apply (df_room _ _ _ _ _ _ F1).
  - etransitivity; [apply (df_meta _ _ _ _ _ _ F1)|apply (df_meta _ _ _ _ _ _ F2)].
Qed.

(** A block for the entry, and the entry in it. *)
Lemma dir_append s ip ind n dss old name inode mode :
  dir_ok s ip ind n dss -> room s 3 -> n < 1036 -> n - 11 <= size_ (st_cache (fs_store s)) ->
  name_ok name -> 0 <= inode < 2 ^ 32 ->
  exists p idx s1 s2 ind', alloc_block_inode old ip s = Ret (Some (p, idx)) s1
    /\ dentries p s1 = Ret ([], 0) s1
    /\ dentry_put p idx 0 name inode mode s1 = Ret FS_SUCCESS s2
    /\ dir_ok s2 ip ind' (n + 1) (dss ++ [[entry name inode mode]]) /\ attrs ind' = attrs ind
    /\ dir_frame ip ind n 3 s s2
    /\ (forall b, b ∈ tree s2 ind' (n + 1) -> b ∈ tree s ind n \/ allocated s b = false).
Proof.
  intros D Hr Hn Hc Hname Hi. pose proof (do_grow _ _ _ _ _ D) as B. assert (Hmax : n < MAX_BLOCKS) by (unfold MAX_BLOCKS; lia).
  destruct (grow_ok s ip ind n old B Hr Hmax) as (p & idx & s1 & ind' & H1 & G).
  destruct (dir_grown _ _ _ _ _ _ _ _ _ D G Hn Hc) as [D1 F1]. pose proof (do_len _ _ _ _ _ D) as Hlen.
  assert (Hl : (dss ++ [[]]) !! length dss = Some []) by (rewrite lookup_app_r, Nat.sub_diag; done).
  pose proof (gw_last _ _ _ _ _ _ _ _ G) as Hidx. rewrite <- Hlen in Hidx.
  pose proof (gw_recent _ _ _ _ _ _ _ _ G) as Hrec. rewrite <- Hidx in Hrec.
  destruct (dentry_put_ok s1 ip ind' (n + 1) _ _ [] 3 p name inode mode D1 Hl Hrec Hname Hi) as (s2 & H2 & D2 & F2 & Ht2).
  { change (dir_size []) with 0. destruct Hname as [_ Hname]. unfold EXT2_NAME_LEN, sizeof_ext2_dir_entry_2, BLOCK_SIZE in *. lia. }
  rewrite Hidx in H2. exists p, idx, s1, s2, ind'. split; [done|]. split; [|split; [done|split; [|split; [|split]]]].
  - apply (dentries_recent s1 3 _ p [] Hrec). apply (do_blocks _ _ _ _ _ D1 _ _ Hl).
  - rewrite insert_app_r_alt, Nat.sub_diag in D2 by done. exact D2.
  - destruct (gw_inode _ _ _ _ _ _ _ _ G) as [bl ->]. done.
  - by apply (grown_frame s s1 s2 ip ind ind' n idx p).
  - intros b. rewrite Ht2. by apply (grown_tree s s1 ip ind ind' n idx p).
Qed.

Lemma last_split {A} (l : list A) m x : l !! m = Some x -> S m = length l -> l = take m l ++ [x].
Proof. intros Hx Hm. rewrite <- (take_S_r _ _ _ Hx). by rewrite Hm, take_ge. Qed.

(** [dentry_create] appends the entry. *)
Lemma dentry_create_ok s ip ind n dss last name inode mode :
  dir_ok s ip ind n dss -> last_ok s ind n last -> room s 3 -> n < 1036 -> n - 11 <= size_ (st_cache (fs_store s)) ->
  name_ok name -> 0 <= inode < 2 ^ 32 ->
  exists s' ind' n' dss', dentry_create last ip name inode mode s = Ret FS_SUCCESS s'
    /\ dir_ok s' ip ind' n' dss' /\ concat dss' = concat dss ++ [entry name inode mode]
    /\ n <= n' <= n + 1 /\ attrs ind' = attrs ind /\ dir_frame ip ind n 3 s s'
    /\ (forall b, b ∈ tree s' ind' n' -> b ∈ tree s ind n \/ allocated s b = false).
Proof.
  intros D L Hr Hn Hc Hname Hi. pose proof (do_len _ _ _ _ _ D) as Hlen. unfold dentry_create, last_ok in *.
  destruct (Z.eqb_spec n 0) as [E|E].
  - subst last. destruct (dir_append s ip ind n dss None name inode mode D Hr Hn Hc Hname Hi)
      as (p & idx & s1 & s2 & ind' & H1 & H2 & H3 & D2 & Ha & F & Hnew).
    exists s2, ind', (n + 1), (dss ++ [[entry name inode mode]]). split.
    + mstep H1. mstep H2. rewrite (proj2 (Z.ltb_ge _ _)).
      2:{ destruct Hname as [_ Hname]. unfold EXT2_NAME_LEN, sizeof_ext2_dir_entry_2, BLOCK_SIZE in *. lia. }
      rewrite (bind_ret _ _ _ (Some (p, idx, 0)) s1) by done. exact H3.
    + split; [done|]. split; [by rewrite concat_app|]. split; [lia|]. done.
  - destruct L as (p & -> & Hrec). rewrite (bind_ret _ _ _ (Some (p, blk s ind (n - 1))) s) by done.
    destruct (lookup_lt_is_Some_2 dss (Z.to_nat (n - 1))) as [ds Hds]; [lia|].
    assert (HZ : Z.of_nat (Z.to_nat (n - 1)) = n - 1) by lia.
    pose proof (do_blocks _ _ _ _ _ D _ _ Hds) as Hd. rewrite HZ in Hd.
    mstep (dentries_recent s 1 _ p ds Hrec Hd).
    destruct (Z.ltb_spec BLOCK_SIZE (dir_size ds + sizeof_ext2_dir_entry_2 + Z.of_nat (length name))) as [Hlt|Hge].
    + destruct (dir_append s ip ind n dss (Some p) name inode mode D Hr Hn Hc Hname Hi)
        as (p' & idx & s1 & s2 & ind' & H1 & H2 & H3 & D2 & Ha & F & Hnew).
      exists s2, ind', (n + 1), (dss ++ [[entry name inode mode]]). split.
      * rewrite (bind_ret _ _ _ (Some (p', idx, 0)) s1); [exact H3|].
        rewrite (or_error_some _ _ _ _ _ H1). by mstep H2.
      * split; [done|]. split; [by rewrite concat_app|]. split; [lia|]. done.
    + rewrite <- HZ in Hrec.
      destruct (dentry_put_ok s ip ind n dss _ ds 1 p name inode mode D Hds Hrec Hname Hi Hge) as (s2 & H2 & D2 & F & Ht2).
      exists s2, ind, n, (<[Z.to_nat (n - 1) := ds ++ [entry name inode mode]]> dss). split.
      * rewrite (bind_ret _ _ _ (Some (p, blk s ind (n - 1), dir_size ds)) s) by done. rewrite HZ in H2. exact H2.
      * split; [done|]. split; [|split; [lia|split; [done|split; [|intros b; rewrite Ht2; auto]]]].
        -- rewrite (last_split dss _ _ Hds) at 1 2 by lia.
           rewrite insert_app_r_alt by (rewrite length_take; lia).
           rewrite length_take, Nat.min_l, Nat.sub_diag by lia. cbn [list_insert insert].
           rewrite !concat_app. cbn [concat]. by rewrite !app_nil_r, <- app_assoc.
        -- destruct F as [F1 F2 F3 F4 F5]. constructor; try done. intros k Hk. apply F4, (room_le _ _ _ Hk). lia.
Qed.

(** ** Clearing an entry *)

(** The first entry with the name is deleted. *)
Fixpoint clear_first (name : list byte) (ds : list dentry) : option (list dentry * Z) :=
  match ds with
  | [] => None
  | d :: ds' =>
      if d_matches name d then Some (deleted d :: ds', d_inode d)
      else prod_map (cons d) id <$> clear_first name ds'
  end.

Lemma clear_first_split name ds :
  match clear_first name ds with
  | Some (ds', i) => exists ds1 d ds2, ds = ds1 ++ d :: ds2 /\ ds' = ds1 ++ deleted d :: ds2 /\ i = d_inode d
      /\ d_matches name d = true
  | None => Forall (fun d => d_matches name d = false) ds
  end.
Proof.
  induction ds as [|d ds IH]; [by constructor|]. cbn [clear_first]. destruct (d_matches name d) eqn:E.
  - by exists [], d, ds.
  - destruct (clear_first name ds) as [[ds' i]|]; cbn [fmap option_fmap option_map prod_map id fst snd].
    + destruct IH as (ds1 & d0 & ds2 & -> & -> & -> & H). by exists (d :: ds1), d0, ds2.
    + by constructor.
Qed.

Lemma clear_first_app name ds es :
  clear_first name (ds ++ es) =
    match clear_first name ds with
    | Some (ds', i) => Some (ds' ++ es, i)
    | None => prod_map (app ds) id <$> clear_first name es
    end.
Proof.
  induction ds as [|d ds IH]; cbn [clear_first app].
  - by destruct (clear_first name es) as [[? ?]|].
  - destruct (d_matches name d); [done|]. rewrite IH. destruct (clear_first name ds) as [[? ?]|]; [done|].
    by destruct (clear_first name es) as [[? ?]|].
Qed.

Lemma deleted_fits d : d_fits d -> d_fits (deleted d).
Proof. intros [(H1 & H2 & H3 & H4) H5]. unfold d_fits, d_wf, d_rec_len in *. cbn. split; [|lia]. split; [done|]. split; [lia|done]. Qed.

Lemma clear_first_fits name ds ds' i : Forall d_fits ds -> clear_first name ds = Some (ds', i) -> Forall d_fits ds' /\ dir_size ds' = dir_size ds.
Proof.
  intros Hf H. pose proof (clear_first_split name ds) as Hs. rewrite H in Hs. destruct Hs as (ds1 & d & ds2 & -> & -> & _).
  apply Forall_app in Hf as [H1 H2]. apply Forall_cons in H2 as [H2 H3]. split.
  - apply Forall_app. split; [done|]. constructor; [by apply deleted_fits|done].
  - by rewrite !dir_size_app, !dir_size_cons.
Qed.

(** The loop over the entries of a block. *)
Lemma clear_dentry_ok s k b p name index data : forall ds pre,
  recent s k b p -> fview s b = data -> data = dir_image (pre ++ ds) -> Forall d_fits ds ->
  map (dentry_at data) (dir_offsets (dir_size pre) ds) = ds ->
  match clear_first name ds with
  | None => clear_dentry name index p (dir_offsets (dir_size pre) ds) s = Ret (false, None) s
  | Some (ds', i) => forall bl s', st_mem (fs_store s) !! p = Some bl ->
      on_store (block_update p (with_data (dir_image (pre ++ ds')) bl)) s = Ret tt s' ->
      clear_dentry name index p (dir_offsets (dir_size pre) ds) s = Ret (true, Some (index, i)) s'
  end.
Proof.
  induction ds as [|d ds IH]; intros pre Hr Hv Hd Hf Hmap; [done|].
  cbn [dir_offsets map] in Hmap. injection Hmap as Hat Hmap. apply Forall_cons in Hf as [Hfd Hf].
  destruct (deref_recent _ _ _ _ Hr) as (bl0 & Hde & Hdata & Hbl0). rewrite Hv in Hdata.
  assert (Hmatch : dentry_match name (dir_size pre) (data_ bl0) = d_matches name d).
  { rewrite Hdata, dentry_match_at by (rewrite Hat; apply Hfd). by rewrite Hat. }
  cbn [clear_first dir_offsets clear_dentry]. destruct (d_matches name d) eqn:E.
  - intros bl s' Hbl Hu. rewrite Hbl in Hbl0. injection Hbl0 as <-. mstep Hde. rewrite Hmatch, Hdata.
    rewrite Hd at 1. rewrite delete_image. mstep Hu. do 3 f_equal. by rewrite <- Hat.
  - specialize (IH (pre ++ [d]) Hr Hv). rewrite dir_size_snoc, <- app_assoc in IH. specialize (IH Hd Hf Hmap).
    destruct (clear_first name ds) as [[ds' i]|]; cbn [fmap option_fmap option_map prod_map id fst snd].
    + intros bl s' Hbl Hu. mstep Hde. rewrite Hmatch. apply (IH bl s' Hbl). by rewrite <- app_assoc.
    + mstep Hde. by rewrite Hmatch.
Qed.

Lemma same_tree s s' ip ind n : growable s ip ind n -> same_blocks s s' -> tree s' ind n = tree s ind n.
Proof.
  intros B [Hi (st & -> & Hs & Hv)]. destruct (growable_store s st ip ind n B Hi Hs) as [_ K]; [auto|].
  unfold tree. by rewrite (keeps_metas _ _ _ _ _ K), (keeps_datas _ _ _ _ _ K) by apply (fo_range _ _ _ (gb_file _ _ _ _ B)).
Qed.

Lemma same_frame ip ind n c s1 s2 s3 :
  growable s1 ip ind n -> same_blocks s1 s2 -> dir_frame ip ind n c s2 s3 -> dir_frame ip ind n c s1 s3.
Proof.
  intros B Hsame [F1 F2 F3 F4 F5]. pose proof (wf_inv _ (gb_wf _ _ _ _ B)) as Hinv.
  pose proof (same_tree _ _ _ _ _ B Hsame) as Ht. destruct Hsame as [Hi (st & -> & Hs & Hv)].
  constructor.
  - intros j Hj. apply F1. by rewrite allocated_with_store.
  - intros j Hj Hn. rewrite F2; [|by rewrite allocated_with_store|by rewrite Ht]. apply Hv. by apply (allocated_valid s1).
  - intros ip2 v Hne Hc. apply F3; [done|]. apply (cell_meta s1); [apply same_meta_store|done].
  - intros k (gi & g & Hg & Hk). apply F4. by exists gi, g.
  - etransitivity; [by apply store_meta|done].
Qed.

(** What the search of [inode_unlink] ends in: the entry is cleared in the
    block, which is to be marked as modified. *)
Definition cleared (s : FS) (ip : iptr) (ind : ext2_inode) (n : Z) (dss : list (list dentry)) (name : list byte)
    (r : option (Z * Z)) (s' : FS) : Prop :=
  match r with
  | None => clear_first name (concat dss) = None /\ same_blocks s s'
  | Some (b, i) => exists s'' dss', touch_block b s' = Ret tt s'' /\ dir_ok s'' ip ind n dss'
      /\ clear_first name (concat dss) = Some (concat dss', i) /\ dir_frame ip ind n 0 s s''
  end.

Lemma concat_split {A} (l : list (list A)) m x y :
  l !! m = Some x -> concat l = concat (take m l) ++ x ++ concat (drop (S m) l)
    /\ concat (<[m := y]> l) = concat (take m l) ++ y ++ concat (drop (S m) l).
Proof.
  intros H. pose proof (lookup_lt_Some _ _ _ H) as Hlt. rewrite insert_take_drop by done.
  rewrite <- (take_drop_middle l m x H) at 1. rewrite !concat_app. done.
Qed.

(** One block. *)
Lemma clear_block s t ip ind n dss name m p ds :
  dir_ok s ip ind n dss -> same_blocks s t -> dss !! m = Some ds -> recent t 1 (blk t ind (Z.of_nat m)) p ->
  clear_first name (concat (take m dss)) = None ->
  let b := blk t ind (Z.of_nat m) in
  exists stop r t', clear_dentry name b p (dir_offsets 0 ds) t = Ret (stop, r) t'
    /\ if (stop : bool) then cleared s ip ind n dss name r t' else t' = t /\ r = None /\ clear_first name ds = None.
Proof.
  intros D Hst Hm Hr Hnone b. pose proof (dir_ok_same _ _ _ _ _ _ D Hst) as Dt.
  pose proof (wf_inv _ (gb_wf _ _ _ _ (do_grow _ _ _ _ _ Dt))) as Hinv.
  pose proof (do_blocks _ _ _ _ _ Dt _ _ Hm) as Hd. fold b in Hd, Hr. destruct (dir_block_parse _ _ _ Hd) as [_ Hmap].
  destruct Hd as (Hf & Hsz & Hview).
  pose proof (clear_dentry_ok t 1 b p name b _ ds [] Hr eq_refl Hview Hf Hmap) as H. change (dir_size []) with 0 in H.
  destruct (clear_first name ds) as [[ds' i]|] eqn:Hc.
  - destruct (clear_first_fits _ _ _ _ Hf Hc) as [Hf' Hsz'].
    destruct (update_touch t 1 b p (dir_image ds') Hinv Hr) as (bl & st1 & st2 & Hbl & _ & Hu & Ht & Hi2 & Hv & _ & Hs).
    { apply length_dir_image. lia. }
    specialize (H bl (with_store st1 t) Hbl Hu). exists true, (Some (b, i)), (with_store st1 t). split; [exact H|].
    destruct (dir_update t st2 ip ind n dss m ds ds' Dt Hm Hf' ltac:(lia) Hi2 Hs Hv) as (D2 & F2 & _).
    exists (with_store st2 t), (<[m := ds']> dss). split; [done|]. split; [done|]. split.
    + destruct (concat_split dss m ds ds' Hm) as [-> ->]. rewrite clear_first_app, Hnone, clear_first_app, Hc. done.
    + by apply (same_frame _ _ _ _ s t); [apply D|..].
  - exists false, None, t. split; [exact H|]. done.
Qed.

Lemma clear_entry_ok s ip ind n dss name :
  dir_ok s ip ind n dss -> exists r s', clear_entry ip name s = Ret r s' /\ cleared s ip ind n dss name r s'.
Proof.
  intros D. pose proof (do_grow _ _ _ _ _ D) as B. pose proof (wf_inv _ (gb_wf _ _ _ _ B)) as Hinv.
  pose proof (do_len _ _ _ _ _ D) as Hlen.
  set (I := fun (m : Z) (acc : option (Z * Z)) (t : FS) =>
    same_blocks s t /\ acc = None /\ clear_first name (concat (take (Z.to_nat m) dss)) = None).
  apply (visit_inode_blocks_ok ip ind n _ I); [| | |done| |apply D|apply D].
  - intros m acc t t' Hm Bt (Hst & Hf) Ht' _. split; [by apply (same_blocks_trans _ t)|done].
  - intros m acc t p Hm Bt (Hst & -> & Hnone) Hr.
    destruct (lookup_lt_is_Some_2 dss (Z.to_nat m)) as [ds Hds]; [lia|].
    assert (HZ : Z.of_nat (Z.to_nat m) = m) by lia.
    pose proof (do_blocks _ _ _ _ _ (dir_ok_same _ _ _ _ _ _ D Hst) _ _ Hds) as Hd. rewrite HZ in Hd.
    destruct (clear_block s t ip ind n dss name (Z.to_nat m) p ds D Hst Hds) as (stop & r & t' & H & Hcase);
      [by rewrite HZ|done|]. rewrite HZ in H.
    exists stop, r, t'. split.
    { mstep (dentries_recent _ _ _ _ _ Hr Hd). mstep H. by destruct r. }
    destruct stop; [done|]. destruct Hcase as (-> & -> & Hc). split; [by constructor|]. split; [done|]. split; [done|].
    replace (Z.to_nat (m + 1)) with (S (Z.to_nat m)) by lia.
    rewrite (take_S_r _ _ _ Hds), concat_app, clear_first_app, Hnone. cbn [concat]. by rewrite app_nil_r, Hc.
  - intros acc t Bt (Hst & -> & Hnone). split; [|done]. by rewrite take_ge in Hnone by lia.
  - split; [by apply same_blocks_refl|done].
Qed.

(** ** Directories as finite maps *)

Definition d_key (d : dentry) : list byte := take (Z.to_nat (d_name_len d)) (d_name d).

Definition d_live (d : dentry) : bool := negb (d_name_len d =? 0).

(** Names and inodes of a directory: deleted entries do not count. *)
Definition dir_add (M : gmap (list byte) Z) (d : dentry) : gmap (list byte) Z :=
  if d_live d then <[d_key d := d_inode d]> M else M.

Definition dir_map (ds : list dentry) : gmap (list byte) Z := fold_left dir_add ds ∅.

Definition dir_names (ds : list dentry) : list (list byte) := map d_key (List.filter d_live ds).

Lemma d_matches_key name d :
  d_fits d -> name <> [] -> d_matches name d = d_live d && bool_decide (d_key d = name).
Proof.
  intros [(_ & Hn & _) Hl] Hne. unfold d_matches, d_live, d_key.
  assert (0 < length name)%nat by (destruct name; [done|cbn; lia]).
  destruct (Z.eqb_spec (d_name_len d) (Z.of_nat (length name))) as [E|E].
  - rewrite (proj2 (Z.eqb_neq _ 0)) by lia. by rewrite E, Nat2Z.id.
  - cbn [andb]. symmetry. apply andb_false_iff. right. apply bool_decide_eq_false. intros Hk. apply E.
    rewrite <- Hk, length_take. lia.
Qed.

Lemma find_in_map name ds : forall M,
  Forall d_fits ds -> name <> [] -> find_in name ds (M !! name) = fold_left dir_add ds M !! name.
Proof.
  induction ds as [|d ds IH]; intros M Hf Hne; [done|]. apply Forall_cons in Hf as [Hd Hf].
  unfold find_in. cbn [fold_left]. rewrite <- (IH (dir_add M d)) by done. unfold find_in. f_equal.
  rewrite (d_matches_key _ _ Hd Hne). unfold dir_add. destruct (d_live d); [|done]. cbn [andb]. case_bool_decide as E.
  - by rewrite <- E, lookup_insert_eq.
  - by rewrite lookup_insert_ne.
Qed.

Lemma dir_map_lookup name ds : Forall d_fits ds -> name <> [] -> find_in name ds None = dir_map ds !! name.
Proof. intros. rewrite <- (lookup_empty (M := gmap (list byte)) name). by apply find_in_map. Qed.

Lemma dir_map_entry ds name inode mode :
  name <> [] -> dir_map (ds ++ [entry name inode mode]) = <[name := inode]> (dir_map ds).
Proof.
  intros Hne. unfold dir_map. rewrite fold_left_app. cbn [fold_left]. unfold dir_add at 1, d_live, d_key.
  cbn [d_name_len d_name d_inode entry]. rewrite (proj2 (Z.eqb_neq _ 0)) by (destruct name; cbn; [done|lia]).
  by rewrite Nat2Z.id, take_ge.
Qed.

Lemma dir_names_app ds es : dir_names (ds ++ es) = dir_names ds ++ dir_names es.
Proof. unfold dir_names. by rewrite List.filter_app, map_app. Qed.

Lemma dir_add_other M d ds name :
  (name ∉ dir_names (d :: ds)) -> (name ∉ dir_names ds) /\ dir_add (delete name M) d = delete name (dir_add M d).
Proof.
  unfold dir_names, dir_add. cbn [List.filter]. destruct (d_live d); cbn [map]; [|done].
  rewrite not_elem_of_cons. intros [Hn Hr]. split; [done|]. by rewrite delete_insert_ne.
Qed.

Lemma dir_map_other ds name : forall M,
  (name ∉ dir_names ds) -> fold_left dir_add ds (delete name M) = delete name (fold_left dir_add ds M).
Proof.
  induction ds as [|d ds IH]; intros M Hn; [done|]. destruct (dir_add_other M d ds name Hn) as [Hr E]. cbn [fold_left].
  by rewrite E, IH.
Qed.

Lemma dir_map_names ds name : (name ∉ dir_names ds) -> dir_map ds !! name = None.
Proof.
  intros Hn. unfold dir_map. rewrite <- (delete_empty (M := gmap (list byte)) name), dir_map_other by done. apply lookup_delete_eq.
Qed.

Lemma dir_names_map ds name : (name ∈ dir_names ds) -> is_Some (dir_map ds !! name).
Proof.
  induction ds as [|d ds IH] using rev_ind; [by intros ?%elem_of_nil|]. unfold dir_map. rewrite dir_names_app, fold_left_app.
  cbn [fold_left]. fold (dir_map ds). rewrite elem_of_app. unfold dir_add, dir_names at 2. cbn [List.filter].
  destruct (d_live d); cbn [map]; [|intros [H|H]; [auto|by apply elem_of_nil in H]].
  rewrite list_elem_of_singleton. destruct (decide (d_key d = name)) as [->|Hne].
  - intros _. rewrite lookup_insert_eq. by eexists.
  - rewrite lookup_insert_ne by done. intros [H|H]; [auto|congruence].
Qed.

(** Clearing a name that occurs once takes it out of the map. *)
Lemma clear_first_map name ds ds' i :
  Forall d_fits ds -> name <> [] -> NoDup (dir_names ds) -> clear_first name ds = Some (ds', i) ->
  dir_map ds !! name = Some i /\ dir_map ds' = delete name (dir_map ds) /\ NoDup (dir_names ds').
Proof.
  intros Hf Hne Hnd H. pose proof (clear_first_split name ds) as Hs. rewrite H in Hs.
  destruct Hs as (ds1 & d & ds2 & -> & -> & -> & Hm). apply Forall_app in Hf as [_ Hf]. apply Forall_cons in Hf as [Hd _].
  rewrite (d_matches_key _ _ Hd Hne) in Hm. apply andb_prop in Hm as [Hl Hk]. apply bool_decide_eq_true in Hk.
  rewrite dir_names_app in Hnd. assert (Hnm : dir_names (d :: ds2) = name :: dir_names ds2).
  { unfold dir_names. cbn [List.filter]. rewrite Hl. cbn [map]. by rewrite Hk. }
  rewrite Hnm in Hnd. apply NoDup_app in Hnd as (Hnd1 & Hap & Hnd2). apply NoDup_cons in Hnd2 as [Hn2 Hnd2].
  assert (Hn1 : name ∉ dir_names ds1). { intros Hin. apply (Hap _ Hin). by left. }
  assert (Hdel : forall M, dir_add M (deleted d) = M) by done.
  unfold dir_map. rewrite !fold_left_app. cbn [fold_left]. rewrite Hdel.
  assert (Ha : dir_add (fold_left dir_add ds1 ∅) d = <[name := d_inode d]> (dir_map ds1)).
  { unfold dir_add at 1. by rewrite Hl, Hk. }
  rewrite Ha. fold (dir_map ds1). pose proof (dir_map_names _ _ Hn1) as Hnone.
  split; [|split].
  - rewrite <- (insert_delete_id (<[name := d_inode d]> (dir_map ds1)) name (d_inode d)) by apply lookup_insert_eq.
    revert Hn2. generalize (delete name (<[name:=d_inode d]> (dir_map ds1))). clear. intros M. revert M.
    induction ds2 as [|e ds2 IH]; intros M Hn; [apply lookup_insert_eq|]. destruct (dir_add_other M e ds2 name Hn) as [Hr _].
    cbn [fold_left]. unfold dir_add at 2. unfold dir_names in Hn. cbn [List.filter] in Hn. destruct (d_live e); [|by apply IH].
    cbn [map] in Hn. apply not_elem_of_cons in Hn as [Hne _]. rewrite insert_insert_ne by done. by apply IH.
  - rewrite <- dir_map_other by done. by rewrite delete_insert_id.
  - rewrite dir_names_app. change (dir_names (deleted d :: ds2)) with (dir_names ds2). apply NoDup_app. split; [done|].
    split; [|done]. intros x Hx Hin. apply (Hap _ Hx). by right.
Qed.

Lemma clear_first_none name ds :
  Forall d_fits ds -> name <> [] -> clear_first name ds = None -> dir_map ds !! name = None.
Proof.
  intros Hf Hne Hcl. pose proof (clear_first_split name ds) as Hsp. rewrite Hcl in Hsp.
  apply dir_map_names. unfold dir_names. intros (d & -> & Hd)%list_elem_of_fmap.
  apply list_elem_of_In, filter_In in Hd as [Hd Hl]. apply list_elem_of_In in Hd. rewrite Forall_forall in Hsp, Hf.
  specialize (Hsp d Hd). rewrite (d_matches_key _ _ (Hf d Hd) Hne), Hl, bool_decide_true in Hsp; done.
Qed.

(** The abstract state of a directory of [n] blocks: a map from names to
    inode numbers. *)
Definition dir_is (s : FS) (ip : iptr) (ind : ext2_inode) (n : Z) (M : gmap (list byte) Z) : Prop :=
  exists dss, dir_ok s ip ind n dss /\ NoDup (dir_names (concat dss)) /\ dir_map (concat dss) = M.

Lemma dir_ok_fits s ip ind n dss : dir_ok s ip ind n dss -> Forall d_fits (concat dss).
Proof.
  intros D. apply Forall_forall. intros d Hd. apply list_elem_of_In, in_concat in Hd as (ds & Hds & Hd).
  apply list_elem_of_In, list_elem_of_lookup_1 in Hds as [m Hm]. destruct (do_blocks _ _ _ _ _ D _ _ Hm) as [Hf _].
  rewrite Forall_forall in Hf. by apply Hf, list_elem_of_In.
Qed.

Lemma dir_is_same s s' ip ind n M : dir_is s ip ind n M -> same_blocks s s' -> dir_is s' ip ind n M.
Proof. intros (dss & D & H) Hs. exists dss. split; [by apply (dir_ok_same s)|done]. Qed.

Lemma dir_names_entry ds name inode mode :
  name <> [] -> NoDup (dir_names ds) -> dir_map ds !! name = None -> NoDup (dir_names (ds ++ [entry name inode mode])).
Proof.
  intros Hne Hnd Hm. rewrite dir_names_app.
  assert (E : dir_names [entry name inode mode] = [name]).
  { unfold dir_names, d_live, d_key. cbn. rewrite (proj2 (Z.eqb_neq _ 0)) by (destruct name; cbn; [done|lia]).
    cbn. by rewrite Nat2Z.id, take_ge. }
  rewrite E. apply NoDup_app. split; [done|]. split; [|apply NoDup_singleton]. intros x Hx ->%list_elem_of_singleton.
  apply dir_names_map in Hx as [? Hx]. congruence.
Qed.

(** ** Properties *)

(** C19. Looking a name up in a directory of up to 1036 blocks (the direct and
    the single indirect ones), whose blocks behind the twelfth fit into the
    block cache, answers what the map of the directory has for it, and nothing
    that any block holds changes; the last block of the directory, which the
    creation of an entry starts from, is handed on. *)
Theorem inode_lookup_in_refines s ip ind n M name :
  dir_is s ip ind n M -> name <> [] ->
  exists s' last, inode_lookup_in ip name s = Ret (M !! name, last) s'
    /\ dir_is s' ip ind n M /\ same_blocks s s' /\ last_ok s' ind n last.
Proof.
  intros (dss & D & Hnd & HM) Hne. destruct (inode_lookup_in_ok s ip ind n dss name D) as (s' & last & H & Hs & D' & Hl).
  exists s', last. rewrite (dir_map_lookup _ _ (dir_ok_fits _ _ _ _ _ D) Hne), HM in H. split; [done|].
  split; [by exists dss|done].
Qed.

(** C17. Creating an entry under a name that a directory does not have, with
    three free blocks: the lookup that precedes it in [inode_create] and
    [inode_link] finds nothing and hands on the last block, and
    [dentry_create] adds the name to the map, in the last block or in a new
    one.  Blocks outside of the directory and other inodes are unchanged. *)
Theorem dentry_create_refines s ip ind n M name inode mode :
  dir_is s ip ind n M -> room s 3 -> n < 1036 -> n - 11 <= size_ (st_cache (fs_store s)) ->
  name_ok name -> name <> [] -> M !! name = None -> 0 <= inode < 2 ^ 32 ->
  exists s1 last s2 ind' n', inode_lookup_in ip name s = Ret (None, last) s1
    /\ dentry_create last ip name inode mode s1 = Ret FS_SUCCESS s2
    /\ dir_is s2 ip ind' n' (<[name := inode]> M)
    /\ attrs ind' = attrs ind /\ n <= n' <= n + 1 /\ dir_frame ip ind n 3 s s2.
Proof.
  intros (dss & D & Hnd & HM) Hr Hn Hc Hok Hne Hnone Hi.
  destruct (inode_lookup_in_ok s ip ind n dss name D) as (s1 & last & H1 & Hs & D1 & Hl).
  rewrite (dir_map_lookup _ _ (dir_ok_fits _ _ _ _ _ D) Hne), HM, Hnone in H1.
  destruct (dentry_create_ok s1 ip ind n dss last name inode mode D1 Hl) as (s2 & ind' & n' & dss' & H2 & D2 & E & Hn' & Ha & F & _);
    [|done| |done|done|].
  { destruct Hs as [_ (st & -> & _)]. destruct Hr as (gi & g & Hg & Hk). by exists gi, g. }
  { destruct Hs as [_ (st & -> & E & _)]. cbn. by rewrite E. }
  exists s1, last, s2, ind', n'. split; [done|]. split; [done|]. split.
  - exists dss'. split; [done|]. rewrite E. rewrite dir_map_entry, HM by done. split; [|done].
    apply dir_names_entry; [done|done|by rewrite HM].
  - split; [done|]. split; [done|]. by apply (same_frame _ _ _ _ s s1); [apply D|..].
Qed.

(** C18. Clearing an entry, as [inode_unlink] does before it marks the block
    as modified: a name of the directory is taken out of the map and its
    inode is answered; a name that the directory does not have is reported
    and nothing changes. *)
Theorem clear_entry_refines s ip ind n M name :
  dir_is s ip ind n M -> name <> [] ->
  match M !! name with
  | Some i => exists b s1 s2, clear_entry ip name s = Ret (Some (b, i)) s1 /\ touch_block b s1 = Ret tt s2
      /\ dir_is s2 ip ind n (delete name M) /\ dir_frame ip ind n 0 s s2
  | None => exists s1, clear_entry ip name s = Ret None s1 /\ dir_is s1 ip ind n M /\ same_blocks s s1
  end.
Proof.
  intros (dss & D & Hnd & HM) Hne. pose proof (dir_ok_fits _ _ _ _ _ D) as Hf.
  destruct (clear_entry_ok s ip ind n dss name D) as ([[b i]|] & s1 & H & Hc).
  - destruct Hc as (s2 & dss' & Ht & D2 & Hcl & F). destruct (clear_first_map _ _ _ _ Hf Hne Hnd Hcl) as (Hl & Hm & Hnd').
    rewrite HM in Hl. rewrite Hl. exists b, s1, s2. split; [done|]. split; [done|]. split; [|done].
    exists dss'. by rewrite Hm, HM.
  - destruct Hc as [Hcl Hs].
    assert (Hnone : M !! name = None) by (rewrite <- HM; by apply clear_first_none).
    rewrite Hnone. exists s1. split; [done|]. split; [|done]. exists dss. split; [by apply (dir_ok_same s)|done].
Qed.

(** ** Instances of the properties *)

(** A directory without blocks, its inode in memory. *)
Definition sample_dir : ext2_inode := set_i_blocks 0 (set_i_mode S_IFDIR sample_file).

Lemma sample_dir_is : dir_is (sample_fs {[ 5 := sample_dir ]}) (InCopy 5) sample_dir 0 ∅.
Proof.
  exists []. split; [|split; [apply NoDup_nil_2|done]]. constructor; [|done|done|by vm_compute|done].
  constructor; [apply sample_fs_wf|apply sample_fs_zero|by vm_compute|by split; vm_compute|by vm_compute|by vm_compute|].
  constructor; [by vm_compute|apply NoDup_nil_2|]. intros b Hb. by apply elem_of_nil in Hb.
Qed.

(** The name "a" is given to inode 7. *)
Lemma dentry_create_refines_witness :
  exists s2 last s1 ind' n', dentry_create last (InCopy 5) [Byte.x61] 7 S_IFREG s1 = Ret FS_SUCCESS s2
    /\ dir_is s2 (InCopy 5) ind' n' {[ [Byte.x61] := 7 ]}.
Proof.
  destruct (dentry_create_refines _ _ _ _ _ [Byte.x61] 7 S_IFREG sample_dir_is
              (room_le _ 3 1000 (sample_fs_room _) ltac:(lia)) ltac:(by vm_compute) ltac:(by vm_compute)
              ltac:(split; [repeat constructor; done|by vm_compute]) ltac:(done) ltac:(done) ltac:(by vm_compute))
    as (s1 & last & s2 & ind' & n' & _ & H & Hd & _).
  exists s2, last, s1, ind', n'. split; [exact H|exact Hd].
Defined.

(** The directory after that: it has a block, with one name. *)
Lemma sample_dir_named : exists s1 ind' n', 0 < n' /\ dir_is s1 (InCopy 5) ind' n' {[ [Byte.x61] := 7 ]}.
Proof.
  destruct sample_dir_is as (dss & D & Hnd & Hm).
  destruct (inode_lookup_in_ok _ _ _ _ _ [Byte.x61] D) as (s0 & last & _ & Hs & D0 & Hl).
  destruct (dentry_create_ok s0 (InCopy 5) sample_dir 0 dss last [Byte.x61] 7 S_IFREG D0 Hl)
    as (s1 & ind' & n' & dss' & _ & D1 & E & _).
  { destruct Hs as [_ (st & -> & _)]. destruct (room_le _ 3 1000 (sample_fs_room {[ 5 := sample_dir ]}) ltac:(lia)) as (gi & g & Hg & Hk).
    by exists gi, g. }
  { by vm_compute. }
  { pose proof (gb_size _ _ _ _ (do_grow _ _ _ _ _ D0)). lia. }
  { split; [repeat constructor; done|by vm_compute]. }
  { by vm_compute. }
  exists s1, ind', n'. split.
  - pose proof (do_len _ _ _ _ _ D1) as Hn. destruct dss' as [|ds dss']; [|cbn [length] in Hn; lia].
    apply (f_equal length) in E. rewrite length_app in E. cbn in E. lia.
  - exists dss'. split; [exact D1|]. rewrite E. split.
    + apply dir_names_entry; [done|exact Hnd|by rewrite Hm].
    + rewrite dir_map_entry, Hm by done. done.
Qed.

(** In it the name is found, and another one is not. *)
Lemma inode_lookup_in_refines_witness :
  exists s1 ind' n' s2 last s3 last', 0 < n' /\ dir_is s1 (InCopy 5) ind' n' {[ [Byte.x61] := 7 ]}
    /\ inode_lookup_in (InCopy 5) [Byte.x61] s1 = Ret (Some 7, last) s2
    /\ inode_lookup_in (InCopy 5) [Byte.x62] s1 = Ret (None, last') s3.
Proof.
  destruct sample_dir_named as (s1 & ind' & n' & Hn & HD).
  destruct (inode_lookup_in_refines s1 (InCopy 5) ind' n' _ [Byte.x61] HD ltac:(done)) as (s2 & last & H1 & _).
  destruct (inode_lookup_in_refines s1 (InCopy 5) ind' n' _ [Byte.x62] HD ltac:(done)) as (s3 & last' & H2 & _).
  exists s1, ind', n', s2, last, s3, last'. split; [exact Hn|]. split; [exact HD|]. split; [exact H1|exact H2].
Defined.

(** The name is given and taken away again. *)
Lemma clear_entry_refines_witness :
  exists s1 b s2 s3 ind' n', clear_entry (InCopy 5) [Byte.x61] s1 = Ret (Some (b, 7)) s2
    /\ touch_block b s2 = Ret tt s3 /\ dir_is s3 (InCopy 5) ind' n' ∅.
Proof.
  destruct sample_dir_named as (s1 & ind' & n' & _ & HD).
  destruct (clear_entry_refines s1 (InCopy 5) ind' n' {[ [Byte.x61] := 7 ]} [Byte.x61] HD ltac:(done)) as (b & s2 & s3 & H1 & H2 & H3 & _).
  exists s1, b, s2, s3, ind', n'. split; [exact H1|]. split; [exact H2|]. by rewrite delete_singleton_eq in H3.
Defined.
