(* ===== verification/PathLookup.v ===== *)
(** * Paths: FileSystem::inode_lookup(path) of src/filesystem.cpp

    The abstract state is a tree of directories.  A lookup walks it name by
    name, through the cache of names where it knows them and through the
    blocks of the directories where it does not, and the cache stays in
    agreement with the tree. *)

From S2P Require Import Prelude Layout Disk Bitmap PathName Block BlockGroup BlockCache DentryCache DentryTree.
From S2P Require Import FileSystem FileStatus OpenFiles FsBlocks FileData FsPointers FsAlloc FileBlocks FileGrow FileWrite FsMount DirVisit.
From S2P Require Import DirBlock Directory FsInodes.

(** ** Inodes by number and the caches *)

Lemma inode_at_same s s' i v : inode_at s i v -> same_blocks s s' -> inode_at s' i v.
Proof.
  intros [H1 H2 H3 H4] [_ (st & -> & _)]. by constructor.
Qed.

(** ** A change of the cache of names only *)

Definition with_dentry (dc : DentryCache) (s : FS) : FS :=
  mk_fs (fs_store s) (fs_super s) (fs_groups s) dc (fs_copies s).

Lemma on_dentry_eq {A} (m : M DentryCache A) s a dc : m (fs_dentry s) = Ret a dc -> on_dentry m s = Ret a (with_dentry dc s).
Proof. intros H. unfold on_dentry, zoom. by rewrite H. Qed.

Lemma with_dentry_id s : with_dentry (fs_dentry s) s = s.
Proof. by destruct s. Qed.

Section Dentry.
Context (dc : DentryCache) (s : FS).

Lemma fs_inv_dentry : fs_inv s -> fs_inv (with_dentry dc s).
Proof. intros [H1 H2 H3 H4 H5 H6]. by constructor. Qed.

Lemma fs_wf_dentry : fs_wf s -> fs_wf (with_dentry dc s).
Proof. intros [W1 W2 W3 W4 W5 [D1 D2 D3]]. constructor; [by apply fs_inv_dentry|done..|by constructor]. Qed.

Lemma growable_dentry ip ind n : growable s ip ind n -> growable (with_dentry dc s) ip ind n.
Proof.
  intros [G1 G2 G3 G4 G5 G6 F]. constructor; [by apply fs_wf_dentry|done..|]. by apply (file_ok_ext s).
Qed.

Lemma blk_dentry ind m : blk (with_dentry dc s) ind m = blk s ind m.
Proof.
  unfold blk. generalize (i_block_at (slot m).1 ind). induction (slot m).2 as [|o l IH]; intros b; [done|].
  cbn [chase]. by rewrite IH.
Qed.

Lemma dir_is_dentry ip ind n M : dir_is s ip ind n M -> dir_is (with_dentry dc s) ip ind n M.
Proof.
  intros (dss & [D1 D2 D3 D4 D5] & H). exists dss. split; [|done]. constructor; try done; [by apply growable_dentry|].
  intros m ds Hm. rewrite blk_dentry. by apply D5.
Qed.

Lemma inode_at_dentry i v : inode_at s i v -> inode_at (with_dentry dc s) i v.
Proof. intros [H1 H2 H3 H4]. by constructor. Qed.

Lemma same_blocks_dentry s' :
  same_blocks (with_dentry dc s) s' -> exists s1, same_blocks s s1 /\ s' = with_dentry dc s1.
Proof.
  intros [[H1 H2 H3 H4 H5 H6] (st & -> & Hs & Hv)]. exists (with_store st s). split; [|done]. split; [|by exists st].
  by constructor.
Qed.
End Dentry.

(** What a lookup leaves: only the caches have changed. *)
Definition looked (s s' : FS) : Prop := exists s1, same_blocks s s1 /\ s' = with_dentry (fs_dentry s') s1.

Lemma looked_refl s : fs_inv s -> looked s s.
Proof. intros H. exists s. split; [by apply same_blocks_refl|]. by rewrite with_dentry_id. Qed.

Lemma looked_same s1 s2 s3 : fs_inv s1 -> looked s1 s2 -> same_blocks s2 s3 -> looked s1 s3.
Proof.
  intros Hi (t & Ht & E) H. rewrite E in H. destruct (same_blocks_dentry _ _ _ H) as (t' & Ht' & ->).
  exists t'. split; [by apply (same_blocks_trans _ t)|done].
Qed.

Lemma looked_dentry s1 s2 dc : looked s1 s2 -> looked s1 (with_dentry dc s2).
Proof. intros (t & Ht & E). exists t. split; [done|]. rewrite E. done. Qed.

(** ** Trees of directories *)

(** The directories: their entries by inode number. *)
Abbreviation dirs := (gmap Z (gmap (list byte) Z)).

Definition edge (T : dirs) : edges := fun d name => T !! d ≫= (fun M => M !! name).

Definition in_tree (T : dirs) (i : Z) : Prop := i = ROOT_INODE \/ exists d name, edge T d name = Some i.

(** Inodes whose [i_block] leads to blocks. *)
Definition is_file (v : ext2_inode) : bool := S_ISDIR (i_mode v) || S_ISREG (i_mode v).

(** The blocks of an inode, indirect ones included. *)
Definition blocks (s : FS) (v : ext2_inode) : list Z := tree s v (i_blocks v / 8).

Lemma growable_blocks s ip v n : growable s ip v n -> blocks s v = tree s v n.
Proof.
  intros B. unfold blocks. rewrite (gb_blocks _ _ _ _ B), Z.mul_comm, Z.div_mul by lia. done.
Qed.

Definition node_ok (s : FS) (T : dirs) (i : Z) : Prop :=
  exists v, inode_at s i v /\ (is_file v = true -> exists n, growable s (ip_of i) v n)
    /\ match T !! i with
       | Some M => S_ISDIR (i_mode v) = true /\ exists n, dir_is s (ip_of i) v n M
       | None => S_ISDIR (i_mode v) = false
       end.

(** The tree [T] is what the inodes and blocks of [s] say, and no block
    belongs to two inodes of it. *)
Record tree_ok (s : FS) (T : dirs) : Prop := {
  to_root : is_Some (T !! ROOT_INODE);
  to_in : forall d, is_Some (T !! d) -> in_tree T d;
  to_node : forall i, in_tree T i -> node_ok s T i;
  to_apart : forall i j v w b, in_tree T i -> in_tree T j -> i <> j -> inode_at s i v -> inode_at s j w ->
    is_file v = true -> is_file w = true -> b ∈ blocks s v -> b ∈ blocks s w -> False
}.

Lemma to_dir s T d M :
  tree_ok s T -> T !! d = Some M ->
  exists v n, inode_at s d v /\ S_ISDIR (i_mode v) = true /\ dir_is s (ip_of d) v n M.
Proof.
  intros Ht HT. destruct (to_node _ _ Ht d) as (v & Hv & _ & Hd); [by apply (to_in _ _ Ht); exists M|].
  rewrite HT in Hd. destruct Hd as [Hd [n Hn]]. by exists v, n.
Qed.

Lemma to_entry s T d name j : tree_ok s T -> edge T d name = Some j -> node_ok s T j.
Proof. intros Ht HE. apply (to_node _ _ Ht). right. by exists d, name. Qed.

Lemma dir_is_grow s ip v n M : dir_is s ip v n M -> growable s ip v n.
Proof. intros (dss & D & _). apply D. Qed.

Lemma tree_wf s T : tree_ok s T -> fs_wf s /\ free_zero s.
Proof.
  intros Ht. destruct (to_root _ _ Ht) as [M HM]. destruct (to_dir _ _ _ _ Ht HM) as (v & n & _ & _ & Hd).
  apply dir_is_grow in Hd. split; apply Hd.
Qed.

Lemma tree_inv s T : tree_ok s T -> fs_inv s.
Proof. intros Ht. apply (wf_inv _ (proj1 (tree_wf _ _ Ht))). Qed.

(** A change that keeps all inodes and their blocks. *)
Lemma tree_ok_keep s s' T :
  tree_ok s T ->
  (forall i v, in_tree T i -> inode_at s i v -> inode_at s' i v) ->
  (forall i v n, in_tree T i -> growable s (ip_of i) v n -> growable s' (ip_of i) v n /\ tree s' v n = tree s v n) ->
  (forall i v n M, in_tree T i -> T !! i = Some M -> dir_is s (ip_of i) v n M -> dir_is s' (ip_of i) v n M) ->
  tree_ok s' T.
Proof.
  intros Ht Hat Hgr Hdir. constructor; [apply Ht|apply Ht| |].
  - intros i Hi. destruct (to_node _ _ Ht i Hi) as (v & Hv & Hf & Hd). exists v. split; [by apply Hat|]. split.
    + intros Hfile. destruct (Hf Hfile) as [n B]. exists n. by apply Hgr.
    + destruct (T !! i) as [M|] eqn:HT; [|done]. destruct Hd as [Hd [n Hn]]. split; [done|]. exists n. by apply Hdir.
  - assert (Hb : forall i v, in_tree T i -> inode_at s' i v -> is_file v = true -> inode_at s i v /\ blocks s' v = blocks s v).
    { intros i v Hi Hv Hf. destruct (to_node _ _ Ht i Hi) as (v0 & Hv0 & Hf0 & _).
      assert (v0 = v) as -> by (apply (inode_at_inj s' i); [by apply Hat|done]). split; [done|].
      destruct (Hf0 Hf) as [n B]. destruct (Hgr i v n Hi B) as [B' Htr].
      by rewrite (growable_blocks _ _ _ _ B), (growable_blocks _ _ _ _ B'). }
    intros i j v w b Hi Hj Hne Hv Hw Hfv Hfw. destruct (Hb i v Hi Hv Hfv) as [Hv0 ->]. destruct (Hb j w Hj Hw Hfw) as [Hw0 ->].
    by apply (to_apart _ _ Ht i j).
Qed.

Lemma tree_ok_same s s' T : tree_ok s T -> same_blocks s s' -> tree_ok s' T.
Proof.
  intros Ht Hs. apply (tree_ok_keep s); [done| | |].
  - intros i v _ Hv. by apply (inode_at_same s).
  - intros i v n _ B. split; [by apply (same_blocks_grow s)|by apply (same_tree s s' (ip_of i))].
  - intros i v n M _ _ Hd. by apply (dir_is_same s).
Qed.

Lemma tree_dentry s dc v n : tree (with_dentry dc s) v n = tree s v n.
Proof. unfold tree. f_equal. unfold datas. apply map_ext. intros m. apply blk_dentry. Qed.

Lemma tree_ok_dentry s dc T : tree_ok s T -> tree_ok (with_dentry dc s) T.
Proof.
  intros Ht. apply (tree_ok_keep s); [done| | |].
  - intros i v _ Hv. by apply inode_at_dentry.
  - intros i v n _ B. split; [by apply growable_dentry|apply tree_dentry].
  - intros i v n M _ _ Hd. by apply dir_is_dentry.
Qed.

(** ** The search in one directory *)

Definition search_visitor (name : list byte) : visitor (Z * iptr) := fun _ block acc =>
  b ← on_store (block_deref block);
  '(offs, _) ← dentries block;
  search_dentries name (data_ b) offs acc.

Lemma search_dentries_ok s name data offs acc :
  Forall d_fits (map (dentry_at data) offs) ->
  (forall ds i, clear_first name (map (dentry_at data) offs) = Some (ds, i) -> get_inode i s = Ret (Some (ip_of i)) s) ->
  search_dentries name data offs acc s
  = Ret (match clear_first name (map (dentry_at data) offs) with Some (_, i) => (true, (i, ip_of i)) | None => (false, acc) end) s.
Proof.
  induction offs as [|off offs IH]; intros Hf Hg; [done|]. cbn [map] in Hf. apply Forall_cons in Hf as [[Hd Hl] Hf].
  cbn [search_dentries map clear_first] in *. rewrite dentry_match_at by done.
  destruct (d_matches name (dentry_at data off)).
  - by mstep (Hg _ _ eq_refl).
  - rewrite IH; [by destruct (clear_first name _) as [[? ?]|]|done|]. intros ds i E. rewrite E in Hg. by apply (Hg (dentry_at data off :: ds)).
Qed.

Lemma search_dir_ok s d ind n M name acc :
  dir_is s (ip_of d) ind n M -> name <> [] -> (forall j, M !! name = Some j -> exists v, inode_at s j v) ->
  exists s', visit_inode_blocks (ip_of d) (search_visitor name) acc s
      = Ret (match M !! name with Some j => (j, ip_of j) | None => acc end) s'
    /\ same_blocks s s'.
Proof.
  intros (dss & D & Hnd & HM) Hne Hj. pose proof (do_grow _ _ _ _ _ D) as B. pose proof (wf_inv _ (gb_wf _ _ _ _ B)) as Hinv.
  pose proof (do_len _ _ _ _ _ D) as Hlen. pose proof (dir_ok_fits _ _ _ _ _ D) as Hfits.
  set (I := fun (m : Z) (a : Z * iptr) (t : FS) =>
    same_blocks s t /\ a = acc /\ clear_first name (concat (take (Z.to_nat m) dss)) = None).
  set (Q := fun (a : Z * iptr) (t : FS) => same_blocks s t
    /\ a = match M !! name with Some j => (j, ip_of j) | None => acc end).
  destruct (visit_inode_blocks_ok (ip_of d) ind n (search_visitor name) I Q) with (acc := acc) (s := s) as (a & s' & H & Hs & ->).
  - intros m a t t' Hm Bt (Hst & Hf) Ht' _. split; [by apply (same_blocks_trans _ t)|done].
  - intros m a t p Hm Bt (Hst & -> & Hnone) Hr.
    destruct (lookup_lt_is_Some_2 dss (Z.to_nat m)) as [ds Hds]; [lia|]. assert (HZ : Z.of_nat (Z.to_nat m) = m) by lia.
    pose proof (do_blocks _ _ _ _ _ (dir_ok_same _ _ _ _ _ _ D Hst) _ _ Hds) as Hd. rewrite HZ in Hd.
    destruct (deref_recent _ _ _ _ Hr) as (bl & Hbl & Hdata & _). destruct (dir_block_parse _ _ _ Hd) as [_ Hmap].
    assert (Hfirst : forall ds' i, clear_first name ds = Some (ds', i) -> M !! name = Some i).
    { intros ds' i Hc. destruct (concat_split dss (Z.to_nat m) ds ds Hds) as [E _].
      assert (Hall : exists l, clear_first name (concat dss) = Some (l, i)).
      { rewrite E, clear_first_app, Hnone, clear_first_app, Hc. by eexists. }
      destruct Hall as [l Hall]. rewrite <- HM. by apply (clear_first_map name (concat dss) l i). }
    destruct Hd as (Hfit & Hsz & Hview).
    pose proof (search_dentries_ok t name (fview t (blk t ind m)) (dir_offsets 0 ds) acc) as Hsearch. rewrite Hmap in Hsearch.
    exists (match clear_first name ds with Some _ => true | None => false end),
      (match clear_first name ds with Some (_, i) => (i, ip_of i) | None => acc end), t. split.
    { unfold search_visitor. mstep Hbl. mstep (dentries_recent t 1 _ p ds Hr ltac:(by split)). rewrite Hdata, Hsearch; [|done|].
      - by destruct (clear_first name ds) as [[? ?]|].
      - intros ds' i Hc. destruct (Hj i (Hfirst _ _ Hc)) as [v Hv]. apply (get_inode_at _ _ v). by apply (inode_at_same s). }
    destruct (clear_first name ds) as [[ds' i]|] eqn:Hc.
    + split; [done|]. cbn. by rewrite (Hfirst ds' i).
    + split; [by constructor|]. split; [done|]. split; [done|]. replace (Z.to_nat (m + 1)) with (S (Z.to_nat m)) by lia.
      rewrite (take_S_r _ _ _ Hds), concat_app, clear_first_app, Hnone. cbn [concat]. by rewrite app_nil_r, Hc.
  - intros a t Bt (Hst & -> & Hnone). split; [done|]. rewrite take_ge in Hnone by lia.
    rewrite <- HM. by rewrite (clear_first_none name (concat dss)).
  - done.
  - split; [by apply same_blocks_refl|]. by split.
  - apply D.
  - apply D.
  - by exists s'.
Qed.

(** ** One name of a path *)

Definition caches (T : dirs) (s : FS) : Prop := exists K, dc_ok (edge T) K (fs_dentry s).

(** The variables of the loop when [k] names have led to inode [d]. *)
Record walking (T : dirs) (s : FS) (st : LookupSt) (k d : Z) : Prop := {
  wk_tree : tree_ok s T;
  wk_cache : caches T s;
  wk_node : node_ok s T d;
  wk_link : stands_for (fs_dentry s) (lk_link st) d;
  wk_linked : 0 < k -> is_Some (lk_link st);
  wk_index : lk_index st = k;
  wk_inode : lk_hit st = false \/ k = 0 -> lk_inode st = ip_of d
}.

(** A name that the cache can take. *)
Definition path_name (name : list byte) : Prop :=
  name <> [] /\ no_nul name /\ Z.of_nat (length name) + 1 <= EXT2_NAME_LEN.

(** The code for a name that [d] does not have. *)
Definition missing (T : dirs) (d : Z) : RetCode :=
  match T !! d with Some _ => FS_NOT_FOUND | None => FS_NDIR_ERR end.

(** [link->inode_] and [get_inode] of it, where the code needs them. *)
Lemma step_inode T s st k d :
  walking T s st k d -> 0 <= k ->
  (if (0 <? lk_index st) && lk_hit st then
     i ← link_inode (lk_link st);
     get_inode i
   else mret (Some (lk_inode st))) s = Ret (Some (ip_of d)) s.
Proof.
  intros W Hk. destruct (wk_node _ _ _ _ _ W) as (v & Hv & _ & _). rewrite (wk_index _ _ _ _ _ W).
  destruct (Z.ltb_spec 0 k) as [H0|H0]; cbn [andb]; [|by rewrite (wk_inode _ _ _ _ _ W) by lia].
  destruct (lk_hit st) eqn:Hh; [|by rewrite (wk_inode _ _ _ _ _ W) by auto].
  destruct (wk_linked _ _ _ _ _ W H0) as [p Hp]. pose proof (wk_link _ _ _ _ _ W) as Hl. rewrite Hp in *. destruct Hl as (n & Hn & Hd).
  assert (H1 : link_inode (Some p) s = Ret d s).
  { unfold link_inode. rewrite (bind_ret _ _ _ p s) by done. mstep (on_dentry_eq _ s _ _ (dn_get_eq _ _ _ Hn)).
    by rewrite with_dentry_id, <- Hd. }
  mstep H1. by apply (get_inode_at _ _ v).
Qed.

(** The name is not in the cache: the directory is searched. *)
Lemma step_miss T path s st k d name :
  walking T s st k d -> 0 <= k -> path_name name ->
  on_dentry (dc_lookup (lk_link st) name) s = Ret None s ->
  match edge T d name with
  | Some j => exists st' s', lookup_step path name st s = Ret (inr st') s' /\ walking T s' st' (k + 1) j /\ looked s s'
      /\ lk_result st' = j /\ lk_inode st' = ip_of j
  | None => is_Some (T !! d) \/ k < path_size path - 1 -> exists s',
      lookup_step path name st s = Ret (inl (missing T d)) s'
      /\ tree_ok s' T /\ caches T s' /\ looked s s'
  end.
Proof.
  intros W Hk (Hne & Hnul & Hlen) Hmiss. pose proof (wk_tree _ _ _ _ _ W) as Ht. destruct (wk_node _ _ _ _ _ W) as (v & Hv & _ & Hdir).
  pose proof (step_inode _ _ _ _ _ W Hk) as Hino. unfold lookup_step, edge, missing. rewrite (wk_index _ _ _ _ _ W) in *.
  destruct (T !! d) as [M|] eqn:HT; cbn [option_bind mbind].
  - rewrite (bind_ret _ _ _ _ _ Hmiss). cbv iota. rewrite (bind_ret _ _ _ _ _ Hino).
    destruct Hdir as [Hisd [n Hd]].
    destruct (search_dir_ok s d v n M name (-1, ip_of d) Hd Hne) as (s2 & H2 & Hs2).
    { intros j Hj. destruct (to_entry _ _ d name j Ht) as (w & Hw & _); [unfold edge; by rewrite HT|]. by exists w. }
    rewrite (bind_ret _ _ _ _ _ (cell_load _ _ _ (ia_cell _ _ _ Hv))). rewrite Hisd, andb_false_r.
    unfold search_visitor in H2. rewrite (bind_ret _ _ _ _ _ H2).
    assert (Hde : fs_dentry s2 = fs_dentry s) by (destruct Hs2 as [_ (? & -> & _)]; done).
    pose proof (tree_ok_same _ _ _ Ht Hs2) as Ht2. destruct (wk_cache _ _ _ _ _ W) as [K HK].
    assert (Hl2 : looked s s2) by (apply (looked_same _ s); [by apply (tree_inv _ T)|by apply looked_refl, (tree_inv _ T)|done]).
    destruct (M !! name) as [j|] eqn:Hj.
    + assert (HE : edge T d name = Some j) by (unfold edge; by rewrite HT).
      pose proof (to_entry _ _ _ _ _ Ht2 HE) as Hnode. pose proof Hnode as (w & Hw & _). pose proof (ia_range _ _ _ Hw) as Hr.
      rewrite (proj2 (Z.eqb_neq j (-1))) by lia. rewrite u32_small by lia. rewrite <- Hde in HK.
      pose proof (wk_link _ _ _ _ _ W) as Hlk. rewrite <- Hde in Hlk.
      destruct (dc_insert_ok _ K _ _ _ _ _ HK Hlk HE Hnul Hlen) as (q & c' & K' & Hi & HK' & Hq & _).
      rewrite (bind_ret _ _ _ _ _ (on_dentry_eq _ s2 _ _ Hi)).
      eexists _, (with_dentry c' s2). split; [reflexivity|]. split; [|split; [by apply looked_dentry|done]].
      pose proof (tree_ok_dentry _ c' _ Ht2) as Ht3.
      constructor; [done|by exists K'|by apply (to_entry _ _ _ _ _ Ht3 HE)|done|done|done|done].
    + intros _. exists s2. split; [done|]. split; [done|]. split; [|done]. exists K. by rewrite Hde.
  - intros Hor. assert (k < path_size path - 1) as Hlt by (destruct Hor as [[? ?]|?]; done).
    exists s. rewrite (bind_ret _ _ _ _ _ Hmiss). cbv iota. rewrite (bind_ret _ _ _ _ _ Hino).
    rewrite (bind_ret _ _ _ _ _ (cell_load _ _ _ (ia_cell _ _ _ Hv))). rewrite (proj2 (Z.ltb_lt _ _)) by done.
    rewrite Hdir. cbn [andb negb]. split; [done|]. split; [done|]. split; [apply (wk_cache _ _ _ _ _ W)|by apply looked_refl, (tree_inv _ T)].
Qed.

(** The name is in the cache. *)
Lemma step_hit T path s st k d name K q (qn : DNode) c' j :
  walking T s st k d -> 0 <= k -> dc_ok (edge T) K c' ->
  dc_lookup (lk_link st) name (fs_dentry s) = Ret (Some q) c' -> d_nodes c' !! q = Some qn -> DentryCache.d_inode qn = j -> edge T d name = Some j ->
  exists st' s', lookup_step path name st s = Ret (inr st') s' /\ walking T s' st' (k + 1) j /\ looked s s'
    /\ lk_result st' = j /\ (k = path_size path - 1 -> lk_inode st' = ip_of j).
Proof.
  intros W Hk HK Hl Hq Hqj HE. pose proof (wk_tree _ _ _ _ _ W) as Ht. set (s1 := with_dentry c' s).
  pose proof (tree_ok_dentry _ c' _ Ht) as Ht1. destruct (to_entry _ _ _ _ _ Ht1 HE) as (w & Hw1 & _).
  assert (H1 : link_inode (Some q) s1 = Ret j s1).
  { unfold link_inode. rewrite (bind_ret _ _ _ q s1) by done. mstep (on_dentry_eq _ s1 _ _ (dn_get_eq _ c' _ Hq)). by rewrite Hqj. }
  assert (Hloop : lookup_step path name st s
    = Ret (inr (mk_lookup (if k =? path_size path - 1 then ip_of j else lk_inode st) (Some q) (lk_link st) true j (k + 1))) s1).
  { unfold lookup_step. rewrite (bind_ret _ _ _ _ _ (on_dentry_eq _ s _ _ Hl)). cbv iota. fold s1. mstep H1.
    rewrite (wk_index _ _ _ _ _ W). destruct (k =? path_size path - 1); [|done]. by mstep (get_inode_at _ _ _ Hw1). }
  eexists _, s1. split; [exact Hloop|]. split; [|split; [by apply looked_dentry, looked_refl, (tree_inv _ T)|split; [done|]]].
  - constructor; cbn; [done|by exists K|by apply (to_entry _ _ _ _ _ Ht1 HE)|by exists qn|done|done|]. intros [?|?]; [done|lia].
  - intros E. cbn. by rewrite (proj2 (Z.eqb_eq _ _) E).
Qed.

Lemma step_ok T path s st k d name :
  walking T s st k d -> 0 <= k -> path_name name ->
  match edge T d name with
  | Some j => exists st' s', lookup_step path name st s = Ret (inr st') s' /\ walking T s' st' (k + 1) j /\ looked s s'
      /\ lk_result st' = j /\ (k = path_size path - 1 -> lk_inode st' = ip_of j)
  | None => is_Some (T !! d) \/ k < path_size path - 1 -> exists s',
      lookup_step path name st s = Ret (inl (missing T d)) s' /\ tree_ok s' T /\ caches T s' /\ looked s s'
  end.
Proof.
  intros W Hk Hn. destruct (wk_cache _ _ _ _ _ W) as [K HK].
  destruct (dc_lookup_ok _ K _ _ d name HK (wk_link _ _ _ _ _ W)) as [[Hl _]|(q & qn & c' & K' & Hl & HK' & Hq & HE & _)]; [apply Hn| |].
  - pose proof (on_dentry_eq _ s _ _ Hl) as Hm. rewrite with_dentry_id in Hm.
    pose proof (step_miss T path s st k d name W Hk Hn Hm) as H. destruct (edge T d name) as [j|]; [|done].
    destruct H as (st' & s' & H1 & H2 & H3 & H4 & H5). by exists st', s'.
  - rewrite HE. by apply (step_hit T path s st k d name K' q qn c').
Qed.

(** ** Whole paths *)

(** What a path names in a tree of directories. *)
Fixpoint walk (T : dirs) (d : Z) (names : list (list byte)) : RetCode + Z :=
  match names with
  | [] => inr d
  | name :: names' =>
      match edge T d name with
      | Some j => walk T j names'
      | None => inl (missing T d)
      end
  end.

(** The last name is looked up in a directory. *)
Definition ends_in_dir (T : dirs) (d : Z) (names : list (list byte)) : Prop :=
  forall pre name p, names = pre ++ [name] -> walk T d pre = inr p -> is_Some (T !! p).

Lemma looked_trans s1 s2 s3 : fs_inv s1 -> looked s1 s2 -> looked s2 s3 -> looked s1 s3.
Proof. intros Hi H12 (t & Ht & ->). apply looked_dentry. by apply (looked_same _ s2). Qed.

Lemma lookup_loop_ok T path : forall names s st k d,
  walking T s st k d -> 0 <= k -> k + Z.of_nat (length names) = path_size path ->
  Forall path_name names -> ends_in_dir T d names ->
  match walk T d names with
  | inr j => exists st' s', for_list names (lookup_step path) st s = Ret (inr st') s'
      /\ walking T s' st' (path_size path) j /\ looked s s'
      /\ (names <> [] -> lk_result st' = j /\ lk_inode st' = ip_of j)
  | inl code => exists s', for_list names (lookup_step path) st s = Ret (inl code) s'
      /\ tree_ok s' T /\ caches T s' /\ looked s s'
  end.
Proof.
  induction names as [|name names IH]; intros s st k d W Hk Hlen Hn He; cbn [length] in Hlen.
  { exists st, s. split; [done|]. split; [by replace (path_size path) with k by lia|].
    split; [apply looked_refl, (tree_inv _ _ (wk_tree _ _ _ _ _ W))|done]. }
  apply Forall_cons in Hn as [Hnm Hn]. pose proof (step_ok T path s st k d name W Hk Hnm) as Hst.
  pose proof (tree_inv _ _ (wk_tree _ _ _ _ _ W)) as Hi. cbn [walk for_list]. destruct (edge T d name) as [j|] eqn:HE.
  - destruct Hst as (st1 & s1 & H1 & W1 & L1 & Hres & Hino).
    specialize (IH s1 st1 (k + 1) j W1 ltac:(lia) ltac:(lia) Hn).
    assert (He' : ends_in_dir T j names).
    { intros pre a p -> Hp. apply (He (name :: pre) a p); [done|]. cbn [walk]. by rewrite HE. }
    specialize (IH He'). rewrite (bind_ret _ _ _ _ _ H1). destruct (walk T j names) as [code|j'] eqn:Hw.
    + destruct IH as (s' & H2 & Ht & Hc & L2). exists s'. split; [done|]. split; [done|]. split; [done|]. by apply (looked_trans _ s1).
    + destruct IH as (st' & s' & H2 & W2 & L2 & Hr). exists st', s'. split; [done|]. split; [done|].
      split; [by apply (looked_trans _ s1)|]. intros _. destruct names as [|a names]; [|by apply Hr].
      injection Hw as <-. cbn in H2. injection H2 as <- <-. split; [done|]. apply Hino. cbn [length] in Hlen. lia.
  - destruct Hst as (s' & H1 & H2); [|exists s'; split; [by rewrite (bind_ret _ _ _ _ _ H1)|done]].
    destruct names as [|a names]; [left|right; cbn [length] in Hlen; lia]. by apply (He [] name d).
Qed.

Lemma inode_lookup_ok T s path :
  tree_ok s T -> caches T s -> path_valid path = true -> Forall path_name (path_names path) ->
  ends_in_dir T ROOT_INODE (path_names path) ->
  exists r s', inode_lookup path s = Ret r s' /\ tree_ok s' T /\ caches T s' /\ looked s s'
    /\ match walk T ROOT_INODE (path_names path) with
       | inr j => exists parent, r = inr (mk_found (ip_of j) j parent)
       | inl code => r = inl code
       end.
Proof.
  intros Ht Hc Hv Hn He. unfold inode_lookup. rewrite Hv. cbn [negb]. unfold path_empty.
  case_bool_decide as E.
  { exists (inr (mk_found root_inode_ ROOT_INODE None)), s. split; [done|]. split; [done|]. split; [done|].
    split; [by apply looked_refl, (tree_inv _ T)|]. unfold path_names. rewrite E. by exists None. }
  assert (W : walking T s (mk_lookup root_inode_ None None false (-1) 0) 0 ROOT_INODE).
  { constructor; [done|done|apply (to_node _ _ Ht); by left|done|lia|done|done]. }
  pose proof (lookup_loop_ok T path (path_names path) s _ 0 ROOT_INODE W ltac:(lia)) as H.
  assert (Hlen : 0 + Z.of_nat (length (path_names path)) = path_size path).
  { unfold path_names, path_size. by rewrite length_fmap. }
  specialize (H Hlen Hn He). assert (Hne : path_names path <> []) by (unfold path_names; by destruct (name_list_ path)).
  destruct (walk T ROOT_INODE (path_names path)) as [code|j].
  - destruct H as (s' & H & H1 & H2 & H3). rewrite (bind_ret _ _ _ _ _ H). by exists (inl code), s'.
  - destruct H as (st' & s' & H & W' & L & Hr). destruct (Hr Hne) as [Hres Hino]. rewrite (bind_ret _ _ _ _ _ H).
    destruct (wk_node _ _ _ _ _ W') as (v & Hv' & _ & _). pose proof (ia_range _ _ _ Hv') as Hrg.
    eexists _, s'. split; [reflexivity|]. split; [apply W'|]. split; [apply W'|]. split; [done|].
    exists (lk_parent st'). by rewrite Hino, Hres, u32_small by lia.
Qed.

(** ** A new file system *)

Definition new_dcache : DentryCache :=
  mk_dcache {[ 1%positive := mk_dnode ROOT_INODE 1 [Byte.x2f] None None ]} 2 1 1 BLOCK_CACHE_SIZE.

Lemma laid_out_dcache : fs_dentry laid_out = new_dcache.
Proof. vm_compute. reflexivity. Qed.

Lemma new_dcache_ok E : dc_ok E (fun _ => []) new_dcache.
Proof.
  assert (Hn : forall p, is_Some (d_nodes new_dcache !! p) -> p = 1%positive).
  { intros p [n Hp]. cbn [new_dcache d_nodes] in Hp. by apply lookup_singleton_Some in Hp as [<- _]. }
  constructor.
  - intros p Hp. by rewrite (Hn p Hp).
  - eexists. split; [apply lookup_singleton_eq|done].
  - intros p Hp. rewrite (Hn p Hp). eexists. split; [apply lookup_singleton_eq|]. split; [apply NoDup_singleton|].
    split; [by intros q ?%elem_of_nil|done].
  - done.
  - by intros p p' q ?%elem_of_nil.
  - by intros p pn q _ ?%elem_of_nil.
Qed.

Lemma root_used : bm_wf (inode_bitmap_ root_group) /\ bm_bit (inode_bitmap_ root_group) 0 = true.
Proof. split; vm_compute; reflexivity. Qed.

(** Mounting an empty disk gives the tree of the empty root. *)
Lemma mount_tree {clock : Clock} :
  exists s, fs_mount blank = Ret tt s /\ tree_ok s {[ ROOT_INODE := ∅ ]} /\ caches {[ ROOT_INODE := ∅ ]} s.
Proof.
  destruct mount_blank as (s & H & Hwf & _ & _ & _ & Hg & Hsb & Hde & Hib & _). exists s. split; [exact H|].
  pose proof (gb_cell _ _ _ _ Hg) as Hc. pose proof Hc as [_ (g & Hgr & _)].
  assert (Hat : inode_at s ROOT_INODE root_dir).
  { constructor; [vm_compute; split; congruence|rewrite Hsb; vm_compute; reflexivity| |exact Hc].
    exists g. split; [exact Hgr|]. rewrite (Hib g Hgr). exact root_used. }
  assert (Hno : forall d name, edge {[ ROOT_INODE := ∅ ]} d name = None).
  { intros d name. unfold edge. destruct (decide (d = ROOT_INODE)) as [->|].
    - rewrite lookup_singleton_eq. cbn. apply lookup_empty.
    - by rewrite lookup_singleton_ne. }
  split; [|exists (fun _ => []); rewrite Hde, laid_out_dcache; apply new_dcache_ok].
  assert (Hin : forall i, in_tree {[ ROOT_INODE := ∅ ]} i -> i = ROOT_INODE).
  { intros i [->|(d & name & E)]; [done|]. by rewrite Hno in E. }
  constructor.
  - rewrite lookup_singleton_eq. by eexists.
  - intros d [M HM]. apply lookup_singleton_Some in HM as [<- _]. by left.
  - intros i Hi. rewrite (Hin i Hi). exists root_dir. split; [exact Hat|]. split; [by exists 0|].
    rewrite lookup_singleton_eq. split; [reflexivity|]. exists 0, []. split; [|split; [apply NoDup_nil_2|done]].
    constructor; [exact Hg|done|done| |done]. pose proof (gb_size _ _ _ _ Hg). lia.
  - intros i j v w b Hi Hj Hne. destruct Hne. etransitivity; [exact (Hin i Hi)|symmetry; exact (Hin j Hj)].
Qed.

(** ** Properties *)

(** C6. Looking a path up answers the inode that a walk through the tree of
    directories leads to, or FS_NOT_FOUND where a directory does not have the
    name and FS_NDIR_ERR where a name before the last is no directory; the
    answer does not depend on which names are cached, the cache stays in
    agreement with the tree, and no block and no inode changes.  (When the
    last but one name is a regular file or a link the code reads it as a
    directory, which [ends_in_dir] excludes.)  A symbolic link is answered as
    itself; it is not followed. *)
Theorem inode_lookup_refines T s path :
  tree_ok s T -> caches T s -> path_valid path = true -> Forall path_name (path_names path) ->
  ends_in_dir T ROOT_INODE (path_names path) ->
  exists r s', inode_lookup path s = Ret r s' /\ tree_ok s' T /\ caches T s' /\ looked s s'
    /\ match walk T ROOT_INODE (path_names path) with
       | inr j => exists parent, r = inr (mk_found (ip_of j) j parent)
       | inl code => r = inl code
       end.
Proof. apply inode_lookup_ok. Qed.

(** ** Instances of the properties *)

Definition sample_path : Path := mk_path true [Byte.x2f; Byte.x61] [(1, 1)].

(** The path "/a" in a file system that has just been mounted. *)
Lemma inode_lookup_refines_witness :
  exists s s', @fs_mount 0 blank = Ret tt s /\ inode_lookup sample_path s = Ret (inl FS_NOT_FOUND) s'.
Proof.
  destruct (@mount_tree 0) as (s & Hm & Ht & Hc).
  destruct (inode_lookup_refines {[ ROOT_INODE := ∅ ]} s sample_path Ht Hc) as (r & s' & H & _ & _ & _ & Hr).
  - by vm_compute.
  - change (path_names sample_path) with [[Byte.x61]]. constructor; [|done].
    split; [done|]. split; [by constructor|by vm_compute].
  - change (path_names sample_path) with [[Byte.x61]]. intros [|a pre] name p E Hp.
    + injection Hp as <-. by eexists.
    + by destruct pre.
  - exists s, s'. split; [exact Hm|]. assert (E : r = inl FS_NOT_FOUND) by exact Hr. rewrite <- E. exact H.
Defined.
