(* ===== verification/Frames.v ===== *)
(** * Frames: what an operation leaves alone

    The operations on one inode keep all the others: the inodes outside of a
    set of places, the contents of the blocks that were in use outside of a
    set of blocks, and which blocks and inodes are in use.  [framed] says so
    for lookups, for the creation of inodes and entries, for stores to inodes
    and for writes to open files alike. *)

From S2P Require Import Prelude Layout Disk Bitmap PathName Block BlockGroup BlockCache DentryCache DentryTree.
From S2P Require Import FileSystem FileStatus OpenFiles FsBlocks FileData FsPointers FsAlloc FileBlocks FsInodes FileGrow FileWrite.
From S2P Require Import DirBlock Directory PathLookup.

(** ** Inodes and files in a changed state *)

Lemma inode_at_frame s s' i v :
  inode_at s i v -> fs_wf s' -> sb_fixed (fs_super s') = sb_fixed (fs_super s) ->
  inode_bit s' i = inode_bit s i -> cell s' (ip_of i) v -> inode_at s' i v.
Proof.
  intros Hv Hwf Hsb Hb Hc. apply inode_at_intro; [done| |apply Hv|by rewrite Hb, (inode_at_bit _ _ _ Hv)|done].
  rewrite <- (ia_ipg _ _ _ Hv). unfold sb_fixed in Hsb. by injection Hsb.
Qed.

(** A file whose inode and indirect blocks are as they were. *)
Lemma growable_frame s s' ip v n :
  growable s ip v n -> fs_wf s' -> free_zero s' -> size_ (st_cache (fs_store s')) = size_ (st_cache (fs_store s)) ->
  cell s' ip v -> (forall b, b ∈ tree s v n -> fview s' b = fview s b) ->
  (forall b, allocated s b = true -> allocated s' b = true) ->
  growable s' ip v n /\ tree s' v n = tree s v n /\ (forall m, 0 <= m < n -> blk s' v m = blk s v m).
Proof.
  intros B Hwf Hz Hs Hc Hv Hu. pose proof (gb_file _ _ _ _ B) as F. pose proof (fo_range _ _ _ F) as Hr.
  assert (Hm : forall b, b ∈ metas s v n -> fview s' b = fview s b).
  { intros b Hb. apply Hv, elem_of_app. by left. }
  pose proof (keeps_views s v s' n Hm) as K. split; [|split].
  - constructor; [done|done|by rewrite Hs; apply B|done|apply B|apply B|]. apply (file_ok_ext s); [done|done|]. auto.
  - unfold tree. by rewrite (keeps_metas _ _ _ _ _ K), (keeps_datas _ _ _ _ _ K) by lia.
  - intros m Hm0. apply (keeps_blk _ _ _ _ n); [done|lia|done].
Qed.

Lemma dir_ok_frame s s' ip v n dss :
  dir_ok s ip v n dss -> fs_wf s' -> free_zero s' -> size_ (st_cache (fs_store s')) = size_ (st_cache (fs_store s)) ->
  cell s' ip v -> (forall b, b ∈ tree s v n -> fview s' b = fview s b) ->
  (forall b, allocated s b = true -> allocated s' b = true) -> dir_ok s' ip v n dss.
Proof.
  intros [B Hl Hsm Hca Hbl] Hwf Hz Hs Hc Hv Hu. destruct (growable_frame s s' ip v n B Hwf Hz Hs Hc Hv Hu) as (B' & _ & Hb).
  constructor; [done|done|done|by rewrite Hs|]. intros m ds Hm. pose proof (lookup_lt_Some _ _ _ Hm) as Hlt.
  rewrite Hb by lia. destruct (Hbl m ds Hm) as (H1 & H2 & H3). split; [done|]. split; [done|]. rewrite Hv; [done|].
  apply elem_of_app. right. apply elem_of_datas. exists (Z.of_nat m). split; [lia|done].
Qed.

(** ** Frames *)

Record framed (P : iptr -> Prop) (B : Z -> Prop) (s s' : FS) : Prop := {
  fr_wf : fs_wf s';
  fr_zero : free_zero s';
  fr_used : forall b, allocated s b = true -> allocated s' b = true;
  fr_view : forall b, allocated s b = true -> ~ B b -> fview s' b = fview s b;
  fr_cells : forall ip v, ~ P ip -> cell s ip v -> cell s' ip v;
  fr_bits : forall i, inode_bit s i = true -> inode_bit s' i = true;
  fr_super : sb_fixed (fs_super s') = sb_fixed (fs_super s);
  fr_size : size_ (st_cache (fs_store s')) = size_ (st_cache (fs_store s))
}.

Lemma framed_refl P B s : fs_wf s -> free_zero s -> framed P B s s.
Proof. by constructor. Qed.

(** The second operation may also touch blocks that the first one took. *)
Lemma framed_trans (P : iptr -> Prop) (B B' : Z -> Prop) s1 s2 s3 :
  framed P B s1 s2 -> framed P B' s2 s3 -> (forall b, allocated s1 b = true -> B' b -> B b) -> framed P B s1 s3.
Proof.
  intros F G HB. constructor; [apply G|apply G| | | | | |].
  - intros b Hb. by apply (fr_used _ _ _ _ G), (fr_used _ _ _ _ F).
  - intros b Hb Hn. rewrite (fr_view _ _ _ _ G); [by apply (fr_view _ _ _ _ F)|by apply (fr_used _ _ _ _ F)|auto].
  - intros ip v Hn Hc. by apply (fr_cells _ _ _ _ G), (fr_cells _ _ _ _ F).
  - intros i Hi. by apply (fr_bits _ _ _ _ G), (fr_bits _ _ _ _ F).
  - by rewrite (fr_super _ _ _ _ G), (fr_super _ _ _ _ F).
  - by rewrite (fr_size _ _ _ _ G), (fr_size _ _ _ _ F).
Qed.

Lemma framed_weaken (P P' : iptr -> Prop) (B B' : Z -> Prop) s s' :
  framed P B s s' -> (forall ip, P ip -> P' ip) -> (forall b, B b -> B' b) -> framed P' B' s s'.
Proof. intros F HP HB. constructor; try apply F; eauto using fr_view, fr_cells. Qed.

Section Framed.
Context (P : iptr -> Prop) (B : Z -> Prop) (s s' : FS) (F : framed P B s s').

Lemma framed_inode i v : inode_at s i v -> ~ P (ip_of i) -> inode_at s' i v.
Proof.
  intros Hv Hn. apply inode_at_intro; [apply F| |apply Hv|by apply (fr_bits _ _ _ _ F), (inode_at_bit _ _ v)|].
  - rewrite <- (ia_ipg _ _ _ Hv). pose proof (fr_super _ _ _ _ F) as E. unfold sb_fixed in E. by injection E.
  - apply (fr_cells _ _ _ _ F); [done|apply Hv].
Qed.

Lemma framed_grow ip v n :
  growable s ip v n -> ~ P ip -> (forall b, b ∈ tree s v n -> ~ B b) ->
  growable s' ip v n /\ tree s' v n = tree s v n /\ (forall m, 0 <= m < n -> blk s' v m = blk s v m).
Proof.
  intros G Hn Hb. apply growable_frame; [done|apply F|apply F|apply F|by apply F, G| |apply F].
  intros b Hin. apply (fr_view _ _ _ _ F); [by apply (fo_used _ _ _ (gb_file _ _ _ _ G))|auto].
Qed.

Lemma framed_bytes ip v n k :
  growable s ip v n -> (forall b, b ∈ tree s v n -> ~ B b) -> 0 <= k < BLOCK_SIZE * n -> fbyte s' v k = fbyte s v k.
Proof.
  intros G Hb Hk. destruct (byte_pos k n Hk) as [Hm _]. pose proof (gb_file _ _ _ _ G) as Hf.
  assert (Hv : forall b, b ∈ tree s v n -> fview s' b = fview s b).
  { intros b Hin. apply (fr_view _ _ _ _ F); [by apply (fo_used _ _ _ Hf)|auto]. }
  assert (K : keeps_tree s v s' v n) by (apply keeps_views; intros b Hin; apply Hv, elem_of_app; by left).
  unfold fbyte. rewrite (keeps_blk _ _ _ _ _ _ K); [|apply (fo_range _ _ _ Hf)|done].
  rewrite Hv; [done|]. apply elem_of_app. right. apply elem_of_datas. by exists (k / BLOCK_SIZE).
Qed.

Lemma framed_dir ip v n M :
  dir_is s ip v n M -> ~ P ip -> (forall b, b ∈ tree s v n -> ~ B b) -> dir_is s' ip v n M.
Proof.
  intros (dss & D & H) Hn Hb. exists dss. split; [|done]. pose proof (do_grow _ _ _ _ _ D) as G.
  apply (dir_ok_frame s); [done|apply F|apply F|apply F|by apply F, G| |apply F].
  intros b Hin. apply (fr_view _ _ _ _ F); [by apply (fo_used _ _ _ (gb_file _ _ _ _ G))|auto].
Qed.
End Framed.

(** ** The operations *)

Lemma same_blocks_framed P B s s' : fs_wf s -> free_zero s -> same_blocks s s' -> framed P B s s'.
Proof.
  intros Hwf Hz [Hi (st & -> & Hs & Hv)]. pose proof (wf_inv _ Hwf) as Hinv.
  constructor; [by apply fs_wf_store| | | | |done|done|done].
  - apply (free_zero_view s); [done|done| |done]. intros b Hb Ha. rewrite allocated_with_store in Ha. auto.
  - intros b. by rewrite allocated_with_store.
  - intros b Hb _. apply Hv. by apply (allocated_valid s).
  - intros ip v _. apply cell_meta, same_meta_store.
Qed.

Lemma looked_framed P B s s' : fs_wf s -> free_zero s -> looked s s' -> framed P B s s'.
Proof.
  intros Hwf Hz (t & Ht & ->). destruct (same_blocks_framed P B s t Hwf Hz Ht) as [H1 H2 H3 H4 H5 H6 H7 H8].
  constructor; try done. by apply fs_wf_dentry.
Qed.

Lemma imade_framed B s s' j v : free_zero s -> imade s s' j v -> framed (fun ip => ip = ip_of j) B s s'.
Proof.
  intros Hz Md. constructor; [apply Md|by apply Md| | |apply Md| | |by rewrite (im_store _ _ _ _ Md)].
  - intros b. by rewrite (im_used _ _ _ _ Md).
  - intros b _ _. unfold fview. by rewrite (im_store _ _ _ _ Md).
  - intros i Hi. by rewrite (im_bits _ _ _ _ Md), Hi, orb_true_r.
  - apply Md.
Qed.

Lemma dir_framed ip v n c s s' :
  fs_wf s' -> free_zero s' -> dir_frame ip v n c s s' -> framed (fun ip2 => ip2 = ip) (fun b => b ∈ tree s v n) s s'.
Proof.
  intros Hwf Hz F. constructor; [done|done|apply F|apply F|apply F| |apply F|apply F].
  intros i. by rewrite (km_bits _ _ (df_meta _ _ _ _ _ _ F)).
Qed.

Lemma stored_framed B s s' ip w : fs_wf s -> free_zero s -> stored s s' ip w -> framed (fun ip2 => ip2 = ip) B s s'.
Proof.
  intros Hwf Hz [_ O Hc]. constructor; [by apply (inode_only_wf s)|by apply (inode_only_zero s)| | |exact Hc| | |].
  - intros b. by rewrite (inode_only_allocated s s').
  - intros b _ _. by apply inode_only_view.
  - intros i. by rewrite (inode_only_bit s s').
  - by rewrite (io_super _ _ O).
  - by rewrite (io_store _ _ O).
Qed.

#[global] Instance iptr_eq_dec : EqDecision iptr.
Proof. solve_decision. Defined.

(** Storing what is there changes nothing. *)
Lemma stored_same B s s' ip v :
  fs_wf s -> free_zero s -> cell s ip v -> stored s s' ip v -> framed (fun _ => False) B s s'.
Proof.
  intros Hwf Hz Hc S. destruct (stored_framed B s s' ip v Hwf Hz S) as [? ? ? ? F ? ? ?]. constructor; try done.
  intros ip2 u _ Hu. destruct (decide (ip2 = ip)) as [->|Hne]; [|by apply F].
  assert (u = v) as ->; [|apply S]. pose proof (cell_load _ _ _ Hu) as E. rewrite (cell_load _ _ _ Hc) in E. by injection E.
Qed.

Lemma wstep_framed fd id v v' n n' off bs s s' :
  growable (op_fs s') (InCopy id) v' n' -> wstep fd id v v' n n' off bs s s' ->
  framed (fun ip => ip = InCopy id) (fun b => b ∈ tree (op_fs s) v n) (op_fs s) (op_fs s').
Proof.
  intros G S. constructor; [apply G|apply G|apply (st_used S)|apply (st_other S)|apply (st_cells S)| |apply (st_meta S)|apply (st_meta S)].
  intros i. by rewrite (km_bits _ _ (st_meta S)).
Qed.
