(* ===== verification/PathCreate.v ===== *)
(** * Creating by path: FileSystem::inode_create of src/filesystem.cpp

    Creation looks the directory up, asks it for the name, takes an inode and
    adds the entry.  The tree of directories gets the new name and nothing
    else changes in it: every block belongs to one inode, so that the blocks
    that are written or taken are not those of another file. *)

From S2P Require Import Prelude Layout Disk Bitmap PathName Block BlockGroup BlockCache DentryCache DentryTree.
From S2P Require Import FileSystem FileStatus OpenFiles FsBlocks FileData FsPointers FsAlloc FileBlocks FsInodes FileGrow FileWrite FsMount DirVisit.
From S2P Require Import DirBlock Directory PathLookup Frames.

(** ** After an inode was taken *)

Section Made.
Context (s s' : FS) (j : Z) (w : ext2_inode) (Md : imade s s' j w).

Lemma made_ne i v : inode_at s i v -> i <> j.
Proof. intros Hv ->. by apply (im_new _ _ _ _ Md v). Qed.

Lemma made_fview b : fview s' b = fview s b.
Proof. unfold fview. by rewrite (im_store _ _ _ _ Md). Qed.

Lemma made_dir i v n dss : inode_at s i v -> dir_ok s (ip_of i) v n dss -> dir_ok s' (ip_of i) v n dss.
Proof.
  intros Hv D. apply (dir_ok_frame s); [done|apply Md| |by rewrite (im_store _ _ _ _ Md)| | |].
  - apply (im_zero _ _ _ _ Md), D.
  - apply (ia_cell _ _ _ (im_keep _ _ _ _ Md i v Hv)).
  - intros b _. apply made_fview.
  - intros b. by rewrite (im_used _ _ _ _ Md).
Qed.

Lemma made_tree i v n : inode_at s i v -> growable s (ip_of i) v n -> growable s' (ip_of i) v n /\ tree s' v n = tree s v n.
Proof.
  intros Hv B. destruct (growable_frame s s' (ip_of i) v n B) as (B' & Ht & _); [apply Md| |by rewrite (im_store _ _ _ _ Md)| | | |done].
  - apply (im_zero _ _ _ _ Md), B.
  - apply (ia_cell _ _ _ (im_keep _ _ _ _ Md i v Hv)).
  - intros b _. apply made_fview.
  - intros b. by rewrite (im_used _ _ _ _ Md).
Qed.

Lemma tree_ok_made T : tree_ok s T -> tree_ok s' T.
Proof.
  intros Ht. assert (Hin : forall i, in_tree T i -> exists v, inode_at s i v).
  { intros i Hi. destruct (to_node _ _ Ht i Hi) as (v & Hv & _). by exists v. }
  assert (Hcell : forall i v n, in_tree T i -> growable s (ip_of i) v n -> inode_at s i v).
  { intros i v n Hi B. destruct (Hin i Hi) as [v0 Hv0]. pose proof (cell_load _ _ _ (ia_cell _ _ _ Hv0)) as E.
    rewrite (cell_load _ _ _ (gb_cell _ _ _ _ B)) in E. by injection E as ->. }
  apply (tree_ok_keep s); [done| | |].
  - intros i v _ Hv. by apply (im_keep _ _ _ _ Md).
  - intros i v n Hi B. apply made_tree; [by apply (Hcell i v n)|done].
  - intros i v n M Hi _ (dss & D & H). exists dss. split; [|done]. apply made_dir; [|done].
    by apply (Hcell i v n); [|apply D].
Qed.

Lemma made_last v n last : last_ok s v n last -> (forall m, 0 <= m < n -> blk s' v m = blk s v m) -> 0 <= n -> last_ok s' v n last.
Proof.
  unfold last_ok. intros H Hb Hn. destruct (Z.eqb_spec n 0); [done|]. destruct H as (p & -> & l & d & Hok & Hin).
  exists p. rewrite Hb by lia. split; [done|]. exists l, d. by rewrite (im_store _ _ _ _ Md).
Qed.
End Made.

(** ** A tree with one name more *)

Definition add_entry (T : dirs) (d : Z) (M : gmap (list byte) Z) (name : list byte) (j : Z) (dir : bool) : dirs :=
  let T1 := <[d := <[name := j]> M]> T in
  if dir then <[j := ∅]> T1 else T1.

Section Add.
Context (T : dirs) (d : Z) (M : gmap (list byte) Z) (name : list byte) (j : Z) (dir : bool).
Hypothesis HT : T !! d = Some M.
Hypothesis Hname : M !! name = None.
Hypothesis Hj : T !! j = None.

Let T' := add_entry T d M name j dir.

Lemma add_ne : d <> j.
Proof. congruence. Qed.

Lemma add_lookup i :
  T' !! i = if decide (i = j) then (if dir then Some ∅ else None)
            else if decide (i = d) then Some (<[name := j]> M) else T !! i.
Proof.
  pose proof add_ne as Hne. unfold T', add_entry. destruct dir.
  - case_decide as E; [subst; apply lookup_insert_eq|]. rewrite lookup_insert_ne by done.
    case_decide; [subst; apply lookup_insert_eq|by rewrite lookup_insert_ne].
  - case_decide as E; [subst; by rewrite lookup_insert_ne|]. case_decide; [subst; apply lookup_insert_eq|by rewrite lookup_insert_ne].
Qed.

Lemma edge_add a b : edge T' a b = if decide (a = d /\ b = name) then Some j else edge T a b.
Proof.
  unfold edge. rewrite add_lookup. pose proof add_ne as Hne. case_decide as E1.
  - subst a. rewrite decide_False by naive_solver. rewrite Hj. by destruct dir.
  - case_decide as E2.
    + subst a. rewrite HT. cbn. case_decide as E3; [destruct E3 as [_ ->]; apply lookup_insert_eq|].
      rewrite lookup_insert_ne; [done|]. intros <-. by apply E3.
    + by rewrite decide_False by naive_solver.
Qed.

Lemma edge_mono a b k : edge T a b = Some k -> edge T' a b = Some k.
Proof.
  intros H. rewrite edge_add, decide_False; [done|]. intros [-> ->]. unfold edge in H. rewrite HT in H. cbn in H. congruence.
Qed.

Lemma in_tree_mono i : in_tree T i -> in_tree T' i.
Proof. intros [->|(a & b & H)]; [by left|]. right. exists a, b. by apply edge_mono. Qed.

Lemma in_tree_add i : in_tree T' i -> i = j \/ in_tree T i.
Proof.
  intros [->|(a & b & H)]; [by right; left|]. rewrite edge_add in H. case_decide; [left; congruence|].
  right. right. by exists a, b.
Qed.

Lemma in_tree_new : in_tree T' j.
Proof. right. exists d, name. by rewrite edge_add, decide_True. Qed.
End Add.

Section Enter.
Context (T : dirs) (d j n n' : Z) (M : gmap (list byte) Z) (name : list byte) (s s' : FS).
Context (v w v' : ext2_inode) (dss' : list (list dentry)).
Hypothesis Ht : tree_ok s T.
Hypothesis HT : T !! d = Some M.
Hypothesis Hname : M !! name = None.
Hypothesis Hv : inode_at s d v.
Hypothesis Hdir : S_ISDIR (i_mode v) = true.
Hypothesis B : growable s (ip_of d) v n.
Hypothesis Hw : inode_at s j w.
Hypothesis Hjn : ~ in_tree T j.
Hypothesis Hw0 : i_blocks w = 0.
Hypothesis D' : dir_ok s' (ip_of d) v' n' dss'.
Hypothesis Hnd : NoDup (dir_names (concat dss')).
Hypothesis Hmap : dir_map (concat dss') = <[name := j]> M.
Hypothesis Ha : attrs v' = attrs v.
Hypothesis F : dir_frame (ip_of d) v n 3 s s'.
Hypothesis Hnew : forall b, b ∈ tree s' v' n' -> b ∈ tree s v n \/ allocated s b = false.

Let T' := add_entry T d M name j (S_ISDIR (i_mode w)).

Lemma enter_none : T !! j = None.
Proof. destruct (T !! j) eqn:E; [|done]. destruct Hjn. apply (to_in _ _ Ht). by eexists. Qed.

Lemma enter_ne : d <> j.
Proof. apply (add_ne T d M j HT enter_none). Qed.

Lemma enter_wf : fs_wf s' /\ free_zero s'.
Proof. split; apply D'. Qed.

(** Inodes other than the directory. *)
Lemma enter_at i u : inode_at s i u -> i <> d -> inode_at s' i u.
Proof.
  intros Hu Hne. apply (inode_at_frame s); [done|apply enter_wf|apply (df_meta _ _ _ _ _ _ F)|apply (df_meta _ _ _ _ _ _ F)|]. apply (df_cells _ _ _ _ _ _ F); [|apply Hu].
  intros E. apply Hne. by apply ip_of_inj.
Qed.

Lemma enter_dir_at : inode_at s' d v'.
Proof. apply inode_at_intro; [apply enter_wf| |apply Hv| |apply D'].
  - rewrite <- (ia_ipg _ _ _ Hv). pose proof (km_super _ _ (df_meta _ _ _ _ _ _ F)) as E. unfold sb_fixed in E. by injection E.
  - rewrite (km_bits _ _ (df_meta _ _ _ _ _ _ F)). by apply (inode_at_bit _ _ v).
Qed.

Lemma enter_view i u m b :
  in_tree T i -> i <> d -> inode_at s i u -> growable s (ip_of i) u m -> b ∈ tree s u m -> fview s' b = fview s b.
Proof.
  intros Hi Hne Hu Bu Hb. apply (df_view _ _ _ _ _ _ F).
  - by apply (fo_used _ _ _ (gb_file _ _ _ _ Bu)).
  - intros Hbd. apply (to_apart _ _ Ht i d u v b); [done|by apply (to_in _ _ Ht); eexists|done|done|done
      |apply (gb_mode _ _ _ _ Bu)|apply (gb_mode _ _ _ _ B)|by rewrite (growable_blocks _ _ _ _ Bu)|by rewrite (growable_blocks _ _ _ _ B)].
Qed.

Lemma enter_grow i u m :
  in_tree T i -> i <> d -> inode_at s i u -> growable s (ip_of i) u m ->
  growable s' (ip_of i) u m /\ tree s' u m = tree s u m.
Proof.
  intros Hi Hne Hu Bu. destruct (growable_frame s s' (ip_of i) u m Bu) as (B1 & Ht1 & _); [apply enter_wf|apply enter_wf|apply (df_meta _ _ _ _ _ _ F)| | |apply F|done].
  - apply (ia_cell _ _ _ (enter_at i u Hu Hne)).
  - intros b. by apply (enter_view i u m b).
Qed.

Lemma enter_dir i u m N :
  in_tree T i -> i <> d -> inode_at s i u -> dir_is s (ip_of i) u m N -> dir_is s' (ip_of i) u m N.
Proof.
  intros Hi Hne Hu (dss & D & H). exists dss. split; [|done].
  apply (dir_ok_frame s); [done|apply enter_wf|apply enter_wf|apply (df_meta _ _ _ _ _ _ F)| | |apply F].
  - apply (ia_cell _ _ _ (enter_at i u Hu Hne)).
  - intros b. apply (enter_view i u m b); [done|done|done|apply D].
Qed.

(** The new inode has no blocks. *)
Lemma enter_empty : is_file w = true -> growable s' (ip_of j) w 0.
Proof.
  intros Hf. constructor; [apply enter_wf|apply enter_wf|apply (gb_size _ _ _ _ (do_grow _ _ _ _ _ D'))| |exact Hf|done|].
  - apply (ia_cell _ _ _ (enter_at j w Hw ltac:(intros E; by apply enter_ne))).
  - constructor; [unfold MAX_BLOCKS; lia|apply NoDup_nil_2|]. intros b Hb. by apply elem_of_nil in Hb.
Qed.

Lemma attrs_mode (a b : ext2_inode) : attrs a = attrs b -> i_mode a = i_mode b.
Proof. intros E. by apply (f_equal i_mode) in E. Qed.

Lemma enter_blocks i u : in_tree T' i -> inode_at s' i u -> is_file u = true -> i <> d ->
  (i = j /\ blocks s' u = []) \/ (in_tree T i /\ inode_at s i u /\ blocks s' u = blocks s u /\ forall b, b ∈ blocks s u -> allocated s b = true).
Proof.
  intros Hi Hu Hf Hne. apply (in_tree_add T d M name j _ HT enter_none) in Hi as [->|Hi].
  - left. split; [done|]. assert (u = w) as -> by (apply (inode_at_inj s' j); [done|apply enter_at; [done|]; intros E; by apply enter_ne]).
    unfold blocks. by rewrite Hw0.
  - right. destruct (to_node _ _ Ht i Hi) as (u0 & Hu0 & Hg & _).
    assert (u0 = u) as -> by (apply (inode_at_inj s' i); [by apply enter_at|done]).
    destruct (Hg Hf) as [m Bu]. destruct (enter_grow i u m Hi Hne Hu0 Bu) as [B1 Ht1].
    rewrite (growable_blocks _ _ _ _ B1), (growable_blocks _ _ _ _ Bu). do 3 (split; [done|]).
    intros b Hb. by apply (fo_used _ _ _ (gb_file _ _ _ _ Bu)).
Qed.

Lemma enter_apart i u b :
  in_tree T' i -> i <> d -> inode_at s' i u -> is_file u = true -> b ∈ blocks s' v' -> b ∈ blocks s' u -> False.
Proof.
  intros Hi Hne Hu Hf Hb Hbu. destruct (enter_blocks i u Hi Hu Hf Hne) as [[_ E]|(HiT & Hu0 & E & Hal)]; rewrite E in Hbu.
  - by apply elem_of_nil in Hbu.
  - rewrite (growable_blocks _ _ _ _ (do_grow _ _ _ _ _ D')) in Hb. apply Hnew in Hb as [Hb|Hb]; [|by rewrite Hal in Hb].
    apply (to_apart _ _ Ht d i v u b); [by apply (to_in _ _ Ht); eexists|done|done|done|done|apply (gb_mode _ _ _ _ B)|done| |done].
    by rewrite (growable_blocks _ _ _ _ B).
Qed.

Lemma enter_tree : tree_ok s' T'.
Proof.
  pose proof enter_none as Hn. pose proof enter_ne as Hdj. constructor.
  - unfold T'. rewrite (add_lookup T d M name j _ HT Hn). destruct (to_root _ _ Ht) as [R HR].
    rewrite decide_False by congruence. case_decide; [by eexists|by exists R].
  - intros i [N HN]. unfold T' in HN. rewrite (add_lookup T d M name j _ HT Hn) in HN. case_decide; [subst; by apply (in_tree_new T d M name j _ HT Hn)|].
    apply (in_tree_mono T d M name j _ HT Hname Hn). apply (to_in _ _ Ht). case_decide; [subst; by eexists|by eexists].
  - intros i Hi. unfold node_ok, T'. rewrite (add_lookup T d M name j _ HT Hn). case_decide as E1.
    + subst i. exists w. split; [by apply enter_at; [|congruence]|].
      split; [intros Hf; exists 0; by apply enter_empty|]. destruct (S_ISDIR (i_mode w)) eqn:Hd; [|done]. split; [done|].
      exists 0, []. split; [|split; [apply NoDup_nil_2|done]]. constructor; [apply enter_empty; unfold is_file; by rewrite Hd|done|done| |done].
      pose proof (gb_size _ _ _ _ (do_grow _ _ _ _ _ D')). lia.
    + case_decide as E2.
      * subst i. exists v'. split; [apply enter_dir_at|]. split; [intros _; exists n'; apply D'|].
        rewrite (attrs_mode _ _ Ha). split; [done|]. exists n', dss'. done.
      * destruct (in_tree_add T d M name j _ HT Hn i Hi) as [?|HiT]; [done|]. destruct (to_node _ _ Ht i HiT) as (u & Hu & Hg & Hd).
        exists u. split; [by apply enter_at|]. split.
        -- intros Hf. destruct (Hg Hf) as [m Bu]. exists m. by apply enter_grow.
        -- destruct (T !! i) as [N|]; [|done]. destruct Hd as [Hd [m Hm]]. split; [done|]. exists m. by apply enter_dir.
  - intros i k u x b Hi Hk Hne Hu Hx Hfu Hfx Hbu Hbx. destruct (decide (i = d)) as [->|Hid].
    + assert (u = v') as -> by (apply (inode_at_inj s' d); [done|apply enter_dir_at]).
      by apply (enter_apart k x b); [|congruence|..].
    + destruct (decide (k = d)) as [->|Hkd].
      * assert (x = v') as -> by (apply (inode_at_inj s' d); [done|apply enter_dir_at]). by apply (enter_apart i u b).
      * destruct (enter_blocks i u Hi Hu Hfu Hid) as [[_ E]|(HiT & Hu0 & E & _)]; rewrite E in Hbu; [by apply elem_of_nil in Hbu|].
        destruct (enter_blocks k x Hk Hx Hfx Hkd) as [[_ E']|(HkT & Hx0 & E' & _)]; rewrite E' in Hbx; [by apply elem_of_nil in Hbx|].
        by apply (to_apart _ _ Ht i k u x b).
Qed.
End Enter.

(** ** inode_create *)

Lemma path_split path :
  path_empty path = false ->
  path_names path = path_names (path_dir path) ++ [path_back path] /\ path_valid (path_dir path) = path_valid path.
Proof.
  unfold path_empty. intros H. apply bool_decide_eq_false in H. split; [|done].
  destruct (exists_last H) as (l & e & E). unfold path_dir, path_slice, path_back, path_names, path_size. cbn [name_list_].
  rewrite E, last_snoc, length_app, fmap_app. cbn [length]. f_equal.
  destruct (Z.ltb_spec 0 (Z.of_nat (length l + 1) - 1)) as [Hl|Hl].
  - replace (Z.to_nat (Z.of_nat (length l + 1) - 1)) with (length l) by lia. by rewrite take_app_length.
  - destruct l; [done|cbn [length] in Hl; lia].
Qed.

Lemma dc_ok_mono (E E' : edges) K c :
  (forall a b k, E a b = Some k -> E' a b = Some k) -> dc_ok E K c -> dc_ok E' K c.
Proof.
  intros HE [H1 H2 H3 H4 H5 H6]. constructor; try done. intros p pn q Hp Hq.
  destruct (H6 p pn q Hp Hq) as (qn & Hqn & Hnm & Hk). exists qn. auto.
Qed.

Lemma walk_in_tree T names d j : walk T d names = inr j -> in_tree T d -> in_tree T j.
Proof.
  revert d. induction names as [|x names IH]; intros d E Hd; [by injection E as <-|]. cbn [walk] in E.
  destruct (edge T d x) as [k|] eqn:Ek; [|done]. apply (IH k); [done|]. right. by exists d, x.
Qed.

(** What a lookup leaves as it is. *)
Lemma looked_groups s s' :
  looked s s' -> fs_groups s' = fs_groups s /\ fs_super s' = fs_super s
    /\ size_ (st_cache (fs_store s')) = size_ (st_cache (fs_store s)).
Proof. intros (t & [_ (st & -> & Hs & _)] & ->). done. Qed.

(** There is room for an entry, a block for it and an inode. *)
Definition can_create (s : FS) (d : Z) : Prop :=
  room s 3 /\ inode_room s
  /\ forall v, inode_at s d v -> i_blocks v < 8 * 1036 /\ i_blocks v / 8 - 11 <= size_ (st_cache (fs_store s)).

Lemma can_create_groups s s' d :
  fs_groups s' = fs_groups s -> fs_super s' = fs_super s -> size_ (st_cache (fs_store s')) = size_ (st_cache (fs_store s)) ->
  can_create s d -> can_create s' d.
Proof.
  intros Hg Hsb Hs (R & I & Hd). split; [|split].
  - destruct R as (gi & g & H). exists gi, g. by rewrite Hg.
  - destruct I as (gi & g & H). exists gi, g. by rewrite Hg, Hsb.
  - intros v [V1 V2 V3 [V4 V5]]. rewrite Hs. apply Hd. constructor; [done|by rewrite <- Hsb|by rewrite <- Hg|].
    split; [done|]. cbn in *. by rewrite <- Hg.
Qed.

Section Create.
Context {clock : Clock}.

(** What a new entry in directory [d] for the new inode [j] leaves alone. *)
Record made_in (s s' : FS) (d j mode : Z) : Prop := {
  mi_new : inode_at s' j (new_inode mode);
  mi_fresh : forall v, ~ inode_at s j v;
  mi_dir : forall v, inode_at s d v -> exists v', inode_at s' d v' /\ attrs v' = attrs v /\ i_blocks v' <= i_blocks v + 8
    /\ forall b, b ∈ blocks s' v' -> b ∈ blocks s v \/ allocated s b = false;
  mi_frame : forall v, inode_at s d v -> framed (fun ip => ip = ip_of d \/ ip = ip_of j) (fun b => b ∈ blocks s v) s s';
  mi_room : forall k, room s (k + 3) -> room s' k;
  mi_left : forall k, 0 <= k -> inodes_left s (k + 1) -> inodes_left s' k
}.

(** A lookup before it does not matter. *)
Lemma looked_made s1 s2 s3 T d M j mode :
  tree_ok s1 T -> T !! d = Some M -> looked s1 s2 -> made_in s2 s3 d j mode -> made_in s1 s3 d j mode.
Proof.
  intros Ht HT L Md. destruct (tree_wf _ _ Ht) as [Hwf Hz]. destruct (looked_groups _ _ L) as (Hg & Hsb & Hs).
  pose proof (looked_framed (fun _ => False) (fun _ => False) s1 s2 Hwf Hz L) as F.
  assert (Hat : forall i v, inode_at s1 i v -> inode_at s2 i v) by (intros i v Hv; apply (framed_inode _ _ _ _ F); tauto).
  destruct (to_dir _ _ _ _ Ht HT) as (v0 & n & Hv0 & _ & Hd). apply dir_is_grow in Hd.
  destruct (framed_grow _ _ _ _ F (ip_of d) v0 n Hd) as (Hd' & Htr & _); [tauto|tauto|].
  constructor; [apply Md| | | | |].
  - intros v Hv. by apply (mi_fresh _ _ _ _ _ Md v), Hat.
  - intros v Hv. assert (v = v0) as -> by by apply (inode_at_inj s1 d).
    destruct (mi_dir _ _ _ _ _ Md v0 (Hat _ _ Hv)) as (v' & H1 & H2 & H3 & H4). exists v'. do 3 (split; [done|]).
    intros b Hb. apply H4 in Hb as [Hb|Hb]; [left|right].
    + by rewrite (growable_blocks _ _ _ _ Hd), <- Htr, <- (growable_blocks _ _ _ _ Hd').
    + destruct (allocated s1 b) eqn:E; [|done]. by rewrite (fr_used _ _ _ _ F b E) in Hb.
  - intros v Hv. assert (v = v0) as -> by by apply (inode_at_inj s1 d).
    apply (framed_trans _ _ (fun b => b ∈ blocks s2 v0) _ s2); [|by apply Md, Hat|].
    + by apply (framed_weaken _ _ _ _ _ _ F).
    + intros b _. by rewrite (growable_blocks _ _ _ _ Hd'), Htr, (growable_blocks _ _ _ _ Hd).
  - intros k Hk. apply (mi_room _ _ _ _ _ Md). by apply (room_groups s1).
  - intros k Hk Hl. apply (mi_left _ _ _ _ _ Md); [done|]. apply (inodes_left_keep s1); [by rewrite Hsb|by rewrite Hg|done].
Qed.

Lemma new_inode_mode mode : 0 <= mode < 2 ^ 16 -> i_mode (new_inode mode) = mode.
Proof. intros H. change (u16 mode = mode). by apply u16_small. Qed.

(** The steps behind the lookup of the directory. *)
Lemma create_in T s d M name mode :
  tree_ok s T -> caches T s -> T !! d = Some M -> path_name name -> 0 <= mode < 2 ^ 16 -> can_create s d -> M !! name = None ->
  exists s1 last s2 j s3, inode_lookup_in (ip_of d) name s = Ret (None, last) s1
    /\ alloc_inode mode s1 = Ret (Some (ip_of j, j)) s2
    /\ dentry_create last (ip_of d) name j mode s2 = Ret FS_SUCCESS s3
    /\ ~ in_tree T j /\ made_in s s3 d j mode
    /\ tree_ok s3 (add_entry T d M name j (S_ISDIR mode)) /\ caches (add_entry T d M name j (S_ISDIR mode)) s3.
Proof.
  intros Ht Hc HT (Hne & Hnul & Hlen) Hmode Hcan Hnone.
  destruct (to_dir _ _ _ _ Ht HT) as (v & n & Hv & Hdir & dss & D & Hnd & HM).
  destruct (inode_lookup_in_ok s (ip_of d) v n dss name D) as (s1 & last & H1 & Hs1 & D1 & L1).
  rewrite (dir_map_lookup _ _ (dir_ok_fits _ _ _ _ _ D) Hne), HM, Hnone in H1.
  pose proof (tree_ok_same _ _ _ Ht Hs1) as Ht1. pose proof (inode_at_same _ _ _ _ Hv Hs1) as Hv1.
  assert (Hcan1 : can_create s1 d).
  { destruct Hs1 as [_ (st & -> & Hs & _)]. by apply (can_create_groups s). }
  destruct Hcan1 as (R1 & I1 & Hsp). destruct (Hsp v Hv1) as [Hb Hsz]. rewrite (gb_blocks _ _ _ _ (do_grow _ _ _ _ _ D1)) in Hb, Hsz.
  rewrite Z.mul_comm, Z.div_mul in Hsz by lia.
  destruct (alloc_inode_ok s1 mode) as (j & s2 & H2 & Md); [apply (tree_wf _ _ Ht1)|apply (ia_ipg _ _ _ Hv1)|done|].
  pose proof (tree_ok_made _ _ _ _ Md _ Ht1) as Ht2. pose proof (made_dir _ _ _ _ Md _ _ _ _ Hv1 D1) as D2.
  pose proof (do_grow _ _ _ _ _ D1) as B1. pose proof (do_grow _ _ _ _ _ D2) as B2.
  assert (Hjn : ~ in_tree T j).
  { intros Hin. destruct (to_node _ _ Ht1 j Hin) as (u & Hu & _). by apply (im_new _ _ _ _ Md u). }
  assert (Hblk : forall m, 0 <= m < n -> blk s2 v m = blk s1 v m).
  { intros m Hm. destruct (growable_frame s1 s2 (ip_of d) v n B1) as (_ & _ & Hbl); [apply Md|apply B2|by rewrite (im_store _ _ _ _ Md)
      |apply B2|intros b _; apply (made_fview _ _ _ _ Md)|intros b; by rewrite (im_used _ _ _ _ Md)|by apply Hbl]. }
  assert (L2 : last_ok s2 v n last).
  { apply (made_last _ _ _ _ Md); [done|done|]. apply (fo_range _ _ _ (gb_file _ _ _ _ B1)). }
  destruct (dentry_create_ok s2 (ip_of d) v n dss last name j mode D2 L2) as (s3 & v' & n' & dss' & H3 & D3 & E & Hn' & Ha & F & Hnew).
  { by apply (im_room _ _ _ _ Md). }
  { lia. }
  { rewrite (im_store _ _ _ _ Md). lia. }
  { split; [done|lia]. }
  { pose proof (ia_range _ _ _ (im_at _ _ _ _ Md)). lia. }
  assert (Hds : dir_names (concat dss') = dir_names (concat dss ++ [entry name j mode])) by by rewrite E.
  pose proof (im_at _ _ _ _ Md) as Hw.
  assert (Hj3 : inode_at s3 j (new_inode mode)).
  { eapply enter_at; [exact D3|exact F|exact Hw|]. intros ->. by apply (im_new _ _ _ _ Md v). }
  exists s1, last, s2, j, s3. do 3 (split; [done|]). split; [done|].
  assert (Ls : looked s s1) by (apply (looked_same _ s); [apply (tree_inv _ _ Ht)|apply looked_refl, (tree_inv _ _ Ht)|done]).
  split; [|rewrite <- (new_inode_mode mode Hmode) at 1 2; split].
  - apply (looked_made _ s1 _ T _ M); [done|done|done|].
    assert (Hv2 : inode_at s2 d v) by by apply (im_keep _ _ _ _ Md).
    assert (Hu : forall u, inode_at s1 d u -> u = v) by (intros u Hu; by apply (inode_at_inj s1 d)).
    constructor; [done|apply Md| | | |].
    + intros u ->%Hu. exists v'. split; [by eapply enter_dir_at; [exact Hv2|exact D3|exact F]|]. split; [done|].
      split; [rewrite (gb_blocks _ _ _ _ (do_grow _ _ _ _ _ D3)), (gb_blocks _ _ _ _ B1); lia|].
      rewrite (growable_blocks _ _ _ _ (do_grow _ _ _ _ _ D3)), (growable_blocks _ _ _ _ B1). intros b Hbb.
      destruct (made_tree _ _ _ _ Md d v n Hv1 B1) as [_ <-]. rewrite <- (im_used _ _ _ _ Md). by apply Hnew.
    + intros u ->%Hu. rewrite (growable_blocks _ _ _ _ B1). destruct (made_tree _ _ _ _ Md d v n Hv1 B1) as [_ Htr].
      apply (framed_trans _ _ (fun b => b ∈ tree s2 v n) _ s2); [| |intros b _; by rewrite Htr].
      * apply (framed_weaken _ _ _ _ _ _ (imade_framed (fun _ => False) _ _ _ _ (gb_zero _ _ _ _ B1) Md)); [by right|done].
      * apply (framed_weaken _ _ _ _ _ _ (dir_framed _ _ _ _ _ _ (gb_wf _ _ _ _ (do_grow _ _ _ _ _ D3)) (gb_zero _ _ _ _ (do_grow _ _ _ _ _ D3)) F)); [by left|done].
    + intros k Hk. apply (df_room _ _ _ _ _ _ F). by apply (im_room _ _ _ _ Md).
    + intros k Hk Hl. apply (km_left _ _ (df_meta _ _ _ _ _ _ F)). by apply (im_left _ _ _ _ Md).
  - apply (enter_tree T d j n n' M name s2 s3 v (new_inode mode) v' dss'); try done.
    + by apply (im_keep _ _ _ _ Md).
    + rewrite Hds. apply dir_names_entry; [done|done|by rewrite HM].
    + rewrite E. by rewrite dir_map_entry, HM.
  - destruct Hc as [K HK]. exists K.
    assert (Hde : fs_dentry s3 = fs_dentry s).
    { rewrite (km_dentry _ _ (df_meta _ _ _ _ _ _ F)), (im_dentry _ _ _ _ Md). by destruct Hs1 as [_ (st & -> & _)]. }
    rewrite Hde. apply (dc_ok_mono (edge T)); [|done]. intros a b k.
    apply edge_mono; [done|done|]. destruct (T !! j) as [N|] eqn:Ej; [|done]. destruct Hjn. apply (to_in _ _ Ht). by eexists.
Qed.
(** The answer of [inode_create], and the tree that it leaves. *)
Definition created (T : dirs) (path : Path) (mode : Z) (r : Created) (T' : dirs) : Prop :=
  match walk T ROOT_INODE (path_names (path_dir path)) with
  | inl code => r = created_err code /\ T' = T
  | inr d =>
      match T !! d with
      | None => r = created_err FS_NDIR_ERR /\ T' = T
      | Some M =>
          match M !! path_back path with
          | Some j => r = mk_created FS_DUP_ERR (Some (ip_of j)) (Some j) /\ T' = T
          | None => exists j, r = mk_created FS_SUCCESS (Some (ip_of j)) (Some j) /\ ~ in_tree T j
              /\ T' = add_entry T d M (path_back path) j (S_ISDIR mode)
          end
      end
  end.

(** What it leaves alone. *)
Definition create_frame (T : dirs) (path : Path) (mode : Z) (r : Created) (s s' : FS) : Prop :=
  match walk T ROOT_INODE (path_names (path_dir path)) with
  | inl _ => looked s s'
  | inr d =>
      match T !! d ≫= (fun M => M !! path_back path), T !! d with
      | None, Some _ => forall j, cr_index r = Some j -> made_in s s' d j mode
      | _, _ => looked s s'
      end
  end.

Lemma inode_create_ok T s path mode :
  tree_ok s T -> caches T s -> path_valid path = true -> path_empty path = false -> Forall path_name (path_names path) ->
  ends_in_dir T ROOT_INODE (path_names (path_dir path)) -> 0 <= mode < 2 ^ 16 ->
  (forall d, walk T ROOT_INODE (path_names (path_dir path)) = inr d -> is_Some (T !! d) -> can_create s d) ->
  exists r s' T', inode_create path mode s = Ret r s' /\ created T path mode r T' /\ tree_ok s' T' /\ caches T' s'
    /\ create_frame T path mode r s s'.
Proof.
  intros Ht Hc Hv He Hn Hend Hmode Hcan. destruct (path_split path He) as [Hsplit Hvd]. rewrite Hsplit in Hn.
  apply Forall_app in Hn as [Hnd Hnb]. apply Forall_cons in Hnb as [Hnb _].
  destruct (inode_lookup_ok T s (path_dir path) Ht Hc) as (r & s1 & H1 & Ht1 & Hc1 & L1 & Hr); [by rewrite Hvd|done|done|].
  unfold inode_create, created, create_frame. rewrite Hv, He. cbn [negb]. rewrite (bind_ret _ _ _ _ _ H1).
  destruct (walk T ROOT_INODE (path_names (path_dir path))) as [code|d] eqn:Hw.
  { subst r. by exists (created_err code), s1, T. }
  destruct Hr as [parent ->]. cbn [fd_inode].
  assert (Hin : in_tree T d) by (apply (walk_in_tree T _ _ _ Hw); by left).
  destruct (to_node _ _ Ht1 d Hin) as (v & Hvat & _ & Hd). rewrite (bind_ret _ _ _ _ _ (cell_load _ _ _ (ia_cell _ _ _ Hvat))).
  destruct (T !! d) as [M|] eqn:HT; [|rewrite Hd; by exists (created_err FS_NDIR_ERR), s1, T].
  destruct Hd as [Hd [n Hdir]]. rewrite Hd. cbn [negb].
  destruct (M !! path_back path) as [j|] eqn:Hj.
  - destruct Hdir as (dss & D & Hnod & HM). destruct (inode_lookup_in_ok s1 (ip_of d) v n dss (path_back path) D) as (s2 & last & H2 & Hs2 & _).
    rewrite (dir_map_lookup _ _ (dir_ok_fits _ _ _ _ _ D) (proj1 Hnb)), HM, Hj in H2. rewrite (bind_ret _ _ _ _ _ H2).
    pose proof (tree_ok_same _ _ _ Ht1 Hs2) as Ht2. destruct (to_entry s2 T d (path_back path) j Ht2) as (w & Hwat & _).
    { unfold edge. by rewrite HT. }
    rewrite (bind_ret _ _ _ _ _ (get_inode_at _ _ _ Hwat)). eexists _, s2, T. split; [reflexivity|]. split; [done|]. split; [done|].
    split; [destruct Hc1 as [K HK]; exists K; by destruct Hs2 as [_ (st & -> & _)]|]. cbn. rewrite Hj.
    apply (looked_same _ s1); [apply (tree_inv _ _ Ht)|done|done].
  - destruct (looked_groups _ _ L1) as (Hg & Hsb & Hs).
    destruct (create_in T s1 d M (path_back path) mode Ht1 Hc1 HT Hnb Hmode) as (s2 & last & s3 & j & s4 & H2 & H3 & H4 & Hjn & Md & Ht4 & Hc4);
      [by apply (can_create_groups s s1 d); [..|apply Hcan; [|eexists]]|done|].
    rewrite (bind_ret _ _ _ _ _ H2), (bind_ret _ _ _ _ _ H3), (bind_ret _ _ _ _ _ H4).
    eexists _, s4, _. split; [reflexivity|]. split; [by exists j|]. split; [exact Ht4|]. split; [exact Hc4|].
    cbn. rewrite Hj. intros j' [= <-]. by apply (looked_made s s1 _ T d M).
Qed.
End Create.

(** Paths that led somewhere lead there still. *)
Lemma walk_mono (T T' : dirs) names : forall d j,
  (forall a b k, edge T a b = Some k -> edge T' a b = Some k) -> walk T d names = inr j -> walk T' d names = inr j.
Proof.
  induction names as [|x names IH]; intros d j HE; [done|]. cbn [walk]. destruct (edge T d x) as [k|] eqn:Ek; [|done].
  rewrite (HE _ _ _ Ek). by apply IH.
Qed.

Lemma walk_snoc T names x d p j : walk T d names = inr p -> edge T p x = Some j -> walk T d (names ++ [x]) = inr j.
Proof.
  revert d. induction names as [|y names IH]; intros d Hp Hx; cbn [walk app].
  - injection Hp as ->. by rewrite Hx.
  - cbn [walk] in Hp. destruct (edge T d y) as [k|]; [|done]. by apply IH.
Qed.

(** ** A new file system has room *)

Lemma root_free : free_bits (inode_bitmap_ root_group) <> 0.
Proof. apply (free_bits_clear_bit _ 1); [split; vm_compute; congruence|vm_compute; reflexivity]. Qed.

Lemma root_counts : desc_get (desc_off 0) bg_free_inodes_count (fs_super laid_out) <> 0.
Proof. vm_compute. congruence. Qed.

Lemma mount_can_create {clock : Clock} :
  exists s, fs_mount blank = Ret tt s /\ tree_ok s {[ ROOT_INODE := ∅ ]} /\ caches {[ ROOT_INODE := ∅ ]} s /\ can_create s ROOT_INODE.
Proof.
  destruct mount_tree as (s & H & Ht & Hc). exists s. do 3 (split; [assumption|]).
  destruct mount_blank as (s0 & H0 & _ & _ & R & _ & Hg & Hsb & _ & Hib & _). rewrite H in H0. assert (s0 = s) as -> by congruence. clear H0.
  split; [apply (room_le _ _ BLOCKS_PER_GROUP); [exact R|vm_compute; congruence]|]. pose proof (gb_cell _ _ _ _ Hg) as [_ (g & Hgr & _)]. split.
  - exists 0, g. split; [exact Hgr|]. rewrite (Hib g Hgr), Hsb. split; [exact root_free|exact root_counts].
  - intros v Hv. assert (E : v = root_dir).
    { pose proof (cell_load _ _ _ (ia_cell _ _ _ Hv)) as E1. pose proof (cell_load _ _ _ (gb_cell _ _ _ _ Hg)) as E2.
      change (ip_of ROOT_INODE) with root_inode_ in E1. rewrite E1 in E2. by injection E2. }
    rewrite E. pose proof (gb_size _ _ _ _ Hg). change (i_blocks root_dir) with 0. split; [lia|]. change (0 / 8) with 0. lia.
Qed.

(** ** Properties *)

(** C4. Creating a file or directory by path: where the path to the directory
    leads to a directory that does not have the last name, and blocks and
    inodes are left, a new inode is taken, initialised and entered, and the
    tree has just this name more; an existing name is answered with
    FS_DUP_ERR and its inode, a missing or wrong directory with the code of
    the lookup or FS_NDIR_ERR, and the tree stays as it is.  In every case the
    inodes and blocks agree with the tree again, no block belongs to two of
    its inodes, and the cache of names is right. *)
Theorem inode_create_refines {clock : Clock} T s path mode :
  tree_ok s T -> caches T s -> path_valid path = true -> path_empty path = false -> Forall path_name (path_names path) ->
  ends_in_dir T ROOT_INODE (path_names (path_dir path)) -> 0 <= mode < 2 ^ 16 ->
  (forall d, walk T ROOT_INODE (path_names (path_dir path)) = inr d -> can_create s d) ->
  exists r s' T', inode_create path mode s = Ret r s' /\ created T path mode r T' /\ tree_ok s' T' /\ caches T' s'.
Proof.
  intros. destruct (inode_create_ok T s path mode) as (r & s' & T' & E1 & E2 & E3 & E4 & _); [done..|auto|]. by exists r, s', T'.
Qed.

(** C16. A file or directory that was created is found: a lookup of the same
    path after a successful creation answers the new inode, and every path
    that led to an inode before leads to the same one. *)
Theorem inode_create_lookup {clock : Clock} T s path mode d M :
  tree_ok s T -> caches T s -> path_valid path = true -> path_empty path = false -> Forall path_name (path_names path) ->
  ends_in_dir T ROOT_INODE (path_names (path_dir path)) -> 0 <= mode < 2 ^ 16 ->
  walk T ROOT_INODE (path_names (path_dir path)) = inr d -> T !! d = Some M -> M !! path_back path = None -> can_create s d ->
  exists j s1 T' s2 parent, inode_create path mode s = Ret (mk_created FS_SUCCESS (Some (ip_of j)) (Some j)) s1
    /\ inode_lookup path s1 = Ret (inr (mk_found (ip_of j) j parent)) s2
    /\ tree_ok s2 T' /\ caches T' s2
    /\ forall names k, walk T ROOT_INODE names = inr k -> walk T' ROOT_INODE names = inr k.
Proof.
  intros Ht Hc Hv He Hn Hend Hmode Hw HT Hnone Hcan.
  destruct (inode_create_ok T s path mode Ht Hc Hv He Hn Hend Hmode) as (r & s1 & T' & H1 & Hcr & Ht1 & Hc1 & _).
  { intros d' E _. rewrite Hw in E. by injection E as <-. }
  unfold created in Hcr. rewrite Hw, HT, Hnone in Hcr. destruct Hcr as (j & -> & Hjn & ->).
  set (T' := add_entry _ _ _ _ _ _) in *.
  assert (Hj : T !! j = None). { destruct (T !! j) as [N|] eqn:E; [|done]. destruct Hjn. apply (to_in _ _ Ht). by eexists. }
  assert (Hmono : forall names k, walk T ROOT_INODE names = inr k -> walk T' ROOT_INODE names = inr k).
  { intros names k. apply walk_mono. intros a b. by apply edge_mono. }
  destruct (path_split path He) as [Hsplit _].
  assert (HE : edge T' d (path_back path) = Some j) by (unfold T'; by rewrite edge_add, decide_True).
  assert (Hwalk : walk T' ROOT_INODE (path_names path) = inr j).
  { rewrite Hsplit. apply (walk_snoc _ _ _ _ d); [by apply Hmono|done]. }
  destruct (inode_lookup_ok T' s1 path Ht1 Hc1 Hv Hn) as (r & s2 & H2 & Ht2 & Hc2 & _ & Hr).
  { intros pre x p E Hp. rewrite Hsplit in E. apply app_inj_tail in E as [<- <-]. apply Hmono in Hw. rewrite Hw in Hp.
    injection Hp as <-. unfold edge in HE. destruct (T' !! d) as [N|]; [by eexists|done]. }
  rewrite Hwalk in Hr. destruct Hr as [parent ->]. by exists j, s1, T', s2, parent.
Qed.

(** ** Instances of the properties *)

(** A directory "/a" in a file system that has just been mounted. *)
Lemma inode_create_refines_witness :
  exists s s' j, @fs_mount 0 blank = Ret tt s
    /\ @inode_create 0 sample_path S_IFDIR s = Ret (mk_created FS_SUCCESS (Some (ip_of j)) (Some j)) s'
    /\ tree_ok s' (<[j := ∅]> {[ ROOT_INODE := {[ [Byte.x61] := j ]} ]}).
Proof.
  destruct (@mount_can_create 0) as (s & Hm & Ht & Hc & Hcan).
  destruct (@inode_create_refines 0 {[ ROOT_INODE := ∅ ]} s sample_path S_IFDIR Ht Hc) as (r & s' & T' & H & Hr & Ht' & _).
  - reflexivity.
  - reflexivity.
  - change (path_names sample_path) with [[Byte.x61]]. constructor; [|constructor].
    split; [discriminate|]. split; [constructor; [discriminate|constructor]|vm_compute; congruence].
  - change (path_names (path_dir sample_path)) with (@nil (list byte)). intros pre name p E. destruct pre; discriminate E.
  - vm_compute. split; congruence.
  - intros d E. injection E as <-. exact Hcan.
  - destruct Hr as (j & Hr & _ & HT). exists s, s', j. split; [exact Hm|]. split; [rewrite <- Hr; exact H|].
    rewrite HT in Ht'. exact Ht'.
Defined.

Lemma inode_create_lookup_witness :
  exists s j s1 s2 parent, @inode_create 0 sample_path S_IFREG s = Ret (mk_created FS_SUCCESS (Some (ip_of j)) (Some j)) s1
    /\ inode_lookup sample_path s1 = Ret (inr (mk_found (ip_of j) j parent)) s2.
Proof.
  destruct (@mount_can_create 0) as (s & Hm & Ht & Hc & Hcan).
  destruct (@inode_create_lookup 0 {[ ROOT_INODE := ∅ ]} s sample_path S_IFREG ROOT_INODE ∅ Ht Hc) as (j & s1 & T' & s2 & parent & H1 & H2 & _).
  - reflexivity.
  - reflexivity.
  - change (path_names sample_path) with [[Byte.x61]]. constructor; [|constructor].
    split; [discriminate|]. split; [constructor; [discriminate|constructor]|vm_compute; congruence].
  - change (path_names (path_dir sample_path)) with (@nil (list byte)). intros pre name p E. destruct pre; discriminate E.
  - vm_compute. split; congruence.
  - reflexivity.
  - reflexivity.
  - reflexivity.
  - exact Hcan.
  - exists s, j, s1, s2, parent. split; [exact H1|exact H2].
Defined.
