(* ===== verification/Handlers.v ===== *)
(** * The FUSE handlers: src/operation/{meta,dir,attr,symlink,special}.cpp

    Every handler takes the path it is called with as a C string (its bytes
    without the terminator), the caller's identity from [fuse_get_context] and
    the time from [time(0)].  They run one at a time under [_big_lock]. *)

From S2P Require Import Prelude Layout Disk Bitmap PathName Block BlockGroup BlockCache DentryCache.
From S2P Require Import FileSystem FileStatus OpenFiles.

(** [fuse_get_context()] *)
Class Caller : Type := mk_caller { c_uid : Z; c_gid : Z }.

Definition has (mode bit : Z) : bool := negb (Z.land mode bit =? 0).

(** One class of permission bits: [flag &= (mode & bit) || !wanted], thrice. *)
Definition allows (mode rbit wbit xbit : Z) (read write exec : bool) : bool :=
  (has mode rbit || negb read) && (has mode wbit || negb write) && (has mode xbit || negb exec).

(** [bool _check_permission(mode_t mode, int read, int write, int exec, gid_t gid, uid_t uid)] *)
Definition _check_permission {caller : Caller} (mode : Z) (read write exec : bool) (gid uid : Z) : bool :=
  if c_uid =? 0 then true
  else if (c_gid =? gid) && allows mode EXT2_S_IRGRP EXT2_S_IWGRP EXT2_S_IXGRP read write exec then true
  else if (c_uid =? uid) && allows mode EXT2_S_IRUSR EXT2_S_IWUSR EXT2_S_IXUSR read write exec then true
  else allows mode EXT2_S_IROTH EXT2_S_IWOTH EXT2_S_IXOTH read write exec.

(** [bool _check_user(uid_t mode, uid_t uid, int read, int write, int exec)] *)
Definition _check_user {caller : Caller} (mode uid : Z) (read write exec : bool) : bool :=
  if (c_uid =? uid) && allows mode EXT2_S_IRUSR EXT2_S_IWUSR EXT2_S_IXUSR read write exec then true
  else c_uid =? 0.

(** A call of the file system with a C string where a [Path] is expected. *)
Definition with_path {A} (path : list byte) (k : Path -> M FS A) : M OpSt A :=
  on_fs (p ← path_init path; k p).

Definition lookup_path (path : list byte) : M OpSt (RetCode + Found) := with_path path inode_lookup.

(** [if (ret) return Code2Errno(ret);] *)
Definition or_errno {A R} (f : Z -> R) (m : M OpSt (RetCode + A)) : M OpSt (R + A) :=
  r ← m;
  match r with
  | inl code => ret (f (Code2Errno code))
  | inr a => go (mret a)
  end.

Definition code_errno (m : M OpSt RetCode) : M OpSt (Z + unit) :=
  r ← m;
  match r with
  | FS_SUCCESS => go (mret tt)
  | code => ret (Code2Errno code)
  end.

(** [if (fs->inode_lookup(path, &inode)) return err;] *)
Definition or_code {A} (err : Z) (m : M OpSt (RetCode + A)) : M OpSt (Z + A) :=
  r ← m;
  match r with
  | inl _ => ret err
  | inr a => go (mret a)
  end.

(** [if (!c) return err;] *)
Definition guard {R} (c : bool) (err : R) : M OpSt (R + unit) :=
  if c then go (mret tt) else ret err.

Definition copy_update (id : Z) (f : ext2_inode -> ext2_inode) : M OpSt unit :=
  on_fs (iupdate (InCopy id) f).

Section Handlers.
Context {clock : Clock} {caller : Caller}.

Definition permits (i : ext2_inode) (read write exec : bool) : bool :=
  _check_permission (i_mode i) read write exec (i_gid i) (i_uid i).

(** The fields that [fuse_create] and [fuse_mkdir] set. *)
Definition init_attrs (mode : Z) (i : ext2_inode) : ext2_inode :=
  let t := u32 now in
  let i := set_i_mode (u16 mode) i in
  let i := set_i_size 0 i in
  let i := set_i_atime t i in
  let i := set_i_ctime t i in
  let i := set_i_mtime t i in
  let i := set_i_flags 0 i in
  let i := set_i_gid (u16 c_gid) i in
  set_i_uid (u16 c_uid) i.

(** [inode_create(path, &inode, &id, mode)] with its error return. *)
Definition create_path (path : list byte) (mode : Z) : M OpSt (Z + iptr * Z) :=
  c ← with_path path (fun p => inode_create p mode);
  match cr_code c, cr_inode c, cr_index c with
  | FS_SUCCESS, Some ip, Some id => go (mret (ip, id))
  | FS_SUCCESS, _, _ => fail NullDeref
  | code, _, _ => ret (Code2Errno code)
  end.

(** [int fuse_create(const char* path, mode_t mode, struct fuse_file_info* fi)]:
    the code, and [fi->fh]. *)
Definition fuse_create (path : list byte) (mode : Z) : M OpSt (Z * option positive) :=
  r ← create_path path mode;
  match r with
  | inl e => mret (e, None)
  | inr (_, id) =>
      fd ← file_new id;
      ok ← get_cache id;
      if negb ok then mret (- EIO, None)
      else
        _ ← upd_cache fd id;
        f ← file_get fd;
        _ ← file_set fd (init_seek f);
        _ ← copy_update id (init_attrs mode);
        _ ← ic_commit id;
        mret (0, Some fd)
  end.

(** [int fuse_open(const char* path, struct fuse_file_info* fi)] *)
Definition fuse_open (path : list byte) (flags : Z) : M OpSt (Z * option positive) :=
  body (
    fd ←? or_errno (fun e => (e, None)) (lookup_path path);
    inode ← on_fs (iload (fd_inode fd));
    _ ←? guard (permits inode (negb (Z.land flags (Z.lor O_RDONLY O_RDWR) =? 0))
                  (negb (Z.land flags (Z.lor O_WRONLY O_RDWR) =? 0)) false) (- EACCES, None);
    let id := fd_index fd in
    fh ← file_new id;
    ok ← get_cache id;
    _ ← upd_cache fh id;
    f ← file_get fh;
    _ ← file_set fh (init_seek f);
    if negb ok then fail NullDeref
    else
      _ ← copy_update id (fun i => set_i_ctime (u32 now) (set_i_atime (u32 now) i));
      _ ← (if Z.land flags O_ACCMODE =? O_RDONLY then mret tt
           else copy_update id (set_i_mtime (u32 now)));
      go (mret (0, Some fh))).

Definition RENAME_NOREPLACE : Z := 1.
Definition RENAME_EXCHANGE : Z := 2.

(** ["/<a"] *)
Definition exchange_name : list byte := [Byte.x2f; Byte.x3c; Byte.x61].

Definition link_paths (src dst : list byte) : M OpSt RetCode :=
  on_fs (s ← path_init src; d ← path_init dst; inode_link s d).

Definition unlink_path (path : list byte) : M OpSt RetCode := with_path path inode_unlink.

(** [if (!_check_permission(inode->i_mode, 0, 1, 0, ...)) return -EACCES;] *)
Definition writable (fd : Found) : M OpSt (Z + unit) :=
  inode ← on_fs (iload (fd_inode fd));
  guard (permits inode false true false) (- EACCES).

(** [int fuse_rename(const char* oldname, const char* newname, unsigned int flags)] *)
Definition fuse_rename (oldname newname : list byte) (flags : Z) : M OpSt Z :=
  body (
    if flags =? RENAME_EXCHANGE then
      _old ←? or_code (- ENOENT) (lookup_path newname);
      _ ←? writable _old;
      _new ←? or_code (- ENOENT) (lookup_path oldname);
      _ ←? writable _new;
      _ ←? code_errno (link_paths oldname exchange_name);
      _ ←? code_errno (unlink_path oldname);
      _ ←? code_errno (link_paths newname oldname);
      _ ←? code_errno (link_paths oldname newname);
      _ ←? code_errno (unlink_path exchange_name);
      go (mret 0)
    else if flags =? RENAME_NOREPLACE then
      r ← lookup_path newname;
      match r with
      | inr _ => ret (- EEXIST)
      | inl _ =>
          _new ←? or_code (- ENOENT) (lookup_path oldname);
          _ ←? writable _new;
          _ ←? code_errno (link_paths oldname newname);
          _ ←? code_errno (unlink_path oldname);
          go (mret 0)
      end
    else if flags =? 0 then
      _old ←? or_code (- ENOENT) (lookup_path oldname);
      _ ←? writable _old;
      r ← lookup_path newname;
      _ ←? match r with
           | inl _ => go (mret tt)
           | inr _new =>
               _ ←? writable _new;
               code_errno (unlink_path newname)
           end;
      _ ←? code_errno (link_paths oldname newname);
      _ ←? code_errno (unlink_path oldname);
      go (mret 0)
    else ret (- EINVAL)).

(** [int fuse_truncate(...)]: does nothing. *)
Definition fuse_truncate (path : list byte) (offset : Z) : M OpSt Z := mret 0.

(** [fuse_statfs], [fuse_flush] and [fuse_opendir] only answer 0. *)
Definition fuse_statfs (path : list byte) : M OpSt Z := mret 0.

Definition fuse_flush (path : list byte) (fi : option fuse_file_info) : M OpSt Z := mret 0.

Definition fuse_opendir (path : list byte) (fh : option positive) : M OpSt Z := mret 0.

(** [int fuse_link(const char* src, const char* dst)] *)
Definition fuse_link (src dst : list byte) : M OpSt Z :=
  body (
    _ ←? code_errno (link_paths src dst);
    go (mret 0)).

(** [int fuse_unlink(const char* path)] *)
Definition fuse_unlink (path : list byte) : M OpSt Z :=
  body (
    fd ←? or_errno (fun e => e) (lookup_path path);
    let id := fd_index fd in
    ok ← get_cache id;
    s ← get_st;
    ic ← unwrap NullDeref (if (ok : bool) then st_ s !! id else None);
    inode ← on_fs (iload (InCopy id));
    let refused := (2 <=? cnts_ ic) || negb (permits inode false true false) in
    _ ← rel_cache id;
    _ ←? guard (negb refused) (- EACCES);
    _ ←? code_errno (unlink_path path);
    go (mret 0)).

Definition R_OK : Z := 4.
Definition W_OK : Z := 2.
Definition X_OK : Z := 1.
Definition F_OK : Z := 0.

(** [int fuse_access(const char* path, int mode)] *)
Definition fuse_access (path : list byte) (mode : Z) : M OpSt Z :=
  body (
    fd ←? or_errno (fun e => e) (lookup_path path);
    if mode =? F_OK then ret 0
    else
      inode ← on_fs (iload (fd_inode fd));
      _ ←? guard (permits inode (has mode R_OK) (has mode W_OK) (has mode X_OK)) (- EACCES);
      go (mret 0)).

(** [int fuse_utimens(...)]; [tv] is [None] for a null pointer. *)
Definition fuse_utimens (path : list byte) (tv : option (Z * Z)) : M OpSt Z :=
  body (
    fd ←? or_errno (fun e => e) (lookup_path path);
    inode ← on_fs (iload (fd_inode fd));
    _ ←? guard (_check_user (i_mode inode) (i_uid inode) false true false) (- EACCES);
    let id := fd_index fd in
    ok ← get_cache id;
    let '(a_time, m_time) :=
      match tv with
      | Some (a, m) => if a =? 0 then (now, now) else (a, m)
      | None => (now, now)
      end in
    if negb ok then fail NullDeref
    else
      _ ← copy_update id (fun i => set_i_mtime (u32 m_time) (set_i_atime (u32 a_time) i));
      _ ← ic_commit id;
      _ ← rel_cache id;
      go (mret 0)).

(** [int fuse_release(const char* path, struct fuse_file_info* fi)] *)
Definition fuse_release (fi : option fuse_file_info) : M OpSt Z :=
  match fi with
  | None => mret (- EINVAL)
  | Some fi =>
      match _fuse_trans_info fi with
      | None => mret (- EBADF)
      | Some fd =>
          f ← file_get fd;
          _ ← file_delete fd;
          _ ← rel_cache (f_inode_id f);
          mret 0
      end
  end.

(** [int fuse_fsync(const char* path, int datasync, struct fuse_file_info* fi)]:
    [path] is only compared with the null pointer. *)
Definition fuse_fsync (path : option (list byte)) (datasync : bool) (fi : option fuse_file_info) : M OpSt Z :=
  match fi, path with
  | None, _ | _, None => mret (- EINVAL)
  | Some fi, Some _ =>
      match _fuse_trans_info fi with
      | None => mret (- EBADF)
      | Some fd =>
          f ← file_get fd;
          _ ← (if datasync then mret 0 else ic_commit (f_inode_id f));
          _ ← on_fs (fs_flush_index (f_inode_id f));
          mret 0
      end
  end.

(** [int fuse_chown(const char* path, uid_t user, gid_t group, ...)] *)
Definition fuse_chown (path : list byte) (user group : Z) : M OpSt Z :=
  body (
    fd ←? or_errno (fun e => e) (lookup_path path);
    let id := fd_index fd in
    ok ← get_cache id;
    if negb ok then fail NullDeref
    else
      _ ← copy_update id (fun i => set_i_gid (u16 group) (set_i_uid (u16 user) i));
      _ ← ic_commit id;
      _ ← rel_cache id;
      go (mret 0)).

(** [int fuse_chmod(const char* path, mode_t mode, ...)] *)
Definition fuse_chmod (path : list byte) (mode : Z) : M OpSt Z :=
  body (
    fd ←? or_errno (fun e => e) (lookup_path path);
    inode ← on_fs (iload (fd_inode fd));
    _ ←? guard (permits inode true true false) (- EACCES);
    let id := fd_index fd in
    ok ← get_cache id;
    _ ←? guard ok (- EIO);
    _ ← copy_update id (set_i_mode (u16 mode));
    _ ← ic_commit id;
    _ ← rel_cache id;
    go (mret 0)).

(** The fields of [struct stat] that are not constant. *)
Record Stat : Type := mk_stat {
  st_ino : Z; st_mode : Z; st_nlink : Z; st_uid : Z; st_gid : Z;
  st_size : Z; st_blocks : Z; st_atime : Z; st_mtime : Z; st_ctime : Z
}.

(** [int fuse_getattr(const char* path, struct stat* stbuf, ...)]: [stbuf] is
    whether the pointer is not null; the answer has what is put there. *)
Definition fuse_getattr (path : list byte) (stbuf : bool) : M OpSt (Z * option Stat) :=
  body (
    _ ←? guard stbuf (- EINVAL, None);
    fd ←? or_errno (fun e => (e, None)) (lookup_path path);
    let id := fd_index fd in
    ok ← get_cache id;
    _ ←? guard ok (- EIO, None);
    i ← on_fs (iload (InCopy id));
    _ ← rel_cache id;
    go (mret (0, Some (mk_stat id (i_mode i) (i_links_count i) (i_uid i) (i_gid i)
                         (i_size i) (i_blocks i) (i_atime i) (i_mtime i) (i_ctime i))))).

(** [std::string(name, len).c_str()] as a C string. *)
Fixpoint c_str (l : list byte) : list byte :=
  match l with
  | [] => []
  | x :: l' => if bool_decide (x = Byte.x00) then [] else x :: c_str l'
  end.

(** The names of the entries of a directory block that are in use. *)
Definition entry_names (data : list byte) (offs : list Z) : list (list byte) :=
  omap (fun off =>
    let n := getf off de_name_len data in
    if n =? 0 then None else Some (c_str (slice (off + de_name_off) n data))) offs.

Definition dot : list byte := [Byte.x2e].
Definition dotdot : list byte := [Byte.x2e; Byte.x2e].

(** [int fuse_readdir(...)]: the code and the names given to [filler]. *)
Definition fuse_readdir (path : list byte) : M OpSt (Z * list (list byte)) :=
  body (
    r ← lookup_path path;
    match r with
    | inl _ => ret (- ENOENT, [])
    | inr fd =>
        parent ← on_fs (iload (fd_inode fd));
        _ ←? guard (S_ISDIR (i_mode parent)) (- ENOTDIR, []);
        _ ←? guard (permits parent true false false) (- EACCES, []);
        names ← on_fs (visit_inode_blocks (fd_inode fd)
                  (fun _ block acc =>
                     b ← on_store (block_deref block);
                     '(offs, _) ← dentries block;
                     mret (false, acc ++ entry_names (data_ b) offs)) [dot; dotdot]);
        go (mret (0, names))
    end).

(** [int fuse_mkdir(const char* path, mode_t mode)] *)
Definition fuse_mkdir (path : list byte) (mode : Z) : M OpSt Z :=
  body (
    let mode := Z.lor mode S_IFDIR in
    '(ip, id) ←? create_path path mode;
    inode ← on_fs (iload ip);
    _ ←? guard (permits inode true true false) (- EACCES);
    ok ← get_cache id;
    _ ←? guard ok (- EIO);
    _ ← copy_update id (init_attrs mode);
    _ ← ic_commit id;
    _ ← rel_cache id;
    go (mret 0)).

(** [int fuse_rmdir(const char* path)] *)
Definition fuse_rmdir (path : list byte) : M OpSt Z :=
  body (
    fd ←? or_code (- ENOENT) (lookup_path path);
    parent ← on_fs (iload (fd_inode fd));
    _ ←? guard (S_ISDIR (i_mode parent)) (- ENOTDIR);
    _ ←? guard (permits parent true true false) (- EACCES);
    result ← on_fs (visit_inode_blocks (fd_inode fd)
               (fun _ block acc =>
                  b ← on_store (block_deref block);
                  '(offs, _) ← dentries block;
                  let used := existsb (fun off => negb (getf off de_name_len (data_ b) =? 0)) offs in
                  mret (used, if used then false else acc)) true);
    _ ←? guard result (- ENOTEMPTY);
    _ ←? code_errno (unlink_path path);
    go (mret 0)).

(** The bytes of [i_block]. *)
Definition i_block_bytes (i : ext2_inode) : list byte :=
  concat (map (le_split 4) (i_block i)).

Definition set_i_block_bytes (bs : list byte) (i : ext2_inode) : ext2_inode :=
  set_i_block (ld_fields (replicate 15 4%nat) bs) i.

(** [int fuse_symlink(const char* src, const char* dst)] *)
Definition fuse_symlink (src dst : list byte) : M OpSt Z :=
  body (
    _ ←? or_errno (fun e => e) (lookup_path src);
    '(ip, _) ←? create_path dst S_IFLNK;
    if Z.of_nat (length src) <=? 60 then
      _ ← on_fs (iupdate ip (fun i => set_i_block_bytes (splice 0 src (i_block_bytes i)) i));
      go (mret 0)
    else
      r ← on_fs (alloc_block_inode None ip);
      match r with
      | None => ret (Code2Errno FS_ALLOC_ERR)
      | Some (block, block_id) =>
          _ ← on_fs (write_block block block_id src);
          go (mret 0)
      end).

(** [int fuse_readlink(const char* path, char* buf, size_t size)]: the
    buffer is filled with a prefix of the target. *)
Definition fuse_readlink (path : list byte) (size : Z) : M OpSt (Z * list byte) :=
  body (
    fd ←? or_errno (fun e => (e, [])) (lookup_path path);
    inode ← on_fs (iload (fd_inode fd));
    if i_blocks inode =? 0 then
      go (mret (0, take (Z.to_nat size) (c_str (i_block_bytes inode))))
    else
      r ← on_fs (get_block (i_block_at 0 inode));
      match r with
      | None => ret (Code2Errno FS_NOT_FOUND, [])
      | Some block =>
          b ← on_fs (on_store (block_deref block));
          go (mret (0, take (Z.to_nat size) (c_str (data_ b))))
      end).
End Handlers.

(** [fuse_init] and [fuse_destroy] *)
Definition fuse_init {clock : Clock} (d : Disk) : outcome OpSt unit :=
  match fs_mount d with
  | Ret _ s => Ret tt (mk_op s ∅ ∅ 1%positive)
  | Fault f => Fault f
  end.

Definition fuse_destroy (s : OpSt) : outcome Disk unit :=
  match fs_unmount (op_fs s) with
  | Ret _ s => Ret tt (st_disk (fs_store s))
  | Fault f => Fault f
  end.
