(* ===== verification/Entry.v ===== *)
(** * The entry point: src/main.cpp

    [main] opens the log, lets libfuse parse the options and hands it the
    table of handlers.  The functions of libfuse are parameters.  The test
    functions of the file, which [main] has commented out, run here on the
    model. *)

From stdpp Require Import strings.
From S2P Require Import Prelude Layout Disk Bitmap PathName Block BlockGroup BlockCache DentryCache.
From S2P Require Import FileSystem FileStatus OpenFiles Handlers Logging.

Open Scope Z_scope.

(** ** The table of handlers *)

(** The members of [struct fuse_operations] that the code sets; a handler of
    a path takes its C string, one of an open file the pointer to its
    [fuse_file_info]. *)
Record fuse_operations : Type := mk_operations {
  f_init : Disk -> outcome OpSt unit;
  f_create : list byte -> Z -> M OpSt (Z * option positive);
  f_getattr : list byte -> bool -> M OpSt (Z * option Stat);
  f_readdir : list byte -> M OpSt (Z * list (list byte));
  f_open : list byte -> Z -> M OpSt (Z * option positive);
  f_read : Z -> Z -> option fuse_file_info -> M OpSt (Z * list byte);
  f_write : list byte -> Z -> Z -> option fuse_file_info -> M OpSt Z;
  f_mkdir : list byte -> Z -> M OpSt Z;
  f_rmdir : list byte -> M OpSt Z;
  f_link : list byte -> list byte -> M OpSt Z;
  f_unlink : list byte -> M OpSt Z;
  f_destroy : OpSt -> outcome Disk unit;
  f_rename : list byte -> list byte -> Z -> M OpSt Z;
  f_access : list byte -> Z -> M OpSt Z;
  f_release : option fuse_file_info -> M OpSt Z;
  f_fsync : option (list byte) -> bool -> option fuse_file_info -> M OpSt Z;
  f_chmod : list byte -> Z -> M OpSt Z;
  f_symlink : list byte -> list byte -> M OpSt Z;
  f_readlink : list byte -> Z -> M OpSt (Z * list byte);
  f_truncate : list byte -> Z -> M OpSt Z;
  f_utimens : list byte -> option (Z * Z) -> M OpSt Z;
  f_flush : list byte -> option fuse_file_info -> M OpSt Z;
  f_chown : list byte -> Z -> Z -> M OpSt Z
}.

Definition ops {clock : Clock} {caller : Caller} : fuse_operations := {|
  f_init := fuse_init;
  f_create := fuse_create;
  f_getattr := fuse_getattr;
  f_readdir := fuse_readdir;
  f_open := fuse_open;
  f_read := fuse_read;
  f_write := fuse_write;
  f_mkdir := fuse_mkdir;
  f_rmdir := fuse_rmdir;
  f_link := fuse_link;
  f_unlink := fuse_unlink;
  f_destroy := fuse_destroy;
  f_rename := fuse_rename;
  f_access := fuse_access;
  f_release := fuse_release;
  f_fsync := fuse_fsync;
  f_chmod := fuse_chmod;
  f_symlink := fuse_symlink;
  f_readlink := fuse_readlink;
  f_truncate := fuse_truncate;
  f_utimens := fuse_utimens;
  f_flush := fuse_flush;
  f_chown := fuse_chown
|}.

(** ** main *)

Section Main.
Context (fopen : string -> bool).
Context (fuse_opt_parse : list string -> option (list string * bool)).
Context (fuse_opt_add_arg : list string -> string -> option (list string)).
Context (fuse_main : list string -> (Clock -> Caller -> fuse_operations) -> Z).

(** [int main(int argc, char *argv[])]: [fuse_opt_parse] answers the arguments
    that are left and whether [show_help] was set, or -1; the time and the
    caller are known when a handler is called. *)
Definition main (argv : list string) : M Log Z :=
  _ ← logging_open fopen (Some "test.log"%string);
  _ ← __LOG LOG_INFO "main" 118 "log begin";
  match fuse_opt_parse argv with
  | None => mret 1
  | Some (args, show_help) =>
      args ← (if show_help then
                args ← unwrap AssertFail (fuse_opt_add_arg args "--help"%string);
                match args with
                | [] => fail NullDeref
                | _ :: args' => mret (""%string :: args')
                end
              else mret args);
      mret (fuse_main args (fun clock caller => @ops clock caller))
  end.

(** [main] answers 1 when the options are wrong and what [fuse_main] answers
    otherwise; with the help option the name of the program is made empty. *)
Lemma main_answers argv (s : Log) :
  fopen "test.log" = true -> loglevel s = DEFAULT_LOG_LEVEL ->
  (forall args, exists args', fuse_opt_add_arg args "--help"%string = Some (args ++ args')%list) ->
  (forall args help, fuse_opt_parse argv = Some (args, help) -> args <> []) ->
  let log := mk_log DEFAULT_LOG_LEVEL (Some [log_line "[info] " "main" 118 "log begin"]) in
  match fuse_opt_parse argv with
  | None => main argv s = Ret 1 log
  | Some (args, false) => main argv s = Ret (fuse_main args (fun clock caller => @ops clock caller)) log
  | Some (args, true) => exists more,
      main argv s = Ret (fuse_main (""%string :: tail args ++ more)%list (fun clock caller => @ops clock caller)) log
  end.
Proof.
  intros Hf Hl Hadd Hargs log.
  assert (H1 : logging_open fopen (Some "test.log"%string) s = Ret 0 (mk_log DEFAULT_LOG_LEVEL (Some []))).
  { unfold logging_open. rewrite Hf, (bind_ret _ _ _ tt (mk_log (loglevel s) (Some []))) by done. by rewrite Hl. }
  assert (H2 : __LOG LOG_INFO "main" 118 "log begin" (mk_log DEFAULT_LOG_LEVEL (Some [])) = Ret tt log) by done.
  unfold main. destruct (fuse_opt_parse argv) as [[args [|]]|] eqn:Hp.
  - destruct (Hadd args) as [more Hm]. exists more. mstep H1. mstep H2. rewrite Hm. rewrite bind_assoc.
    rewrite (bind_ret _ _ _ (args ++ more)%list log) by done. specialize (Hargs args true eq_refl). by destruct args.
  - mstep H1. by mstep H2.
  - mstep H1. by mstep H2.
Qed.
End Main.

(** ** The test functions *)

(** ["Hello World!"] and its terminator. *)
Definition hello_world : list byte :=
  [Byte.x48; Byte.x65; Byte.x6c; Byte.x6c; Byte.x6f; Byte.x20; Byte.x57; Byte.x6f; Byte.x72; Byte.x6c; Byte.x64; Byte.x21; Byte.x00].

(** [void test_disk()]: what is put into [str]; [buf] is memory of
    [alloc_aligned], with any contents. *)
Definition test_disk (buf : list byte) : M Disk (list byte) :=
  let buf := splice 2048 hello_world buf in
  _ ← __disk_write 0 (slice 2048 2048 buf);
  '(_, bs) ← __disk_read 0 2048;
  mret (take 13 (splice 0 bs buf)).

(** [void test_bitmap()]: the memory of the bitmap. *)
Definition test_bitmap : option (list byte) :=
  let set_all := foldl (fun d i => d ≫= Bitmap.set (Z.of_nat i)) in
  d ← set_all (Some (zeros (4096 * 4))) (seq 0 31);
  d ← Bitmap.set 32 d;
  Bitmap.set 34 d.

(** ["/home/test.txt"] *)
Definition SLASH_HOME : list byte := [Byte.x2f; Byte.x68; Byte.x6f; Byte.x6d; Byte.x65].
Definition TMP : list byte := [Byte.x2f; Byte.x74; Byte.x6d; Byte.x70].
Definition TEST : list byte := [Byte.x2f; Byte.x74; Byte.x65; Byte.x73; Byte.x74].
Definition TXT : list byte := [Byte.x2e; Byte.x74; Byte.x78; Byte.x74].

(** [void test_path()]: the names it prints. *)
Definition test_path {S} : M S (list (list byte)) :=
  p ← path_init (SLASH_HOME ++ TEST ++ TXT);
  mret (path_names p).

(** [delete cache]: [~DentryCache()]. *)
Definition dc_delete : M DentryCache unit :=
  root ← reads root_;
  fl ← reads ring_fuel;
  _ ← release_node fl (Some root);
  dn_free root.

(** [void test_dentry_cache()]: whether the lookups find their names, and the
    cache at the end. *)
Definition test_dentry_cache : outcome DentryCache (list bool) :=
  match DentryCache_init 100 with
  | Fault f => Fault f
  | Ret _ c =>
      (node1 ← dc_insert None [Byte.x41] 1;
       node2 ← dc_insert None [Byte.x42] 2;
       r1 ← dc_lookup None [Byte.x41];
       node3 ← dc_insert (Some node1) [Byte.x43] 3;
       _ ← dc_insert (Some node3) [Byte.x44] 4;
       _ ← dc_insert (Some node2) [Byte.x45] 5;
       r2 ← dc_lookup (Some node3) [Byte.x44];
       r3 ← dc_lookup (Some node3) [Byte.x45];
       r4 ← dc_lookup (Some node1) [Byte.x43];
       _ ← dc_delete;
       mret (map (fun r => bool_decide (is_Some (r : option positive))) [r1; r2; r3; r4])) c
  end.

Section TestFs.
Context {clock : Clock}.

Definition t_create (path : list byte) (mode : Z) : M FS RetCode :=
  p ← path_init path;
  c ← inode_create p mode;
  mret (cr_code c).

Definition t_lookup (path : list byte) : M FS RetCode :=
  p ← path_init path;
  r ← inode_lookup p;
  mret (match r with inl e => e | inr _ => FS_SUCCESS end).

Definition t_unlink (path : list byte) : M FS RetCode :=
  p ← path_init path;
  inode_unlink p.

Definition t_link (src dst : list byte) : M FS RetCode :=
  s ← path_init src;
  d ← path_init dst;
  inode_link s d.

Definition TEST2 : list byte := SLASH_HOME ++ TEST ++ [Byte.x32] ++ TXT.
Definition TEST3 : list byte := SLASH_HOME ++ TEST ++ [Byte.x33] ++ TXT.
Definition TMP_TEST : list byte := SLASH_HOME ++ TMP ++ TEST ++ TXT.

(** The calls of [test_filesystem], with the codes that it logs. *)
Definition test_calls : list (M FS RetCode) :=
  [t_create SLASH_HOME S_IFDIR; t_create (SLASH_HOME ++ TEST ++ TXT) S_IFREG; t_create TEST2 S_IFREG;
   t_create (SLASH_HOME ++ TMP) S_IFDIR; t_create TMP_TEST S_IFREG; t_lookup TMP_TEST; t_unlink (SLASH_HOME ++ TMP);
   t_lookup TMP_TEST; t_link TEST2 TEST3; t_unlink TEST2; t_lookup TEST2; t_create TEST2 S_IFREG;
   t_create (SLASH_HOME ++ TMP ++ [Byte.x32]) S_IFDIR; t_unlink SLASH_HOME].

Fixpoint run_calls (ms : list (M FS RetCode)) : M FS (list RetCode) :=
  match ms with
  | [] => mret []
  | m :: ms' =>
      r ← m;
      l ← run_calls ms';
      mret (r :: l)
  end.

(** [void test_filesystem()]: the codes, and the disk that is left. *)
Definition test_filesystem (d : Disk) : option (list RetCode * Disk) :=
  match fs_mount d with
  | Fault _ => None
  | Ret _ s =>
      match run_calls test_calls s with
      | Fault _ => None
      | Ret l s =>
          match fs_unmount s with
          | Fault _ => None
          | Ret _ s => Some (l, st_disk (fs_store s))
          end
      end
  end.
End TestFs.

(** ** What they show *)

(** Two sectors go to the disk and come back. *)
Lemma test_disk_prints : exists d, test_disk (zeros 4096) (disk_empty BLOCK_SIZE) = Ret hello_world d.
Proof. eexists. vm_compute. reflexivity. Qed.

(** Bits 0 to 30, 32 and 34 are set, in words of 32 bits. *)
Lemma test_bitmap_words :
  (fun d => (Bitmap.word 0 d, Bitmap.word 1 d, Bitmap.find 64 d)) <$> test_bitmap = Some (Some 0x7fffffff, Some 5, Some 31).
Proof. vm_compute. reflexivity. Qed.

(** The names between the separators. *)
Lemma test_path_names (s : unit) : test_path s = Ret [tail SLASH_HOME; (tail TEST ++ TXT)%list] s.
Proof. destruct s. vm_compute. reflexivity. Qed.

(** A name is found below the node it was inserted below and not below
    another, and the destructor frees every node. *)
Lemma test_dentry_cache_frees :
  exists c, test_dentry_cache = Ret [true; true; false; true] c /\ d_nodes c = ∅.
Proof. eexists. split; vm_compute; reflexivity. Qed.

(** Every call succeeds but the lookups of the file below the directory that
    was unlinked and of the name that was unlinked; a directory that is not
    empty is unlinked too. *)
Lemma test_filesystem_codes :
  fst <$> @test_filesystem 0 (disk_empty (2 * MAX_BLOCK_GROUP_SIZE)) = Some
    ([FS_SUCCESS; FS_SUCCESS; FS_SUCCESS; FS_SUCCESS; FS_SUCCESS; FS_SUCCESS; FS_SUCCESS; FS_NOT_FOUND; FS_SUCCESS; FS_SUCCESS;
      FS_NOT_FOUND; FS_SUCCESS; FS_SUCCESS; FS_SUCCESS]).
Proof. vm_compute. reflexivity. Qed.
