(* ===== verification/InodeAttrs.v ===== *)
(** * Attributes of inodes: the InodeCache life cycle of
    include/operation.h and the handlers that change attributes

    [chmod], [chown], [utimens], [mkdir] and [create] take the shared copy of
    an inode from the OpManager, change it, commit it and release it.  The
    copy, the count and the inode table are followed through that sequence. *)

From S2P Require Import Prelude Layout Disk Bitmap PathName Block BlockGroup BlockCache DentryCache.
From S2P Require Import FileSystem FileStatus OpenFiles Handlers.

(** ** Inodes of the table *)

(** Inode [id] is in use, in a loaded table block, and is [v]. *)
Record in_table (s : FS) (id : Z) (g : BlockGroup) (v : ext2_inode) : Prop := {
  it_id : 0 <= id < 2 ^ 32 - 1;
  it_ipg : inodes_per_group (fs_super s) = INODES_PER_GROUP;
  it_group : fs_groups s !! (id / INODES_PER_GROUP) = Some g;
  it_bm : bm_wf (inode_bitmap_ g);
  it_tab : itab_wf g;
  it_used : bm_bit (inode_bitmap_ g) (id mod INODES_PER_GROUP) = true;
  it_value : inode_load (id mod INODES_PER_GROUP) g = Some v
}.

Definition table_ptr (id : Z) : iptr := InTable (id / INODES_PER_GROUP) (id mod INODES_PER_GROUP).

Definition with_groups (gs : gmap Z BlockGroup) (s : FS) : FS :=
  mk_fs (fs_store s) (fs_super s) gs (fs_dentry s) (fs_copies s).

Definition with_copies (cs : gmap Z ext2_inode) (s : FS) : FS :=
  mk_fs (fs_store s) (fs_super s) (fs_groups s) (fs_dentry s) cs.

Lemma in_table_inner s id g v : in_table s id g v -> 0 <= id mod INODES_PER_GROUP < BITS.
Proof. intros H. change BITS with INODES_PER_GROUP. by apply Z.mod_pos_bound. Qed.

Lemma in_table_copies s id g v cs : in_table s id g v -> in_table (with_copies cs s) id g v.
Proof. intros []. by constructor. Qed.

Lemma iload_table s id g v : in_table s id g v -> iload (table_ptr id) s = Ret v s.
Proof.
  intros H. unfold iload, table_ptr. rewrite (bind_ret _ _ _ s s) by done.
  rewrite (it_group _ _ _ _ H). rewrite (bind_ret _ _ _ g s) by done. by rewrite (it_value _ _ _ _ H).
Qed.

(** [get_inode] of a loaded inode changes nothing. *)
Lemma get_inode_table s id g v : in_table s id g v -> get_inode id s = Ret (Some (table_ptr id)) s.
Proof.
  intros H. unfold get_inode. pose proof (it_id _ _ _ _ H) as Hid.
  destruct (Z.eqb_spec id (u32 (-1))) as [E|_].
  { change (u32 (-1)) with 4294967295 in E. change (2 ^ 32) with 4294967296 in Hid. lia. }
  rewrite (bind_ret _ _ _ (fs_super s) s) by done. rewrite (it_ipg _ _ _ _ H).
  rewrite (bind_ret _ _ _ (id / INODES_PER_GROUP) s) by done.
  rewrite (bind_ret _ _ _ tt s).
  2:{ unfold load_group. rewrite (bind_ret _ _ _ (fs_groups s) s) by done. by rewrite (it_group _ _ _ _ H). }
  rewrite (bind_ret _ _ _ (id mod INODES_PER_GROUP) s) by done.
  rewrite (bind_ret _ _ _ (Some (id mod INODES_PER_GROUP)) s); [done|].
  unfold on_group. rewrite (it_group _ _ _ _ H). unfold group_get_inode.
  set (gst := mk_gst _ _ _). rewrite (bind_ret _ _ _ g gst) by done.
  mstep (bm_test_spec gst _ _ (it_bm _ _ _ _ H) (in_table_inner _ _ _ _ H)). rewrite (it_used _ _ _ _ H). cbn [negb].
  pose proof (it_value _ _ _ _ H) as Hv. unfold inode_load in Hv.
  destruct (inode_table_ g !! (id mod INODES_PER_GROUP / INODES_PER_BLOCK)) as [b|] eqn:Hb; [|done].
  rewrite (bind_ret _ _ _ tt gst) by done. unfold gst. cbn.
  rewrite insert_id by apply (it_group _ _ _ _ H). by destruct s as [[] ? ? ? ?].
Qed.

(** Storing an inode changes it and no other. *)
Lemma istore_table s id g v w :
  in_table s id g v -> inode_wf w = true ->
  exists g', istore (table_ptr id) w s
      = Ret tt (with_groups (<[id / INODES_PER_GROUP := g']> (fs_groups s)) s)
    /\ in_table (with_groups (<[id / INODES_PER_GROUP := g']> (fs_groups s)) s) id g' w
    /\ (forall j, j <> id mod INODES_PER_GROUP -> inode_load j g' = inode_load j g)
    /\ block_bitmap_ g' = block_bitmap_ g /\ inode_bitmap_ g' = inode_bitmap_ g /\ desc_ g' = desc_ g.
Proof.
  intros H Hw. destruct (inode_store_loaded (id mod INODES_PER_GROUP) w g) as (g' & Hst & Hd & Hbb & Hib).
  { rewrite (it_value _ _ _ _ H). eauto. }
  assert (Hl : forall j, itab_wf g' /\ inode_load j g' = if bool_decide (j = id mod INODES_PER_GROUP) then Some w else inode_load j g).
  { intros j. by apply (inode_store_load _ _ _ _ _ (it_tab _ _ _ _ H)). }
  exists g'. split; [|split; [|split; [|done]]].
  - unfold istore, table_ptr. rewrite (bind_ret _ _ _ s s) by done. rewrite (it_group _ _ _ _ H).
    rewrite (bind_ret _ _ _ g s) by done. rewrite Hst. by rewrite (bind_ret _ _ _ g' s) by done.
  - constructor; try apply H; cbn [with_groups fs_groups].
    + apply lookup_insert_eq.
    + rewrite Hib. apply H.
    + by apply (Hl 0).
    + rewrite Hib. apply H.
    + destruct (Hl (id mod INODES_PER_GROUP)) as [_ ->]. by rewrite bool_decide_true.
  - intros j Hj. destruct (Hl j) as [_ ->]. by rewrite bool_decide_false.
Qed.

(** ** The life cycle of a copy *)

Definition with_opfs (fs : FS) (s : OpSt) : OpSt := mk_op fs (st_ s) (op_files s) (op_fresh s).

Definition with_st (m : gmap Z InodeCache) (s : OpSt) : OpSt := mk_op (op_fs s) m (op_files s) (op_fresh s).

Lemma on_fs_eq {A} (m : M FS A) s a fs : m (op_fs s) = Ret a fs -> on_fs m s = Ret a (with_opfs fs s).
Proof. intros H. unfold on_fs, zoom. by rewrite H. Qed.

Lemma with_opfs_id s : with_opfs (op_fs s) s = s.
Proof. by destruct s. Qed.

(** The first [get_cache] of an inode copies it. *)
Lemma get_cache_first s id g v :
  in_table (op_fs s) id g v -> st_ s !! id = None ->
  get_cache id s = Ret true (mk_op (with_copies (<[id := v]> (fs_copies (op_fs s))) (op_fs s))
                               (<[id := mk_icache 1 []]> (st_ s)) (op_files s) (op_fresh s)).
Proof.
  intros H Hst. unfold get_cache. rewrite (bind_ret _ _ _ s s) by done. rewrite Hst.
  set (s1 := with_opfs (with_copies (<[id := v]> (fs_copies (op_fs s))) (op_fs s)) s).
  assert (Hc : ic_copy id s = Ret 0 s1).
  { unfold ic_copy. mstep (on_fs_eq _ _ _ _ (get_inode_table _ _ _ _ H)). rewrite with_opfs_id.
    mstep (on_fs_eq _ _ _ _ (iload_table _ _ _ _ H)). rewrite with_opfs_id. done. }
  rewrite bind_assoc. mstep Hc. cbn beta iota. change (0 =? 0) with true. cbn beta iota.
  set (s2 := with_st (<[id := mk_icache 0 []]> (st_ s1)) s1).
  rewrite bind_assoc, (bind_ret _ _ _ tt s2) by done. rewrite (bind_ret _ _ _ true s2) by done. cbn beta iota.
  rewrite (bind_ret _ _ _ s2 s2) by done. cbn [s2 with_st st_]. rewrite lookup_insert_eq.
  rewrite (bind_ret _ _ _ (mk_icache 0 []) s2) by done. unfold mbind, M_bind, set_st, modify_st. cbn. by rewrite insert_insert_eq.
Qed.

(** Changing the copy. *)
Lemma copy_update_eq s id v f :
  fs_copies (op_fs s) !! id = Some v ->
  copy_update id f s = Ret tt (with_opfs (with_copies (<[id := f v]> (fs_copies (op_fs s))) (op_fs s)) s).
Proof.
  intros H. unfold copy_update. apply on_fs_eq. unfold iupdate.
  rewrite (bind_ret _ _ _ v (op_fs s)).
  2:{ unfold iload. rewrite (bind_ret _ _ _ (op_fs s) (op_fs s)) by done. by rewrite H. }
  unfold istore. rewrite (bind_ret _ _ _ (op_fs s) (op_fs s)) by done. by rewrite H.
Qed.

(** [commit] writes the copy into the table. *)
Lemma ic_commit_eq s id g v w :
  in_table (op_fs s) id g v -> fs_copies (op_fs s) !! id = Some w -> inode_wf w = true ->
  exists g', let fs' := with_groups (<[id / INODES_PER_GROUP := g']> (fs_groups (op_fs s))) (op_fs s) in
    ic_commit id s = Ret 0 (with_opfs fs' s) /\ in_table fs' id g' w
    /\ (forall j, j <> id mod INODES_PER_GROUP -> inode_load j g' = inode_load j g)
    /\ block_bitmap_ g' = block_bitmap_ g /\ inode_bitmap_ g' = inode_bitmap_ g /\ desc_ g' = desc_ g.
Proof.
  intros H Hc Hw. destruct (istore_table _ _ _ _ w H Hw) as (g' & Hst & Hin & Hrest).
  exists g'. cbn zeta. split; [|done]. unfold ic_commit.
  mstep (on_fs_eq _ _ _ _ (get_inode_table _ _ _ _ H)). rewrite with_opfs_id.
  assert (Hl : iload (InCopy id) (op_fs s) = Ret w (op_fs s)).
  { unfold iload. rewrite (bind_ret _ _ _ (op_fs s) (op_fs s)) by done. by rewrite Hc. }
  mstep (on_fs_eq _ _ _ _ Hl). rewrite with_opfs_id.
  by mstep (on_fs_eq _ _ _ _ Hst).
Qed.

(** The last [rel_cache] commits the copy and drops it. *)
Lemma rel_cache_last s id g v w :
  in_table (op_fs s) id g v -> fs_copies (op_fs s) !! id = Some w -> inode_wf w = true ->
  st_ s !! id = Some (mk_icache 1 []) ->
  exists g', let gs' := <[id / INODES_PER_GROUP := g']> (fs_groups (op_fs s)) in
    rel_cache id s
    = Ret 0 (mk_op (with_copies (delete id (fs_copies (op_fs s))) (with_groups gs' (op_fs s)))
               (delete id (st_ s)) (op_files s) (op_fresh s))
    /\ in_table (with_groups gs' (op_fs s)) id g' w
    /\ (forall j, j <> id mod INODES_PER_GROUP -> inode_load j g' = inode_load j g)
    /\ block_bitmap_ g' = block_bitmap_ g /\ inode_bitmap_ g' = inode_bitmap_ g /\ desc_ g' = desc_ g.
Proof.
  intros H Hc Hw Hst. destruct (ic_commit_eq s id g v w H Hc Hw) as (g' & Hcm & Hrest).
  exists g'. cbn zeta. split; [|exact Hrest]. unfold rel_cache. rewrite (bind_ret _ _ _ s s) by done. rewrite Hst.
  cbn [cnts_]. change (u32 (1 - 1) =? 0) with true. cbn beta iota zeta. by mstep Hcm.
Qed.

(** [s'] is [s] with inode [id] of group [g] set to [w]: every other inode,
    bitmap, block, copy and handle is the same. *)
Definition only_inode (id : Z) (g : BlockGroup) (w : ext2_inode) (s s' : OpSt) : Prop :=
  exists g', in_table (op_fs s') id g' w
    /\ (forall j, j <> id mod INODES_PER_GROUP -> inode_load j g' = inode_load j g)
    /\ (forall k, k <> id / INODES_PER_GROUP -> fs_groups (op_fs s') !! k = fs_groups (op_fs s) !! k)
    /\ block_bitmap_ g' = block_bitmap_ g /\ inode_bitmap_ g' = inode_bitmap_ g
    /\ fs_store (op_fs s') = fs_store (op_fs s) /\ fs_copies (op_fs s') = fs_copies (op_fs s)
    /\ st_ s' = st_ s /\ op_files s' = op_files s.

(** The sequence that [chmod], [chown] and [utimens] run on an inode that
    is not open (take the shared copy, change it, commit, release): the inode
    in the table becomes the changed one, every other inode, bitmap and block
    stays as it was, and no copy is left behind. *)
Lemma attr_update s id g v f :
  in_table (op_fs s) id g v -> st_ s !! id = None -> fs_copies (op_fs s) !! id = None -> inode_wf (f v) = true ->
  exists s1 s2 s3 s', get_cache id s = Ret true s1 /\ copy_update id f s1 = Ret tt s2
    /\ ic_commit id s2 = Ret 0 s3 /\ rel_cache id s3 = Ret 0 s' /\ only_inode id g (f v) s s'.
Proof.
  intros H Hst Hcp Hw. pose proof (get_cache_first s id g v H Hst) as Hget.
  set (s1 := mk_op _ _ _ _) in Hget.
  assert (H1 : in_table (op_fs s1) id g v) by by apply in_table_copies.
  pose proof (copy_update_eq s1 id v f (lookup_insert_eq _ _ _)) as Hupd. set (s2 := with_opfs _ s1) in Hupd.
  assert (H2 : in_table (op_fs s2) id g v) by by apply in_table_copies.
  destruct (ic_commit_eq s2 id g v (f v) H2 (lookup_insert_eq _ _ _) Hw) as (g3 & Hcm & H3 & Hl3 & Hb3 & Hi3 & _).
  set (s3 := with_opfs _ s2) in Hcm.
  destruct (rel_cache_last s3 id g3 (f v) (f v)) as (g4 & Hrel & H4 & Hl4 & Hb4 & Hi4 & _);
    [exact H3|apply lookup_insert_eq|done|apply lookup_insert_eq|].
  exists s1, s2, s3. eexists. split; [exact Hget|]. split; [exact Hupd|]. split; [exact Hcm|].
  split; [exact Hrel|]. exists g4.
  cbn [op_fs with_copies with_groups fs_groups fs_store fs_copies st_ op_files s3 with_opfs s2 s1].
  split; [by apply in_table_copies|]. split; [intros j Hj; by rewrite Hl4, Hl3|].
  split; [intros k Hk; by rewrite !lookup_insert_ne|].
  split; [congruence|]. split; [congruence|]. split; [done|].
  split; [by rewrite insert_insert_eq, delete_insert_id|]. split; [by rewrite delete_insert_id|done].
Qed.

(** A path that leads to inode [id], which is [v] and is not open. *)
Record closed_file (path : list byte) (s s1 : OpSt) (id : Z) (g : BlockGroup) (v : ext2_inode) : Prop := {
  cf_lookup : exists c, lookup_path path s = Ret (inr (mk_found (table_ptr id) id c)) s1;
  cf_table : in_table (op_fs s1) id g v;
  cf_closed : st_ s1 !! id = None;
  cf_copy : fs_copies (op_fs s1) !! id = None
}.

Lemma inode_in_table_wf s id g v : in_table s id g v -> inode_wf v = true.
Proof.
  intros H. pose proof (it_value _ _ _ _ H) as Hv. unfold inode_load in Hv.
  destruct (inode_table_ g !! _) as [b|] eqn:Hb; [|done]. cbn in Hv. injection Hv as <-.
  apply inode_wf_decode. pose proof (it_tab _ _ _ _ H _ _ Hb) as HL. cbv beta in HL.
  pose proof (slot_off_range (id mod INODES_PER_GROUP)) as [H1 H2].
  rewrite length_slice; [done|done|done|]. rewrite HL. done.
Qed.

(** ** Properties *)

(** [chmod] on a file that is not open: without read and write permission
    it answers -EACCES and changes nothing; otherwise it answers 0, the mode
    of the inode becomes the given one, and every other inode, bitmap, block,
    copy and handle stays as it was. *)
Theorem fuse_chmod_spec {clock : Clock} {caller : Caller} path mode s s1 id g v :
  closed_file path s s1 id g v ->
  if permits v true true false
  then exists s', fuse_chmod path mode s = Ret 0 s' /\ only_inode id g (set_i_mode (u16 mode) v) s1 s'
  else fuse_chmod path mode s = Ret (- EACCES) s1.
Proof.
  intros [[c Hl] Ht Hst Hcp]. pose proof (inode_in_table_wf _ _ _ _ Ht) as Hwf.
  assert (Hload : on_fs (iload (table_ptr id)) s1 = Ret v s1).
  { rewrite (on_fs_eq _ _ _ _ (iload_table _ _ _ _ Ht)). by rewrite with_opfs_id. }
  assert (Hlk : or_errno (fun e => e) (lookup_path path) s = Ret (inr (mk_found (table_ptr id) id c)) s1).
  { unfold or_errno. by mstep Hl. }
  unfold fuse_chmod. destruct (permits v true true false) eqn:Hp.
  - destruct (attr_update s1 id g v (set_i_mode (u16 mode)) Ht Hst Hcp) as (s2 & s3 & s4 & s' & Hg & Hu & Hc & Hr & Ho);
      [by apply inode_wf_set_i_mode|].
    exists s'. split; [|exact Ho]. apply body_go. tstep Hlk. cbn [fd_inode fd_index]. mstep Hload. rewrite Hp.
    rewrite (try_bind_go _ _ _ tt s1) by done. mstep Hg. rewrite (try_bind_go _ _ _ tt s2) by done.
    mstep Hu. mstep Hc. by mstep Hr.
  - apply body_stop. tstep Hlk. cbn [fd_inode fd_index]. mstep Hload. rewrite Hp. by apply try_bind_stop.
Qed.

(** [chown] on a file that is not open sets the owner and the group of
    the inode, at the width of its fields, and changes nothing else; it asks
    for no permission. *)
Theorem fuse_chown_spec {clock : Clock} {caller : Caller} path user group s s1 id g v :
  closed_file path s s1 id g v ->
  exists s', fuse_chown path user group s = Ret 0 s'
    /\ only_inode id g (set_i_gid (u16 group) (set_i_uid (u16 user) v)) s1 s'.
Proof.
  intros [[c Hl] Ht Hst Hcp]. pose proof (inode_in_table_wf _ _ _ _ Ht) as Hwf.
  assert (Hlk : or_errno (fun e => e) (lookup_path path) s = Ret (inr (mk_found (table_ptr id) id c)) s1).
  { unfold or_errno. by mstep Hl. }
  destruct (attr_update s1 id g v (fun i => set_i_gid (u16 group) (set_i_uid (u16 user) i)) Ht Hst Hcp)
    as (s2 & s3 & s4 & s' & Hg & Hu & Hc & Hr & Ho); [auto with wf|].
  exists s'. split; [|exact Ho]. unfold fuse_chown. apply body_go. tstep Hlk. cbn [fd_inode fd_index].
  mstep Hg. cbn [negb]. mstep Hu. mstep Hc. by mstep Hr.
Qed.

(** Every open handle of an inode shares one copy: a second [get_cache]
    counts, and the matching [rel_cache] uncounts, without touching the copy
    or the table. *)
Theorem get_rel_cache_shared s id ic :
  st_ s !! id = Some ic -> 0 < cnts_ ic < 2 ^ 32 - 1 ->
  let s' := with_st (<[id := mk_icache (cnts_ ic + 1) (vec ic)]> (st_ s)) s in
  get_cache id s = Ret true s' /\ rel_cache id s' = Ret 0 s.
Proof.
  intros Hst Hc s'. change (2 ^ 32 - 1) with 4294967295 in Hc. destruct ic as [n v]; cbn [cnts_ vec] in *.
  split.
  - unfold get_cache. rewrite (bind_ret _ _ _ s s) by done. rewrite Hst.
    rewrite (bind_ret _ _ _ true s) by done. cbn beta iota. rewrite (bind_ret _ _ _ s s) by done.
    rewrite Hst. rewrite (bind_ret _ _ _ (mk_icache n v) s) by done. cbn [cnts_ vec].
    rewrite u32_small by lia. done.
  - unfold rel_cache. rewrite (bind_ret _ _ _ s' s') by done. cbn [s' with_st st_]. rewrite lookup_insert_eq.
    cbn [cnts_ vec]. cbn zeta. replace (n + 1 - 1) with n by lia. rewrite u32_small by lia.
    rewrite (proj2 (Z.eqb_neq n 0)) by lia. unfold mbind, M_bind, set_st, modify_st. cbn.
    rewrite insert_insert_eq, insert_id by done. by destruct s.
Qed.

(** ** Instances of the properties *)

#[local] Instance epoch : Clock := 0.

#[local] Instance root_user : Caller := mk_caller 0 0.

(** A new file system, mounted. *)
Definition mounted : OpSt :=
  match fuse_init (disk_empty (2 * MAX_BLOCK_GROUP_SIZE)) with
  | Ret _ s => s
  | Fault _ => mk_op (mk_fs (store_init (disk_empty 0) 0) (mk_super (mk_block 0 []) []) ∅
                       (mk_dcache ∅ 1 1 0 0) ∅) ∅ ∅ 1
  end.

Definition root_group : BlockGroup :=
  default (mk_group 0 (mk_block 0 []) (mk_block 0 []) ∅) (fs_groups (op_fs mounted) !! 0).

Definition root_inode : ext2_inode := default inode_zero (inode_load 0 root_group).

(** The root directory, by the path "/". *)
Lemma root_closed : closed_file [Byte.x2f] mounted mounted 0 root_group root_inode.
Proof.
  constructor.
  - eexists. vm_compute. reflexivity.
  - constructor; try by vm_compute.
    apply (bool_decide_unpack _). by vm_compute.
  - by vm_compute.
  - by vm_compute.
Qed.

Lemma fuse_chmod_spec_witness :
  exists s', fuse_chmod [Byte.x2f] 0x4000 mounted = Ret 0 s'
    /\ only_inode 0 root_group (set_i_mode 0x4000 root_inode) mounted s'.
Proof. exact (fuse_chmod_spec [Byte.x2f] 0x4000 mounted mounted 0 root_group root_inode root_closed). Defined.

Lemma fuse_chown_spec_witness :
  exists s', fuse_chown [Byte.x2f] 1000 1001 mounted = Ret 0 s'
    /\ only_inode 0 root_group (set_i_gid 1001 (set_i_uid 1000 root_inode)) mounted s'.
Proof. exact (fuse_chown_spec [Byte.x2f] 1000 1001 mounted mounted 0 root_group root_inode root_closed). Defined.

Lemma get_rel_cache_shared_witness :
  let s := mk_op (op_fs mounted) {[ 5 := mk_icache 1 [] ]} ∅ 1 in
  let s' := with_st (<[5 := mk_icache 2 []]> (st_ s)) s in
  get_cache 5 s = Ret true s' /\ rel_cache 5 s' = Ret 0 s.
Proof.
  intros s. apply (get_rel_cache_shared s 5 (mk_icache 1 [])); [by vm_compute|by vm_compute].
Defined.
