(* ===== verification/AbstractFs.v ===== *)
(** * The file system that the handlers promise

    An abstract state has directories as maps from names to inode numbers,
    regular files as lists of bytes, permissions, and open handles.  [spec]
    says what a call may answer and what it leaves; [Sessions] shows that the
    handlers of src/operation/ refine it, any number of open files included.
    The numbers of new inodes are left open, everything else is determined. *)

From S2P Require Import Prelude Layout Disk Bitmap PathName Block BlockGroup BlockCache DentryCache DentryTree.
From S2P Require Import FileSystem FileStatus OpenFiles FsBlocks FileData FileWrite FileIO Handlers Entry.
From S2P Require Import DirBlock Directory PathLookup PathCreate.

(** ** States *)

(** Mode, group and user. *)
Abbreviation owner := (Z * Z * Z)%type.

Record afs : Type := mk_afs {
  a_dirs : dirs;
  a_data : gmap Z (list byte);
  a_owner : gmap Z owner;
  a_open : gmap positive Z;
  a_next : positive
}.

(** A file system that has just been created: the root directory. *)
Definition afs_new (root : owner) (next : positive) : afs :=
  mk_afs {[ ROOT_INODE := ∅ ]} ∅ {[ ROOT_INODE := root ]} ∅ next.

(** Inode [j], owned by [o], under a new name: a directory, or an empty file. *)
Definition a_enter (d : Z) (M : gmap (list byte) Z) (name : list byte) (j : Z) (dir : bool) (o : owner) (A : afs) : afs :=
  mk_afs (add_entry (a_dirs A) d M name j dir) (if dir then a_data A else <[j := []]> (a_data A))
    (<[j := o]> (a_owner A)) (a_open A) (a_next A).

(** A new handle on inode [i]. *)
Definition a_opens (i : Z) (A : afs) : afs :=
  mk_afs (a_dirs A) (a_data A) (a_owner A) (<[a_next A := i]> (a_open A)) (Pos.succ (a_next A)).

Definition a_closes (fd : positive) (A : afs) : afs :=
  mk_afs (a_dirs A) (a_data A) (a_owner A) (delete fd (a_open A)) (a_next A).

Definition a_writes (i : Z) (c : list byte) (A : afs) : afs :=
  mk_afs (a_dirs A) (<[i := c]> (a_data A)) (a_owner A) (a_open A) (a_next A).

Definition a_restat (i : Z) (o : owner) (A : afs) : afs :=
  mk_afs (a_dirs A) (a_data A) (<[i := o]> (a_owner A)) (a_open A) (a_next A).

(** ** Calls *)

(** Paths are given by their names; [Mkdir] and [Create] by those of the
    directory and the new one. *)
Inductive call : Type :=
| Mkdir (dir : list (list byte)) (name : list byte) (mode : Z)
| Create (dir : list (list byte)) (name : list byte) (mode : Z)
| Open (path : list (list byte)) (flags : Z)
| Write (fd : positive) (flags : Z) (buf : list byte) (offset : Z)
| Read (fd : positive) (flags size offset : Z)
| Release (fd : positive)
| Getattr (path : list (list byte))
| Access (path : list (list byte)) (mode : Z)
| Chmod (path : list (list byte)) (mode : Z)
| Chown (path : list (list byte)) (user group : Z)
| Utimens (path : list (list byte)) (tv : option (Z * Z))
| Readdir (path : list (list byte)).

Inductive answer : Type :=
| Code (e : Z)
| Handle (e : Z) (fh : option positive)
| Data (e : Z) (bs : list byte)
| Attr (e : Z) (st : option Stat)
| Names (e : Z) (l : list (list byte)).

(** A call with its time and its caller. *)
Record request : Type := mk_request {
  rq_time : Clock;
  rq_caller : Caller;
  rq_call : call
}.

(** The handler of a call, from the table of [main]; [release] does not look at
    the flags. *)
Definition serve (r : request) : M OpSt answer :=
  let clock := rq_time r in
  let caller := rq_caller r in
  match rq_call r with
  | Mkdir dir name mode => e ← f_mkdir ops (path_string (dir ++ [name])) mode; mret (Code e)
  | Create dir name mode => '(e, fh) ← f_create ops (path_string (dir ++ [name])) mode; mret (Handle e fh)
  | Open path flags => '(e, fh) ← f_open ops (path_string path) flags; mret (Handle e fh)
  | Write fd flags buf offset => e ← f_write ops buf (Z.of_nat (length buf)) offset (file_info (Some fd) flags); mret (Code e)
  | Read fd flags size offset => '(e, bs) ← f_read ops size offset (file_info (Some fd) flags); mret (Data e bs)
  | Release fd => e ← f_release ops (file_info (Some fd) 0); mret (Code e)
  | Getattr path => '(e, st) ← f_getattr ops (path_string path) true; mret (Attr e st)
  | Access path mode => e ← f_access ops (path_string path) mode; mret (Code e)
  | Chmod path mode => e ← f_chmod ops (path_string path) mode; mret (Code e)
  | Chown path user group => e ← f_chown ops (path_string path) user group; mret (Code e)
  | Utimens path tv => e ← f_utimens ops (path_string path) tv; mret (Code e)
  | Readdir path => '(e, l) ← f_readdir ops (path_string path); mret (Names e l)
  end.

Fixpoint serve_all (rs : list request) : M OpSt (list answer) :=
  match rs with
  | [] => mret []
  | r :: rs' =>
      a ← serve r;
      l ← serve_all rs';
      mret (a :: l)
  end.

(** ** The specification *)

(** The directory in which a new name is to be entered, or the error. *)
Definition new_place (T : dirs) (dir : list (list byte)) (name : list byte) : RetCode + Z * gmap (list byte) Z :=
  match walk T ROOT_INODE dir with
  | inl e => inl e
  | inr d =>
      match T !! d with
      | None => inl FS_NDIR_ERR
      | Some M => match M !! name with Some _ => inl FS_DUP_ERR | None => inr (d, M) end
      end
  end.

(** What the permission bits of a node let the caller do. *)
Definition may {caller : Caller} (o : owner) (read write exec : bool) : bool :=
  let '(mode, gid, uid) := o in _check_permission mode read write exec gid uid.

(** The owner of what the caller makes. *)
Definition owned {caller : Caller} (mode : Z) : owner := (mode, u16 c_gid, u16 c_uid).

(** The rights that [open] asks for. *)
Definition asks_read (flags : Z) : bool := negb (Z.land flags (Z.lor O_RDONLY O_RDWR) =? 0).
Definition asks_write (flags : Z) : bool := negb (Z.land flags (Z.lor O_WRONLY O_RDWR) =? 0).

Definition stat_owner (st : Stat) : owner := (st_mode st, st_gid st, st_uid st).

Definition spec_call {caller : Caller} (A : afs) (c : call) (r : answer) (A' : afs) : Prop :=
  match c with
  | Mkdir dir name mode =>
      let mode := Z.lor mode S_IFDIR in
      match new_place (a_dirs A) dir name with
      | inl e => r = Code (Code2Errno e) /\ A' = A
      | inr (d, M) => exists j, ~ in_tree (a_dirs A) j
          /\ if may (mode, 0, 0) true true false
             then r = Code 0 /\ A' = a_enter d M name j true (owned mode) A
             else r = Code (- EACCES) /\ A' = a_enter d M name j true (mode, 0, 0) A
      end
  | Create dir name mode =>
      match new_place (a_dirs A) dir name with
      | inl e => r = Handle (Code2Errno e) None /\ A' = A
      | inr (d, M) => exists j, ~ in_tree (a_dirs A) j
          /\ r = Handle 0 (Some (a_next A)) /\ A' = a_opens j (a_enter d M name j false (owned mode) A)
      end
  | Open path flags =>
      match walk (a_dirs A) ROOT_INODE path with
      | inl e => r = Handle (Code2Errno e) None /\ A' = A
      | inr i => exists o, a_owner A !! i = Some o
          /\ if may o (asks_read flags) (asks_write flags) false
             then r = Handle 0 (Some (a_next A)) /\ A' = a_opens i A
             else r = Handle (- EACCES) None /\ A' = A
      end
  | Write fd flags buf offset => exists i c, a_open A !! fd = Some i /\ a_data A !! i = Some c
      /\ r = Code (Z.of_nat (length buf)) /\ A' = a_writes i (splice (write_pos flags offset c) buf c) A
  | Read fd flags size offset => exists i c bs, a_open A !! fd = Some i /\ a_data A !! i = Some c
      /\ let len := Z.of_nat (length c) in
         r = Data (read_len len offset size) bs /\ Z.of_nat (length bs) = read_len len offset size
         /\ take (Z.to_nat (len - offset)) bs = slice offset size c /\ A' = A
  | Release fd => r = Code 0 /\ A' = a_closes fd A
  | Getattr path =>
      match walk (a_dirs A) ROOT_INODE path with
      | inl e => r = Attr (Code2Errno e) None /\ A' = A
      | inr i => exists st, r = Attr 0 (Some st) /\ A' = A /\ st_ino st = i
          /\ a_owner A !! i = Some (stat_owner st)
          /\ forall c, a_data A !! i = Some c -> st_size st = Z.of_nat (length c)
      end
  | Access path mode =>
      match walk (a_dirs A) ROOT_INODE path with
      | inl e => r = Code (Code2Errno e) /\ A' = A
      | inr i => exists o, a_owner A !! i = Some o /\ A' = A
          /\ r = Code (if (mode =? F_OK) || may o (has mode R_OK) (has mode W_OK) (has mode X_OK) then 0 else - EACCES)
      end
  | Chmod path mode =>
      match walk (a_dirs A) ROOT_INODE path with
      | inl e => r = Code (Code2Errno e) /\ A' = A
      | inr i => exists m g u, a_owner A !! i = Some (m, g, u)
          /\ if may (m, g, u) true true false
             then r = Code 0 /\ A' = a_restat i (u16 mode, g, u) A
             else r = Code (- EACCES) /\ A' = A
      end
  | Chown path user group =>
      match walk (a_dirs A) ROOT_INODE path with
      | inl e => r = Code (Code2Errno e) /\ A' = A
      | inr i => exists m g u, a_owner A !! i = Some (m, g, u)
          /\ r = Code 0 /\ A' = a_restat i (m, u16 group, u16 user) A
      end
  | Utimens path tv =>
      match walk (a_dirs A) ROOT_INODE path with
      | inl e => r = Code (Code2Errno e) /\ A' = A
      | inr i => exists m g u, a_owner A !! i = Some (m, g, u) /\ A' = A
          /\ r = Code (if _check_user m u false true false then 0 else - EACCES)
      end
  | Readdir path => A' = A /\
      match walk (a_dirs A) ROOT_INODE path with
      | inl _ => r = Names (- ENOENT) []
      | inr i =>
          match a_dirs A !! i with
          | None => r = Names (- ENOTDIR) []
          | Some M => exists o, a_owner A !! i = Some o
              /\ if may o true false false
                 then exists l, r = Names 0 (dot :: dotdot :: l) /\ NoDup l /\ forall name, name ∈ l <-> is_Some (M !! name)
                 else r = Names (- EACCES) []
          end
      end
  end.

Definition spec (A : afs) (r : request) : answer -> afs -> Prop := spec_call (caller := rq_caller r) A (rq_call r).

Inductive specs : afs -> list request -> list answer -> afs -> Prop :=
| specs_nil A : specs A [] [] A
| specs_cons A r a A1 rs l A2 : spec A r a A1 -> specs A1 rs l A2 -> specs A (r :: rs) (a :: l) A2.

(** ** What a call needs *)

(** Names that fit, on a path whose last name is looked up in a directory. *)
Definition path_pre (T : dirs) (path : list (list byte)) : Prop :=
  Forall plain path /\ Forall path_name path /\ ends_in_dir T ROOT_INODE path.

Definition MAX_HANDLES : Z := 2 ^ 32 - 1.

Definition handles_pre (A : afs) : Prop := Z.of_nat (size (a_open A)) + 1 < MAX_HANDLES.

Definition call_pre (A : afs) (c : call) : Prop :=
  match c with
  | Mkdir dir name mode => path_pre (a_dirs A) dir /\ plain name /\ path_name name
      /\ 0 <= Z.lor mode S_IFDIR < 2 ^ 16 /\ S_ISDIR (Z.lor mode S_IFDIR) = true
  | Create dir name mode => path_pre (a_dirs A) dir /\ plain name /\ path_name name
      /\ 0 <= mode < 2 ^ 16 /\ S_ISREG mode = true /\ handles_pre A
  | Open path flags => path_pre (a_dirs A) path /\ handles_pre A
      /\ forall i, walk (a_dirs A) ROOT_INODE path = inr i -> is_Some (a_data A !! i)
  | Write fd flags buf offset => exists i c, a_open A !! fd = Some i /\ a_data A !! i = Some c
      /\ may_write flags = true /\ 0 < Z.of_nat (length buf) < 2 ^ 31
      /\ 0 <= write_pos flags offset c <= Z.of_nat (length c)
      /\ write_pos flags offset c + Z.of_nat (length buf) + BLOCK_SIZE < 2 ^ 32
  | Read fd flags size offset => is_Some (a_open A !! fd)
      /\ Z.land flags O_ACCMODE <> O_WRONLY /\ 0 <= offset /\ 0 <= size < 2 ^ 31
  | Release fd => is_Some (a_open A !! fd)
  | Getattr path | Access path _ | Chown path _ _ | Utimens path _ | Readdir path => path_pre (a_dirs A) path
  | Chmod path mode => path_pre (a_dirs A) path
      /\ forall i m g u, walk (a_dirs A) ROOT_INODE path = inr i -> a_owner A !! i = Some (m, g, u) ->
           S_ISDIR (u16 mode) = S_ISDIR m /\ S_ISREG (u16 mode) = S_ISREG m
  end.

(** The blocks (in the measure of [cost]) and the new names that it may take. *)
Definition call_blocks (c : call) : Z :=
  match c with Write _ _ buf _ => cost (Z.of_nat (length buf)) | _ => 0 end.

Definition call_names (c : call) : Z :=
  match c with Mkdir _ _ _ | Create _ _ _ => 1 | _ => 0 end.

(** Calls that can be made one after the other with [k] and [m] left. *)
Fixpoint fits (A : afs) (rs : list request) (k m : Z) : Prop :=
  match rs with
  | [] => True
  | r :: rs' =>
      call_pre A (rq_call r) /\ call_blocks (rq_call r) <= k /\ call_names (rq_call r) <= m
      /\ forall a A', spec A r a A' -> fits A' rs' (k - call_blocks (rq_call r)) (m - call_names (rq_call r))
  end.
