(* ===== verification/Steady.v ===== *)
(** * Reading and writing make and close no handles

    A computation is steady when the handles after it are those before it,
    whatever it does to them.  The property composes, so the handlers of
    src/operation/data.cpp have it by the shape of their code. *)

From S2P Require Import Prelude Layout Disk Bitmap PathName Block BlockGroup BlockCache DentryCache.
From S2P Require Import FileSystem FileStatus OpenFiles.

Definition same_handles (s s' : OpSt) : Prop :=
  op_fresh s' = op_fresh s /\ forall q, is_Some (op_files s' !! q) <-> is_Some (op_files s !! q).

#[global] Instance same_handles_equiv : Equivalence same_handles.
Proof.
  split; [by split|intros s s' [H1 H2]; by split|]. intros s1 s2 s3 [H1 H2] [K1 K2].
  split; [congruence|]. intros q. by rewrite K2, H2.
Qed.

Definition steady {A} (m : M OpSt A) : Prop := forall s a s', m s = Ret a s' -> same_handles s s'.

Create HintDb steady.

Lemma steady_ret {A} (a : A) : steady (mret a).
Proof. by intros s b s' [= _ <-]. Qed.

Lemma steady_fail {A} e : steady (fail e : M OpSt A).
Proof. by intros s b s'. Qed.

Lemma steady_bind {A B} (m : M OpSt A) (k : A -> M OpSt B) : steady m -> (forall a, steady (k a)) -> steady (m ≫= k).
Proof. intros Hm Hk s b s' H. minv H as a s1 H1. etransitivity; [by apply (Hm _ _ _ H1)|by apply (Hk _ _ _ _ H)]. Qed.

Lemma steady_on_fs {A} (m : M FS A) : steady (on_fs m).
Proof. intros s a s'. unfold on_fs, zoom. destruct (m (op_fs s)); [|done]. by intros [= _ <-]. Qed.

Lemma steady_early {R A} (r : R) : steady (ret r : M OpSt (R + A)).
Proof. apply steady_ret. Qed.

Lemma steady_go {R A} (m : M OpSt A) : steady m -> steady (go m : M OpSt (R + A)).
Proof. intros Hm s a s'. unfold go, fmap, M_fmap. intros H. minv H as x s1 H1. injection H as _ <-. by apply (Hm _ _ _ H1). Qed.

#[export] Hint Resolve steady_ret steady_fail steady_bind steady_on_fs steady_early steady_go : steady.

Lemma steady_try {R A B} (m : M OpSt (R + A)) (k : A -> M OpSt (R + B)) :
  steady m -> (forall a, steady (k a)) -> steady (try_bind m k).
Proof. intros Hm Hk. unfold try_bind. apply steady_bind; [done|]. intros []; auto with steady. Qed.

Lemma steady_body {R} (m : M OpSt (R + R)) : steady m -> steady (body m).
Proof. intros Hm. unfold body. auto with steady. Qed.

Lemma steady_if {A} (b : bool) (m1 m2 : M OpSt A) : steady m1 -> steady m2 -> steady (if b then m1 else m2).
Proof. by destruct b. Qed.

Lemma steady_check {A} m (f : Z -> A) : steady m -> steady (check m f).
Proof. intros Hm. unfold check. apply steady_bind; [done|]. intros r. apply steady_if; auto with steady. Qed.

#[export] Hint Resolve steady_try steady_body steady_if steady_check : steady.

(** ** Handles *)

Lemma file_get_inv fd s f s' : file_get fd s = Ret f s' -> s' = s /\ op_files s !! fd = Some f.
Proof.
  unfold file_get. intros H. minv H as x s1 H1. injection H1 as <- <-.
  destruct (op_files s !! fd); [|done]. by injection H as -> <-.
Qed.

Lemma steady_get fd : steady (file_get fd).
Proof. intros s f s' [-> _]%file_get_inv. done. Qed.

(** A handle that exists is changed. *)
Lemma set_same fd f s : is_Some (op_files s !! fd) ->
  same_handles s (mk_op (op_fs s) (st_ s) (<[fd := f]> (op_files s)) (op_fresh s)).
Proof.
  intros Hf. split; [done|]. intros q. cbn. destruct (decide (q = fd)) as [->|Hne]; [rewrite lookup_insert_eq; split; eauto|].
  by rewrite lookup_insert_ne.
Qed.

#[export] Hint Resolve steady_get : steady.

Lemma steady_inode fd : steady (file_inode fd).
Proof. unfold file_inode. auto with steady. Qed.

Lemma steady_update fd g : steady (file_inode_update fd g).
Proof. unfold file_inode_update. auto with steady. Qed.

#[export] Hint Resolve steady_inode steady_update : steady.

Lemma steady_move fd op : steady (move fd op).
Proof.
  intros s r s' H. unfold move in H. minv H as f s1 H1. minv H as i s2 H2. minv H as [r0 f0] s3 H3. minv H as u s4 H4.
  injection H as _ <-. injection H4 as _ <-. apply file_get_inv in H1 as [-> Hf].
  assert (E : same_handles s s3) by (etransitivity; [by apply (steady_inode _ _ _ _ H2)|by apply (steady_on_fs _ _ _ _ H3)]).
  etransitivity; [exact E|]. apply set_same, E. by exists f.
Qed.

Lemma steady_block fd dirty offset buf csz : steady (file_block fd dirty offset buf csz).
Proof. unfold file_block. auto with steady. Qed.

Lemma steady_alloc fd : steady (file_alloc fd).
Proof. unfold file_alloc. auto with steady. Qed.

Lemma steady_size fd : steady (file_size fd).
Proof. unfold file_size. auto with steady. Qed.

#[export] Hint Resolve steady_move steady_block steady_alloc steady_size : steady.

Lemma steady_upd_all id : steady (upd_all id).
Proof.
  intros s [] s' H. unfold upd_all in H. minv H as x s1 H1. injection H1 as <- <-. minv H as ic s1 H1.
  assert (s1 = s) as -> by (destruct (st_ s !! id); [by injection H1 as _ <-|done]). clear H1.
  revert s H. induction (vec ic) as [|q l IH]; intros s H; cbn [fslist_iter] in H; [by injection H as <-|].
  minv H as u s2 H2. minv H2 as y s3 H3. injection H3 as <- <-. minv H2 as f s3 H3. injection H2 as _ <-.
  destruct (op_files s !! q) as [g|] eqn:Hq; [|done]. injection H3 as -> <-.
  etransitivity; [by apply (set_same q (set_update_flag true f)); eexists|]. by apply IH.
Qed.

#[export] Hint Resolve steady_upd_all : steady.

(** ** The loops and the calls *)

Ltac steady := repeat match goal with
  | |- steady (mbind _ _) => apply steady_bind; [|intros ?]
  | |- steady (try_bind _ _) => apply steady_try; [|intros ?]
  | |- steady (if _ then _ else _) => apply steady_if
  | |- steady (match ?o with None => _ | Some _ => _ end) => destruct o
  | |- steady _ => solve [auto with steady]
  end.

Lemma steady_read_loop fuel : forall fd isize offset size acc, steady (read_loop fuel fd isize offset size acc).
Proof. induction fuel as [|fuel IH]; intros; cbn [read_loop]; steady. Qed.

Lemma steady_grow_loop fuel : forall fd offset, steady (grow_loop fuel fd offset).
Proof. induction fuel as [|fuel IH]; intros; cbn [grow_loop]; steady. Qed.

Lemma steady_write_loop fuel : forall fd buf offset size cnt, steady (write_loop fuel fd buf offset size cnt).
Proof. induction fuel as [|fuel IH]; intros; cbn [write_loop]; unfold extend_size; steady. Qed.

Lemma steady_overwrite_loop fuel : forall fd buf isize offset size cnt, steady (overwrite_loop fuel fd buf isize offset size cnt).
Proof. induction fuel as [|fuel IH]; intros; cbn [overwrite_loop]; steady. Qed.

#[export] Hint Resolve steady_read_loop steady_grow_loop steady_write_loop steady_overwrite_loop : steady.

Lemma steady_read size offset fi : steady (fuse_read size offset fi).
Proof. unfold fuse_read, copy_to_buf. destruct fi as [[[fd|] flags]|]; [|apply steady_ret..]. apply steady_if; [apply steady_ret|]. apply steady_body. steady. Qed.

Lemma steady_write buf size offset fi : steady (fuse_write buf size offset fi).
Proof.
  unfold fuse_write, file_write, extend_size. destruct fi as [[[fd|] flags]|]; [|apply steady_ret..].
  apply steady_if; [apply steady_ret|]. apply steady_if; [apply steady_ret|]. apply steady_body. steady.
Qed.
