(* ===== verification/OpenTree.v ===== *)
(** * Open files and the tree of directories

    An open file has two inodes: the one of the table, which paths and the
    tree of directories lead to, and the shared copy that its handles read and
    write.  The copy is ahead of the table: it has the same first blocks and
    may have more.  [rep] relates a state of the program to an abstract file
    system, with the copy of an open file as its contents; what is not touched
    by an operation is kept by [framed]. *)

From S2P Require Import Prelude Layout Disk Bitmap PathName Block BlockGroup BlockCache DentryCache DentryTree.
From S2P Require Import FileSystem FileStatus OpenFiles FsBlocks FileData FsPointers FsAlloc FileBlocks FsInodes FileGrow FileWrite FileIO Handlers.
From S2P Require Import DirBlock Directory PathLookup Frames PathCreate AbstractFs.

(** ** Handles *)

(** A handle whose cursor was at most marked to be recomputed. *)
Definition flagged (g' g : FileStatus) : Prop := g' = g \/ g' = set_update_flag true g.

Lemma flagged_id g' g : flagged g' g -> f_inode_id g' = f_inode_id g.
Proof. by intros [-> | ->]. Qed.

(** A handle on a file of [n] blocks: its cursor is on one of them, or it is
    new and will be computed. *)
Record handle_ok (s : FS) (w : ext2_inode) (n : Z) (f : FileStatus) : Prop := {
  ho_pos : 0 <= block_id_in_file_ f;
  ho_place : block_id_in_file_ f < n \/ cache_update_flag_ f = true /\ block_id_in_file_ f = 0;
  ho_cursor : cache_update_flag_ f = false -> cursor_ok fs_word s w f
}.

Lemma handle_keep s w n g s' w' n' g' :
  handle_ok s w n g -> file_ok s w n -> keeps_tree s w s' w' n -> n <= n' -> file_ok s' w' n' -> flagged g' g ->
  handle_ok s' w' n' g'.
Proof.
  intros [Hp Hpl Hc] Hf K Hle Hf' Hg. pose proof (fo_range _ _ _ Hf) as Hr.
  assert (H : handle_ok s' w' n' g).
  { constructor; [done|destruct Hpl as [?|?]; [left; lia|by right]|]. intros Hfl. destruct Hpl as [Hlt|[Ht _]]; [|congruence].
    apply (cursor_tree s w _ _ n); [done| |done|done|auto]. apply (file_ok_le _ _ n n'); [done|lia|lia]. }
  destruct Hg as [-> | ->]; [done|]. destruct H as [H1 H2 H3]. constructor; [done| |done].
  destruct H2 as [?|[? ?]]; [by left|by right].
Qed.

Lemma handle_new s w n i : handle_ok s w n (init_seek (FileStatus_init i)).
Proof. by constructor; [|right|]. Qed.

Lemma resolve_first s w : resolve fs_word s w 0 = Some (Some (i_block_at 0 w)).
Proof. reflexivity. Qed.

Lemma handle_ready s w n f :
  handle_ok s w n f -> file_ok s w n -> ready s w f /\ (n = 0 \/ block_id_in_file_ f < n).
Proof.
  intros [Hp Hpl Hc] Hf. pose proof (fo_range _ _ _ Hf) as Hr. unfold MAX_BLOCKS in Hr. split.
  - split; [rewrite IB14; destruct Hpl as [?|[_ ?]]; lia|]. split; [|done]. destruct Hpl as [Hlt|[_ ->]]; eexists.
    + by apply (file_ok_resolve _ _ n).
    + apply resolve_first.
  - destruct Hpl as [?|[_ ->]]; [by right|]. destruct (Z.eq_dec n 0); [by left|right; lia].
Qed.

(** ** Open files *)

Definition owner_of (v : ext2_inode) : owner := (i_mode v, i_gid v, i_uid v).

Record opened (s : OpSt) (i : Z) (ic : InodeCache) (w : ext2_inode) (n : Z) : Prop := {
  op_grow : growable (op_fs s) (InCopy i) w n;
  op_fits : i_size w <= BLOCK_SIZE * n;
  op_count : cnts_ ic = Z.of_nat (length (vec ic));
  op_nodup : NoDup (vec ic);
  op_vec : forall fd, fd ∈ vec ic <-> exists f, op_files s !! fd = Some f /\ f_inode_id f = i;
  op_handles : forall fd f, op_files s !! fd = Some f -> f_inode_id f = i -> handle_ok (op_fs s) w n f
}.

Lemma opened_file s i ic w n fd f :
  opened s i ic w n -> st_ s !! i = Some ic -> op_files s !! fd = Some f -> f_inode_id f = i -> open_file s fd f w n.
Proof.
  intros O Hic Hf Hi. destruct (handle_ready _ _ _ _ (op_handles _ _ _ _ _ O fd f Hf Hi) (gb_file _ _ _ _ (op_grow _ _ _ _ _ O))) as [Hr Hp].
  constructor; [constructor; [done|rewrite Hi; apply O|apply O]|done|done|]. exists ic. rewrite Hi. split; [done|].
  intros q Hq. apply (op_vec _ _ _ _ _ O) in Hq as (g & Hg & _). by exists g.
Qed.

(** The copy [w] of [n'] blocks is ahead of [v] of [n] blocks. *)
Definition ahead (s : FS) (v : ext2_inode) (n : Z) (w : ext2_inode) (n' : Z) : Prop :=
  n <= n' /\ keeps_tree s v s w n.

Lemma ahead_tree s v n w n' b : ahead s v n w n' -> n' <= MAX_BLOCKS -> 0 <= n -> b ∈ tree s v n -> b ∈ tree s w n'.
Proof.
  intros [Hle K] Hm Hn. unfold tree. rewrite <- (keeps_metas _ _ _ _ _ K), <- (keeps_datas _ _ _ _ _ K) by lia.
  rewrite !elem_of_app. intros [Hb|Hb]; [left; by apply (metas_le _ _ n)|right].
  apply elem_of_datas in Hb as (m & Hmn & ->). apply elem_of_datas. exists m. split; [lia|done].
Qed.

Lemma keeps_self s v s' w n : keeps_tree s v s' w n -> keeps_tree s v s' v n.
Proof. intros [K1 K2 K3 K4 K5 K6]. by constructor. Qed.

(** The copy moves on. *)
Lemma ahead_step s v n w n' s' w' n'' :
  ahead s v n w n' -> keeps_tree s w s' w' n' -> n' <= n'' -> ahead s' v n w' n'' /\ keeps_tree s v s' v n.
Proof.
  intros [Hle K] K2 Hle2. pose proof (keeps_trans _ _ _ _ _ _ _ K (keeps_le _ _ _ _ _ _ K2 Hle)) as K3.
  split; [|by apply (keeps_self _ _ _ w')]. split; [lia|]. constructor; [apply (kt_direct _ _ _ _ _ K3)|apply (kt_12 _ _ _ _ _ K3)|apply (kt_13 _ _ _ _ _ K3)|done..].
Qed.

(** ** The contents of a file *)

(** The inode that reads and writes go to, with its number of blocks. *)
Definition current (s : OpSt) (i : Z) (w : ext2_inode) (n : Z) : Prop :=
  match st_ s !! i with
  | None => inode_at (op_fs s) i w /\ growable (op_fs s) (ip_of i) w n
  | Some _ => growable (op_fs s) (InCopy i) w n
  end.

Lemma growable_inj s ip w n w' n' : growable s ip w n -> growable s ip w' n' -> w = w' /\ n = n'.
Proof.
  intros G G'. pose proof (cell_load _ _ _ (gb_cell _ _ _ _ G)) as E. rewrite (cell_load _ _ _ (gb_cell _ _ _ _ G')) in E.
  injection E as ->. split; [done|]. pose proof (gb_blocks _ _ _ _ G). pose proof (gb_blocks _ _ _ _ G'). lia.
Qed.

Lemma current_inj s i w n w' n' : current s i w n -> current s i w' n' -> w = w' /\ n = n'.
Proof.
  unfold current. destruct (st_ s !! i); [by apply growable_inj|]. intros [_ G] [_ G']. by apply (growable_inj _ _ _ _ _ _ G G').
Qed.

Lemma current_file s i w n : current s i w n -> file_ok (op_fs s) w n.
Proof. unfold current. destruct (st_ s !! i); [|intros [_ G]]; [intros G|]; apply (gb_file _ _ _ _ G). Qed.

Definition owns (s : OpSt) (i b : Z) : Prop := exists w n, current s i w n /\ b ∈ tree (op_fs s) w n.

Lemma owns_used s i b : owns s i b -> allocated (op_fs s) b = true.
Proof. intros (w & n & Hc & Hb). by apply (fo_used _ _ _ (current_file _ _ _ _ Hc)). Qed.

(** The regular file [i] has contents [c]. *)
Definition file_rep (s : OpSt) (i : Z) (c : list byte) : Prop :=
  exists v n, inode_at (op_fs s) i v /\ S_ISREG (i_mode v) = true /\ growable (op_fs s) (ip_of i) v n
    /\ match st_ s !! i with
       | None => i_size v <= BLOCK_SIZE * n /\ holds s v c
       | Some ic => exists w n', opened s i ic w n' /\ holds s w c /\ ahead (op_fs s) v n w n' /\ owner_of w = owner_of v
       end.

Lemma file_current s i c : file_rep s i c -> exists w n, current s i w n /\ i_size w <= BLOCK_SIZE * n /\ holds s w c.
Proof.
  intros (v & n & Hv & _ & G & H). unfold current. destruct (st_ s !! i) as [ic|].
  - destruct H as (w & n' & O & Hh & _). exists w, n'. split; [apply O|]. split; [apply O|done].
  - exists v, n. tauto.
Qed.

Lemma holds_keep P B s s' ip w n c :
  framed P B (op_fs s) (op_fs s') -> growable (op_fs s) ip w n -> (forall b, b ∈ tree (op_fs s) w n -> ~ B b) ->
  i_size w <= BLOCK_SIZE * n -> holds s w c -> holds s' w c.
Proof.
  intros F G Hb Hsz [HL Hc]. split; [done|]. intros k Hk. rewrite Hc by done.
  symmetry. apply (framed_bytes _ _ _ _ F ip w n); [done|done|lia].
Qed.

(** ** What an operation on other files keeps *)

(** Handles of inode [i] are the same, up to marks. *)
Record handles_kept (s s' : OpSt) (i : Z) : Prop := {
  hk_st : st_ s' !! i = st_ s !! i;
  hk_from : forall fd f', op_files s' !! fd = Some f' -> f_inode_id f' = i -> exists f, op_files s !! fd = Some f /\ flagged f' f;
  hk_to : forall fd f, op_files s !! fd = Some f -> f_inode_id f = i -> exists f', op_files s' !! fd = Some f' /\ flagged f' f
}.

Lemma handles_kept_refl s s' i : st_ s' = st_ s -> op_files s' = op_files s -> handles_kept s s' i.
Proof.
  intros H1 H2. constructor; [by rewrite H1| |]; rewrite H2; intros fd f Hf _; exists f; (split; [done|by left]).
Qed.

Section Keep.
Context (P : iptr -> Prop) (B : Z -> Prop) (s s' : OpSt) (F : framed P B (op_fs s) (op_fs s')) (i : Z).
Hypothesis HP : ~ P (ip_of i) /\ (is_Some (st_ s !! i) -> ~ P (InCopy i)).
Hypothesis HB : forall b, owns s i b -> ~ B b.
Hypothesis HK : handles_kept s s' i.

Lemma current_keep w n : current s i w n -> current s' i w n /\ tree (op_fs s') w n = tree (op_fs s) w n.
Proof.
  intros Hc. assert (Hb : forall b, b ∈ tree (op_fs s) w n -> ~ B b) by (intros b Hb; apply HB; by exists w, n).
  unfold current in *. rewrite (hk_st _ _ _ HK). destruct (st_ s !! i) as [ic|].
  - destruct HP as [_ HI]. destruct (framed_grow _ _ _ _ F (InCopy i) w n Hc) as (G & Ht & _); [by apply HI; eexists|done|done].
  - destruct Hc as [Hv G]. destruct (framed_grow _ _ _ _ F (ip_of i) w n G) as (G' & Ht & _); [tauto|done|].
    split; [|done]. split; [apply (framed_inode _ _ _ _ F); tauto|done].
Qed.

Lemma owns_keep w n b : current s i w n -> owns s' i b -> owns s i b.
Proof.
  intros Hc (w' & n' & Hc' & Hb). destruct (current_keep w n Hc) as [Hc1 Ht].
  destruct (current_inj _ _ _ _ _ _ Hc1 Hc') as [<- <-]. exists w, n. by rewrite <- Ht.
Qed.

Lemma opened_keep ic w n :
  st_ s !! i = Some ic -> opened s i ic w n -> opened s' i ic w n.
Proof.
  intros Hic [G Hfit Hcnt Hnd Hvec Hh]. assert (Hc : current s i w n) by (unfold current; by rewrite Hic).
  destruct (current_keep w n Hc) as [Hc' _]. unfold current in Hc'. rewrite (hk_st _ _ _ HK), Hic in Hc'.
  constructor; [done|done|done|done| |].
  - intros fd. rewrite Hvec. split.
    + intros (f & Hf & Hi). destruct (hk_to _ _ _ HK fd f Hf Hi) as (f' & Hf' & Hfl). exists f'. by rewrite (flagged_id _ _ Hfl).
    + intros (f' & Hf' & Hi). destruct (hk_from _ _ _ HK fd f' Hf' Hi) as (f & Hf & Hfl). exists f. by rewrite <- (flagged_id _ _ Hfl).
  - intros fd f' Hf' Hi. destruct (hk_from _ _ _ HK fd f' Hf' Hi) as (f & Hf & Hfl).
    apply (handle_keep (op_fs s) w n f); [apply (Hh fd f Hf); by rewrite <- (flagged_id _ _ Hfl)|apply G| |lia|apply Hc'|done].
    apply keeps_views. intros b Hb. assert (Ht : b ∈ tree (op_fs s) w n) by (apply elem_of_app; by left).
    apply (fr_view _ _ _ _ F); [by apply (fo_used _ _ _ (gb_file _ _ _ _ G))|]. apply HB. by exists w, n.
Qed.

Lemma file_keep c : file_rep s i c -> file_rep s' i c.
Proof.
  intros (v & n & Hv & Hreg & G & H).
  assert (Htab : forall b, b ∈ tree (op_fs s) v n -> ~ B b).
  { intros b Hb. apply HB. unfold owns, current. destruct (st_ s !! i) as [ic|]; [|by exists v, n].
    destruct H as (w & n' & O & _ & Ha & _). exists w, n'. split; [apply O|].
    pose proof (fo_range _ _ _ (gb_file _ _ _ _ (op_grow _ _ _ _ _ O))). pose proof (fo_range _ _ _ (gb_file _ _ _ _ G)).
    apply (ahead_tree _ v n); [done|lia|lia|done]. }
  destruct (framed_grow _ _ _ _ F (ip_of i) v n G) as (G' & _ & _); [tauto|done|].
  exists v, n. split; [apply (framed_inode _ _ _ _ F); tauto|]. split; [done|]. split; [done|].
  pose proof opened_keep as Hkeep. rewrite (hk_st _ _ _ HK). destruct (st_ s !! i) as [ic|] eqn:Hic.
  - destruct H as (w & n' & O & Hh & Ha & Ho).
    assert (Hb : forall b, b ∈ tree (op_fs s) w n' -> ~ B b).
    { intros b Hb. apply HB. exists w, n'. unfold current. rewrite Hic. split; [apply O|done]. }
    exists w, n'. split; [by apply Hkeep|]. split; [|split; [|done]].
    + apply (holds_keep P B s s' (InCopy i) w n'); [done|apply O|done|apply O|done].
    + apply (ahead_step (op_fs s) v n w n' (op_fs s') w n'); [done| |lia]. apply keeps_views. intros b Hm.
      assert (Ht : b ∈ tree (op_fs s) w n') by (apply elem_of_app; by left).
      apply (fr_view _ _ _ _ F); [by apply (fo_used _ _ _ (gb_file _ _ _ _ (op_grow _ _ _ _ _ O)))|auto].
  - destruct H as [Hfit Hh]. split; [done|]. by apply (holds_keep P B s s' (ip_of i) v n).
Qed.
End Keep.

(** ** The same blocks under another inode *)

Definition same_layout (w' w : ext2_inode) : Prop := i_block w' = i_block w /\ i_blocks w' = i_blocks w.

Lemma only_keeps s s' w w' n : inode_only s s' -> i_block w' = i_block w -> keeps_tree s w s' w' n.
Proof.
  intros O Hb. assert (Hi : forall k, i_block_at k w' = i_block_at k w) by (intros k; unfold i_block_at; by rewrite Hb).
  constructor; intros; try apply Hi; unfold wd; by rewrite (inode_only_view _ _ _ O).
Qed.

Lemma only_grow s s' ip ip' w w' n :
  growable s ip w n -> inode_only s s' -> cell s' ip' w' -> same_layout w' w -> is_file w' = true ->
  growable s' ip' w' n /\ tree s' w' n = tree s w n.
Proof.
  intros G O Hc [Hb Hn] Hf. pose proof (only_keeps s s' w w' n O Hb) as K. pose proof (gb_file _ _ _ _ G) as Hfo.
  pose proof (fo_range _ _ _ Hfo) as Hr.
  assert (Ht : tree s' w' n = tree s w n) by (unfold tree; by rewrite (keeps_metas _ _ _ _ _ K), (keeps_datas _ _ _ _ _ K) by lia).
  split; [|done]. constructor; [apply (inode_only_wf s); [done|apply G]|apply (inode_only_zero s); [done|apply G]
    |rewrite (io_store _ _ O); apply G|done|done|rewrite Hn; apply G|].
  constructor; [done|fold (tree s' w' n); rewrite Ht; apply Hfo|]. fold (tree s' w' n). rewrite Ht.
  intros b Hin. rewrite (inode_only_allocated s s') by done. by apply Hfo.
Qed.

Lemma only_left s s' : inode_only s s' -> (forall k, room s k -> room s' k) /\ (forall k, inodes_left s k -> inodes_left s' k).
Proof. intros O. split; intros k Hk; [by apply (inode_only_room s)|by apply (inode_only_left s s')]. Qed.

Lemma only_holds s s' ip w w' n c :
  growable (op_fs s) ip w n -> inode_only (op_fs s) (op_fs s') -> i_block w' = i_block w -> i_size w' = i_size w ->
  i_size w <= BLOCK_SIZE * n -> holds s w c -> holds s' w' c.
Proof.
  intros G O Hb Hs Hfit [HL Hc]. split; [by rewrite Hs|]. rewrite Hs. intros k Hk. rewrite Hc by done. unfold fbyte.
  destruct (byte_pos k n ltac:(lia)) as [Hm _].
  rewrite (keeps_blk _ _ _ _ n _ (only_keeps _ _ w w' n O Hb)); [|apply (fo_range _ _ _ (gb_file _ _ _ _ G))|done].
  by rewrite (inode_only_view _ _ _ O).
Qed.

Lemma only_dir s s' ip ip' w w' n M :
  dir_is s ip w n M -> inode_only s s' -> cell s' ip' w' -> same_layout w' w -> is_file w' = true -> dir_is s' ip' w' n M.
Proof.
  intros (dss & [G Hl Hsm Hca Hbl] & H) O Hc Hlay Hf. exists dss. split; [|done].
  destruct (only_grow s s' ip ip' w w' n G O Hc Hlay Hf) as [G' _].
  constructor; [done|done|done|by rewrite (io_store _ _ O)|]. intros m ds Hm. pose proof (lookup_lt_Some _ _ _ Hm) as Hlt.
  rewrite (keeps_blk s w s' w' n); [|by apply only_keeps, Hlay|apply (fo_range _ _ _ (gb_file _ _ _ _ G))|lia].
  destruct (Hbl m ds Hm) as (H1 & H2 & H3). split; [done|]. split; [done|]. by rewrite (inode_only_view _ _ _ O).
Qed.

(** ** The tree of directories under such operations *)

Lemma tree_ok_framed P B s s' T :
  tree_ok s T -> framed P B s s' -> (forall i, in_tree T i -> ~ P (ip_of i)) ->
  (forall i v b, in_tree T i -> inode_at s i v -> b ∈ blocks s v -> ~ B b) -> tree_ok s' T.
Proof.
  intros Ht F HP HB.
  assert (Hb : forall i v n b, in_tree T i -> growable s (ip_of i) v n -> b ∈ tree s v n -> ~ B b).
  { intros i v n b Hi G Hb. destruct (to_node _ _ Ht i Hi) as (u & Hu & _).
    assert (u = v) as ->.
    { pose proof (cell_load _ _ _ (ia_cell _ _ _ Hu)) as E. rewrite (cell_load _ _ _ (gb_cell _ _ _ _ G)) in E. by injection E. }
    apply (HB i v b Hi Hu). by rewrite (growable_blocks _ _ _ _ G). }
  apply (tree_ok_keep s); [done| | |].
  - intros i v Hi Hv. apply (framed_inode _ _ _ _ F); [done|auto].
  - intros i v n Hi G. destruct (framed_grow _ _ _ _ F (ip_of i) v n G) as (G' & Htr & _); [auto|by intros b; apply (Hb i v n)|done].
  - intros i v n M Hi _ Hd. apply (framed_dir _ _ _ _ F); [done|auto|]. intros b. apply (Hb i v n); [done|by apply (dir_is_grow _ _ _ _ M)].
Qed.

Lemma growable_keeps s s' ip v n :
  growable s ip v n -> fs_wf s' -> free_zero s' -> size_ (st_cache (fs_store s')) = size_ (st_cache (fs_store s)) ->
  cell s' ip v -> keeps_tree s v s' v n -> (forall b, allocated s b = true -> allocated s' b = true) ->
  growable s' ip v n /\ tree s' v n = tree s v n.
Proof.
  intros G Hwf Hz Hs Hc K Hu. pose proof (gb_file _ _ _ _ G) as Hf. pose proof (fo_range _ _ _ Hf) as Hr.
  assert (Ht : tree s' v n = tree s v n) by (unfold tree; by rewrite (keeps_metas _ _ _ _ _ K), (keeps_datas _ _ _ _ _ K) by lia).
  split; [|done]. constructor; [done|done|rewrite Hs; apply G|done|apply G|apply G|].
  constructor; [done|fold (tree s' v n); rewrite Ht; apply Hf|]. fold (tree s' v n). rewrite Ht. intros b Hb. by apply Hu, Hf.
Qed.

(** The blocks of the copy of a file are written: the table inode keeps those
    it leads to. *)
Lemma tree_ok_written P B s s' T t :
  tree_ok s T -> T !! t = None -> framed P B s s' -> (forall i, in_tree T i -> ~ P (ip_of i)) ->
  (forall i v b, in_tree T i -> i <> t -> inode_at s i v -> b ∈ blocks s v -> ~ B b) ->
  (forall v n, growable s (ip_of t) v n -> keeps_tree s v s' v n) -> tree_ok s' T.
Proof.
  intros Ht HT F HP HB HK.
  assert (Hb : forall i v n b, in_tree T i -> i <> t -> growable s (ip_of i) v n -> b ∈ tree s v n -> ~ B b).
  { intros i v n b Hi Hne G Hb. destruct (to_node _ _ Ht i Hi) as (u & Hu & _).
    assert (u = v) as ->.
    { pose proof (cell_load _ _ _ (ia_cell _ _ _ Hu)) as E. rewrite (cell_load _ _ _ (gb_cell _ _ _ _ G)) in E. by injection E. }
    apply (HB i v b Hi Hne Hu). by rewrite (growable_blocks _ _ _ _ G). }
  assert (Hg : forall i v n, in_tree T i -> growable s (ip_of i) v n -> growable s' (ip_of i) v n /\ tree s' v n = tree s v n).
  { intros i v n Hi G. destruct (decide (i = t)) as [->|Hne].
    - apply growable_keeps; [done|apply F|apply F|apply F|apply (fr_cells _ _ _ _ F); [auto|apply G]|by apply HK|apply F].
    - destruct (framed_grow _ _ _ _ F (ip_of i) v n G) as (G' & Htr & _); [auto|by intros b; apply (Hb i v n)|done]. }
  apply (tree_ok_keep s); [done| |done|].
  - intros i v Hi Hv. apply (framed_inode _ _ _ _ F); [done|auto].
  - intros i v n M Hi HM Hd. assert (Hne : i <> t) by congruence.
    apply (framed_dir _ _ _ _ F); [done|auto|]. intros b. apply (Hb i v n); [done|done|by apply (dir_is_grow _ _ _ _ M)].
Qed.

(** The inode of node [t], in the table or as a copy, is changed. *)
Record restat (t : Z) (w : ext2_inode) (s s' : FS) : Prop := {
  rs_frame : framed (fun ip => ip = ip_of t \/ ip = InCopy t) (fun _ => False) s s';
  rs_only : inode_only s s';
  rs_at : inode_at s' t w
}.

Lemma restat_trans t v w s1 s2 s3 : restat t v s1 s2 -> restat t w s2 s3 -> restat t w s1 s3.
Proof. intros [F O _] [F' O' Hw]. constructor; [by apply (framed_trans _ _ (fun _ => False) _ s2)|by etransitivity|done]. Qed.

Lemma restat_other t w s s' i u :
  restat t w s s' -> i <> t -> inode_at s i u -> inode_at s' i u.
Proof. intros S Hne Hu. apply (framed_inode _ _ _ _ (rs_frame _ _ _ _ S)); [done|]. by intros [E%ip_of_inj|E]. Qed.

Lemma restat_grow t w s s' i u n :
  restat t w s s' -> i <> t -> growable s (ip_of i) u n -> growable s' (ip_of i) u n /\ tree s' u n = tree s u n.
Proof.
  intros S Hne G. destruct (framed_grow _ _ _ _ (rs_frame _ _ _ _ S) (ip_of i) u n G) as (G' & Ht & _); [by intros [E%ip_of_inj|E]|tauto|done].
Qed.

Lemma restat_dir t w s s' i u n M : restat t w s s' -> i <> t -> dir_is s (ip_of i) u n M -> dir_is s' (ip_of i) u n M.
Proof. intros S Hne Hd. apply (framed_dir _ _ _ _ (rs_frame _ _ _ _ S)); [done|by intros [E%ip_of_inj|E]|tauto]. Qed.

Lemma file_node s T t w n :
  inode_at s t w -> T !! t = None -> S_ISREG (i_mode w) = true -> growable s (ip_of t) w n -> node_ok s T t.
Proof.
  intros Hw HT Hreg G. exists w. split; [done|]. split; [intros _; by exists n|]. rewrite HT.
  unfold S_ISREG, S_ISDIR in *. apply Z.eqb_eq in Hreg. by rewrite Hreg.
Qed.

(** The node [t] keeps its kind, and its new blocks are of no other node. *)
Lemma tree_ok_restat s s' T t w :
  tree_ok s T -> in_tree T t -> restat t w s s' -> node_ok s' T t ->
  (is_file w = true -> forall i v b, in_tree T i -> i <> t -> inode_at s i v -> is_file v = true -> b ∈ blocks s v -> b ∈ blocks s' w -> False) ->
  tree_ok s' T.
Proof.
  intros Ht Hin S Hnode Hap. pose proof (rs_at _ _ _ _ S) as Hw.
  assert (Hold : forall i v, in_tree T i -> i <> t -> inode_at s' i v -> inode_at s i v /\ (is_file v = true -> blocks s' v = blocks s v)).
  { intros i v Hi Hne Hv. destruct (to_node _ _ Ht i Hi) as (u & Hu & Hg & _).
    assert (u = v) as -> by (apply (inode_at_inj s' i); [by apply (restat_other t w s)|done]).
    split; [done|]. intros Hfile. destruct (Hg Hfile) as [m G]. destruct (restat_grow t w s s' i v m S Hne G) as [G' Htr].
    by rewrite (growable_blocks _ _ _ _ G), (growable_blocks _ _ _ _ G'). }
  constructor; [apply Ht|apply Ht| |].
  - intros i Hi. destruct (decide (i = t)) as [->|Hne]; [done|].
    destruct (to_node _ _ Ht i Hi) as (u & Hu & Hg & Hd). exists u. split; [by apply (restat_other t w s)|]. split.
    + intros Hfile. destruct (Hg Hfile) as [m G]. exists m. by apply (restat_grow t w s).
    + destruct (T !! i) as [M|]; [|done]. destruct Hd as [Hd [m Hm]]. split; [done|]. exists m. by apply (restat_dir t w s).
  - intros i j v u b Hi Hj Hne Hv Hu Hfv Hfu Hbv Hbu. destruct (decide (i = t)) as [->|Hit].
    + assert (v = w) as -> by by apply (inode_at_inj s' t). destruct (Hold j u Hj ltac:(congruence) Hu) as [Hu0 E].
      rewrite (E Hfu) in Hbu. by apply (Hap Hfv j u b); [|congruence|..].
    + destruct (Hold i v Hi Hit Hv) as [Hv0' E]. rewrite (E Hfv) in Hbv. destruct (decide (j = t)) as [->|Hjt].
      * assert (u = w) as -> by by apply (inode_at_inj s' t). by apply (Hap Hfu i v b).
      * destruct (Hold j u Hj Hjt Hu) as [Hu0 E']. rewrite (E' Hfu) in Hbu. by apply (to_apart _ _ Ht i j v u b).
Qed.

(** ** The relation *)

Definition apart (s : OpSt) (T : dirs) : Prop :=
  forall i j b, in_tree T i -> in_tree T j -> i <> j -> owns s i b -> owns s j b -> False.

(** [s] stands for [A], with blocks for [k] and room for [m] new names left. *)
Record rep (s : OpSt) (A : afs) (k m : Z) : Prop := {
  rp_tree : tree_ok (op_fs s) (a_dirs A);
  rp_names : caches (a_dirs A) (op_fs s);
  rp_plain : forall d M name, a_dirs A !! d = Some M -> is_Some (M !! name) -> no_nul name;
  rp_owner : forall i v, in_tree (a_dirs A) i -> inode_at (op_fs s) i v -> a_owner A !! i = Some (owner_of v);
  rp_data : forall i, is_Some (a_data A !! i) <-> in_tree (a_dirs A) i /\ a_dirs A !! i = None;
  rp_file : forall i c, a_data A !! i = Some c -> file_rep s i c;
  rp_open : forall fd, a_open A !! fd = f_inode_id <$> op_files s !! fd;
  rp_st : forall i, is_Some (st_ s !! i) <-> exists fd, a_open A !! fd = Some i;
  rp_reg : forall fd i, a_open A !! fd = Some i -> is_Some (a_data A !! i);
  rp_next : a_next A = op_fresh s;
  rp_fresh : forall fd, is_Some (op_files s !! fd) -> (fd < op_fresh s)%positive;
  rp_few : Z.of_nat (size (a_open A)) < MAX_HANDLES;
  rp_apart : apart s (a_dirs A);
  rp_left : 0 <= k <= MAX_BLOCKS /\ 0 <= m;
  rp_room : room (op_fs s) (3 * (k + m));
  rp_inodes : inodes_left (op_fs s) m;
  rp_space : forall d v, is_Some (a_dirs A !! d) -> inode_at (op_fs s) d v ->
    i_blocks v / 8 + m <= 1036 /\ i_blocks v / 8 + m - 12 <= size_ (st_cache (fs_store (op_fs s)));
  rp_max : forall i w n, is_Some (a_data A !! i) -> current s i w n -> n + k <= MAX_BLOCKS
}.

(** Every inode of the tree has blocks of its own; directories are not open. *)
Lemma dir_closed s A k m d : rep s A k m -> is_Some (a_dirs A !! d) -> st_ s !! d = None.
Proof.
  intros R [M HM]. destruct (st_ s !! d) as [ic|] eqn:E; [|done].
  destruct (proj1 (rp_st _ _ _ _ R d)) as [fd Hfd]; [by eexists|]. apply (rp_reg _ _ _ _ R) in Hfd.
  apply (rp_data _ _ _ _ R) in Hfd as [_ ?]. congruence.
Qed.

Lemma node_current s A k m i : rep s A k m -> in_tree (a_dirs A) i -> exists w n, current s i w n.
Proof.
  intros R Hi. destruct (a_dirs A !! i) as [M|] eqn:HT.
  - destruct (to_dir _ _ _ _ (rp_tree _ _ _ _ R) HT) as (v & n & Hv & _ & Hd). exists v, n. unfold current.
    rewrite (dir_closed _ _ _ _ _ R) by by eexists. split; [done|by apply dir_is_grow in Hd].
  - destruct (proj2 (rp_data _ _ _ _ R i)) as [c Hc]; [done|].
    destruct (file_current _ _ _ (rp_file _ _ _ _ R i c Hc)) as (w & n & H & _). by exists w, n.
Qed.

(** The blocks of the table inode are among those of the file. *)
Lemma blocks_owned s A k m i v b :
  rep s A k m -> in_tree (a_dirs A) i -> inode_at (op_fs s) i v -> is_file v = true -> b ∈ blocks (op_fs s) v -> owns s i b.
Proof.
  intros R Hi Hv Hf Hb. destruct (a_dirs A !! i) as [M|] eqn:HT.
  - destruct (to_dir _ _ _ _ (rp_tree _ _ _ _ R) HT) as (u & n & Hu & _ & Hd). apply dir_is_grow in Hd.
    assert (u = v) as -> by by apply (inode_at_inj (op_fs s) i). exists v, n. unfold current.
    rewrite (dir_closed _ _ _ _ _ R) by by eexists. split; [done|by rewrite <- (growable_blocks _ _ _ _ Hd)].
  - destruct (proj2 (rp_data _ _ _ _ R i)) as [c Hc]; [done|]. destruct (rp_file _ _ _ _ R i c Hc) as (u & n & Hu & _ & G & H).
    assert (u = v) as -> by by apply (inode_at_inj (op_fs s) i). rewrite (growable_blocks _ _ _ _ G) in Hb.
    unfold owns, current. destruct (st_ s !! i) as [ic|]; [|by exists v, n].
    destruct H as (w & n' & O & _ & Ha & _). exists w, n'. split; [apply O|].
    pose proof (fo_range _ _ _ (gb_file _ _ _ _ (op_grow _ _ _ _ _ O))). pose proof (fo_range _ _ _ (gb_file _ _ _ _ G)).
    apply (ahead_tree _ v n); [done|lia|lia|done].
Qed.

(** The handles of an open file are counted. *)
Lemma open_count s A k m i ic w n :
  rep s A k m -> st_ s !! i = Some ic -> opened s i ic w n -> 0 < cnts_ ic < MAX_HANDLES.
Proof.
  intros R Hic O. rewrite (op_count _ _ _ _ _ O). split.
  - destruct (proj1 (rp_st _ _ _ _ R i)) as [fd Hfd]; [by eexists|]. rewrite (rp_open _ _ _ _ R) in Hfd.
    apply fmap_Some in Hfd as (f & Hf & ->). assert (Hin : fd ∈ vec ic) by (apply (op_vec _ _ _ _ _ O); by exists f).
    destruct (vec ic); [by apply elem_of_nil in Hin|cbn; lia].
  - eapply Z.le_lt_trans; [|apply (rp_few _ _ _ _ R)]. apply inj_le.
    rewrite <- (size_dom (D := gset positive)), <- (size_list_to_set (C := gset positive) _ (op_nodup _ _ _ _ _ O)).
    apply subseteq_size. intros fd Hin. apply elem_of_list_to_set, (op_vec _ _ _ _ _ O) in Hin as (f & Hf & _).
    apply elem_of_dom. rewrite (rp_open _ _ _ _ R), Hf. by eexists.
Qed.

(** An operation that touches the file [t] only, taking no blocks of others. *)
Lemma apart_step s s' T T' t :
  apart s T -> (forall i b, in_tree T' i -> i <> t -> owns s' i b -> in_tree T i /\ owns s i b) ->
  (forall b, in_tree T' t -> owns s' t b -> in_tree T t /\ owns s t b \/ allocated (op_fs s) b = false) -> apart s' T'.
Proof.
  intros Ha Ho Ht.
  assert (Hx : forall i b, in_tree T' i -> in_tree T' t -> i <> t -> owns s' i b -> owns s' t b -> False).
  { intros i b Hi Hit Hne Hbi Hbt. destruct (Ho i b Hi Hne Hbi) as [Hi' Hbi'].
    destruct (Ht b Hit Hbt) as [[Ht' Hbt']|Hu]; [by apply (Ha i t b)|]. apply owns_used in Hbi'. congruence. }
  intros i j b Hi Hj Hne Hbi Hbj. destruct (decide (i = t)) as [->|Hit]; [by apply (Hx j b); [..|congruence| |]|].
  destruct (decide (j = t)) as [->|Hjt]; [by apply (Hx i b)|].
  destruct (Ho i b Hi Hit Hbi) as [??]. destruct (Ho j b Hj Hjt Hbj) as [??]. by apply (Ha i j b).
Qed.

(** Directories keep their size under a frame. *)
Lemma space_kept P B s s' A k m :
  rep s A k m -> framed P B (op_fs s) (op_fs s') -> (forall d, is_Some (a_dirs A !! d) -> ~ P (ip_of d)) ->
  forall d v, is_Some (a_dirs A !! d) -> inode_at (op_fs s') d v ->
    i_blocks v / 8 + m <= 1036 /\ i_blocks v / 8 + m - 12 <= size_ (st_cache (fs_store (op_fs s'))).
Proof.
  intros R F HP d v [M HM] Hv. rewrite (fr_size _ _ _ _ F). apply (rp_space _ _ _ _ R d); [by exists M|].
  destruct (to_dir _ _ _ _ (rp_tree _ _ _ _ R) HM) as (u & n & Hu & _).
  assert (u = v) as ->; [|done]. apply (inode_at_inj (op_fs s') d); [|done]. apply (framed_inode _ _ _ _ F); [done|]. apply HP. by exists M.
Qed.

(** An operation that touches no file. *)
Lemma rep_kept P s s' A k m :
  rep s A k m -> framed P (fun _ => False) (op_fs s) (op_fs s') ->
  (forall i, in_tree (a_dirs A) i -> ~ P (ip_of i) /\ (is_Some (st_ s !! i) -> ~ P (InCopy i))) ->
  caches (a_dirs A) (op_fs s') -> st_ s' = st_ s -> op_files s' = op_files s -> op_fresh s' = op_fresh s ->
  (forall j, room (op_fs s) j -> room (op_fs s') j) -> (forall j, inodes_left (op_fs s) j -> inodes_left (op_fs s') j) ->
  rep s' A k m.
Proof.
  intros R F HP Hc Hst Hfi Hfr Hro Hin.
  assert (Hcur : forall i w n, in_tree (a_dirs A) i -> current s i w n -> current s' i w n).
  { intros i w n Hi. apply (current_keep _ _ _ _ F i (HP i Hi)); [tauto|by apply handles_kept_refl]. }
  constructor; try apply R; rewrite ?Hst, ?Hfi, ?Hfr; try apply R; try done.
  - apply (tree_ok_framed _ _ _ _ _ (rp_tree _ _ _ _ R) F); [intros i Hi; by apply HP|tauto].
  - intros i v Hi Hv. destruct (to_node _ _ (rp_tree _ _ _ _ R) i Hi) as (u & Hu & _). rewrite (rp_owner _ _ _ _ R i u Hi Hu).
    do 2 f_equal. apply (inode_at_inj (op_fs s') i); [|done]. apply (framed_inode _ _ _ _ F); [done|by apply HP].
  - intros i c Hd. assert (Hi : in_tree (a_dirs A) i) by (apply (rp_data _ _ _ _ R); by eexists).
    apply (file_keep _ _ _ _ F i (HP i Hi)); [tauto|by apply handles_kept_refl|by apply R].
  - apply (apart_step s s' (a_dirs A) (a_dirs A) ROOT_INODE); [apply R| |]; intros.
    + split; [done|]. destruct (node_current _ _ _ _ i R) as (w & n & Hw); [done|].
      eapply (owns_keep _ _ _ _ F i); [by apply HP|tauto|by apply handles_kept_refl|exact Hw|done].
    + left. split; [done|]. destruct (node_current _ _ _ _ ROOT_INODE R) as (w & n & Hw); [done|].
      eapply (owns_keep _ _ _ _ F ROOT_INODE); [by apply HP|tauto|by apply handles_kept_refl|exact Hw|done].
  - apply Hro, R.
  - apply Hin, R.
  - apply (space_kept _ _ _ _ _ k m R F). intros d Hd. apply HP. by apply (to_in _ _ (rp_tree _ _ _ _ R)).
  - intros i w n Hd Hw. assert (Hi : in_tree (a_dirs A) i) by by apply (rp_data _ _ _ _ R).
    destruct (node_current _ _ _ _ i R Hi) as (w0 & n0 & Hw0). destruct (current_inj _ _ _ _ _ _ (Hcur _ _ _ Hi Hw0) Hw) as [<- <-].
    by apply (rp_max _ _ _ _ R i w0).
Qed.

(** An operation that touches the regular file [t], which then has contents
    [c], owner [o] and the open handles [H]. *)
Section Touch.
Context (s s' : OpSt) (A : afs) (k k' m t : Z) (c : list byte) (o : owner) (H : gmap positive Z).
Context (P : iptr -> Prop) (B : Z -> Prop).
Hypothesis R : rep s A k m.
Hypothesis Ht : is_Some (a_data A !! t).
Hypothesis F : framed P B (op_fs s) (op_fs s').
Hypothesis HP : forall i, i <> t -> ~ P (ip_of i) /\ ~ P (InCopy i).
Hypothesis HB : forall b, B b -> owns s t b.
Hypothesis Htree : tree_ok (op_fs s') (a_dirs A).
Hypothesis Hnames : fs_dentry (op_fs s') = fs_dentry (op_fs s).
Hypothesis HK : forall i, i <> t -> handles_kept s s' i.
Hypothesis Hfile : file_rep s' t c.
Hypothesis Howner : forall v, inode_at (op_fs s') t v -> owner_of v = o.
Hypothesis Howns : forall b, owns s' t b -> owns s t b \/ allocated (op_fs s) b = false.
Hypothesis Hopen : forall fd, H !! fd = f_inode_id <$> op_files s' !! fd.
Hypothesis Hst : is_Some (st_ s' !! t) <-> exists fd, H !! fd = Some t.
Hypothesis Hfew : Z.of_nat (size H) < MAX_HANDLES.
Hypothesis Hfresh : forall fd, is_Some (op_files s' !! fd) -> (fd < op_fresh s')%positive.
Hypothesis Hroom : room (op_fs s') (3 * (k' + m)).
Hypothesis Hinodes : inodes_left (op_fs s') m.
Hypothesis Hmax : forall w n, current s' t w n -> n + k' <= MAX_BLOCKS.
Hypothesis Hk : 0 <= k' <= k.

Lemma touch_in : in_tree (a_dirs A) t /\ a_dirs A !! t = None.
Proof. by apply (rp_data _ _ _ _ R). Qed.

Lemma touch_avoid i : in_tree (a_dirs A) i -> i <> t -> forall b, owns s i b -> ~ B b.
Proof. intros Hi Hne b Hb HBb. apply (rp_apart _ _ _ _ R i t b); [done|apply touch_in|done|done|auto]. Qed.

Lemma touch_place i : i <> t -> ~ P (ip_of i) /\ (is_Some (st_ s !! i) -> ~ P (InCopy i)).
Proof. intros Hne. destruct (HP i Hne). done. Qed.

Lemma touch_current i w n : in_tree (a_dirs A) i -> i <> t -> current s i w n -> current s' i w n.
Proof. intros Hi Hne. apply (current_keep _ _ _ _ F i (touch_place i Hne)); [by apply touch_avoid|auto]. Qed.

Lemma touch_opens i : i <> t -> (exists fd, H !! fd = Some i) <-> exists fd, a_open A !! fd = Some i.
Proof.
  intros Hne. split; intros [fd Hfd]; exists fd.
  - rewrite Hopen in Hfd. apply fmap_Some in Hfd as (f' & Hf' & ->). destruct (hk_from _ _ _ (HK _ Hne) fd f' Hf' eq_refl) as (f & Hf & Hfl).
    rewrite (rp_open _ _ _ _ R), Hf. cbn. by rewrite (flagged_id _ _ Hfl).
  - rewrite (rp_open _ _ _ _ R) in Hfd. apply fmap_Some in Hfd as (f & Hf & ->). destruct (hk_to _ _ _ (HK _ Hne) fd f Hf eq_refl) as (f' & Hf' & Hfl).
    rewrite Hopen, Hf'. cbn. by rewrite (flagged_id _ _ Hfl).
Qed.

Lemma rep_touch :
  rep s' (mk_afs (a_dirs A) (<[t := c]> (a_data A)) (<[t := o]> (a_owner A)) H (op_fresh s')) k' m.
Proof.
  destruct touch_in as [Htin HTt].
  assert (Hdat : forall i, is_Some (<[t := c]> (a_data A) !! i) <-> is_Some (a_data A !! i)).
  { intros i. destruct (decide (i = t)) as [->|Hne]; [rewrite lookup_insert_eq; split; eauto|by rewrite lookup_insert_ne]. }
  constructor; cbn [a_dirs a_data a_owner a_open a_next]; try done.
  - destruct (rp_names _ _ _ _ R) as [K HKK]. exists K. by rewrite Hnames.
  - apply R.
  - intros i v Hi Hv. destruct (decide (i = t)) as [->|Hne]; [rewrite lookup_insert_eq; f_equal; symmetry; auto|].
    rewrite lookup_insert_ne by done. destruct (to_node _ _ (rp_tree _ _ _ _ R) i Hi) as (u & Hu & _).
    rewrite (rp_owner _ _ _ _ R i u Hi Hu). do 2 f_equal. apply (inode_at_inj (op_fs s') i); [|done].
    apply (framed_inode _ _ _ _ F); [done|by apply HP].
  - intros i. rewrite Hdat. apply R.
  - intros i c'. destruct (decide (i = t)) as [->|Hne]; [rewrite lookup_insert_eq; by intros [= <-]|].
    rewrite lookup_insert_ne by done. intros Hd. assert (Hi : in_tree (a_dirs A) i) by (apply (rp_data _ _ _ _ R); by eexists).
    apply (file_keep _ _ _ _ F i (touch_place i Hne)); [by apply touch_avoid|auto|by apply R].
  - intros i. destruct (decide (i = t)) as [->|Hne]; [done|].
    rewrite (hk_st _ _ _ (HK i Hne)), (rp_st _ _ _ _ R), touch_opens by done. done.
  - intros fd i Hfd. rewrite Hdat. destruct (decide (i = t)) as [->|Hne]; [done|].
    destruct (proj1 (touch_opens i Hne)) as [q Hq]; [by exists fd|]. by apply (rp_reg _ _ _ _ R q).
  - apply (apart_step s s' (a_dirs A) (a_dirs A) t); [apply R| |].
    + intros i b Hi Hne Hb. split; [done|]. destruct (node_current _ _ _ _ i R Hi) as (w & n & Hw).
      eapply (owns_keep _ _ _ _ F i); [by apply touch_place|by apply touch_avoid|by apply HK|exact Hw|done].
    + intros b _ Hb. destruct (Howns b Hb) as [?|?]; [left|right]; auto.
  - pose proof (rp_left _ _ _ _ R). lia.
  - apply (space_kept _ _ _ _ _ k m R F). intros d [M HM]. apply HP. congruence.
  - intros i w n Hd Hw. rewrite Hdat in Hd. destruct (decide (i = t)) as [->|Hne]; [by apply (Hmax w)|].
    assert (Hi : in_tree (a_dirs A) i) by by apply (rp_data _ _ _ _ R). destruct (node_current _ _ _ _ i R Hi) as (w0 & n0 & Hw0).
    destruct (current_inj _ _ _ _ _ _ (touch_current _ _ _ Hi Hne Hw0) Hw) as [<- <-]. pose proof (rp_max _ _ _ _ R i w0 n0 Hd Hw0). lia.
Qed.
End Touch.
