(* ===== verification/SessionIO.v ===== *)
(** * Sessions: lookups, attributes, reads and writes

    One lemma per handler: from a state that stands for an abstract file
    system ([rep]) and under the conditions of [call_pre], the handler returns
    an answer that the specification allows and leaves a state that stands for
    the abstract state after the call.  Here are [fuse_getattr], [fuse_read]
    and [fuse_write], with what all handlers share: the lookup of a path and
    the life cycle of the copy of an inode. *)

From S2P Require Import Prelude Layout Disk Bitmap PathName Block BlockGroup BlockCache DentryCache DentryTree.
From S2P Require Import FileSystem FileStatus OpenFiles FsBlocks FileData FsPointers FsAlloc FileBlocks FsInodes FileGrow FileWrite FileIO FsMount Handlers InodeAttrs.
From S2P Require Import DirBlock Directory PathLookup Frames PathCreate AbstractFs Steady OpenTree.

(** ** Paths *)

Lemma path_string_ok {S} (path : list (list byte)) (s : S) :
  Forall plain path -> Forall path_name path ->
  exists p, path_init (path_string path) s = Ret p s /\ path_valid p = true /\ path_names p = path.
Proof.
  intros Hp Hn. apply path_init_string; [done|]. apply (Forall_impl _ _ _ Hn). by intros name [? _].
Qed.

Lemma with_path_eq {A} path p (k : Path -> M FS A) s :
  path_init path (op_fs s) = Ret p (op_fs s) -> with_path path k s = on_fs (k p) s.
Proof. intros H. unfold with_path, on_fs, zoom. by mstep H. Qed.

(** ** Lookups *)

Lemma looked_left s s' j : looked s s' -> inodes_left s j -> inodes_left s' j.
Proof. intros L. destruct (looked_groups _ _ L) as (Hg & Hsb & _). apply inodes_left_keep; [by rewrite Hsb|by rewrite Hg]. Qed.

Lemma rep_looked s A k m fs' :
  rep s A k m -> looked (op_fs s) fs' -> caches (a_dirs A) fs' -> rep (with_opfs fs' s) A k m.
Proof.
  intros R L Hc. destruct (tree_wf _ _ (rp_tree _ _ _ _ R)) as [Hwf Hz]. destruct (looked_groups _ _ L) as (Hg & _ & _).
  apply (rep_kept (fun _ => False) s); try done.
  - by apply looked_framed.
  - tauto.
  - intros j. by apply room_groups.
  - intros j. by apply looked_left.
Qed.

Lemma lookup_rep s A k m path :
  rep s A k m -> path_pre (a_dirs A) path ->
  exists r fs', lookup_path (path_string path) s = Ret r (with_opfs fs' s) /\ rep (with_opfs fs' s) A k m
    /\ match walk (a_dirs A) ROOT_INODE path with
       | inr i => (exists parent, r = inr (mk_found (ip_of i) i parent)) /\ in_tree (a_dirs A) i
       | inl e => r = inl e
       end.
Proof.
  intros R (Hp & Hn & He). destruct (path_string_ok path (op_fs s) Hp Hn) as (p & H & Hv & Hnames).
  destruct (inode_lookup_ok (a_dirs A) (op_fs s) p) as (r & fs' & Hl & _ & Hc & L & Hr);
    [apply R|apply R|done|by rewrite Hnames|by rewrite Hnames|].
  exists r, fs'. split; [unfold lookup_path; rewrite (with_path_eq _ p _ _ H); by apply on_fs_eq|].
  split; [by apply rep_looked|]. rewrite Hnames in Hr. destruct (walk _ _ path) as [e|i] eqn:Hw; [done|].
  split; [done|]. apply (walk_in_tree _ _ _ _ Hw). by left.
Qed.

(** ** The life cycle of a copy *)

Lemma inode_at_table s i v : inode_at s i v -> exists g, in_table s i g v.
Proof.
  intros [Hr Hipg (g & Hg & Hwf & Hb) [_ (g' & Hg' & Hit & Hl)]]. rewrite Hg in Hg'. injection Hg' as <-. exists g. by constructor.
Qed.

Lemma copies_only cs s : inode_only s (with_copies cs s).
Proof. by constructor. Qed.

Lemma copies_framed s cs i :
  fs_wf s -> free_zero s -> (forall j, j <> i -> cs !! j = fs_copies s !! j) ->
  framed (fun ip => ip = InCopy i) (fun _ => False) s (with_copies cs s).
Proof.
  intros [[H1 H2 H3 H4 H5 H6] W2 W3 W4 W5 [D1 D2 D3]] Hz Hcs. constructor; try done.
  intros [gi j|j] v Hne [Hw Hc]; [by split|]. split; [done|]. cbn. rewrite Hcs; [done|congruence].
Qed.

Lemma copies_restat s cs i v :
  fs_wf s -> free_zero s -> inode_at s i v -> (forall j, j <> i -> cs !! j = fs_copies s !! j) -> restat i v s (with_copies cs s).
Proof.
  intros Hwf Hz Hv Hcs. pose proof (copies_framed s cs i Hwf Hz Hcs) as F.
  constructor; [by apply (framed_weaken _ _ _ _ _ _ F); [right|]|apply copies_only|by apply (framed_inode _ _ _ _ F)].
Qed.

Lemma stored_restat s s' i v w : fs_wf s -> free_zero s -> inode_at s i v -> stored s s' (ip_of i) w -> restat i w s s'.
Proof.
  intros Hwf Hz Hv S. pose proof (stored_framed (fun _ => False) _ _ _ _ Hwf Hz S) as F.
  constructor; [by apply (framed_weaken _ _ _ _ _ _ F); [left|]|apply S|].
  apply inode_at_intro; [apply F| |apply Hv|by apply (fr_bits _ _ _ _ F), (inode_at_bit _ _ v)|apply S].
  rewrite <- (ia_ipg _ _ _ Hv). pose proof (fr_super _ _ _ _ F) as E. unfold sb_fixed in E. by injection E.
Qed.

(** [ic_commit] stores the copy. *)
Lemma commit_stored s i v w :
  inode_at (op_fs s) i v -> fs_copies (op_fs s) !! i = Some w -> inode_wf w = true ->
  exists fs', ic_commit i s = Ret 0 (with_opfs fs' s) /\ stored (op_fs s) fs' (ip_of i) w.
Proof.
  intros Hv Hw Hwf. destruct (cell_store (op_fs s) (ip_of i) v w (ia_cell _ _ _ Hv) Hwf) as (fs' & Hst & S).
  exists fs'. split; [|done]. unfold ic_commit. mstep (on_fs_eq _ _ _ _ (get_inode_at _ _ _ Hv)). rewrite with_opfs_id.
  assert (Hl : iload (InCopy i) (op_fs s) = Ret w (op_fs s)) by (apply cell_load; by split).
  mstep (on_fs_eq _ _ _ _ Hl). rewrite with_opfs_id. by mstep (on_fs_eq _ _ _ _ Hst).
Qed.

(** The last [rel_cache] stores the copy and drops it. *)
Lemma rel_cache_stored s i v w :
  inode_at (op_fs s) i v -> fs_copies (op_fs s) !! i = Some w -> inode_wf w = true -> st_ s !! i = Some (mk_icache 1 []) ->
  exists fs', rel_cache i s = Ret 0 (mk_op (with_copies (delete i (fs_copies fs')) fs') (delete i (st_ s)) (op_files s) (op_fresh s))
    /\ stored (op_fs s) fs' (ip_of i) w.
Proof.
  intros Hv Hw Hwf Hst. destruct (commit_stored s i v w Hv Hw Hwf) as (fs' & Hc & S). exists fs'. split; [|done].
  unfold rel_cache. rewrite (bind_ret _ _ _ s s) by done. rewrite Hst. cbn [cnts_]. change (u32 (1 - 1) =? 0) with true.
  cbn beta iota zeta. by mstep Hc.
Qed.

(** What changes when a copy comes and goes. *)
Record quiet (i : Z) (s s' : OpSt) : Prop := {
  qt_frame : framed (fun ip => ip = InCopy i) (fun _ => False) (op_fs s) (op_fs s');
  qt_dentry : fs_dentry (op_fs s') = fs_dentry (op_fs s);
  qt_st : st_ s' = st_ s;
  qt_files : op_files s' = op_files s;
  qt_fresh : op_fresh s' = op_fresh s;
  qt_room : forall j, room (op_fs s) j -> room (op_fs s') j;
  qt_left : forall j, inodes_left (op_fs s) j -> inodes_left (op_fs s') j
}.

Lemma rep_quiet s s' A k m i : rep s A k m -> st_ s !! i = None -> quiet i s s' -> rep s' A k m.
Proof.
  intros R Hi [F Hd Hst Hf Hfr Hro Hl]. apply (rep_kept _ s _ _ _ _ R F); try done.
  - intros j _. split; [done|]. intros [ic Hj] [= ->]. congruence.
  - destruct (rp_names _ _ _ _ R) as [K HK]. exists K. by rewrite Hd.
Qed.

Lemma room_copies s cs k : room s k -> room (with_copies cs s) k.
Proof. done. Qed.

(** A file that is not open is copied, and the copy is stored back. *)
Lemma get_rel_closed s i v :
  fs_wf (op_fs s) -> free_zero (op_fs s) -> inode_at (op_fs s) i v -> st_ s !! i = None ->
  exists s1 s', get_cache i s = Ret true s1 /\ on_fs (iload (InCopy i)) s1 = Ret v s1
    /\ rel_cache i s1 = Ret 0 s' /\ quiet i s s'.
Proof.
  intros Hwf Hz Hv Hst. destruct (inode_at_table _ _ _ Hv) as [g Hg]. pose proof (get_cache_first s i g v Hg Hst) as H1.
  set (s1 := mk_op _ _ _ _) in H1. pose proof (ia_cell _ _ _ Hv) as [Hvwf _].
  pose proof (copies_framed (op_fs s) (<[i := v]> (fs_copies (op_fs s))) i Hwf Hz (fun j Hj => lookup_insert_ne _ _ _ _ (not_eq_sym Hj))) as F1.
  assert (Hv1 : inode_at (op_fs s1) i v) by by apply (framed_inode _ _ _ _ F1).
  destruct (rel_cache_stored s1 i v v Hv1) as (fs' & Hr & S); [apply lookup_insert_eq|done|apply lookup_insert_eq|].
  pose proof (sd_only _ _ _ _ S) as O.
  pose proof (stored_same (fun _ => False) _ _ _ _ (fr_wf _ _ _ _ F1) (fr_zero _ _ _ _ F1) (ia_cell _ _ _ Hv1) S) as F2.
  eexists s1, _. split; [exact H1|]. split; [|split; [exact Hr|]].
  { rewrite (on_fs_eq _ _ v (op_fs s1)); [by rewrite with_opfs_id|]. apply cell_load. split; [done|apply lookup_insert_eq]. }
  constructor; cbn [op_fs st_ op_files op_fresh]; [| |by apply delete_insert_id|done|done| |].
  - apply (framed_trans _ _ (fun _ => False) _ (with_copies (<[i := v]> (fs_copies (op_fs s))) (op_fs s))); [exact F1| |done].
    apply (framed_trans _ _ (fun _ => False) _ fs'); [|by apply copies_framed; [apply F2|apply F2|intros j Hj; by apply lookup_delete_ne]|done].
    by apply (framed_weaken _ _ _ _ _ _ F2).
  - apply (io_dentry _ _ O).
  - intros j Hj. apply room_copies. by apply (inode_only_room (op_fs s1)).
  - intros j Hj. exact (inode_only_left (op_fs s1) fs' j O Hj).
Qed.

(** ** Reading and writing *)

Lemma attrs_owner v w : attrs v = attrs w -> owner_of v = owner_of w.
Proof.
  intros E. unfold owner_of. pose proof (f_equal i_mode E) as H1. pose proof (f_equal i_gid E) as H2. pose proof (f_equal i_uid E) as H3.
  cbn in *. congruence.
Qed.

(** An open handle: its state, its file and its copy. *)
Lemma rep_handle s A k m fd i :
  rep s A k m -> a_open A !! fd = Some i ->
  exists f ic c v n w n', op_files s !! fd = Some f /\ f_inode_id f = i /\ st_ s !! i = Some ic /\ a_data A !! i = Some c
    /\ inode_at (op_fs s) i v /\ S_ISREG (i_mode v) = true /\ growable (op_fs s) (ip_of i) v n
    /\ opened s i ic w n' /\ holds s w c /\ ahead (op_fs s) v n w n' /\ owner_of w = owner_of v.
Proof.
  intros R Hfd. destruct (rp_reg _ _ _ _ R fd i Hfd) as [c Hc]. destruct (rp_file _ _ _ _ R i c Hc) as (v & n & Hv & Hreg & G & H).
  destruct (proj2 (rp_st _ _ _ _ R i)) as [ic Hic]; [by exists fd|]. rewrite Hic in H. destruct H as (w & n' & O & Hh & Ha & Ho).
  rewrite (rp_open _ _ _ _ R) in Hfd. apply fmap_Some in Hfd as (f & Hf & ->). by exists f, ic, c, v, n, w, n'.
Qed.

Section IO.
Context (s s1 s' : OpSt) (A : afs) (k m cst : Z) (fd : positive) (i : Z) (f f' : FileStatus) (ic : InodeCache).
Context (v w w' : ext2_inode) (n n' n'' off : Z) (bs c' : list byte).
Hypothesis R : rep s A k m.
Hypothesis Hf : op_files s !! fd = Some f.
Hypothesis Hi : f_inode_id f = i.
Hypothesis Hic : st_ s !! i = Some ic.
Hypothesis Hv : inode_at (op_fs s) i v.
Hypothesis Hreg : S_ISREG (i_mode v) = true.
Hypothesis G : growable (op_fs s) (ip_of i) v n.
Hypothesis O : opened s i ic w n'.
Hypothesis Ha : ahead (op_fs s) v n w n'.
Hypothesis Ho : owner_of w = owner_of v.
Hypothesis Hfs : op_fs s1 = op_fs s'.
Hypothesis S : wstep fd i w w' n' n'' off bs s s1.
Hypothesis Hsame : same_handles s s'.
Hypothesis Hst : st_ s' = st_ s.
Hypothesis Hothers : forall q g, q <> fd -> op_files s !! q = Some g -> exists g', op_files s' !! q = Some g' /\ flagged g' g.
Hypothesis Hf' : op_files s' !! fd = Some f'.
Hypothesis Hi' : f_inode_id f' = i.
Hypothesis Hhd : handle_ok (op_fs s') w' n'' f'.
Hypothesis G' : growable (op_fs s') (InCopy i) w' n''.
Hypothesis Hfit : i_size w' <= BLOCK_SIZE * n''.
Hypothesis Hh : holds s' w' c'.
Hypothesis Hn : n'' <= n' + cst.
Hypothesis Hcst : 0 <= cst <= k.

Lemma io_open : a_open A !! fd = Some i.
Proof. rewrite (rp_open _ _ _ _ R), Hf. cbn. by rewrite Hi. Qed.

Lemma io_from q g' : op_files s' !! q = Some g' -> q <> fd -> exists g, op_files s !! q = Some g /\ flagged g' g.
Proof.
  intros Hq Hne. destruct (proj1 (proj2 Hsame q)) as [g Hg]; [by eexists|]. exists g. split; [done|].
  destruct (Hothers q g Hne Hg) as (g1 & Hg1 & Hfl). congruence.
Qed.

Lemma io_kept j : j <> i -> handles_kept s s' j.
Proof.
  intros Hj. constructor; [by rewrite Hst| |].
  - intros q g' Hq Hqj. apply io_from; [done|]. congruence.
  - intros q g Hq Hqj. apply Hothers; [congruence|done].
Qed.

Lemma io_opened : opened s' i ic w' n''.
Proof.
  assert (K : keeps_tree (op_fs s) w (op_fs s') w' n') by (rewrite <- Hfs; apply (st_tree S)).
  constructor; [done|done|apply O|apply O| |].
  - intros q. rewrite (op_vec _ _ _ _ _ O). split.
    + intros (g & Hg & Hgi). destruct (decide (q = fd)) as [->|Hne]; [by exists f'|].
      destruct (Hothers q g Hne Hg) as (g' & Hg' & Hfl). exists g'. by rewrite (flagged_id _ _ Hfl).
    + intros (g' & Hg' & Hgi). destruct (decide (q = fd)) as [->|Hne]; [by exists f|].
      destruct (io_from q g' Hg' Hne) as (g & Hg & Hfl). exists g. by rewrite <- (flagged_id _ _ Hfl).
  - intros q g' Hg' Hgi. destruct (decide (q = fd)) as [->|Hne]; [congruence|].
    destruct (io_from q g' Hg' Hne) as (g & Hg & Hfl).
    apply (handle_keep (op_fs s) w n' g); [apply (op_handles _ _ _ _ _ O q g Hg); by rewrite <- (flagged_id _ _ Hfl)
      |apply O|done|apply (st_le S)|apply G'|done].
Qed.

Lemma io_framed : framed (fun ip => ip = InCopy i) (fun b => b ∈ tree (op_fs s) w n') (op_fs s) (op_fs s').
Proof. rewrite <- Hfs. apply (wstep_framed fd i w w' n' n'' off bs); [by rewrite Hfs|done]. Qed.

Lemma io_current : current s i w n'.
Proof. unfold current. rewrite Hic. apply O. Qed.

Lemma rep_io : rep s' (a_writes i c' A) (k - cst) m.
Proof.
  assert (K : keeps_tree (op_fs s) w (op_fs s') w' n') by (rewrite <- Hfs; apply (st_tree S)). pose proof (st_le S) as Hle.
  pose proof io_framed as F. destruct (ahead_step _ _ _ _ _ _ _ n'' Ha K Hle) as [Ha' Kv].
  assert (Hd : is_Some (a_data A !! i)) by by apply (rp_reg _ _ _ _ R fd), io_open.
  destruct (proj1 (rp_data _ _ _ _ R i) Hd) as [Hin HT].
  assert (Hv' : inode_at (op_fs s') i v) by by apply (framed_inode _ _ _ _ F).
  assert (Htree : tree_ok (op_fs s') (a_dirs A)).
  { apply (tree_ok_written _ _ _ _ _ i (rp_tree _ _ _ _ R) HT F); [done| |].
    - intros j u b Hj Hne Hu Hb Hbw. destruct (decide (is_file u = true)) as [Hfl|Hfl].
      + apply (rp_apart _ _ _ _ R j i b Hj Hin Hne); [by apply (blocks_owned s A k m j u)|]. exists w, n'. by split; [apply io_current|].
      + destruct (to_node _ _ (rp_tree _ _ _ _ R) j Hj) as (u0 & Hu0 & _ & Hk). assert (u0 = u) as -> by by apply (inode_at_inj (op_fs s) j).
        destruct (a_dirs A !! j) as [M|] eqn:HTj; [destruct Hk as [Hk _]; unfold is_file in Hfl; by rewrite Hk in Hfl|].
        destruct (proj2 (rp_data _ _ _ _ R j)) as [cj Hcj]; [done|]. destruct (rp_file _ _ _ _ R j cj Hcj) as (u1 & n1 & Hu1 & Hr1 & _).
        assert (u1 = u) as -> by by apply (inode_at_inj (op_fs s) j). unfold is_file in Hfl. rewrite Hr1, orb_true_r in Hfl. done.
    - intros u nu Gu. destruct (growable_inj _ _ _ _ _ _ G Gu) as [<- <-]. done. }
  pose proof (rp_owner _ _ _ _ R i v Hin Hv) as Hown. destruct Hsame as [Hfr Hdom].
  replace (a_writes i c' A) with (mk_afs (a_dirs A) (<[i := c']> (a_data A)) (<[i := owner_of v]> (a_owner A)) (a_open A) (op_fresh s'))
    by (unfold a_writes; rewrite (insert_id (a_owner A)) by done; by rewrite Hfr, <- (rp_next _ _ _ _ R)).
  apply (rep_touch s s' A k (k - cst) m i c' (owner_of v) (a_open A) _ _ R Hd F); try done.
  - intros j Hj. split; [done|]. congruence.
  - intros b Hb. exists w, n'. by split; [apply io_current|].
  - rewrite <- Hfs. apply (st_meta S).
  - apply io_kept.
  - exists v, n. split; [done|]. split; [done|]. split; [|rewrite Hst, Hic; exists w', n''].
    + apply (growable_keeps (op_fs s)); [done|apply F|apply F|apply F|apply Hv'|done|apply F].
    + split; [apply io_opened|]. split; [done|]. split; [done|]. rewrite <- Ho. apply attrs_owner, (st_attrs S).
  - intros u Hu. by rewrite (inode_at_inj _ _ _ _ Hu Hv').
  - intros b (u & nu & Hu & Hb). unfold current in Hu. rewrite Hst, Hic in Hu. destruct (growable_inj _ _ _ _ _ _ G' Hu) as [<- <-].
    rewrite <- Hfs in Hb. apply (st_new S) in Hb as [Hb|Hb]; [left|by right]. exists w, n'. by split; [apply io_current|].
  - intros q. destruct (decide (q = fd)) as [->|Hne]; [rewrite io_open, Hf'; cbn; congruence|].
    rewrite (rp_open _ _ _ _ R). destruct (op_files s !! q) as [g|] eqn:Hq.
    + destruct (Hothers q g Hne Hq) as (g' & -> & Hfl). cbn. by rewrite (flagged_id _ _ Hfl).
    + destruct (op_files s' !! q) as [g'|] eqn:Hq'; [|done]. destruct (io_from q g' Hq' Hne) as (g & Hg & _). congruence.
  - rewrite Hst. apply R.
  - apply R.
  - intros q Hq. rewrite Hfr. apply (rp_fresh _ _ _ _ R). by apply Hdom.
  - rewrite <- Hfs. apply (st_room S). apply (room_le _ _ _ (rp_room _ _ _ _ R)). lia.
  - rewrite <- Hfs. apply (km_left _ _ (st_meta S)), R.
  - intros u nu Hu. unfold current in Hu. rewrite Hst, Hic in Hu. destruct (growable_inj _ _ _ _ _ _ G' Hu) as [<- <-].
    pose proof (rp_max _ _ _ _ R i w n' Hd io_current). lia.
  - lia.
Qed.
End IO.

(** ** getattr *)

Section Calls.
Context {clock : Clock} {caller : Caller}.

Definition stat_of (i : Z) (v : ext2_inode) : Stat :=
  mk_stat i (i_mode v) (i_links_count v) (i_uid v) (i_gid v) (i_size v) (i_blocks v) (i_atime v) (i_mtime v) (i_ctime v).

Lemma or_errno_found {R} (f : Z -> R) (m : M OpSt (RetCode + Found)) s x s' :
  m s = Ret (inr x) s' -> or_errno f m s = Ret (inr x) s'.
Proof. intros H. unfold or_errno. by mstep H. Qed.

Lemma or_errno_err {R} (f : Z -> R) (m : M OpSt (RetCode + Found)) s e s' :
  m s = Ret (inl e) s' -> or_errno f m s = Ret (inl (f (Code2Errno e))) s'.
Proof. intros H. unfold or_errno. by mstep H. Qed.

(** A copy is taken, read and released, whether the file is open or not. *)
Lemma stat_cycle s A k m i :
  rep s A k m -> in_tree (a_dirs A) i ->
  exists s1 v s', get_cache i s = Ret true s1 /\ on_fs (iload (InCopy i)) s1 = Ret v s1 /\ rel_cache i s1 = Ret 0 s'
    /\ rep s' A k m /\ a_owner A !! i = Some (owner_of v)
    /\ forall c, a_data A !! i = Some c -> i_size v = Z.of_nat (length c).
Proof.
  intros R Hi. destruct (tree_wf _ _ (rp_tree _ _ _ _ R)) as [Hwf Hz].
  destruct (to_node _ _ (rp_tree _ _ _ _ R) i Hi) as (v & Hv & _). destruct (st_ s !! i) as [ic|] eqn:Hst.
  - destruct (proj1 (rp_st _ _ _ _ R i)) as [fd Hfd]; [by eexists|]. destruct (rp_reg _ _ _ _ R fd i Hfd) as [c Hc].
    destruct (rp_file _ _ _ _ R i c Hc) as (u & n & Hu & _ & _ & H). rewrite Hst in H. destruct H as (w & n' & O & [HL _] & _ & Ho).
    destruct (get_rel_cache_shared s i ic Hst) as [H1 H2]; [by apply (open_count s A k m i ic w n')|].
    eexists _, w, s. split; [exact H1|]. split; [|split; [exact H2|]].
    + rewrite (on_fs_eq _ _ w (op_fs s)); [done|]. apply cell_load, (gb_cell _ _ _ _ (op_grow _ _ _ _ _ O)).
    + split; [done|]. split; [rewrite Ho; by apply (rp_owner _ _ _ _ R)|]. intros c' Hc'. congruence.
  - destruct (get_rel_closed s i v Hwf Hz Hv Hst) as (s1 & s' & H1 & H2 & H3 & Q). exists s1, v, s'.
    do 3 (split; [done|]). split; [by apply (rep_quiet s s' A k m i)|]. split; [by apply (rp_owner _ _ _ _ R)|].
    intros c Hc. destruct (rp_file _ _ _ _ R i c Hc) as (u & n & Hu & _ & _ & H). rewrite Hst in H. destruct H as (_ & HL & _).
    assert (u = v) as -> by by apply (inode_at_inj (op_fs s) i). done.
Qed.

Lemma getattr_ok s A k m path :
  rep s A k m -> path_pre (a_dirs A) path ->
  exists e st s', fuse_getattr (path_string path) true s = Ret (e, st) s' /\ rep s' A k m
    /\ spec_call A (Getattr path) (Attr e st) A.
Proof.
  intros R Hp. destruct (lookup_rep s A k m path R Hp) as (r & fs' & Hl & R1 & Hr). cbn [spec_call].
  destruct (walk (a_dirs A) ROOT_INODE path) as [e|i].
  - subst r. exists (Code2Errno e), None, (with_opfs fs' s). split; [|done]. unfold fuse_getattr. apply body_stop.
    rewrite (try_bind_go _ _ _ tt s) by done. apply try_bind_stop.
    by rewrite (or_errno_err _ _ _ _ _ Hl).
  - destruct Hr as [[parent ->] Hi]. destruct (stat_cycle _ A k m i R1 Hi) as (s1 & v & s' & H1 & H2 & H3 & R' & Ho & Hs).
    exists 0, (Some (stat_of i v)), s'. split; [|split; [done|by exists (stat_of i v)]].
    unfold fuse_getattr. apply body_go. rewrite (try_bind_go _ _ _ tt s) by done. tstep (or_errno_found (fun e => (e, None : option Stat)) _ _ _ _ Hl). cbn [fd_index].
    mstep H1. rewrite (try_bind_go _ _ _ tt s1) by done. mstep H2. by mstep H3.
Qed.

(** ** read and write *)

Lemma write_ok s A k m fd flags buf offset i c :
  rep s A k m -> a_open A !! fd = Some i -> a_data A !! i = Some c ->
  may_write flags = true -> 0 < Z.of_nat (length buf) < 2 ^ 31 ->
  0 <= write_pos flags offset c <= Z.of_nat (length c) ->
  write_pos flags offset c + Z.of_nat (length buf) + BLOCK_SIZE < 2 ^ 32 -> cost (Z.of_nat (length buf)) <= k ->
  exists s', fuse_write buf (Z.of_nat (length buf)) offset (file_info (Some fd) flags) s = Ret (Z.of_nat (length buf)) s'
    /\ rep s' (a_writes i (splice (write_pos flags offset c) buf c) A) (k - cost (Z.of_nat (length buf))) m.
Proof.
  intros R Hfd Hc Hm Hlen Hpos H32 Hk. destruct (rep_handle _ _ _ _ _ _ R Hfd) as
    (f & ic & c0 & v & n & w & n' & Hf & Hi & Hic & Hc0 & Hv & Hreg & G & O & Hh & Ha & Ho).
  assert (c0 = c) as -> by congruence. pose proof (opened_file s i ic w n' fd f O Hic Hf Hi) as Of.
  assert (Hcur : current s i w n') by (unfold current; rewrite Hic; apply O).
  pose proof (rp_max _ _ _ _ R i w n' ltac:(by eexists) Hcur) as Hmax. pose proof (rp_left _ _ _ _ R) as [Hk0 Hm0].
  set (cst := cost (Z.of_nat (length buf))) in *.
  assert (Hcst : 0 <= cst) by (unfold cst, cost; pose proof (Z.div_pos (Z.of_nat (length buf)) BLOCK_SIZE ltac:(lia) ltac:(done)); lia).
  destruct (fuse_write_full s fd f w n' flags offset buf c (k - cst) Of Hh) as (s' & f' & w' & n'' & H & W & Hh' & _ & Hn).
  { constructor; [done|done|done|done| |lia]. fold cst. split; [apply (room_le _ _ _ (rp_room _ _ _ _ R)); lia|lia]. }
  exists s'. split; [exact H|]. destruct (written_ready _ _ _ _ _ _ _ _ _ _ _ W) as (Ws & (Hp0 & _ & Hcu) & Hp & Hid).
  destruct (wr_step _ _ _ _ _ _ _ _ _ _ _ W) as (s1 & E1 & S). rewrite Hi in S, Hid. pose proof (ws_grow _ _ _ _ _ Ws) as G'. rewrite Hid in G'.
  apply (rep_io s s1 s' A k m cst fd i f f' ic v w w' n n' n'' (write_pos flags offset c) buf); try done.
  - by apply (steady_write _ _ _ _ _ _ _ H).
  - apply W.
  - apply W.
  - apply W.
  - constructor; [lia|by left|done].
  - apply Ws.
Qed.

Lemma read_ok s A k m fd flags size offset i c :
  rep s A k m -> a_open A !! fd = Some i -> a_data A !! i = Some c ->
  Z.land flags O_ACCMODE <> O_WRONLY -> 0 <= offset -> 0 <= size < 2 ^ 31 ->
  let len := Z.of_nat (length c) in
  exists bs s', fuse_read size offset (file_info (Some fd) flags) s = Ret (read_len len offset size, bs) s'
    /\ Z.of_nat (length bs) = read_len len offset size /\ take (Z.to_nat (len - offset)) bs = slice offset size c
    /\ rep s' A k m.
Proof.
  intros R Hfd Hc Hfl Hoff Hsz len. destruct (rep_handle _ _ _ _ _ _ R Hfd) as
    (f & ic & c0 & v & n & w & n' & Hf & Hi & Hic & Hc0 & Hv & Hreg & G & O & Hh & Ha & Ho).
  assert (c0 = c) as -> by congruence. pose proof (opened_file s i ic w n' fd f O Hic Hf Hi) as Of.
  destruct (fuse_read_bytes s fd f w n' c flags offset size Of Hh Hfl Hoff Hsz) as (s' & f' & bs & H & Hl & Hb & O' & Hh' & Hid & Hpos & S & _).
  exists bs, s'. split; [exact H|]. split; [done|]. split; [done|].
  replace A with (a_writes i c A) by (unfold a_writes; rewrite insert_id by done; by destruct A).
  replace k with (k - 0) by lia. rewrite Hi in S, Hid. pose proof (ws_grow _ _ _ _ _ (of_state _ _ _ _ _ O')) as G'. rewrite Hid in G'.
  destruct (of_ready _ _ _ _ _ O') as (Hp0 & _ & Hcu). pose proof (rp_left _ _ _ _ R).
  apply (rep_io s s' s' A k m 0 fd i f f' ic v w w n n' n' 0 []); try done; try apply (S 0); try lia.
  - by apply (steady_read _ _ _ _ _ _ H).
  - intros q g Hne Hq. exists g. split; [|by left]. by rewrite (st_handles (S 0)).
  - apply O'.
  - constructor; [lia| |done]. destruct Hpos as [->|?]; [|by left]. apply (op_handles _ _ _ _ _ O fd f Hf Hi).
  - apply O'.
Qed.
End Calls.
