(* ===== verification/SessionOpen.v ===== *)
(** * Sessions: opening and closing files

    [fuse_open] and [fuse_release] against the abstract file system.  The
    first handle of a file copies its inode, further ones share the copy, and
    the last one stores it back, with the blocks that writes have given it. *)

From S2P Require Import Prelude Layout Disk Bitmap PathName Block BlockGroup BlockCache DentryCache DentryTree.
From S2P Require Import FileSystem FileStatus OpenFiles FsBlocks FileData FsPointers FsAlloc FileBlocks FsInodes FileGrow FileWrite FileIO FsMount Handlers InodeAttrs.
From S2P Require Import DirBlock Directory PathLookup Frames PathCreate AbstractFs Steady OpenTree SessionIO.

(** ** Taking the copy of a file *)

(** What a handle of file [i] will find: the copy [w] of [n'] blocks, which
    the handles [l] share. *)
Record copied (s : OpSt) (i : Z) (c : list byte) (l : list positive) (v w : ext2_inode) (n n' : Z) : Prop := {
  cp_at : inode_at (op_fs s) i v;
  cp_reg : S_ISREG (i_mode v) = true;
  cp_grow : growable (op_fs s) (ip_of i) v n;
  cp_current : current s i w n';
  cp_place : exists ip, growable (op_fs s) ip w n';
  cp_fits : i_size w <= BLOCK_SIZE * n';
  cp_holds : holds s w c;
  cp_ahead : ahead (op_fs s) v n w n';
  cp_owner : owner_of w = owner_of v;
  cp_count : Z.of_nat (length l) < MAX_HANDLES;
  cp_nodup : NoDup l;
  cp_vec : forall fd, fd ∈ l <-> exists f, op_files s !! fd = Some f /\ f_inode_id f = i;
  cp_handles : forall fd f, op_files s !! fd = Some f -> f_inode_id f = i -> handle_ok (op_fs s) w n' f
}.

(** [get_cache] in a state with the same files and any handles. *)
Lemma get_cache_rep s A k m i c :
  rep s A k m -> a_data A !! i = Some c ->
  exists cs l v w n n', copied s i c l v w n n'
    /\ cs !! i = Some w /\ (forall j, j <> i -> cs !! j = fs_copies (op_fs s) !! j)
    /\ forall files fresh, get_cache i (mk_op (op_fs s) (st_ s) files fresh)
      = Ret true (mk_op (with_copies cs (op_fs s)) (<[i := mk_icache (Z.of_nat (length l) + 1) l]> (st_ s)) files fresh).
Proof.
  intros R Hc. destruct (rp_file _ _ _ _ R i c Hc) as (v & n & Hv & Hreg & G & H). destruct (st_ s !! i) as [ic|] eqn:Hst.
  - destruct H as (w & n' & O & Hh & Ha & Ho). pose proof (open_count s A k m i ic w n' R Hst O) as Hcnt.
    exists (fs_copies (op_fs s)), (vec ic), v, w, n, n'. rewrite <- (op_count _ _ _ _ _ O). split; [|split; [|split; [done|]]].
    + constructor; try done; try apply O; [unfold current; rewrite Hst; apply O|eexists; apply O|].
      rewrite <- (op_count _ _ _ _ _ O). lia.
    + apply (gb_cell _ _ _ _ (op_grow _ _ _ _ _ O)).
    + intros files fresh. destruct (get_rel_cache_shared (mk_op (op_fs s) (st_ s) files fresh) i ic Hst Hcnt) as [-> _].
      unfold with_st. cbn [op_fs op_files op_fresh st_]. by destruct (op_fs s).
  - destruct H as [Hfit Hh]. destruct (inode_at_table _ _ _ Hv) as [g Hg].
    exists (<[i := v]> (fs_copies (op_fs s))), [], v, v, n, n. split; [|split; [apply lookup_insert_eq|split]].
    + assert (Hno : forall fd f, op_files s !! fd = Some f -> f_inode_id f = i -> False).
      { intros fd f Hf Hi. destruct (proj2 (rp_st _ _ _ _ R i)) as [ic Hic]; [|congruence].
        exists fd. rewrite (rp_open _ _ _ _ R), Hf. cbn. by rewrite Hi. }
      constructor; try done; [unfold current; by rewrite Hst|by eexists|constructor| |].
      * intros fd. split; [by intros ?%elem_of_nil|]. intros (f & Hf & Hi). destruct (Hno fd f Hf Hi).
      * intros fd f Hf Hi. destruct (Hno fd f Hf Hi).
    + intros j Hj. by apply lookup_insert_ne.
    + intros files fresh. by rewrite (get_cache_first (mk_op (op_fs s) (st_ s) files fresh) i g v Hg Hst).
Qed.

(** The handle [q] is added, and the copy gets other times. *)
Definition with_handle (s : OpSt) (i : Z) (cs : gmap Z ext2_inode) (l : list positive) : OpSt :=
  mk_op (with_copies cs (op_fs s)) (<[i := mk_icache (Z.of_nat (length l) + 1) (op_fresh s :: l)]> (st_ s))
    (<[op_fresh s := init_seek (FileStatus_init i)]> (op_files s)) (Pos.succ (op_fresh s)).

Section Opening.
Context (s : OpSt) (A : afs) (k m i : Z) (c : list byte) (l : list positive) (v w w' : ext2_inode) (n n' : Z).
Context (cs : gmap Z ext2_inode).
Hypothesis R : rep s A k m.
Hypothesis Hc : a_data A !! i = Some c.
Hypothesis C : copied s i c l v w n n'.
Hypothesis Hcs : cs !! i = Some w'.
Hypothesis Hcs' : forall j, j <> i -> cs !! j = fs_copies (op_fs s) !! j.
Hypothesis Hwf : inode_wf w' = true.
Hypothesis Hlay : same_layout w' w.
Hypothesis Hsize : i_size w' = i_size w.
Hypothesis Hown : owner_of w' = owner_of w.
Hypothesis Hmore : handles_pre A.

Let s' := with_handle s i cs l.

Lemma opening_fresh : op_files s !! op_fresh s = None.
Proof.
  destruct (op_files s !! op_fresh s) eqn:E; [|done]. pose proof (rp_fresh _ _ _ _ R (op_fresh s) ltac:(by eexists)). lia.
Qed.

Lemma opening_reg : S_ISREG (i_mode w') = true.
Proof.
  pose proof (cp_reg _ _ _ _ _ _ _ _ C) as Hr. pose proof (cp_owner _ _ _ _ _ _ _ _ C) as E. unfold owner_of in *. congruence.
Qed.

Lemma opening_grow : growable (op_fs s') (InCopy i) w' n' /\ tree (op_fs s') w' n' = tree (op_fs s) w n'.
Proof.
  destruct (cp_place _ _ _ _ _ _ _ _ C) as [ip G]. apply (only_grow (op_fs s) _ ip); [done|apply copies_only| |done|].
  - by split.
  - unfold is_file. by rewrite opening_reg, orb_true_r.
Qed.

Lemma opening_files q f : op_files s' !! q = Some f -> q = op_fresh s /\ f = init_seek (FileStatus_init i) \/ op_files s !! q = Some f.
Proof.
  cbn. destruct (decide (q = op_fresh s)) as [->|Hne]; [rewrite lookup_insert_eq|rewrite lookup_insert_ne by done]; [|by right].
  intros [= <-]. by left.
Qed.

Lemma opening_old q f : op_files s !! q = Some f -> op_files s' !! q = Some f.
Proof. intros Hf. cbn. rewrite lookup_insert_ne; [done|]. intros <-. pose proof opening_fresh. congruence. Qed.

Lemma opening_opened : opened s' i (mk_icache (Z.of_nat (length l) + 1) (op_fresh s :: l)) w' n'.
Proof.
  destruct opening_grow as [G _]. pose proof (only_keeps _ (op_fs s') w w' n' (copies_only cs (op_fs s)) (proj1 Hlay)) as K.
  constructor; cbn [cnts_ vec]; [done|rewrite Hsize; apply C|cbn [length]; lia| | |].
  - apply NoDup_cons. split; [|apply C]. intros Hin. apply (cp_vec _ _ _ _ _ _ _ _ C) in Hin as (f & Hf & _).
    pose proof opening_fresh. congruence.
  - intros fd. rewrite elem_of_cons, (cp_vec _ _ _ _ _ _ _ _ C). split.
    + intros [->|(f & Hf & Hi)]; [eexists; cbn; by rewrite lookup_insert_eq|]. exists f. split; [by apply opening_old|done].
    + intros (f & [[-> _]|Hf]%opening_files & Hi); [by left|right; by exists f].
  - intros fd f [[-> ->]|Hf]%opening_files Hi; [apply handle_new|]. destruct (cp_place _ _ _ _ _ _ _ _ C) as [ip Gw].
    apply (handle_keep (op_fs s) w n' f); [by apply (cp_handles _ _ _ _ _ _ _ _ C fd)|apply Gw|exact K|lia|apply G|by left].
Qed.

Lemma rep_opening : rep s' (a_opens i A) k m.
Proof.
  destruct (tree_wf _ _ (rp_tree _ _ _ _ R)) as [Hfwf Hz]. pose proof (copies_framed (op_fs s) cs i Hfwf Hz Hcs') as F.
  destruct opening_grow as [G Ht]. pose proof (copies_only cs (op_fs s)) as O. destruct (cp_place _ _ _ _ _ _ _ _ C) as [ip Gw].
  pose proof (only_keeps _ (op_fs s') w w' n' O (proj1 Hlay)) as K. destruct (ahead_step _ _ _ _ _ _ _ n' (cp_ahead _ _ _ _ _ _ _ _ C) K ltac:(lia)) as [Ha _].
  assert (Hv : inode_at (op_fs s') i v) by (apply (framed_inode _ _ _ _ F); [apply C|done]).
  assert (Hst : st_ s' !! i = Some (mk_icache (Z.of_nat (length l) + 1) (op_fresh s :: l))) by apply lookup_insert_eq.
  assert (Hcur : forall u nu, current s' i u nu -> u = w' /\ nu = n').
  { intros u nu. unfold current. rewrite Hst. intros Gu. by destruct (growable_inj _ _ _ _ _ _ G Gu) as [<- <-]. }
  assert (Hin : in_tree (a_dirs A) i) by (apply (rp_data _ _ _ _ R); by eexists).
  replace (a_opens i A) with (mk_afs (a_dirs A) (<[i := c]> (a_data A)) (<[i := owner_of v]> (a_owner A)) (<[op_fresh s := i]> (a_open A)) (op_fresh s')).
  2:{ unfold a_opens. rewrite (insert_id (a_data A)) by done. rewrite (insert_id (a_owner A)) by (apply (rp_owner _ _ _ _ R); [done|apply C]).
      by rewrite (rp_next _ _ _ _ R). }
  apply (rep_touch s s' A k k m i c (owner_of v) _ _ _ R ltac:(by eexists) F); try done.
  - intros j Hj. split; [done|]. congruence.
  - apply (tree_ok_framed _ _ _ _ _ (rp_tree _ _ _ _ R) F); [done|tauto].
  - intros j Hj. constructor.
    + cbn. by rewrite lookup_insert_ne.
    + intros fd f [[-> ->]|Hf]%opening_files Hi; [by destruct Hj|]. exists f. split; [done|by left].
    + intros fd f Hf Hi. exists f. split; [by apply opening_old|by left].
  - exists v, n. split; [done|]. split; [apply C|]. split; [|rewrite Hst; exists w', n'].
    + destruct (framed_grow _ _ _ _ F (ip_of i) v n) as (G' & _); [apply C|done|tauto|done].
    + split; [apply opening_opened|]. split; [|split; [done|]].
      * apply (only_holds s s' ip w w' n'); [done|done|apply Hlay|done|apply C|apply C].
      * rewrite Hown. apply C.
  - intros u Hu. by rewrite (inode_at_inj _ _ _ _ Hu Hv).
  - intros b (u & nu & Hu & Hb). destruct (Hcur _ _ Hu) as [-> ->]. left. exists w, n'. split; [apply C|]. by rewrite <- Ht.
  - intros fd. cbn. destruct (decide (fd = op_fresh s)) as [->|Hne]; [by rewrite !lookup_insert_eq|].
    rewrite !lookup_insert_ne by done. apply R.
  - rewrite Hst. split; [|by eexists]. intros _. exists (op_fresh s). apply lookup_insert_eq.
  - rewrite map_size_insert_None; [unfold handles_pre in Hmore; lia|]. by rewrite (rp_open _ _ _ _ R), opening_fresh.
  - intros fd Hfd. cbn. cbn in Hfd. destruct (decide (fd = op_fresh s)) as [->|Hne]; [lia|].
    rewrite lookup_insert_ne in Hfd by done. pose proof (rp_fresh _ _ _ _ R fd Hfd). lia.
  - apply (only_left _ _ O), R.
  - apply (only_left _ _ O), R.
  - intros u nu [-> ->]%Hcur. apply (rp_max _ _ _ _ R i w n'); [by eexists|apply C].
  - pose proof (rp_left _ _ _ _ R). lia.
Qed.
End Opening.

(** The steps that [fuse_open] and [fuse_create] share. *)
Lemma handle_steps s A k m i c :
  rep s A k m -> a_data A !! i = Some c ->
  exists cs l v w n n', copied s i c l v w n n' /\ cs !! i = Some w /\ (forall j, j <> i -> cs !! j = fs_copies (op_fs s) !! j)
    /\ exists s1 s2 s3, file_new i s = Ret (op_fresh s) s1 /\ get_cache i s1 = Ret true s2
      /\ upd_cache (op_fresh s) i s2 = Ret tt s3 /\ file_get (op_fresh s) s3 = Ret (FileStatus_init i) s3
      /\ file_set (op_fresh s) (init_seek (FileStatus_init i)) s3 = Ret tt (with_handle s i cs l).
Proof.
  intros R Hc. destruct (get_cache_rep s A k m i c R Hc) as (cs & l & v & w & n & n' & C & Hw & Hcs & Hg).
  exists cs, l, v, w, n, n'. do 3 (split; [done|]). eexists _, _, _. split; [reflexivity|]. split; [apply Hg|].
  split; [unfold upd_cache; rewrite (bind_ret _ _ _ _ _ (eq_refl : get_st _ = Ret _ _)); cbn [st_]; rewrite lookup_insert_eq;
          unfold set_st, modify_st; cbn [op_fs st_ op_files op_fresh cnts_ vec]; by rewrite insert_insert_eq|].
  split.
  - unfold file_get. rewrite (bind_ret _ _ _ _ _ (eq_refl : get_st _ = Ret _ _)). cbn [op_files]. by rewrite lookup_insert_eq.
  - unfold file_set, set_files, modify_st, with_handle. cbn [op_fs st_ op_files op_fresh]. by rewrite insert_insert_eq.
Qed.

(** The copy behind the handle changes. *)
Lemma handle_update s i cs l w f :
  cs !! i = Some w -> copy_update i f (with_handle s i cs l) = Ret tt (with_handle s i (<[i := f w]> cs) l).
Proof. intros H. by rewrite (copy_update_eq (with_handle s i cs l) i w f H). Qed.

(** ** open *)

Section Calls.
Context {clock : Clock} {caller : Caller}.

Definition open_times (flags : Z) (i : ext2_inode) : ext2_inode :=
  let i := set_i_ctime (u32 now) (set_i_atime (u32 now) i) in
  if Z.land flags O_ACCMODE =? O_RDONLY then i else set_i_mtime (u32 now) i.

Lemma open_ok s A k m path flags :
  rep s A k m -> path_pre (a_dirs A) path -> handles_pre A ->
  (forall i, walk (a_dirs A) ROOT_INODE path = inr i -> is_Some (a_data A !! i)) ->
  exists e fh s' A', fuse_open (path_string path) flags s = Ret (e, fh) s' /\ rep s' A' k m
    /\ spec_call A (Open path flags) (Handle e fh) A'.
Proof.
  intros R Hp Hmore Hreg. destruct (lookup_rep s A k m path R Hp) as (r & fs' & Hl & R1 & Hr). cbn [spec_call].
  destruct (walk (a_dirs A) ROOT_INODE path) as [e|i].
  { subst r. exists (Code2Errno e), None, (with_opfs fs' s), A. split; [|done]. unfold fuse_open. apply body_stop, try_bind_stop.
    by rewrite (or_errno_err _ _ _ _ _ Hl). }
  destruct Hr as [[parent ->] Hi]. destruct (Hreg i eq_refl) as [c Hc]. set (s1 := with_opfs fs' s) in *.
  destruct (handle_steps s1 A k m i c R1 Hc) as (cs & l & v & w & n & n' & C & Hw & Hcs & s2 & s3 & s4 & H2 & H3 & H4 & H5 & H6).
  pose proof (cp_at _ _ _ _ _ _ _ _ C) as Hv. pose proof (rp_owner _ _ _ _ R1 i v Hi Hv) as Ho.
  assert (Hload : on_fs (iload (ip_of i)) s1 = Ret v s1).
  { rewrite (on_fs_eq _ _ v (op_fs s1)); [by rewrite with_opfs_id|]. apply cell_load, Hv. }
  assert (Hpre : forall b r s', guard (permits v (asks_read flags) (asks_write flags) false) (- EACCES, None : option positive) s1 = Ret b s1 ->
    match b with
    | inl x => r = x /\ s' = s1
    | inr _ => exists s5, (if Z.land flags O_ACCMODE =? O_RDONLY then mret tt else copy_update i (set_i_mtime (u32 now)))
        (with_handle s1 i (<[i := set_i_ctime (u32 now) (set_i_atime (u32 now) w)]> cs) l) = Ret tt s5 /\ r = (0, Some (op_fresh s1)) /\ s' = s5
    end -> fuse_open (path_string path) flags s = Ret r s').
  { intros b r s' Hg Hb. unfold fuse_open. destruct b as [x|[]].
    - destruct Hb as [-> ->]. apply body_stop. tstep (or_errno_found (fun e => (e, None : option positive)) _ _ _ _ Hl). cbn [fd_inode fd_index].
      mstep Hload. by apply try_bind_stop.
    - destruct Hb as (s5 & Hb & -> & ->). apply body_go. tstep (or_errno_found (fun e => (e, None : option positive)) _ _ _ _ Hl). cbn [fd_inode fd_index].
      mstep Hload. tstep Hg. mstep H2. mstep H3. mstep H4. mstep H5. mstep H6. cbn [negb].
      mstep (handle_update s1 i cs l w (fun i => set_i_ctime (u32 now) (set_i_atime (u32 now) i)) Hw). by mstep Hb. }
  destruct (permits v (asks_read flags) (asks_write flags) false) eqn:Hperm.
  - exists 0, (Some (op_fresh s1)). set (w' := open_times flags w).
    exists (with_handle s1 i (<[i := w']> cs) l), (a_opens i A). split; [|split].
    + apply (Hpre (inr tt)); [done|]. eexists. split; [|done]. unfold w', open_times. destruct (_ =? _); [done|].
      rewrite (handle_update _ _ _ _ _ _ (lookup_insert_eq _ _ _)). by rewrite insert_insert_eq.
    + apply (rep_opening s1 A k m i c l v w w' n n'); try done.
      * apply lookup_insert_eq.
      * intros j Hj. rewrite lookup_insert_ne by done. auto.
      * destruct (cp_place _ _ _ _ _ _ _ _ C) as [ip G]. destruct (gb_cell _ _ _ _ G) as [Hwf _].
        unfold w', open_times. destruct (_ =? _); auto with wf.
      * unfold w', open_times. by destruct (_ =? _).
      * unfold w', open_times. by destruct (_ =? _).
      * unfold w', open_times. by destruct (_ =? _).
    + exists (owner_of v). split; [done|]. unfold may, owner_of. unfold permits in Hperm. rewrite Hperm. by rewrite (rp_next _ _ _ _ R1).
  - exists (- EACCES), None, s1, A. split; [by apply (Hpre (inl (- EACCES, None)))|]. split; [done|]. exists (owner_of v). split; [done|].
    unfold may, owner_of. unfold permits in Hperm. by rewrite Hperm.
Qed.
End Calls.

(** The rights asked for do not include that of reading when the file is
    opened for reading only, since O_RDONLY is 0. *)
Lemma open_rdonly_unchecked {caller : Caller} o : may o (asks_read O_RDONLY) (asks_write O_RDONLY) false = true.
Proof.
  assert (H : forall m r w x, allows m r w x false false false = true).
  { intros m r w x. unfold allows. by rewrite !orb_true_r. }
  destruct o as [[m g] u]. change (_check_permission m false false false g u = true). unfold _check_permission.
  rewrite !H, !andb_true_r. by repeat case_match.
Qed.

(** ** release *)

Lemma fslist_del_sub {X} `{EqDecision X} (x y : X) l : y ∈ fslist_del x l -> y ∈ l.
Proof.
  induction l as [|z l IH]; cbn; [done|]. destruct (decide (z = x)); [by right|]. rewrite !elem_of_cons. tauto.
Qed.

Lemma fslist_del_nodup {X} `{EqDecision X} (x : X) l : NoDup l -> NoDup (fslist_del x l).
Proof.
  induction l as [|z l IH]; cbn; [done|]. intros [Hz Hl]%NoDup_cons. destruct (decide (z = x)); [done|].
  apply NoDup_cons. split; [|auto]. by intros ?%fslist_del_sub.
Qed.

Lemma fslist_del_elem {X} `{EqDecision X} (x y : X) l : NoDup l -> y ∈ fslist_del x l <-> y <> x /\ y ∈ l.
Proof.
  induction l as [|z l IH]; cbn; [intros _; rewrite elem_of_nil; tauto|]. intros [Hz Hl]%NoDup_cons.
  destruct (decide (z = x)) as [->|Hne].
  - rewrite elem_of_cons. split; [|tauto]. intros Hy. split; [by intros ->|by right].
  - rewrite !elem_of_cons, IH by done. naive_solver.
Qed.

Lemma fslist_del_length {X} `{EqDecision X} (x : X) l : x ∈ l -> S (length (fslist_del x l)) = length l.
Proof.
  induction l as [|z l IH]; cbn; [by intros ?%elem_of_nil|]. destruct (decide (z = x)); [done|].
  intros [->|Hx]%elem_of_cons; [done|]. cbn. by rewrite IH.
Qed.

(** A handle less. *)
Section Closing.
Context (s s' : OpSt) (A : afs) (k m i : Z) (c : list byte) (o : owner) (fd : positive) (P : iptr -> Prop).
Hypothesis R : rep s A k m.
Hypothesis Hfd : a_open A !! fd = Some i.
Hypothesis Hc : a_data A !! i = Some c.
Hypothesis Ho : a_owner A !! i = Some o.
Hypothesis Hfiles : op_files s' = delete fd (op_files s).
Hypothesis Hfresh : op_fresh s' = op_fresh s.
Hypothesis Hoth : forall j, j <> i -> st_ s' !! j = st_ s !! j.
Hypothesis F : framed P (fun _ => False) (op_fs s) (op_fs s').
Hypothesis HP : forall j, j <> i -> ~ P (ip_of j) /\ ~ P (InCopy j).
Hypothesis Htree : tree_ok (op_fs s') (a_dirs A).
Hypothesis Honly : inode_only (op_fs s) (op_fs s').
Hypothesis Hfile : file_rep s' i c.
Hypothesis Howner : forall v, inode_at (op_fs s') i v -> owner_of v = o.
Hypothesis Hcur : forall w n, current s' i w n -> current s i w n.
Hypothesis Hst : is_Some (st_ s' !! i) <-> exists q f, q <> fd /\ op_files s !! q = Some f /\ f_inode_id f = i.

Lemma closing_tree w n : current s' i w n -> tree (op_fs s') w n = tree (op_fs s) w n.
Proof.
  intros Hw. pose proof (only_keeps (op_fs s) _ w w n Honly eq_refl) as K. pose proof (current_file _ _ _ _ Hw) as Hf.
  unfold tree. by rewrite (keeps_metas _ _ _ _ _ K), (keeps_datas _ _ _ _ _ K) by apply (fo_range _ _ _ Hf).
Qed.

Lemma rep_closing : rep s' (a_closes fd A) k m.
Proof.
  replace (a_closes fd A) with (mk_afs (a_dirs A) (<[i := c]> (a_data A)) (<[i := o]> (a_owner A)) (delete fd (a_open A)) (op_fresh s')).
  2:{ unfold a_closes. rewrite (insert_id (a_data A)), (insert_id (a_owner A)) by done. by rewrite Hfresh, (rp_next _ _ _ _ R). }
  assert (Hopen : forall q, delete fd (a_open A) !! q = f_inode_id <$> op_files s' !! q).
  { intros q. rewrite Hfiles. destruct (decide (q = fd)) as [->|Hne]; [by rewrite !lookup_delete_eq|].
    rewrite !lookup_delete_ne by done. apply R. }
  apply (rep_touch s s' A k k m i c o _ _ _ R ltac:(by eexists) F); try done.
  - apply Honly.
  - intros j Hj. constructor; [auto| |]; rewrite Hfiles.
    + intros q f [_ Hq]%lookup_delete_Some _. exists f. split; [done|by left].
    + intros q f Hq Hqj. exists f. split; [|by left]. apply lookup_delete_Some. split; [|done]. intros <-.
      rewrite (rp_open _ _ _ _ R), Hq in Hfd. cbn in Hfd. congruence.
  - intros b (w & n & Hw & Hb). left. exists w, n. split; [by apply Hcur|]. by rewrite <- closing_tree.
  - rewrite Hst. split.
    + intros (q & f & Hne & Hq & Hqi). exists q. rewrite lookup_delete_ne, (rp_open _ _ _ _ R), Hq by done. cbn. by rewrite Hqi.
    + intros [q [Hne Hq]%lookup_delete_Some]. rewrite (rp_open _ _ _ _ R) in Hq. apply fmap_Some in Hq as (f & Hf & ->). by exists q, f.
  - rewrite map_size_delete, Hfd. pose proof (rp_few _ _ _ _ R). lia.
  - intros q Hq. rewrite Hfresh. apply (rp_fresh _ _ _ _ R). rewrite Hfiles in Hq. destruct Hq as [f [_ Hf]%lookup_delete_Some]. by exists f.
  - apply (only_left _ _ Honly), R.
  - apply (only_left _ _ Honly), R.
  - intros w n Hw. apply (rp_max _ _ _ _ R i w n); [by eexists|auto].
  - pose proof (rp_left _ _ _ _ R). lia.
Qed.
End Closing.

(** What the handler does up to [rel_cache]. *)
Definition without_handle (s : OpSt) (fd : positive) (i : Z) (ic : InodeCache) : OpSt :=
  mk_op (op_fs s) (<[i := mk_icache (cnts_ ic) (fslist_del fd (vec ic))]> (st_ s)) (delete fd (op_files s)) (op_fresh s).

Lemma release_steps s fd f ic r s' :
  op_files s !! fd = Some f -> st_ s !! f_inode_id f = Some ic ->
  rel_cache (f_inode_id f) (without_handle s fd (f_inode_id f) ic) = Ret r s' -> fuse_release (file_info (Some fd) 0) s = Ret 0 s'.
Proof.
  intros Hf Hic Hr.
  assert (Hget : file_get fd s = Ret f s).
  { unfold file_get. rewrite (bind_ret _ _ _ s s) by done. by rewrite Hf. }
  assert (Hdel : file_delete fd s = Ret tt (without_handle s fd (f_inode_id f) ic)).
  { unfold file_delete. mstep Hget. rewrite (bind_ret _ _ _ s s) by done. rewrite Hic. by rewrite (bind_ret _ _ _ ic s) by done. }
  unfold fuse_release, file_info. cbn [_fuse_trans_info fi_fh]. mstep Hget. mstep Hdel. by mstep Hr.
Qed.

(** Another handle is left: the copy stays. *)
Lemma release_shared s A k m fd i ic :
  rep s A k m -> a_open A !! fd = Some i -> st_ s !! i = Some ic -> 1 < cnts_ ic ->
  exists s', rel_cache i (without_handle s fd i ic) = Ret 0 s' /\ rep s' (a_closes fd A) k m.
Proof.
  intros R Hfd Hic Hcnt. destruct (rep_handle _ _ _ _ _ _ R Hfd) as
    (f & ic' & c & v & n & w & n' & Hf & Hi & Hic' & Hc & Hv & Hreg & G & O & Hh & Ha & Ho).
  assert (ic' = ic) as -> by congruence. destruct (tree_wf _ _ (rp_tree _ _ _ _ R)) as [Hwf Hz].
  pose proof (open_count s A k m i ic w n' R Hic O) as Hmax. change MAX_HANDLES with 4294967295 in Hmax.
  set (ic1 := mk_icache (cnts_ ic - 1) (fslist_del fd (vec ic))).
  set (s' := mk_op (op_fs s) (<[i := ic1]> (st_ s)) (delete fd (op_files s)) (op_fresh s)).
  assert (Hst' : st_ s' !! i = Some ic1) by apply lookup_insert_eq. assert (Hfi : op_files s' = delete fd (op_files s)) by done. pose proof (op_nodup _ _ _ _ _ O) as Hnd.
  assert (Hin : fd ∈ vec ic) by (apply (op_vec _ _ _ _ _ O); by exists f).
  assert (Hlen : Z.of_nat (length (vec ic)) = Z.of_nat (length (vec ic1)) + 1).
  { cbn. rewrite <- (fslist_del_length fd (vec ic)) by done. lia. }
  assert (Hvec : forall q, q ∈ vec ic1 <-> exists g, op_files s' !! q = Some g /\ f_inode_id g = i).
  { intros q. cbn [ic1 vec]. rewrite fslist_del_elem, (op_vec _ _ _ _ _ O) by done. split.
    - intros (Hne & g & Hg & Hgi). exists g. rewrite Hfi. split; [by apply lookup_delete_Some|done].
    - intros (g & Hg & Hgi). rewrite Hfi in Hg. apply lookup_delete_Some in Hg as [Hne Hg]. split; [done|by exists g]. }
  exists s'. split.
  { unfold rel_cache, without_handle. rewrite (bind_ret _ _ _ _ _ (eq_refl : get_st _ = Ret _ _)). cbn [st_].
    rewrite lookup_insert_eq. cbn [cnts_ vec]. cbn zeta. rewrite u32_small by lia. rewrite (proj2 (Z.eqb_neq _ 0)) by lia.
    unfold mbind, M_bind, set_st, modify_st. cbn. by rewrite insert_insert_eq. }
  apply (rep_closing s s' A k m i c (owner_of v) fd (fun _ => False)); try done.
  - apply (rp_owner _ _ _ _ R); [apply (rp_data _ _ _ _ R); by eexists|done].
  - intros j Hj. by apply lookup_insert_ne.
  - tauto.
  - apply R.
  - exists v, n. do 3 (split; [done|]). rewrite Hst'. exists w, n'. split; [|done]. constructor; [apply O|apply O| |by apply fslist_del_nodup|done|].
    + pose proof (op_count _ _ _ _ _ O). unfold ic1 in *. cbn [cnts_ vec] in *. lia.
    + intros q g Hg Hgi. rewrite Hfi in Hg. apply lookup_delete_Some in Hg as [_ Hg]. by apply (op_handles _ _ _ _ _ O q).
  - intros u Hu. by rewrite (inode_at_inj _ _ _ _ Hu Hv).
  - intros u nu. unfold current. by rewrite Hst', Hic.
  - rewrite Hst'. split; [intros _|by eexists]. pose proof (op_count _ _ _ _ _ O).
    destruct (vec ic1) as [|q l] eqn:E; [cbn in Hlen; lia|]. destruct (proj1 (Hvec q)) as (g & Hg & Hgi); [by left|].
    rewrite Hfi in Hg. apply lookup_delete_Some in Hg as [Hne Hg].
    exists q, g. split; [congruence|done].
Qed.

(** The last handle: the copy goes into the table. *)
Lemma release_last s A k m fd i ic :
  rep s A k m -> a_open A !! fd = Some i -> st_ s !! i = Some ic -> cnts_ ic = 1 ->
  exists s', rel_cache i (without_handle s fd i ic) = Ret 0 s' /\ rep s' (a_closes fd A) k m.
Proof.
  intros R Hfd Hic Hcnt. destruct (rep_handle _ _ _ _ _ _ R Hfd) as
    (f & ic' & c & v & n & w & n' & Hf & Hi & Hic' & Hc & Hv & Hreg & G & O & Hh & Ha & Ho).
  assert (ic' = ic) as -> by congruence. destruct (tree_wf _ _ (rp_tree _ _ _ _ R)) as [Hwf Hz].
  pose proof (op_grow _ _ _ _ _ O) as Gw. destruct (gb_cell _ _ _ _ Gw) as [Hwwf Hcopy].
  destruct (proj1 (rp_data _ _ _ _ R i)) as [Hin HT]; [by eexists|].
  assert (Hone : vec ic = [fd]).
  { assert (Hfdv : fd ∈ vec ic) by (apply (op_vec _ _ _ _ _ O); by exists f). pose proof (op_count _ _ _ _ _ O) as E.
    destruct (vec ic) as [|q [|]]; cbn in E; [lia| |lia]. by apply list_elem_of_singleton in Hfdv as ->. }
  set (s1 := without_handle s fd i ic).
  destruct (rel_cache_stored s1 i v w Hv Hcopy Hwwf) as (fs' & Hr & S).
  { cbn [s1 without_handle st_]. rewrite lookup_insert_eq, Hcnt, Hone. cbn [fslist_del]. by rewrite decide_True. }
  set (s' := mk_op _ _ _ _) in Hr. exists s'. split; [exact Hr|].
  assert (Hst' : st_ s' !! i = None) by apply lookup_delete_eq.
  assert (Hcur : current s i w n') by (unfold current; by rewrite Hic).
  assert (Hwreg : S_ISREG (i_mode w) = true) by (unfold owner_of in Ho; congruence).
  pose proof (stored_restat (op_fs s) fs' i v w Hwf Hz Hv S) as S1.
  assert (S2 : restat i w (op_fs s) (op_fs s')).
  { apply (restat_trans i w w _ fs'); [done|]. apply copies_restat; [apply S1|apply S1|apply S1|]. intros j Hj. by apply lookup_delete_ne. }
  pose proof (rs_at _ _ _ _ S2) as Hw. pose proof (rs_only _ _ _ _ S2) as Honly.
  destruct (only_grow _ _ _ (ip_of i) w w n' Gw Honly (ia_cell _ _ _ Hw)) as [G' Htr]; [done|unfold is_file; by rewrite Hwreg, orb_true_r|].
  apply (rep_closing s s' A k m i c (owner_of v) fd (fun ip => ip = ip_of i \/ ip = InCopy i)); try done.
  - by apply (rp_owner _ _ _ _ R).
  - intros j Hj. cbn. by rewrite lookup_delete_ne, lookup_insert_ne.
  - apply S2.
  - intros j Hj. split; intros [E|E]; [by apply ip_of_inj in E|done|done|congruence].
  - apply (tree_ok_restat (op_fs s) _ _ i w); [apply R|done|done|by apply (file_node _ _ _ w n')|].
    intros _ j u b Hj Hne Hu Hfl Hb Hbw. rewrite (growable_blocks _ _ _ _ G'), Htr in Hbw.
    apply (rp_apart _ _ _ _ R j i b Hj Hin Hne); [by apply (blocks_owned s A k m j u)|by exists w, n'].
  - exists w, n'. split; [done|]. split; [done|]. split; [done|]. rewrite Hst'. split; [apply O|].
    apply (only_holds s s' (InCopy i) w w n'); [done|done|done|done|apply O|done].
  - intros u Hu. by rewrite (inode_at_inj _ _ _ _ Hu Hw).
  - intros u nu Hu. unfold current in Hu. rewrite Hst' in Hu. destruct Hu as [_ Gu]. by destruct (growable_inj _ _ _ _ _ _ G' Gu) as [<- <-].
  - rewrite Hst'. split; [by intros [? ?]|]. intros (q & g & Hne & Hg & Hgi). destruct Hne.
    assert (Hq : q ∈ vec ic) by (apply (op_vec _ _ _ _ _ O); by exists g). rewrite Hone in Hq. by apply list_elem_of_singleton in Hq.
Qed.

Lemma release_ok s A k m fd :
  rep s A k m -> is_Some (a_open A !! fd) ->
  exists s', fuse_release (file_info (Some fd) 0) s = Ret 0 s' /\ rep s' (a_closes fd A) k m.
Proof.
  intros R [i Hfd]. destruct (rep_handle _ _ _ _ _ _ R Hfd) as (f & ic & c & v & n & w & n' & Hf & Hi & Hic & _ & _ & _ & _ & O & _).
  pose proof (open_count s A k m i ic w n' R Hic O) as Hcnt. subst i.
  assert (H : exists s', rel_cache (f_inode_id f) (without_handle s fd (f_inode_id f) ic) = Ret 0 s' /\ rep s' (a_closes fd A) k m).
  { destruct (Z.eq_dec (cnts_ ic) 1); [by apply release_last|apply release_shared; [done..|lia]]. }
  destruct H as (s' & Hr & R'). exists s'. split; [|done]. by apply (release_steps s fd f ic 0).
Qed.
