(* ===== verification/SessionAttr.v ===== *)
(** * Sessions: attributes

    The handlers that change attributes take the copy of an inode, change it,
    store it and release it.  On a node that is not open the inode of the
    table changes; on an open file the copy goes into the table as it is, with
    the blocks that writes have given it, and stays. *)

From S2P Require Import Prelude Layout Disk Bitmap PathName Block BlockGroup BlockCache DentryCache DentryTree.
From S2P Require Import FileSystem FileStatus OpenFiles FsBlocks FileData FsPointers FsAlloc FileBlocks FsInodes FileGrow FileWrite FileIO FsMount Handlers InodeAttrs.
From S2P Require Import DirBlock Directory PathLookup Frames PathCreate AbstractFs Steady OpenTree SessionIO SessionOpen.

(** ** A node with other attributes *)

Section Restat.
Context (s s' : OpSt) (A : afs) (k m i : Z) (w : ext2_inode).
Hypothesis R : rep s A k m.
Hypothesis Hi : in_tree (a_dirs A) i.
Hypothesis S : restat i w (op_fs s) (op_fs s').
Hypothesis Hst : st_ s' = st_ s.
Hypothesis Hfiles : op_files s' = op_files s.
Hypothesis Hfresh : op_fresh s' = op_fresh s.
Hypothesis Hnode : node_ok (op_fs s') (a_dirs A) i.
Hypothesis Hcur : forall u n, current s' i u n -> exists u0, current s i u0 n /\ tree (op_fs s') u n = tree (op_fs s) u0 n.
Hypothesis Htab : forall b, is_file w = true -> b ∈ blocks (op_fs s') w -> owns s i b.
Hypothesis Hfile : forall c, a_data A !! i = Some c -> file_rep s' i c.
Hypothesis Hsame : forall v, is_Some (a_dirs A !! i) -> inode_at (op_fs s) i v -> i_blocks w = i_blocks v.

Lemma restat_place j : j <> i -> ~ (ip_of j = ip_of i \/ ip_of j = InCopy i) /\ (is_Some (st_ s !! j) -> ~ (InCopy j = ip_of i \/ InCopy j = InCopy i)).
Proof. intros Hne. split; [by intros [E%ip_of_inj|E]|]. intros _ [E|E]; [done|congruence]. Qed.

Lemma restat_current j u n : in_tree (a_dirs A) j -> j <> i -> current s j u n -> current s' j u n.
Proof. intros Hj Hne. apply (current_keep _ _ _ _ (rs_frame _ _ _ _ S) j (restat_place j Hne)); [tauto|by apply handles_kept_refl]. Qed.

Lemma rep_restat : rep s' (a_restat i (owner_of w) A) k m.
Proof.
  pose proof (rs_frame _ _ _ _ S) as F. pose proof (only_left _ _ (rs_only _ _ _ _ S)) as [Hroom Hleft].
  constructor; cbn [a_restat a_dirs a_data a_owner a_open a_next]; rewrite ?Hst, ?Hfiles, ?Hfresh; try apply R.
  - apply (tree_ok_restat (op_fs s) _ _ i w); [apply R|done|done|done|].
    intros Hfw j v b Hj Hne Hv Hfv Hb Hbw. apply (rp_apart _ _ _ _ R j i b Hj Hi Hne); [by apply (blocks_owned s A k m j v)|auto].
  - destruct (rp_names _ _ _ _ R) as [K HK]. exists K. by rewrite (io_dentry _ _ (rs_only _ _ _ _ S)).
  - intros j v Hj Hv. destruct (decide (j = i)) as [->|Hne].
    + rewrite lookup_insert_eq. do 2 f_equal. apply (inode_at_inj (op_fs s') i); [apply S|done].
    + rewrite lookup_insert_ne by done. destruct (to_node _ _ (rp_tree _ _ _ _ R) j Hj) as (u & Hu & _).
      rewrite (rp_owner _ _ _ _ R j u Hj Hu). do 2 f_equal. apply (inode_at_inj (op_fs s') j); [by apply (restat_other i w (op_fs s))|done].
  - intros j c Hc. destruct (decide (j = i)) as [->|Hne]; [auto|].
    apply (file_keep _ _ _ _ F j (restat_place j Hne)); [tauto|by apply handles_kept_refl|by apply R].
  - apply (apart_step s s' (a_dirs A) (a_dirs A) i); [apply R| |].
    + intros j b Hj Hne Hb. split; [done|]. destruct (node_current _ _ _ _ j R Hj) as (u & n & Hu).
      eapply (owns_keep _ _ _ _ F j); [by apply restat_place|tauto|by apply handles_kept_refl|exact Hu|done].
    + intros b _ (u & n & Hu & Hb). left. split; [done|]. destruct (Hcur u n Hu) as (u0 & Hu0 & E). exists u0, n. by rewrite <- E.
  - apply Hroom, R.
  - apply Hleft, R.
  - intros d v Hd Hv. rewrite (io_store _ _ (rs_only _ _ _ _ S)).
    destruct (to_node _ _ (rp_tree _ _ _ _ R) d) as (u & Hu & _); [by apply (to_in _ _ (rp_tree _ _ _ _ R))|].
    pose proof (rp_space _ _ _ _ R d u Hd Hu) as H. assert (i_blocks v = i_blocks u) as ->; [|done].
    destruct (decide (d = i)) as [->|Hne].
    + rewrite <- (Hsame u Hd Hu). f_equal. apply (inode_at_inj (op_fs s') i); [done|apply S].
    + f_equal. apply (inode_at_inj (op_fs s') d); [done|by apply (restat_other i w (op_fs s))].
  - intros j u n Hd Hu. destruct (decide (j = i)) as [->|Hne].
    + destruct (Hcur u n Hu) as (u0 & Hu0 & _). by apply (rp_max _ _ _ _ R i u0).
    + assert (Hj : in_tree (a_dirs A) j) by by apply (rp_data _ _ _ _ R). destruct (node_current _ _ _ _ j R Hj) as (u0 & n0 & Hu0).
      destruct (current_inj _ _ _ _ _ _ (restat_current _ _ _ Hj Hne Hu0) Hu) as [<- <-]. by apply (rp_max _ _ _ _ R j u0).
Qed.
End Restat.

(** A change of attributes that keeps the blocks, the kind and the size. *)
Record attr_change (f : ext2_inode -> ext2_inode) (w : ext2_inode) : Prop := {
  ac_wf : inode_wf (f w) = true;
  ac_layout : same_layout (f w) w;
  ac_dir : S_ISDIR (i_mode (f w)) = S_ISDIR (i_mode w);
  ac_reg : S_ISREG (i_mode (f w)) = S_ISREG (i_mode w);
  ac_size : i_size (f w) = i_size w
}.

Lemma attr_file f w : attr_change f w -> is_file (f w) = is_file w.
Proof. intros C. unfold is_file. by rewrite (ac_dir _ _ C), (ac_reg _ _ C). Qed.

(** ** On a node that is not open *)

Section Closed.
Context (s s' : OpSt) (A : afs) (k m i : Z) (v : ext2_inode) (f : ext2_inode -> ext2_inode).
Hypothesis R : rep s A k m.
Hypothesis Hi : in_tree (a_dirs A) i.
Hypothesis Hv : inode_at (op_fs s) i v.
Hypothesis Hclosed : st_ s !! i = None.
Hypothesis C : attr_change f v.
Hypothesis S : restat i (f v) (op_fs s) (op_fs s').
Hypothesis Hst : st_ s' = st_ s.
Hypothesis Hfiles : op_files s' = op_files s.
Hypothesis Hfresh : op_fresh s' = op_fresh s.

Lemma closed_grow n : growable (op_fs s) (ip_of i) v n ->
  growable (op_fs s') (ip_of i) (f v) n /\ tree (op_fs s') (f v) n = tree (op_fs s) v n.
Proof.
  intros G. apply (only_grow (op_fs s) _ (ip_of i)); [done|apply S|apply (ia_cell _ _ _ (rs_at _ _ _ _ S))|apply C|].
  rewrite (attr_file f v C). apply G.
Qed.

Lemma closed_node : node_ok (op_fs s') (a_dirs A) i.
Proof.
  destruct (to_node _ _ (rp_tree _ _ _ _ R) i Hi) as (u & Hu & Hg & Hd). assert (u = v) as -> by by apply (inode_at_inj (op_fs s) i).
  exists (f v). split; [apply S|]. rewrite (attr_file f v C), (ac_dir f v C). split.
  - intros Hf. destruct (Hg Hf) as [n G]. exists n. by apply closed_grow.
  - destruct (a_dirs A !! i) as [M|]; [|done]. destruct Hd as [Hd [n Hn]]. split; [done|]. exists n.
    apply (only_dir (op_fs s) _ (ip_of i) _ v); [done|apply S|apply (ia_cell _ _ _ (rs_at _ _ _ _ S))|apply C|].
    unfold is_file. by rewrite (ac_dir f v C), Hd.
Qed.

Lemma closed_current u n : current s' i u n -> exists u0, current s i u0 n /\ tree (op_fs s') u n = tree (op_fs s) u0 n.
Proof.
  unfold current. rewrite Hst, Hclosed. intros [Hu Gu]. assert (u = f v) as -> by (apply (inode_at_inj (op_fs s') i); [done|apply S]).
  destruct (to_node _ _ (rp_tree _ _ _ _ R) i Hi) as (u & Hu' & Hg & _). assert (u = v) as -> by by apply (inode_at_inj (op_fs s) i).
  destruct Hg as [n0 G]; [rewrite <- (attr_file f v C); apply Gu|]. destruct (closed_grow n0 G) as [G' Ht].
  destruct (growable_inj _ _ _ _ _ _ G' Gu) as [_ <-]. by exists v.
Qed.

Lemma rep_closed : rep s' (a_restat i (owner_of (f v)) A) k m.
Proof.
  apply (rep_restat s s' A k m i (f v)); try done.
  - apply closed_node.
  - apply closed_current.
  - intros b Hf Hb. rewrite (attr_file f v C) in Hf. destruct (to_node _ _ (rp_tree _ _ _ _ R) i Hi) as (u & Hu & Hg & _).
    assert (u = v) as -> by by apply (inode_at_inj (op_fs s) i). destruct (Hg Hf) as [n G]. destruct (closed_grow n G) as [G' Ht].
    exists v, n. unfold current. rewrite Hclosed. split; [done|]. by rewrite <- Ht, <- (growable_blocks _ _ _ _ G').
  - intros c Hc. destruct (rp_file _ _ _ _ R i c Hc) as (u & n & Hu & Hreg & G & H). rewrite Hclosed in H. destruct H as [Hfit Hh].
    assert (u = v) as -> by by apply (inode_at_inj (op_fs s) i). exists (f v), n. split; [apply S|]. rewrite (ac_reg f v C), Hst, Hclosed.
    split; [done|]. split; [by apply closed_grow|]. rewrite (ac_size f v C). split; [done|].
    apply (only_holds s s' (ip_of i) v (f v) n); [done|apply S|apply C|apply C|done|done].
  - intros u _ Hu. assert (u = v) as -> by by apply (inode_at_inj (op_fs s) i). apply (ac_layout f v C).
Qed.
End Closed.

Lemma closed_cycle s A k m i v f :
  rep s A k m -> in_tree (a_dirs A) i -> st_ s !! i = None -> inode_at (op_fs s) i v -> attr_change f v ->
  exists s1 s2 s3 s', get_cache i s = Ret true s1 /\ copy_update i f s1 = Ret tt s2
    /\ ic_commit i s2 = Ret 0 s3 /\ rel_cache i s3 = Ret 0 s' /\ rep s' (a_restat i (owner_of (f v)) A) k m.
Proof.
  intros R Hi Hst Hv C. destruct (tree_wf _ _ (rp_tree _ _ _ _ R)) as [Hwf Hz]. destruct (inode_at_table _ _ _ Hv) as [g Hg].
  pose proof (get_cache_first s i g v Hg Hst) as H1. set (s1 := mk_op _ _ _ _) in H1.
  pose proof (copy_update_eq s1 i v f (lookup_insert_eq _ _ _)) as H2. set (s2 := with_opfs _ s1) in H2.
  assert (S2 : restat i v (op_fs s) (op_fs s2)).
  { apply (copies_restat (op_fs s)); [done|done|done|]. intros j Hj. cbn. by rewrite !lookup_insert_ne. }
  destruct (commit_stored s2 i v (f v) (rs_at _ _ _ _ S2) (lookup_insert_eq _ _ _) (ac_wf _ _ C)) as (fs3 & H3 & St3).
  pose proof (stored_restat (op_fs s2) fs3 i v (f v) (fr_wf _ _ _ _ (rs_frame _ _ _ _ S2)) (fr_zero _ _ _ _ (rs_frame _ _ _ _ S2)) (rs_at _ _ _ _ S2) St3) as S3.
  set (s3 := with_opfs fs3 s2) in H3.
  destruct (rel_cache_stored s3 i (f v) (f v) (rs_at _ _ _ _ S3)) as (fs4 & H4 & St4); [|apply C|apply lookup_insert_eq|].
  { apply (sd_other _ _ _ _ St3 (InCopy i) (f v)); [done|]. split; [apply C|]. apply lookup_insert_eq. }
  pose proof (stored_restat (op_fs s3) fs4 i _ _ (fr_wf _ _ _ _ (rs_frame _ _ _ _ S3)) (fr_zero _ _ _ _ (rs_frame _ _ _ _ S3)) (rs_at _ _ _ _ S3) St4) as S4.
  set (s' := mk_op _ _ _ _) in H4. exists s1, s2, s3, s'. do 4 (split; [assumption|]).
  apply (rep_closed s s' A k m i v f); try done.
  - apply (restat_trans i v _ _ (op_fs s2)); [done|]. apply (restat_trans i (f v) _ _ fs3); [done|].
    apply (restat_trans i (f v) _ _ fs4); [done|]. apply copies_restat; [apply S4|apply S4|apply S4|].
    intros j Hj. by apply lookup_delete_ne.
  - by apply delete_insert_id.
Qed.

(** ** On an open file *)

Section Opened.
Context (s s' : OpSt) (A : afs) (k m i : Z) (c : list byte) (ic : InodeCache) (v w : ext2_inode) (n : Z) (f : ext2_inode -> ext2_inode).
Hypothesis R : rep s A k m.
Hypothesis Hic : st_ s !! i = Some ic.
Hypothesis Hc : a_data A !! i = Some c.
Hypothesis O : opened s i ic w n.
Hypothesis Hh : holds s w c.
Hypothesis Hreg : S_ISREG (i_mode w) = true.
Hypothesis C : attr_change f w.
Hypothesis S : restat i (f w) (op_fs s) (op_fs s').
Hypothesis Hcopy : fs_copies (op_fs s') !! i = Some (f w).
Hypothesis Hst : st_ s' = st_ s.
Hypothesis Hfiles : op_files s' = op_files s.
Hypothesis Hfresh : op_fresh s' = op_fresh s.

Lemma opened_grow ip : cell (op_fs s') ip (f w) -> growable (op_fs s') ip (f w) n /\ tree (op_fs s') (f w) n = tree (op_fs s) w n.
Proof.
  intros Hcell. apply (only_grow (op_fs s) _ (InCopy i)); [apply O|apply S|done|apply C|].
  rewrite (attr_file f w C). unfold is_file. by rewrite Hreg, orb_true_r.
Qed.

Lemma opened_copy : cell (op_fs s') (InCopy i) (f w).
Proof. split; [apply C|done]. Qed.

Lemma opened_again : opened s' i ic (f w) n.
Proof.
  destruct (opened_grow _ opened_copy) as [G _]. constructor; [done|rewrite (ac_size f w C); apply O|apply O|apply O| |]; rewrite Hfiles.
  - apply O.
  - intros q g Hg Hgi. apply (handle_keep (op_fs s) w n g); [by apply (op_handles _ _ _ _ _ O q)|apply O| |lia|apply G|by left].
    apply only_keeps; [apply S|apply C].
Qed.

Lemma rep_opened : rep s' (a_restat i (owner_of (f w)) A) k m.
Proof.
  destruct (opened_grow _ opened_copy) as [G Ht]. destruct (opened_grow _ (ia_cell _ _ _ (rs_at _ _ _ _ S))) as [Gt _].
  destruct (proj1 (rp_data _ _ _ _ R i)) as [Hi HT]; [by eexists|].
  assert (Hcur : current s i w n) by (unfold current; rewrite Hic; apply O).
  apply (rep_restat s s' A k m i (f w)); try done.
  - apply (file_node _ _ _ (f w) n); [apply S|done|by rewrite (ac_reg f w C)|done].
  - intros u nu Hu. unfold current in Hu. rewrite Hst, Hic in Hu. destruct (growable_inj _ _ _ _ _ _ G Hu) as [<- <-]. by exists w.
  - intros b _ Hb. exists w, n. split; [done|]. by rewrite <- Ht, <- (growable_blocks _ _ _ _ Gt).
  - intros c' Hc'. assert (c' = c) as -> by congruence. exists (f w), n. split; [apply S|]. rewrite (ac_reg f w C), Hst, Hic.
    split; [done|]. split; [done|]. exists (f w), n. split; [apply opened_again|]. split; [|split; [split; [lia|by apply keeps_views]|done]].
    apply (only_holds s s' (InCopy i) w (f w) n); [apply O|apply S|apply C|apply C|apply O|done].
  - intros u [M HM]. congruence.
Qed.
End Opened.

(** The changed copy of an open file is stored, however it is counted. *)
Lemma open_commit s A k m i c ic v w n f st :
  rep s A k m -> a_data A !! i = Some c -> st_ s !! i = Some ic -> opened s i ic w n -> holds s w c ->
  inode_at (op_fs s) i v -> S_ISREG (i_mode w) = true -> attr_change f w ->
  let s2 := mk_op (with_copies (<[i := f w]> (fs_copies (op_fs s))) (op_fs s)) st (op_files s) (op_fresh s) in
  exists fs', ic_commit i s2 = Ret 0 (with_opfs fs' s2) /\ rep (with_opfs fs' s) (a_restat i (owner_of (f w)) A) k m.
Proof.
  intros R Hc Hic O Hh Hv Hreg C s2. destruct (tree_wf _ _ (rp_tree _ _ _ _ R)) as [Hwf Hz].
  assert (S2 : restat i v (op_fs s) (op_fs s2)).
  { apply (copies_restat (op_fs s)); [done|done|done|]. intros j Hj. by apply lookup_insert_ne. }
  destruct (commit_stored s2 i v (f w) (rs_at _ _ _ _ S2) (lookup_insert_eq _ _ _) (ac_wf _ _ C)) as (fs' & H3 & St).
  exists fs'. split; [done|].
  apply (rep_opened s (with_opfs fs' s) A k m i c ic w n f); try done.
  - apply (restat_trans i v _ _ (op_fs s2)); [done|].
    apply (stored_restat (op_fs s2) fs' i v); [apply S2|apply S2|apply S2|done].
  - apply (sd_other _ _ _ _ St (InCopy i) (f w)); [done|]. split; [apply C|]. apply lookup_insert_eq.
Qed.

(** ** Either way *)

Lemma attr_cycle s A k m i f :
  rep s A k m -> in_tree (a_dirs A) i -> (forall w, a_owner A !! i = Some (owner_of w) -> inode_wf w = true -> attr_change f w) ->
  exists w s1 s2 s3 s', get_cache i s = Ret true s1 /\ copy_update i f s1 = Ret tt s2
    /\ ic_commit i s2 = Ret 0 s3 /\ rel_cache i s3 = Ret 0 s'
    /\ a_owner A !! i = Some (owner_of w) /\ rep s' (a_restat i (owner_of (f w)) A) k m.
Proof.
  intros R Hi HC. destruct (to_node _ _ (rp_tree _ _ _ _ R) i Hi) as (v & Hv & _).
  pose proof (rp_owner _ _ _ _ R i v Hi Hv) as Hov. destruct (st_ s !! i) as [ic|] eqn:Hst.
  2:{ destruct (closed_cycle s A k m i v f R Hi Hst Hv) as (s1 & s2 & s3 & s' & H); [apply HC; [done|apply (ia_cell _ _ _ Hv)]|].
      exists v, s1, s2, s3, s'. tauto. }
  destruct (proj1 (rp_st _ _ _ _ R i)) as [fd Hfd]; [by eexists|].
  destruct (rep_handle _ _ _ _ _ _ R Hfd) as (g & ic' & c & u & n & w & n' & Hg & Hgi & Hic & Hc & Hu & Hreg & G & O & Hh & Ha & Ho).
  assert (ic' = ic) as -> by congruence. assert (u = v) as -> by by apply (inode_at_inj (op_fs s) i).
  pose proof (op_grow _ _ _ _ _ O) as Gw. assert (Hwreg : S_ISREG (i_mode w) = true) by (unfold owner_of in Ho; congruence).
  assert (C : attr_change f w) by (apply HC; [by rewrite Ho|apply (gb_cell _ _ _ _ Gw)]).
  pose proof (open_count s A k m i ic w n' R Hst O) as Hcnt.
  destruct (get_rel_cache_shared s i ic Hst Hcnt) as [H1 _]. set (s1 := with_st _ s) in H1.
  pose proof (copy_update_eq s1 i w f (proj2 (gb_cell _ _ _ _ Gw))) as H2.
  destruct (open_commit s A k m i c ic v w n' f (st_ s1) R Hc Hst O Hh Hv Hwreg C) as (fs' & H3 & R').
  destruct (get_rel_cache_shared (with_opfs fs' s) i ic Hst Hcnt) as [_ H4].
  eexists w, s1, _, _, (with_opfs fs' s). split; [exact H1|]. split; [exact H2|]. split; [exact H3|]. split; [exact H4|].
  split; [by rewrite Ho|done].
Qed.

(** ** The handlers *)

Lemma times_change f w :
  inode_wf (f w) = true -> same_layout (f w) w -> i_mode (f w) = i_mode w -> i_size (f w) = i_size w -> attr_change f w.
Proof. intros Hwf Hl Hm Hs. constructor; [done|done|by rewrite Hm|by rewrite Hm|done]. Qed.

Lemma u16_u16 z : u16 (u16 z) = u16 z.
Proof. apply u16_small, u16_range. Qed.

Lemma chmod_mode mode w : i_mode (set_i_mode (u16 mode) w) = u16 mode.
Proof. apply u16_u16. Qed.

Lemma a_restat_id i o A : a_owner A !! i = Some o -> a_restat i o A = A.
Proof. intros H. unfold a_restat. rewrite insert_id by done. by destruct A. Qed.

Section Calls.
Context {clock : Clock} {caller : Caller}.

(** A path is looked up; the inode it leads to is that of the table. *)
Lemma lookup_inode s A k m path :
  rep s A k m -> path_pre (a_dirs A) path ->
  exists s1, rep s1 A k m
    /\ match walk (a_dirs A) ROOT_INODE path with
       | inl e => lookup_path (path_string path) s = Ret (inl e) s1
       | inr i => in_tree (a_dirs A) i /\ exists parent v, lookup_path (path_string path) s = Ret (inr (mk_found (ip_of i) i parent)) s1
           /\ on_fs (iload (ip_of i)) s1 = Ret v s1 /\ inode_at (op_fs s1) i v /\ a_owner A !! i = Some (owner_of v)
       end.
Proof.
  intros R Hp. destruct (lookup_rep s A k m path R Hp) as (r & fs' & Hl & R1 & Hr). exists (with_opfs fs' s). split; [done|].
  destruct (walk (a_dirs A) ROOT_INODE path) as [e|i]; [by subst r|]. destruct Hr as [[parent ->] Hi]. split; [done|].
  destruct (to_node _ _ (rp_tree _ _ _ _ R1) i Hi) as (v & Hv & _). exists parent, v. split; [done|].
  split; [|split; [done|by apply (rp_owner _ _ _ _ R1)]].
  rewrite (on_fs_eq _ _ v (op_fs (with_opfs fs' s))); [by rewrite with_opfs_id|]. apply cell_load, Hv.
Qed.

Lemma access_ok s A k m path mode :
  rep s A k m -> path_pre (a_dirs A) path ->
  exists e s', fuse_access (path_string path) mode s = Ret e s' /\ rep s' A k m /\ spec_call A (Access path mode) (Code e) A.
Proof.
  intros R Hp. destruct (lookup_inode s A k m path R Hp) as (s1 & R1 & H). cbn [spec_call].
  destruct (walk (a_dirs A) ROOT_INODE path) as [e|i].
  { exists (Code2Errno e), s1. split; [|done]. apply body_stop, try_bind_stop. by rewrite (or_errno_err _ _ _ _ _ H). }
  destruct H as (Hi & parent & v & Hl & Hload & Hv & Ho). eexists _, s1. split; [|split; [done|exists (owner_of v); split; [done|]; split; [done|reflexivity]]].
  unfold fuse_access. destruct (mode =? F_OK) eqn:E; cbn [orb].
  - apply body_stop. by tstep (or_errno_found (fun e => e) _ _ _ _ Hl).
  - unfold may, owner_of. fold (permits v (has mode R_OK) (has mode W_OK) (has mode X_OK)). destruct (permits v _ _ _) eqn:Hper.
    + apply body_go. tstep (or_errno_found (fun e => e) _ _ _ _ Hl). cbn [fd_inode]. mstep Hload. rewrite Hper. by rewrite (try_bind_go _ _ _ tt s1) by done.
    + apply body_stop. tstep (or_errno_found (fun e => e) _ _ _ _ Hl). cbn [fd_inode]. mstep Hload. rewrite Hper. by apply try_bind_stop.
Qed.

Lemma chmod_ok s A k m path mode :
  rep s A k m -> call_pre A (Chmod path mode) ->
  exists e s' A', fuse_chmod (path_string path) mode s = Ret e s' /\ rep s' A' k m /\ spec_call A (Chmod path mode) (Code e) A'.
Proof.
  intros R [Hp Hkind]. destruct (lookup_inode s A k m path R Hp) as (s1 & R1 & H). cbn [spec_call].
  destruct (walk (a_dirs A) ROOT_INODE path) as [e|i].
  { exists (Code2Errno e), s1, A. split; [|by split]. apply body_stop, try_bind_stop. by rewrite (or_errno_err _ _ _ _ _ H). }
  destruct H as (Hi & parent & v & Hl & Hload & Hv & Ho).
  destruct (permits v true true false) eqn:Hper.
  - destruct (attr_cycle s1 A k m i (set_i_mode (u16 mode)) R1 Hi) as (w & s2 & s3 & s4 & s' & H1 & H2 & H3 & H4 & How & R').
    { intros w How Hwf. destruct (Hkind i _ _ _ eq_refl How) as [Hd Hr]. constructor; [auto with wf|done|by rewrite chmod_mode|by rewrite chmod_mode|done]. }
    exists 0, s', (a_restat i (owner_of (set_i_mode (u16 mode) w)) A). split; [|split; [done|]].
    + unfold fuse_chmod. apply body_go. tstep (or_errno_found (fun e => e) _ _ _ _ Hl). cbn [fd_inode fd_index]. mstep Hload. rewrite Hper.
      rewrite (try_bind_go _ _ _ tt s1) by done. mstep H1. rewrite (try_bind_go _ _ _ tt s2) by done. mstep H2. mstep H3. by mstep H4.
    + exists (i_mode v), (i_gid v), (i_uid v). split; [done|]. unfold may. unfold permits in Hper. rewrite Hper. split; [done|].
      rewrite Ho in How. injection How as _ E1 E2. unfold owner_of. by rewrite chmod_mode, E1, E2.
  - exists (- EACCES), s1, A. split; [|split; [done|]].
    + unfold fuse_chmod. apply body_stop. tstep (or_errno_found (fun e => e) _ _ _ _ Hl). cbn [fd_inode fd_index]. mstep Hload. rewrite Hper. by apply try_bind_stop.
    + exists (i_mode v), (i_gid v), (i_uid v). split; [done|]. unfold may. unfold permits in Hper. by rewrite Hper.
Qed.

Lemma chown_ok s A k m path user group :
  rep s A k m -> path_pre (a_dirs A) path ->
  exists e s' A', fuse_chown (path_string path) user group s = Ret e s' /\ rep s' A' k m /\ spec_call A (Chown path user group) (Code e) A'.
Proof.
  intros R Hp. destruct (lookup_inode s A k m path R Hp) as (s1 & R1 & H). cbn [spec_call].
  destruct (walk (a_dirs A) ROOT_INODE path) as [e|i].
  { exists (Code2Errno e), s1, A. split; [|by split]. apply body_stop, try_bind_stop. by rewrite (or_errno_err _ _ _ _ _ H). }
  destruct H as (Hi & parent & v & Hl & Hload & Hv & Ho). set (f := fun i => set_i_gid (u16 group) (set_i_uid (u16 user) i)).
  destruct (attr_cycle s1 A k m i f R1 Hi) as (w & s2 & s3 & s4 & s' & H1 & H2 & H3 & H4 & How & R').
  { intros w How Hwf. unfold f. apply times_change; [auto with wf|done|done|done]. }
  exists 0, s', (a_restat i (owner_of (f w)) A). split; [|split; [done|]].
  - unfold fuse_chown. apply body_go. tstep (or_errno_found (fun e => e) _ _ _ _ Hl). cbn [fd_inode fd_index].
    mstep H1. cbn [negb]. unfold f in H2. mstep H2. mstep H3. by mstep H4.
  - exists (i_mode w), (i_gid w), (i_uid w). split; [done|]. split; [done|]. unfold owner_of, f. cbn. by rewrite !u16_u16.
Qed.

Lemma utimens_ok s A k m path tv :
  rep s A k m -> path_pre (a_dirs A) path ->
  exists e s', fuse_utimens (path_string path) tv s = Ret e s' /\ rep s' A k m /\ spec_call A (Utimens path tv) (Code e) A.
Proof.
  intros R Hp. destruct (lookup_inode s A k m path R Hp) as (s1 & R1 & H). cbn [spec_call].
  destruct (walk (a_dirs A) ROOT_INODE path) as [e|i].
  { exists (Code2Errno e), s1. split; [|done]. apply body_stop, try_bind_stop. by rewrite (or_errno_err _ _ _ _ _ H). }
  destruct H as (Hi & parent & v & Hl & Hload & Hv & Ho).
  destruct (_check_user (i_mode v) (i_uid v) false true false) eqn:Hper.
  - set (am := match tv with Some (a, m) => if a =? 0 then (now, now) else (a, m) | None => (now, now) end).
    set (f := fun i => set_i_mtime (u32 am.2) (set_i_atime (u32 am.1) i)).
    destruct (attr_cycle s1 A k m i f R1 Hi) as (w & s2 & s3 & s4 & s' & H1 & H2 & H3 & H4 & How & R').
    { intros w How Hwf. unfold f. apply times_change; [auto with wf|done|done|done]. }
    change (owner_of (f w)) with (owner_of w) in R'. rewrite a_restat_id in R' by done.
    exists 0, s'. split; [|split; [done|exists (i_mode v), (i_gid v), (i_uid v); split; [done|]; by rewrite Hper]].
    unfold fuse_utimens. apply body_go. tstep (or_errno_found (fun e => e) _ _ _ _ Hl). cbn [fd_inode fd_index]. mstep Hload. rewrite Hper.
    rewrite (try_bind_go _ _ _ tt s1) by done. mstep H1. fold am. unfold f in H2. destruct am as [a t]. cbn [negb fst snd] in *.
    mstep H2. mstep H3. by mstep H4.
  - exists (- EACCES), s1. split; [|split; [done|exists (i_mode v), (i_gid v), (i_uid v); split; [done|]; by rewrite Hper]].
    unfold fuse_utimens. apply body_stop. tstep (or_errno_found (fun e => e) _ _ _ _ Hl). cbn [fd_inode fd_index]. mstep Hload. rewrite Hper. by apply try_bind_stop.
Qed.
End Calls.
