(* ===== verification/SessionList.v ===== *)
(** * Sessions: listing a directory

    [fuse_readdir] walks over the blocks of a directory and gives the names of
    the entries in use: those of the abstract directory, each once. *)

From S2P Require Import Prelude Layout Disk Bitmap PathName Block BlockGroup BlockCache DentryCache DentryTree.
From S2P Require Import FileSystem FileStatus OpenFiles FsBlocks FileData FsPointers FsAlloc FileBlocks FsInodes FileGrow FileWrite FileIO FsMount DirVisit Handlers InodeAttrs.
From S2P Require Import DirBlock Directory PathLookup Frames PathCreate AbstractFs Steady OpenTree SessionIO SessionOpen SessionAttr.

Lemma c_str_id l : no_nul l -> c_str l = l.
Proof. induction 1 as [|x l Hx Hl IH]; [done|]. cbn [c_str]. by rewrite bool_decide_false, IH. Qed.

(** The names that the visitor of [fuse_readdir] takes from a block. *)
Lemma entry_names_dir data offs :
  Forall d_fits (map (dentry_at data) offs) -> entry_names data offs = map c_str (dir_names (map (dentry_at data) offs)).
Proof.
  induction offs as [|off offs IH]; [done|]. cbn [map]. intros [Hd Hf]%Forall_cons. unfold entry_names in *. cbn [omap list_omap].
  unfold dir_names. cbn [List.filter]. unfold d_live at 1. cbn [d_name_len dentry_at].
  destruct (getf off de_name_len data =? 0) eqn:E; cbn [negb map].
  - by apply IH.
  - f_equal; [|by apply IH]. f_equal. unfold d_key. cbn [d_name d_name_len dentry_at]. destruct Hd as [(_ & Hn & _) Hl].
    cbn [d_name d_name_len dentry_at] in *. unfold slice in *. rewrite take_take. f_equal. rewrite length_take in Hl. lia.
Qed.

Definition list_visitor : visitor (list (list byte)) := fun _ block acc =>
  b ← on_store (block_deref block);
  '(offs, _) ← dentries block;
  mret (false, acc ++ entry_names (data_ b) offs).

Lemma list_visit s ip v n dss acc :
  dir_ok s ip v n dss ->
  exists s', visit_inode_blocks ip list_visitor acc s = Ret (acc ++ map c_str (dir_names (concat dss))) s' /\ same_blocks s s'.
Proof.
  intros D. pose proof (do_grow _ _ _ _ _ D) as B. pose proof (wf_inv _ (gb_wf _ _ _ _ B)) as Hinv. pose proof (do_len _ _ _ _ _ D) as Hlen.
  set (I := fun (m : Z) (a : list (list byte)) (t : FS) =>
    same_blocks s t /\ a = acc ++ map c_str (dir_names (concat (take (Z.to_nat m) dss)))).
  destruct (visit_inode_blocks_ok ip v n list_visitor I (I n)) with (acc := acc) (s := s) as (a & s' & H & Hs & ->).
  - intros m a t t' _ _ [Hst ->] Ht' _. split; [by apply (same_blocks_trans _ t)|done].
  - intros m a t p Hm Bt [Hst ->] Hr. destruct (lookup_lt_is_Some_2 dss (Z.to_nat m)) as [ds Hds]; [lia|].
    assert (Hd : dir_block t (blk t v m) ds).
    { pose proof (do_blocks _ _ _ _ _ (dir_ok_same _ _ _ _ _ _ D Hst) _ _ Hds) as H. by rewrite Z2Nat.id in H by lia. }
    destruct (deref_recent _ _ _ _ Hr) as (bl & Hbl & Hdata & _). destruct (dir_block_parse _ _ _ Hd) as [_ Hmap].
    eexists false, _, t. split; [unfold list_visitor; mstep Hbl; mstep (dentries_recent _ _ _ _ _ Hr Hd); reflexivity|].
    split; [by constructor|]. split; [done|]. rewrite Hdata, entry_names_dir; rewrite Hmap; [|apply Hd].
    replace (Z.to_nat (m + 1)) with (S (Z.to_nat m)) by lia.
    rewrite (take_S_r _ _ _ Hds), concat_app, dir_names_app, map_app, app_assoc. cbn [concat]. by rewrite app_nil_r.
  - done.
  - done.
  - split; [by apply same_blocks_refl|]. by rewrite app_nil_r.
  - apply (do_small _ _ _ _ _ D).
  - apply (do_cache _ _ _ _ _ D).
  - exists s'. split; [|done]. by rewrite H, take_ge by lia.
Qed.

Section Calls.
Context {clock : Clock} {caller : Caller}.

Lemma readdir_ok s A k m path :
  rep s A k m -> path_pre (a_dirs A) path ->
  exists e l s', fuse_readdir (path_string path) s = Ret (e, l) s' /\ rep s' A k m /\ spec_call A (Readdir path) (Names e l) A.
Proof.
  intros R Hp. destruct (lookup_inode s A k m path R Hp) as (s1 & R1 & H). cbn [spec_call].
  destruct (walk (a_dirs A) ROOT_INODE path) as [e|i].
  { exists (- ENOENT), [], s1. split; [|done]. unfold fuse_readdir. apply body_stop. by mstep H. }
  destruct H as (Hi & parent & v & Hl & Hload & Hv & Ho). destruct (tree_wf _ _ (rp_tree _ _ _ _ R1)) as [Hwf Hz].
  destruct (to_node _ _ (rp_tree _ _ _ _ R1) i Hi) as (u & Hu & _ & Hd). assert (u = v) as -> by by apply (inode_at_inj (op_fs s1) i).
  destruct (a_dirs A !! i) as [M|] eqn:HM.
  2:{ exists (- ENOTDIR), [], s1. split; [|done]. unfold fuse_readdir. apply body_stop. mstep Hl. cbn [fd_inode]. mstep Hload. rewrite Hd. by apply try_bind_stop. }
  destruct Hd as [Hd (n & dss & D & Hnd & HMM)]. destruct (permits v true false false) eqn:Hper.
  - destruct (list_visit (op_fs s1) (ip_of i) v n dss [dot; dotdot] D) as (fs' & Hvis & Hsame).
    assert (Hplain : map c_str (dir_names (concat dss)) = dir_names (concat dss)).
    { rewrite <- (map_id (dir_names (concat dss))) at 2. apply map_ext_in. intros x Hx%list_elem_of_In. apply c_str_id.
      apply (rp_plain _ _ _ _ R1 i M); [done|]. rewrite <- HMM. by apply dir_names_map. }
    rewrite Hplain in Hvis. eexists 0, _, (with_opfs fs' s1). split; [|split; [|split; [done|]]].
    + unfold fuse_readdir. apply body_go. mstep Hl. cbn [fd_inode]. mstep Hload. rewrite Hd, Hper.
      rewrite (try_bind_go _ _ _ tt s1) by done. rewrite (try_bind_go _ _ _ tt s1) by done.
      unfold list_visitor in Hvis. mstep (on_fs_eq _ s1 _ _ Hvis). reflexivity.
    + apply rep_looked; [done| |].
      * apply (looked_same _ (op_fs s1)); [apply (wf_inv _ Hwf)|apply looked_refl, (wf_inv _ Hwf)|done].
      * destruct (rp_names _ _ _ _ R1) as [K HK]. exists K. by destruct Hsame as [_ (st & -> & _)].
    + exists (owner_of v). split; [done|]. unfold may, owner_of. unfold permits in Hper. rewrite Hper.
      exists (dir_names (concat dss)). split; [done|]. split; [done|]. intros name. rewrite <- HMM. split; [apply dir_names_map|].
      intros [j Hj]. destruct (decide (name ∈ dir_names (concat dss))) as [|Hn]; [done|]. apply dir_map_names in Hn. congruence.
  - exists (- EACCES), [], s1. split; [|split; [done|split; [done|]]].
    + unfold fuse_readdir. apply body_stop. mstep Hl. cbn [fd_inode]. mstep Hload. rewrite Hd, Hper.
      rewrite (try_bind_go _ _ _ tt s1) by done. by apply try_bind_stop.
    + exists (owner_of v). split; [done|]. unfold may, owner_of. unfold permits in Hper. by rewrite Hper.
Qed.
End Calls.
