(* ===== verification/SessionMake.v ===== *)
(** * Sessions: new files and directories

    [fuse_create] and [fuse_mkdir] against the abstract file system: a new
    inode is entered into its directory, then its attributes are set through
    its copy, as [fuse_create] leaves it open and [fuse_mkdir] does not. *)

From S2P Require Import Prelude Layout Disk Bitmap PathName Block BlockGroup BlockCache DentryCache DentryTree.
From S2P Require Import FileSystem FileStatus OpenFiles FsBlocks FileData FsPointers FsAlloc FileBlocks FsInodes FileGrow FileWrite FileIO FsMount Handlers InodeAttrs.
From S2P Require Import DirBlock Directory PathLookup Frames PathCreate AbstractFs Steady OpenTree SessionIO SessionOpen SessionAttr.

(** ** A new name *)

Section Entering.
Context {clock : Clock}.
Context (s : OpSt) (fs' : FS) (A : afs) (k m d j mode : Z) (M : gmap (list byte) Z) (name : list byte).
Hypothesis R : rep s A k m.
Hypothesis Hm : 1 <= m.
Hypothesis HM : a_dirs A !! d = Some M.
Hypothesis Hname : M !! name = None.
Hypothesis Hnul : no_nul name.
Hypothesis Hmode : 0 <= mode < 2 ^ 16.
Hypothesis Hkind : S_ISDIR mode || S_ISREG mode = true.
Hypothesis Hj : ~ in_tree (a_dirs A) j.
Hypothesis Md : made_in (op_fs s) fs' d j mode.

Let T := a_dirs A.
Let T' := add_entry T d M name j (S_ISDIR mode).
Let s' := with_opfs fs' s.
Hypothesis Ht : tree_ok fs' T'.
Hypothesis Hnames : caches T' fs'.

Lemma entering_none : T !! j = None.
Proof. destruct (T !! j) eqn:E; [|done]. destruct Hj. apply (to_in _ _ (rp_tree _ _ _ _ R)). by eexists. Qed.

Lemma entering_node i : in_tree T' i -> i = j \/ i <> j /\ in_tree T i.
Proof.
  intros Hi. destruct (decide (i = j)) as [->|Hne]; [by left|right]. split; [done|].
  by destruct (in_tree_add T d M name j _ HM entering_none i Hi).
Qed.

Lemma entering_dir : exists v n, inode_at (op_fs s) d v /\ growable (op_fs s) (ip_of d) v n /\ current s d v n.
Proof.
  destruct (to_dir _ _ _ _ (rp_tree _ _ _ _ R) HM) as (v & n & Hv & _ & Hd). apply dir_is_grow in Hd. exists v, n.
  split; [done|]. split; [done|]. unfold current. by rewrite (dir_closed _ _ _ _ _ R) by by eexists.
Qed.

Lemma entering_closed : st_ s !! j = None.
Proof.
  destruct (st_ s !! j) as [ic|] eqn:E; [|done]. destruct (proj1 (rp_st _ _ _ _ R j)) as [fd Hfd]; [by eexists|].
  apply (rp_reg _ _ _ _ R), (rp_data _ _ _ _ R) in Hfd. tauto.
Qed.

(** The nodes that were there, the directory apart. *)
Lemma entering_other v i :
  inode_at (op_fs s) d v -> in_tree T i -> i <> d ->
  (~ (ip_of i = ip_of d \/ ip_of i = ip_of j) /\ (is_Some (st_ s !! i) -> ~ (InCopy i = ip_of d \/ InCopy i = ip_of j)))
  /\ forall b, owns s i b -> ~ b ∈ blocks (op_fs s) v.
Proof.
  intros Hv Hi Hne. split; [split|].
  - intros [E|E]; apply ip_of_inj in E; [done|]. by subst.
  - by intros _ [E|E].
  - intros b Hb Hbv. apply (rp_apart _ _ _ _ R i d b); [done|apply (to_in _ _ (rp_tree _ _ _ _ R)); by eexists|done|done|].
    destruct entering_dir as (u & n & Hu & G & Hc). assert (u = v) as -> by by apply (inode_at_inj (op_fs s) d).
    apply (blocks_owned s A k m d v b R); [apply (to_in _ _ (rp_tree _ _ _ _ R)); by eexists|done|apply G|done].
Qed.

Lemma entering_at i u : in_tree T i -> i <> d -> inode_at (op_fs s) i u -> inode_at fs' i u.
Proof.
  intros Hi Hne Hu. destruct entering_dir as (v & n & Hv & _). destruct (entering_other v i Hv Hi Hne) as [[H _] _].
  by apply (framed_inode _ _ _ _ (mi_frame _ _ _ _ _ Md v Hv)).
Qed.

Lemma entering_current i w n : in_tree T i -> i <> d -> current s i w n -> current s' i w n.
Proof.
  intros Hi Hne. destruct entering_dir as (v & nd & Hv & _). destruct (entering_other v i Hv Hi Hne) as [H HB].
  apply (current_keep _ _ s s' (mi_frame _ _ _ _ _ Md v Hv) i H HB). by apply handles_kept_refl.
Qed.

(** The new inode has no blocks and is not open. *)
Lemma entering_new w n : current s' j w n -> w = new_inode mode /\ n = 0.
Proof.
  unfold current. cbn [s' with_opfs st_ op_fs]. rewrite entering_closed. intros [Hw G].
  assert (w = new_inode mode) as -> by (apply (inode_at_inj fs' j); [done|apply Md]). split; [done|].
  pose proof (gb_blocks _ _ _ _ G) as E. change (i_blocks (new_inode mode)) with 0 in E. lia.
Qed.

Lemma entering_file : S_ISDIR mode = false -> file_rep s' j [].
Proof.
  intros Hd. pose proof (mi_new _ _ _ _ _ Md) as Hnew. rewrite Hd in Hkind. cbn [orb] in Hkind.
  destruct (to_node _ _ Ht j) as (v & Hv & Hg & _); [by apply (in_tree_new T d M name j _ HM entering_none)|].
  assert (v = new_inode mode) as -> by by apply (inode_at_inj fs' j).
  assert (Hr : S_ISREG (i_mode (new_inode mode)) = true) by by rewrite new_inode_mode.
  destruct (Hg ltac:(unfold is_file; by rewrite Hr, orb_true_r)) as [n G].
  pose proof (gb_blocks _ _ _ _ G) as E. change (i_blocks (new_inode mode)) with 0 in E. assert (n = 0) as -> by lia.
  exists (new_inode mode), 0. split; [done|]. split; [done|]. split; [done|].
  cbn [s' with_opfs st_]. rewrite entering_closed. split; [done|]. split; [done|].
  intros i Hi. change (i_size (new_inode mode)) with 0 in Hi. lia.
Qed.

Lemma entering_apart : apart s' T'.
Proof.
  destruct entering_dir as (v & n & Hv & G & Hc). destruct (mi_dir _ _ _ _ _ Md v Hv) as (v' & Hv' & _ & _ & Hb).
  assert (Hd : in_tree T d) by (apply (to_in _ _ (rp_tree _ _ _ _ R)); by eexists).
  apply (apart_step s s' T T' d); [apply R| |].
  - intros i b Hi Hne (w & nw & Hw & Hbw). destruct (entering_node i Hi) as [->|[_ Hi']].
    + destruct (entering_new _ _ Hw) as [-> ->]. by apply elem_of_nil in Hbw.
    + split; [done|]. destruct (node_current _ _ _ _ i R Hi') as (u & nu & Hu).
      destruct (entering_other v i Hv Hi' Hne) as [H HB].
      apply (owns_keep _ _ s s' (mi_frame _ _ _ _ _ Md v Hv) i H HB ltac:(by apply handles_kept_refl) u nu b Hu). by exists w, nw.
  - intros b _ (w & nw & Hw & Hbw). unfold current in Hw. cbn [s' with_opfs st_ op_fs] in Hw, Hbw.
    rewrite (dir_closed _ _ _ _ _ R) in Hw by by eexists. destruct Hw as [Hw Gw].
    assert (w = v') as -> by by apply (inode_at_inj fs' d). rewrite <- (growable_blocks _ _ _ _ Gw) in Hbw.
    apply Hb in Hbw as [Hbw|Hbw]; [left|by right]. split; [done|]. exists v, n. by rewrite <- (growable_blocks _ _ _ _ G).
Qed.

Lemma entering_space e v :
  is_Some (T' !! e) -> inode_at fs' e v ->
  i_blocks v / 8 + (m - 1) <= 1036 /\ i_blocks v / 8 + (m - 1) - 12 <= size_ (st_cache (fs_store fs')).
Proof.
  destruct entering_dir as (u & n & Hu & G & _). rewrite (fr_size _ _ _ _ (mi_frame _ _ _ _ _ Md u Hu)).
  intros [N HN] Hv. unfold T' in HN. rewrite (add_lookup T d M name j _ HM entering_none) in HN. case_decide as E1.
  - subst e. assert (v = new_inode mode) as -> by (apply (inode_at_inj fs' j); [done|apply Md]).
    change (i_blocks (new_inode mode) / 8) with 0. pose proof (rp_space _ _ _ _ R d u ltac:(by eexists) Hu) as H.
    rewrite (gb_blocks _ _ _ _ G) in H. rewrite Z.mul_comm, Z.div_mul in H by lia. pose proof (fo_range _ _ _ (gb_file _ _ _ _ G)). lia.
  - case_decide as E2.
    + subst e. destruct (mi_dir _ _ _ _ _ Md u Hu) as (v' & Hv' & _ & Hle & _).
      assert (v' = v) as -> by by apply (inode_at_inj fs' d). pose proof (rp_space _ _ _ _ R d u ltac:(by eexists) Hu) as H.
      assert (i_blocks v / 8 <= i_blocks u / 8 + 1) by (Z.div_mod_to_equations; lia). lia.
    + destruct (to_node _ _ (rp_tree _ _ _ _ R) e) as (v0 & Hv0 & _); [apply (to_in _ _ (rp_tree _ _ _ _ R)); by eexists|].
      assert (v0 = v) as ->.
      { apply (inode_at_inj fs' e); [|done]. apply entering_at; [apply (to_in _ _ (rp_tree _ _ _ _ R)); by eexists|done|done]. }
      pose proof (rp_space _ _ _ _ R e v ltac:(by eexists) Hv0). lia.
Qed.

Lemma entering_owner i v : in_tree T' i -> inode_at fs' i v -> <[j := (mode, 0, 0)]> (a_owner A) !! i = Some (owner_of v).
Proof.
  intros Hi Hv. destruct (entering_node i Hi) as [->|[Hne Hi']].
  - rewrite lookup_insert_eq. assert (v = new_inode mode) as -> by (apply (inode_at_inj fs' j); [done|apply Md]).
    unfold owner_of. by rewrite new_inode_mode.
  - rewrite lookup_insert_ne by done. destruct (decide (i = d)) as [->|Hnd].
    + destruct entering_dir as (u & n & Hu & _). destruct (mi_dir _ _ _ _ _ Md u Hu) as (v' & Hv' & Ha & _).
      assert (v' = v) as -> by by apply (inode_at_inj fs' d). rewrite (attrs_owner v u Ha). by apply (rp_owner _ _ _ _ R).
    + destruct (to_node _ _ (rp_tree _ _ _ _ R) i Hi') as (u & Hu & _). rewrite (rp_owner _ _ _ _ R i u Hi' Hu).
      do 2 f_equal. apply (inode_at_inj fs' i); [by apply entering_at|done].
Qed.

Lemma entering_plain e N x : T' !! e = Some N -> is_Some (N !! x) -> no_nul x.
Proof.
  unfold T'. rewrite (add_lookup T d M name j _ HM entering_none). case_decide; [destruct (S_ISDIR mode); [|done]|case_decide].
  - intros [= <-] [? Hx]. by rewrite lookup_empty in Hx.
  - intros [= <-]. destruct (decide (x = name)) as [->|Hne]; [done|]. rewrite lookup_insert_ne by done. by apply (rp_plain _ _ _ _ R d).
  - intros HN. by apply (rp_plain _ _ _ _ R e).
Qed.

Lemma entering_data i :
  is_Some (a_data (a_enter d M name j (S_ISDIR mode) (mode, 0, 0) A) !! i) <-> in_tree T' i /\ T' !! i = None.
Proof.
  pose proof entering_none as Hn. cbn [a_enter a_data]. unfold T'. rewrite (add_lookup T d M name j _ HM Hn).
  destruct (decide (i = j)) as [->|Hne].
  - pose proof (in_tree_new T d M name j (S_ISDIR mode) HM Hn). destruct (S_ISDIR mode).
    + split; [|by intros [_ ?]]. intros Hd. by apply (rp_data _ _ _ _ R) in Hd as [? _].
    + rewrite lookup_insert_eq. split; [by split|by eexists].
  - assert (E : (if S_ISDIR mode then a_data A else <[j:=[]]> (a_data A)) !! i = a_data A !! i)
      by (destruct (S_ISDIR mode); [done|by rewrite lookup_insert_ne]).
    rewrite E, (rp_data _ _ _ _ R). split.
    + intros [Hi Hnone]. split; [by apply in_tree_mono|]. rewrite decide_False; [done|]. intros ->. unfold T in *. congruence.
    + intros [Hi Hnone]. destruct (entering_node i Hi) as [?|[_ Hi']]; [done|]. split; [done|]. by destruct (decide (i = d)).
Qed.

Lemma rep_entering : rep s' (a_enter d M name j (S_ISDIR mode) (mode, 0, 0) A) k (m - 1).
Proof.
  destruct entering_dir as (v & n & Hv & G & Hc). pose proof (rp_left _ _ _ _ R) as Hl.
  assert (Hdat : forall i c, a_data A !! i = Some c -> in_tree T i /\ i <> d /\ i <> j).
  { intros i c Hd. destruct (proj1 (rp_data _ _ _ _ R i)) as [Hi HT]; [by eexists|]. split; [done|]. split; [|by intros ->]. congruence. }
  constructor; cbn [a_enter a_dirs a_owner a_open a_next s' with_opfs op_fs st_ op_files op_fresh]; try apply R.
  - exact Ht.
  - exact Hnames.
  - apply entering_plain.
  - apply entering_owner.
  - apply entering_data.
  - intros i c Hd. cbn [a_enter a_data] in Hd. assert (Hd' : i = j /\ c = [] /\ S_ISDIR mode = false \/ a_data A !! i = Some c).
    { destruct (S_ISDIR mode); [by right|]. destruct (decide (i = j)) as [->|Hne]; [rewrite lookup_insert_eq in Hd; left; naive_solver|].
      rewrite lookup_insert_ne in Hd by done. by right. }
    destruct Hd' as [(-> & -> & Hd')|Hd']; [by apply entering_file|]. destruct (Hdat i c Hd') as (Hi & Hne & _).
    destruct (entering_other v i Hv Hi Hne) as [H HB].
    apply (file_keep _ _ s s' (mi_frame _ _ _ _ _ Md v Hv) i H HB); [by apply handles_kept_refl|by apply R].
  - intros fd i Hfd. destruct (rp_reg _ _ _ _ R fd i Hfd) as [c Hd]. destruct (Hdat i c Hd) as (Hi & _ & Hne). exists c.
    destruct (S_ISDIR mode); [done|]. cbn. by rewrite lookup_insert_ne.
  - apply entering_apart.
  - lia.
  - apply (mi_room _ _ _ _ _ Md). apply (room_le _ _ _ (rp_room _ _ _ _ R)). lia.
  - apply (mi_left _ _ _ _ _ Md); [lia|]. replace (m - 1 + 1) with m by lia. apply R.
  - apply entering_space.
  - intros i w nw Hd Hw. apply entering_data in Hd as [Hi HT']. destruct (entering_node i Hi) as [->|[Hne Hi']].
    + destruct (entering_new _ _ Hw) as [_ ->]. lia.
    + assert (Hnd : i <> d).
      { intros ->. unfold T' in HT'. rewrite (add_lookup T d M name j _ HM entering_none) in HT'. rewrite decide_False in HT' by done.
        by rewrite decide_True in HT'. }
      assert (HT : T !! i = None).
      { unfold T' in HT'. rewrite (add_lookup T d M name j _ HM entering_none) in HT'. by rewrite !decide_False in HT' by done. }
      destruct (node_current _ _ _ _ i R Hi') as (u & nu & Hu).
      destruct (current_inj _ _ _ _ _ _ (entering_current _ _ _ Hi' Hnd Hu) Hw) as [<- <-].
      apply (rp_max _ _ _ _ R i u nu); [|done]. by apply (rp_data _ _ _ _ R).
Qed.
End Entering.

Lemma rep_less s A k m m' : rep s A k m -> 0 <= m' <= m -> rep s A k m'.
Proof.
  intros R Hm. pose proof (rp_left _ _ _ _ R). constructor; try apply R.
  - lia.
  - apply (room_le _ _ _ (rp_room _ _ _ _ R)). lia.
  - apply (inodes_left_le _ _ m); [apply R|lia].
  - intros d v Hd Hv. pose proof (rp_space _ _ _ _ R d v Hd Hv). lia.
Qed.

Lemma rep_can_create s A k m d : rep s A k m -> 1 <= m -> is_Some (a_dirs A !! d) -> can_create (op_fs s) d.
Proof.
  intros R Hm Hd. pose proof (rp_left _ _ _ _ R). split; [apply (room_le _ _ _ (rp_room _ _ _ _ R)); lia|].
  split; [apply (inodes_left_room _ m); [apply R|lia]|]. intros v Hv. pose proof (rp_space _ _ _ _ R d v Hd Hv).
  split; [Z.div_mod_to_equations; lia|lia].
Qed.

Lemma walk_error T names : forall d e, walk T d names = inl e -> e <> FS_SUCCESS.
Proof.
  induction names as [|x names IH]; intros d e; cbn [walk]; [done|]. destruct (edge T d x) as [j|]; [apply IH|].
  intros [= <-]. unfold missing. by destruct (T !! d).
Qed.

Section Calls.
Context {clock : Clock} {caller : Caller}.

Lemma create_rep s A k m dir name mode :
  rep s A k m -> 1 <= m -> path_pre (a_dirs A) dir -> plain name -> path_name name -> 0 <= mode < 2 ^ 16 ->
  exists r fs', with_path (path_string (dir ++ [name])) (fun p => inode_create p mode) s = Ret r (with_opfs fs' s)
    /\ match new_place (a_dirs A) dir name with
       | inl e => cr_code r = e /\ e <> FS_SUCCESS /\ rep (with_opfs fs' s) A k m
       | inr (d, M) => exists j, r = mk_created FS_SUCCESS (Some (ip_of j)) (Some j) /\ ~ in_tree (a_dirs A) j
           /\ inode_at fs' j (new_inode mode)
           /\ (S_ISDIR mode || S_ISREG mode = true -> rep (with_opfs fs' s) (a_enter d M name j (S_ISDIR mode) (mode, 0, 0) A) k (m - 1))
       end.
Proof.
  intros R Hm (Hp & Hn & He) Hpn Hnn Hmode.
  destruct (path_string_ok (dir ++ [name]) (op_fs s)) as (p & Hinit & Hv & Hnames); [apply Forall_app; split; [done|by constructor]..|].
  assert (Hemp : path_empty p = false).
  { unfold path_empty. apply bool_decide_eq_false. intros E. unfold path_names in Hnames. rewrite E in Hnames. by destruct dir. }
  destruct (path_split p Hemp) as [Hsp _]. rewrite Hnames in Hsp. apply app_inj_tail in Hsp as [Hdir Hback].
  destruct (inode_create_ok (a_dirs A) (op_fs s) p mode) as (r & fs' & T' & Hc & Hcr & Ht & Hca & Hfr);
    [apply R|apply R|done|done|rewrite Hnames; apply Forall_app; split; [done|by constructor]|by rewrite <- Hdir|done| |].
  { intros d _ Hd. by apply (rep_can_create s A k m). }
  exists r, fs'. split; [rewrite (with_path_eq _ p _ _ Hinit); by apply on_fs_eq|].
  unfold created, create_frame in *. rewrite <- Hdir, <- Hback in *. unfold new_place.
  destruct (walk (a_dirs A) ROOT_INODE dir) as [e|d] eqn:Hw.
  { destruct Hcr as [-> ->]. split; [done|]. split; [by apply (walk_error _ _ _ _ Hw)|]. by apply rep_looked. }
  destruct (a_dirs A !! d) as [M|] eqn:HM; cbn [mbind option_bind] in Hfr.
  2:{ destruct Hcr as [-> ->]. split; [done|]. split; [done|]. by apply rep_looked. }
  destruct (M !! name) as [j|] eqn:Hj.
  { destruct Hcr as [-> ->]. split; [done|]. split; [done|]. by apply rep_looked. }
  destruct Hcr as (j & -> & Hjn & ->). specialize (Hfr j eq_refl). exists j. split; [done|]. split; [done|]. split; [apply Hfr|].
  intros Hkind. apply rep_entering; try done. apply Hnn.
Qed.

(** [create_path] of the handlers. *)
Lemma create_path_ok s A k m dir name mode :
  rep s A k m -> 1 <= m -> path_pre (a_dirs A) dir -> plain name -> path_name name -> 0 <= mode < 2 ^ 16 ->
  S_ISDIR mode || S_ISREG mode = true ->
  exists s1, match new_place (a_dirs A) dir name with
       | inl e => create_path (path_string (dir ++ [name])) mode s = Ret (inl (Code2Errno e)) s1 /\ rep s1 A k (m - 1)
       | inr (d, M) => exists j, create_path (path_string (dir ++ [name])) mode s = Ret (inr (ip_of j, j)) s1
           /\ ~ in_tree (a_dirs A) j /\ inode_at (op_fs s1) j (new_inode mode) /\ op_fresh s1 = op_fresh s
           /\ rep s1 (a_enter d M name j (S_ISDIR mode) (mode, 0, 0) A) k (m - 1)
       end.
Proof.
  intros R Hm Hp Hpn Hnn Hmode Hkind.
  destruct (create_rep s A k m dir name mode R Hm Hp Hpn Hnn Hmode) as (r & fs' & Hw & H). exists (with_opfs fs' s).
  destruct (new_place (a_dirs A) dir name) as [e|[d M]].
  - destruct H as (He & Hne & R'). split; [|apply (rep_less _ _ _ m); [done|lia]]. unfold create_path. mstep Hw. rewrite He. by destruct e.
  - destruct H as (j & -> & Hj & Hv & R'). exists j. split; [unfold create_path; by mstep Hw|]. by specialize (R' Hkind).
Qed.
End Calls.

Section Handlers.
Context {clock : Clock} {caller : Caller}.

Lemma init_attrs_owner mode w : 0 <= mode < 2 ^ 16 -> owner_of (init_attrs mode w) = owned mode.
Proof. intros H. unfold owner_of, init_attrs, owned. cbn. by rewrite !u16_u16, u16_small. Qed.

Lemma init_attrs_change mode w :
  0 <= mode < 2 ^ 16 -> inode_wf w = true -> i_mode w = mode -> i_size w = 0 -> attr_change (init_attrs mode) w.
Proof.
  intros Hm Hwf Hmode Hs. assert (E : i_mode (init_attrs mode w) = mode) by (unfold init_attrs; cbn; by rewrite u16_u16, u16_small).
  constructor; [unfold init_attrs; auto 10 with wf|done|by rewrite E, Hmode|by rewrite E, Hmode|done].
Qed.

Lemma restat_enter j o o' d M name dir A : a_restat j o' (a_enter d M name j dir o A) = a_enter d M name j dir o' A.
Proof. unfold a_restat, a_enter. cbn. by rewrite insert_insert_eq. Qed.

Lemma mkdir_ok s A k m dir name mode :
  rep s A k m -> 1 <= m -> call_pre A (Mkdir dir name mode) ->
  exists e s' A', fuse_mkdir (path_string (dir ++ [name])) mode s = Ret e s' /\ rep s' A' k (m - 1)
    /\ spec_call A (Mkdir dir name mode) (Code e) A'.
Proof.
  intros R Hm (Hp & Hpn & Hnn & Hmode & Hdir). cbn [spec_call]. set (mo := Z.lor mode S_IFDIR) in *.
  destruct (create_path_ok s A k m dir name mo R Hm Hp Hpn Hnn Hmode) as (s1 & H); [by rewrite Hdir|].
  destruct (new_place (a_dirs A) dir name) as [e|[d M]].
  { destruct H as [Hc R1]. exists (Code2Errno e), s1, A. split; [|by split]. apply body_stop. fold mo. by apply try_bind_stop. }
  destruct H as (j & Hc & Hj & Hv & _ & R1). rewrite Hdir in R1. set (A1 := a_enter d M name j true (mo, 0, 0) A) in *.
  assert (Hload : on_fs (iload (ip_of j)) s1 = Ret (new_inode mo) s1).
  { rewrite (on_fs_eq _ _ (new_inode mo) (op_fs s1)); [by rewrite with_opfs_id|]. apply cell_load, Hv. }
  assert (Hper : permits (new_inode mo) true true false = may (mo, 0, 0) true true false).
  { unfold permits, may. by rewrite new_inode_mode. }
  assert (HTj : a_dirs A1 !! j = Some ∅) by apply lookup_insert_eq.
  destruct (may (mo, 0, 0) true true false) eqn:Hmay.
  - destruct (closed_cycle s1 A1 k (m - 1) j (new_inode mo) (init_attrs mo) R1) as (s2 & s3 & s4 & s' & H1 & H2 & H3 & H4 & R').
    { apply (to_in _ _ (rp_tree _ _ _ _ R1)). by rewrite HTj. }
    { apply (dir_closed _ _ _ _ _ R1). by rewrite HTj. }
    { done. }
    { apply init_attrs_change; [done|apply (ia_cell _ _ _ Hv)|by apply new_inode_mode|done]. }
    unfold A1 in R'. rewrite init_attrs_owner, restat_enter in R' by done.
    exists 0, s', (a_enter d M name j true (owned mo) A). split; [|split; [done|by exists j]].
    unfold fuse_mkdir. apply body_go. fold mo. tstep Hc. mstep Hload. rewrite Hper. rewrite (try_bind_go _ _ _ tt s1) by done.
    mstep H1. rewrite (try_bind_go _ _ _ tt s2) by done. mstep H2. mstep H3. by mstep H4.
  - exists (- EACCES), s1, A1. split; [|split; [done|by exists j]].
    unfold fuse_mkdir. apply body_stop. fold mo. tstep Hc. mstep Hload. rewrite Hper. by apply try_bind_stop.
Qed.

Lemma create_ok s A k m dir name mode :
  rep s A k m -> 1 <= m -> call_pre A (Create dir name mode) ->
  exists e fh s' A', fuse_create (path_string (dir ++ [name])) mode s = Ret (e, fh) s' /\ rep s' A' k (m - 1)
    /\ spec_call A (Create dir name mode) (Handle e fh) A'.
Proof.
  intros R Hm (Hp & Hpn & Hnn & Hmode & Hreg & Hmore). cbn [spec_call].
  destruct (create_path_ok s A k m dir name mode R Hm Hp Hpn Hnn Hmode) as (s1 & H); [by rewrite Hreg, orb_true_r|].
  destruct (new_place (a_dirs A) dir name) as [e|[d M]].
  { destruct H as [Hc R1]. exists (Code2Errno e), None, s1, A. split; [unfold fuse_create; by mstep Hc|by split]. }
  destruct H as (j & Hc & Hj & Hv & Hfr & R1).
  assert (Hdir : S_ISDIR mode = false) by (unfold S_ISREG, S_ISDIR in *; apply Z.eqb_eq in Hreg; by rewrite Hreg).
  rewrite Hdir in R1. set (A1 := a_enter d M name j false (mode, 0, 0) A) in *.
  destruct (handle_steps s1 A1 k (m - 1) j [] R1 (lookup_insert_eq _ _ _)) as (cs & l & v & w & n & n' & C & Hw & Hcs & s2 & s3 & s4 & H2 & H3 & H4 & H5 & H6).
  set (s5 := with_handle s1 j cs l) in *.
  assert (v = new_inode mode) as -> by (apply (inode_at_inj (op_fs s1) j); [apply C|done]).
  assert (Hwwf : inode_wf w = true) by (destruct (cp_place _ _ _ _ _ _ _ _ C) as [ip G]; apply (gb_cell _ _ _ _ G)).
  assert (Hwm : i_mode w = mode) by (pose proof (cp_owner _ _ _ _ _ _ _ _ C) as E; injection E as E _ _; rewrite E; by apply new_inode_mode).
  pose proof (rep_opening s1 A1 k (m - 1) j [] l (new_inode mode) w w n n' cs R1 (lookup_insert_eq _ _ _) C Hw Hcs Hwwf
    (conj eq_refl eq_refl) eq_refl eq_refl Hmore) as R5. fold s5 in R5.
  pose proof (opening_opened s1 A1 k (m - 1) j [] l (new_inode mode) w w n n' cs R1 C Hw Hwwf (conj eq_refl eq_refl) eq_refl eq_refl) as O5.
  destruct (open_commit s5 _ k (m - 1) j [] (mk_icache (Z.of_nat (length l) + 1) (op_fresh s1 :: l)) (new_inode mode) w n' (init_attrs mode) (st_ s5) R5) as (fs' & H8 & R8).
  { apply lookup_insert_eq. }
  { apply lookup_insert_eq. }
  { exact O5. }
  { destruct (cp_place _ _ _ _ _ _ _ _ C) as [ip G].
    apply (only_holds s1 s5 ip w w n'); [done|apply copies_only|done|done|apply C|apply C]. }
  { destruct (tree_wf _ _ (rp_tree _ _ _ _ R1)) as [Hwf Hz]. by apply (copies_restat (op_fs s1)). }
  { by rewrite Hwm. }
  { apply init_attrs_change; [done|done|done|]. destruct (cp_holds _ _ _ _ _ _ _ _ C) as [E _]. by rewrite <- E. }
  rewrite init_attrs_owner in R8 by done.
  exists 0, (Some (a_next A)), (with_opfs fs' s5), (a_opens j (a_enter d M name j false (owned mode) A)). split; [|split].
  - unfold fuse_create. mstep Hc. mstep H2. mstep H3. cbn [negb]. mstep H4. mstep H5. mstep H6.
    mstep (handle_update s1 j cs l w (init_attrs mode) Hw). mstep H8. by rewrite (rp_next _ _ _ _ R), <- Hfr.
  - assert (E : a_restat j (owned mode) (a_opens j A1) = a_opens j (a_restat j (owned mode) A1)) by done.
    rewrite E in R8. unfold A1 in R8. by rewrite restat_enter in R8.
  - by exists j.
Qed.
End Handlers.
