(* ===== verification/Sessions.v ===== *)
(** * Sessions: the handlers refine the abstract file system

    Any list of requests, served one after the other by the handlers of
    src/operation/ on a state that stands for an abstract file system, is
    answered as [specs] says, as long as the blocks, names and handles it
    needs are left ([fits]); no handler faults, asserts or runs out of fuel,
    and the state stands for an abstract file system again. *)

From S2P Require Import Prelude Layout Disk Bitmap PathName Block BlockGroup BlockCache DentryCache DentryTree.
From S2P Require Import FileSystem FileStatus OpenFiles FsBlocks FileData FsPointers FsAlloc FileBlocks FsInodes FileGrow FileWrite FileIO FsMount Handlers Entry InodeAttrs.
From S2P Require Import DirBlock Directory PathLookup Frames PathCreate AbstractFs Steady OpenTree SessionIO SessionOpen SessionAttr SessionList SessionMake.

Lemma serve_ok s A k m r :
  rep s A k m -> call_pre A (rq_call r) -> call_blocks (rq_call r) <= k -> call_names (rq_call r) <= m ->
  exists a s' A', serve r s = Ret a s' /\ spec A r a A' /\ rep s' A' (k - call_blocks (rq_call r)) (m - call_names (rq_call r)).
Proof.
  intros R Hpre Hk Hm. destruct r as [clock caller c]. unfold serve, spec. cbn [rq_time rq_caller rq_call] in *.
  cbn [ops f_create f_getattr f_readdir f_open f_read f_write f_mkdir f_access f_release f_chmod f_utimens f_chown].
  destruct c as [dir name mode|dir name mode|path flags|fd flags buf offset|fd flags size offset|fd|path|path mode|path mode|path user group|path tv|path];
    cbn [call_blocks call_names] in *; rewrite ?Z.sub_0_r in *.
  - destruct (mkdir_ok s A k m dir name mode R Hm Hpre) as (e & s' & A' & H & R' & Hs). exists (Code e), s', A'. split; [by mstep H|done].
  - destruct (create_ok s A k m dir name mode R Hm Hpre) as (e & fh & s' & A' & H & R' & Hs). exists (Handle e fh), s', A'. split; [by mstep H|done].
  - destruct Hpre as (Hp & Hh & Hd). destruct (open_ok s A k m path flags R Hp Hh Hd) as (e & fh & s' & A' & H & R' & Hs).
    exists (Handle e fh), s', A'. split; [by mstep H|done].
  - destruct Hpre as (i & c & Hfd & Hc & Hw & Hl & Hpos & Hmax).
    destruct (write_ok s A k m fd flags buf offset i c R Hfd Hc Hw Hl Hpos Hmax Hk) as (s' & H & R').
    eexists _, s', _. split; [mstep H; reflexivity|]. split; [by exists i, c|done].
  - destruct Hpre as ([i Hfd] & Hfl & Hoff & Hsz). destruct (rp_reg _ _ _ _ R fd i Hfd) as [c Hc].
    destruct (read_ok s A k m fd flags size offset i c R Hfd Hc Hfl Hoff Hsz) as (bs & s' & H & Hl & Hb & R').
    eexists _, s', A. split; [mstep H; reflexivity|]. split; [by exists i, c, bs|done].
  - destruct (release_ok s A k m fd R Hpre) as (s' & H & R'). exists (Code 0), s', (a_closes fd A). split; [by mstep H|done].
  - destruct (getattr_ok s A k m path R Hpre) as (e & st & s' & H & R' & Hs). exists (Attr e st), s', A. split; [by mstep H|done].
  - destruct (access_ok s A k m path mode R Hpre) as (e & s' & H & R' & Hs). exists (Code e), s', A. split; [by mstep H|done].
  - destruct (chmod_ok s A k m path mode R Hpre) as (e & s' & A' & H & R' & Hs). exists (Code e), s', A'. split; [by mstep H|done].
  - destruct (chown_ok s A k m path user group R Hpre) as (e & s' & A' & H & R' & Hs). exists (Code e), s', A'. split; [by mstep H|done].
  - destruct (utimens_ok s A k m path tv R Hpre) as (e & s' & H & R' & Hs). exists (Code e), s', A. split; [by mstep H|done].
  - destruct (readdir_ok s A k m path R Hpre) as (e & l & s' & H & R' & Hs). exists (Names e l), s', A. split; [by mstep H|done].
Qed.

Lemma serve_all_ok rs : forall s A k m,
  rep s A k m -> fits A rs k m ->
  exists l s' A' k' m', serve_all rs s = Ret l s' /\ specs A rs l A' /\ rep s' A' k' m'.
Proof.
  induction rs as [|r rs IH]; intros s A k m R Hf; [exists [], s, A, k, m; by split; [|split; [constructor|]]|].
  destruct Hf as (Hpre & Hk & Hm & Hf). destruct (serve_ok s A k m r R Hpre Hk Hm) as (a & s1 & A1 & H1 & Hs & R1).
  destruct (IH s1 A1 _ _ R1 (Hf a A1 Hs)) as (l & s' & A' & k' & m' & H2 & Hl & R'). exists (a :: l), s', A', k', m'.
  split; [cbn [serve_all]; mstep H1; by mstep H2|]. split; [by apply (specs_cons _ _ _ A1)|done].
Qed.

(** ** A new file system *)

Definition MOUNT_BLOCKS : Z := 8000.
Definition MOUNT_NAMES : Z := 1000.

Definition root_owner : owner := (Z.lor S_IFDIR 0x124, 0, 0).

Lemma root_inodes : MOUNT_NAMES <= free_bits (inode_bitmap_ FsMount.root_group) /\ MOUNT_NAMES <= icount 0 (fs_super laid_out).
Proof.
  split; [|vm_compute; discriminate].
  assert (E : data_ (inode_bitmap_ FsMount.root_group) = data_ (sample_bitmap [Byte.x01])) by (vm_compute; reflexivity).
  assert (Hf : free_bits (inode_bitmap_ FsMount.root_group) = free_bits (sample_bitmap [Byte.x01])).
  { rewrite !free_bits_unseal. apply count_ext. intros i _. unfold bm_bit. by rewrite E. }
  rewrite Hf, free_bits_sample. by vm_compute.
Qed.

Lemma root_only i : in_tree {[ ROOT_INODE := ∅ ]} i -> i = ROOT_INODE.
Proof.
  intros [->|(d & name & E)]; [done|]. unfold edge in E. destruct (decide (d = ROOT_INODE)) as [->|].
  - rewrite lookup_singleton_eq in E. cbn in E. by rewrite lookup_empty in E.
  - by rewrite lookup_singleton_ne in E.
Qed.

(** The constructor on an empty disk gives a state for the empty root. *)
Lemma mount_rep {clock : Clock} :
  exists s, fuse_init blank = Ret tt s /\ rep s (afs_new root_owner 1) MOUNT_BLOCKS MOUNT_NAMES.
Proof.
  destruct mount_tree as (fs & H & Ht & Hc). exists (mk_op fs ∅ ∅ 1%positive). split; [unfold fuse_init; by rewrite H|].
  destruct mount_blank as (fs0 & H0 & _ & _ & R & _ & Hg & Hsb & _ & Hib & _ & Hsz). rewrite H in H0.
  assert (fs0 = fs) as -> by congruence. clear H0. pose proof (gb_cell _ _ _ _ Hg) as Hcell.
  assert (Hroot : forall v, inode_at fs ROOT_INODE v -> v = root_dir).
  { intros v Hv. pose proof (cell_load _ _ _ (ia_cell _ _ _ Hv)) as E1. pose proof (cell_load _ _ _ Hcell) as E2.
    change (ip_of ROOT_INODE) with root_inode_ in E1. rewrite E1 in E2. by injection E2. }
  constructor; cbn [afs_new a_dirs a_data a_owner a_open a_next op_fs st_ op_files op_fresh].
  - exact Ht.
  - exact Hc.
  - intros d M name [<- <-]%lookup_singleton_Some [j Hj]. by rewrite lookup_empty in Hj.
  - intros i v ->%root_only Hv. rewrite (Hroot v Hv). rewrite lookup_singleton_eq. f_equal.
  - intros i. rewrite lookup_empty. split; [by intros [? ?]|]. intros [->%root_only Hn]. by rewrite lookup_singleton_eq in Hn.
  - intros i c Hd. by rewrite lookup_empty in Hd.
  - intros fd. by rewrite !lookup_empty.
  - intros i. rewrite lookup_empty. split; [by intros [? ?]|]. intros [fd Hfd]. by rewrite lookup_empty in Hfd.
  - intros fd i Hfd. by rewrite lookup_empty in Hfd.
  - done.
  - intros fd [f Hf]. by rewrite lookup_empty in Hf.
  - rewrite map_size_empty. clear. by vm_compute.
  - intros i j b Hi Hj Hne. destruct Hne. rewrite (root_only i Hi), (root_only j Hj). reflexivity.
  - clear. by vm_compute.
  - apply (room_le _ _ BLOCKS_PER_GROUP); [exact R|clear; by vm_compute].
  - destruct Hcell as [_ (g & Hgr & _)]. exists 0, g. split; [exact Hgr|]. split; [lia|]. rewrite (Hib g Hgr), Hsb. exact root_inodes.
  - intros d v [M [<- _]%lookup_singleton_Some] Hv. rewrite (Hroot v Hv), Hsz. clear. by vm_compute.
  - intros i w n [c Hd]. by rewrite lookup_empty in Hd.
Qed.

(** ** Properties *)

(** C1. The handlers refine the abstract file system.  In a state that stands
    for the abstract state [A], with [k] blocks and [m] names left, every list
    of requests that fits (mkdir, create, open, write, read, release, getattr,
    access, chmod, chown, utimens and readdir, by any callers, with any number
    of files open and shared between handles) is served without a fault, each
    answer is one that the specification allows, and the state after it stands
    for the abstract state that the specification leads to: directories, file
    contents, owners and open handles.  [fits] asks, by [call_pre], for names
    that are not too long, paths of which the name before the last does not
    lead to a regular file, regular files for open, handles that are open with
    the right access mode, writes that start inside the file or at its end and
    stay below 4 GiB, and a chmod that keeps the kind of the node; and for
    enough blocks, names and handles.  The permissions that the specification
    asks for are those of the code: for utimens the caller has to be the owner
    and have the bit S_IWUSR, or be the super user. *)
Theorem sessions_refine rs s A k m :
  rep s A k m -> fits A rs k m ->
  exists l s' A' k' m', serve_all rs s = Ret l s' /\ specs A rs l A' /\ rep s' A' k' m'.
Proof. apply serve_all_ok. Qed.

(** ** Instances of the properties *)

Definition as_root (c : call) : request := mk_request 7 (mk_caller 0 0) c.

Definition hello : list byte := [Byte.x68; Byte.x69].

(** A directory "d", a file "f" that is written, read and closed, a listing. *)
Definition sample_session : list request := map as_root
  [Mkdir [] [Byte.x64] 0x1ed; Create [] [Byte.x66] (Z.lor S_IFREG 0x1a4); Write 1 O_RDWR hello 0; Read 1 O_RDWR 2 0;
   Release 1; Readdir []].

Lemma root_path (T : dirs) : path_pre T [].
Proof. split; [constructor|]. split; [constructor|]. intros pre name p E. by destruct pre. Qed.

Lemma short_name (c : byte) : SEPARATOR c = false -> c <> Byte.x00 -> plain [c] /\ path_name [c].
Proof. intros Hs Hn. split; [by constructor|]. split; [done|]. split; [by constructor|by vm_compute]. Qed.

Lemma place_in_root (T : dirs) M name : T !! ROOT_INODE = Some M -> M !! name = None -> new_place T [] name = inr (ROOT_INODE, M).
Proof. intros HM Hn. unfold new_place. cbn [walk]. by rewrite HM, Hn. Qed.

Lemma sample_fits : fits (afs_new root_owner 1) sample_session MOUNT_BLOCKS MOUNT_NAMES.
Proof.
  unfold sample_session. cbn [map as_root fits rq_call]. split; [|split; [done|split; [done|]]].
  { split; [apply root_path|]. destruct (short_name Byte.x64) as [H1 H2]; [done|done|]. do 2 (split; [done|]). split; by vm_compute. }
  intros a1 A1 (j & Hj & _ & ->). assert (Hj0 : j <> 0) by (intros ->; apply Hj; by left). split; [|split; [done|split; [done|]]].
  { split; [apply root_path|]. destruct (short_name Byte.x66) as [H1 H2]; [done|done|]. do 2 (split; [done|]). do 2 (split; [by vm_compute|]). by vm_compute. }
  intros a2 A2 H. unfold spec in H. cbn [as_root rq_call rq_caller spec_call] in H. rewrite (place_in_root _ {[ [Byte.x64] := j ]}) in H.
  2:{ cbn [a_dirs a_enter afs_new add_entry]. by rewrite lookup_insert_ne, lookup_insert_eq. }
  2:{ by rewrite lookup_singleton_ne. }
  destruct H as (i & Hi & _ & ->). split; [|split; [by vm_compute|split; [done|]]].
  { exists i, []. split; [apply lookup_insert_eq|]. split; [apply lookup_insert_eq|]. repeat split; by vm_compute. }
  intros a3 A3 (i' & c & Hi' & Hc & _ & ->). split; [|split; [by vm_compute|split; [done|]]].
  { split; [by exists i'|]. repeat split; by vm_compute. }
  intros a4 A4 (i4 & c4 & bs & _ & _ & _ & _ & _ & ->). split; [by exists i'|]. split; [by vm_compute|split; [done|]].
  intros a5 A5 [_ ->]. split; [apply root_path|]. split; [by vm_compute|split; [done|]]. done.
Qed.

Lemma sessions_refine_witness :
  exists s l s' A', @fuse_init 7 blank = Ret tt s /\ serve_all sample_session s = Ret l s'
    /\ specs (afs_new root_owner 1) sample_session l A'.
Proof.
  destruct (@mount_rep 7) as (s & Hm & R).
  destruct (sessions_refine sample_session s _ _ _ R sample_fits) as (l & s' & A' & k' & m' & H & Hs & _).
  exists s, l, s', A'. split; [exact Hm|]. split; [exact H|exact Hs].
Defined.
