(* ===== verification/SessionPersist.v ===== *)
(** * SessionPersist: what a session leaves behind

    fuse_destroy deletes the file system, whose destructor flushes it, and
    fuse_init mounts what is then on the disk.  When no file is open, the
    mounted file system has every node of the abstract file system that the
    handlers have been serving: its owner and mode, the names of a directory,
    the bytes of a file.  A handle that is still open keeps changes in the
    shared copy of the inode, which only its release writes back. *)

From S2P Require Import Prelude Layout Disk Bitmap PathName Block BlockGroup BlockCache DentryCache DentryTree.
From S2P Require Import FileSystem FileStatus OpenFiles FsBlocks FileData FsPointers FsAlloc FileBlocks FsInodes FileGrow FileWrite FileIO FsMount FsPersist Handlers Entry InodeAttrs.
From S2P Require Import DirBlock Directory PathLookup Frames PathCreate AbstractFs Steady OpenTree SessionIO SessionOpen SessionAttr SessionList SessionMake Sessions.

(** ** When a file system can be mounted again *)

(** Only group 0 is loaded, and not the last block of its inode table, which
    shares its place on the disk with data block 0. *)
Definition in_one_group (s : FS) : bool :=
  bool_decide (dom (fs_groups s) = {[ 0 ]})
  && match fs_groups s !! 0 with
     | Some g => forallb (fun k => k <? NUM_INODE_TABLE_BLOCKS - 1) (sorted_keys (inode_table_ g))
     | None => false
     end.

Lemma in_one_group_spec s : in_one_group s = true <->
  exists g, fs_groups s = {[ 0 := g ]} /\ forall k, is_Some (inode_table_ g !! k) -> k < NUM_INODE_TABLE_BLOCKS - 1.
Proof.
  split.
  - intros [Hd%bool_decide_eq_true Ht]%andb_prop. destruct (fs_groups s !! 0) as [g|] eqn:Hg; [|done].
    exists g. split.
    + apply map_eq. intros k. destruct (decide (k = 0)) as [->|Hk]; [by rewrite lookup_singleton_eq|].
      rewrite lookup_singleton_ne by congruence. apply not_elem_of_dom. rewrite Hd. set_solver.
    + intros k Hk. rewrite forallb_forall in Ht. apply Z.ltb_lt, Ht, list_elem_of_In. by apply elem_of_sorted_keys.
  - intros (g & Hg & Ht). unfold in_one_group. rewrite Hg, lookup_singleton_eq. apply andb_true_intro. split.
    + apply bool_decide_eq_true. by rewrite dom_singleton_L.
    + apply forallb_forall. intros k Hk%list_elem_of_In%elem_of_sorted_keys. by apply Z.ltb_lt, Ht.
Qed.

Lemma rep_mountable s A k m : rep s A k m -> in_one_group (op_fs s) = true -> exists g, mountable (op_fs s) g.
Proof.
  intros R (g & Hg & Ht)%in_one_group_spec. exists g.
  destruct (to_root _ _ (rp_tree _ _ _ _ R)) as [M HM].
  destruct (to_dir _ _ _ _ (rp_tree _ _ _ _ R) HM) as (v & n & Hv & _ & Hd). pose proof (dir_is_grow _ _ _ _ _ Hd) as G.
  constructor; [apply G|exact Hg|apply Hv| |exact Ht].
  destruct (ia_used _ _ _ Hv) as (g' & Hg' & _ & Hb). rewrite Hg in Hg'. by apply lookup_singleton_Some in Hg' as [_ <-].
Qed.

(** ** fsync *)

Lemma istore_one_group ip v s s' : istore ip v s = Ret tt s' -> in_one_group s = true -> in_one_group s' = true.
Proof.
  intros H Hg. unfold istore in H. rewrite (bind_ret _ _ _ s s) in H by done. destruct ip as [gi i|id].
  - minv H as g s1 H1. unfold unwrap in H1. destruct (fs_groups s !! gi) as [g0|] eqn:E0; [|done]. injection H1 as <- <-.
    minv H as g' s2 H2. unfold inode_store in H2. destruct (inode_table_ g0 !! (i / INODES_PER_BLOCK)) as [b|] eqn:Eb; [|done].
    cbn in H2. injection H2 as <- <-. unfold set_groups, modify_st in H. injection H as <-.
    apply in_one_group_spec in Hg as (h & Hh & Ht). rewrite Hh in E0. apply lookup_singleton_Some in E0 as [<- ->].
    apply in_one_group_spec. eexists. split; [cbn [with_groups fs_groups]; rewrite Hh, insert_singleton_eq; reflexivity|].
    intros k [b' Hb']. cbn [with_itab inode_table_] in Hb'. apply Ht. apply lookup_insert_Some in Hb' as [[<- _]|[_ Hb']]; by eexists.
  - minv H as w s1 H1. unfold unwrap in H1. destruct (fs_copies s !! id); [|done]. injection H1 as <- <-.
    unfold set_copies, modify_st in H. by injection H as <-.
Qed.

Lemma commit_one_group id v w s fs' :
  inode_at (op_fs s) id v -> cell (op_fs s) (InCopy id) w -> ic_commit id s = Ret 0 (with_opfs fs' s) ->
  in_one_group (op_fs s) = true -> in_one_group fs' = true.
Proof.
  intros Hv Hw H Hg. unfold ic_commit in H. rewrite (bind_ret _ _ _ _ _ (on_fs_eq _ _ _ _ (get_inode_at _ _ _ Hv))), with_opfs_id in H.
  rewrite (bind_ret _ _ _ _ _ (on_fs_eq _ _ _ _ (cell_load _ _ _ Hw))), with_opfs_id in H.
  minv H as u s2 H3. injection H as ->. unfold on_fs, zoom in H3. destruct (istore _ _ (op_fs s)) as [[] fs2|] eqn:E; [|done].
  unfold with_opfs in H3. assert (fs2 = fs') as -> by congruence. by apply (istore_one_group _ _ _ _ E).
Qed.

Lemma rep_same s A k m fs' : rep s A k m -> same_blocks (op_fs s) fs' -> rep (with_opfs fs' s) A k m.
Proof.
  intros R Sb. destruct (tree_wf _ _ (rp_tree _ _ _ _ R)) as [Hwf Hz].
  apply (rep_kept (fun _ => False) s); try done; [by apply same_blocks_framed|tauto|..];
    destruct Sb as [_ (st & -> & _)]; [|done..].
  destruct (rp_names _ _ _ _ R) as [K HK]. by exists K.
Qed.

(** The copy of an open file goes into the table. *)
Lemma commit_rep s A k m fd i :
  rep s A k m -> a_open A !! fd = Some i ->
  exists fs', ic_commit i s = Ret 0 (with_opfs fs' s) /\ rep (with_opfs fs' s) A k m
    /\ fs_store fs' = fs_store (op_fs s) /\ (in_one_group (op_fs s) = true -> in_one_group fs' = true)
    /\ exists w n, current (with_opfs fs' s) i w n /\ inode_at fs' i w.
Proof.
  intros R Hfd. destruct (rep_handle _ _ _ _ _ _ R Hfd) as
    (f & ic & c & v & n & w & n' & Hf & Hi & Hic & Hc & Hv & Hreg & G & O & Hh & Ha & Ho).
  destruct (gb_cell _ _ _ _ (op_grow _ _ _ _ _ O)) as [Hwwf Hcopy].
  assert (Hwreg : S_ISREG (i_mode w) = true) by (unfold owner_of in Ho; congruence).
  assert (Hid : mk_op (with_copies (<[i := w]> (fs_copies (op_fs s))) (op_fs s)) (st_ s) (op_files s) (op_fresh s) = s).
  { rewrite insert_id by done. by destruct s as [[]]. }
  destruct (open_commit s A k m i c ic v w n' id (st_ s) R Hc Hic O Hh Hv Hwreg) as (fs' & H & R'); [by constructor|].
  cbn [id] in H, R'. rewrite Hid in H. exists fs'. split; [done|].
  destruct (commit_stored s i v w Hv Hcopy Hwwf) as (fs2 & H2 & S). rewrite H in H2.
  assert (fs2 = fs') as -> by (unfold with_opfs in H2; congruence). clear H2.
  assert (HA : a_restat i (owner_of w) A = A).
  { unfold a_restat. rewrite insert_id; [by destruct A|]. rewrite Ho. apply (rp_owner _ _ _ _ R); [|done].
    apply (rp_data _ _ _ _ R). by eexists. }
  rewrite HA in R'. split; [done|]. split; [apply S|].
  assert (Hw : cell fs' (InCopy i) w) by (apply (sd_other _ _ _ _ S); [done|by split]).
  split; [by apply (commit_one_group i v w s)|].
  destruct (rep_handle _ _ _ _ _ _ R' Hfd) as (f' & ic' & c' & v' & m' & w' & n2 & _ & _ & Hic' & _ & Hv' & _ & _ & O' & _).
  exists w', n2. split; [unfold current; by rewrite Hic'; apply O'|].
  assert (w' = w) as ->.
  { pose proof (cell_load _ _ _ (gb_cell _ _ _ _ (op_grow _ _ _ _ _ O'))) as E1. pose proof (cell_load _ _ _ Hw) as E2.
    cbn [with_opfs op_fs] in E1. congruence. }
  assert (v' = w) as ->; [|done].
  pose proof (cell_load _ _ _ (ia_cell _ _ _ Hv')) as E1. pose proof (cell_load _ _ _ (sd_cell _ _ _ _ S)) as E2.
  cbn [with_opfs op_fs] in E1. congruence.
Qed.

(** ** What is shown again *)

Lemma shown_dir s g s2 ip v n M : mountable s g -> shows s g s2 -> cell s2 ip v -> dir_is s ip v n M -> dir_is s2 ip v n M.
Proof.
  intros Hm Sh Hc (dss & [G Hl Hsm _ Hbl] & Hrest). exists dss. split; [|exact Hrest].
  destruct (shown_file _ _ _ _ _ Hm Sh (gb_file _ _ _ _ G)) as [F _]. pose proof (wf_inv _ (gb_wf _ _ _ _ G)) as Hinv.
  assert (Hv : forall b, allocated s b = true -> fview s2 b = fview s b).
  { intros b Hb. apply (shown_view s g); [done|]. by apply (allocated_valid s). }
  constructor; [|exact Hl|exact Hsm| |].
  - apply (shown_growable s g); [done|done|apply G|done|done].
  - rewrite (sh_store _ _ _ Sh). change (size_ _) with 1024. lia.
  - intros i ds Hi. pose proof (lookup_lt_Some _ _ _ Hi) as Hlt. destruct (Hbl i ds Hi) as (H1 & H2 & H3).
    assert (Hblk : blk s2 v (Z.of_nat i) = blk s v (Z.of_nat i)).
    { apply (keeps_blk _ _ _ _ n); [|apply (fo_range _ _ _ F)|lia]. apply keeps_views. intros b Hb.
      by apply Hv, (metas_used _ _ _ _ (gb_file _ _ _ _ G)). }
    rewrite Hblk. split; [done|]. split; [done|]. rewrite Hv; [done|].
    apply (datas_used _ _ n); [apply G|lia].
Qed.

(** [fs] shows node [i] of the abstract file system [A]. *)
Definition shows_node (A : afs) (fs : FS) (i : Z) : Prop :=
  exists v, inode_at fs i v /\ a_owner A !! i = Some (owner_of v)
    /\ match a_dirs A !! i with
       | Some M => S_ISDIR (i_mode v) = true /\ exists n, dir_is fs (ip_of i) v n M
       | None => S_ISREG (i_mode v) = true /\ exists c n, a_data A !! i = Some c /\ growable fs (ip_of i) v n
           /\ Z.of_nat (length c) = i_size v /\ forall k, 0 <= k < i_size v -> c !! Z.to_nat k = fbyte fs v k
       end.

Lemma shown_node s A k m g s2 i :
  rep s A k m -> a_open A = ∅ -> mountable (op_fs s) g -> shows (op_fs s) g s2 -> in_tree (a_dirs A) i ->
  exists s3, get_inode i s2 = Ret (Some (ip_of i)) s3 /\ shows_node A s3 i /\ shows (op_fs s) g s3
    /\ fs_store s3 = fs_store s2 /\ fs_dentry s3 = fs_dentry s2.
Proof.
  intros R Ho Hm Sh Hi. destruct (to_node _ _ (rp_tree _ _ _ _ R) i Hi) as (v & Hv & _ & Hd).
  destruct (shown_get_inode _ _ _ Hm Sh i v Hv) as (s3 & Hget & Sh3 & Hv3 & Hst & Hdc).
  exists s3. split; [done|]. split; [|done]. exists v. split; [done|]. split; [by apply (rp_owner _ _ _ _ R)|].
  pose proof (ia_cell _ _ _ Hv3) as Hc.
  destruct (a_dirs A !! i) as [M|] eqn:HM.
  - destruct Hd as [Hdir (n & Hd)]. split; [done|]. exists n. by apply (shown_dir (op_fs s) g).
  - destruct (proj2 (rp_data _ _ _ _ R i)) as [c Hdat]; [done|].
    destruct (rp_file _ _ _ _ R i c Hdat) as (v' & n & Hv' & Hreg & G & Hrest).
    assert (v' = v) as ->.
    { pose proof (cell_load _ _ _ (ia_cell _ _ _ Hv)) as E. rewrite (cell_load _ _ _ (ia_cell _ _ _ Hv')) in E. by injection E. }
    assert (Hclosed : st_ s !! i = None).
    { destruct (st_ s !! i) eqn:E; [|done]. destruct (proj1 (rp_st _ _ _ _ R i)) as [fd Hfd]; [by eexists|].
      by rewrite Ho, lookup_empty in Hfd. }
    rewrite Hclosed in Hrest. destruct Hrest as [Hsz [Hlen Hbytes]]. split; [done|]. exists c, n. split; [done|].
    split; [apply (shown_growable (op_fs s) g); [done|done|apply G|done|done]|]. split; [done|].
    intros x Hx. rewrite Hbytes by done. symmetry. apply (shown_file (op_fs s) g s3 v n Hm Sh3 (gb_file _ _ _ _ G)). lia.
Qed.

(** ** Properties *)

(** C11. fsync on an open file answers 0 and changes nothing that a request can
    see.  When one group is in use the super block, the bitmaps and the inode
    table are then on the disk, with the inode of the file as it is now unless
    only data was to be written; of the data blocks at most the one whose
    number is that of the inode has changed on the disk. *)
Theorem fsync_writes s A k m fd i path flags datasync :
  rep s A k m -> a_open A !! fd = Some i -> in_one_group (op_fs s) = true ->
  exists s' g, fuse_fsync (Some path) datasync (file_info (Some fd) flags) s = Ret 0 s' /\ rep s' A k m /\ mountable (op_fs s') g
    /\ (forall b, b ∈ meta_blocks (op_fs s') g -> block_at (st_disk (fs_store (op_fs s'))) (offset_ b) = data_ b)
    /\ (datasync = false -> exists w n, current s' i w n /\ inode_at (op_fs s') i w)
    /\ forall j, fs_valid j -> j <> i ->
         block_at (st_disk (fs_store (op_fs s'))) (fs_off j) = block_at (st_disk (fs_store (op_fs s))) (fs_off j).
Proof.
  intros R Hfd Hg.
  assert (H1 : exists e fs1, (if datasync then mret 0 else ic_commit i) s = Ret e (with_opfs fs1 s) /\ rep (with_opfs fs1 s) A k m
    /\ fs_store fs1 = fs_store (op_fs s) /\ in_one_group fs1 = true
    /\ (datasync = false -> exists w n, current (with_opfs fs1 s) i w n /\ inode_at fs1 i w)).
  { destruct datasync.
    - exists 0, (op_fs s). rewrite with_opfs_id. by do 4 (split; [done|]).
    - destruct (commit_rep s A k m fd i R Hfd) as (fs1 & H & R1 & Hs & Hg1 & Hw). exists 0, fs1. split; [done|]. split; [done|].
      split; [done|]. split; [auto|done]. }
  destruct H1 as (e & fs1 & H1 & R1 & Hs1 & Hg1 & Hw). destruct (rep_mountable _ _ _ _ R1 Hg1) as [g Hm]. cbn [with_opfs op_fs] in Hm.
  destruct (fs_flush_index_ok fs1 g i Hm) as (st & Hf & Sb & Hmeta & Hdata).
  exists (with_opfs (with_store st fs1) s), g. split; [|split; [|split; [|split; [|split]]]].
  - destruct (rep_handle _ _ _ _ _ _ R Hfd) as (f & ic & c & v & n & w & n' & Hfile & Hi & _).
    assert (Hget : file_get fd s = Ret f s) by (unfold file_get; rewrite (bind_ret _ _ _ s s) by done; by rewrite Hfile).
    unfold fuse_fsync, file_info. cbn [_fuse_trans_info fi_fh]. mstep Hget. rewrite Hi. mstep H1. by mstep (on_fs_eq _ (with_opfs fs1 s) _ _ Hf).
  - exact (rep_same (with_opfs fs1 s) A k m _ R1 Sb).
  - destruct Hm as [M1 M2 M3 M4 M5]. constructor; [|done..]. destruct Sb as [Hinv _]. by apply fs_wf_store.
  - exact Hmeta.
  - intros E. destruct (Hw E) as (w & n & Hcur & Hat). exists w, n. split; [|by apply (inode_at_same fs1)].
    destruct (tree_wf _ _ (rp_tree _ _ _ _ R1)) as [Hwf Hz].
    apply (current_keep (fun _ => False) (fun _ => False) (with_opfs fs1 s)); [by apply same_blocks_framed|tauto|tauto|by apply handles_kept_refl|done].
  - intros j Hj Hne. cbn [with_opfs with_store op_fs fs_store]. rewrite Hdata by done. by rewrite Hs1.
Qed.

(** C9. Persistence of sessions: when no file is open and the file system fits
    into one block group, fuse_destroy writes it to the disk and fuse_init on
    that disk gives a file system, with no handle open, in which every inode of
    the tree is found by get_inode, with its owner and mode; a directory has
    exactly the names it had and a file the bytes that were written to it. *)
Theorem session_persists {clock : Clock} s A k m :
  rep s A k m -> a_open A = ∅ -> in_one_group (op_fs s) = true ->
  exists d s2, fuse_destroy s = Ret tt d /\ fuse_init d = Ret tt s2
    /\ st_ s2 = ∅ /\ op_files s2 = ∅ /\ fs_wf (op_fs s2)
    /\ forall i, in_tree (a_dirs A) i ->
         exists s3, get_inode i (op_fs s2) = Ret (Some (ip_of i)) s3 /\ shows_node A s3 i.
Proof.
  intros R Ho Hg. destruct (rep_mountable _ _ _ _ R Hg) as [g Hm].
  destruct (fs_flush_ok _ g Hm) as (s1 & Hf & V). destruct (mount_saved _ g _ Hm V) as (s2 & Hmt & Sh%remounted_shows).
  exists (st_disk (fs_store s1)), (mk_op s2 ∅ ∅ 1%positive). unfold fuse_destroy, fs_unmount, fuse_init. rewrite Hf, Hmt.
  do 4 (split; [done|]). split; [exact (shown_wf _ g s2 Hm Sh)|]. intros i Hi.
  destruct (shown_node _ _ _ _ g s2 i R Ho Hm Sh Hi) as (s3 & H3 & H4 & _). by exists s3.
Qed.


(** ** Instances of the properties *)

(** While the file of the sample session is written it is open, as handle 1,
    and one group is in use. *)
Definition sample_open : bool :=
  match @fuse_init 7 blank with
  | Ret _ s =>
      match serve_all (take 3 sample_session) s with
      | Ret _ s' => in_one_group (op_fs s') && bool_decide (is_Some (op_files s' !! 1%positive))
      | Fault _ => false
      end
  | Fault _ => false
  end.

Lemma sample_open_ok : sample_open = true.
Proof. vm_compute. reflexivity. Qed.

Lemma fits_take n : forall A rs k m, fits A rs k m -> fits A (take n rs) k m.
Proof.
  induction n as [|n IH]; intros A [|r rs] k m H; [done..|]. cbn [take fits] in *. destruct H as (H1 & H2 & H3 & H4).
  do 3 (split; [done|]). intros a A' Hs. by apply IH, (H4 a A').
Qed.

Lemma fsync_writes_witness :
  exists s l s' s'', @fuse_init 7 blank = Ret tt s /\ serve_all (take 3 sample_session) s = Ret l s'
    /\ fuse_fsync (Some (path_string [[Byte.x61]])) false (file_info (Some 1%positive) O_RDWR) s' = Ret 0 s''.
Proof.
  destruct (@mount_rep 7) as (s & Hm & R).
  destruct (serve_all_ok (take 3 sample_session) s _ _ _ R (fits_take 3 _ _ _ _ sample_fits)) as (l & s' & A' & k' & m' & H & _ & R').
  pose proof sample_open_ok as E. unfold sample_open in E. rewrite Hm, H in E. apply andb_prop in E as [Hg Hf%bool_decide_eq_true].
  assert (Hfd : exists i, a_open A' !! 1%positive = Some i).
  { destruct Hf as [f Hf]. exists (f_inode_id f). by rewrite (rp_open _ _ _ _ R'), Hf. }
  destruct Hfd as [i Hfd]. destruct (fsync_writes s' A' k' m' 1%positive i (path_string [[Byte.x61]]) O_RDWR false R' Hfd Hg) as (s'' & g & Hs & _).
  exists s, l, s', s''. exact (conj Hm (conj H Hs)).
Defined.

(** After the sample session nothing is open and one group is in use. *)
Definition sample_left : bool :=
  match @fuse_init 7 blank with
  | Ret _ s =>
      match serve_all sample_session s with
      | Ret _ s' => in_one_group (op_fs s') && (size (op_files s') =? 0)%nat
      | Fault _ => false
      end
  | Fault _ => false
  end.

Lemma sample_left_ok : sample_left = true.
Proof. vm_compute. reflexivity. Qed.

Lemma sample_persists_pre s l s' A k m :
  @fuse_init 7 blank = Ret tt s -> serve_all sample_session s = Ret l s' -> rep s' A k m ->
  a_open A = ∅ /\ in_one_group (op_fs s') = true.
Proof.
  intros H1 H2 R. pose proof sample_left_ok as E. unfold sample_left in E. rewrite H1, H2 in E.
  apply andb_prop in E as [E1 E2%Nat.eqb_eq%map_size_empty_inv]. split; [|done].
  apply map_eq. intros fd. by rewrite (rp_open _ _ _ _ R), E2, !lookup_empty.
Qed.

Lemma session_persists_witness :
  exists s l s' A' d s2, @fuse_init 7 blank = Ret tt s /\ serve_all sample_session s = Ret l s'
    /\ specs (afs_new root_owner 1) sample_session l A' /\ fuse_destroy s' = Ret tt d /\ @fuse_init 9 d = Ret tt s2
    /\ forall i, in_tree (a_dirs A') i -> exists s3, get_inode i (op_fs s2) = Ret (Some (ip_of i)) s3 /\ shows_node A' s3 i.
Proof.
  destruct (@mount_rep 7) as (s & Hm & R).
  destruct (serve_all_ok sample_session s _ _ _ R sample_fits) as (l & s' & A' & k' & m' & H & Hs & R').
  destruct (sample_persists_pre s l s' A' k' m' Hm H R') as [Ho Hg].
  destruct (@session_persists 9 s' A' k' m' R' Ho Hg) as (d & s2 & Hd & H2 & _ & _ & _ & Hn).
  exists s, l, s', A', d, s2. exact (conj Hm (conj H (conj Hs (conj Hd (conj H2 Hn))))).
Defined.

