(* ===== verification/Errors.v ===== *)
(** * Refused requests

    Which requests the handlers refuse, and with which code, is decided by the
    abstract state: a path that leads nowhere, a name that exists, a node that
    is not (or is) a directory, permissions, files that are open, and handles
    that are null or of the wrong kind.  [refusal] computes the code for every
    handler of the table of [main]; a refused request is answered with it and
    leaves the abstract state, with all its free blocks and names, unchanged. *)

From S2P Require Import Prelude Layout Disk Bitmap PathName Block BlockGroup BlockCache DentryCache DentryTree.
From S2P Require Import FileSystem FileStatus OpenFiles FsBlocks FileData FsPointers FsAlloc FileBlocks FsInodes FileGrow FileWrite FileIO FsMount DirVisit Handlers Entry InodeAttrs.
From S2P Require Import DirBlock Directory PathLookup Frames PathCreate AbstractFs Steady OpenTree SessionIO SessionOpen SessionAttr SessionList SessionMake Sessions.

(** ** Requests *)

(** Every handler that can refuse; pointers to a [fuse_file_info], the handles
    in it and the other pointers that are compared with null may be null. *)
Inductive attempt : Type :=
| TCreate (dir : list (list byte)) (name : list byte) (mode : Z)
| TMkdir (dir : list (list byte)) (name : list byte) (mode : Z)
| TOpen (path : list (list byte)) (flags : Z)
| TRead (size offset : Z) (fi : option fuse_file_info)
| TWrite (buf : list byte) (offset : Z) (fi : option fuse_file_info)
| TRelease (fi : option fuse_file_info)
| TFsync (path : option (list byte)) (datasync : bool) (fi : option fuse_file_info)
| TGetattr (path : list (list byte)) (stbuf : bool)
| TAccess (path : list (list byte)) (mode : Z)
| TChmod (path : list (list byte)) (mode : Z)
| TChown (path : list (list byte)) (user group : Z)
| TUtimens (path : list (list byte)) (tv : option (Z * Z))
| TReaddir (path : list (list byte))
| TRmdir (path : list (list byte))
| TUnlink (path : list (list byte))
| TLink (src dir : list (list byte)) (name : list byte)
| TRename (old dir : list (list byte)) (name : list byte) (flags : Z)
| TSymlink (src dir : list (list byte)) (name : list byte)
| TReadlink (path : list (list byte)) (size : Z).

Section Attempts.
Context {clock : Clock} {caller : Caller}.

(** The code that the handler answers. *)
Definition attempts (t : attempt) : M OpSt Z :=
  match t with
  | TCreate dir name mode => '(e, _) ← f_create ops (path_string (dir ++ [name])) mode; mret e
  | TMkdir dir name mode => f_mkdir ops (path_string (dir ++ [name])) mode
  | TOpen path flags => '(e, _) ← f_open ops (path_string path) flags; mret e
  | TRead size offset fi => '(e, _) ← f_read ops size offset fi; mret e
  | TWrite buf offset fi => f_write ops buf (Z.of_nat (length buf)) offset fi
  | TRelease fi => f_release ops fi
  | TFsync path datasync fi => f_fsync ops path datasync fi
  | TGetattr path stbuf => '(e, _) ← f_getattr ops (path_string path) stbuf; mret e
  | TAccess path mode => f_access ops (path_string path) mode
  | TChmod path mode => f_chmod ops (path_string path) mode
  | TChown path user group => f_chown ops (path_string path) user group
  | TUtimens path tv => f_utimens ops (path_string path) tv
  | TReaddir path => '(e, _) ← f_readdir ops (path_string path); mret e
  | TRmdir path => f_rmdir ops (path_string path)
  | TUnlink path => f_unlink ops (path_string path)
  | TLink src dir name => f_link ops (path_string src) (path_string (dir ++ [name]))
  | TRename old dir name flags => f_rename ops (path_string old) (path_string (dir ++ [name])) flags
  | TSymlink src dir name => f_symlink ops (path_string src) (path_string (dir ++ [name]))
  | TReadlink path size => '(e, _) ← f_readlink ops (path_string path) size; mret e
  end.

(** ** What is refused *)

(** A check of the node that a path leads to. *)
Definition refuse_at (A : afs) (path : list (list byte)) (missing : RetCode -> Z) (check : Z -> option Z) : option Z :=
  match walk (a_dirs A) ROOT_INODE path with
  | inl e => Some (missing e)
  | inr i => check i
  end.

Definition refuse_new (A : afs) (dir : list (list byte)) (name : list byte) : option Z :=
  match new_place (a_dirs A) dir name with
  | inl e => Some (Code2Errno e)
  | inr _ => None
  end.

(** [-EACCES] unless the test of the owner holds. *)
Definition refuse_unless (A : afs) (i : Z) (test : owner -> bool) : option Z :=
  match a_owner A !! i with
  | Some o => if test o then None else Some (- EACCES)
  | None => None
  end.

Definition is_open (A : afs) (i : Z) : bool := bool_decide (Exists (fun p => p.2 = i) (map_to_list (a_open A))).

(** The first of two checks that refuses. *)
Definition first_of (a b : option Z) : option Z := match a with Some e => Some e | None => b end.

Definition refuse_dir (A : afs) (i : Z) (next : gmap (list byte) Z -> option Z) : option Z :=
  match a_dirs A !! i with Some M => next M | None => Some (- ENOTDIR) end.

Definition refuse_root (path : list (list byte)) : option Z :=
  match path with [] => Some (- EINVAL) | _ => None end.

Definition refuse_link (A : afs) (src dir : list (list byte)) (name : list byte) : option Z :=
  match src with
  | [] => Some (- EEXIST)
  | _ => refuse_at A src Code2Errno (fun i =>
           match a_dirs A !! i with Some _ => Some (- EISDIR) | None => refuse_new A dir name end)
  end.

Definition refuse_writable (A : afs) (i : Z) : option Z := refuse_unless A i (fun o => may o false true false).

Definition refuse_rename (A : afs) (old dir : list (list byte)) (name : list byte) (flags : Z) : option Z :=
  let no_entry := fun _ : RetCode => - ENOENT in
  let new := dir ++ [name] in
  if flags =? RENAME_EXCHANGE then
    refuse_at A new no_entry (fun j => first_of (refuse_writable A j) (refuse_at A old no_entry (refuse_writable A)))
  else if flags =? RENAME_NOREPLACE then
    match walk (a_dirs A) ROOT_INODE new with
    | inr _ => Some (- EEXIST)
    | inl _ => refuse_at A old no_entry (fun i => first_of (refuse_writable A i) (refuse_link A old dir name))
    end
  else if flags =? 0 then
    refuse_at A old no_entry (fun i => first_of (refuse_writable A i)
      match walk (a_dirs A) ROOT_INODE new with
      | inr j => refuse_writable A j
      | inl _ => refuse_link A old dir name
      end)
  else Some (- EINVAL).

(** A null [fi], or a null handle in it, or flags that do not do. *)
Definition refuse_handle (fi : option fuse_file_info) (e : Z) (k : Z -> option Z) : option Z :=
  match fi with
  | None => Some (- EINVAL)
  | Some fi => match fi_fh fi with None => Some e | Some _ => k (fi_flags fi) end
  end.

(** The code of a request that is refused. *)
Definition refusal (A : afs) (t : attempt) : option Z :=
  let ok := fun _ : Z => None in
  match t with
  | TCreate dir name _ | TMkdir dir name _ => refuse_new A dir name
  | TOpen path flags => refuse_at A path Code2Errno (fun i =>
      refuse_unless A i (fun o => may o (asks_read flags) (asks_write flags) false))
  | TRead _ _ fi => refuse_handle fi (- EINVAL) (fun flags => if Z.land flags O_ACCMODE =? O_WRONLY then Some (- EINVAL) else None)
  | TWrite _ _ fi => refuse_handle fi (- EBADF) (fun flags => if Z.land flags O_ACCMODE =? O_RDONLY then Some (- EACCES) else None)
  | TRelease fi => refuse_handle fi (- EBADF) ok
  | TFsync path _ fi => first_of (match path with None => Some (- EINVAL) | Some _ => None end) (refuse_handle fi (- EBADF) ok)
  | TGetattr path stbuf => first_of (if stbuf then None else Some (- EINVAL)) (refuse_at A path Code2Errno ok)
  | TChown path _ _ | TReadlink path _ => refuse_at A path Code2Errno ok
  | TAccess path mode => refuse_at A path Code2Errno (fun i =>
      if mode =? F_OK then None else refuse_unless A i (fun o => may o (has mode R_OK) (has mode W_OK) (has mode X_OK)))
  | TChmod path _ => refuse_at A path Code2Errno (fun i => refuse_unless A i (fun o => may o true true false))
  | TUtimens path _ => refuse_at A path Code2Errno (fun i => refuse_unless A i (fun '(m, _, u) => _check_user m u false true false))
  | TReaddir path => refuse_at A path (fun _ => - ENOENT) (fun i =>
      refuse_dir A i (fun _ => refuse_unless A i (fun o => may o true false false)))
  | TRmdir path => refuse_at A path (fun _ => - ENOENT) (fun i =>
      refuse_dir A i (fun M => first_of (refuse_unless A i (fun o => may o true true false))
        (first_of (if bool_decide (M = ∅) then None else Some (- ENOTEMPTY)) (refuse_root path))))
  | TUnlink path => refuse_at A path Code2Errno (fun i =>
      first_of (if is_open A i then Some (- EACCES) else refuse_writable A i) (refuse_root path))
  | TLink src dir name => refuse_link A src dir name
  | TRename old dir name flags => refuse_rename A old dir name flags
  | TSymlink src dir name => refuse_at A src Code2Errno (fun _ => refuse_new A dir name)
  end.

(** Names that fit, as for the calls of [AbstractFs]. *)
Definition new_pre (A : afs) (dir : list (list byte)) (name : list byte) : Prop :=
  path_pre (a_dirs A) dir /\ plain name /\ path_name name.

Definition attempt_pre (A : afs) (t : attempt) : Prop :=
  match t with
  | TCreate dir name mode => new_pre A dir name /\ 0 <= mode < 2 ^ 16
  | TMkdir dir name mode => new_pre A dir name /\ 0 <= Z.lor mode S_IFDIR < 2 ^ 16
  | TRead _ _ _ | TWrite _ _ _ | TRelease _ | TFsync _ _ _ => True
  | TOpen path _ | TGetattr path _ | TAccess path _ | TChmod path _ | TChown path _ _ | TUtimens path _
  | TReaddir path | TRmdir path | TUnlink path | TReadlink path _ => path_pre (a_dirs A) path
  | TLink src dir name | TSymlink src dir name => path_pre (a_dirs A) src /\ new_pre A dir name
  | TRename old dir name _ => path_pre (a_dirs A) old /\ new_pre A dir name /\ path_pre (a_dirs A) (dir ++ [name])
  end.
End Attempts.

(** ** Handlers that return early *)

Section Refused.
Context {clock : Clock} {caller : Caller}.
Context (A : afs) (k m : Z).

(** The body returns [r] early. *)
Definition halts {R B} (x : M OpSt (R + B)) (s : OpSt) (r : R) : Prop :=
  exists s', x s = Ret (inl r) s' /\ rep s' A k m.

Definition answers (x : M OpSt Z) (s : OpSt) (e : Z) : Prop := exists s', x s = Ret e s' /\ rep s' A k m.

Lemma halts_body x s e : halts x s e -> answers (body x) s e.
Proof. intros (s' & H & R). exists s'. split; [by apply body_stop|done]. Qed.

(** The same for handlers that answer more than a code. *)
Lemma halts_pair {B} (x : M OpSt (Z * B + Z * B)) s e b :
  halts x s (e, b) -> answers (p ← body x; let '(e, _) := p in mret e) s e.
Proof. intros (s' & H & R). exists s'. split; [|done]. by mstep (body_stop _ _ _ _ H). Qed.

Lemma halts_guard {R} s (c : bool) (e r : R) (g : unit -> M OpSt (R + R)) :
  rep s A k m -> (if c then halts (g tt) s r else e = r) -> halts (x ←? guard c e; g x) s r.
Proof.
  intros R1 H. destruct c; cbn [guard].
  - destruct H as (s' & H & R'). exists s'. split; [|done]. by rewrite (try_bind_go _ _ _ tt s).
  - subst e. exists s. split; [by apply try_bind_stop|done].
Qed.

(** What is known of the node that was found. *)
Record found_at (s : OpSt) (i : Z) (v : ext2_inode) : Prop := {
  fn_rep : rep s A k m;
  fn_tree : in_tree (a_dirs A) i;
  fn_load : on_fs (iload (ip_of i)) s = Ret v s;
  fn_at : inode_at (op_fs s) i v;
  fn_owner : a_owner A !! i = Some (owner_of v)
}.

Lemma found_lookup s path :
  rep s A k m -> path_pre (a_dirs A) path ->
  exists s1, rep s1 A k m
    /\ match walk (a_dirs A) ROOT_INODE path with
       | inl e => lookup_path (path_string path) s = Ret (inl e) s1
       | inr i => exists parent v, lookup_path (path_string path) s = Ret (inr (mk_found (ip_of i) i parent)) s1 /\ found_at s1 i v
       end.
Proof.
  intros R Hp. destruct (lookup_inode s A k m path R Hp) as (s1 & R1 & H). exists s1. split; [done|].
  destruct (walk _ _ _) as [e|i]; [done|]. destruct H as (Hi & parent & v & Hl & Hload & Hv & Ho). by exists parent, v.
Qed.

(** A lookup that may fail, with what follows it; [q] turns the code of the
    lookup into the early return. *)
Lemma halts_lookup {R B} s path (q : M OpSt (RetCode + Found) -> M OpSt (R + Found)) (f : RetCode -> R) (g : Found -> M OpSt (R + B)) r :
  (forall x s0 s1 e, x s0 = Ret (inl e) s1 -> q x s0 = Ret (inl (f e)) s1) ->
  (forall x s0 s1 fd, x s0 = Ret (inr fd) s1 -> q x s0 = Ret (inr fd) s1) ->
  rep s A k m -> path_pre (a_dirs A) path ->
  match walk (a_dirs A) ROOT_INODE path with
  | inl e => f e = r
  | inr i => forall s1 parent v, found_at s1 i v -> halts (g (mk_found (ip_of i) i parent)) s1 r
  end -> halts (fd ←? q (lookup_path (path_string path)); g fd) s r.
Proof.
  intros Hl Hr R1 Hp H. destruct (found_lookup s path R1 Hp) as (s1 & R2 & Hs). destruct (walk _ _ _) as [e|i].
  - exists s1. split; [|done]. apply try_bind_stop. by rewrite (Hl _ _ _ _ Hs), H.
  - destruct Hs as (parent & v & Hs & F). destruct (H s1 parent v F) as (s' & H' & R'). exists s'. split; [|done].
    by rewrite (try_bind_go _ _ _ _ _ (Hr _ _ _ _ Hs)).
Qed.

Lemma halts_errno {R B} s path (f : Z -> R) (g : Found -> M OpSt (R + B)) r :
  rep s A k m -> path_pre (a_dirs A) path ->
  match walk (a_dirs A) ROOT_INODE path with
  | inl e => f (Code2Errno e) = r
  | inr i => forall s1 parent v, found_at s1 i v -> halts (g (mk_found (ip_of i) i parent)) s1 r
  end -> halts (fd ←? or_errno f (lookup_path (path_string path)); g fd) s r.
Proof.
  apply (halts_lookup s path (or_errno f) (fun e => f (Code2Errno e)) g r).
  - intros x s0 s1 e. apply or_errno_err.
  - intros x s0 s1 fd. apply or_errno_found.
Qed.

Lemma halts_code s path err (g : Found -> M OpSt (Z + Z)) r :
  rep s A k m -> path_pre (a_dirs A) path ->
  match walk (a_dirs A) ROOT_INODE path with
  | inl _ => err = r
  | inr i => forall s1 parent v, found_at s1 i v -> halts (g (mk_found (ip_of i) i parent)) s1 r
  end -> halts (fd ←? or_code err (lookup_path (path_string path)); g fd) s r.
Proof.
  apply (halts_lookup s path (or_code err) (fun _ => err) g r).
  - intros x s0 s1 e H. unfold or_code. by mstep H.
  - intros x s0 s1 fd H. unfold or_code. by mstep H.
Qed.

(** The test of the owner, on the inode. *)
Lemma refuse_unless_at s i v test e :
  found_at s i v -> refuse_unless A i test = Some e -> test (owner_of v) = false /\ e = - EACCES.
Proof. intros F. unfold refuse_unless. rewrite (fn_owner _ _ _ F). by destruct (test _); [|intros [= <-]]. Qed.

Lemma refuse_unless_none s i v test : found_at s i v -> refuse_unless A i test = None -> test (owner_of v) = true.
Proof. intros F. unfold refuse_unless. rewrite (fn_owner _ _ _ F). by destruct (test _). Qed.

(** [writable] of [fuse_rename]. *)
Lemma halts_writable {B} s i v parent (g : unit -> M OpSt (Z + B)) e :
  found_at s i v ->
  (refuse_writable A i = Some e \/ refuse_writable A i = None /\ halts (g tt) s e) ->
  halts (x ←? writable (mk_found (ip_of i) i parent); g x) s e.
Proof.
  intros F H. unfold writable. cbn [fd_inode].
  destruct (permits v false true false) eqn:Hp.
  - destruct H as [H|[_ (s' & H & R')]]; [apply (refuse_unless_at s i v) in H as [H _]; [|done]; unfold permits in Hp; cbn in H; congruence|].
    exists s'. split; [|done]. rewrite (try_bind_go _ _ _ tt s); [done|]. mstep (fn_load _ _ _ F). by rewrite Hp.
  - destruct H as [H|[H _]].
    + apply (refuse_unless_at s i v) in H as [_ ->]; [|done]. exists s. split; [|apply F]. apply try_bind_stop.
      mstep (fn_load _ _ _ F). by rewrite Hp.
    + apply (refuse_unless_none s i v) in H; [|done]. unfold permits in Hp. cbn in H. congruence.
Qed.

(** ** Names that cannot be entered *)

Lemma create_refused s dir name mode e :
  rep s A k m -> 1 <= m -> new_pre A dir name -> 0 <= mode < 2 ^ 16 -> refuse_new A dir name = Some e ->
  exists s', create_path (path_string (dir ++ [name])) mode s = Ret (inl e) s' /\ rep s' A k m.
Proof.
  intros R Hm (Hp & Hpn & Hnn) Hmode He. destruct (create_rep s A k m dir name mode R Hm Hp Hpn Hnn Hmode) as (r & fs' & Hw & H).
  unfold refuse_new in He. destruct (new_place _ _ _) as [code|[d M]]; [|done]. injection He as <-. destruct H as (<- & Hne & R').
  exists (with_opfs fs' s). split; [|done]. unfold create_path. mstep Hw. by destruct (cr_code r).
Qed.

(** The paths of [inode_link]. *)
Lemma two_paths src dir name (s : OpSt) :
  path_pre (a_dirs A) src -> new_pre A dir name ->
  exists ps pd, path_names ps = src /\ path_valid ps = true /\ path_valid pd = true /\ path_empty pd = false
    /\ path_names (path_dir pd) = dir /\ path_valid (path_dir pd) = true /\ path_back pd = name
    /\ link_paths (path_string src) (path_string (dir ++ [name])) s = on_fs (inode_link ps pd) s.
Proof.
  intros (Hs & Hsn & _) ((Hp & Hn & _) & Hpn & Hnn).
  destruct (path_string_ok src (op_fs s) Hs Hsn) as (ps & Hps & Hvs & Hns).
  destruct (path_string_ok (dir ++ [name]) (op_fs s)) as (pd & Hpd & Hvd & Hnd); [apply Forall_app; split; [done|by constructor]..|].
  assert (Hemp : path_empty pd = false).
  { unfold path_empty. apply bool_decide_eq_false. intros E. unfold path_names in Hnd. rewrite E in Hnd. by destruct dir. }
  destruct (path_split pd Hemp) as [Hsp Hv]. rewrite Hnd in Hsp. apply app_inj_tail in Hsp as [Hd Hb].
  exists ps, pd. do 4 (split; [done|]). split; [done|]. split; [by rewrite Hv|]. split; [done|].
  unfold link_paths, on_fs, zoom. mstep Hps. by mstep Hpd.
Qed.

Lemma path_empty_names p : path_empty p = bool_decide (path_names p = []).
Proof. unfold path_empty, path_names. apply bool_decide_ext. split; [by intros ->|]. by destruct (name_list_ p). Qed.

(** A lookup of the file system itself. *)
Lemma fs_lookup s path :
  rep s A k m -> path_valid path = true -> Forall path_name (path_names path) -> ends_in_dir (a_dirs A) ROOT_INODE (path_names path) ->
  exists fs', rep (with_opfs fs' s) A k m
    /\ match walk (a_dirs A) ROOT_INODE (path_names path) with
       | inl e => inode_lookup path (op_fs s) = Ret (inl e) fs'
       | inr i => exists parent v, inode_lookup path (op_fs s) = Ret (inr (mk_found (ip_of i) i parent)) fs'
           /\ inode_at fs' i v /\ S_ISDIR (i_mode v) = bool_decide (is_Some (a_dirs A !! i))
       end.
Proof.
  intros R Hv Hn He. destruct (inode_lookup_ok (a_dirs A) (op_fs s) path) as (r & fs' & Hl & Ht & Hc & L & Hr); [apply R|apply R|done..|].
  exists fs'. split; [by apply rep_looked|]. destruct (walk _ _ _) as [e|i] eqn:Hw; [by subst r|].
  destruct Hr as [parent ->]. destruct (to_node _ _ Ht i) as (v & Hat & _ & Hd); [apply (walk_in_tree _ _ _ _ Hw); by left|].
  exists parent, v. do 2 (split; [done|]). destruct (a_dirs A !! i) as [M|] eqn:HM; [by destruct Hd|done].
Qed.

Lemma link_refused s src dir name e :
  rep s A k m -> path_pre (a_dirs A) src -> new_pre A dir name -> refuse_link A src dir name = Some e ->
  exists code s', link_paths (path_string src) (path_string (dir ++ [name])) s = Ret code s'
    /\ code <> FS_SUCCESS /\ Code2Errno code = e /\ rep s' A k m.
Proof.
  intros R Hs Hnew He. destruct (two_paths src dir name s Hs Hnew) as (ps & pd & Hns & Hvs & Hvd & Hed & Hnd & Hvdd & Hb & ->).
  assert (Hlink : exists code fs', inode_link ps pd (op_fs s) = Ret code fs' /\ code <> FS_SUCCESS /\ Code2Errno code = e /\ rep (with_opfs fs' s) A k m).
  2:{ destruct Hlink as (code & fs' & H & Hrest). exists code, (with_opfs fs' s). split; [by apply on_fs_eq|done]. }
  unfold inode_link. rewrite Hvs, Hvd, Hed, path_empty_names, Hns. cbn [negb orb].
  destruct src as [|x src']; cbn [refuse_link] in He.
  { injection He as <-. exists FS_DUP_ERR, (op_fs s). rewrite with_opfs_id. done. }
  rewrite bool_decide_false by done. cbn [orb]. set (src := x :: src') in *. unfold refuse_at in He.
  destruct (fs_lookup s ps R Hvs) as (fs1 & R1 & Hl); [rewrite Hns; apply Hs..|]. rewrite Hns in Hl.
  destruct (walk (a_dirs A) ROOT_INODE src) as [code|i] eqn:Hw.
  { injection He as <-. mstep Hl. exists code, fs1. split; [done|]. split; [by apply (walk_error _ _ _ _ Hw)|done]. }
  destruct Hl as (parent & v & Hl & Hat & Hd). mstep Hl. cbn [fd_inode]. mstep (cell_load _ _ _ (ia_cell _ _ _ Hat)). rewrite Hd.
  destruct (a_dirs A !! i) as [N|].
  { injection He as <-. by exists FS_DIR_ERR, fs1. }
  rewrite bool_decide_false by (by intros [? ?]). destruct Hnew as ((Hp & Hn & Hend) & Hpn & Hnn).
  destruct (fs_lookup (with_opfs fs1 s) (path_dir pd) R1 Hvdd) as (fs2 & R2 & Hl2); [by rewrite Hnd..|]. rewrite Hnd in Hl2. cbn [op_fs with_opfs] in Hl2.
  change (with_opfs fs2 (with_opfs fs1 s)) with (with_opfs fs2 s) in R2. unfold refuse_new, new_place in He.
  destruct (walk (a_dirs A) ROOT_INODE dir) as [code|d] eqn:Hwd.
  { injection He as <-. mstep Hl2. exists code, fs2. split; [done|]. split; [by apply (walk_error _ _ _ _ Hwd)|done]. }
  destruct Hl2 as (parent2 & v2 & Hl2 & Hat2 & Hd2). mstep Hl2. cbn [fd_inode]. mstep (cell_load _ _ _ (ia_cell _ _ _ Hat2)). rewrite Hd2.
  destruct (a_dirs A !! d) as [M|] eqn:HM.
  2:{ injection He as <-. rewrite bool_decide_false by (by intros [? ?]). by exists FS_NDIR_ERR, fs2. }
  rewrite bool_decide_true by by eexists. cbn [negb]. destruct (M !! name) as [j|] eqn:Hj; [|done]. injection He as <-.
  destruct (to_dir _ _ _ _ (rp_tree _ _ _ _ R2) HM) as (u & n & Hu & _ & (dss & D & _ & HMM)). cbn [op_fs with_opfs] in *.
  destruct (inode_lookup_in_ok fs2 (ip_of d) u n dss name D) as (fs3 & last & H3 & Hs3 & _).
  rewrite (dir_map_lookup _ _ (dir_ok_fits _ _ _ _ _ D) (proj1 Hnn)), HMM, Hj in H3. rewrite Hb. mstep H3.
  exists FS_DUP_ERR, fs3. do 3 (split; [done|]). change (with_opfs fs3 s) with (with_opfs fs3 (with_opfs fs2 s)).
  apply rep_looked; [done| |].
  - apply (looked_same _ fs2); [apply (tree_inv _ _ (rp_tree _ _ _ _ R2))|apply looked_refl, (tree_inv _ _ (rp_tree _ _ _ _ R2))|done].
  - destruct (rp_names _ _ _ _ R2) as [K HK]. exists K. by destruct Hs3 as [_ (st & -> & _)].
Qed.

Lemma halts_link s src dir name (g : unit -> M OpSt (Z + Z)) e :
  rep s A k m -> path_pre (a_dirs A) src -> new_pre A dir name -> refuse_link A src dir name = Some e ->
  halts (x ←? code_errno (link_paths (path_string src) (path_string (dir ++ [name]))); g x) s e.
Proof.
  intros R Hs Hnew He. destruct (link_refused s src dir name e R Hs Hnew He) as (code & s' & H & Hne & <- & R').
  exists s'. split; [|done]. apply try_bind_stop. unfold code_errno. mstep H. by destruct code.
Qed.

(** ** Directories that are not empty *)

(** The visitor of [fuse_rmdir]. *)
Definition empty_visitor : visitor bool := fun _ block acc =>
  b ← on_store (block_deref block);
  '(offs, _) ← dentries block;
  let used := existsb (fun off => negb (getf off de_name_len (data_ b) =? 0)) offs in
  mret (used, if used then false else acc).

Lemma existsb_live data offs :
  existsb (fun off => negb (getf off de_name_len data =? 0)) offs = negb (bool_decide (dir_names (map (dentry_at data) offs) = [])).
Proof.
  induction offs as [|off offs IH]; [done|]. cbn [existsb map]. rewrite IH. unfold dir_names. cbn [List.filter].
  assert (El : d_live (dentry_at data off) = negb (getf off de_name_len data =? 0)) by done. rewrite El.
  destruct (getf off de_name_len data =? 0); cbn [negb orb]; [done|]. by rewrite bool_decide_false.
Qed.

Lemma empty_visit s ip v n dss :
  dir_ok s ip v n dss ->
  exists s', visit_inode_blocks ip empty_visitor true s = Ret (bool_decide (dir_names (concat dss) = [])) s' /\ same_blocks s s'.
Proof.
  intros D. pose proof (do_grow _ _ _ _ _ D) as G. pose proof (fo_range _ _ _ (gb_file _ _ _ _ G)) as Hr.
  pose proof (do_len _ _ _ _ _ D) as Hlen. pose proof (wf_inv _ (gb_wf _ _ _ _ G)) as Hinv.
  set (I := fun (j : Z) (acc : bool) (t : FS) => same_blocks s t /\ acc = true /\ dir_names (concat (take (Z.to_nat j) dss)) = []).
  set (Q := fun (acc : bool) (t : FS) => same_blocks s t /\ acc = bool_decide (dir_names (concat dss) = [])).
  destruct (visit_inode_blocks_ok ip v n empty_visitor I Q) with (acc := true) (s := s) as (a & s' & H & Hs & ->).
  - intros j a t t' _ _ (Hst & -> & Hn) Ht' _. split; [by apply (same_blocks_trans _ t)|done].
  - intros j a t p Hm Bt (Hst & -> & Hn) Hrec. destruct (lookup_lt_is_Some_2 dss (Z.to_nat j)) as [ds Hds]; [lia|].
    assert (Hd : dir_block t (blk t v j) ds).
    { pose proof (do_blocks _ _ _ _ _ (dir_ok_same _ _ _ _ _ _ D Hst) _ _ Hds) as H. by rewrite Z2Nat.id in H by lia. }
    destruct (deref_recent _ _ _ _ Hrec) as (bl & Hbl & Hdata & _). destruct (dir_block_parse _ _ _ Hd) as [_ Hmap].
    eexists _, _, t. split; [unfold empty_visitor; mstep Hbl; mstep (dentries_recent _ _ _ _ _ Hrec Hd); reflexivity|].
    rewrite Hdata, existsb_live, Hmap. pose proof (take_S_r _ _ _ Hds) as Htake.
    destruct (decide (dir_names ds = [])) as [E|E].
    + rewrite bool_decide_true by done. cbn [negb]. split; [by constructor|]. split; [done|]. split; [done|].
      replace (Z.to_nat (j + 1)) with (S (Z.to_nat j)) by lia. rewrite Htake, concat_app, dir_names_app, Hn. cbn [concat]. by rewrite app_nil_r.
    + rewrite bool_decide_false by done. cbn [negb]. split; [done|]. rewrite bool_decide_false; [done|].
      rewrite <- (take_drop_middle _ _ _ Hds), concat_app, dir_names_app. cbn [concat]. rewrite dir_names_app.
      intros [_ [E' _]%app_nil]%app_nil. done.
  - intros a t _ (Hst & -> & Hn). split; [done|]. rewrite take_ge in Hn by lia. by rewrite bool_decide_true.
  - done.
  - by split; [apply same_blocks_refl|].
  - apply (do_small _ _ _ _ _ D).
  - apply (do_cache _ _ _ _ _ D).
  - by exists s'.
Qed.

Lemma dir_names_empty ds : bool_decide (dir_names ds = []) = bool_decide (dir_map ds = ∅).
Proof.
  apply bool_decide_ext. split; intros E.
  - apply map_eq. intros name. rewrite lookup_empty. apply dir_map_names. rewrite E. apply not_elem_of_nil.
  - destruct (dir_names ds) as [|x l] eqn:El; [done|]. destruct (dir_names_map ds x) as [j Hj]; [rewrite El; by constructor|].
    by rewrite E, lookup_empty in Hj.
Qed.

(** ** Removing a name *)

Lemma unlink_root s : rep s A k m -> unlink_path (path_string []) s = Ret FS_INVALID s.
Proof.
  intros R. destruct (path_string_ok [] (op_fs s)) as (p & Hp & Hv & Hn); [constructor..|].
  unfold unlink_path. rewrite (with_path_eq _ p _ _ Hp). unfold inode_unlink. rewrite Hv, path_empty_names, Hn. by destruct s.
Qed.

Lemma is_open_spec s i : rep s A k m -> is_open A i = bool_decide (is_Some (st_ s !! i)).
Proof.
  intros R. unfold is_open. apply bool_decide_ext. rewrite (rp_st _ _ _ _ R), Exists_exists. split.
  - intros ([fd j] & Hin & E). cbn in E. subst j. exists fd. by apply elem_of_map_to_list.
  - intros [fd Hfd]. exists (fd, i). split; [by apply elem_of_map_to_list|done].
Qed.

(** The copy that [fuse_unlink] takes counts the handles. *)
Lemma unlink_cycle s i :
  rep s A k m -> in_tree (a_dirs A) i ->
  exists s1 ic v s', get_cache i s = Ret true s1 /\ st_ s1 !! i = Some ic /\ (2 <=? cnts_ ic) = is_open A i
    /\ on_fs (iload (InCopy i)) s1 = Ret v s1 /\ rel_cache i s1 = Ret 0 s' /\ rep s' A k m /\ a_owner A !! i = Some (owner_of v).
Proof.
  intros R Hi. destruct (stat_cycle s A k m i R Hi) as (s1 & v & s' & H1 & H2 & H3 & R' & Ho & _).
  rewrite (is_open_spec s i R). assert (Hic : exists ic, st_ s1 !! i = Some ic /\ (2 <=? cnts_ ic) = bool_decide (is_Some (st_ s !! i))).
  2:{ destruct Hic as (ic & E1 & E2). by exists s1, ic, v, s'. }
  destruct (st_ s !! i) as [ic|] eqn:Hst.
  - destruct (proj1 (rp_st _ _ _ _ R i)) as [fd Hfd]; [by eexists|]. destruct (rp_reg _ _ _ _ R fd i Hfd) as [c Hc].
    destruct (rp_file _ _ _ _ R i c Hc) as (u & n & _ & _ & _ & H). rewrite Hst in H. destruct H as (w & n' & O & _).
    pose proof (open_count s A k m i ic w n' R Hst O) as Hcnt. destruct (get_rel_cache_shared s i ic Hst Hcnt) as [H _].
    rewrite H1 in H. injection H as ->. cbn [with_st st_]. rewrite lookup_insert_eq. eexists. split; [done|]. cbn [cnts_].
    rewrite bool_decide_true by by eexists. apply Z.leb_le. lia.
  - destruct (to_node _ _ (rp_tree _ _ _ _ R) i Hi) as (u & Hu & _). destruct (inode_at_table _ _ _ Hu) as [g Hg].
    pose proof (get_cache_first s i g u Hg Hst) as H. rewrite H1 in H. injection H as ->. cbn [st_]. rewrite lookup_insert_eq.
    eexists. split; [done|]. by rewrite bool_decide_false by (by intros [? ?]).
Qed.

(** ** The handlers *)

(** A check of the owner of the node that refuses. *)
Lemma halts_owner {R} s i v p e (test : ext2_inode -> bool) (err r : R) (g : ext2_inode -> unit -> M OpSt (R + R)) :
  refuse_unless A i p = Some e -> found_at s i v -> (e = - EACCES -> err = r) -> (forall u, test u = p (owner_of u)) ->
  halts (inode ← on_fs (iload (ip_of i)); x ←? guard (test inode) err; g inode x) s r.
Proof.
  intros He F Hr Ht. destruct (refuse_unless_at s i v p e F He) as [Hp E]. rewrite <- (Hr E).
  exists s. split; [|apply F]. mstep (fn_load _ _ _ F). rewrite Ht, Hp. by apply try_bind_stop.
Qed.

(** The handlers of a path that look it up first. *)
Lemma open_refused s path flags e :
  rep s A k m -> path_pre (a_dirs A) path -> refusal A (TOpen path flags) = Some e -> answers (attempts (TOpen path flags)) s e.
Proof.
  intros R Hp He. cbn [refusal attempts ops f_open] in *. apply (halts_pair _ _ _ None), halts_errno; [done|done|].
  unfold refuse_at in He. destruct (walk _ _ _) as [c|i]; [by injection He as <-|]. intros s1 parent v F.
  apply (halts_owner s1 i v _ _ _ _ _ _ He F); [by intros ->|done].
Qed.

Lemma access_refused s path mode e :
  rep s A k m -> path_pre (a_dirs A) path -> refusal A (TAccess path mode) = Some e -> answers (attempts (TAccess path mode)) s e.
Proof.
  intros R Hp He. cbn [refusal attempts ops f_access] in *. apply halts_body, halts_errno; [done|done|].
  unfold refuse_at in He. destruct (walk _ _ _) as [c|i]; [by injection He as <-|]. intros s1 parent v F.
  destruct (mode =? F_OK); [done|]. apply (halts_owner s1 i v _ _ _ _ _ _ He F); [by intros ->|done].
Qed.

Lemma chmod_refused s path mode e :
  rep s A k m -> path_pre (a_dirs A) path -> refusal A (TChmod path mode) = Some e -> answers (attempts (TChmod path mode)) s e.
Proof.
  intros R Hp He. cbn [refusal attempts ops f_chmod] in *. apply halts_body, halts_errno; [done|done|].
  unfold refuse_at in He. destruct (walk _ _ _) as [c|i]; [by injection He as <-|]. intros s1 parent v F.
  apply (halts_owner s1 i v _ _ _ _ _ _ He F); [by intros ->|done].
Qed.

Lemma utimens_refused s path tv e :
  rep s A k m -> path_pre (a_dirs A) path -> refusal A (TUtimens path tv) = Some e -> answers (attempts (TUtimens path tv)) s e.
Proof.
  intros R Hp He. cbn [refusal attempts ops f_utimens] in *. apply halts_body, halts_errno; [done|done|].
  unfold refuse_at in He. destruct (walk _ _ _) as [c|i]; [by injection He as <-|]. intros s1 parent v F.
  apply (halts_owner s1 i v _ _ _ _ _ _ He F); [by intros ->|done].
Qed.

(** The directory that a path leads to, or not. *)
Lemma found_dir s i v : found_at s i v ->
  match a_dirs A !! i with
  | Some M => S_ISDIR (i_mode v) = true /\ exists n dss, dir_ok (op_fs s) (ip_of i) v n dss /\ dir_map (concat dss) = M
  | None => S_ISDIR (i_mode v) = false
  end.
Proof.
  intros F. destruct (to_node _ _ (rp_tree _ _ _ _ (fn_rep _ _ _ F)) i (fn_tree _ _ _ F)) as (u & Hu & _ & Hd).
  assert (u = v) as -> by (apply (inode_at_inj (op_fs s) i); [done|apply F]). destruct (a_dirs A !! i); [|done].
  destruct Hd as [Hd (n & dss & D & _ & HM)]. split; [done|]. by exists n, dss.
Qed.

Lemma readdir_refused s path e :
  rep s A k m -> path_pre (a_dirs A) path -> refusal A (TReaddir path) = Some e -> answers (attempts (TReaddir path)) s e.
Proof.
  intros R Hp He. cbn [refusal attempts ops f_readdir] in *. apply (halts_pair _ _ _ []).
  destruct (found_lookup s path R Hp) as (s1 & R1 & H). unfold refuse_at in He. destruct (walk _ _ _) as [c|i].
  { injection He as <-. exists s1. split; [by mstep H|done]. }
  destruct H as (parent & v & Hl & F). pose proof (found_dir s1 i v F) as Hd. unfold refuse_dir in He.
  destruct (a_dirs A !! i) as [M|].
  - destruct Hd as [Hd _]. apply (refuse_unless_at s1 i v) in He as [He ->]; [|done]. exists s1. split; [|done].
    mstep Hl. cbn [fd_inode]. mstep (fn_load _ _ _ F). rewrite Hd. rewrite (try_bind_go _ _ _ tt s1) by done.
    unfold permits. unfold may, owner_of in He. rewrite He. by apply try_bind_stop.
  - injection He as <-. exists s1. split; [|done]. mstep Hl. cbn [fd_inode]. mstep (fn_load _ _ _ F). rewrite Hd. by apply try_bind_stop.
Qed.

Lemma rmdir_refused s path e :
  rep s A k m -> path_pre (a_dirs A) path -> refusal A (TRmdir path) = Some e -> answers (attempts (TRmdir path)) s e.
Proof.
  intros R Hp He. cbn [refusal attempts ops f_rmdir] in *. apply halts_body, halts_code; [done|done|].
  unfold refuse_at in He. destruct (walk _ _ _) as [c|i]; [by injection He as <-|]. intros s1 parent v F.
  pose proof (found_dir s1 i v F) as Hd. unfold refuse_dir in He. cbn [fd_inode].
  destruct (a_dirs A !! i) as [M|].
  2:{ injection He as <-. exists s1. split; [|apply F]. mstep (fn_load _ _ _ F). rewrite Hd. by apply try_bind_stop. }
  destruct Hd as (Hd & n & dss & D & HM). unfold halts. mstep (fn_load _ _ _ F). rewrite Hd. rewrite (try_bind_go _ _ _ tt s1) by done.
  destruct (refuse_unless A i _) as [e'|] eqn:Hper; cbn [first_of] in He.
  { injection He as ->. apply (refuse_unless_at s1 i v) in Hper as [Hper ->]; [|done]. exists s1. split; [|apply F].
    unfold permits. unfold may, owner_of in Hper. rewrite Hper. by apply try_bind_stop. }
  apply (refuse_unless_none s1 i v) in Hper; [|done]. unfold permits. unfold may, owner_of in Hper. rewrite Hper.
  rewrite (try_bind_go _ _ _ tt s1) by done. destruct (empty_visit (op_fs s1) (ip_of i) v n dss D) as (fs' & Hvis & Hs).
  rewrite dir_names_empty, HM in Hvis.
  assert (R2 : rep (with_opfs fs' s1) A k m).
  { apply rep_looked; [apply F| |].
    - pose proof (tree_inv _ _ (rp_tree _ _ _ _ (fn_rep _ _ _ F))) as Hinv. apply (looked_same _ (op_fs s1)); [done|by apply looked_refl|done].
    - destruct (rp_names _ _ _ _ (fn_rep _ _ _ F)) as [K HK]. exists K. by destruct Hs as [_ (st & -> & _)]. }
  unfold empty_visitor in Hvis. mstep (on_fs_eq _ s1 _ _ Hvis). exists (with_opfs fs' s1). split; [|done].
  destruct (bool_decide (M = ∅)); cbn [first_of] in He.
  - rewrite (try_bind_go _ _ _ tt (with_opfs fs' s1)) by done. destruct path as [|x path']; [|done]. injection He as <-.
    apply try_bind_stop. unfold code_errno. by mstep (unlink_root _ R2).
  - injection He as <-. by apply try_bind_stop.
Qed.

Lemma unlink_refused s path e :
  rep s A k m -> path_pre (a_dirs A) path -> refusal A (TUnlink path) = Some e -> answers (attempts (TUnlink path)) s e.
Proof.
  intros R Hp He. cbn [refusal attempts ops f_unlink] in *. apply halts_body, halts_errno; [done|done|].
  unfold refuse_at in He. destruct (walk _ _ _) as [c|i]; [by injection He as <-|]. intros s1 parent v F. cbn [fd_index].
  destruct (unlink_cycle s1 i (fn_rep _ _ _ F) (fn_tree _ _ _ F)) as (s2 & ic & w & s' & H1 & Hic & Hcnt & H2 & H3 & R' & Ho).
  assert (Hw : permits w false true false = may (owner_of w) false true false) by done.
  exists s'. split; [|done]. mstep H1. rewrite (bind_ret _ _ _ s2 s2) by done. rewrite (bind_ret _ _ _ ic s2) by (by rewrite Hic).
  mstep H2. mstep H3. rewrite Hcnt, Hw. unfold refuse_writable, refuse_unless in He. rewrite Ho in He.
  destruct (is_open A i); cbn [first_of orb negb] in *.
  { injection He as <-. by apply try_bind_stop. }
  destruct (may (owner_of w) false true false); cbn [first_of negb] in *.
  - rewrite (try_bind_go _ _ _ tt s') by done. destruct path as [|x path']; [|done]. injection He as <-.
    apply try_bind_stop. unfold code_errno. by mstep (unlink_root _ R').
  - injection He as <-. by apply try_bind_stop.
Qed.

Lemma rename_refused s old dir name flags e :
  rep s A k m -> path_pre (a_dirs A) old -> new_pre A dir name -> path_pre (a_dirs A) (dir ++ [name]) ->
  refusal A (TRename old dir name flags) = Some e -> answers (attempts (TRename old dir name flags)) s e.
Proof.
  intros R Ho Hn Hnp He. cbn [refusal attempts ops f_rename] in *. unfold refuse_rename in He. apply halts_body.
  destruct (flags =? RENAME_EXCHANGE); [|destruct (flags =? RENAME_NOREPLACE); [|destruct (flags =? 0)]].
  - apply halts_code; [done|done|]. unfold refuse_at in He. destruct (walk _ _ (dir ++ [name])) as [c|j]; [by injection He as <-|].
    intros s1 parent v F. apply (halts_writable _ _ v); [done|]. destruct (refuse_writable A j); cbn [first_of] in He; [by left|right].
    split; [done|]. apply halts_code; [apply F|done|]. destruct (walk _ _ old) as [c|i]; [by injection He as <-|].
    intros s2 parent2 v2 F2. apply (halts_writable _ _ v2); [done|by left].
  - destruct (found_lookup s _ R Hnp) as (s1 & R1 & H). destruct (walk _ _ (dir ++ [name])) as [c|j].
    2:{ destruct H as (parent & v & Hl & F). injection He as <-. exists s1. split; [by mstep Hl|done]. }
    unfold halts. mstep H. apply halts_code; [done|done|]. unfold refuse_at in He. destruct (walk _ _ old) as [c'|i]; [by injection He as <-|].
    intros s2 parent v F. apply (halts_writable _ _ v); [done|]. destruct (refuse_writable A i); cbn [first_of] in He; [by left|right].
    split; [done|]. apply halts_link; [apply F|done|done|done].
  - apply halts_code; [done|done|]. unfold refuse_at in He. destruct (walk _ _ old) as [c|i]; [by injection He as <-|].
    intros s1 parent v F. apply (halts_writable _ _ v); [done|]. destruct (refuse_writable A i); cbn [first_of] in He; [by left|right].
    split; [done|]. destruct (found_lookup s1 _ (fn_rep _ _ _ F) Hnp) as (s2 & R2 & H). unfold halts.
    destruct (walk _ _ (dir ++ [name])) as [c|j].
    + mstep H. rewrite (try_bind_go _ _ _ tt s2) by done. by apply halts_link.
    + destruct H as (parent2 & v2 & Hl & F2). mstep Hl.
      destruct (halts_writable s2 j v2 parent2 (fun _ => code_errno (unlink_path (path_string (dir ++ [name])))) e F2) as (s' & H & R'); [by left|].
      exists s'. split; [by apply try_bind_stop|done].
  - injection He as <-. by exists s.
Qed.

(** Handlers that only look the path up. *)
Lemma looked_up_refused s path e :
  rep s A k m -> path_pre (a_dirs A) path -> refuse_at A path Code2Errno (fun _ => None) = Some e ->
  exists c s', lookup_path (path_string path) s = Ret (inl c) s' /\ Code2Errno c = e /\ rep s' A k m.
Proof.
  intros R Hp He. destruct (found_lookup s path R Hp) as (s1 & R1 & H). unfold refuse_at in He.
  destruct (walk _ _ path) as [c|i]; [|done]. injection He as <-. by exists c, s1.
Qed.

Lemma symlink_refused s src dir name e :
  rep s A k m -> 1 <= m -> path_pre (a_dirs A) src -> new_pre A dir name ->
  refusal A (TSymlink src dir name) = Some e -> answers (attempts (TSymlink src dir name)) s e.
Proof.
  intros R Hm Hs Hn He. cbn [refusal attempts ops f_symlink] in *. apply halts_body, halts_errno; [done|done|].
  unfold refuse_at in He. destruct (walk _ _ src) as [c|i]; [by injection He as <-|]. intros s1 parent v F.
  destruct (create_refused s1 dir name S_IFLNK e (fn_rep _ _ _ F) Hm Hn ltac:(by vm_compute) He) as (s' & H & R').
  exists s'. split; [by apply try_bind_stop|done].
Qed.

Lemma refused_ok s t e :
  rep s A k m -> 1 <= m -> attempt_pre A t -> refusal A t = Some e -> answers (attempts t) s e.
Proof.
  intros R Hm Hpre He. destruct t as [dir name mode|dir name mode|path flags|size offset fi|buf offset fi|fi|p ds fi|path stbuf|path mode|path mode|path user group|path tv|path|path|path|src dir name|old dir name flags|src dir name|path size]; cbn [attempt_pre] in Hpre.
  - destruct Hpre as [Hn Hmode]. destruct (create_refused s dir name mode e R Hm Hn Hmode He) as (s' & H & R'). exists s'. split; [|done].
    cbn [attempts ops f_create]. unfold fuse_create. rewrite bind_assoc. by mstep H.
  - destruct Hpre as [Hn Hmode]. destruct (create_refused s dir name _ e R Hm Hn Hmode He) as (s' & H & R'). exists s'. split; [|done].
    apply body_stop. by apply try_bind_stop.
  - by apply open_refused.
  - exists s. split; [|done]. cbn [refusal attempts ops f_read] in *. unfold refuse_handle in He. destruct fi as [[[fd|] flags]|]; [|by injection He as <-..].
    unfold fuse_read. cbn [_fuse_trans_info fi_fh fi_flags] in *. destruct (Z.land flags O_ACCMODE =? O_WRONLY); [by injection He as <-|done].
  - exists s. split; [|done]. cbn [refusal attempts ops f_write] in *. unfold refuse_handle in He. destruct fi as [[[fd|] flags]|]; [|by injection He as <-..].
    unfold fuse_write. cbn [_fuse_trans_info fi_fh fi_flags] in *. destruct (Z.land flags O_ACCMODE =? O_RDONLY); [by injection He as <-|done].
  - exists s. split; [|done]. destruct fi as [[[fd|] flags]|]; [done|by injection He as <-..].
  - exists s. split; [|done]. destruct fi as [[[fd|] flags]|], p as [p|]; try done; by injection He as <-.
  - cbn [refusal] in He. destruct stbuf; [|injection He as <-; by exists s].
    destruct (looked_up_refused s path e R Hpre He) as (c & s' & H & <- & R'). apply (halts_pair _ _ _ None). exists s'.
    split; [|done]. rewrite (try_bind_go _ _ _ tt s) by done. apply try_bind_stop. by rewrite (or_errno_err _ _ _ _ _ H).
  - by apply access_refused.
  - by apply chmod_refused.
  - destruct (looked_up_refused s path e R Hpre He) as (c & s' & H & <- & R'). apply halts_body. exists s'.
    split; [|done]. apply try_bind_stop. by rewrite (or_errno_err _ _ _ _ _ H).
  - by apply utimens_refused.
  - by apply readdir_refused.
  - by apply rmdir_refused.
  - by apply unlink_refused.
  - destruct Hpre as [Hs Hn]. by apply halts_body, halts_link.
  - destruct Hpre as (Ho & Hn & Hnp). by apply rename_refused.
  - destruct Hpre as [Hs Hn]. by apply symlink_refused.
  - destruct (looked_up_refused s path e R Hpre He) as (c & s' & H & <- & R'). apply (halts_pair _ _ _ []). exists s'.
    split; [|done]. apply try_bind_stop. by rewrite (or_errno_err _ _ _ _ _ H).
Qed.
End Refused.

(** ** Properties *)

(** C2. Refused requests.  In a state that stands for the abstract state [A],
    a request to any handler that [A] refuses (a path that leads nowhere, an
    existing name, a directory or a file in the wrong place, a directory that
    is not empty, missing permissions, an open file, a null pointer or handle,
    the wrong access mode or an unknown flag) is answered with the code that
    [refusal] computes from [A], without a fault, and the state still stands for
    [A] with as many free blocks and names.  Names are not too long, the name
    before the last of a path does not lead to a regular file, and there is room
    for one more name.  [refusal] says what the code refuses: for utimens an
    owner without the bit S_IWUSR too, and everyone else but the super user. *)
Theorem refused_unchanged {clock : Clock} {caller : Caller} s A k m t e :
  rep s A k m -> 1 <= m -> attempt_pre A t -> refusal A t = Some e ->
  exists s', attempts t s = Ret e s' /\ rep s' A k m.
Proof. apply refused_ok. Qed.

(** ** Instances of the properties *)

(** On a new file system: names that are not there, and the root itself. *)
Lemma name_path (T : dirs) (c : byte) : SEPARATOR c = false -> c <> Byte.x00 -> is_Some (T !! ROOT_INODE) -> path_pre T [[c]].
Proof.
  intros Hs Hn HT. destruct (short_name c Hs Hn) as [H1 H2]. split; [by constructor|]. split; [by constructor|].
  intros pre name p E. apply (app_inj_tail [] pre) in E as [<- _]. cbn [walk]. by intros [= <-].
Qed.

Lemma refused_unchanged_witness :
  let clock : Clock := 7 in
  let caller := mk_caller 0 0 in
  let A := afs_new root_owner 1 in
  exists s, fuse_init blank = Ret tt s
    /\ Forall (fun p => exists s', attempts p.1 s = Ret p.2 s' /\ rep s' A MOUNT_BLOCKS MOUNT_NAMES)
         [(TOpen [[Byte.x61]] O_RDWR, - ENOENT); (TUnlink [[Byte.x61]], - ENOENT); (TRmdir [], - EINVAL);
          (TLink [] [] [Byte.x61], - EEXIST); (TRename [[Byte.x61]] [] [Byte.x62] 7, - EINVAL); (TWrite [] 0 (file_info None O_WRONLY), - EBADF);
          (TRead 4 0 None, - EINVAL); (TFsync None false (file_info (Some 1%positive) O_RDWR), - EINVAL)].
Proof.
  intros clock caller A. destruct mount_rep as (s & H & R). exists s. split; [exact H|].
  assert (Hp : path_pre (a_dirs A) [[Byte.x61]]) by by apply name_path.
  assert (Hb : path_pre (a_dirs A) [[Byte.x62]]) by by apply name_path.
  assert (Hn : forall c, SEPARATOR c = false -> c <> Byte.x00 -> new_pre A [] [c]) by (intros c H1 H2; split; [apply root_path|by apply short_name]).
  assert (Hm : 1 <= MOUNT_NAMES) by (clear; by vm_compute). clear H.
  repeat (apply List.Forall_cons; [apply (refused_unchanged s A _ _ _ _ R Hm)|]); cbn [fst snd].
  - exact Hp.
  - vm_compute. reflexivity.
  - exact Hp.
  - vm_compute. reflexivity.
  - apply root_path.
  - vm_compute. reflexivity.
  - split; [apply root_path|]. by apply Hn.
  - reflexivity.
  - split; [exact Hp|]. split; [by apply Hn|exact Hb].
  - reflexivity.
  - exact Logic.I.
  - reflexivity.
  - exact Logic.I.
  - reflexivity.
  - exact Logic.I.
  - reflexivity.
  - apply List.Forall_nil.
Defined.
