(* ===== verification/NumberIO.v ===== *)
(** * Printing numbers: src/testcode/fwrite.cpp

    The test prints a sequence of 32-bit numbers through a buffer of its own.
    [write] prints a number in decimal.  The conversion to [unsigned int] reads
    one at the pointer [i], which nothing ever sets: it is null in the global
    [io], so the conversion, which [main] does not use, would fault.  From the
    start of the buffer it would read the numbers back without their signs. *)

From stdpp Require Import strings pretty.
From S2P Require Import Prelude.

Open Scope Z_scope.

(** ** The buffer *)

(** [char ind[200000010]] *)
Definition IND_SIZE : Z := 200000010.

(** The bytes of [ind] before [o], the others are zero; and where [i] points to
    in [ind], [None] for the null pointer. *)
Record IObuf : Type := mk_iobuf { ind : list byte; i : option Z }.

(** [io], a global variable: its memory is zero, [IObuf()] sets [o] only. *)
Definition io : IObuf := mk_iobuf [] None.

Definition ch (z : Z) : byte := byte.of_Z z.

(** [*o++ = c] *)
Definition put (c : Z) : M IObuf unit := fun s =>
  if Z.of_nat (length (ind s)) <? IND_SIZE then Ret tt (mk_iobuf (ind s ++ [ch c]) (i s)) else Fault OutOfBounds.

(** [static char c[12]] *)
Definition C_SIZE : Z := 12.

(** [while (x) { int y = x / 10; *t++ = x - y * 10 + '0', x = y; }]: the
    digits between [c] and [t], the last one first. *)
Fixpoint digits_loop (fuel : nat) (x : Z) (t : list Z) : M IObuf (list Z) :=
  if x =? 0 then mret t
  else
    match fuel with
    | O => fail OutOfFuel
    | S fuel' =>
        let y := Z.quot x 10 in
        if Z.of_nat (length t) <? C_SIZE then digits_loop fuel' y ((x - y * 10 + 48) :: t)
        else fail OutOfBounds
    end.

(** [while (t != c) *o++ = *--t;] *)
Fixpoint put_all (t : list Z) : M IObuf unit :=
  match t with
  | [] => mret tt
  | c :: t' =>
      _ ← put c;
      put_all t'
  end.

Definition INT_MIN : Z := - 2 ^ 31.

(** [inline void write(int x)] *)
Definition write (x : Z) : M IObuf unit :=
  _ ← (if x =? 0 then put 48
       else
         x ← (if x <? 0 then
                _ ← put 45;
                if x =? INT_MIN then fail SignedOverflow else mret (- x)
              else mret x);
         t ← digits_loop 12 x [];
         put_all t);
  put 10.

(** A [char] is signed. *)
Definition schar (b : byte) : Z := let z := byte.unsigned b in if z <? 128 then z else z - 256.

(** [while ( *i < 48) if ( *i++ == 45);]: from the bytes behind [i] up to [o]
    to those behind it then; [None] when it runs through the zeros behind [o]
    and leaves the buffer. *)
Fixpoint skip (l : list byte) : option (list byte) :=
  match l with
  | [] => None
  | c :: l' => if schar c <? 48 then skip l' else Some l
  end.

(** [while ( *i > 32) ret = ret * 10 + *i++ - 48;]: [full] when there is no zero
    behind [o]. *)
Fixpoint number (full : bool) (ret : Z) (l : list byte) : option (Z * list byte) :=
  match l with
  | [] => if full then None else Some (ret, l)
  | c :: l' => if 32 <? schar c then number full (u32 (ret * 10 + schar c - 48)) l' else Some (ret, l)
  end.

(** [inline operator unsigned int()] *)
Definition operator_unsigned : M IObuf Z := fun s =>
  match i s with
  | None => Fault NullDeref
  | Some p =>
      let len := Z.of_nat (length (ind s)) in
      match skip (drop (Z.to_nat p) (ind s)) ≫= number (IND_SIZE <=? len) 0 with
      | None => Fault OutOfBounds
      | Some (ret, l) => Ret ret (mk_iobuf (ind s) (Some (len - Z.of_nat (length l))))
      end
  end.

(** ** main *)

(** [while (n--) io.write((int)(x = x * x * a + x * b + c));] *)
Fixpoint print_loop (n : nat) (x a b c : Z) : M IObuf unit :=
  match n with
  | O => mret tt
  | S n' =>
      let x := u32 (x * x * a + x * b + c) in
      _ ← write (i32 x);
      print_loop n' x a b c
  end.

(** [int main()]: the input of [scanf] to what the destructor of [io] gives
    to [fwrite]. *)
Definition main (n x a b c : Z) : outcome IObuf Z :=
  (_ ← print_loop (Z.to_nat n) x a b c; mret 0) io.

(** ** Decimal numbers *)

Definition text (s : string) : list byte := String.list_byte_of_string s.

(** The numbers that [print_loop] prints. *)
Fixpoint values (n : nat) (x a b c : Z) : list Z :=
  match n with
  | O => []
  | S n' => let x := u32 (x * x * a + x * b + c) in i32 x :: values n' x a b c
  end.

(** One number in a line. *)
Definition line (x : Z) : list byte := text (pretty x) ++ [Byte.x0a].

Fixpoint write_all (xs : list Z) : M IObuf unit :=
  match xs with
  | [] => mret tt
  | x :: xs' =>
      _ ← write x;
      write_all xs'
  end.

Fixpoint read_all (n : nat) : M IObuf (list Z) :=
  match n with
  | O => mret []
  | S n' =>
      x ← operator_unsigned;
      l ← read_all n';
      mret (x :: l)
  end.

Lemma print_loop_values n : forall x a b c s, print_loop n x a b c s = write_all (values n x a b c) s.
Proof.
  induction n as [|n IH]; intros x a b c s; [done|]. cbn [print_loop values write_all].
  unfold mbind, M_bind. destruct (write _ s) as [[] s'|]; [apply IH|done].
Qed.

(** ** What is printed *)

Lemma text_cons c s : text (String c s) = Ascii.byte_of_ascii c :: text s.
Proof. done. Qed.

Lemma digit_char d : (d < 10)%N -> Ascii.byte_of_ascii (pretty_N_char d) = ch (Z.of_N d + 48).
Proof. intros H. assert (d = 0 \/ d = 1 \/ d = 2 \/ d = 3 \/ d = 4 \/ d = 5 \/ d = 6 \/ d = 7 \/ d = 8 \/ d = 9)%N by lia. naive_solver. Qed.

Lemma digit_schar d : (d < 10)%N -> schar (ch (Z.of_N d + 48)) = Z.of_N d + 48.
Proof. intros H. assert (d = 0 \/ d = 1 \/ d = 2 \/ d = 3 \/ d = 4 \/ d = 5 \/ d = 6 \/ d = 7 \/ d = 8 \/ d = 9)%N by lia. naive_solver. Qed.

(** The loop over the digits, for a number of at most [n] of them. *)
Lemma digits_loop_ok n : forall fuel x t s st,
  (n <= fuel)%nat -> 0 <= x < 10 ^ Z.of_nat n -> Z.of_nat (length t + n) <= C_SIZE -> map ch t = text s ->
  exists t', digits_loop fuel x t st = Ret t' st /\ map ch t' = text (pretty_N_go (Z.to_N x) s) /\ (length t' <= length t + n)%nat.
Proof.
  induction n as [|n IH]; intros fuel x t s st Hf Hx Ht Hs.
  { assert (x = 0) as -> by (cbn in Hx; lia). exists t. split; [by destruct fuel|]. split; [done|lia]. }
  destruct fuel as [|fuel]; [lia|]. cbn [digits_loop]. destruct (Z.eqb_spec x 0) as [->|Hne].
  { exists t. split; [done|]. split; [done|lia]. }
  rewrite (proj2 (Z.ltb_lt _ _)) by lia. rewrite Z.quot_div_nonneg by lia.
  assert (Hp : 10 ^ Z.of_nat (S n) = 10 * 10 ^ Z.of_nat n) by (rewrite Nat2Z.inj_succ, Z.pow_succ_r; lia).
  destruct (IH fuel (x / 10) ((x - x / 10 * 10 + 48) :: t) (String (pretty_N_char (Z.to_N x mod 10)) s) st) as (t' & H & Ht' & Hl).
  - lia.
  - split; [apply Z.div_pos; lia|apply Z.div_lt_upper_bound; lia].
  - cbn [length]. lia.
  - rewrite text_cons, digit_char by (apply N.mod_lt; lia). cbn [map]. rewrite Hs. do 2 f_equal.
    rewrite N2Z.inj_mod, Z2N.id by lia. change (Z.of_N 10) with 10. rewrite Z.mod_eq by lia. lia.
  - exists t'. split; [done|]. rewrite pretty_N_go_step by lia. rewrite Ht', Z2N.inj_div by lia. split; [done|]. cbn [length] in Hl. lia.
Qed.

Lemma put_ok l p c : Z.of_nat (length l) < IND_SIZE -> put c (mk_iobuf l p) = Ret tt (mk_iobuf (l ++ [ch c]) p).
Proof. intros H. unfold put. cbn [ind i]. by rewrite (proj2 (Z.ltb_lt _ _)). Qed.

Lemma put_all_ok t p : forall l, Z.of_nat (length l + length t) <= IND_SIZE -> put_all t (mk_iobuf l p) = Ret tt (mk_iobuf (l ++ map ch t) p).
Proof.
  induction t as [|c t IH]; intros l H; cbn [put_all map length] in *; [by rewrite app_nil_r|].
  mstep (put_ok l p c ltac:(lia)). rewrite IH by (rewrite length_app; cbn; lia). by rewrite <- app_assoc.
Qed.

(** The digits of a positive number. *)
Lemma put_digits x l p :
  0 < x < 2 ^ 31 -> Z.of_nat (length l) + 10 <= IND_SIZE ->
  (t ← digits_loop 12 x []; put_all t) (mk_iobuf l p) = Ret tt (mk_iobuf (l ++ text (pretty x)) p)
  /\ (length (text (pretty x)) <= 10)%nat.
Proof.
  intros Hx Hl. destruct (digits_loop_ok 10 12 x [] ""%string (mk_iobuf l p)) as (t & H & Ht & Hlen); [lia|cbn; lia|by vm_compute|done|].
  assert (E : pretty x = pretty_N_go (Z.to_N x) ""%string).
  { destruct x as [|q|q]; [lia| |lia]. change (pretty (Z.pos q)) with (pretty (N.pos q)). unfold pretty, pretty_N. by destruct (decide _). }
  rewrite E, <- Ht, length_map. cbn in Hlen. split; [|done]. mstep H. apply put_all_ok. lia.
Qed.

Lemma text_neg x : x < 0 -> text (pretty x) = Byte.x2d :: text (pretty (- x)).
Proof. destruct x; [lia|lia|done]. Qed.

(** [write] prints the number that [pretty] shows. *)
Lemma write_prints x l p :
  INT_MIN < x < 2 ^ 31 -> Z.of_nat (length l) + 12 <= IND_SIZE ->
  write x (mk_iobuf l p) = Ret tt (mk_iobuf (l ++ line x) p) /\ (length (line x) <= 12)%nat.
Proof.
  intros Hx Hl. unfold write, line. unfold INT_MIN in *. rewrite length_app. cbn [length]. destruct (Z.eqb_spec x 0) as [->|Hne].
  { split; [|by vm_compute; lia]. mstep (put_ok l p 48 ltac:(lia)). rewrite put_ok by (rewrite length_app; cbn; lia). by rewrite <- app_assoc. }
  destruct (Z.ltb_spec x 0) as [Hneg|Hpos].
  - destruct (put_digits (- x) (l ++ [ch 45]) p) as [H Hlen]; [lia|rewrite length_app; cbn; lia|].
    rewrite (proj2 (Z.eqb_neq x (- 2 ^ 31))) by lia. rewrite text_neg by done. cbn [length]. split; [|lia].
    rewrite bind_assoc, bind_assoc. mstep (put_ok l p 45 ltac:(lia)). rewrite (bind_ret _ _ _ (- x) (mk_iobuf (l ++ [ch 45]) p)) by done.
    mstep H. rewrite put_ok by (rewrite !length_app; cbn; lia). by rewrite <- !app_assoc.
  - destruct (put_digits x l p) as [H Hlen]; [lia|lia|]. split; [|lia].
    rewrite bind_assoc. rewrite (bind_ret _ _ _ x (mk_iobuf l p)) by done. mstep H.
    rewrite put_ok by (rewrite !length_app; cbn; lia). by rewrite <- !app_assoc.
Qed.

Lemma write_all_ok xs p : forall l,
  Forall (fun x => INT_MIN < x < 2 ^ 31) xs -> Z.of_nat (length l) + 12 * Z.of_nat (length xs) <= IND_SIZE ->
  write_all xs (mk_iobuf l p) = Ret tt (mk_iobuf (l ++ concat (map line xs)) p).
Proof.
  induction xs as [|x xs IH]; intros l Hx Hl; cbn [write_all map concat length] in *; [by rewrite app_nil_r|].
  apply Forall_cons in Hx as [Hx Hxs]. destruct (write_prints x l p Hx) as [H Hlen]; [lia|]. mstep H.
  rewrite IH; [by rewrite <- app_assoc|done|]. rewrite length_app. lia.
Qed.

(** ** What is read *)

(** Digits are read into the number. *)
Lemma number_pretty full x : forall s r,
  number full 0 (text (pretty_N_go x s) ++ r) = number full (u32 (Z.of_N x)) (text s ++ r).
Proof.
  induction (N.lt_wf_0 x) as [x _ IH]. intros s r. destruct (decide (x = 0)%N) as [->|Hx]; [done|].
  rewrite pretty_N_go_step by lia. rewrite IH by (apply N.div_lt; lia). rewrite text_cons, digit_char by (apply N.mod_lt; lia).
  cbn [app number]. rewrite digit_schar by (apply N.mod_lt; lia). rewrite (proj2 (Z.ltb_lt 32 _)) by (pose proof (N2Z.is_nonneg (x mod 10)); lia). f_equal.
  unfold u32. rewrite N2Z.inj_div, N2Z.inj_mod. change (Z.of_N 10) with 10.
  replace ((Z.of_N x / 10) mod 2 ^ 32 * 10 + (Z.of_N x mod 10 + 48) - 48) with ((Z.of_N x / 10) mod 2 ^ 32 * 10 + Z.of_N x mod 10) by ring.
  rewrite <- Zplus_mod_idemp_l, Zmult_mod_idemp_l, Zplus_mod_idemp_l. f_equal. rewrite Z.mod_eq by lia. ring.
Qed.

(** A number begins with a digit. *)
Lemma pretty_head x : (0 < x)%N -> forall s, exists d s', (d < 10)%N /\ pretty_N_go x s = String (pretty_N_char d) s'.
Proof.
  induction (N.lt_wf_0 x) as [x _ IH]. intros Hx s. rewrite pretty_N_go_step by done.
  destruct (decide (x / 10 = 0)%N) as [->|E].
  - rewrite pretty_N_go_0. exists (x mod 10)%N, s. split; [apply N.mod_lt; lia|done].
  - apply IH; [apply N.div_lt; lia|by apply N.neq_0_lt_0].
Qed.

(** What the two loops do. *)
Definition scan (full : bool) (l : list byte) : option (Z * list byte) := skip l ≫= number full 0.

Lemma scan_digits full x r :
  0 <= x < 2 ^ 32 -> scan full (text (pretty x) ++ Byte.x0a :: r) = Some (x, Byte.x0a :: r).
Proof.
  intros Hx. destruct (decide (x = 0)) as [->|Hne]; [done|].
  assert (E : pretty x = pretty_N_go (Z.to_N x) ""%string).
  { destruct x as [|p|p]; [lia| |lia]. change (pretty (Z.pos p)) with (pretty (N.pos p)). unfold pretty, pretty_N. by destruct (decide _). }
  unfold scan. assert (Hskip : skip (text (pretty x) ++ Byte.x0a :: r) = Some (text (pretty x) ++ Byte.x0a :: r)).
  { rewrite E. destruct (pretty_head (Z.to_N x) ltac:(lia) ""%string) as (d & s' & Hd & ->). rewrite text_cons, digit_char by done.
    cbn [app skip]. by rewrite digit_schar, (proj2 (Z.ltb_ge _ 48)) by lia. }
  rewrite Hskip. cbn [mbind option_bind]. rewrite E, number_pretty, Z2N.id by lia. rewrite u32_small by lia. done.
Qed.

(** A line is read without its sign, up to its end; the end of the line before
    is skipped. *)
Lemma scan_line full x r : INT_MIN < x < 2 ^ 31 -> scan full (line x ++ r) = Some (Z.abs x, Byte.x0a :: r).
Proof.
  intros Hx. unfold INT_MIN in Hx. unfold line. rewrite <- app_assoc. cbn [app]. destruct (Z.ltb_spec x 0) as [Hn|Hn].
  - rewrite text_neg by done. rewrite Z.abs_neq by lia. rewrite <- (scan_digits full (- x) r) by lia. done.
  - rewrite Z.abs_eq by lia. apply scan_digits. lia.
Qed.

Lemma scan_newline full l : scan full (Byte.x0a :: l) = scan full l.
Proof. done. Qed.

(** [i] at the bytes [l]. *)
Lemma operator_scan pre l x l' :
  scan (IND_SIZE <=? Z.of_nat (length (pre ++ l))) l = Some (x, l') -> (length l' <= length l)%nat ->
  operator_unsigned (mk_iobuf (pre ++ l) (Some (Z.of_nat (length pre))))
  = Ret x (mk_iobuf (pre ++ l) (Some (Z.of_nat (length (pre ++ l)) - Z.of_nat (length l')))).
Proof.
  intros H Hl. unfold operator_unsigned. cbn [i ind]. rewrite Nat2Z.id, drop_app_length. unfold scan in H. by rewrite H.
Qed.

(** The lines [xs] are read from where they start, or from the end of the line
    before. *)
Lemma read_lines xs : forall pre nl,
  Forall (fun x => INT_MIN < x < 2 ^ 31) xs -> nl = [] \/ nl = [Byte.x0a] ->
  exists p, read_all (length xs) (mk_iobuf (pre ++ nl ++ concat (map line xs)) (Some (Z.of_nat (length pre))))
    = Ret (map Z.abs xs) (mk_iobuf (pre ++ nl ++ concat (map line xs)) p).
Proof.
  induction xs as [|x xs IH]; intros pre nl Hxs Hnl; [by eexists|]. apply Forall_cons in Hxs as [Hx Hxs].
  cbn [read_all length map concat]. set (r := concat (map line xs)).
  set (body := nl ++ line x ++ r).
  assert (H : operator_unsigned (mk_iobuf (pre ++ body) (Some (Z.of_nat (length pre))))
    = Ret (Z.abs x) (mk_iobuf (pre ++ body) (Some (Z.of_nat (length (pre ++ body)) - Z.of_nat (length (Byte.x0a :: r)))))).
  { apply operator_scan.
    - destruct Hnl as [-> | ->]; unfold body; cbn [app]; rewrite ?scan_newline; by apply scan_line.
    - unfold body, line. rewrite !length_app. cbn [length]. lia. }
  mstep H. assert (Eb : pre ++ body = (pre ++ nl ++ text (pretty x)) ++ [Byte.x0a] ++ r).
  { unfold body, line. by rewrite <- !app_assoc. }
  rewrite Eb. replace (Z.of_nat (length _) - Z.of_nat (length (Byte.x0a :: r))) with (Z.of_nat (length (pre ++ nl ++ text (pretty x)))).
  2:{ rewrite !length_app. cbn [length]. lia. }
  destruct (IH (pre ++ nl ++ text (pretty x)) [Byte.x0a] Hxs (or_intror eq_refl)) as [p Hp]. exists p. by mstep Hp.
Qed.

(** The numbers are those of an [int]. *)
Lemma i32_range z : INT_MIN <= i32 z < 2 ^ 31.
Proof. unfold i32, INT_MIN. pose proof (Z.mod_pos_bound (z + 2 ^ 31) (2 ^ 32) ltac:(lia)). lia. Qed.

Lemma length_values n : forall x a b c, length (values n x a b c) = n.
Proof. induction n as [|n IH]; intros x a b c; [done|]. cbn [values length]. by rewrite IH. Qed.

Lemma values_int n : forall x a b c, (INT_MIN ∉ values n x a b c) -> Forall (fun x => INT_MIN < x < 2 ^ 31) (values n x a b c).
Proof.
  induction n as [|n IH]; intros x a b c Hn; [constructor|]. cbn [values] in *. apply not_elem_of_cons in Hn as [Hn1 Hn2].
  constructor; [|by apply IH]. pose proof (i32_range (u32 (x * x * a + x * b + c))). lia.
Qed.

(** ** Properties *)

(** C34. The test prints its numbers in decimal, one per line: as long as no
    number is INT_MIN (its negation overflows) and the lines fit into the
    buffer, [main] returns 0 without a fault, and what it gives to [fwrite] is
    exactly the sequence of the numbers as [pretty] shows them, each with its
    sign and followed by a newline.  The pointer [i] is still null. *)
Theorem main_prints n x a b c :
  0 <= n -> 12 * n <= IND_SIZE -> (INT_MIN ∉ values (Z.to_nat n) x a b c) ->
  exists s, main n x a b c = Ret 0 s /\ ind s = concat (map line (values (Z.to_nat n) x a b c)) /\ i s = None.
Proof.
  intros Hn Hfit Hv. apply values_int in Hv. pose proof (length_values (Z.to_nat n) x a b c) as Hlen. set (vs := values _ _ _ _ _) in *.
  exists (mk_iobuf (concat (map line vs)) None). split; [|done].
  assert (H : print_loop (Z.to_nat n) x a b c io = Ret tt (mk_iobuf (concat (map line vs)) None)).
  { rewrite print_loop_values. fold vs. apply (write_all_ok vs None []); [done|cbn [length]; lia]. }
  unfold main. by mstep H.
Qed.

(** The conversion cannot be used after [IObuf()], nor after any [write]: [i] is
    null. *)
Lemma operator_null s : i s = None -> operator_unsigned s = Fault NullDeref.
Proof. intros H. unfold operator_unsigned. by rewrite H. Qed.

(** With [i] at the start of the buffer, what was printed would be read back
    without the signs. *)
Lemma read_back xs :
  Forall (fun x => INT_MIN < x < 2 ^ 31) xs ->
  exists p, read_all (length xs) (mk_iobuf (concat (map line xs)) (Some 0)) = Ret (map Z.abs xs) (mk_iobuf (concat (map line xs)) p).
Proof. intros H. exact (read_lines xs [] [] H (or_introl eq_refl)). Qed.

(** The smallest [int] cannot be negated. *)
Lemma write_int_min l p : Z.of_nat (length l) < IND_SIZE -> write INT_MIN (mk_iobuf l p) = Fault SignedOverflow.
Proof.
  intros H. unfold write. change (INT_MIN =? 0) with false. change (INT_MIN <? 0) with true.
  cbv iota. unfold mbind, M_bind. by rewrite (put_ok l p 45 H).
Qed.

(** A run that stops in it. *)
Example main_overflows : main 1 0 0 0 2147483648 = Fault SignedOverflow.
Proof. vm_compute. reflexivity. Qed.

(** ** Instances of the properties *)

(** Three numbers of the recurrence x := 3 x + 7 from 4294967290, which is -6
    as an [int]. *)
Lemma main_prints_witness :
  exists s, main 3 4294967290 0 3 7 = Ret 0 s
    /\ ind s = text "-11" ++ Byte.x0a :: text "-26" ++ Byte.x0a :: text "-71" ++ [Byte.x0a] /\ i s = None.
Proof. apply (main_prints 3 4294967290 0 3 7); [lia|by vm_compute|]. vm_compute. set_solver. Defined.
