(* ===== verification/TestPrograms.v ===== *)
(** * The test programs: src/testcode/basic.cpp, manyfile.cpp, multirw.cpp

    The programs use a mounted file system through the calls of the operating
    system.  A program is a tree of calls; [Posix] runs a call and [PosixLaws]
    says what the programs rely on.  Against that interface the programs pass
    their assertions: manyfile.cpp one file after the other, multirw.cpp with
    ten threads on one file in every interleaving of their calls, each of which
    is one step.  The function [test] of multirw.cpp is declared to return an
    int and has no return statement, so a thread that has passed all assertions
    is where the behaviour of the program is undefined ([PUndef]); nothing is
    claimed of what happens then. *)

From stdpp Require Import strings pretty.
From S2P Require Import Prelude OpenFiles NumberIO.

Open Scope Z_scope.

(** ** Programs *)

Inductive syscall : Type :=
| SOpen (path : list byte) (flags mode : Z)
| SRead (fd n : Z)
| SWrite (fd : Z) (buf : list byte)
| SPread (fd n off : Z)
| SPwrite (fd : Z) (buf : list byte) (off : Z)
| SClose (fd : Z)
| SErrno
| SRand
| SSrand
| SPrintf (format : string) (args : list Z)
| SPutchar (c : byte).

(** A call answers a number, and the bytes that it stores in a buffer. *)
Abbreviation reply := (Z * list byte)%type.

(** A program returns, fails an assertion, flows off the end of a function that
    should return a value (which is undefined behaviour), or goes on after a
    call. *)
Inductive prog (A : Type) : Type :=
| PRet (a : A)
| PFail
| PUndef
| PCall (c : syscall) (k : reply -> prog A).

Arguments PRet {A} a.
Arguments PFail {A}.
Arguments PUndef {A}.
Arguments PCall {A} c k.

Fixpoint prog_bind {A B} (f : A -> prog B) (t : prog A) : prog B :=
  match t with
  | PRet a => f a
  | PFail => PFail
  | PUndef => PUndef
  | PCall c k => PCall c (fun r => prog_bind f (k r))
  end.

#[global] Instance prog_mret : MRet prog := @PRet.
#[global] Instance prog_mbind : MBind prog := @prog_bind.

Definition sys (c : syscall) : prog reply := PCall c PRet.

Definition sysz (c : syscall) : prog Z :=
  r ← sys c;
  mret r.1.

(** [assert(b)] *)
Definition assert (b : bool) : prog unit := if b then PRet tt else PFail.

Definition O_CREAT : Z := 0x40.
Definition RDWR_CREAT : Z := Z.lor O_RDWR O_CREAT.

(** [S_IRUSR | S_IWUSR] *)
Definition USER_RW : Z := 0x180.

Definition RAND_MAX : Z := 2147483647.

(** [printf(format, r, errno), fflush(stdout);] *)
Definition report (format : string) (r : Z) : prog unit :=
  errno ← sysz SErrno;
  _ ← sys (SPrintf format [r; errno]);
  mret tt.

Definition report_if (b : bool) (format : string) (r : Z) : prog unit :=
  if b then report format r else mret tt.

(** [memcmp(a, b, n) == 0] *)
Definition same_bytes (n : Z) (a b : list byte) : bool := bool_decide (slice 0 n a = slice 0 n b).

(** [for (j ...) a[j] = rand() & 255;]: [n] bytes. *)
Fixpoint random_bytes (n : nat) : prog (list byte) :=
  match n with
  | O => mret []
  | S n' =>
      r ← sysz SRand;
      l ← random_bytes n';
      mret (ch (Z.land r 255) :: l)
  end.

(** *** basic.cpp *)

(** [for (int i = 0; i < bit; ++i) putchar(rdbuf[i]);] *)
Fixpoint put_chars (l : list byte) : prog unit :=
  match l with
  | [] => mret tt
  | c :: l' =>
      _ ← sys (SPutchar c);
      put_chars l'
  end.

(** ["hello world!"] with its terminator. *)
Definition hello_buf : list byte := text "hello world!" ++ [Byte.x00].

(** [main] of basic.cpp; [rdbuf] is not initialised. *)
Definition basic_main (rdbuf : list byte) : prog Z :=
  fd ← sysz (SOpen (text "test/a") RDWR_CREAT USER_RW);
  _ ← report_if (fd <? 0) "[%d,err=%d]" fd;
  '(bit, bs) ← sys (SRead fd 10000);
  let rdbuf := splice 0 bs rdbuf in
  _ ← put_chars (slice 0 bit rdbuf);
  r ← sysz (SWrite fd hello_buf);
  _ ← assert (r =? Z.of_nat (length hello_buf));
  errno ← sysz SErrno;
  _ ← sys (SPrintf "[bytes=%d,real=%d,err=%d]" [Z.of_nat (length hello_buf); r; errno]);
  mret 0.

(** *** manyfile.cpp *)

(** [sizeof(a)] *)
Definition A_SIZE : Z := 100.

(** [sprintf(name, "test/dd%d", T);] *)
Definition dd_name (T : Z) : list byte := text "test/dd" ++ text (pretty T).

(** One round of the loop; [b] keeps its bytes from round to round. *)
Definition manyfile_round (T : Z) (b : list byte) : prog (list byte) :=
  let name := dd_name T in
  fd ← sysz (SOpen name RDWR_CREAT USER_RW);
  _ ← report_if (fd <? 0) "open[%d,%d]" fd;
  a ← random_bytes (Z.to_nat A_SIZE);
  r ← sysz (SWrite fd a);
  _ ← report_if (negb (r =? A_SIZE)) "[%d,%d]" r;
  _ ← assert (r =? A_SIZE);
  '(r, bs) ← sys (SPread fd A_SIZE 0);
  let b := splice 0 bs b in
  _ ← report_if (negb (r =? A_SIZE)) "[%d,%d]" r;
  _ ← assert (r =? A_SIZE);
  _ ← assert (same_bytes A_SIZE a b);
  _ ← sys (SClose fd);
  mret b.

Fixpoint manyfile_loop (n : nat) (T : Z) (b : list byte) : prog Z :=
  match n with
  | O => mret 0
  | S n' =>
      b ← manyfile_round T b;
      manyfile_loop n' (T + 1) b
  end.

(** [main] of manyfile.cpp *)
Definition manyfile_main (b : list byte) : prog Z :=
  _ ← sys SSrand;
  manyfile_loop 2000 0 b.

(** *** multirw.cpp *)

(** [sizeof(a)] in [test] and [sizeof(aa)] in [main] *)
Definition REGION : Z := 30000.
Definition AA_SIZE : Z := 3000000.

Definition CC : list byte := text "test/cc".

(** [abs(rand()) % sizeof(a)] *)
Definition random_index : prog Z :=
  r ← sysz SRand;
  mret (Z.abs r mod REGION).

(** [L] and [R], in order. *)
Definition random_range : prog (Z * Z) :=
  L ← random_index;
  R ← random_index;
  mret (if R <? L then (R, L) else (L, R)).

(** The rounds of [test]; [a] is what the thread has written. *)
Fixpoint test_rounds (n : nat) (fd my : Z) (a b : list byte) : prog unit :=
  match n with
  | O => mret tt
  | S n' =>
      '(L, R) ← random_range;
      l ← random_bytes (Z.to_nat (R - L));
      let a := splice L l a in
      r ← sysz (SPwrite fd (slice L (R - L + 1) a) (L + my));
      _ ← report_if (r <? 0) "err[%d,%d]" r;
      _ ← assert (r =? R - L + 1);
      '(L, R) ← random_range;
      '(r, bs) ← sys (SPread fd (R - L + 1) (L + my));
      let b := splice 0 bs b in
      _ ← report_if (r <? 0) "err[%d,%d]" r;
      _ ← assert (r =? R - L + 1);
      _ ← assert (same_bytes (R - L + 1) b (slice L (R - L + 1) a));
      test_rounds n' fd my a b
  end.

(** [int test(int Z)]; [b] is not initialised.  There is no return statement
    behind the rounds. *)
Definition test (Z : Z) (b : list byte) : prog BinNums.Z :=
  _ ← sys SSrand;
  let my := i32 (Z * REGION) in
  fd ← sysz (SOpen CC RDWR_CREAT USER_RW);
  _ ← report_if (fd <=? 0) "err[%d,%d]" fd;
  a ← random_bytes (Z.to_nat REGION);
  r ← sysz (SPwrite fd a my);
  _ ← report_if (r <? 0) "err[%d,%d]" r;
  _ ← assert (r =? REGION);
  '(r, bs) ← sys (SPread fd REGION my);
  let b := splice 0 bs b in
  _ ← report_if (r <? 0) "err[%d,%d]" r;
  _ ← assert (r =? REGION);
  _ ← assert (same_bytes REGION a b);
  _ ← test_rounds 10 fd my a b;
  PUndef.

(** [main] of multirw.cpp up to the threads, *)
Definition multirw_main : prog unit :=
  fd ← sysz (SOpen CC RDWR_CREAT USER_RW);
  _ ← report_if (fd <=? 0) "err[%d,%d]" fd;
  aa ← random_bytes (Z.to_nat AA_SIZE);
  r ← sysz (SPwrite fd aa 0);
  report_if (r <? 0) "err[%d,%d]" r.

(** and the threads, [[i]() { test(i); }], which are joined. *)
Definition multirw_threads (b : list byte) : list (prog unit) :=
  map (fun i => _ ← test (Z.of_nat i) b; mret tt) (seq 0 10).

(** ** Running *)

Class Posix (W : Type) : Type := sys_call : syscall -> W -> reply * W.

Section Run.
Context {W : Type} `{Posix W}.

(** One program; [None] when an assertion fails or its behaviour is undefined. *)
Fixpoint run {A} (t : prog A) (w : W) : option A * W :=
  match t with
  | PRet a => (Some a, w)
  | PFail | PUndef => (None, w)
  | PCall c k => let '(r, w) := sys_call c w in run (k r) w
  end.

(** Threads: one of them makes its next call, which is one step. *)
Inductive tstep : list (prog unit) * W -> list (prog unit) * W -> Prop :=
| tstep_call i c k ts w : ts !! i = Some (PCall c k) -> tstep (ts, w) (<[i := k (sys_call c w).1]> ts, (sys_call c w).2).
End Run.

(** ** What the programs rely on *)

(** Files by their paths; descriptors with a path and a position. *)
Record pview : Type := mk_pview {
  pv_files : gmap (list byte) (list byte);
  pv_fds : gmap Z (list byte * Z)
}.

Definition v_open (p : list byte) (fd : Z) (v : pview) : pview :=
  mk_pview (match pv_files v !! p with Some _ => pv_files v | None => <[p := []]> (pv_files v) end) (<[fd := (p, 0)]> (pv_fds v)).

Definition v_write (p : list byte) (c : list byte) (v : pview) : pview := mk_pview (<[p := c]> (pv_files v)) (pv_fds v).

Definition v_seek (fd : Z) (p : list byte) (pos : Z) (v : pview) : pview := mk_pview (pv_files v) (<[fd := (p, pos)]> (pv_fds v)).

Definition v_close (fd : Z) (v : pview) : pview := mk_pview (pv_files v) (delete fd (pv_fds v)).

(** Calls that are not about files. *)
Definition quiet_call (c : syscall) : bool :=
  match c with SErrno | SRand | SSrand | SPrintf _ _ | SPutchar _ => true | _ => false end.

(** A system with files: in a state with the view [v], [k] units of space and
    [m] openings are left, a write of [n] bytes takes [space n] units, and the
    calls on usable paths and open descriptors do what POSIX says while space
    is left. *)
Class PosixLaws (W : Type) `{Posix W} (usable : list byte -> Prop) (space : Z -> Z)
    (view : Z -> Z -> pview -> W -> Prop) : Prop := {
  law_open k m v w p : view k m v w -> usable p -> 1 <= m ->
    exists fd bs w', sys_call (SOpen p RDWR_CREAT USER_RW) w = ((fd, bs), w') /\ 0 < fd
      /\ pv_fds v !! fd = None /\ view k (m - 1) (v_open p fd v) w';
  law_pwrite k m v w fd p pos c buf off : view k m v w -> pv_fds v !! fd = Some (p, pos) -> pv_files v !! p = Some c ->
    0 <= off <= Z.of_nat (length c) -> 0 < Z.of_nat (length buf) < 2 ^ 31 -> off < 2 ^ 30 -> space (Z.of_nat (length buf)) <= k ->
    exists bs w', sys_call (SPwrite fd buf off) w = ((Z.of_nat (length buf), bs), w')
      /\ view (k - space (Z.of_nat (length buf))) m (v_write p (splice off buf c) v) w';
  law_write k m v w fd p pos c buf : view k m v w -> pv_fds v !! fd = Some (p, pos) -> pv_files v !! p = Some c ->
    0 <= pos <= Z.of_nat (length c) -> 0 < Z.of_nat (length buf) < 2 ^ 31 -> pos < 2 ^ 30 -> space (Z.of_nat (length buf)) <= k ->
    exists bs w', sys_call (SWrite fd buf) w = ((Z.of_nat (length buf), bs), w')
      /\ view (k - space (Z.of_nat (length buf))) m (v_seek fd p (pos + Z.of_nat (length buf)) (v_write p (splice pos buf c) v)) w';
  law_pread k m v w fd p pos c n off : view k m v w -> pv_fds v !! fd = Some (p, pos) -> pv_files v !! p = Some c ->
    0 <= off -> 0 <= n < 2 ^ 31 ->
    exists w', sys_call (SPread fd n off) w = ((Z.of_nat (length (slice off n c)), slice off n c), w') /\ view k m v w';
  law_read k m v w fd p pos c n : view k m v w -> pv_fds v !! fd = Some (p, pos) -> pv_files v !! p = Some c ->
    0 <= pos -> 0 <= n < 2 ^ 31 ->
    exists w', sys_call (SRead fd n) w = ((Z.of_nat (length (slice pos n c)), slice pos n c), w')
      /\ view k m (v_seek fd p (pos + Z.of_nat (length (slice pos n c))) v) w';
  law_close k m v w fd p pos : view k m v w -> pv_fds v !! fd = Some (p, pos) ->
    exists r w', sys_call (SClose fd) w = (r, w') /\ view k m (v_close fd v) w';
  law_quiet k m v w c : view k m v w -> quiet_call c = true -> view k m v (sys_call c w).2;
  law_rand k m v w : view k m v w -> 0 <= (sys_call SRand w).1.1 <= RAND_MAX;
  law_space n n' : 0 <= n <= n' -> 0 <= space n <= space n'
}.

(** ** Threads end *)

Section Ending.
Context {W : Type} `{Posix W}.

(** The same without the state: any answer. *)
Inductive pstep : list (prog unit) -> list (prog unit) -> Prop :=
| pstep_call i c k r ts : ts !! i = Some (PCall c k) -> pstep ts (<[i := k r]> ts).

Lemma pstep_inv t ts ts' : pstep (t :: ts) ts' ->
  (exists c k r, t = PCall c k /\ ts' = k r :: ts) \/ (exists ts1, pstep ts ts1 /\ ts' = t :: ts1).
Proof.
  intros Hs. remember (t :: ts) as l eqn:El. destruct Hs as [i c k r l Hi]. subst l. destruct i as [|i]; cbn in Hi.
  - left. exists c, k, r. split; [congruence|done].
  - right. exists (<[i := k r]> ts). split; [by apply (pstep_call i c k r)|done].
Qed.

Lemma pstep_cons t : forall ts, sn pstep ts -> sn pstep (t :: ts).
Proof.
  induction t as [a| | |c k IH]; intros ts Hts; induction Hts as [ts Hts' IHts]; constructor; intros ts' Hs;
    apply pstep_inv in Hs as [(c' & k' & r & E & ->)|(ts1 & Hs & ->)]; try discriminate E; try (by apply IHts).
  injection E as <- <-. apply IH. by constructor.
Qed.

Lemma pstep_ends ts : sn pstep ts.
Proof.
  induction ts as [|t ts IH]; [|by apply pstep_cons]. constructor. intros ts' Hs. unfold flip in Hs.
  remember [] as l eqn:El. destruct Hs as [i c k r l Hi]. by subst l.
Qed.

Lemma tstep_ends ts (w : W) : sn tstep (ts, w).
Proof.
  revert w. induction (pstep_ends ts) as [ts _ IH]. intros w. constructor. intros [ts' w'] Hs. inversion Hs as [i c k ts0 w0 Hi]; subst.
  apply IH. by apply (pstep_call i c k).
Qed.
End Ending.

(** ** One program *)

Section Laws.
Context {W : Type} {usable : list byte -> Prop} {space : Z -> Z} {view : Z -> Z -> pview -> W -> Prop}.
Context `{L : PosixLaws W usable space view}.

Lemma run_bind {A B} (f : A -> prog B) (t : prog A) : forall w,
  run (t ≫= f) w = match run t w with (Some a, w') => run (f a) w' | (None, w') => (None, w') end.
Proof.
  induction t as [a| | |c k IH]; intros w; [done|done|done|]. unfold mbind, prog_mbind in *. cbn [prog_bind run].
  destruct (sys_call c w) as [r w']. apply IH.
Qed.

(** The program returns, in a state with a view of which [Q] holds. *)
Definition ok {A} (k m : Z) (v : pview) (t : prog A) (Q : Z -> Z -> pview -> A -> Prop) : Prop :=
  forall w, view k m v w -> exists a w' k' m' v', run t w = (Some a, w') /\ view k' m' v' w' /\ Q k' m' v' a.

Lemma ok_ret {A} k m v (a : A) (Q : Z -> Z -> pview -> A -> Prop) : Q k m v a -> ok k m v (mret a) Q.
Proof. intros HQ w V. by exists a, w, k, m, v. Qed.

Lemma ok_bind {A B} k m v (t : prog A) (f : A -> prog B) (Q : Z -> Z -> pview -> B -> Prop) :
  ok k m v t (fun k' m' v' a => ok k' m' v' (f a) Q) -> ok k m v (t ≫= f) Q.
Proof.
  intros Ht w V. destruct (Ht w V) as (a & w1 & k1 & m1 & v1 & Hr & V1 & Hf). destruct (Hf w1 V1) as (b & w2 & k2 & m2 & v2 & Hr2 & V2 & HQ).
  exists b, w2, k2, m2, v2. split; [by rewrite run_bind, Hr|done].
Qed.

Lemma ok_call k m v c (Q : Z -> Z -> pview -> reply -> Prop) :
  (forall w, view k m v w -> exists r w' k' m' v', sys_call c w = (r, w') /\ view k' m' v' w' /\ Q k' m' v' r) -> ok k m v (sys c) Q.
Proof.
  intros Hc w V. destruct (Hc w V) as (r & w' & k' & m' & v' & E & V' & HQ). exists r, w', k', m', v'. split; [|done]. cbn. by rewrite E.
Qed.

Lemma ok_sysz k m v c (Q : Z -> Z -> pview -> Z -> Prop) : ok k m v (sys c) (fun k m v r => Q k m v r.1) -> ok k m v (sysz c) Q.
Proof. intros Hc. apply ok_bind. intros w V. destruct (Hc w V) as (r & w' & k' & m' & v' & E & V' & HQ). exists r, w', k', m', v'.
  split; [done|]. split; [done|]. by apply ok_ret. Qed.

Lemma ok_quiet k m v c (Q : Z -> Z -> pview -> reply -> Prop) : quiet_call c = true -> (forall r, Q k m v r) -> ok k m v (sys c) Q.
Proof.
  intros Hc HQ. apply ok_call. intros w V. pose proof (law_quiet _ _ _ _ _ V Hc) as V'. destruct (sys_call c w) as [r w'].
  by exists r, w', k, m, v.
Qed.

Lemma ok_assert k m v b (Q : Z -> Z -> pview -> unit -> Prop) : b = true -> Q k m v tt -> ok k m v (assert b) Q.
Proof. intros -> HQ. by apply ok_ret. Qed.

Lemma ok_report k m v b format r (Q : Z -> Z -> pview -> unit -> Prop) : Q k m v tt -> ok k m v (report_if b format r) Q.
Proof.
  intros HQ. destruct b; [|by apply ok_ret]. apply ok_bind, ok_sysz, ok_quiet; [done|]. intros e. apply ok_bind, ok_quiet; [done|].
  intros _. by apply ok_ret.
Qed.

Lemma ok_random_bytes n : forall k m v (Q : Z -> Z -> pview -> list byte -> Prop),
  (forall l, length l = n -> Q k m v l) -> ok k m v (random_bytes n) Q.
Proof.
  induction n as [|n IH]; intros k m v Q HQ; [apply ok_ret; by apply HQ|]. cbn [random_bytes].
  apply ok_bind, ok_sysz, ok_quiet; [done|]. intros r. apply ok_bind, IH. intros l Hl. apply ok_ret, HQ. cbn. by rewrite Hl.
Qed.

Lemma ok_open k m v p (Q : Z -> Z -> pview -> Z -> Prop) :
  usable p -> 1 <= m -> (forall fd, 0 < fd -> pv_fds v !! fd = None -> Q k (m - 1) (v_open p fd v) fd) ->
  ok k m v (sysz (SOpen p RDWR_CREAT USER_RW)) Q.
Proof.
  intros Hp Hm HQ. apply ok_sysz, ok_call. intros w V. destruct (law_open _ _ _ _ p V Hp Hm) as (fd & bs & w' & E & Hfd & Hn & V').
  exists (fd, bs), w', k, (m - 1), (v_open p fd v). split; [done|]. split; [done|]. by apply HQ.
Qed.

Lemma ok_write k m v fd p pos c buf (Q : Z -> Z -> pview -> Z -> Prop) :
  pv_fds v !! fd = Some (p, pos) -> pv_files v !! p = Some c -> 0 <= pos <= Z.of_nat (length c) ->
  0 < Z.of_nat (length buf) < 2 ^ 31 -> pos < 2 ^ 30 -> space (Z.of_nat (length buf)) <= k ->
  Q (k - space (Z.of_nat (length buf))) m (v_seek fd p (pos + Z.of_nat (length buf)) (v_write p (splice pos buf c) v)) (Z.of_nat (length buf)) ->
  ok k m v (sysz (SWrite fd buf)) Q.
Proof.
  intros Hfd Hc Hpos Hlen Hb Hk HQ. apply ok_sysz, ok_call. intros w V.
  destruct (law_write _ _ _ _ _ _ _ _ buf V Hfd Hc Hpos Hlen Hb Hk) as (bs & w' & E & V'). by eexists _, w', _, m, _.
Qed.

Lemma ok_pread k m v fd p pos c n off (Q : Z -> Z -> pview -> reply -> Prop) :
  pv_fds v !! fd = Some (p, pos) -> pv_files v !! p = Some c -> 0 <= off -> 0 <= n < 2 ^ 31 ->
  Q k m v (Z.of_nat (length (slice off n c)), slice off n c) -> ok k m v (sys (SPread fd n off)) Q.
Proof.
  intros Hfd Hc Hoff Hn HQ. apply ok_call. intros w V. destruct (law_pread _ _ _ _ _ _ _ _ n off V Hfd Hc Hoff Hn) as (w' & E & V').
  by eexists _, w', k, m, v.
Qed.

Lemma ok_close k m v fd p pos (Q : Z -> Z -> pview -> reply -> Prop) :
  pv_fds v !! fd = Some (p, pos) -> (forall r, Q k m (v_close fd v) r) -> ok k m v (sys (SClose fd)) Q.
Proof.
  intros Hfd HQ. apply ok_call. intros w V. destruct (law_close _ _ _ _ _ _ _ V Hfd) as (r & w' & E & V'). by eexists _, w', k, m, _.
Qed.

(** The contents of a file that was opened. *)
Definition before (p : list byte) (v : pview) : list byte := default [] (pv_files v !! p).

Lemma open_file p fd v : pv_files (v_open p fd v) !! p = Some (before p v).
Proof. unfold v_open, before. cbn [pv_files]. destruct (pv_files v !! p) eqn:E; [done|]. apply lookup_insert_eq. Qed.

Lemma open_other p q fd v : p <> q -> pv_files (v_open p fd v) !! q = pv_files v !! q.
Proof. intros Hne. unfold v_open. cbn [pv_files]. destruct (pv_files v !! p); [done|]. by apply lookup_insert_ne. Qed.

Lemma open_fd p fd v : pv_fds (v_open p fd v) !! fd = Some (p, 0).
Proof. apply lookup_insert_eq. Qed.

(** *** basic.cpp *)

Lemma ok_put_chars l : forall k m v (Q : Z -> Z -> pview -> unit -> Prop), Q k m v tt -> ok k m v (put_chars l) Q.
Proof.
  induction l as [|c l IH]; intros k m v Q HQ; [by apply ok_ret|]. cbn [put_chars]. apply ok_bind, ok_quiet; [done|]. intros _. by apply IH.
Qed.

(** What basic.cpp leaves: the text behind the first 10000 bytes. *)
Definition after_basic (c : list byte) : list byte := splice (Z.of_nat (length (slice 0 10000 c))) hello_buf c.

Lemma basic_ok k m v rdbuf :
  usable (text "test/a") -> 1 <= m -> space (Z.of_nat (length hello_buf)) <= k ->
  ok k m v (basic_main rdbuf) (fun _ _ v' r => r = 0 /\ pv_files v' !! text "test/a" = Some (after_basic (before (text "test/a") v))).
Proof.
  intros Hu Hm Hk. unfold basic_main. apply ok_bind, ok_open; [done|done|]. intros fd Hfd Hnew. apply ok_bind, ok_report.
  set (p := text "test/a") in *. set (c := before p v). apply ok_bind, ok_call. intros w V.
  destruct (law_read _ _ _ _ fd p 0 c 10000 V (open_fd p fd v) (open_file p fd v)) as (w' & E & V'); [lia|lia|].
  set (n := Z.of_nat (length (slice 0 10000 c))) in *. rewrite Z.add_0_l in V'.
  assert (Hn : 0 <= n <= 10000 /\ n <= Z.of_nat (length c)) by (unfold n, slice; rewrite length_take, length_drop; lia).
  eexists _, w', _, _, _. split; [exact E|]. split; [exact V'|]. apply ok_bind, ok_put_chars, ok_bind.
  apply (ok_write _ _ _ _ p n c); [apply lookup_insert_eq|apply open_file|lia|by vm_compute|lia|done|].
  apply ok_bind, ok_assert; [apply Z.eqb_refl|]. apply ok_bind, ok_sysz, ok_quiet; [done|]. intros e. apply ok_bind, ok_quiet; [done|].
  intros _. apply ok_ret. split; [done|]. cbn [v_seek v_write pv_files]. apply lookup_insert_eq.
Qed.

(** *** manyfile.cpp *)

(** A round leaves the descriptors, and the file with the bytes. *)
Lemma manyfile_round_ok k m v T b :
  usable (dd_name T) -> 1 <= m -> space A_SIZE <= k ->
  ok k m v (manyfile_round T b) (fun k' m' v' _ => k' = k - space A_SIZE /\ m' = m - 1 /\ pv_fds v' = pv_fds v
    /\ (exists c, pv_files v' !! dd_name T = Some c /\ A_SIZE <= Z.of_nat (length c))
    /\ forall q, q <> dd_name T -> pv_files v' !! q = pv_files v !! q).
Proof.
  intros Hu Hm Hk. unfold manyfile_round. set (p := dd_name T) in *. apply ok_bind, ok_open; [done|done|]. intros fd Hfd Hnew.
  apply ok_bind, ok_report, ok_bind, ok_random_bytes. intros a Ha. set (c := before p v).
  assert (Ea : Z.of_nat (length a) = A_SIZE) by (rewrite Ha; done).
  apply ok_bind, (ok_write _ _ _ _ p 0 c); [apply open_fd|apply open_file|lia|rewrite Ea; by vm_compute|lia|by rewrite Ea|].
  rewrite Ea. apply ok_bind, ok_report, ok_bind, ok_assert; [done|].
  set (c' := splice 0 a c). assert (Hs : slice 0 A_SIZE c' = a).
  { unfold c', splice, slice. rewrite take_0, drop_0. cbn [app]. rewrite take_app_le by (rewrite Ha; done). by rewrite take_ge by (rewrite Ha; done). }
  set (v1 := v_seek _ _ _ _). assert (Hf : pv_files v1 !! p = Some c') by apply lookup_insert_eq.
  apply ok_bind, (ok_pread _ _ _ _ p (0 + A_SIZE) c'); [apply lookup_insert_eq|done|lia|by vm_compute|]. rewrite Hs, Ea.
  apply ok_bind, ok_report, ok_bind, ok_assert; [done|]. apply ok_bind, ok_assert.
  { unfold same_bytes. apply bool_decide_eq_true. unfold slice, splice. rewrite drop_0, take_0. cbn [app]. rewrite drop_0.
    rewrite take_app_le by (rewrite Ha; done). done. }
  apply ok_bind, (ok_close _ _ _ _ p (0 + A_SIZE)); [apply lookup_insert_eq|]. intros r. apply ok_ret. split; [done|]. split; [done|].
  split; [|split].
  - unfold v1. cbn [v_close v_seek v_write v_open pv_fds]. by rewrite !delete_insert_eq, delete_id by done.
  - exists c'. split; [done|]. rewrite <- Ea. unfold c', splice. rewrite !length_app, take_0. cbn [length]. lia.
  - intros q Hq. cbn [v_close v1 v_seek v_write pv_files]. rewrite lookup_insert_ne by done. by apply open_other.
Qed.

(** A file that has been written. *)
Definition has_file (v : pview) (q : list byte) : Prop := exists c, pv_files v !! q = Some c /\ A_SIZE <= Z.of_nat (length c).

Lemma manyfile_loop_ok n : forall T k m v b,
  (forall i, T <= i < T + Z.of_nat n -> usable (dd_name i)) -> Z.of_nat n <= m -> Z.of_nat n * space A_SIZE <= k ->
  ok k m v (manyfile_loop n T b) (fun k' m' v' r => r = 0 /\ pv_fds v' = pv_fds v
    /\ (forall i, T <= i < T + Z.of_nat n -> has_file v' (dd_name i)) /\ (forall q, has_file v q -> has_file v' q)).
Proof.
  induction n as [|n IH]; intros T k m v b Hu Hm Hk.
  { apply ok_ret. split; [done|]. split; [done|]. split; [intros i Hi; lia|done]. }
  cbn [manyfile_loop]. pose proof (proj1 (law_space A_SIZE A_SIZE ltac:(by vm_compute))) as Hs0.
  apply ok_bind. intros w V.
  destruct (manyfile_round_ok k m v T b) with (w := w) as (b' & w1 & k1 & m1 & v1 & Hr & V1 & -> & -> & Hfds & Hf & Hoth);
    [apply Hu; lia|lia|nia|done|].
  exists b', w1, (k - space A_SIZE), (m - 1), v1. split; [done|]. split; [done|]. intros w1' V1'.
  destruct (IH (T + 1) (k - space A_SIZE) (m - 1) v1 b') with (w := w1') as (r & w2 & k2 & m2 & v2 & Hr2 & V2 & -> & Hfds2 & Hf2 & Hmono);
    [intros i Hi; apply Hu; lia|lia|nia|done|].
  exists 0, w2, k2, m2, v2. split; [done|]. split; [done|]. split; [done|]. split; [by rewrite Hfds2|]. split.
  - intros i Hi. destruct (decide (i = T)) as [->|Hne]; [by apply Hmono|]. apply Hf2. lia.
  - intros q [c Hc]. apply Hmono. destruct (decide (q = dd_name T)) as [->|Hne]; [done|]. exists c. by rewrite Hoth.
Qed.

(** ** Threads that share a file *)

(** The place of thread [j] in the file. *)
Definition place (j : Z) : Z := j * REGION.

(** A thread that keeps to its place: it opens the file once, reads and writes
    between [place j] and [place j + REGION], and no assertion fails when its
    place holds the bytes [d]; [b] is the space it may take.  [Q] holds of
    what it returns, if it does; its behaviour may become undefined. *)
Fixpoint keeps {A} (j b : Z) (fd : option Z) (d : list byte) (t : prog A) (Q : Z -> option Z -> list byte -> A -> Prop) : Prop :=
  match t with
  | PRet a => Q b fd d a
  | PFail => False
  | PUndef => True
  | PCall c k =>
      match c with
      | SOpen p flags mode => p = CC /\ flags = RDWR_CREAT /\ mode = USER_RW /\ fd = None
          /\ forall h bs, 0 < h -> keeps j b (Some h) d (k (h, bs)) Q
      | SPwrite h buf off =>
          let len := Z.of_nat (length buf) in
          fd = Some h /\ 0 <= off - place j /\ off - place j + len <= REGION /\ 0 < len /\ space len <= b
          /\ forall bs, keeps j (b - space len) fd (splice (off - place j) buf d) (k (len, bs)) Q
      | SPread h n off =>
          fd = Some h /\ 0 <= off - place j /\ off - place j + n <= REGION /\ 0 < n
          /\ keeps j b fd d (k (n, slice (off - place j) n d)) Q
      | SRand => forall r bs, 0 <= r <= RAND_MAX -> keeps j b fd d (k (r, bs)) Q
      | SErrno | SSrand | SPrintf _ _ | SPutchar _ => forall r, keeps j b fd d (k r) Q
      | SRead _ _ | SWrite _ _ | SClose _ => False
      end
  end.

Lemma keeps_mono {A} j (t : prog A) (Q Q' : Z -> option Z -> list byte -> A -> Prop) :
  (forall b fd d a, Q b fd d a -> Q' b fd d a) -> forall b fd d, keeps j b fd d t Q -> keeps j b fd d t Q'.
Proof.
  intros HQ. induction t as [a| | |c k IH]; intros b fd d; [apply HQ|done|done|]. destruct c; cbn [keeps]; naive_solver.
Qed.

Lemma keeps_bind {A B} j (f : A -> prog B) (Q : Z -> option Z -> list byte -> B -> Prop) (t : prog A) : forall b fd d,
  keeps j b fd d t (fun b fd d a => keeps j b fd d (f a) Q) -> keeps j b fd d (t ≫= f) Q.
Proof.
  unfold mbind, prog_mbind. induction t as [a| | |c k IH]; intros b fd d; [done|done|done|]. destruct c; cbn [keeps prog_bind]; naive_solver.
Qed.

(** Writing one byte more than was changed. *)
Lemma splice_wider x (l a : list byte) :
  0 <= x -> x + Z.of_nat (length l) < Z.of_nat (length a) ->
  splice x (slice x (Z.of_nat (length l) + 1) (splice x l a)) a = splice x l a.
Proof.
  intros Hx Hl. set (a1 := take (Z.to_nat x) a). set (a2 := take (length l) (drop (Z.to_nat x) a)).
  destruct (lookup_lt_is_Some_2 a (Z.to_nat x + length l)) as [z Hz]; [lia|].
  set (a3 := drop (S (Z.to_nat x + length l)) a).
  assert (E : a = a1 ++ a2 ++ [z] ++ a3).
  { unfold a1, a2, a3. rewrite <- (take_drop (Z.to_nat x) a) at 1. f_equal. rewrite <- (take_drop (length l) (drop (Z.to_nat x) a)) at 1. f_equal.
    rewrite drop_drop. cbn [app]. by apply drop_S. }
  assert (H1 : Z.of_nat (length a1) = x) by (unfold a1; rewrite length_take; lia).
  assert (H2 : length a2 = length l) by (unfold a2; rewrite length_take, length_drop; lia).
  clearbody a1 a2 a3. subst a. rewrite (splice_mid x a1 a2 ([z] ++ a3) l) by lia.
  replace (a1 ++ l ++ [z] ++ a3) with (a1 ++ (l ++ [z]) ++ a3) by by rewrite <- app_assoc.
  rewrite (slice_mid x _ a1 (l ++ [z]) a3) by (rewrite ?length_app; cbn; lia).
  replace (a1 ++ a2 ++ [z] ++ a3) with (a1 ++ (a2 ++ [z]) ++ a3) by by rewrite <- app_assoc.
  apply splice_mid; [lia|]. rewrite !length_app. cbn. lia.
Qed.

(** The start of a buffer that bytes were read into. *)
Lemma same_read n (bs b : list byte) : Z.of_nat (length bs) = n -> same_bytes n (splice 0 bs b) bs = true.
Proof.
  intros Hn. apply bool_decide_eq_true. unfold slice, splice. rewrite !drop_0, take_0. cbn [app].
  by rewrite take_app_le, !take_ge by lia.
Qed.

Section Place.
Context (j : Z).

Lemma keeps_sysz c b fd d (Q : Z -> option Z -> list byte -> Z -> Prop) :
  keeps j b fd d (sys c) (fun b fd d r => Q b fd d r.1) -> keeps j b fd d (sysz c) Q.
Proof. intros Hc. apply keeps_bind. by apply (keeps_mono j _ (fun b fd d r => Q b fd d r.1)). Qed.

Lemma keeps_report c b fd d format r (Q : Z -> option Z -> list byte -> unit -> Prop) :
  Q b fd d tt -> keeps j b fd d (report_if c format r) Q.
Proof. intros HQ. destruct c; [|done]. intros r1. intros r2. done. Qed.

Lemma keeps_random_bytes n : forall b fd d (Q : Z -> option Z -> list byte -> list byte -> Prop),
  (forall l, length l = n -> Q b fd d l) -> keeps j b fd d (random_bytes n) Q.
Proof.
  induction n as [|n IH]; intros b fd d Q HQ; [by apply HQ|]. cbn [random_bytes]. apply keeps_bind, keeps_sysz. intros r bs Hr.
  apply keeps_bind, IH. intros l Hl. apply HQ. cbn. by rewrite Hl.
Qed.

Lemma keeps_range b fd d (Q : Z -> option Z -> list byte -> Z * Z -> Prop) :
  (forall x y, 0 <= x <= y -> y < REGION -> Q b fd d (x, y)) -> keeps j b fd d random_range Q.
Proof.
  intros HQ. unfold random_range, random_index. do 2 (apply keeps_bind, keeps_bind, keeps_sysz; intros ? ? ?; cbn [fst keeps mret prog_mret]).
  assert (Hm : forall x, 0 <= x mod REGION < REGION) by (intros x; by apply Z.mod_pos_bound).
  pose proof (Hm (Z.abs r)). pose proof (Hm (Z.abs r0)). case_match; apply HQ; lia.
Qed.

(** The rounds of a thread whose place holds [a]. *)
Lemma test_rounds_keeps n : forall h a b s,
  Z.of_nat (length a) = REGION -> Z.of_nat n * space REGION <= s ->
  keeps j s (Some h) a (test_rounds n h (place j) a b) (fun _ _ _ _ => True).
Proof.
  induction n as [|n IH]; intros h a b s Ha Hs; [done|]. cbn [test_rounds]. apply keeps_bind, keeps_range. intros x y Hx Hy.
  apply keeps_bind, keeps_random_bytes. intros l Hl.
  assert (Hlen : Z.of_nat (length l) = y - x) by (rewrite Hl; lia).
  set (a' := splice x l a). assert (Ha' : Z.of_nat (length a') = REGION) by (unfold a'; rewrite length_splice; lia).
  assert (Hsl : Z.of_nat (length (slice x (y - x + 1) a')) = y - x + 1) by (rewrite length_slice; lia).
  pose proof (law_space (y - x + 1) REGION ltac:(lia)) as Hsp.
  apply keeps_bind, keeps_sysz. cbn [keeps sys]. rewrite Hsl. split; [done|]. split; [lia|]. split; [lia|]. split; [lia|]. split; [nia|].
  intros bs. cbn [fst]. apply keeps_bind, keeps_report, keeps_bind. rewrite Z.eqb_refl. cbn [keeps assert].
  replace (x + place j - place j) with x by lia.
  assert (E : splice x (slice x (y - x + 1) a') a = a') by (rewrite <- Hlen; apply splice_wider; lia). rewrite E.
  apply keeps_bind, keeps_range. intros x2 y2 Hx2 Hy2. apply keeps_bind. cbn [keeps sys]. split; [done|].
  split; [lia|]. split; [lia|]. split; [lia|]. replace (x2 + place j - place j) with x2 by lia.
  apply keeps_bind, keeps_report, keeps_bind. rewrite Z.eqb_refl. cbn [keeps assert]. apply keeps_bind.
  rewrite same_read by (rewrite length_slice; lia). cbn [keeps assert]. apply IH; [done|nia].
Qed.

Lemma same_bytes_sym n a b : same_bytes n a b = same_bytes n b a.
Proof. unfold same_bytes. by apply bool_decide_ext. Qed.

Lemma test_keeps d b s :
  Z.of_nat (length d) = REGION -> i32 (j * REGION) = place j -> 11 * space REGION <= s ->
  keeps j s None d (test j b) (fun _ _ _ _ => False).
Proof.
  intros Hd Hmy Hs. unfold test. apply keeps_bind. intros r0. rewrite Hmy. apply keeps_bind, keeps_sysz. cbn [keeps sys].
  do 4 (split; [done|]). intros h bs Hh. cbn [fst]. apply keeps_bind, keeps_report, keeps_bind, keeps_random_bytes. intros a Ha.
  assert (Ea : Z.of_nat (length a) = REGION) by (rewrite Ha; done). pose proof (law_space REGION REGION ltac:(by vm_compute)) as Hsp.
  apply keeps_bind, keeps_sysz. cbn [keeps sys]. rewrite Ea. split; [done|]. split; [lia|]. split; [lia|]. split; [done|]. split; [lia|].
  intros bs'. cbn [fst]. apply keeps_bind, keeps_report, keeps_bind. rewrite Z.eqb_refl. cbn [keeps assert]. rewrite Z.sub_diag.
  assert (E : splice 0 a d = a).
  { unfold splice. rewrite take_0, drop_ge by lia. apply app_nil_r. }
  rewrite E. apply keeps_bind. cbn [keeps sys]. split; [done|]. split; [lia|]. split; [lia|]. split; [done|]. rewrite Z.sub_diag, slice_all by done.
  apply keeps_bind, keeps_report, keeps_bind. rewrite Z.eqb_refl. cbn [keeps assert]. apply keeps_bind.
  rewrite same_bytes_sym, same_read by done. cbn [keeps assert].
  apply keeps_bind, (keeps_mono _ _ (fun _ _ _ _ => True)); [done|]. apply test_rounds_keeps; [done|lia].
Qed.
End Place.

(** *** The bytes of a place *)

(** The middle of a list. *)
Lemma split_at p n (c : list byte) :
  0 <= p -> 0 <= n -> p + n <= Z.of_nat (length c) ->
  exists c1 c3, c = c1 ++ slice p n c ++ c3 /\ Z.of_nat (length c1) = p.
Proof.
  intros Hp Hn Hl. exists (take (Z.to_nat p) c), (drop (Z.to_nat n) (drop (Z.to_nat p) c)). unfold slice. rewrite take_drop.
  split; [by rewrite take_drop|]. rewrite length_take. lia.
Qed.

Lemma slice_splice_in p n off (buf c : list byte) :
  0 <= p -> p + n <= Z.of_nat (length c) -> 0 <= off - p -> off - p + Z.of_nat (length buf) <= n ->
  slice p n (splice off buf c) = splice (off - p) buf (slice p n c).
Proof.
  intros Hp Hn Ho Hb. destruct (split_at p n c) as (c1 & c3 & E & H1); [lia..|].
  pose proof (length_slice p n c ltac:(lia) ltac:(lia) ltac:(lia)) as H2. set (d := slice p n c) in *. clearbody d. rewrite E.
  destruct (split_at (off - p) (Z.of_nat (length buf)) d) as (d1 & d3 & Ed & Hd1); [lia..|].
  pose proof (length_slice (off - p) (Z.of_nat (length buf)) d ltac:(lia) ltac:(lia) ltac:(lia)) as H3. set (e := slice _ _ d) in *. clearbody e.
  rewrite Ed. rewrite (splice_mid (off - p) d1 e d3 buf) by lia.
  replace (c1 ++ (d1 ++ e ++ d3) ++ c3) with ((c1 ++ d1) ++ e ++ d3 ++ c3) by by rewrite <- !app_assoc.
  rewrite (splice_mid off (c1 ++ d1) e (d3 ++ c3) buf) by (rewrite ?length_app; lia).
  replace ((c1 ++ d1) ++ buf ++ d3 ++ c3) with (c1 ++ (d1 ++ buf ++ d3) ++ c3) by by rewrite <- !app_assoc.
  apply slice_mid; [lia|]. rewrite Ed in H2. rewrite !length_app in *. lia.
Qed.

Lemma slice_inside p n off m (c : list byte) :
  0 <= p -> p + n <= Z.of_nat (length c) -> 0 <= off - p -> 0 <= m -> off - p + m <= n ->
  slice (off - p) m (slice p n c) = slice off m c.
Proof.
  intros Hp Hn Ho Hm Hb. unfold slice. rewrite skipn_firstn_comm, drop_drop, take_take. f_equal; [lia|]. f_equal. lia.
Qed.

(** *** All threads *)

(** What a thread may still take, its descriptor and its bytes. *)
Record local : Type := mk_local { l_space : Z; l_fd : option Z; l_bytes : list byte }.

Definition total (f : local -> Z) (ls : list local) : Z := foldr (fun l z => f l + z) 0 ls.

Definition opens (l : local) : Z := match l_fd l with Some _ => 0 | None => 1 end.

Lemma total_cons f l ls : total f (l :: ls) = f l + total f ls.
Proof. done. Qed.

Lemma total_insert f ls l l' : forall i, ls !! i = Some l -> total f (<[i := l']> ls) = total f ls - f l + f l'.
Proof.
  induction ls as [|x ls IH]; intros [|i] Hi; [done|done| |]; cbn in Hi.
  - injection Hi as ->. change (<[0%nat := l']> (l :: ls)) with (l' :: ls). rewrite !total_cons. lia.
  - change (<[S i := l']> (x :: ls)) with (x :: <[i := l']> ls). rewrite !total_cons, IH by done. lia.
Qed.

Lemma total_nonneg f ls : (forall l, l ∈ ls -> 0 <= f l) -> 0 <= total f ls.
Proof.
  induction ls as [|l ls IH]; intros Hf; [done|]. rewrite total_cons. pose proof (Hf l ltac:(by constructor)).
  assert (0 <= total f ls) by (apply IH; intros x Hx; apply Hf; by constructor). lia.
Qed.

Lemma total_ge f ls l : (forall l, l ∈ ls -> 0 <= f l) -> l ∈ ls -> f l <= total f ls.
Proof.
  intros Hf Hl. apply list_elem_of_split in Hl as (l1 & l2 & ->). induction l1 as [|x l1 IH]; cbn [app]; rewrite total_cons.
  - pose proof (total_nonneg f l2 ltac:(intros x Hx; apply Hf; by constructor)). lia.
  - pose proof (Hf x ltac:(by constructor)). pose proof (IH ltac:(intros y Hy; apply Hf; by constructor)). lia.
Qed.

Record thread_ok (v : pview) (c : list byte) (j : Z) (t : prog unit) (l : local) : Prop := {
  th_keeps : keeps j (l_space l) (l_fd l) (l_bytes l) t (fun _ _ _ _ => False);
  th_bytes : l_bytes l = slice (place j) REGION c;
  th_fd : forall h, l_fd l = Some h -> exists pos, pv_fds v !! h = Some (CC, pos);
  th_space : 0 <= l_space l
}.

(** The threads [ts] share the file [c]. *)
Record sharing (k m : Z) (v : pview) (c : list byte) (ls : list local) (ts : list (prog unit)) : Prop := {
  sh_usable : usable CC;
  sh_file : pv_files v !! CC = Some c;
  sh_size : Z.of_nat (length ts) * REGION <= Z.of_nat (length c);
  sh_few : Z.of_nat (length ts) <= 100;
  sh_length : length ls = length ts;
  sh_threads : forall j t l, ts !! j = Some t -> ls !! j = Some l -> thread_ok v c (Z.of_nat j) t l;
  sh_space : total l_space ls <= k;
  sh_opens : total opens ls <= m
}.

(** One thread takes a step and changes its own part. *)
Lemma sharing_step k m v c ls ts j t l k' m' v' c' t' l' :
  sharing k m v c ls ts -> ts !! j = Some t -> ls !! j = Some l ->
  pv_files v' !! CC = Some c' -> length c' = length c ->
  (forall i, i <> j -> (i < length ts)%nat -> slice (place (Z.of_nat i)) REGION c' = slice (place (Z.of_nat i)) REGION c) ->
  (forall h p, pv_fds v !! h = Some p -> pv_fds v' !! h = Some p) ->
  thread_ok v' c' (Z.of_nat j) t' l' -> l_space l' <= l_space l + (k' - k) -> opens l' <= opens l + (m' - m) ->
  sharing k' m' v' c' (<[j := l']> ls) (<[j := t']> ts).
Proof.
  intros S Ht Hl Hf Hc Hoth Hfds Hth Hsp Hop. constructor; rewrite ?length_insert; try apply S.
  - done.
  - rewrite Hc. apply S.
  - intros i ti li Hti Hli. destruct (decide (i = j)) as [->|Hne].
    + apply lookup_lt_Some in Ht, Hl. rewrite list_lookup_insert_eq in Hti by done. rewrite list_lookup_insert_eq in Hli by done. congruence.
    + rewrite list_lookup_insert_ne in Hti by done. rewrite list_lookup_insert_ne in Hli by done. destruct (sh_threads _ _ _ _ _ _ S i ti li Hti Hli) as [H1 H2 H3 H4].
      constructor; [done| | |done].
      * rewrite Hoth; [done|done|by apply lookup_lt_Some in Hti].
      * intros h Hh. destruct (H3 h Hh) as [pos Hp]. exists pos. by apply Hfds.
  - rewrite (total_insert _ _ l) by done. pose proof (sh_space _ _ _ _ _ _ S). lia.
  - rewrite (total_insert _ _ l) by done. pose proof (sh_opens _ _ _ _ _ _ S). lia.
Qed.

(** A step that leaves the view. *)
Lemma sharing_quiet k m v c ls ts j t t' l :
  sharing k m v c ls ts -> ts !! j = Some t -> ls !! j = Some l ->
  keeps (Z.of_nat j) (l_space l) (l_fd l) (l_bytes l) t' (fun _ _ _ _ => False) -> sharing k m v c ls (<[j := t']> ts).
Proof.
  intros S Ht Hl Hk. rewrite <- (list_insert_id ls j l) by done.
  destruct (sh_threads _ _ _ _ _ _ S j t l Ht Hl) as [H1 H2 H3 H4].
  apply (sharing_step k m v c ls ts j t l); try done; [apply S|lia|lia].
Qed.

Lemma place_apart i j : i <> j -> place (Z.of_nat i) + REGION <= place (Z.of_nat j) \/ place (Z.of_nat j) + REGION <= place (Z.of_nat i).
Proof. unfold place, REGION. lia. Qed.

(** Every call of a thread leaves the threads sharing the file. *)
Lemma tstep_sharing k m v c ls ts j x f w :
  sharing k m v c ls ts -> view k m v w -> ts !! j = Some (PCall x f) ->
  exists k' m' v' c' ls', sharing k' m' v' c' ls' (<[j := f (sys_call x w).1]> ts) /\ view k' m' v' (sys_call x w).2.
Proof.
  intros S V Ht. destruct (lookup_lt_is_Some_2 ls j) as [l Hl]; [rewrite (sh_length _ _ _ _ _ _ S); by apply lookup_lt_Some in Ht|].
  destruct (sh_threads _ _ _ _ _ _ S j _ l Ht Hl) as [Hk Hb Hfd Hs]. pose proof (sh_size _ _ _ _ _ _ S) as Hsize. pose proof (sh_few _ _ _ _ _ _ S) as Hfew.
  assert (Hj : (j < length ts)%nat) by by apply lookup_lt_Some in Ht.
  assert (Hpl : 0 <= place (Z.of_nat j) /\ place (Z.of_nat j) + REGION <= Z.of_nat (length c) /\ place (Z.of_nat j) <= 3000000)
    by (unfold place, REGION in *; lia).
  assert (Hq : quiet_call x = true -> keeps (Z.of_nat j) (l_space l) (l_fd l) (l_bytes l) (f (sys_call x w).1) (fun _ _ _ _ => False) ->
    exists k' m' v' c' ls', sharing k' m' v' c' ls' (<[j := f (sys_call x w).1]> ts) /\ view k' m' v' (sys_call x w).2).
  { intros Hx Hk'. exists k, m, v, c, ls. split; [by apply (sharing_quiet _ _ _ _ _ _ _ (PCall x f) _ l)|by apply law_quiet]. }
  destruct x as [p flags mode|fd n|fd buf|fd n off|fd buf off|fd| | | |format args|ch]; cbn [keeps] in Hk; try (by apply Hq); try done.
  - destruct Hk as (-> & -> & -> & Hnone & Hk). assert (Hop : opens l = 1) by (unfold opens; by rewrite Hnone).
    assert (Hm : 1 <= m).
    { pose proof (sh_opens _ _ _ _ _ _ S). pose proof (total_ge opens ls l) as Hge. rewrite Hop in Hge.
      assert (1 <= total opens ls); [|lia]. apply Hge; [|by apply (list_elem_of_lookup_2 _ j)]. intros y _. unfold opens. case_match; lia. }
    destruct (law_open _ _ _ _ CC V (sh_usable _ _ _ _ _ _ S) Hm) as (h & bs & w' & E & Hh & Hnew & V'). rewrite E. cbn [fst snd].
    exists k, (m - 1), (v_open CC h v), c, (<[j := mk_local (l_space l) (Some h) (l_bytes l)]> ls). split; [|done].
    apply (sharing_step k m v c ls ts j _ l _ _ _ _ _ _ S Ht Hl); try done; cbn [l_space].
    + rewrite open_file. unfold before. by rewrite (sh_file _ _ _ _ _ _ S).
    + intros h' q Hh'. cbn [v_open pv_fds]. rewrite lookup_insert_ne; [done|]. intros ->. congruence.
    + constructor; cbn [l_space l_fd l_bytes]; [by apply Hk|done| |done]. intros h' [= <-]. exists 0. apply open_fd.
    + lia.
    + rewrite Hop. cbn. lia.
  - destruct Hk as (Hh & H0 & Hn & Hpos & Hk). destruct (Hfd fd Hh) as [pos Hp].
    destruct (law_pread _ _ _ _ fd CC pos c n off V Hp (sh_file _ _ _ _ _ _ S)) as (w' & E & V'); [lia|unfold REGION in *; lia|].
    rewrite E. cbn [fst snd]. exists k, m, v, c, ls. split; [|done]. apply (sharing_quiet _ _ _ _ _ _ _ (PCall (SPread fd n off) f) _ l); [done|done|done|].
    assert (Es : slice (off - place (Z.of_nat j)) n (l_bytes l) = slice off n c) by (rewrite Hb; apply slice_inside; lia).
    rewrite Es in Hk. rewrite length_slice by lia. by rewrite Z2Nat.id by lia.
  - destruct Hk as (Hh & H0 & Hn & Hpos & Hsp & Hk). destruct (Hfd fd Hh) as [pos Hp].
    assert (Hkk : l_space l <= k).
    { eapply Z.le_trans; [|apply (sh_space _ _ _ _ _ _ S)]. apply total_ge; [|by apply (list_elem_of_lookup_2 _ j)].
      intros y (i & Hi)%list_elem_of_lookup_1. destruct (lookup_lt_is_Some_2 ts i) as [ti Hti].
      { rewrite <- (sh_length _ _ _ _ _ _ S). by apply lookup_lt_Some in Hi. }
      apply (sh_threads _ _ _ _ _ _ S i ti y Hti Hi). }
    destruct (law_pwrite _ _ _ _ fd CC pos c buf off V Hp (sh_file _ _ _ _ _ _ S)) as (bs & w' & E & V'); [lia|unfold REGION in *; lia|unfold REGION in *; lia|lia|].
    rewrite E. cbn [fst snd]. set (len := Z.of_nat (length buf)) in *. set (c' := splice off buf c) in *.
    exists (k - space len), m, (v_write CC c' v), c', (<[j := mk_local (l_space l - space len) (Some fd) (splice (off - place (Z.of_nat j)) buf (l_bytes l))]> ls).
    split; [|done]. apply (sharing_step k m v c ls ts j _ l _ _ _ _ _ _ S Ht Hl); try done; cbn [l_space].
    + apply lookup_insert_eq.
    + apply length_splice; lia.
    + intros i Hi Hli. apply slice_splice_ne; [lia|lia|unfold place, REGION; lia|by vm_compute|]. pose proof (place_apart i j Hi). lia.
    + constructor; cbn [l_space l_fd l_bytes].
      * rewrite <- Hh. apply Hk.
      * rewrite Hb. unfold c'. symmetry. apply slice_splice_in; lia.
      * intros h [= <-]. by exists pos.
      * lia.
    + lia.
    + unfold opens. rewrite Hh. cbn. lia.
  - apply Hq; [done|]. pose proof (law_rand _ _ _ _ V) as Hr. destruct (sys_call SRand w) as [[r bs] w']. by apply Hk.
Qed.

(** No assertion fails, whatever the order of the calls, and no thread stops
    but where the behaviour of [test] becomes undefined. *)
Lemma threads_safe ts w ts' w' : rtc tstep (ts, w) (ts', w') -> forall k m v c ls,
  sharing k m v c ls ts -> view k m v w -> (PFail ∉ ts') /\ (nf tstep (ts', w') -> Forall (fun t => t = PUndef) ts').
Proof.
  intros Hr. remember (ts, w) as x eqn:Ex. remember (ts', w') as y eqn:Ey. revert ts w Ex. induction Hr as [x|x y z Hs Hr IH]; intros ts w -> k m v c ls S V.
  - injection Ey as <- <-. assert (Hno : forall j t, ts !! j = Some t -> t <> PFail /\ t <> PRet tt).
    { intros j t Ht. destruct (lookup_lt_is_Some_2 ls j) as [l Hl]; [rewrite (sh_length _ _ _ _ _ _ S); by apply lookup_lt_Some in Ht|].
      split; intros ->; apply (th_keeps _ _ _ _ _ (sh_threads _ _ _ _ _ _ S j _ l Ht Hl)). }
    split; [intros (j & Hj)%list_elem_of_lookup_1; by destruct (Hno j PFail Hj)|]. intros Hnf. apply Forall_lookup. intros j t Ht.
    destruct t as [[]| | |x f]; [by destruct (Hno _ _ Ht)|by destruct (Hno _ _ Ht)|done|]. destruct Hnf. eexists. by apply (tstep_call j x f).
  - inversion Hs as [j x f ts0 w0 Hj E1 E2]; subst. destruct (tstep_sharing k m v c ls ts j x f w S V Hj) as (k' & m' & v' & c' & ls' & S' & V').
    by apply (IH eq_refl _ _ eq_refl k' m' v' c' ls').
Qed.
(** ** The programs pass *)

Lemma manyfile_ok k m v w b :
  view k m v w -> (forall T, 0 <= T < 2000 -> usable (dd_name T)) -> 2000 <= m -> 2000 * space A_SIZE <= k ->
  exists w' k' m' v', run (manyfile_main b) w = (Some 0, w') /\ view k' m' v' w' /\ pv_fds v' = pv_fds v
    /\ forall T, 0 <= T < 2000 -> has_file v' (dd_name T).
Proof.
  intros V Hu Hm Hk. assert (Hok : ok k m v (manyfile_main b) (fun _ _ v' r => r = 0 /\ pv_fds v' = pv_fds v /\ forall T, 0 <= T < 2000 -> has_file v' (dd_name T))).
  { apply ok_bind, ok_quiet; [done|]. intros _ w1 V1.
    destruct (manyfile_loop_ok 2000 0 k m v b) with (w := w1) as (r & w' & k' & m' & v' & Hr & V' & -> & Hfds & Hf & _);
      [intros i Hi; apply Hu; lia|lia|lia|done|].
    exists 0, w', k', m', v'. split; [exact Hr|]. split; [exact V'|]. split; [done|]. split; [exact Hfds|]. intros T HT. apply Hf. lia. }
  destruct (Hok w V) as (r & w' & k' & m' & v' & Hr & V' & -> & Hfds & Hf). by exists w', k', m', v'.
Qed.

(** The file before the threads start. *)
Lemma multirw_main_ok k m v :
  usable CC -> 1 <= m -> space AA_SIZE <= k ->
  ok k m v multirw_main (fun k' m' v' _ => k' = k - space AA_SIZE /\ m' = m - 1
    /\ exists c, pv_files v' !! CC = Some c /\ AA_SIZE <= Z.of_nat (length c)).
Proof.
  intros Hu Hm Hk. unfold multirw_main. apply ok_bind, ok_open; [done|done|]. intros fd Hfd Hnew. apply ok_bind, ok_report, ok_bind, ok_random_bytes.
  intros aa Haa. assert (Ea : Z.of_nat (length aa) = AA_SIZE) by (rewrite Haa; apply Z2Nat.id; by vm_compute). clear Haa.
  apply ok_bind, ok_sysz, ok_call. intros w V.
  destruct (law_pwrite _ _ _ _ fd CC 0 (before CC v) aa 0 V (open_fd CC fd v) (open_file CC fd v)) as (bs & w' & E & V');
    [lia|rewrite Ea; unfold AA_SIZE; lia|lia|by rewrite Ea|].
  rewrite Ea in *. eexists _, w', _, _, _. split; [exact E|]. split; [exact V'|]. apply ok_report. split; [done|]. split; [done|].
  eexists. split; [apply lookup_insert_eq|]. unfold splice. rewrite !length_app. lia.
Qed.

Lemma total_map {A} f (g : A -> local) l z : (forall x, f (g x) = z) -> total f (map g l) = Z.of_nat (length l) * z.
Proof. intros Hz. induction l as [|x l IH]; [done|]. cbn [map length]. rewrite total_cons, IH, Hz. lia. Qed.

Lemma multirw_sharing k m v c b :
  usable CC -> pv_files v !! CC = Some c -> AA_SIZE <= Z.of_nat (length c) -> 10 <= m -> 110 * space REGION <= k ->
  sharing k m v c
    (map (fun i => mk_local (11 * space REGION) None (slice (place (Z.of_nat i)) REGION c)) (seq 0 10)) (multirw_threads b).
Proof.
  intros Hu Hc Hlen Hm Hk. pose proof (law_space REGION REGION ltac:(by vm_compute)) as Hs. constructor; unfold multirw_threads; rewrite ?length_map, ?length_seq; try done.
  - unfold REGION, AA_SIZE in *. lia.
  - intros j t l Hj Hl. rewrite list_lookup_fmap in Hj. rewrite list_lookup_fmap in Hl. apply fmap_Some in Hj as (x & Hx & ->). apply fmap_Some in Hl as (y & Hy & ->).
    apply lookup_seq in Hx as [-> Hx]. apply lookup_seq in Hy as [-> _]. cbn [Nat.add]. constructor; cbn [l_space l_fd l_bytes]; [|done|done|lia].
    apply keeps_bind, (keeps_mono _ _ (fun _ _ _ _ => False)); [done|]. apply test_keeps.
    + unfold place, REGION, AA_SIZE in *. rewrite length_slice; lia.
    + clear - Hx. unfold place. rewrite i32_small; [done|unfold REGION; lia].
    + lia.
  - rewrite (total_map _ _ _ (11 * space REGION)) by done. rewrite length_seq. lia.
Qed.

Lemma multirw_ok k m v w b :
  view k m v w -> usable CC -> 11 <= m -> space AA_SIZE + 110 * space REGION <= k ->
  exists w1, run multirw_main w = (Some tt, w1) /\ sn tstep (multirw_threads b, w1)
    /\ forall ts w2, rtc tstep (multirw_threads b, w1) (ts, w2) ->
         (PFail ∉ ts) /\ (nf tstep (ts, w2) -> Forall (fun t => t = PUndef) ts).
Proof.
  intros V Hu Hm Hk. pose proof (law_space REGION REGION ltac:(by vm_compute)) as Hs.
  destruct (multirw_main_ok k m v Hu) with (w := w) as ([] & w1 & k1 & m1 & v1 & Hr & V1 & -> & -> & c & Hc & Hlen); [lia|lia|done|].
  exists w1. split; [exact Hr|]. split; [apply tstep_ends|]. intros ts w2 Hts.
  apply (threads_safe _ _ _ _ Hts _ _ _ _ _ (multirw_sharing (k - space AA_SIZE) (m - 1) v1 c b Hu Hc Hlen ltac:(lia) ltac:(lia)) V1).
Qed.
End Laws.
