(* ===== verification/TestRuns.v ===== *)
(** * The test programs on the file system

    The interface of [TestPrograms] is implemented by the handlers: a small
    kernel keeps descriptors, positions and sizes and passes the calls on to
    the handlers of the table of [main].  It obeys the laws that the programs
    rely on because the handlers refine the abstract file system; so the
    programs pass on a file system that was mounted on an empty disk. *)

From stdpp Require Import strings pretty.
From S2P Require Import Prelude Layout Disk PathName Block BlockGroup BlockCache DentryCache DentryTree.
From S2P Require Import FileSystem FileStatus OpenFiles FileData FileWrite FileIO FsMount Handlers Entry.
From S2P Require Import DirBlock Directory PathLookup PathCreate AbstractFs OpenTree SessionIO SessionOpen SessionMake Sessions.
From S2P Require Import NumberIO TestPrograms.

Open Scope Z_scope.

(** ** A kernel *)

Record kernel : Type := mk_kernel {
  kn_fs : OpSt;
  kn_fds : gmap positive (list byte * Z);
  kn_size : gmap (list byte) Z;
  kn_seed : Z;
  kn_out : list (string * list Z)
}.

Definition MOUNT_POINT : list byte := text "test/".

(** The name below the mount point. *)
Definition strip (p : list byte) : option (list byte) :=
  if bool_decide (take 5 p = MOUNT_POINT) then Some (drop 5 p) else None.

Section Kernel.
Context {clock : Clock} {caller : Caller}.

Definition on_handler {A} (m : M OpSt A) (w : kernel) : option (A * kernel) :=
  match m (kn_fs w) with
  | Ret a s => Some (a, mk_kernel s (kn_fds w) (kn_size w) (kn_seed w) (kn_out w))
  | Fault _ => None
  end.

Definition register (fh : option positive) (p : list byte) (size : Z) (w : kernel) : option (reply * kernel) :=
  h ← fh;
  Some ((Z.pos h, []), mk_kernel (kn_fs w) (<[h := (p, 0)]> (kn_fds w)) (<[p := size]> (kn_size w)) (kn_seed w) (kn_out w)).

Definition k_open (p : list byte) (flags mode : Z) (w : kernel) : option (reply * kernel) :=
  name ← strip p;
  '((e, st), w) ← on_handler (f_getattr ops (path_string [name]) true) w;
  match st with
  | Some st =>
      '((e, fh), w) ← on_handler (f_open ops (path_string [name]) (Z.land flags (Z.lnot O_CREAT))) w;
      register fh p (st_size st) w
  | None =>
      '((e, fh), w) ← on_handler (f_create ops (path_string [name]) (Z.lor S_IFREG mode)) w;
      register fh p 0 w
  end.

Definition handle_of (fd : Z) : option positive := match fd with Z.pos h => Some h | _ => None end.

Definition k_write (fd : Z) (buf : list byte) (off : Z) (w : kernel) : option (reply * kernel) :=
  h ← handle_of fd;
  '(p, _) ← kn_fds w !! h;
  '(e, w) ← on_handler (f_write ops buf (Z.of_nat (length buf)) off (file_info (Some h) O_RDWR)) w;
  let size := Z.max (default 0 (kn_size w !! p)) (off + e) in
  Some ((e, []), mk_kernel (kn_fs w) (kn_fds w) (<[p := size]> (kn_size w)) (kn_seed w) (kn_out w)).

(** Nothing is asked of the file system behind the size of the file. *)
Definition k_read (fd n off : Z) (w : kernel) : option (reply * kernel) :=
  h ← handle_of fd;
  '(p, _) ← kn_fds w !! h;
  let n := Z.min n (default 0 (kn_size w !! p) - off) in
  if n <=? 0 then Some ((0, []), w)
  else
    '((e, bs), w) ← on_handler (f_read ops n off (file_info (Some h) O_RDWR)) w;
    Some ((e, bs), w).

Definition k_close (fd : Z) (w : kernel) : option (reply * kernel) :=
  h ← handle_of fd;
  '(e, w) ← on_handler (f_release ops (file_info (Some h) 0)) w;
  Some ((e, []), mk_kernel (kn_fs w) (delete h (kn_fds w)) (kn_size w) (kn_seed w) (kn_out w)).

Definition k_pos (fd : Z) (w : kernel) : option (list byte * Z) := handle_of fd ≫= fun h => kn_fds w !! h.

(** The call at the position of the descriptor, which moves. *)
Definition at_pos (fd : Z) (call : Z -> kernel -> option (reply * kernel)) (w : kernel) : option (reply * kernel) :=
  h ← handle_of fd;
  '(p, pos) ← kn_fds w !! h;
  '((e, bs), w) ← call pos w;
  Some ((e, bs), mk_kernel (kn_fs w) (<[h := (p, pos + e)]> (kn_fds w)) (kn_size w) (kn_seed w) (kn_out w)).

Definition k_call (c : syscall) (w : kernel) : option (reply * kernel) :=
  match c with
  | SOpen p flags mode => k_open p flags mode w
  | SRead fd n => at_pos fd (k_read fd n) w
  | SWrite fd buf => at_pos fd (k_write fd buf) w
  | SPread fd n off => k_read fd n off w
  | SPwrite fd buf off => k_write fd buf off w
  | SClose fd => k_close fd w
  | SErrno | SSrand => Some ((0, []), w)
  | SRand =>
      let seed := (kn_seed w * 1103515245 + 12345) mod 2 ^ 31 in
      Some ((seed, []), mk_kernel (kn_fs w) (kn_fds w) (kn_size w) seed (kn_out w))
  | SPrintf format args => Some ((0, []), mk_kernel (kn_fs w) (kn_fds w) (kn_size w) (kn_seed w) ((format, args) :: kn_out w))
  | SPutchar c => Some ((0, []), mk_kernel (kn_fs w) (kn_fds w) (kn_size w) (kn_seed w) (("%c"%string, [byte.unsigned c]) :: kn_out w))
  end.

(** A call that cannot be passed on answers -1. *)
#[local] Instance naive_posix : Posix kernel := fun c w => default ((-1, []), w) (k_call c w).

(** ** What the programs see *)

Definition usable_path (p : list byte) : Prop := exists name, strip p = Some name /\ plain name /\ path_name name.

(** The descriptors and files of [v] are the handles and the files of the root
    directory; every file may be read and written. *)
Record shown (A : afs) (M : gmap (list byte) Z) (m : Z) (v : pview) (w : kernel) : Prop := {
  sn_root : a_dirs A !! ROOT_INODE = Some M;
  sn_files : forall p, pv_files v !! p = strip p ≫= fun name => M !! name ≫= fun i => a_data A !! i;
  sn_fds : forall fd, pv_fds v !! fd = handle_of fd ≫= fun h => kn_fds w !! h;
  sn_reg : forall name i, M !! name = Some i -> is_Some (a_data A !! i);
  sn_may : forall name i, M !! name = Some i -> exists o, a_owner A !! i = Some o /\ may o true true false = true;
  sn_inj : forall n1 n2 i, M !! n1 = Some i -> M !! n2 = Some i -> n1 = n2;
  sn_open : forall h p pos, kn_fds w !! h = Some (p, pos) ->
    exists name i c, strip p = Some name /\ M !! name = Some i /\ a_open A !! h = Some i /\ a_data A !! i = Some c
      /\ kn_size w !! p = Some (Z.of_nat (length c));
  sn_room : Z.of_nat (size (a_open A)) + m + 1 < MAX_HANDLES
}.

Definition naive_view (k m : Z) (v : pview) (w : kernel) : Prop :=
  exists A M, rep (kn_fs w) A k m /\ shown A M m v w.

(** *** Paths *)

Lemma strip_some p name : strip p = Some name -> p = MOUNT_POINT ++ name.
Proof. unfold strip. case_bool_decide as E; [|done]. intros [= <-]. by rewrite <- E, take_drop. Qed.

Lemma strip_inj p q name : strip p = Some name -> strip q = Some name -> p = q.
Proof. intros H1%strip_some H2%strip_some. congruence. Qed.

Lemma usable_pre A M p name :
  a_dirs A !! ROOT_INODE = Some M -> strip p = Some name -> usable_path p ->
  plain name /\ path_name name /\ path_pre (a_dirs A) [] /\ path_pre (a_dirs A) [name].
Proof.
  intros HM Hs (name' & Hs' & Hp & Hn). assert (name' = name) as -> by congruence. do 2 (split; [done|]). split; [apply root_path|].
  split; [by constructor|]. split; [by constructor|]. intros pre x q E. apply (app_inj_tail [] pre) in E as [<- _]. cbn [walk].
  intros [= <-]. by eexists.
Qed.

Lemma walk_name A M name :
  a_dirs A !! ROOT_INODE = Some M ->
  walk (a_dirs A) ROOT_INODE [name] = match M !! name with Some i => inr i | None => inl FS_NOT_FOUND end.
Proof. intros HM. cbn [walk]. unfold edge, missing. rewrite HM. cbn [mbind option_bind]. by destruct (M !! name). Qed.

(** *** Steps of the view *)

Definition with_fds (fds : gmap positive (list byte * Z)) (sizes : gmap (list byte) Z) (s : OpSt) (w : kernel) : kernel :=
  mk_kernel s fds sizes (kn_seed w) (kn_out w).

(** A new file in the root directory. *)
Lemma shown_enter A M m v w p name j o :
  shown A M m v w -> strip p = Some name -> M !! name = None -> ~ in_tree (a_dirs A) j -> may o true true false = true ->
  shown (a_enter ROOT_INODE M name j false o A) (<[name := j]> M) m (mk_pview (<[p := []]> (pv_files v)) (pv_fds v)) w.
Proof.
  intros S Hp Hn Hj Ho. assert (Hfresh : forall n i, M !! n = Some i -> i <> j).
  { intros n i Hi ->. apply Hj. right. exists ROOT_INODE, n. unfold edge. by rewrite (sn_root _ _ _ _ _ S). }
  constructor; cbn [a_enter a_dirs a_data a_owner a_open pv_files pv_fds].
  - cbn [add_entry]. apply lookup_insert_eq.
  - intros q. destruct (decide (q = p)) as [->|Hne].
    + rewrite lookup_insert_eq, Hp. cbn. rewrite lookup_insert_eq. cbn. by rewrite lookup_insert_eq.
    + rewrite lookup_insert_ne by done. rewrite (sn_files _ _ _ _ _ S). destruct (strip q) as [x|] eqn:Hx; [|done]. cbn.
      rewrite lookup_insert_ne; [|intros ->; apply Hne; by apply (strip_inj _ _ x)]. destruct (M !! x) as [i|] eqn:Hi; [|done]. cbn.
      rewrite lookup_insert_ne; [done|]. symmetry. by apply (Hfresh x).
  - apply S.
  - intros n i [[<- <-]|[Hne Hi]]%lookup_insert_Some; [rewrite lookup_insert_eq; by eexists|].
    rewrite lookup_insert_ne by (symmetry; by apply (Hfresh n)). by apply (sn_reg _ _ _ _ _ S n).
  - intros n i [[<- <-]|[Hne Hi]]%lookup_insert_Some; [rewrite lookup_insert_eq; by eexists|].
    rewrite lookup_insert_ne by (symmetry; by apply (Hfresh n)). by apply (sn_may _ _ _ _ _ S n).
  - intros n1 n2 i [[<- <-]|[Hne1 H1]]%lookup_insert_Some [[<- E]|[Hne2 H2]]%lookup_insert_Some; [done| | |].
    + by destruct (Hfresh n2 j H2).
    + subst i. by destruct (Hfresh n1 j H1).
    + by apply (sn_inj _ _ _ _ _ S n1 n2 i).
  - intros h q pos Hq. destruct (sn_open _ _ _ _ _ S h q pos Hq) as (x & i & c & Hx & Hi & Hh & Hc & Hs). exists x, i, c.
    split; [done|]. split; [rewrite lookup_insert_ne; [done|congruence]|]. split; [done|]. split; [|done].
    rewrite lookup_insert_ne; [done|]. symmetry. by apply (Hfresh x).
  - apply S.
Qed.

(** A new handle. *)
Lemma shown_open A M m v w s p name i c :
  shown A M m v w -> 1 <= m -> strip p = Some name -> M !! name = Some i -> a_data A !! i = Some c -> a_open A !! a_next A = None ->
  shown (a_opens i A) M (m - 1) (v_open p (Z.pos (a_next A)) v)
    (with_fds (<[a_next A := (p, 0)]> (kn_fds w)) (<[p := Z.of_nat (length c)]> (kn_size w)) s w).
Proof.
  intros S Hm Hp Hi Hc Hnew. assert (Hf : pv_files v !! p = Some c) by (rewrite (sn_files _ _ _ _ _ S), Hp; cbn; rewrite Hi; done).
  constructor; cbn [a_opens a_dirs a_data a_owner a_open with_fds kn_fds kn_size]; try apply S.
  - intros q. unfold v_open. cbn [pv_files]. rewrite Hf. apply S.
  - intros fd. unfold v_open. cbn [pv_fds]. destruct (decide (fd = Z.pos (a_next A))) as [->|Hne].
    + rewrite lookup_insert_eq. cbn. by rewrite lookup_insert_eq.
    + rewrite lookup_insert_ne by done. rewrite (sn_fds _ _ _ _ _ S). destruct fd as [|h|h]; [done| |done]. cbn.
      rewrite lookup_insert_ne; [done|congruence].
  - intros h q pos [[<- [= <- <-]]|[Hne Hq]]%lookup_insert_Some.
    + exists name, i, c. rewrite !lookup_insert_eq. done.
    + destruct (sn_open _ _ _ _ _ S h q pos Hq) as (x & i' & c' & Hx & Hi' & Hh & Hc' & Hs). exists x, i', c'.
      rewrite (lookup_insert_ne (a_open A)) by done. do 4 (split; [done|]). destruct (decide (q = p)) as [->|Hqp].
      * rewrite lookup_insert_eq. congruence.
      * by rewrite lookup_insert_ne.
  - rewrite map_size_insert_None by done. pose proof (sn_room _ _ _ _ _ S). lia.
Qed.

(** Other contents. *)
Lemma shown_write A M m v w s p name i c c' :
  shown A M m v w -> strip p = Some name -> M !! name = Some i -> a_data A !! i = Some c ->
  shown (a_writes i c' A) M m (v_write p c' v) (with_fds (kn_fds w) (<[p := Z.of_nat (length c')]> (kn_size w)) s w).
Proof.
  intros S Hp Hi Hc. assert (Hoth : forall x j, M !! x = Some j -> x <> name -> i <> j).
  { intros x j Hj Hne ->. apply Hne. by apply (sn_inj _ _ _ _ _ S x name j). }
  constructor; cbn [a_writes a_dirs a_data a_owner a_open with_fds kn_fds kn_size v_write pv_files pv_fds]; try apply S.
  - intros q. destruct (decide (q = p)) as [->|Hne].
    + rewrite lookup_insert_eq, Hp. cbn. rewrite Hi. cbn. by rewrite lookup_insert_eq.
    + rewrite lookup_insert_ne by done. rewrite (sn_files _ _ _ _ _ S). destruct (strip q) as [x|] eqn:Hx; [|done]. cbn.
      destruct (M !! x) as [j|] eqn:Hj; [|done]. cbn. rewrite lookup_insert_ne; [done|]. apply (Hoth x); [done|].
      intros ->. apply Hne. by apply (strip_inj _ _ name).
  - intros x j Hj. destruct (decide (j = i)) as [->|Hne]; [rewrite lookup_insert_eq; by eexists|].
    rewrite lookup_insert_ne by done. by apply (sn_reg _ _ _ _ _ S x).
  - intros h q pos Hq. destruct (sn_open _ _ _ _ _ S h q pos Hq) as (x & j & d & Hx & Hj & Hh & Hd & Hs).
    destruct (decide (q = p)) as [->|Hne].
    + assert (x = name) as -> by congruence. assert (j = i) as -> by congruence. exists name, i, c'. by rewrite !lookup_insert_eq.
    + exists x, j, d. rewrite !lookup_insert_ne; [done|done|]. apply (Hoth x); [done|]. intros ->. apply Hne. by apply (strip_inj _ _ name).
Qed.

Lemma shown_seek A M m v w s h p pos pos' :
  shown A M m v w -> kn_fds w !! h = Some (p, pos) ->
  shown A M m (v_seek (Z.pos h) p pos' v) (with_fds (<[h := (p, pos')]> (kn_fds w)) (kn_size w) s w).
Proof.
  intros S Hh. constructor; cbn [with_fds kn_fds kn_size v_seek pv_files pv_fds]; try apply S.
  - intros fd. destruct (decide (fd = Z.pos h)) as [->|Hne]; [rewrite lookup_insert_eq; cbn; by rewrite lookup_insert_eq|].
    rewrite lookup_insert_ne by done. rewrite (sn_fds _ _ _ _ _ S). destruct fd as [|q|q]; [done| |done]. cbn. rewrite lookup_insert_ne; [done|congruence].
  - intros q p' pos2 [[<- [= <- <-]]|[Hne Hq]]%lookup_insert_Some; by eapply (sn_open _ _ _ _ _ S).
Qed.

Lemma shown_close A M m v w s h :
  shown A M m v w -> is_Some (a_open A !! h) ->
  shown (a_closes h A) M m (v_close (Z.pos h) v) (with_fds (delete h (kn_fds w)) (kn_size w) s w).
Proof.
  intros S Hh. constructor; cbn [a_closes a_dirs a_data a_owner a_open with_fds kn_fds kn_size v_close pv_files pv_fds]; try apply S.
  - intros fd. destruct (decide (fd = Z.pos h)) as [->|Hne]; [rewrite lookup_delete_eq; cbn; by rewrite lookup_delete_eq|].
    rewrite lookup_delete_ne by done. rewrite (sn_fds _ _ _ _ _ S). destruct fd as [|q|q]; [done| |done]. cbn. rewrite lookup_delete_ne; [done|congruence].
  - intros q p pos [Hne Hq]%lookup_delete_Some. destruct (sn_open _ _ _ _ _ S q p pos Hq) as (x & j & d & Hx & Hj & Hq' & Hd & Hs).
    exists x, j, d. by rewrite lookup_delete_ne.
  - pose proof (sn_room _ _ _ _ _ S). rewrite map_size_delete_Some by done. lia.
Qed.

(** The rest of the kernel does not matter. *)
Lemma shown_same A M m v w w' : shown A M m v w -> kn_fds w' = kn_fds w -> kn_size w' = kn_size w -> shown A M m v w'.
Proof. intros [H1 H2 H3 H4 H5 H6 H7 H8] E1 E2. constructor; rewrite ?E1, ?E2; done. Qed.

(** *** The laws *)

Hypothesis Hcaller : 0 <= c_uid < 2 ^ 16.

Lemma on_handler_eq {A} (m : M OpSt A) w a s : m (kn_fs w) = Ret a s -> on_handler m w = Some (a, with_fds (kn_fds w) (kn_size w) s w).
Proof. intros E. unfold on_handler. by rewrite E. Qed.

Lemma next_free s A k m : rep s A k m -> a_open A !! a_next A = None.
Proof.
  intros R. destruct (a_open A !! a_next A) as [i|] eqn:E; [|done]. rewrite (rp_open _ _ _ _ R) in E. apply fmap_Some in E as (f & Hf & _).
  pose proof (rp_fresh _ _ _ _ R (a_next A) ltac:(by eexists)) as Hlt. rewrite (rp_next _ _ _ _ R) in Hlt. lia.
Qed.

Lemma create_mode : Z.lor S_IFREG USER_RW = 0x8180 /\ S_ISREG 0x8180 = true.
Proof. by vm_compute. Qed.

Lemma owned_may : may (owned 0x8180) true true false = true.
Proof.
  unfold may, owned, _check_permission. rewrite (u16_small c_uid) by lia. destruct (c_uid =? 0); [done|].
  rewrite Z.eqb_refl. by destruct (c_gid =? u16 c_gid).
Qed.

Lemma naive_open k m v w p :
  naive_view k m v w -> usable_path p -> 1 <= m ->
  exists fd bs w', sys_call (SOpen p RDWR_CREAT USER_RW) w = ((fd, bs), w') /\ 0 < fd /\ pv_fds v !! fd = None
    /\ naive_view k (m - 1) (v_open p fd v) w'.
Proof.
  intros (A & M & R & S) Hu Hm. assert (Hs : exists name, strip p = Some name) by (destruct Hu as (x & Hx & _); by exists x).
  destruct Hs as [name Hs]. destruct (usable_pre A M p name (sn_root _ _ _ _ _ S) Hs Hu) as (Hpl & Hpn & Hroot & Hpre).
  destruct (getattr_ok (kn_fs w) A k m [name] R Hpre) as (e & st & s1 & Hg & R1 & Hspec). cbn [spec_call] in Hspec.
  rewrite (walk_name A M name (sn_root _ _ _ _ _ S)) in Hspec. pose proof (sn_room _ _ _ _ _ S) as Hroom.
  assert (Hmore : handles_pre A) by (unfold handles_pre; lia).
  set (w1 := with_fds (kn_fds w) (kn_size w) s1 w).
  assert (Hnone : forall A1 h, shown A1 M m v w -> a_open A1 !! h = None -> pv_fds v !! Z.pos h = None).
  { intros A1 h S1 Hh. rewrite (sn_fds _ _ _ _ _ S1). cbn. destruct (kn_fds w !! h) as [[q pos]|] eqn:E; [|done].
    destruct (sn_open _ _ _ _ _ S1 h q pos E) as (x & i & c & _ & _ & Hh' & _). congruence. }
  unfold sys_call, naive_posix. cbn [k_call]. unfold k_open. rewrite Hs. cbn [mbind option_bind ops f_getattr f_open f_create].
  rewrite (on_handler_eq _ _ _ _ Hg). fold w1. cbn [mbind option_bind]. destruct (M !! name) as [i|] eqn:Hi.
  - destruct Hspec as (st' & [= -> ->] & _ & _ & _ & Hsize). destruct (sn_reg _ _ _ _ _ S name i Hi) as [c Hc].
    destruct (open_ok s1 A k m [name] (Z.land RDWR_CREAT (Z.lnot O_CREAT)) R1 Hpre Hmore) as (e & fh & s2 & A2 & Ho & R2 & Hsp).
    { intros i' Hi'. rewrite (walk_name A M name (sn_root _ _ _ _ _ S)), Hi in Hi'. injection Hi' as <-. by eexists. }
    cbn [spec_call] in Hsp. rewrite (walk_name A M name (sn_root _ _ _ _ _ S)), Hi in Hsp. destruct Hsp as (o & Hown & Hsp).
    destruct (sn_may _ _ _ _ _ S name i Hi) as (o' & Ho' & Hmay). assert (o' = o) as -> by congruence.
    change (asks_read (Z.land RDWR_CREAT (Z.lnot O_CREAT))) with true in Hsp. change (asks_write (Z.land RDWR_CREAT (Z.lnot O_CREAT))) with true in Hsp.
    rewrite Hmay in Hsp. destruct Hsp as [[= -> ->] ->]. rewrite (on_handler_eq _ w1 _ _ Ho). cbn [mbind option_bind register default].
    eexists _, _, _. split; [reflexivity|]. split; [lia|]. pose proof (next_free _ _ _ _ R1) as Hnew. split; [by apply (Hnone A)|].
    exists (a_opens i A), M. split; [by apply (rep_less _ _ _ m); [|lia]|]. rewrite (Hsize c Hc). cbn [with_fds kn_fds kn_size kn_fs].
    by apply (shown_open A M m v w s2 p name i c).
  - destruct Hspec as [[= -> ->] _]. destruct create_mode as [-> Hreg].
    destruct (create_ok s1 A k m [] name 0x8180 R1 Hm) as (e & fh & s2 & A2 & Ho & R2 & Hsp); [split; [exact Hroot|]; do 2 (split; [done|]); split; [by vm_compute|done]|].
    cbn [spec_call] in Hsp. rewrite (place_in_root _ M) in Hsp; [|apply S|done]. destruct Hsp as (j & Hj & [= -> ->] & ->).
    cbn [app] in Ho. rewrite (on_handler_eq _ w1 _ _ Ho). cbn [mbind option_bind register default].
    eexists _, _, _. split; [reflexivity|]. split; [lia|]. pose proof (next_free _ _ _ _ R1) as Hnew. split; [by apply (Hnone A)|].
    exists (a_opens j (a_enter ROOT_INODE M name j false (owned 0x8180) A)), (<[name := j]> M). split; [done|]. cbn [with_fds kn_fds kn_size kn_fs].
    set (v1 := mk_pview (<[p := []]> (pv_files v)) (pv_fds v)).
    assert (Ev : v_open p (Z.pos (a_next A)) v = v_open p (Z.pos (a_next A)) v1).
    { unfold v_open, v1. cbn [pv_files pv_fds]. rewrite lookup_insert_eq, (sn_files _ _ _ _ _ S p), Hs. cbn. by rewrite Hi. }
    rewrite Ev. apply (shown_open (a_enter ROOT_INODE M name j false (owned 0x8180) A) (<[name := j]> M) m v1 w s2 p name j []); [|done|done| | |].
    + apply shown_enter; try done. apply owned_may.
    + apply lookup_insert_eq.
    + apply lookup_insert_eq.
    + exact Hnew.
Qed.

(** The file behind a descriptor. *)
Lemma shown_fd A M m v w fd p pos c :
  shown A M m v w -> pv_fds v !! fd = Some (p, pos) -> pv_files v !! p = Some c ->
  exists h name i, fd = Z.pos h /\ kn_fds w !! h = Some (p, pos) /\ strip p = Some name /\ M !! name = Some i
    /\ a_open A !! h = Some i /\ a_data A !! i = Some c /\ kn_size w !! p = Some (Z.of_nat (length c)).
Proof.
  intros S Hfd Hc. rewrite (sn_fds _ _ _ _ _ S) in Hfd. destruct fd as [|h|h]; [done| |done]. cbn in Hfd.
  destruct (sn_open _ _ _ _ _ S h p pos Hfd) as (name & i & c' & Hs & Hi & Hh & Hc' & Hsz).
  rewrite (sn_files _ _ _ _ _ S), Hs in Hc. cbn in Hc. rewrite Hi in Hc. cbn in Hc. assert (c' = c) as -> by congruence. by exists h, name, i.
Qed.

Lemma length_over off (buf c : list byte) :
  0 <= off <= Z.of_nat (length c) ->
  Z.of_nat (length (splice off buf c)) = Z.max (Z.of_nat (length c)) (off + Z.of_nat (length buf)).
Proof. intros Hoff. unfold splice. rewrite !length_app, length_take, length_drop. lia. Qed.

Lemma k_write_ok k m v w fd p pos c buf off :
  naive_view k m v w -> pv_fds v !! fd = Some (p, pos) -> pv_files v !! p = Some c ->
  0 <= off <= Z.of_nat (length c) -> 0 < Z.of_nat (length buf) < 2 ^ 31 -> off < 2 ^ 30 -> cost (Z.of_nat (length buf)) <= k ->
  exists w', k_write fd buf off w = Some ((Z.of_nat (length buf), []), w') /\ kn_fds w' = kn_fds w
    /\ naive_view (k - cost (Z.of_nat (length buf))) m (v_write p (splice off buf c) v) w'.
Proof.
  intros (A & M & R & S) Hfd Hc Hoff Hlen Hbig Hk. destruct (shown_fd _ _ _ _ _ _ _ _ _ S Hfd Hc) as (h & name & i & -> & Hh & Hs & Hi & Ho & Hd & Hsz).
  assert (Hp : write_pos O_RDWR off c = off) by done.
  destruct (SessionIO.write_ok (kn_fs w) A k m h O_RDWR buf off i c R Ho Hd) as (s' & Hw & R'); rewrite ?Hp; try done.
  { change BLOCK_SIZE with 4096. lia. }
  rewrite Hp in R'. unfold k_write. cbn [handle_of mbind option_bind ops f_write]. rewrite Hh. cbn [mbind option_bind].
  rewrite (on_handler_eq _ _ _ _ Hw). cbn [mbind option_bind with_fds kn_size kn_fds kn_fs]. rewrite Hsz. cbn [from_option id]. cbv zeta.
  rewrite <- length_over by done. eexists. split; [reflexivity|]. split; [done|].
  exists (a_writes i (splice off buf c) A), M. split; [exact R'|]. by apply (shown_write A M m v w s' p name i c).
Qed.

Lemma k_read_ok k m v w fd p pos c n off :
  naive_view k m v w -> pv_fds v !! fd = Some (p, pos) -> pv_files v !! p = Some c -> 0 <= off -> 0 <= n < 2 ^ 31 ->
  exists w', k_read fd n off w = Some ((Z.of_nat (length (slice off n c)), slice off n c), w') /\ kn_fds w' = kn_fds w
    /\ naive_view k m v w'.
Proof.
  intros (A & M & R & S) Hfd Hc Hoff Hn. destruct (shown_fd _ _ _ _ _ _ _ _ _ S Hfd Hc) as (h & name & i & -> & Hh & Hs & Hi & Ho & Hd & Hsz).
  unfold k_read. cbn [handle_of mbind option_bind ops f_read]. rewrite Hh. cbn [mbind option_bind]. rewrite Hsz. cbn [from_option id]. cbv zeta.
  set (n' := Z.min n (Z.of_nat (length c) - off)). destruct (Z.leb_spec n' 0) as [Hle|Hgt].
  - assert (E : slice off n c = []).
    { apply length_zero_iff_nil. unfold slice. rewrite length_take, length_drop. lia. }
    rewrite E. exists w. split; [done|]. split; [done|]. by exists A, M.
  - assert (E : slice off n c = slice off n' c /\ Z.of_nat (length (slice off n' c)) = n').
    { split; [|rewrite length_slice; lia]. unfold slice. destruct (Z.le_ge_cases n (Z.of_nat (length c) - off)) as [H|H].
      - by replace n' with n by lia.
      - by rewrite !take_ge by (rewrite length_drop; lia). }
    destruct E as [E El]. destruct (read_ok (kn_fs w) A k m h O_RDWR n' off i c R Ho Hd) as (bs & s' & Hr & Hl & Hb & R'); [done|lia|lia|].
    assert (Hrl : read_len (Z.of_nat (length c)) off n' = n').
    { unfold read_len. destruct (Z.leb_spec (Z.of_nat (length c)) off) as [?|?]; [lia|]. lia. }
    rewrite Hrl in *. rewrite take_ge in Hb by lia. subst bs. rewrite (on_handler_eq _ _ _ _ Hr). cbn [mbind option_bind].
    rewrite E, El. eexists. split; [reflexivity|]. split; [done|]. exists A, M. split; [exact R'|]. by apply (shown_same _ _ _ _ w).
Qed.

(** A call at the position of the descriptor. *)
Lemma at_pos_ok k m v v' k' w fd p pos call e bs w1 :
  naive_view k m v w -> pv_fds v !! fd = Some (p, pos) -> call pos w = Some ((e, bs), w1) -> kn_fds w1 = kn_fds w -> naive_view k' m v' w1 ->
  exists w', at_pos fd call w = Some ((e, bs), w') /\ naive_view k' m (v_seek fd p (pos + e) v') w'.
Proof.
  intros (A & M & R & S) Hfd Hcall Hsame (A1 & M1 & R1 & S1). rewrite (sn_fds _ _ _ _ _ S) in Hfd. destruct fd as [|h|h]; [done| |done]. cbn in Hfd.
  unfold at_pos. cbn [handle_of mbind option_bind]. rewrite Hfd. cbn [mbind option_bind]. rewrite Hcall. cbn [mbind option_bind].
  eexists. split; [reflexivity|]. exists A1, M1. split; [exact R1|]. apply (shown_seek A1 M1 m v' w1 (kn_fs w1) h p pos); [done|by rewrite Hsame].
Qed.

Lemma naive_close k m v w fd p pos :
  naive_view k m v w -> pv_fds v !! fd = Some (p, pos) -> exists r w', sys_call (SClose fd) w = (r, w') /\ naive_view k m (v_close fd v) w'.
Proof.
  intros (A & M & R & S) Hfd. rewrite (sn_fds _ _ _ _ _ S) in Hfd. destruct fd as [|h|h]; [done| |done]. cbn in Hfd.
  destruct (sn_open _ _ _ _ _ S h p pos Hfd) as (name & i & c & _ & _ & Hh & _).
  destruct (release_ok (kn_fs w) A k m h R) as (s' & Hr & R'); [by eexists|]. unfold sys_call, naive_posix. cbn [k_call]. unfold k_close.
  cbn [handle_of mbind option_bind ops f_release]. rewrite (on_handler_eq _ _ _ _ Hr). cbn [mbind option_bind default].
  eexists _, _. split; [reflexivity|]. exists (a_closes h A), M. split; [exact R'|]. apply (shown_close A M m v w s' h S). by eexists.
Qed.

Lemma naive_quiet k m v w c : naive_view k m v w -> quiet_call c = true -> naive_view k m v (sys_call c w).2.
Proof.
  intros (A & M & R & S) Hc. exists A, M. destruct c; try discriminate Hc; (split; [exact R|apply (shown_same _ _ _ _ w _ S); reflexivity]).
Qed.

Lemma cost_mono n n' : 0 <= n <= n' -> 0 <= cost n <= cost n'.
Proof.
  intros Hn. unfold cost. pose proof (Z.div_pos n BLOCK_SIZE ltac:(lia) ltac:(done)). pose proof (Z.div_le_mono n n' BLOCK_SIZE ltac:(done) ltac:(lia)). lia.
Qed.

#[local] Instance naive_laws : PosixLaws kernel usable_path cost naive_view.
Proof.
  constructor.
  - apply naive_open.
  - intros k m v w fd p pos c buf off V Hfd Hc Hoff Hlen Hbig Hk.
    destruct (k_write_ok k m v w fd p pos c buf off V Hfd Hc Hoff Hlen Hbig Hk) as (w' & E & _ & V'). exists [], w'.
    split; [|done]. unfold sys_call, naive_posix. cbn [k_call]. by rewrite E.
  - intros k m v w fd p pos c buf V Hfd Hc Hpos Hlen Hbig Hk.
    destruct (k_write_ok k m v w fd p pos c buf pos V Hfd Hc Hpos Hlen Hbig Hk) as (w1 & E & Hs & V1).
    destruct (at_pos_ok k m v _ _ w fd p pos (k_write fd buf) _ _ w1 V Hfd E Hs V1) as (w' & E' & V'). exists [], w'.
    split; [|exact V']. unfold sys_call, naive_posix. cbn [k_call]. by rewrite E'.
  - intros k m v w fd p pos c n off V Hfd Hc Hoff Hn. destruct (k_read_ok k m v w fd p pos c n off V Hfd Hc Hoff Hn) as (w' & E & _ & V').
    exists w'. split; [|done]. unfold sys_call, naive_posix. cbn [k_call]. by rewrite E.
  - intros k m v w fd p pos c n V Hfd Hc Hpos Hn. destruct (k_read_ok k m v w fd p pos c n pos V Hfd Hc Hpos Hn) as (w1 & E & Hs & V1).
    destruct (at_pos_ok k m v _ _ w fd p pos (k_read fd n) _ _ w1 V Hfd E Hs V1) as (w' & E' & V'). exists w'.
    split; [|exact V']. unfold sys_call, naive_posix. cbn [k_call]. by rewrite E'.
  - apply naive_close.
  - apply naive_quiet.
  - intros k m v w _. cbn. unfold RAND_MAX. pose proof (Z.mod_pos_bound (kn_seed w * 1103515245 + 12345) (2 ^ 31) ltac:(lia)). lia.
  - apply cost_mono.
Qed.
End Kernel.

(** ** A mounted file system *)

(** A kernel after the mount. *)
Definition booted (s : OpSt) : kernel := mk_kernel s ∅ ∅ 1 [].

Lemma boot_view {clock : Clock} {caller : Caller} :
  exists s, fuse_init blank = Ret tt s /\ naive_view MOUNT_BLOCKS MOUNT_NAMES (mk_pview ∅ ∅) (booted s).
Proof.
  destruct mount_rep as (s & H & R). exists s. split; [exact H|]. exists (afs_new root_owner 1), ∅. split; [exact R|].
  clear. constructor; cbn [afs_new a_dirs a_data a_owner a_open pv_files pv_fds booted kn_fds kn_size].
  - apply lookup_singleton_eq.
  - intros p. rewrite lookup_empty. destruct (strip p) as [x|]; [|done]. cbn. by rewrite lookup_empty.
  - intros fd. rewrite lookup_empty. destruct fd as [|h|h]; [done| |done]. cbn. by rewrite lookup_empty.
  - intros x i Hx. by rewrite lookup_empty in Hx.
  - intros x i Hx. by rewrite lookup_empty in Hx.
  - intros n1 n2 i Hx. by rewrite lookup_empty in Hx.
  - intros h p pos Hx. by rewrite lookup_empty in Hx.
  - rewrite map_size_empty. by vm_compute.
Qed.

(** A path that can be used, as a test. *)
Definition usable_test (p : list byte) : bool :=
  match strip p with
  | Some name => forallb (fun c => negb (SEPARATOR c)) name && forallb (fun c => negb (bool_decide (c = Byte.x00))) name
      && negb (bool_decide (name = [])) && (Z.of_nat (length name) + 1 <=? EXT2_NAME_LEN)
  | None => false
  end.

Lemma usable_test_ok p : usable_test p = true -> usable_path p.
Proof.
  unfold usable_test. destruct (strip p) as [name|] eqn:E; [|done]. intros [[[H1 H2]%andb_true_iff H3]%andb_true_iff H4]%andb_true_iff.
  exists name. split; [done|]. split.
  - apply List.Forall_forall. intros c Hc. by apply negb_true_iff, (proj1 (forallb_forall _ _) H1).
  - split; [by apply negb_true_iff, bool_decide_eq_false in H3|]. split; [|by apply Z.leb_le].
    apply List.Forall_forall. intros c Hc. by apply (bool_decide_eq_false (c = Byte.x00)), negb_true_iff, (proj1 (forallb_forall _ _) H2).
Qed.

Lemma usable_cc : usable_path CC.
Proof. apply usable_test_ok. vm_compute. reflexivity. Qed.

Lemma usable_dd T : 0 <= T < 1000 -> usable_path (dd_name T).
Proof.
  intros HT. apply usable_test_ok.
  assert (H : forallb (fun i => usable_test (dd_name (Z.of_nat i))) (seq 0 1000) = true) by (clear; vm_compute; reflexivity).
  rewrite <- (Z2Nat.id T) by lia. apply (proj1 (forallb_forall _ _) H), in_seq. lia.
Qed.

(** ** Properties *)

(** C14. The assertions of multirw.cpp hold on every system that obeys the
    laws, in which each call is one step: with space for the file and for what
    the threads write, [main] fills the file, and then, however the calls of the
    ten threads are interleaved, no assertion ever fails (each thread reads back
    what it wrote last in its part of the file), every schedule ends, and it ends
    with every thread behind its last assertion, at the end of [test], which
    lacks a return statement: from there on the behaviour is undefined. *)
Theorem multirw_passes (W : Type) usable space (view : Z -> Z -> pview -> W -> Prop) `{PosixLaws W usable space view} k m v w b :
  view k m v w -> usable CC -> 11 <= m -> space AA_SIZE + 110 * space REGION <= k ->
  exists w1, run multirw_main w = (Some tt, w1) /\ sn tstep (multirw_threads b, w1)
    /\ forall ts w2, rtc tstep (multirw_threads b, w1) (ts, w2) ->
         (PFail ∉ ts) /\ (nf tstep (ts, w2) -> Forall (fun t => t = PUndef) ts).
Proof. apply multirw_ok. Qed.

(** manyfile.cpp, on any number of files: each file is written, read back and
    closed, no assertion fails, and all files are there at the end. *)
Theorem manyfile_passes (W : Type) usable space (view : Z -> Z -> pview -> W -> Prop) `{PosixLaws W usable space view} n k m v w b :
  view k m v w -> (forall T, 0 <= T < Z.of_nat n -> usable (dd_name T)) -> Z.of_nat n <= m -> Z.of_nat n * space A_SIZE <= k ->
  exists w' k' m' v', run (manyfile_loop n 0 b) w = (Some 0, w') /\ view k' m' v' w' /\ pv_fds v' = pv_fds v
    /\ forall T, 0 <= T < Z.of_nat n -> has_file v' (dd_name T).
Proof.
  intros V Hu Hm Hk. destruct (manyfile_loop_ok n 0 k m v b) with (w := w) as (r & w' & k' & m' & v' & Hr & V' & -> & Hfds & Hf & _); [done..|].
  by exists w', k', m', v'.
Qed.

(** ** Instances of the properties *)

(** The user who runs the tests. *)
Definition tester : Caller := mk_caller 1000 1000.

(** multirw.cpp on this file system, mounted on an empty disk. *)
Lemma multirw_passes_witness :
  let clock : Clock := 7 in
  let posix := @naive_posix clock tester in
  exists s w1, fuse_init blank = Ret tt s /\ run multirw_main (booted s) = (Some tt, w1) /\ sn tstep (multirw_threads [], w1)
    /\ forall ts w2, rtc tstep (multirw_threads [], w1) (ts, w2) ->
         (PFail ∉ ts) /\ (nf tstep (ts, w2) -> Forall (fun t => t = PUndef) ts).
Proof.
  intros clock posix. destruct (@boot_view clock tester) as (s & Hs & V).
  assert (Hc : 0 <= @c_uid tester < 2 ^ 16) by (clear; by vm_compute).
  assert (Hm : 11 <= MOUNT_NAMES) by (clear; by vm_compute).
  assert (Hk : cost AA_SIZE + 110 * cost REGION <= MOUNT_BLOCKS) by (clear; vm_compute; discriminate).
  destruct (@multirw_passes kernel usable_path cost (@naive_view tester) posix (@naive_laws clock tester Hc) _ _ _ _ [] V usable_cc Hm Hk)
    as (w1 & H1 & H2 & H3).
  exists s, w1. split; [exact Hs|]. split; [exact H1|]. split; [exact H2|exact H3].
Defined.

(** manyfile.cpp with 1000 files on it. *)
Lemma manyfile_passes_witness :
  let clock : Clock := 7 in
  let posix := @naive_posix clock tester in
  exists s w', fuse_init blank = Ret tt s /\ run (manyfile_loop 1000 0 []) (booted s) = (Some 0, w').
Proof.
  intros clock posix. destruct (@boot_view clock tester) as (s & Hs & V).
  assert (Hc : 0 <= @c_uid tester < 2 ^ 16) by (clear; by vm_compute).
  destruct (@manyfile_passes kernel usable_path cost (@naive_view tester) posix (@naive_laws clock tester Hc) 1000 MOUNT_BLOCKS MOUNT_NAMES _ _ [] V)
    as (w' & k' & m' & v' & H & _).
  - intros T HT. apply usable_dd. lia.
  - clear. vm_compute. discriminate.
  - clear. vm_compute. discriminate.
  - exists s, w'. split; [exact Hs|exact H].
Defined.
