(* ===== verification/Scenarios.v ===== *)
(** * Whole runs of the file system

    The model runs: these are runs of the handlers on a fresh disk, evaluated
    by the kernel.  One shows that data survives an unmount; the others are
    the places where the code does not do what its callers expect. *)

From S2P Require Import Prelude Layout Disk Bitmap PathName Block BlockGroup BlockCache DentryCache.
From S2P Require Import FileSystem FileStatus OpenFiles Handlers.

Definition fresh_disk : Disk := disk_empty (2 * MAX_BLOCK_GROUP_SIZE).

#[local] Instance noon : Clock := 43200.

Definition superuser : Caller := mk_caller 0 0.

Definition user : Caller := mk_caller 1000 1000.

(** The result of a session on a disk, and the disk it leaves behind. *)
Definition session {A} (d : Disk) (m : M OpSt A) : option (A * Disk) :=
  match fuse_init d with
  | Fault _ => None
  | Ret _ s =>
      match m s with
      | Fault _ => None
      | Ret a s =>
          match fuse_destroy s with
          | Fault _ => None
          | Ret _ d => Some (a, d)
          end
      end
  end.

Definition slash_a : list byte := [Byte.x2f; Byte.x61].
Definition slash_b : list byte := [Byte.x2f; Byte.x62].
Definition slash_a_b : list byte := [Byte.x2f; Byte.x61; Byte.x2f; Byte.x62].

(** A regular file with mode 0666, and a directory with mode 0777. *)
Definition REG : Z := 0x81b6.
Definition DIR : Z := 0x1ff.

(** Bytes that are not all the same. *)
Definition pattern (n : nat) : list byte := map (fun k => byte.of_Z (Z.of_nat k * 7)) (seq 0 n).

Section Runs.
#[local] Existing Instance superuser.

(** Creating /a/b, writing to it across two block boundaries and reading
    it back from a file system mounted on the disk that was left behind. *)
Definition write_session : M OpSt (Z * Z * Z * Z) :=
  mk ← fuse_mkdir slash_a DIR;
  '(cr, fh) ← fuse_create slash_a_b REG;
  wr ← fuse_write (pattern 5000) 5000 4000 (file_info fh O_WRONLY);
  rl ← fuse_release (file_info fh O_RDONLY);
  mret (mk, cr, wr, rl).

Definition read_session : M OpSt (Z * Z * list byte) :=
  '(op, fh) ← fuse_open slash_a_b O_RDONLY;
  '(n, bs) ← fuse_read 5000 4000 (file_info fh O_RDONLY);
  mret (op, n, bs).

Definition remount : option (Z * Z * Z * Z * (Z * Z * list byte)) :=
  match session fresh_disk write_session with
  | None => None
  | Some (w, d) =>
      match session d read_session with
      | None => None
      | Some (r, _) => Some (w, r)
      end
  end.

(** /a is written and deleted; /b is written behind its first block, which is
    never written to and is the one /a has given back. *)
Definition reuse_session : M OpSt (Z * Z * Z * Z) :=
  '(_, fa) ← fuse_create slash_a REG;
  wa ← fuse_write (replicate 4096 Byte.x41) 4096 0 (file_info fa O_WRONLY);
  _ ← fuse_release (file_info fa O_RDONLY);
  un ← fuse_unlink slash_a;
  '(_, fb) ← fuse_create slash_b REG;
  wb ← fuse_write [Byte.x42] 1 4100 (file_info fb O_WRONLY);
  rl ← fuse_release (file_info fb O_RDONLY);
  mret (wa, un, wb, rl).

Definition read_start : M OpSt (Z * list byte) :=
  '(_, fh) ← fuse_open slash_b O_RDONLY;
  fuse_read 4 0 (file_info fh O_RDONLY).

(** What the start of /b reads as, before and after a remount. *)
Definition reuse : option (Z * Z * Z * Z * (Z * list byte)) :=
  fst <$> session fresh_disk (w ← reuse_session; r ← read_start; mret (w, r)).

Definition reuse_remounted : option (Z * list byte) :=
  match session fresh_disk reuse_session with
  | None => None
  | Some (_, d) => fst <$> session d read_start
  end.

(** A regular file /a whose bytes are those of a directory entry: the inode 0
    of the root under the name "b"; then the attributes of /a/b. *)
Definition forged_entry : list byte :=
  [Byte.x00; Byte.x00; Byte.x00; Byte.x00; Byte.x09; Byte.x00; Byte.x01; Byte.x04; Byte.x62].

Definition forged_session : M OpSt (Z * Z * option (Z * Z)) :=
  '(_, fa) ← fuse_create slash_a REG;
  wa ← fuse_write forged_entry 9 0 (file_info fa O_WRONLY);
  _ ← fuse_release (file_info fa O_RDONLY);
  '(e, st) ← fuse_getattr slash_a_b true;
  mret (wa, e, (fun st => (st_ino st, Z.land (st_mode st) S_IFMT)) <$> st).
End Runs.

(** The answer of a session. *)
Definition answer {A} (m : M OpSt A) : option A := fst <$> session fresh_disk m.

(** The free inodes that group 0's descriptor counts after the first mount,
    and the inode bitmap of the group. *)
Definition first_mount : option (Z * list byte) :=
  match fuse_init fresh_disk with
  | Ret _ s =>
      match fs_groups (op_fs s) !! 0 with
      | Some g =>
          Some (desc_get (desc_ g) bg_free_inodes_count (fs_super (op_fs s)),
                data_ (inode_bitmap_ g))
      | None => None
      end
  | Fault _ => None
  end.

(** ** Properties *)

(** Data written to a new file of a new directory, across block
    boundaries, is what a file system mounted later on the same disk reads. *)
Theorem remount_reads_back :
  remount = Some (0, 0, 5000, 0, (0, 5000, pattern 5000)).
Proof. vm_compute. reflexivity. Qed.

(** A write at a block boundary behind the end of a file (here offset 4096
    of an empty file) does not allocate the block it writes to: the cursor
    stays on block number 0, which is the root directory's first block, and
    the entry of the file itself is overwritten. *)
Theorem write_at_boundary_hits_block_0 :
  answer
    ('(_, fh) ← fuse_create (caller := superuser) slash_a REG;
     n ← fuse_write (zeros 8) 8 4096 (file_info fh O_WRONLY);
     '(r, _) ← fuse_getattr slash_a true;
     mret (n, r)) = Some (8, - ENOENT).
Proof. vm_compute. reflexivity. Qed.

(** The copy of an open file shadows the inode: a link made while the file
    is open is counted in the inode table, and lost when the handle is
    released, because the release writes the older copy back. *)
Theorem link_of_open_file_lost :
  answer
    ('(_, fh) ← fuse_create (caller := superuser) slash_a REG;
     l ← fuse_link slash_a slash_b;
     _ ← fuse_release (file_info fh O_RDONLY);
     '(_, st) ← fuse_getattr slash_b true;
     mret (l, st_nlink <$> st)) = Some (0, Some 1).
Proof. vm_compute. reflexivity. Qed.

(** RENAME_EXCHANGE never succeeds: the new name still exists when it is
    linked; the call answers -EEXIST with the old name already replaced by
    the new file and the old file left under the name "<a". *)
Theorem rename_exchange_fails :
  answer
    ('(_, fa) ← fuse_create (caller := superuser) slash_a REG;
     '(_, fb) ← fuse_create (caller := superuser) slash_b REG;
     _ ← fuse_release (file_info fa O_RDONLY);
     _ ← fuse_release (file_info fb O_RDONLY);
     '(_, sa) ← fuse_getattr slash_a true;
     '(_, sb) ← fuse_getattr slash_b true;
     r ← fuse_rename (caller := superuser) slash_a slash_b RENAME_EXCHANGE;
     '(_, sa') ← fuse_getattr slash_a true;
     '(_, sb') ← fuse_getattr slash_b true;
     '(_, sx) ← fuse_getattr exchange_name true;
     mret (r, map (fun o : option Stat => st_ino <$> o) [sa; sb; sa'; sb'; sx]))
  = Some (- EEXIST, [Some 1; Some 2; Some 2; Some 2; Some 1]).
Proof. vm_compute. reflexivity. Qed.

(** [mkdir] creates the directory before it checks permissions: a caller
    without rights is answered -EACCES, and the directory is there. *)
Theorem mkdir_creates_before_check :
  answer
    (r ← fuse_mkdir (caller := user) slash_a 0;
     '(g, _) ← fuse_getattr slash_a true;
     mret (r, g)) = Some (- EACCES, 0).
Proof. vm_compute. reflexivity. Qed.

(** After the first mount the descriptor of group 0 counts two inodes
    less than a group has, while its bitmap has one used inode, the root.  The constructor counts
    the root inode when it lays the group out and again when it creates it. *)
Theorem root_inode_counted_twice :
  first_mount = Some (INODES_PER_GROUP - 2, Byte.x01 :: zeros (BLOCK_SIZE - 1)).
Proof. vm_compute. reflexivity. Qed.

(** A block that is given back and taken again is zero in the cache only:
    the bytes of the deleted file are still on disk, and the new file that
    never wrote to the block reads zeros until the file system is mounted
    again, and the deleted file's bytes from then on. *)
Theorem deleted_data_reappears :
  reuse = Some (4096, 0, 1, 0, (4, zeros 4)) /\ reuse_remounted = Some (4, replicate 4 Byte.x41).
Proof. split; vm_compute; reflexivity. Qed.

(** The bytes of a regular file are taken for a directory when a path goes
    through it at the last name: whoever can write to /a can make /a/b stand
    for any inode, here the root directory. *)
Theorem file_read_as_directory : answer forged_session = Some (9, 0, Some (ROOT_INODE, S_IFDIR)).
Proof. vm_compute. reflexivity. Qed.

(** A directory cannot be renamed, as links to directories are refused, but
    the directory that has the new name is deleted before that is found out. *)
Theorem rename_directory_deletes :
  answer
    (_ ← fuse_mkdir (caller := superuser) slash_a DIR;
     _ ← fuse_mkdir (caller := superuser) slash_b DIR;
     r ← fuse_rename (caller := superuser) slash_a slash_b 0;
     '(ea, _) ← fuse_getattr slash_a true;
     '(eb, _) ← fuse_getattr slash_b true;
     mret (r, ea, eb)) = Some (- EISDIR, 0, - ENOENT).
Proof. vm_compute. reflexivity. Qed.
