(* ===== verification/FsList.v ===== *)
(** * FsList: class FSList of include/operation.h, with its nodes

    The handles of an inode are kept in a doubly linked list with a head node
    that carries no value.  OpenFiles.v uses it as a list of handles; here the
    operations run on the nodes, a pointer that is not in the heap faults, and
    they are shown to do what [fslist_ins], [fslist_del] and [fslist_iter] do
    to the list. *)
From S2P Require Import Prelude Layout FileSystem FileStatus OpenFiles.

(** A live pointer is below the next fresh one. *)
Ltac fresh_tac :=
  destruct_or?; subst; try lia;
  match goal with
  | F : forall p, is_Some (?m !! p) -> _, H : is_Some (?m !! ?x) |- _ => specialize (F x H); lia
  end.

Section FSList.
Context {T : Type}.

(** ** class FSListPtr and the heap *)

Record FSListPtr : Type := mk_ptr {
  value_ : T;
  prev_ : option positive;
  next_ : option positive
}.

Record Heap : Type := mk_heap {
  h_nodes : gmap positive FSListPtr;
  h_fresh : positive
}.

Definition node_get (p : option positive) : M Heap FSListPtr := fun h =>
  match p with
  | None => Fault NullDeref
  | Some p =>
      match h_nodes h !! p with
      | Some n => Ret n h
      | None => Fault UseAfterFree
      end
  end.

Definition node_put (p : positive) (n : FSListPtr) : M Heap unit :=
  modify_st (fun h => mk_heap (<[p := n]> (h_nodes h)) (h_fresh h)).

Definition set_prev (p q : option positive) : M Heap unit :=
  n ← node_get p;
  match p with
  | None => fail NullDeref
  | Some p => node_put p (mk_ptr (value_ n) q (next_ n))
  end.

Definition set_next (p q : option positive) : M Heap unit :=
  n ← node_get p;
  match p with
  | None => fail NullDeref
  | Some p => node_put p (mk_ptr (value_ n) (prev_ n) q)
  end.

(** [new FSListPtr<T>(value)] *)
Definition node_new (v : T) : M Heap positive := fun h =>
  Ret (h_fresh h)
    (mk_heap (<[h_fresh h := mk_ptr v None None]> (h_nodes h)) (Pos.succ (h_fresh h))).

(** [delete ptr] *)
Definition node_delete (p : option positive) : M Heap unit :=
  _ ← node_get p;
  match p with
  | None => fail NullDeref
  | Some p => modify_st (fun h => mk_heap (delete p (h_nodes h)) (h_fresh h))
  end.

(** ** class FSList *)

(** [FSList()], with the value of the head node. *)
Definition FSList_new (v0 : T) : M Heap positive := node_new v0.

(** [FSListPtr<T>* ins(const T& value)] *)
Definition fl_ins (hd : positive) (v : T) : M Heap positive :=
  nw ← node_new v;
  _ ← set_prev (Some nw) (Some hd);
  h ← node_get (Some hd);
  _ ← set_next (Some nw) (next_ h);
  _ ← set_next (Some hd) (Some nw);
  n ← node_get (Some nw);
  _ ← match next_ n with
      | Some _ => set_prev (next_ n) (Some nw)
      | None => mret tt
      end;
  mret nw.

(** [void del(FSListPtr<T>* ptr)] *)
Definition fl_del (p : positive) : M Heap unit :=
  n ← node_get (Some p);
  _ ← match next_ n with
      | Some _ => set_prev (next_ n) (prev_ n)
      | None => mret tt
      end;
  _ ← set_next (prev_ n) (next_ n);
  node_delete (Some p).

(** [void iter(const std::function<void(T&)>& func)]; the callback works on
    the state [S] of the caller and does not change the list. *)
Fixpoint fl_iter_from {S} (fuel : nat) (h : Heap) (p : option positive) (func : T -> M S unit)
  : M S unit :=
  match p with
  | None => mret tt
  | Some q =>
      match fuel with
      | O => fail OutOfFuel
      | Datatypes.S fuel' =>
          match h_nodes h !! q with
          | None => fail UseAfterFree
          | Some n => _ ← func (value_ n); fl_iter_from fuel' h (next_ n) func
          end
      end
  end.

Definition fl_iter {S} (h : Heap) (hd : positive) (func : T -> M S unit) : M S unit :=
  match h_nodes h !! hd with
  | None => fail UseAfterFree
  | Some n => fl_iter_from (size (h_nodes h)) h (next_ n) func
  end.

(** [~FSList()]: [nxt] runs one node ahead of [head_]. *)
Fixpoint fl_destroy_from (fuel : nat) (hd nxt : option positive) : M Heap unit :=
  match fuel with
  | O => fail OutOfFuel
  | S fuel' =>
      _ ← node_delete hd;
      match nxt with
      | None => mret tt
      | Some _ =>
          n ← node_get nxt;
          fl_destroy_from fuel' nxt (next_ n)
      end
  end.

Definition fl_destroy (hd : positive) : M Heap unit :=
  n ← node_get (Some hd);
  s ← get_st;
  fl_destroy_from (S (size (h_nodes s))) (Some hd) (next_ n).

(** ** Lists of nodes *)

(** The pointer to a list that ends in [nxt]. *)
Definition first (l : list (positive * T)) (nxt : option positive) : option positive :=
  match l with
  | [] => nxt
  | (p, _) :: _ => Some p
  end.

Fixpoint last_of (prev : option positive) (l : list (positive * T)) : option positive :=
  match l with
  | [] => prev
  | (p, _) :: l' => last_of (Some p) l'
  end.

(** The nodes of [l] are linked both ways between [prev] and [nxt]. *)
Fixpoint linked (m : gmap positive FSListPtr) (prev : option positive) (l : list (positive * T))
  (nxt : option positive) : Prop :=
  match l with
  | [] => True
  | (p, v) :: l' => m !! p = Some (mk_ptr v prev (first l' nxt)) /\ linked m (Some p) l' nxt
  end.

(** The object [hd] holds the nodes [l]. *)
Record fslist (h : Heap) (hd : positive) (v0 : T) (l : list (positive * T)) : Prop := {
  fl_linked : linked (h_nodes h) None ((hd, v0) :: l) None;
  fl_nodup : NoDup (hd :: l.*1);
  fl_fresh : forall p, is_Some (h_nodes h !! p) -> (p < h_fresh h)%positive
}.

Lemma linked_app m prev l1 l2 nxt : linked m prev (l1 ++ l2) nxt <->
  linked m prev l1 (first l2 nxt) /\ linked m (last_of prev l1) l2 nxt.
Proof.
  revert prev. induction l1 as [|[p v] l1 IH]; intros prev; simpl; [tauto|].
  rewrite IH. assert (E : first (l1 ++ l2) nxt = first l1 (first l2 nxt)) by (by destruct l1 as [|[]]).
  rewrite E. tauto.
Qed.

Lemma linked_frame m m' prev l nxt : (forall p, p ∈ l.*1 -> m' !! p = m !! p) ->
  linked m prev l nxt -> linked m' prev l nxt.
Proof.
  revert prev. induction l as [|[p v] l IH]; intros prev Hm; simpl; [done|].
  intros [? ?]. split; [rewrite Hm; [done|apply list_elem_of_here]|].
  apply IH; [|done]. intros q Hq. apply Hm. by apply list_elem_of_further.
Qed.

Lemma linked_in m prev l nxt p : linked m prev l nxt -> p ∈ l.*1 -> is_Some (m !! p).
Proof.
  revert prev. induction l as [|[q v] l IH]; intros prev; simpl; [by intros _ ?%elem_of_nil|].
  intros [Hq Hl] [->|?]%elem_of_cons; [by eexists|by eapply IH].
Qed.

Lemma node_get_ok p n h : h_nodes h !! p = Some n -> node_get (Some p) h = Ret n h.
Proof. intros H. simpl. by rewrite H. Qed.

Lemma set_prev_ok p q n h : h_nodes h !! p = Some n ->
  set_prev (Some p) q h = Ret tt (mk_heap (<[p := mk_ptr (value_ n) q (next_ n)]> (h_nodes h)) (h_fresh h)).
Proof. intros H. unfold set_prev. by rewrite (bind_ret _ _ _ _ _ (node_get_ok _ _ _ H)). Qed.

Lemma set_next_ok p q n h : h_nodes h !! p = Some n ->
  set_next (Some p) q h = Ret tt (mk_heap (<[p := mk_ptr (value_ n) (prev_ n) q]> (h_nodes h)) (h_fresh h)).
Proof. intros H. unfold set_next. by rewrite (bind_ret _ _ _ _ _ (node_get_ok _ _ _ H)). Qed.

Lemma node_delete_ok p h : is_Some (h_nodes h !! p) ->
  node_delete (Some p) h = Ret tt (mk_heap (delete p (h_nodes h)) (h_fresh h)).
Proof. intros [n H]. unfold node_delete. by rewrite (bind_ret _ _ _ _ _ (node_get_ok _ _ _ H)). Qed.

(** ** The operations *)

(** Updates of nodes outside a list leave it alone; used with the sets of
    nodes apart by [fl_nodup]. *)
Ltac apart_tac := first [assumption | apply not_eq_sym; assumption | set_solver].

Ltac apart H := rewrite ?not_elem_of_app, ?not_elem_of_cons in H; destruct_and? H.

Ltac frame := eapply linked_frame; [|eassumption];
  intros ? ?; rewrite ?lookup_delete_ne, ?lookup_insert_ne by set_solver; done.

Ltac lookups :=
  repeat first [rewrite lookup_insert_eq | rewrite lookup_delete_eq
               | rewrite lookup_insert_ne by apart_tac | rewrite lookup_delete_ne by apart_tac].

Lemma fl_ins_ok h hd v0 l v : fslist h hd v0 l ->
  exists h', fl_ins hd v h = Ret (h_fresh h) h' /\ fslist h' hd v0 ((h_fresh h, v) :: l) /\
    (forall q, q ∉ h_fresh h :: hd :: l.*1 -> h_nodes h' !! q = h_nodes h !! q).
Proof.
  intros [L N F]. destruct h as [m nw]. simpl in *. destruct L as [Hh Ll].
  assert (Hnw : m !! nw = None).
  { destruct (m !! nw) eqn:E; [|done]. assert (nw < nw)%positive by (apply F; by eexists). lia. }
  assert (Hne : nw ≠ hd) by congruence.
  assert (Hnl : nw ∉ l.*1) by (intros Hin; destruct (linked_in _ _ _ _ _ Ll Hin); congruence).
  apply NoDup_cons in N as [Nh Nl].
  unfold fl_ins. erewrite (bind_ret (node_new v)) by reflexivity. simpl.
  erewrite bind_ret by (apply set_prev_ok, lookup_insert_eq). simpl.
  erewrite bind_ret by (apply node_get_ok; simpl; lookups; exact Hh).
  erewrite bind_ret by (apply set_next_ok, lookup_insert_eq). simpl.
  erewrite bind_ret by (apply set_next_ok; simpl; lookups; exact Hh). simpl.
  erewrite bind_ret by (apply node_get_ok; simpl; lookups; reflexivity). simpl.
  assert (Hlt : (hd < nw)%positive) by (apply F; by eexists).
  destruct l as [|[q w] l]; simpl in *.
  - eexists. split; [reflexivity|]. split; [|intros x Hx; simpl; lookups; done].
    split; simpl; [lookups; done|by rewrite !NoDup_cons; set_solver|].
    intros x Hx. rewrite !lookup_insert_is_Some' in Hx. fresh_tac.
  - destruct Ll as [Hq Ll]. apply NoDup_cons in Nl as [Nq Nl].
    assert (Hltq : (q < nw)%positive) by (apply F; by eexists).
    erewrite bind_ret by (apply set_prev_ok; simpl; lookups; exact Hq). simpl.
    eexists. split; [reflexivity|]. split; [|intros x Hx; simpl; lookups; done].
    split; simpl; [|by rewrite !NoDup_cons; set_solver|].
    + lookups. split; [done|]. lookups. split; [done|]. split; [done|]. frame.
    + intros x Hx. rewrite !lookup_insert_is_Some' in Hx. fresh_tac.
Qed.

Lemma cons_last (x : positive * T) l : exists l0 y, x :: l = l0 ++ [y].
Proof.
  revert x. induction l as [|z l IH]; intros x; [by exists [], x|].
  destruct (IH z) as (l0 & y & ->). by exists (x :: l0), y.
Qed.

Lemma fl_del_ok h hd v0 l1 p v l2 : fslist h hd v0 (l1 ++ (p, v) :: l2) ->
  exists h', fl_del p h = Ret tt h' /\ fslist h' hd v0 (l1 ++ l2) /\ h_nodes h' !! p = None /\
    (forall q, q ∉ hd :: (l1 ++ (p, v) :: l2).*1 -> h_nodes h' !! q = h_nodes h !! q).
Proof.
  intros [L N F]. destruct h as [m nw]. cbn [h_nodes h_fresh] in *.
  destruct (cons_last (hd, v0) l1) as (l0 & [a va] & E).
  change (hd :: (l1 ++ (p, v) :: l2).*1) with ((((hd, v0) :: l1) ++ (p, v) :: l2).*1) in *.
  change ((hd, v0) :: l1 ++ (p, v) :: l2) with (((hd, v0) :: l1) ++ (p, v) :: l2) in L.
  enough (exists h', fl_del p (mk_heap m nw) = Ret tt h' /\
    (linked (h_nodes h') None (((hd, v0) :: l1) ++ l2) None /\ NoDup ((((hd, v0) :: l1) ++ l2).*1) /\
     forall p, is_Some (h_nodes h' !! p) -> (p < h_fresh h')%positive) /\ h_nodes h' !! p = None /\
    (forall q, q ∉ (((hd, v0) :: l1) ++ (p, v) :: l2).*1 -> h_nodes h' !! q = m !! q))
    as (h' & H1 & (H2 & H3 & H4) & H5) by (exists h'; done).
  rewrite E in *. rewrite <-!app_assoc in *. simpl in *. clear E l1.
  apply linked_app in L as [L0 (Ha & Hp & L2)]. simpl in *.
  rewrite fmap_app in N. simpl in N. rewrite NoDup_app, !NoDup_cons in N.
  destruct N as (N0 & Nd & Na & Np & N2).
  apart Na. apart Np.
  unfold fl_del. erewrite bind_ret by (apply node_get_ok; exact Hp). simpl.
  rewrite !fmap_app. simpl. destruct l2 as [|[q w] l2]; simpl in *.
  - erewrite bind_ret by reflexivity.
    erewrite bind_ret by (apply set_next_ok; exact Ha). simpl.
    rewrite node_delete_ok by (simpl; lookups; by eexists). simpl.
    eexists. split; [reflexivity|]. simpl. split; [|split; [by lookups|intros x Hx; apart Hx; by lookups]].
    split; [|split].
    + apply linked_app. simpl. split; [frame|]. by lookups.
    + apply NoDup_app. split; [done|]. split; [set_solver|]. apply NoDup_singleton.
    + intros x Hx. rewrite lookup_delete_is_Some, lookup_insert_is_Some' in Hx.
      destruct Hx as [_ Hx]. assert (a < nw)%positive by (apply F; by eexists). fresh_tac.
  - destruct L2 as [Hq L2]. apply NoDup_cons in N2 as [Nq N2].
    erewrite bind_ret by (apply set_prev_ok; exact Hq). simpl.
    erewrite bind_ret by (apply set_next_ok; simpl; lookups; exact Ha). simpl.
    rewrite node_delete_ok by (simpl; lookups; by eexists). simpl.
    eexists. split; [reflexivity|]. simpl. split; [|split; [by lookups|intros x Hx; apart Hx; by lookups]].
    split; [|split].
    + apply linked_app. simpl. split; [frame|]. lookups. split; [done|]. split; [by lookups|frame].
    + apply NoDup_app. split; [done|]. split; [set_solver|]. rewrite !NoDup_cons. set_solver.
    + intros x Hx. rewrite lookup_delete_is_Some, !lookup_insert_is_Some' in Hx.
      destruct Hx as [_ Hx]. assert (a < nw)%positive by (apply F; by eexists).
      assert (q < nw)%positive by (apply F; by eexists). fresh_tac.
Qed.

(** The loop of [iter] visits the values in order; the heap has at least as
    many nodes as the list, so its bound is enough. *)
Lemma fl_iter_from_ok {S} (func : T -> M S unit) h prev l fuel s :
  linked (h_nodes h) prev l None -> (length l <= fuel)%nat ->
  fl_iter_from fuel h (first l None) func s = fslist_iter l.*2 func s.
Proof.
  revert prev fuel s. induction l as [|[p v] l IH]; intros prev fuel s Hl Hf.
  { by destruct fuel. }
  simpl in Hl, Hf. destruct Hl as [Hp Hl]. destruct fuel as [|fuel]; [lia|].
  simpl. rewrite Hp. simpl. unfold mbind, M_bind. destruct (func v s); [|done].
  eapply IH; [done|lia].
Qed.

Lemma linked_size m prev l nxt : linked m prev l nxt -> NoDup l.*1 -> (length l <= size m)%nat.
Proof.
  intros Hl Hn. rewrite <-size_dom, <-(length_fmap fst l).
  replace (length l.*1) with (size (list_to_set l.*1 : gset positive)) by (by apply size_list_to_set).
  apply subseteq_size. intros p. rewrite elem_of_list_to_set. intros Hp.
  apply elem_of_dom. by eapply linked_in.
Qed.

(** ~FSList deletes every node once and follows no pointer of a deleted one. *)
Lemma fl_destroy_from_ok prev p v l fuel m nw :
  linked m prev ((p, v) :: l) None -> NoDup (p :: l.*1) -> (length l < fuel)%nat ->
  exists m', fl_destroy_from fuel (Some p) (first l None) (mk_heap m nw) = Ret tt (mk_heap m' nw) /\
    forall q, m' !! q = if decide (q ∈ p :: l.*1) then None else m !! q.
Proof.
  revert prev p v fuel m. induction l as [|[q w] l IH]; intros prev p v fuel m L N Hf;
    (destruct fuel as [|fuel]; [lia|]); simpl in *; destruct L as [Hp L].
  - erewrite bind_ret by (apply node_delete_ok; by eexists). simpl.
    eexists. split; [reflexivity|]. intros x. destruct (decide (x = p)) as [->|].
    + rewrite decide_True by set_solver. apply lookup_delete_eq.
    + rewrite decide_False by set_solver. by apply lookup_delete_ne.
  - erewrite bind_ret by (apply node_delete_ok; by eexists). simpl.
    destruct L as [Hq L]. apply NoDup_cons in N as [Np N].
    erewrite bind_ret by (apply node_get_ok; simpl; lookups; exact Hq). simpl.
    destruct (IH (Some p) q w fuel (delete p m)) as (m' & E & Hm').
    + split; [by lookups|]. pose proof (proj1 (NoDup_cons _ _) N). frame.
    + done.
    + lia.
    + exists m'. split; [exact E|]. intros x. rewrite Hm'. destruct (decide (x = p)) as [->|].
      * rewrite (decide_True (P := p ∈ _ :: _ :: _)) by set_solver. case_decide; [done|]. by lookups.
      * destruct (decide (x ∈ q :: l.*1)); [by rewrite decide_True by set_solver|].
        rewrite decide_False by set_solver. by lookups.
Qed.
End FSList.

Arguments FSListPtr : clear implicits.
Arguments Heap : clear implicits.

Lemma FSList_new_ok {T} (v0 : T) h : (forall p, is_Some (h_nodes h !! p) -> (p < h_fresh h)%positive) ->
  exists h', FSList_new v0 h = Ret (h_fresh h) h' /\ fslist h' (h_fresh h) v0 [].
Proof.
  intros F. eexists. split; [reflexivity|]. split; simpl.
  - by rewrite lookup_insert_eq.
  - apply NoDup_singleton.
  - intros p Hp. rewrite lookup_insert_is_Some' in Hp. fresh_tac.
Qed.

Lemma fslist_del_middle {T} `{EqDecision T} (l1 l2 : list T) v :
  v ∉ l1 -> fslist_del v (l1 ++ v :: l2) = l1 ++ l2.
Proof.
  induction l1 as [|x l1 IH]; simpl; intros H; [by rewrite decide_True|].
  apply not_elem_of_cons in H as [??]. rewrite decide_False by done. f_equal. auto.
Qed.

(** C37. The nodes and pointers of FSList implement the list of handles: [ins]
    puts a value at the front and returns its node, [del] of a node that [ins]
    returned takes its value out, [iter] calls the function on the values in
    order, none of them follows a pointer to a deleted node, and each leaves
    a well-formed list. *)
Theorem fslist_refines {T} `{EqDecision T} (h : Heap T) hd v0 l : fslist h hd v0 l ->
  (forall v, exists h', fl_ins hd v h = Ret (h_fresh h) h' /\
     fslist h' hd v0 ((h_fresh h, v) :: l) /\
     ((h_fresh h, v) :: l).*2 = fslist_ins v l.*2) /\
  (forall p v, (p, v) ∈ l -> NoDup l.*2 -> exists h' l', fl_del p h = Ret tt h' /\
     fslist h' hd v0 l' /\ l'.*2 = fslist_del v l.*2 /\ h_nodes h' !! p = None) /\
  (forall S (func : T -> M S unit) s, fl_iter h hd func s = fslist_iter l.*2 func s).
Proof.
  intros L. split; [|split].
  - intros v. destruct (fl_ins_ok _ _ _ _ v L) as (h' & E & L' & _). by exists h'.
  - intros p v (l1 & l2 & ->)%list_elem_of_split N.
    destruct (fl_del_ok _ _ _ _ _ _ _ L) as (h' & E & L' & Hp & _).
    exists h', (l1 ++ l2). split; [done|]. split; [done|]. split; [|done].
    rewrite !fmap_app in *. simpl in *. rewrite fslist_del_middle; [done|].
    apply NoDup_app in N as (_ & N & _). intros Hv. by apply (N v Hv), list_elem_of_here.
  - intros S func s. destruct L as [[Hh Ll] N _]. unfold fl_iter. rewrite Hh. simpl.
    eapply fl_iter_from_ok; [done|]. eapply linked_size; [done|]. by apply NoDup_cons in N as [_ ?].
Qed.

(** C38. The destructor of FSList ends, deletes exactly the nodes of the list,
    and never follows a pointer of a node it has deleted. *)
Theorem fslist_destroy {T} (h : Heap T) hd v0 l : fslist h hd v0 l ->
  exists h', fl_destroy hd h = Ret tt h' /\
    forall q, h_nodes h' !! q = if decide (q ∈ hd :: l.*1) then None else h_nodes h !! q.
Proof.
  intros [L N _]. destruct h as [m nw]. unfold fl_destroy. pose proof L as [Hh _].
  erewrite bind_ret by (by apply node_get_ok). erewrite bind_ret by reflexivity. cbn [h_nodes next_].
  destruct (fl_destroy_from_ok None hd v0 l (S (size m)) m nw L N) as (m' & E & Hm).
  { apply linked_size in L; [|done]. simpl in L. lia. }
  exists (mk_heap m' nw). by split.
Qed.

(** Three handles are opened and the second one is closed. *)
Definition three : outcome (Heap Z) positive :=
  (hd ← FSList_new 0;
   _ ← fl_ins hd 10;
   p ← fl_ins hd 20;
   _ ← fl_ins hd 30;
   _ ← fl_del p;
   mret hd) (mk_heap ∅ 1%positive).

Definition three_heap : Heap Z :=
  match three with Ret _ h => h | Fault _ => mk_heap ∅ 1%positive end.

Lemma three_list : fslist three_heap 1%positive 0 [(4%positive, 30); (2%positive, 10)].
Proof.
  split; [by repeat split|by apply (bool_decide_unpack _); vm_compute|].
  intros p Hp. apply elem_of_dom in Hp. revert p Hp.
  change (set_Forall (fun p => (p < 5)%positive) (dom (h_nodes three_heap))).
  apply (bool_decide_unpack _). by vm_compute.
Qed.

(** Inserting 7 into the list of 30 and 10. *)
Lemma fslist_refines_witness :
  exists h', fl_ins 1%positive 7 three_heap = Ret (h_fresh three_heap) h' /\ exists l, fslist h' 1%positive 0 l /\ l.*2 = [7; 30; 10].
Proof.
  destruct (proj1 (fslist_refines _ _ _ _ three_list) 7) as (h' & H & L & E). exists h'. split; [exact H|]. eexists. split; [exact L|exact E].
Defined.

Lemma fslist_destroy_witness : exists h', fl_destroy 1%positive three_heap = Ret tt h' /\
  forall q, h_nodes h' !! q = if decide (q ∈ [1; 4; 2]%positive) then None else h_nodes three_heap !! q.
Proof. exact (fslist_destroy _ _ _ _ three_list). Defined.
