(* ===== verification/Locks.v ===== *)
(** * Locks: the locking protocol of the handlers

    The other files model a call as one step.  Here the locks are the subject:
    every function that takes a lock, and every handler, is the skeleton of
    its lock operations and of its accesses to the data the locks protect, with
    the branches, loops and early returns of the code (src/operation/,
    include/operation.h, src/filesystem.cpp).  A skeleton runs to a trace; a
    checker follows the locks that are held and is sound for every trace; the
    threads of FUSE interleave the traces of their requests.

    The locks in the order in which they are taken: _big_lock of special.cpp,
    FileStatus::rwlock, OpManager::m_, InodeCache::inode_rwlock_, the static
    m_ of alloc_block and the static m_ of get_block.  The contents of blocks
    are left out: operation.h says that nothing is promised for two calls on
    one block.  fuse_init and fuse_destroy take no lock; FUSE calls them when
    no other handler runs. *)
From S2P Require Import Prelude.

(** ** Locks, accesses and skeletons *)

Inductive lock : Type :=
| BigLock
| FdLock (fd : Z)
| OpmLock
| InodeLock (i : Z)
| AllocLock
| BlockLock.

#[global] Instance lock_eq_dec : EqDecision lock.
Proof. solve_decision. Defined.

(** A shared_mutex is held by any number of readers or by one writer. *)
Inductive mode : Type := Sh | Ex.

#[global] Instance mode_eq_dec : EqDecision mode.
Proof. solve_decision. Defined.

(** What the locks protect: the fields of a cursor, its cache_update_flag_
    (of the handle [fd] on the inode [i], or of all handles on [i]), the copy
    of an inode that its handles share, the list of these handles, the map of
    OpManager, the block cache, and the super block with the block groups. *)
Inductive res : Type :=
| Cursor (fd : Z)
| Flag (fd i : Z)
| AllFlags (i : Z)
| ICopy (i : Z)
| HandleList (i : Z)
| Caches
| Blocks
| Groups.

#[global] Instance res_eq_dec : EqDecision res.
Proof. solve_decision. Defined.

Inductive act : Type :=
| Acq (l : lock) (m : mode)
| Rel (l : lock) (m : mode)
| Touch (w : bool) (r : res).

#[global] Instance act_eq_dec : EqDecision act.
Proof. solve_decision. Defined.

(** The skeleton of a function: [Scoped] is a unique_lock or shared_lock,
    released however its block is left, [Return] leaves the enclosing
    [Call]. *)
Inductive cmd : Type :=
| Skip
| Do (a : act)
| Seq (c1 c2 : cmd)
| Alt (c1 c2 : cmd)
| Loop (c : cmd)
| Scoped (l : lock) (m : mode) (c : cmd)
| Return
| Call (c : cmd).

Definition steps (cs : list cmd) : cmd := foldr Seq Skip cs.

Definition reading (r : res) : cmd := Do (Touch false r).

Definition writing (r : res) : cmd := Do (Touch true r).

Definition lock_ (l : lock) : cmd := Do (Acq l Ex).

Definition unlock (l : lock) : cmd := Do (Rel l Ex).

Definition lock_shared (l : lock) : cmd := Do (Acq l Sh).

Definition unlock_shared (l : lock) : cmd := Do (Rel l Sh).

(** [if (error) return ...;] *)
Definition may_return : cmd := Alt Return Skip.

(** The traces of a skeleton; the flag says that it returned early. *)
Inductive runs : cmd -> list act -> bool -> Prop :=
| run_skip : runs Skip [] false
| run_do a : runs (Do a) [a] false
| run_seq c1 c2 t1 t2 b : runs c1 t1 false -> runs c2 t2 b -> runs (Seq c1 c2) (t1 ++ t2) b
| run_seq_ret c1 c2 t : runs c1 t true -> runs (Seq c1 c2) t true
| run_alt_l c1 c2 t b : runs c1 t b -> runs (Alt c1 c2) t b
| run_alt_r c1 c2 t b : runs c2 t b -> runs (Alt c1 c2) t b
| run_loop_end c : runs (Loop c) [] false
| run_loop c t1 t2 b : runs c t1 false -> runs (Loop c) t2 b -> runs (Loop c) (t1 ++ t2) b
| run_loop_ret c t : runs c t true -> runs (Loop c) t true
| run_scoped l m c t b : runs c t b -> runs (Scoped l m c) (Acq l m :: t ++ [Rel l m]) b
| run_return : runs Return [] true
| run_call c t b : runs c t b -> runs (Call c) t false.

(** ** The functions of the file system that take locks *)

(** FileSystem::get_block: the cache is asked under the shared lock; after a
    miss the lock is given up, the super block is asked for the size of a group
    and the lock is taken again exclusively. *)
Definition get_block_locks : cmd :=
  Call (steps
    [ lock_shared BlockLock;
      writing Blocks;
      Alt (steps
             [ unlock_shared BlockLock;
               reading Groups;
               lock_ BlockLock;
               writing Blocks;
               Alt (steps
                      [ writing Groups;
                        Alt (steps [unlock BlockLock; Return]) Skip;
                        writing Blocks ])
                 Skip;
               unlock BlockLock;
               Return ])
        Skip;
      unlock_shared BlockLock;
      Return ]).

(** FileSystem::alloc_block without an inode takes no lock of its own. *)
Definition alloc_block_locks : cmd :=
  Call (steps [writing Groups; may_return; writing Blocks]).

(** FileSystem::alloc_block for the inode stored in [r]. *)
Definition alloc_block_inode_locks (r : res) : cmd :=
  Call (Scoped AllocLock Ex (steps
    [ reading r;
      alloc_block_locks; may_return;
      Alt (writing r)                                       (* direct *)
     (Alt (steps                                            (* indirect *)
       [ Alt (steps [alloc_block_locks; may_return; writing r])
             (steps [reading r; get_block_locks; may_return]);
         reading r; writing Blocks ])
     (Alt (steps                                            (* double indirect *)
       [ Alt (steps [alloc_block_locks; may_return; writing r])
             (steps [reading r; get_block_locks; may_return]);
         Alt (steps [alloc_block_locks; may_return; reading r; writing Blocks; writing Blocks])
             (steps [get_block_locks; may_return; writing Blocks]) ])
       (steps                                               (* triple indirect *)
       [ Alt (steps [alloc_block_locks; may_return; writing r])
             (steps [reading r; get_block_locks; may_return]);
         Alt (steps [alloc_block_locks; may_return; alloc_block_locks; may_return;
                     reading r; writing Blocks; writing Blocks; writing Blocks])
             (steps
               [ get_block_locks; may_return;
                 Alt (steps [alloc_block_locks; may_return; writing Blocks; writing Blocks])
                     (steps [get_block_locks; may_return; writing Blocks]) ]) ])));
      writing r; Return ])).

(** get_inode, alloc_inode, free_inode and free_block take no lock. *)
Definition get_inode_locks : cmd := Call (steps [writing Groups; Return]).

Definition alloc_inode_locks : cmd := Call (steps [writing Groups; Return]).

Definition free_inode_locks : cmd := Call (steps [writing Groups; Return]).

Definition free_block_locks : cmd :=
  Call (steps [writing Groups; may_return; writing Blocks; Return]).

(** visit_inode_blocks with a visitor: get_block for each block and for each
    indirect block. *)
Definition visit_locks (visitor : cmd) : cmd :=
  Call (steps
    [ reading Groups; may_return;
      Loop (steps [get_block_locks; may_return; Alt (Call visitor) Skip; may_return]) ]).

Definition inode_lookup_locks : cmd :=
  Call (steps
    [ may_return;
      Loop (steps
        [ Alt (steps [Alt (steps [get_inode_locks; may_return]) Skip; reading Groups; may_return;
                      visit_locks (Alt get_inode_locks Skip); may_return])
              (Alt (steps [get_inode_locks; may_return]) Skip) ]);
      Return ]).

Definition inode_lookup_in_locks : cmd := Call (steps [visit_locks Skip; Return]).

Definition dentry_create_locks : cmd :=
  Call (steps
    [ Alt (steps [alloc_block_inode_locks Groups; may_return]) Skip;
      Alt (steps [alloc_block_inode_locks Groups; may_return]) Skip;
      writing Blocks; Return ]).

Definition inode_create_locks : cmd :=
  Call (steps
    [ may_return; inode_lookup_locks; may_return; reading Groups; may_return;
      inode_lookup_in_locks; may_return;
      Alt (steps [get_inode_locks; Return]) Skip;
      alloc_inode_locks; may_return; dentry_create_locks; Return ]).

(** inode_delete of a file, or of a directory with [sub] for its entries. *)
Fixpoint inode_delete_locks (depth : nat) : cmd :=
  match depth with
  | O => Skip
  | S d =>
      Call (steps
        [ may_return; get_inode_locks; may_return; reading Groups; may_return;
          Alt (visit_locks (Loop (inode_delete_locks d))) (visit_locks free_block_locks);
          free_inode_locks; Return ])
  end.

Definition inode_unlink_locks (depth : nat) : cmd :=
  Call (steps
    [ may_return; inode_lookup_locks; may_return; reading Groups; may_return;
      visit_locks Skip; may_return; writing Blocks;
      get_inode_locks; may_return; writing Groups;
      Alt (steps [inode_delete_locks depth; may_return]) Skip; Return ]).

Definition inode_link_locks : cmd :=
  Call (steps
    [ may_return; inode_lookup_locks; may_return; reading Groups; may_return;
      inode_lookup_locks; may_return; reading Groups; may_return;
      inode_lookup_in_locks; may_return; dentry_create_locks; may_return;
      writing Groups; Return ]).

(** flush: the super block, the groups, then the cache. *)
Definition flush_locks : cmd := steps [writing Groups; writing Blocks].

(** ** Open files: include/operation.h and operation.cpp *)

(** InodeCache::copy and commit run inside a lock of their caller. *)
Definition copy_locks (i : Z) : cmd :=
  Call (steps [get_inode_locks; may_return; writing (ICopy i); Return]).

Definition commit_locks (i : Z) : cmd :=
  Call (steps [get_inode_locks; may_return; reading (ICopy i); writing Groups; Return]).

Definition upd_all_locks (i : Z) : cmd :=
  steps [reading (HandleList i); writing (AllFlags i)].

(** OpManager *)
Definition get_cache_locks (i : Z) : cmd :=
  Call (Scoped OpmLock Ex (steps
    [ reading Caches;
      Alt (steps [copy_locks i; may_return; writing Caches]) Skip;
      writing Caches; Return ])).

Definition upd_cache_locks (i : Z) : cmd :=
  Call (Scoped OpmLock Ex (steps
    [ reading Caches; may_return; Scoped (InodeLock i) Ex (writing (HandleList i)) ])).

Definition rel_cache_locks (i : Z) : cmd :=
  Call (Scoped OpmLock Ex (steps
    [ reading Caches; may_return;
      lock_ (InodeLock i);
      writing Caches;
      Alt (steps [commit_locks i; unlock (InodeLock i); writing Caches])
          (unlock (InodeLock i));
      Return ])).

(** delete fd: ~FileStatus takes the handle out of the list, then its memory
    is given back. *)
Definition delete_fd_locks (fd i : Z) : cmd :=
  steps [lock_ (InodeLock i); writing (HandleList i); unlock (InodeLock i);
         writing (Cursor fd); writing (Flag fd i)].

(** IndirectBlockPtr::seek, as the cursor uses it. *)
Definition ptr_seek_locks (fd : Z) : cmd :=
  steps [reading (Cursor fd); get_block_locks; writing (Cursor fd); may_return].

Definition bf_seek_locks (fd i : Z) : cmd :=
  Call (steps
    [ writing (Cursor fd);
      Alt (steps [reading (ICopy i); writing (Cursor fd)])
     (Alt (steps [reading (ICopy i); writing (Cursor fd); ptr_seek_locks fd])
     (Alt (steps [reading (ICopy i); writing (Cursor fd); ptr_seek_locks fd; ptr_seek_locks fd])
     (Alt (steps [reading (ICopy i); writing (Cursor fd);
                  ptr_seek_locks fd; ptr_seek_locks fd; ptr_seek_locks fd])
          Return)));
      Return ]).

Definition seek_locks (fd i : Z) : cmd :=
  Call (steps
    [ Alt (bf_seek_locks fd i)
     (Alt (steps [reading (Cursor fd); writing (Cursor fd);
                  Alt Return (Alt (ptr_seek_locks fd) (steps [bf_seek_locks fd i; Return]))])
     (Alt (steps [reading (Cursor fd); writing (Cursor fd);
                  Alt Return (Alt (ptr_seek_locks fd)
                  (Alt (steps [ptr_seek_locks fd; ptr_seek_locks fd])
                       (steps [bf_seek_locks fd i; Return])))])
          Skip));
      Return ]).

Definition next_block_locks (fd i : Z) : cmd :=
  Call (steps
    [ reading (Cursor fd);
      Alt (steps [writing (Cursor fd); reading (ICopy i); writing (Cursor fd);
                  Alt Skip (ptr_seek_locks fd)])
     (Alt (steps [writing (Cursor fd);
                  Alt (ptr_seek_locks fd)
                      (steps [reading (ICopy i); writing (Cursor fd);
                              ptr_seek_locks fd; ptr_seek_locks fd])])
     (Alt (steps [writing (Cursor fd);
                  Alt (Alt (steps [ptr_seek_locks fd; ptr_seek_locks fd]) (ptr_seek_locks fd))
                      (steps [reading (ICopy i); writing (Cursor fd);
                              ptr_seek_locks fd; ptr_seek_locks fd; ptr_seek_locks fd])])
     (Alt (steps [writing (Cursor fd);
                  Alt (steps [ptr_seek_locks fd; ptr_seek_locks fd; ptr_seek_locks fd])
                 (Alt (steps [ptr_seek_locks fd; ptr_seek_locks fd]) (ptr_seek_locks fd))])
          Return)));
      Return ]).

(** FileStatus::_upd_cache *)
Definition upd_cursor_locks (fd i : Z) : cmd :=
  Call (steps
    [ reading (Flag fd i);
      Alt (steps [writing (Flag fd i); reading (Cursor fd); bf_seek_locks fd i; Return]) Skip;
      Return ]).

Definition copy_to_buf_locks (fd i : Z) : cmd :=
  Call (Scoped (FdLock fd) Ex (Scoped (InodeLock i) Sh (steps
    [ reading (ICopy i); may_return;
      upd_cursor_locks fd i; may_return;
      seek_locks fd i; may_return;
      reading (Cursor fd); get_block_locks; may_return;
      Loop (steps [may_return; next_block_locks fd i; may_return;
                   reading (Cursor fd); get_block_locks; may_return]);
      Return ]))).

(** The part of FileStatus::write that makes the file longer. *)
Definition write_grow_locks (fd i : Z) : cmd :=
  steps
    [ reading (ICopy i);
      Loop (steps [reading (ICopy i); alloc_block_inode_locks (ICopy i); may_return;
                   writing (ICopy i)]);
      Alt (steps [alloc_block_inode_locks (ICopy i); may_return]) Skip;
      seek_locks fd i; may_return;
      reading (Cursor fd); get_block_locks; may_return; writing (ICopy i);
      Loop (steps
        [ reading (ICopy i);
          Alt (steps [alloc_block_inode_locks (ICopy i); may_return]) Skip;
          next_block_locks fd i; may_return;
          reading (Cursor fd); get_block_locks; may_return; writing (ICopy i) ]);
      upd_all_locks i; Return ].

(** The part that overwrites bytes; the shared lock is released by hand on
    every path. *)
Definition leave_shared (i : Z) : cmd :=
  Alt (steps [unlock_shared (InodeLock i); Return]) Skip.

Definition write_inside_locks (fd i : Z) : cmd :=
  steps
    [ seek_locks fd i; leave_shared i;
      reading (Cursor fd); get_block_locks; leave_shared i;
      Loop (steps [leave_shared i; next_block_locks fd i; leave_shared i;
                   reading (Cursor fd); get_block_locks; leave_shared i]);
      unlock_shared (InodeLock i); Return ].

Definition write_locks (fd i : Z) : cmd :=
  Call (Scoped (FdLock fd) Ex (steps
    [ lock_shared (InodeLock i);
      reading (ICopy i);
      upd_cursor_locks fd i; leave_shared i;
      reading (Cursor fd);
      Alt (steps [unlock_shared (InodeLock i);
                  Scoped (InodeLock i) Ex (write_grow_locks fd i)])
          (write_inside_locks fd i) ])).

(** ** The handlers *)

Definition fuse_read_locks (fd i : Z) : cmd :=
  Call (Scoped BigLock Sh (steps [may_return; copy_to_buf_locks fd i; Return])).

Definition fuse_write_locks (fd i : Z) : cmd :=
  Call (Scoped BigLock Sh (steps [may_return; write_locks fd i; Return])).

(** The other handlers hold _big_lock exclusively. *)
Definition handler (c : cmd) : cmd := Call (Scoped BigLock Ex c).

Definition fuse_create_locks (fd i : Z) : cmd :=
  handler (steps
    [ inode_create_locks; may_return;
      writing (Cursor fd); writing (Flag fd i); get_cache_locks i; may_return;
      upd_cache_locks i; writing (Flag fd i);
      lock_ (InodeLock i); writing (ICopy i); commit_locks i; unlock (InodeLock i); Return ]).

Definition fuse_open_locks (fd i : Z) : cmd :=
  handler (steps
    [ inode_lookup_locks; may_return; reading Groups; may_return;
      writing (Cursor fd); writing (Flag fd i); get_cache_locks i;
      upd_cache_locks i; writing (Flag fd i);
      lock_ (InodeLock i); writing (ICopy i); unlock (InodeLock i); Return ]).

Definition fuse_rename_locks (depth : nat) : cmd :=
  let check := steps [inode_lookup_locks; may_return; reading Groups; may_return] in
  let link := steps [inode_link_locks; may_return] in
  let unlink := steps [inode_unlink_locks depth; may_return] in
  handler (steps
    [ Alt (steps [check; check; link; unlink; link; link; unlink])
     (Alt (steps [inode_lookup_locks; may_return; check; link; unlink])
     (Alt (steps [check; inode_lookup_locks;
                  Alt (steps [reading Groups; may_return; unlink]) Skip; link; unlink])
          Return));
      Return ]).

Definition fuse_truncate_locks : cmd := handler Return.

Definition fuse_link_locks : cmd := handler (steps [inode_link_locks; may_return; Return]).

Definition fuse_unlink_locks (i : Z) (depth : nat) : cmd :=
  handler (steps
    [ inode_lookup_locks; may_return;
      get_cache_locks i;
      lock_ (InodeLock i);
      reading (ICopy i);
      Alt (steps [unlock (InodeLock i); rel_cache_locks i; Return]) Skip;
      unlock (InodeLock i);
      rel_cache_locks i;
      inode_unlink_locks depth; Return ]).

Definition fuse_access_locks : cmd :=
  handler (steps [inode_lookup_locks; may_return; may_return; reading Groups; may_return; Return]).

(** The common part of chmod, chown, utimens and mkdir. *)
Definition set_attr_locks (i : Z) : cmd :=
  steps [lock_ (InodeLock i); writing (ICopy i); commit_locks i; unlock (InodeLock i);
         rel_cache_locks i; Return].

Definition fuse_utimens_locks (i : Z) : cmd :=
  handler (steps
    [ inode_lookup_locks; may_return; reading Groups; may_return;
      get_cache_locks i; set_attr_locks i ]).

Definition fuse_release_locks (fd i : Z) : cmd :=
  handler (steps [may_return; delete_fd_locks fd i; rel_cache_locks i; Return]).

Definition fuse_fsync_locks (i : Z) : cmd :=
  handler (steps
    [ may_return;
      Alt flush_locks
          (steps [lock_shared (InodeLock i); commit_locks i; unlock_shared (InodeLock i);
                  flush_locks]);
      Return ]).

Definition fuse_chown_locks (i : Z) : cmd :=
  handler (steps [inode_lookup_locks; may_return; get_cache_locks i; set_attr_locks i]).

Definition fuse_getattr_locks (i : Z) : cmd :=
  handler (steps
    [ may_return; inode_lookup_locks; may_return; get_cache_locks i; may_return;
      lock_shared (InodeLock i); reading (ICopy i); unlock_shared (InodeLock i);
      rel_cache_locks i; Return ]).

Definition fuse_chmod_locks (i : Z) : cmd :=
  handler (steps
    [ inode_lookup_locks; may_return; reading Groups; may_return;
      get_cache_locks i; may_return; set_attr_locks i ]).

Definition fuse_readdir_locks : cmd :=
  handler (steps
    [ inode_lookup_locks; may_return; reading Groups; may_return; visit_locks Skip; Return ]).

Definition fuse_mkdir_locks (i : Z) : cmd :=
  handler (steps
    [ inode_create_locks; may_return; reading Groups; may_return;
      get_cache_locks i; may_return; set_attr_locks i ]).

Definition fuse_rmdir_locks (depth : nat) : cmd :=
  handler (steps
    [ inode_lookup_locks; may_return; reading Groups; may_return;
      visit_locks Skip; may_return; inode_unlink_locks depth; Return ]).

Definition fuse_symlink_locks : cmd :=
  handler (steps
    [ inode_lookup_locks; may_return; inode_create_locks; may_return;
      Alt (writing Groups)
          (steps [alloc_block_inode_locks Groups; may_return; writing Blocks]);
      Return ]).

Definition fuse_readlink_locks : cmd :=
  handler (steps
    [ inode_lookup_locks; may_return; reading Groups;
      Alt Skip (steps [get_block_locks; may_return]); Return ]).

(** A request of FUSE, with the handle and the inode it turns out to concern. *)
Inductive request : Type :=
| ReqRead (fd i : Z)
| ReqWrite (fd i : Z)
| ReqCreate (fd i : Z)
| ReqOpen (fd i : Z)
| ReqRename (depth : nat)
| ReqTruncate
| ReqLink
| ReqUnlink (i : Z) (depth : nat)
| ReqAccess
| ReqUtimens (i : Z)
| ReqRelease (fd i : Z)
| ReqFsync (i : Z)
| ReqChown (i : Z)
| ReqGetattr (i : Z)
| ReqChmod (i : Z)
| ReqReaddir
| ReqMkdir (i : Z)
| ReqRmdir (depth : nat)
| ReqSymlink
| ReqReadlink.

Definition serve (r : request) : cmd :=
  match r with
  | ReqRead fd i => fuse_read_locks fd i
  | ReqWrite fd i => fuse_write_locks fd i
  | ReqCreate fd i => fuse_create_locks fd i
  | ReqOpen fd i => fuse_open_locks fd i
  | ReqRename d => fuse_rename_locks d
  | ReqTruncate => fuse_truncate_locks
  | ReqLink => fuse_link_locks
  | ReqUnlink i d => fuse_unlink_locks i d
  | ReqAccess => fuse_access_locks
  | ReqUtimens i => fuse_utimens_locks i
  | ReqRelease fd i => fuse_release_locks fd i
  | ReqFsync i => fuse_fsync_locks i
  | ReqChown i => fuse_chown_locks i
  | ReqGetattr i => fuse_getattr_locks i
  | ReqChmod i => fuse_chmod_locks i
  | ReqReaddir => fuse_readdir_locks
  | ReqMkdir i => fuse_mkdir_locks i
  | ReqRmdir d => fuse_rmdir_locks d
  | ReqSymlink => fuse_symlink_locks
  | ReqReadlink => fuse_readlink_locks
  end.

(** The trace of a thread that serves requests one after the other. *)
Inductive session : list request -> list act -> Prop :=
| session_nil : session [] []
| session_cons r rs t ts b :
    runs (serve r) t b -> session rs ts -> session (r :: rs) (t ++ ts).

(** ** The discipline

    The locks a thread holds, the last one taken first. *)
Abbreviation held := (list (lock * mode)).

Definition rank (l : lock) : Z :=
  match l with
  | BigLock => 0
  | FdLock _ => 1
  | OpmLock => 2
  | InodeLock _ => 3
  | AllocLock => 4
  | BlockLock => 5
  end.

(** The highest rank that is held. *)
Definition top (h : held) : Z := foldr (fun p n => Z.max (rank p.1) n) (-1) h.

Definition has (l : lock) (m : mode) (h : held) : bool := bool_decide ((l, m) ∈ h).

Definition has_any (l : lock) (h : held) : bool := has l Sh h || has l Ex h.

(** The locks that an access needs: _big_lock exclusively, or _big_lock and
    the lock of the data.  The block cache and the groups have no lock that all
    their accesses take: for them [guard] asks for _big_lock in any mode, and
    handlers that hold it shared do touch them together (the race is shown in
    LockThreads). *)
Definition guard (h : held) (w : bool) (r : res) : bool :=
  let mine (l : lock) := if w then has l Ex h else has_any l h in
  has BigLock Ex h ||
  (has_any BigLock h &&
   match r with
   | Cursor fd => has (FdLock fd) Ex h
   | Flag fd i => has (FdLock fd) Ex h && has_any (InodeLock i) h
   | AllFlags i => has (InodeLock i) Ex h
   | ICopy i => mine (InodeLock i)
   | HandleList i => mine (InodeLock i)
   | Caches => has OpmLock Ex h
   | Blocks | Groups => true
   end).

(** What a thread may do: take a lock above those it holds, release the last
    one, touch what it has the lock for. *)
Definition allowed (h : held) (a : act) : bool :=
  match a with
  | Acq l _ => top h <? rank l
  | Rel l m => bool_decide (head h = Some (l, m))
  | Touch w r => guard h w r
  end.

(** The locks held after an action. *)
Definition after (h : held) (a : act) : held :=
  match a with
  | Acq l m => (l, m) :: h
  | Rel l m => filter (fun p => p <> (l, m)) h
  | Touch _ _ => h
  end.

Fixpoint follow (h : held) (t : list act) : option held :=
  match t with
  | [] => Some h
  | a :: t' => if allowed h a then follow (after h a) t' else None
  end.

(** ** The checker

    [chk c h] follows every path of [c] from the locks [h]: the locks held
    when it falls through and when it returns, if it can. *)
Definition join (a b : option held) : option (option held) :=
  match a, b with
  | None, x => Some x
  | x, None => Some x
  | Some x, Some y => if bool_decide (x = y) then Some (Some x) else None
  end.

Definition pop (l : lock) (m : mode) (h : held) (x : option held) : option (option held) :=
  match x with
  | None => Some None
  | Some x => if bool_decide (x = (l, m) :: h) then Some (Some h) else None
  end.

Fixpoint chk (c : cmd) (h : held) : option (option held * option held) :=
  match c with
  | Skip => Some (Some h, None)
  | Do a => if allowed h a then Some (Some (after h a), None) else None
  | Seq c1 c2 =>
      '(n1, r1) ← chk c1 h;
      match n1 with
      | None => Some (None, r1)
      | Some h1 =>
          '(n2, r2) ← chk c2 h1;
          r ← join r1 r2;
          Some (n2, r)
      end
  | Alt c1 c2 =>
      '(n1, r1) ← chk c1 h;
      '(n2, r2) ← chk c2 h;
      n ← join n1 n2;
      r ← join r1 r2;
      Some (n, r)
  | Loop c =>
      '(n, r) ← chk c h;
      n' ← join (Some h) n;
      Some (n', r)
  | Scoped l m c =>
      if allowed h (Acq l m) then
        '(n, r) ← chk c ((l, m) :: h);
        n' ← pop l m h n;
        r' ← pop l m h r;
        Some (n', r')
      else None
  | Return => Some (None, Some h)
  | Call c =>
      '(n, r) ← chk c h;
      n' ← join n r;
      Some (n', None)
  end.

Arguments join : simpl never.

(** ** Soundness of the checker *)

Lemma join_l a b x h : join a b = Some x -> a = Some h -> x = Some h.
Proof. intros H ->. destruct b; unfold join in H; [case_bool_decide|]; by simplify_eq. Qed.

Lemma join_r a b x h : join a b = Some x -> b = Some h -> x = Some h.
Proof. intros H ->. destruct a; unfold join in H; [case_bool_decide|]; by simplify_eq. Qed.

Lemma top_held h l m : (l, m) ∈ h -> rank l <= top h.
Proof.
  induction h as [|p h IH]; [by intros ?%elem_of_nil|].
  intros [<-|?]%elem_of_cons; simpl; [lia|]. specialize (IH ltac:(done)). lia.
Qed.

Lemma follow_app h t1 t2 h1 : follow h t1 = Some h1 -> follow h (t1 ++ t2) = follow h1 t2.
Proof.
  revert h. induction t1 as [|a t1 IH]; intros h; simpl; [by intros [= ->]|].
  destruct (allowed h a); [apply IH|done].
Qed.

(** The lock taken last is the one that is released. *)
Lemma after_rel h l m : top h < rank l -> after ((l, m) :: h) (Rel l m) = h.
Proof.
  intros H. simpl. rewrite filter_cons_False by tauto.
  assert (Hn : (l, m) ∉ h) by (intros ?%top_held; lia). clear H.
  induction h as [|p h IH]; [done|]. apply not_elem_of_cons in Hn as [??].
  rewrite filter_cons_True by done. f_equal. auto.
Qed.

(** A lock held for a block of code is released however the block ends. *)
Lemma follow_scoped l m h t h' x y :
  allowed h (Acq l m) = true -> follow ((l, m) :: h) t = Some h' ->
  pop l m h x = Some y -> x = Some h' ->
  follow h (Acq l m :: t ++ [Rel l m]) = Some h /\ y = Some h.
Proof.
  intros Ha Ht Hp ->. simpl in *. case_bool_decide; [|done]. simplify_eq.
  rewrite Ha, (follow_app _ _ _ _ Ht). simpl. rewrite bool_decide_true by done.
  split; [|done]. f_equal. apply after_rel. lia.
Qed.

Ltac chk_inv :=
  repeat match goal with
  | H : (chk ?c ?h ≫= _) = Some _ |- _ =>
      let E := fresh "E" in destruct (chk c h) as [[??]|] eqn:E; simpl in H; [|discriminate H]
  | H : (join ?a ?b ≫= _) = Some _ |- _ =>
      let E := fresh "J" in destruct (join a b) eqn:E; simpl in H; [|discriminate H]
  | H : (pop ?l ?m ?h ?x ≫= _) = Some _ |- _ =>
      let E := fresh "P" in destruct (pop l m h x) eqn:E; simpl in H; [|discriminate H]
  | H : Some (_, _) = Some (_, _) |- _ => injection H as ? ?; subst
  | IH : forall h n r, chk ?c h = Some (n, r) -> _, E : chk ?c _ = Some (_, _) |- _ =>
      let h := fresh "h" in let F := fresh "F" in let K := fresh "K" in
      destruct (IH _ _ _ E) as (h & F & K); clear IH
  | H : (if ?b then _ else None) = Some _ |- _ => destruct b eqn:?; [|discriminate H]
  end.

(** Every trace of a skeleton that passes the check keeps the discipline and
    ends with the locks the checker says. *)
Lemma chk_sound c t b : runs c t b -> forall h n r, chk c h = Some (n, r) ->
  exists h', follow h t = Some h' /\ (if b then r else n) = Some h'.
Proof.
  induction 1 as [| |c1 c2 t1 t2 b _ IH1 _ IH2|c1 c2 t _ IH|c1 c2 t b _ IH|c1 c2 t b _ IH
    | |c t1 t2 b _ IH1 _ IH2|c t _ IH|l m c t b _ IH| |c t b _ IH]; intros h n r Hc; simpl in Hc.
  - simplify_eq. eauto.
  - simpl. destruct (allowed h a); [|done]. simplify_eq. eauto.
  - chk_inv. simplify_eq. chk_inv. exists h1. rewrite (follow_app _ _ _ _ F).
    split; [done|]. destruct b; [by eapply join_r|done].
  - chk_inv. exists h0. split; [done|]. destruct o; chk_inv; [by eapply join_l|done].
  - chk_inv. exists h0. split; [done|]. destruct b; by eapply join_l.
  - chk_inv. exists h0. split; [done|]. destruct b; by eapply join_r.
  - chk_inv. exists h. split; [done|]. by eapply join_l.
  - specialize (IH2 h n r Hc) as (h2 & F2 & K2). chk_inv. simpl in *. subst.
    assert (Some h = Some h0) by (etrans; [symmetry; by eapply join_l|by eapply join_r]).
    simplify_eq. exists h2. by rewrite (follow_app _ _ _ _ F).
  - chk_inv. eauto.
  - chk_inv. destruct b; eauto using follow_scoped.
  - simplify_eq. eauto.
  - chk_inv. exists h0. split; [done|]. destruct b; [by eapply join_r|by eapply join_l].
Qed.

(** ** The handlers pass the check

    One rule per construct; a function has a signature, [balanced c h]: from
    the locks [h] it returns with [h] on every path. *)
Definition balanced (c : cmd) (h : held) : Prop := chk c h = Some (Some h, None).

Lemma chk_do h a : allowed h a = true -> chk (Do a) h = Some (Some (after h a), None).
Proof. intros H. simpl. by rewrite H. Qed.

Lemma chk_rel h l m : top h < rank l -> chk (Do (Rel l m)) ((l, m) :: h) = Some (Some h, None).
Proof. intros H. rewrite chk_do; [by rewrite after_rel|]. simpl. by rewrite bool_decide_true. Qed.

Lemma chk_seq c1 c2 h h1 r1 n2 r2 r :
  chk c1 h = Some (Some h1, r1) -> chk c2 h1 = Some (n2, r2) -> join r1 r2 = Some r ->
  chk (Seq c1 c2) h = Some (n2, r).
Proof. intros H1 H2 H3. simpl. rewrite H1. simpl. rewrite H2. simpl. by rewrite H3. Qed.

Lemma chk_seq_stop c1 c2 h r1 : chk c1 h = Some (None, r1) -> chk (Seq c1 c2) h = Some (None, r1).
Proof. intros H1. simpl. by rewrite H1. Qed.

Lemma chk_alt c1 c2 h n1 r1 n2 r2 n r :
  chk c1 h = Some (n1, r1) -> chk c2 h = Some (n2, r2) ->
  join n1 n2 = Some n -> join r1 r2 = Some r -> chk (Alt c1 c2) h = Some (n, r).
Proof. intros H1 H2 H3 H4. simpl. rewrite H1. simpl. rewrite H2. simpl. by rewrite H3, H4. Qed.

Lemma chk_loop c h n r n' :
  chk c h = Some (n, r) -> join (Some h) n = Some n' -> chk (Loop c) h = Some (n', r).
Proof. intros H1 H2. simpl. rewrite H1. simpl. by rewrite H2. Qed.

Lemma chk_scoped l m c h n r n' r' :
  top h < rank l -> chk c ((l, m) :: h) = Some (n, r) -> pop l m h n = Some n' ->
  pop l m h r = Some r' -> chk (Scoped l m c) h = Some (n', r').
Proof.
  intros H1 H2 H3 H4. simpl. rewrite (proj2 (Z.ltb_lt _ _) H1), H2. simpl. by rewrite H3, H4.
Qed.

Lemma chk_call c h n r n' : chk c h = Some (n, r) -> join n r = Some n' ->
  chk (Call c) h = Some (n', None).
Proof. intros H1 H2. simpl. rewrite H1. simpl. by rewrite H2. Qed.

Lemma join_same x : join (Some x) (Some x) = Some (Some x).
Proof. unfold join. by rewrite bool_decide_true. Qed.

Lemma pop_same l m h : pop l m h (Some ((l, m) :: h)) = Some (Some h).
Proof. simpl. by rewrite bool_decide_true. Qed.

(** The guard as a proposition. *)
Lemma has_spec l m h : has l m h = true <-> (l, m) ∈ h.
Proof. apply bool_decide_eq_true. Qed.

Lemma has_any_spec l h : has_any l h = true <-> (l, Sh) ∈ h \/ (l, Ex) ∈ h.
Proof. unfold has_any. by rewrite orb_true_iff, !has_spec. Qed.

Definition guarded (h : held) (w : bool) (r : res) : Prop :=
  let any l := (l, Sh) ∈ h \/ (l, Ex) ∈ h in
  let mine l := (l, Ex) ∈ h \/ (w = false /\ (l, Sh) ∈ h) in
  (BigLock, Ex) ∈ h \/
  (any BigLock /\
   match r with
   | Cursor fd => (FdLock fd, Ex) ∈ h
   | Flag fd i => (FdLock fd, Ex) ∈ h /\ any (InodeLock i)
   | AllFlags i => (InodeLock i, Ex) ∈ h
   | ICopy i | HandleList i => mine (InodeLock i)
   | Caches => (OpmLock, Ex) ∈ h
   | Blocks | Groups => True
   end).

Lemma guard_spec h w r : guard h w r = true <-> guarded h w r.
Proof.
  unfold guard, guarded. rewrite orb_true_iff, has_spec, andb_true_iff, has_any_spec.
  destruct r; rewrite ?andb_true_iff, ?has_any_spec, ?has_spec; try tauto;
    destruct w; rewrite ?has_any_spec, ?has_spec; intuition discriminate.
Qed.

Lemma guarded_cons p h w r : guarded h w r -> guarded (p :: h) w r.
Proof. unfold guarded. destruct r; rewrite !elem_of_cons; tauto. Qed.

Lemma guarded_read h w r : guarded h true r -> guarded h w r.
Proof. unfold guarded. destruct r; intuition discriminate. Qed.

(** A function of the file system needs _big_lock, in one mode or the other. *)
Definition in_call (h : held) : Prop := (BigLock, Sh) ∈ h \/ (BigLock, Ex) ∈ h.

Lemma guarded_fs h w r : in_call h -> r = Blocks \/ r = Groups -> guarded h w r.
Proof. unfold in_call, guarded. intros ? [->| ->]; tauto. Qed.

Lemma guarded_big h w r : (BigLock, Ex) ∈ h -> guarded h w r.
Proof. by left. Qed.

Lemma in_call_cons p h : in_call h -> in_call (p :: h).
Proof. unfold in_call. rewrite !elem_of_cons. tauto. Qed.

Ltac in_held := repeat first [apply list_elem_of_here | apply list_elem_of_further]; done.

Ltac in_call_tac :=
  first [assumption | apply in_call_cons; in_call_tac | left; in_held | right; in_held].

Ltac guard_tac :=
  first
    [ assumption
    | apply guarded_fs; [in_call_tac|first [by left|by right]]
    | apply guarded_big; in_held
    | apply guarded_read; assumption
    | apply guarded_cons; guard_tac
    | right; split; [in_call_tac|];
      first [ in_held | split; [in_held|first [left; in_held | right; in_held]]
            | left; in_held | right; split; [reflexivity|in_held] ] ].

Ltac rank_tac := simpl in *; lia.

Lemma use_balanced c h : balanced c h -> chk c h = Some (Some h, None).
Proof. done. Qed.

Create HintDb sigs.
#[export] Hint Extern 1 (in_call _) => in_call_tac : sigs.
#[export] Hint Extern 1 (guarded _ _ _) => guard_tac : sigs.
#[export] Hint Extern 1 (_ < _) => rank_tac : sigs.
#[export] Hint Extern 1 (_ ∈ _) => in_held : sigs.

Ltac check_join := first [apply join_same | apply pop_same | reflexivity].

(** Computes the result of the checker: rule by rule, with the signature of a
    function where it has one, and by its body otherwise. *)
Ltac check :=
  lazymatch goal with
  | |- balanced _ _ => unfold balanced; check
  | |- chk (steps _) _ = _ => cbn [steps foldr]; check
  | |- chk Skip _ = _ => reflexivity
  | |- chk Return _ = _ => reflexivity
  | |- chk (Do (Acq _ _)) _ = _ => apply chk_do; apply Z.ltb_lt; rank_tac
  | |- chk (Do (Rel _ _)) _ = _ => apply chk_rel; rank_tac
  | |- chk (Do (Touch _ _)) _ = _ => apply chk_do; apply guard_spec; guard_tac
  | |- chk (Seq _ _) _ = _ =>
      first [eapply chk_seq; [check|check|check_join] | eapply chk_seq_stop; check]
  | |- chk (Alt _ _) _ = _ => eapply chk_alt; [check|check|check_join|check_join]
  | |- chk (Loop _) _ = _ => eapply chk_loop; [check|check_join]
  | |- chk (Scoped _ _ _) _ = _ => eapply chk_scoped; [rank_tac|check|check_join|check_join]
  | |- chk (Call _) _ = _ => eapply chk_call; [check|check_join]
  | |- chk ?c ?h = _ =>
      first [ eapply use_balanced; solve [eauto 3 with sigs nocore]
            | let f := head_of c in unfold f; check ]
  end
with head_of c :=
  lazymatch c with
  | ?f _ => head_of f
  | ?f => f
  end.

Lemma get_block_balanced h : in_call h -> top h < 5 -> balanced get_block_locks h.
Proof. intros. unfold get_block_locks. check. Qed.
#[export] Hint Resolve get_block_balanced : sigs.

Lemma alloc_block_inode_balanced r h : in_call h -> top h < 4 -> guarded h true r ->
  balanced (alloc_block_inode_locks r) h.
Proof. intros. unfold alloc_block_inode_locks. check. Qed.
#[export] Hint Resolve alloc_block_inode_balanced : sigs.

Section Calls.
Context (h : held) (Hc : in_call h) (Ht : top h < 4).

Lemma inode_lookup_balanced : balanced inode_lookup_locks h.
Proof using All. unfold inode_lookup_locks. check. Qed.
#[local] Hint Resolve inode_lookup_balanced : sigs.

Lemma dentry_create_balanced : balanced dentry_create_locks h.
Proof using All. unfold dentry_create_locks. check. Qed.
#[local] Hint Resolve dentry_create_balanced : sigs.

Lemma inode_create_balanced : balanced inode_create_locks h.
Proof using All. unfold inode_create_locks. check. Qed.

Lemma inode_link_balanced : balanced inode_link_locks h.
Proof using All. unfold inode_link_locks. check. Qed.

Lemma inode_delete_balanced d : balanced (inode_delete_locks d) h.
Proof using All. induction d as [|d IH]; [done|]. cbn [inode_delete_locks]. check. Qed.
#[local] Hint Resolve inode_delete_balanced : sigs.

Lemma inode_unlink_balanced d : balanced (inode_unlink_locks d) h.
Proof using All. unfold inode_unlink_locks. check. Qed.
End Calls.
#[export] Hint Resolve inode_lookup_balanced inode_create_balanced inode_link_balanced
inode_unlink_balanced : sigs.

Section Cursor.
Context (h : held) (fd i : Z) (Hc : in_call h) (Ht : top h < 4).
Context (Hfd : guarded h true (Cursor fd)) (Hi : guarded h false (ICopy i)).

Lemma bf_seek_balanced : balanced (bf_seek_locks fd i) h.
Proof using All. unfold bf_seek_locks. check. Qed.
#[local] Hint Resolve bf_seek_balanced : sigs.

Lemma seek_balanced : balanced (seek_locks fd i) h.
Proof using All. unfold seek_locks. check. Qed.

Lemma next_block_balanced : balanced (next_block_locks fd i) h.
Proof using All. unfold next_block_locks. check. Qed.
End Cursor.
#[export] Hint Resolve bf_seek_balanced seek_balanced next_block_balanced : sigs.

(** Every handler returns with no lock held, on every path. *)
Lemma serve_balanced r : balanced (serve r) [].
Proof. destruct r; unfold serve; check. Qed.

Lemma serve_follow r t b : runs (serve r) t b -> follow [] t = Some [].
Proof.
  intros H. destruct (chk_sound _ _ _ H _ _ _ (serve_balanced r)) as (h & F & E).
  destruct b; by simplify_eq.
Qed.

Lemma session_follow rs t : session rs t -> follow [] t = Some [].
Proof.
  induction 1 as [|r rs t ts b H _ IH]; [done|].
  by rewrite (follow_app _ _ _ _ (serve_follow _ _ _ H)).
Qed.

(** ** Running skeletons

    A skeleton with its choices: [true] is the first branch, or one round of a
    loop. *)
Fixpoint pick (c : cmd) (bs : list bool) : option (list act * bool * list bool) :=
  match c with
  | Skip => Some ([], false, bs)
  | Do a => Some ([a], false, bs)
  | Seq c1 c2 =>
      '(t1, b1, bs1) ← pick c1 bs;
      if b1 : bool then Some (t1, true, bs1)
      else '(t2, b2, bs2) ← pick c2 bs1; Some (t1 ++ t2, b2, bs2)
  | Alt c1 c2 =>
      match bs with
      | [] => None
      | b :: bs => if b : bool then pick c1 bs else pick c2 bs
      end
  | Loop c =>
      match bs with
      | [] => None
      | b :: bs => if b : bool then pick c bs else Some ([], false, bs)
      end
  | Scoped l m c => '(t, b, bs') ← pick c bs; Some (Acq l m :: t ++ [Rel l m], b, bs')
  | Return => Some ([], true, bs)
  | Call c => '(t, _, bs') ← pick c bs; Some (t, false, bs')
  end.

Lemma loop_once c t b : runs c t b -> runs (Loop c) t b.
Proof.
  intros H. destruct b; [by apply run_loop_ret|].
  rewrite <-(app_nil_r t). eapply run_loop; [done|apply run_loop_end].
Qed.

Lemma pick_runs c : forall bs t b bs', pick c bs = Some (t, b, bs') -> runs c t b.
Proof.
  induction c as [|a|c1 IH1 c2 IH2|c1 IH1 c2 IH2|c IH|l m c IH| |c IH]; intros bs t b bs' H;
    simpl in H; try (simplify_eq; by constructor).
  - destruct (pick c1 bs) as [[[t1 [|]] bs1]|] eqn:E1; simplify_eq/=.
    { eapply run_seq_ret, IH1, E1. }
    destruct (pick c2 bs1) as [[[t2 b2] bs2]|] eqn:E2; simplify_eq/=.
    eapply run_seq; [eapply IH1, E1|eapply IH2, E2].
  - destruct bs as [|[|] bs]; [done| |]; [eapply run_alt_l, IH1, H|eapply run_alt_r, IH2, H].
  - destruct bs as [|[|] bs]; simplify_eq/=; [eapply loop_once, IH, H|constructor].
  - destruct (pick c bs) as [[[t1 b1] bs1]|] eqn:E1; simplify_eq/=. eapply run_scoped, IH, E1.
  - destruct (pick c bs) as [[[t1 b1] bs1]|] eqn:E1; simplify_eq/=. eapply run_call, IH, E1.
Qed.

Definition trace_of (c : cmd) (bs : list bool) : list act :=
  from_option (fun x => x.1.1) [] (pick c bs).

(** A read of a direct block that is in the cache, the same when the block is
    not in the cache, and a write that adds a direct block. *)
Definition read_hit : list bool :=
  [false; false; false; false; true; true; false; false; false; false].

Definition read_miss : list bool :=
  [false; false; false; false; true; true; false; true; true; false; false; false].

Definition write_grow : list bool :=
  [false; false; false; true; false; true; false; false; true; false; true; true; false; false;
   false; false].

Definition session_of (r : request) (bs : list bool) : list act := trace_of (serve r) bs.

(** ** The discipline of the handlers *)

(** C15. Lock discipline of every handler: on every path of every request,
    early returns included, locks are taken in the order _big_lock,
    FileStatus::rwlock, OpManager::m_, inode_rwlock_, alloc_block's and
    get_block's m_, and released in the opposite order; cursors and their flags,
    shared copies of inodes, lists of handles and the map of OpManager are
    touched only under _big_lock taken exclusively or under it and their own
    lock, the block cache and the groups only under _big_lock in some mode (which
    does not keep two threads apart); the handler returns with no lock held. *)
Theorem handler_lock_discipline (r : request) (t : list act) (b : bool) :
  runs (serve r) t b -> follow [] t = Some [].
Proof. apply serve_follow. Qed.

Lemma handler_lock_discipline_witness :
  follow [] (trace_of (serve (ReqWrite 1 5)) write_grow) = Some [].
Proof.
  eapply (handler_lock_discipline (ReqWrite 1 5)).
  eapply (pick_runs _ write_grow). reflexivity.
Defined.
