(* ===== verification/LockThreads.v ===== *)
(** * LockThreads: threads that serve requests

    The threads of FUSE interleave the traces of Locks.v.  A step takes,
    releases or touches; the states that requests can reach keep the lock
    discipline and mutual exclusion, so there is no deadlock, every request is
    served, and what a lock protects is free of data races.  The block cache
    and the block groups are not. *)
From S2P Require Import Prelude Locks.

(** ** Threads

    A thread is the locks it holds and the rest of its trace; a step is one
    action of one thread.  A lock is granted when no other thread holds it in
    a mode that excludes the new one; taking a lock twice is never granted. *)
Definition thread : Type := held * list act.

Definition compatible (m m' : mode) : Prop := m = Sh /\ m' = Sh.

Definition grants (ts : list thread) (k : nat) (l : lock) (m : mode) : Prop :=
  forall j h t m', ts !! j = Some (h, t) -> (l, m') ∈ h -> j <> k /\ compatible m m'.

Definition enabled (ts : list thread) (k : nat) (h : held) (a : act) : Prop :=
  match a with
  | Acq l m => grants ts k l m
  | Rel l m => (l, m) ∈ h
  | Touch _ _ => True
  end.

Inductive step : list thread -> list thread -> Prop :=
| step_act ts k h a t :
    ts !! k = Some (h, a :: t) -> enabled ts k h a ->
    step ts (<[k := (after h a, t)]> ts).

Definition launch (traces : list (list act)) : list thread := (fun t => ([], t)) <$> traces.

(** Threads that serve the requests [rss], in any of their runs. *)
Definition serving (rss : list (list request)) (ts : list thread) : Prop :=
  exists traces, Forall2 session rss traces /\ ts = launch traces.

Definition reachable (rss : list (list request)) (ts : list thread) : Prop :=
  exists ts0, serving rss ts0 /\ rtc step ts0 ts.

Definition finished (ts : list thread) : Prop := Forall (fun th => th = ([], [])) ts.

(** The actions that are left. *)
Definition pending (ts : list thread) : nat := sum_list_with (fun th => length th.2) ts.

(** ** The invariant of the threads *)

Definition disciplined (ts : list thread) : Prop :=
  forall k h t, ts !! k = Some (h, t) -> follow h t = Some [].

Definition exclusive (ts : list thread) : Prop :=
  forall j k h1 t1 h2 t2 l m1 m2, j <> k -> ts !! j = Some (h1, t1) -> ts !! k = Some (h2, t2) ->
    (l, m1) ∈ h1 -> (l, m2) ∈ h2 -> compatible m1 m2.

Lemma follow_cons_inv h a t : follow h (a :: t) = Some [] ->
  allowed h a = true /\ follow (after h a) t = Some [].
Proof. simpl. by destruct (allowed h a). Qed.

Lemma after_sub h a p : p ∈ after h a -> p ∈ h \/ exists l m, a = Acq l m /\ p = (l, m).
Proof.
  destruct a as [l m|l m|w r]; simpl; [|rewrite list_elem_of_filter; tauto|tauto].
  rewrite elem_of_cons. intros [->|]; eauto.
Qed.

Lemma step_disciplined ts ts' : step ts ts' -> disciplined ts -> disciplined ts'.
Proof.
  intros [ts0 k h a t Hk _] D j h' t' Hj.
  apply list_lookup_insert_Some in Hj as [(<- & [= <- <-] & _)|[_ Hj]]; [|by eapply D].
  by apply (follow_cons_inv h a t), (D k).
Qed.

Lemma step_exclusive ts ts' : step ts ts' -> exclusive ts -> exclusive ts'.
Proof.
  intros [ts0 k h a t Hk En] E i j h1 t1 h2 t2 l m1 m2 Hij Hi Hj I1 I2.
  assert (G : forall l m, a = Acq l m -> forall j h t m', ts0 !! j = Some (h, t) ->
    (l, m') ∈ h -> j <> k -> compatible m m').
  { intros l' m' -> n hn tn mn Hn Hin _. by eapply En. }
  apply list_lookup_insert_Some in Hi as [(<- & [= <- <-] & _)|[Nk Hi]];
    apply list_lookup_insert_Some in Hj as [(<- & [= <- <-] & _)|[Nk' Hj]]; try done.
  - apply after_sub in I1 as [I1|(? & ? & -> & [= -> ->])]; [by eapply (E k j)|].
    by eapply (G _ _ eq_refl j).
  - apply after_sub in I2 as [I2|(? & ? & -> & [= -> ->])]; [by eapply (E i k)|].
    destruct (G _ _ eq_refl i _ _ _ Hi I1) as [-> ->]; done.
  - by eapply (E i j).
Qed.

Lemma launch_disciplined rss ts : serving rss ts -> disciplined ts /\ exclusive ts.
Proof.
  intros (traces & Hs & ->). split.
  - intros k h t Hk. apply list_lookup_fmap_Some in Hk as (t' & [= -> ->] & Hk).
    destruct (Forall2_lookup_r _ _ _ _ _ Hs Hk) as (rs & _ & ?). by eapply session_follow.
  - intros j k h1 t1 h2 t2 l m1 m2 _ Hj _ I1 _.
    apply list_lookup_fmap_Some in Hj as (? & [= -> ->] & _). by apply elem_of_nil in I1.
Qed.

Lemma reachable_ok rss ts : reachable rss ts -> disciplined ts /\ exclusive ts.
Proof.
  intros (ts0 & H0%launch_disciplined & Hr). revert H0.
  induction Hr as [ts|ts1 ts2 ts3 Hs _ IH]; [done|].
  intros []. apply IH. split; [by eapply step_disciplined|by eapply step_exclusive].
Qed.

(** ** No deadlock, and every request is served *)

Lemma max_exists {A} (f : A -> Z) (l : list A) x : x ∈ l ->
  exists y, y ∈ l /\ forall z, z ∈ l -> f z <= f y.
Proof.
  revert x. induction l as [|a l IH]; [by intros x ?%elem_of_nil|]. intros x _.
  destruct l as [|b l].
  { exists a. split; [apply list_elem_of_here|]. intros z ->%list_elem_of_singleton. lia. }
  destruct (IH b (list_elem_of_here _ _)) as (y & Hy & Hm).
  destruct (Z.le_gt_cases (f a) (f y)).
  - exists y. split; [by apply list_elem_of_further|]. intros z [->|?]%elem_of_cons; auto.
  - exists a. split; [apply list_elem_of_here|]. intros z [->|Hz]%elem_of_cons; [lia|].
    specialize (Hm z Hz). lia.
Qed.

Definition busy (ts : list thread) : list thread := filter (fun th => th.2 <> []) ts.

(** The busy thread that holds the highest lock is never blocked: what it
    asks for lies above every lock that is held. *)
Lemma highest_enabled ts k h a t : disciplined ts -> ts !! k = Some (h, a :: t) ->
  (forall th, th ∈ busy ts -> top th.1 <= top h) -> enabled ts k h a.
Proof.
  intros D Hk Hmax. destruct (follow_cons_inv _ _ _ (D _ _ _ Hk)) as [Ha _].
  destruct a as [l m|l m|w r]; simpl in *; [|apply bool_decide_eq_true in Ha|done].
  - apply Z.ltb_lt in Ha. intros j h' t' m' Hj Hl. exfalso.
    destruct t' as [|a' t']; [apply D in Hj; simplify_eq/=; by apply elem_of_nil in Hl|].
    assert (top h' <= top h) by (apply (Hmax (h', a' :: t')), list_elem_of_filter; split;
      [done|by eapply list_elem_of_lookup_2]).
    apply top_held in Hl. lia.
  - destruct h; simplify_eq/=. apply list_elem_of_here.
Qed.

Lemma progress ts : disciplined ts -> finished ts \/ exists ts', step ts ts'.
Proof.
  intros D. destruct (busy ts) as [|th ths] eqn:Hb.
  - left. apply Forall_lookup. intros k [h t] Hk.
    destruct t as [|a t]; [apply D in Hk; by simplify_eq/=|].
    assert (Hin : (h, a :: t) ∈ busy ts)
      by (apply list_elem_of_filter; split; [done|by eapply list_elem_of_lookup_2]).
    rewrite Hb in Hin. by apply elem_of_nil in Hin.
  - right. destruct (max_exists (fun th => top th.1) (busy ts) th) as ([h t] & Hin & Hm).
    { rewrite Hb. apply list_elem_of_here. }
    apply list_elem_of_filter in Hin as [Ht [k Hk]%list_elem_of_lookup_1].
    destruct t as [|a t]; [done|]. eexists. eapply step_act; [done|].
    by eapply highest_enabled.
Qed.

Lemma step_pending ts ts' : step ts ts' -> pending ts = S (pending ts').
Proof.
  intros [ts0 k h a t Hk _]. unfold pending.
  rewrite (insert_take_drop ts0 k) by (by eapply lookup_lt_Some).
  rewrite <-(take_drop_middle ts0 k _ Hk) at 1.
  rewrite !sum_list_with_app. simpl. lia.
Qed.

Lemma nsteps_pending n ts ts' : nsteps step n ts ts' -> (n + pending ts' = pending ts)%nat.
Proof. induction 1 as [|n ts1 ts2 ts3 H%step_pending _ IH]; lia. Qed.

(** ** No data race *)

(** Two accesses concern the same data. *)
Definition overlap (r1 r2 : res) : Prop :=
  match r1, r2 with
  | Flag fd _, Flag fd' _ => fd = fd'
  | Flag _ i, AllFlags i' | AllFlags i', Flag _ i => i = i'
  | _, _ => r1 = r2
  end.

(** Two threads are about to touch the same data, one of them to write. *)
Definition race (ts : list thread) (r : res) : Prop :=
  exists j k h1 t1 h2 t2 w1 w2 r', j <> k /\
    ts !! j = Some (h1, Touch w1 r :: t1) /\ ts !! k = Some (h2, Touch w2 r' :: t2) /\
    overlap r r' /\ (w1 || w2 = true).

Definition clash (h1 h2 : held) : Prop :=
  exists l m1 m2, (l, m1) ∈ h1 /\ (l, m2) ∈ h2 /\ (m1 = Ex \/ m2 = Ex).

Lemma clash_on l m1 m2 h1 h2 :
  (l, m1) ∈ h1 -> (l, m2) ∈ h2 -> m1 = Ex \/ m2 = Ex -> clash h1 h2.
Proof. intros. by exists l, m1, m2. Qed.

Lemma guarded_clash h1 h2 w1 w2 r1 r2 : guarded h1 w1 r1 -> guarded h2 w2 r2 ->
  overlap r1 r2 -> w1 || w2 = true -> r1 <> Blocks -> r1 <> Groups -> clash h1 h2.
Proof.
  intros G1 G2 O W N1 N2. unfold guarded in *.
  destruct r1, r2; simpl in O; simplify_eq; destruct_or?; destruct_and?; destruct_or?;
    destruct_and?; subst; try discriminate; eauto using clash_on.
Qed.

(** ** The theorems on the threads *)

(** C12. Every request is served: for any number of threads with any requests,
    a run makes at most as many steps as the threads have actions, and a state
    where no thread can move is one where all requests are served and all
    locks are free; so there is no deadlock. *)
Theorem requests_complete (rss : list (list request)) (ts0 : list thread) : serving rss ts0 ->
  (forall n ts, nsteps step n ts0 ts -> (n + pending ts = pending ts0)%nat) /\
  (forall ts, rtc step ts0 ts -> (forall ts', ~ step ts ts') -> finished ts).
Proof.
  intros H. split; [intros n ts; apply nsteps_pending|]. intros ts Hr Hstuck.
  destruct (reachable_ok rss ts) as [D _]; [by exists ts0|].
  destruct (progress ts D) as [|[ts' ?]]; [done|]. by destruct (Hstuck ts').
Qed.

(** C13. No data race on cursors, their flags, shared copies of inodes, lists of
    handles and the map of OpManager, however the threads interleave. *)
Theorem no_data_race (rss : list (list request)) (ts : list thread) (r : res) :
  reachable rss ts -> r <> Blocks -> r <> Groups -> ~ race ts r.
Proof.
  intros [D E]%reachable_ok N1 N2 (j & k & h1 & t1 & h2 & t2 & w1 & w2 & r' & Hjk & Hj & Hk & O & W).
  destruct (follow_cons_inv _ _ _ (D _ _ _ Hj)) as [G1%guard_spec _].
  destruct (follow_cons_inv _ _ _ (D _ _ _ Hk)) as [G2%guard_spec _].
  destruct (guarded_clash _ _ _ _ _ _ G1 G2 O W N1 N2) as (l & m1 & m2 & I1 & I2 & M).
  destruct (E _ _ _ _ _ _ _ _ _ Hjk Hj Hk I1 I2) as [-> ->]. by destruct M.
Qed.

(** ** Schedules *)

Definition granted (ts : list thread) (k : nat) (l : lock) (m : mode) : bool :=
  forallb (fun jt : nat * thread =>
    negb (has_any l jt.2.1) ||
    (negb (jt.1 =? k)%nat && bool_decide (m = Sh) && negb (has l Ex jt.2.1))) (imap pair ts).

Definition able (ts : list thread) (k : nat) (h : held) (a : act) : bool :=
  match a with
  | Acq l m => granted ts k l m
  | Rel l m => has l m h
  | Touch _ _ => true
  end.

Lemma granted_spec ts k l m : granted ts k l m = true -> grants ts k l m.
Proof.
  unfold granted. rewrite forallb_forall. intros H j h t m' Hj Hl.
  specialize (H (j, (h, t))). simpl in H.
  rewrite orb_true_iff, !andb_true_iff, negb_true_iff, bool_decide_eq_true in H.
  destruct H as [H|((Hjk & ->) & Hx)].
  { apply list_elem_of_In, list_elem_of_lookup. exists j. apply list_lookup_imap_Some. eauto. }
  - assert (has_any l h = true) by (apply has_any_spec; destruct m'; tauto). congruence.
  - apply negb_true_iff, Nat.eqb_neq in Hjk. split; [done|]. split; [done|].
    destruct m'; [done|]. apply has_spec in Hl. by rewrite Hl in Hx.
Qed.

Fixpoint sched (ks : list nat) (ts : list thread) : option (list thread) :=
  match ks with
  | [] => Some ts
  | k :: ks' =>
      match ts !! k with
      | Some (h, a :: t) => if able ts k h a then sched ks' (<[k := (after h a, t)]> ts) else None
      | _ => None
      end
  end.

Lemma sched_steps ks : forall ts ts', sched ks ts = Some ts' -> rtc step ts ts'.
Proof.
  induction ks as [|k ks IH]; intros ts ts'; simpl; [intros [= ->]; apply rtc_refl|].
  destruct (ts !! k) as [[h [|a t]]|] eqn:Hk; try done.
  destruct (able ts k h a) eqn:Ha; [|done]. intros H%IH. eapply rtc_l; [|done].
  eapply step_act; [done|]. destruct a; simpl in *; [by apply granted_spec|by apply has_spec|done].
Qed.

Lemma session_one r bs : is_Some (pick (serve r) bs) -> session [r] (session_of r bs).
Proof.
  intros [[[t b] bs'] H]. unfold session_of, trace_of. rewrite H. simpl. rewrite <-(app_nil_r t).
  eapply session_cons; [by eapply pick_runs|constructor].
Qed.

Lemma serving_two r1 bs1 r2 bs2 :
  is_Some (pick (serve r1) bs1) -> is_Some (pick (serve r2) bs2) ->
  serving [[r1]; [r2]] (launch [session_of r1 bs1; session_of r2 bs2]).
Proof.
  intros H1 H2. eexists. split; [|reflexivity].
  apply Forall2_cons_2; [by apply session_one|].
  apply Forall2_cons_2; [by apply session_one|constructor].
Qed.

Lemma sched_reachable r1 bs1 r2 bs2 ks ts :
  is_Some (pick (serve r1) bs1) -> is_Some (pick (serve r2) bs2) ->
  sched ks (launch [session_of r1 bs1; session_of r2 bs2]) = Some ts ->
  reachable [[r1]; [r2]] ts.
Proof.
  intros H1 H2 H. exists (launch [session_of r1 bs1; session_of r2 bs2]).
  split; [by apply serving_two|by eapply sched_steps].
Qed.

(** Two threads before the [n1]-th and [n2]-th action of their traces. *)
Definition meet (n1 n2 : nat) : list nat := replicate n1 0%nat ++ replicate n2 1%nat.

Ltac at_race :=
  exists 0%nat, 1%nat; do 7 eexists; split; [discriminate|];
  split; [reflexivity|]; split; [reflexivity|]; split; reflexivity.

(** C40. The block cache and the block groups are not protected: two reads of
    different files reorder the list of the cache at the same time, each under
    the shared lock of get_block; a write that allocates a block inserts it
    into the cache while a read holds that lock exclusively, and takes it from
    a group while a read is loading one. *)
Theorem block_cache_race :
  (exists ts, reachable [[ReqRead 1 5]; [ReqRead 2 6]] ts /\ race ts Blocks) /\
  (exists ts, reachable [[ReqWrite 1 5]; [ReqRead 2 6]] ts /\ race ts Blocks /\
     exists h t, ts !! 1%nat = Some (h, t) /\ (BlockLock, Ex) ∈ h) /\
  (exists ts, reachable [[ReqWrite 1 5]; [ReqRead 2 6]] ts /\ race ts Groups).
Proof.
  split; [|split]; eexists.
  - split; [apply (sched_reachable _ read_hit _ read_hit (meet 10 10));
      [by eexists|by eexists|reflexivity]|at_race].
  - split; [apply (sched_reachable _ write_grow _ read_miss (meet 12 14));
      [by eexists|by eexists|reflexivity]|].
    split; [at_race|]. do 2 eexists. split; [reflexivity|in_held].
  - split; [apply (sched_reachable _ write_grow _ read_miss (meet 11 15));
      [by eexists|by eexists|reflexivity]|at_race].
Qed.

(** A write and a read of the same file. *)
Lemma requests_complete_witness :
  let ts0 := launch [session_of (ReqWrite 1 5) write_grow; session_of (ReqRead 2 5) read_hit] in
  serving [[ReqWrite 1 5]; [ReqRead 2 5]] ts0
  /\ forall ts, rtc step ts0 ts -> (forall ts', ~ step ts ts') -> finished ts.
Proof.
  intros ts0. assert (Hs : serving [[ReqWrite 1 5]; [ReqRead 2 5]] ts0) by (apply serving_two; by eexists).
  split; [exact Hs|]. exact (proj2 (requests_complete [[ReqWrite 1 5]; [ReqRead 2 5]] ts0 Hs)).
Defined.

Lemma no_data_race_witness : exists ts,
  sched (meet 5 10) (launch [session_of (ReqRead 1 5) read_hit; session_of (ReqRead 2 5) read_hit])
    = Some ts /\ ~ race ts (ICopy 5).
Proof.
  eexists. split; [reflexivity|].
  apply (no_data_race [[ReqRead 1 5]; [ReqRead 2 5]]); [|discriminate|discriminate].
  apply (sched_reachable _ read_hit _ read_hit (meet 5 10)); [by eexists|by eexists|reflexivity].
Defined.
